(* ===== verification/_CoqProject ===== *)
-Q . S2P
Prelude.v
PyDict.v
PyStr.v
Cudf.v
BaseTok.v
Tokenizers.v
TokenizerFacts.v
Pipeline.v
PipelineFacts.v
PipelineProps.v
Financial.v
FinancialFacts.v
BlockStore.v
RefBundle.v
RefBundleFacts.v
Split.v
SplitFacts.v
Equalize.v
EqualizeFacts.v
Batcher.v
BatcherFacts.v
PyFloat.v
RoundRobin.v
RoundRobinFacts.v
InstanceUtil.v
Storage.v
StorageFacts.v
InstanceManager.v
InstanceUtilFacts.v
InstanceManagerFacts.v
Checkpoints.v
CheckpointOrder.v
CheckpointFacts.v
CheckpointUpdate.v
CheckpointLoad.v
CheckpointProps.v
Validation.v
ValidationFacts.v
ValidationSteps.v
ReportHandlerFacts.v
ValidationProps.v
FailurePolicy.v
Controller.v
ControllerFacts.v
ControllerProps.v
TrainResult.v
TemporalSplit.v
TemporalSplitFacts.v
TemporalSplitProps.v
Sequences.v
SchedNode.v
Scheduler.v
SchedNodeFacts.v
SchedulerFacts.v
SchedulerInv.v
SchedulerSteps.v
SchedulerProps.v
SchedulerSpec.v
Reconciler.v
ReconcilerFacts.v
ReconcilerUpdates.v
ReconcilerInv.v
ReconcilerRounds.v
ReconcilerAlloc.v
ReconcilerSync.v
ReconcilerStep.v
ReconcilerProps.v
ReconcilerRun.v
Subscribers.v
SubscribersFacts.v
Autoscaler.v
AutoscalerFacts.v
AutoscalerProps.v
Coordinator.v
CoordinatorFacts.v
CoordinatorProps.v
CoordinatorClient.v
Tpu.v
Elastic.v
ServeAutoscaling.v
