(* ===== verification/Prelude.v ===== *)
(** * Verification library for the Transaction Foundation Model workspace

    The repository holds a transaction foundation model (src/tfm_repo: split
    raw transactions in time, tokenize them with a GPU pipeline, pack them into
    training sequences) and the copy of Ray (src/ray) it runs on.  This library
    models the Python core of both as pure functions, error monads and step
    functions, and proves what makes them correct.

    ** Parts, files and source

    Data preparation, src/tfm_repo:
    - scripts/create_temporal_splits.py: TemporalSplit (the script),
      TemporalSplitFacts, TemporalSplitProps;
    - src/tokenizer/base.py and the step classes: Cudf (the data-frame
      libraries), BaseTok, Tokenizers (one Module per class), TokenizerFacts;
    - src/tokenizer/pipeline.py: Pipeline (Module TokenizerPipeline, against the
      class [Tokenizer] only), PipelineFacts, PipelineProps;
    - src/tokenizer/financial_pipeline.py, financial_tokenizer.py: Financial,
      FinancialFacts;
    - src/ray_tokenize.py, src/ray_common.py: Sequences.
    The split feeds the tokenizer, whose rows of ids [build_sequences] packs;
    [sequence_constants] ties the sizes of the three together.

    Blocks of Ray Data, src/ray/python/ray/data/_internal:
    - block metadata and the object store: BlockStore;
    - execution/interfaces/ref_bundle.py: RefBundle, RefBundleFacts;
    - split.py and equalize.py, which calls it: Split, SplitFacts, Equalize,
      EqualizeFacts;
    - batcher.py, delegating_block_builder.py, block_batching/util.py: Batcher,
      BatcherFacts (the iterator against the contract [BatcherLaws]);
    - weighted_round_robin.py: PyFloat (binary64), RoundRobin, RoundRobinFacts;
    - cluster_autoscaler/default_autoscaling_coordinator.py: Coordinator (the
      actor: requests, allocation, the cluster's nodes), CoordinatorFacts
      (packing bundles on nodes), CoordinatorProps; CoordinatorClient (the
      proxy that never blocks, in a system of one proxy, the actor and the
      messages between them).

    Autoscaler v2, src/ray/python/ray/autoscaler/v2:
    - instance_manager/common.py: InstanceUtil, InstanceUtilFacts;
    - instance_manager/storage.py, instance_storage.py: Storage, StorageFacts
      ([StorageLaws] is the interface, [InMemoryStorage] its implementation);
    - instance_manager/instance_manager.py: InstanceManager,
      InstanceManagerFacts, against [StorageLaws];
    - scheduler.py, one node: SchedNode (messages, resize state of schema.py,
      [SchedulingNode], scores), SchedNodeFacts;
    - scheduler.py, a round: Scheduler ([ScheduleContext] as a list of node
      objects with identities, since one object may occur several times;
      [_try_schedule]; the steps of [schedule]), SchedulerFacts (placing),
      SchedulerInv and SchedulerSteps (terminating; the invariants [ready] and
      [limited]), SchedulerProps (placing steps, idle nodes), SchedulerSpec
      (the theorems, and rounds at concrete inputs);
    - instance_manager/reconciler.py and its data in config.py and
      node_provider.py: Reconciler (the updates of each handler as a pure
      function; the handlers in a monad that keeps the instance storage and
      what was told to the subscribers when they raise), ReconcilerFacts and
      ReconcilerUpdates (records, legal updates), ReconcilerInv (which
      exceptions a handler may raise, as weakest preconditions),
      ReconcilerRounds ([run_rounds], any sequence of reconciliations),
      ReconcilerAlloc, ReconcilerSync, ReconcilerStep (the handlers),
      ReconcilerProps (the theorems), ReconcilerRun (rounds at concrete
      inputs, with the modelled scheduler);
    - instance_manager/subscribers: Subscribers (Modules
      [CloudInstanceUpdater], [RayStopper], [CloudResourceMonitor]),
      SubscribersFacts;
    - autoscaler.py and the loop of monitor.py: Autoscaler (the instance manager
      with its subscribers, the error queues, one update and the loop),
      AutoscalerFacts (the ledger of launch orders, kept by every handler),
      AutoscalerProps.
    A reconciliation reads the records of the instance manager, compares them
    with what the cloud provider and Ray report, calls the scheduler and
    writes updates; the subscribers turn applied updates into calls of the
    cloud provider and of GCS, whose failures the next reconciliation reads.

    Ray Train v2, src/ray/python/ray/train/v2/_internal/execution:
    - checkpoint/checkpoint_manager.py and its base class in
      train/_internal/checkpoint_manager.py: Checkpoints (heap of results by
      identity, the storage as a map of paths), CheckpointOrder,
      CheckpointFacts, CheckpointUpdate, CheckpointLoad, CheckpointProps;
    - checkpoint/report_handler.py, checkpoint/validation_manager.py,
      api/validation_config.py: Validation, ReportHandlerFacts, ValidationFacts
      (the account of every requested validation, over the checkpoint
      manager), ValidationSteps (reports, restarts, shutdown), ValidationProps;
    - failure_handling, scaling_policy/fixed.py, callback_manager.py,
      controller/state.py, worker_group/poll.py: FailurePolicy;
    - controller/controller.py: Controller (a state and exception monad over a
      record [Env] of collaborators), ControllerFacts, ControllerProps,
      TrainResult (the result, over the checkpoint manager);
    - api/config.py, scaling_policy: Elastic (the configuration, the requests
      of the policies and the elastic policy, in a monad that keeps the policy
      and logs its calls of the coordinator's actor), over Tpu (topologies and
      slices, _private/accelerators/tpu.py and util/tpu.py).
    The elastic policy asks the autoscaling coordinator for its workers and
    sizes the worker group by what it is allocated; the controller takes its
    decisions as those of any policy.

    Ray Serve, src/ray/python/ray/serve:
    - autoscaling_policy.py, the autoscaling configuration of config.py,
      _private/autoscaling_state.py with the reports of _private/common.py,
      _private/gang_scheduling_autoscaling_policy.py: ServeAutoscaling (the
      policies and delays, the states of a deployment, of an application and
      of the controller, the theorems, and decisions at concrete inputs).

    Prelude (exceptions, the error monad, sums, stable sorting), PyDict (insertion-ordered
    dictionaries), PyFloat and PyStr (string formatting) are shared.  A Python function
    is the definition of its name; a method is the definition of its name in
    the Module of its class, over the state the object keeps; a raised
    exception is [Raise] with its class.

    ** What the theorems show

    - Tokenization: decoding inverts encoding except for the one id two tokens
      share; encoding follows the documented row format, with and without
      CUDA streams; the vocabulary is a bijection for dense steps, of the size
      the model's embedding has.
    - Temporal split: a partition of the rows without overlap in time, at the
      first dates that reach the ratios; date strings are ordered as dates.
    - Sequences: stable time order, chunks, layout without loss.
    - Splitting, equalizing, slicing, batching and round robin: exactly the rows
      of the input, in order where order is promised, of the sizes promised,
      with none of the source's assertions failing.
    - Autoscaling coordinator: the bundles granted are packed on the nodes, and
      only what is left is shared; the less urgent do not disturb the more
      urgent; what every reachable state keeps, what a request, a tick and
      a cancellation change; a
      read of the proxy is nothing or what the actor had allocated.
    - Instance manager: every reachable instance has a legal history; a request
      is applied as a whole or not at all; conflicting writers exclude each
      other by version.
    - Scheduler: a round loses no request and places gangs as a whole; it keeps
      the maxima and the minima, never terminates a head and overcommits no
      node; where it raises; nodes added for a minimum share one object.
    - Reconciler: a reconciliation over fit reports returns and leaves nothing
      to terminate; after any reconciliations, wherever they raised, each
      record is as its status needs it and was requested no more often than the
      retries allow; who gets which cloud instance; the limits on launches; the
      replies of a scheduler it cannot serve.
    - Subscribers: the launches and terminations asked for are those of the
      records; the errors queued are exactly the refused stops; a node type is
      unavailable since its last timed out allocation until one runs.
    - Update loop: over a whole run, the launches the cloud provider was asked
      for are those the records say were requested, within the retries, and
      only an authentication error ends the loop.
    - Checkpoints: what is retained and what is deleted; a crash leaves a
      storage that loads, old or new, unless it comes while the snapshot, which
      is emptied first, is being written; loading inverts saving.
    - Validations: every request is accounted for, and none is run twice or
      beside another; an update or a shutdown raises only when the worker of a
      validation is lost, and the shutdown otherwise drains them all; reports
      are consolidated round by round.
    - Controller: every iteration follows the state diagram; a run with finite
      retry limits ends; shutdown keeps the outcome; failure budgets are exact.
    - Elastic training: sizes within the configured limits and the allocation,
      of whole TPU slices, intact ones when the cluster can be asked, and the
      errors of counting; the pace of the calls; with the coordinator, as many workers as
      bundles granted on the nodes.  TPU slices are counted when intact; pod
      types are read back; valid topologies fill their hosts.
    - Serve autoscaling: when a wish to scale takes effect; an application
      decides as the base policies of its deployments would, without aligning
      the numbers to gangs; decisions are within bounds and
      change nothing else.

    ** Bounds and fuel

    Recursion is structural except for: [flatten_dict], whose fuel is the depth
    of the dictionary; the loops of the batching iterator, bounded by the
    number of rows held; and the control loop of the controller, proved to end
    within 5 * budget + 5 * N + 5 iterations, where the budget is the sum of the
    retry limits and N is the time from which polls report a failure or the
    end of training.  The loop over the callbacks that may select labels takes
    their number.  In the scheduler, the loops over existing and resizable
    nodes take the number of nodes, one of which each iteration removes, and the
    loop over new nodes the size of the pool and of the availabilities, which
    each launch decreases.  The shutdown loop of the validation manager takes
    the number of polls until the tasks are done plus one for each queued
    validation and one.  Each is proved to suffice.  Floats are binary64 as
    in SpecFloat; NumPy ids are int64 in [Cudf] where the source converts them,
    and Python integers are unbounded.

    ** Parameters and hypotheses

    Code outside the repository is a parameter with its documented behaviour as
    a class of laws, with a concrete instance for the witnesses: cuDF, CuPy,
    NumPy and cuML ([Cudf], [CudfLaws]), pyarrow's string functions and value
    counts ([Arrow]), NumPy's argsort ([ArgSort]) and random choice, protobuf
    and pydantic serialization (an encoder with its inverse, which refuses a
    text cut off), C's pow, the sum of
    floats and the GPU setting of the environment ([Platform]), and the actors,
    placement groups and callbacks around the controller ([Env], unconstrained
    but for the hypotheses a theorem names).  Serve's clock and the policies of
    its users are parameters.  Around the reconciler, the clock,
    the random ids, the reports of the cloud provider and of Ray, and the
    subscribers' replies from GCS are parameters; so are the scheduler
    and the resource monitor, for which ReconcilerRun puts in the modelled
    scheduler and Autoscaler the modelled monitor.

    ** Not modelled

    Reading and writing files and tables, printing, logging and metrics; the
    text and date parsing of [preprocess] and [to_corpus_lines], which are
    calls of the data-frame libraries; prefetching and collation, which are
    threads around the modelled iterator; the checkpoint registration of Ray
    Train's first version, which the second replaces; ids, times and detail
    texts of the scheduler's messages; the cloud providers, the ssh installer
    and the entry points of the autoscaler, the metadata of TPU nodes and the
    reservation of their slices, which are I/O; the aggregation of time series
    at Serve's controller, which is Cython code; Ray's core runtime (C++ and
    Cython), the rest of Serve, Tune, RLlib, the Data planner and executor, the dashboard
    and the build tooling, which are programs of their own. *)
From Stdlib Require Export ZArith Lia.
From stdpp Require Export base tactics gmap strings pretty sorting numbers.
From stdpp Require Export list.

#[global] Set Default Goal Selector "!".
#[global] Open Scope Z_scope.

(** Hint databases of the library: [pydict] (dictionary well-formedness and
    lookups), [pystr] (token strings), [rows] (row-preservation lemmas). *)
Create HintDb pydict.
Create HintDb pystr.
Create HintDb rows.
Create Rewrite HintDb rows.

(** ** Python exceptions and the error monad *)

(** The exception classes the modelled code raises or lets escape.  Messages
    are not modelled. *)
Inductive exn : Type :=
  | ValueError
  | KeyError
  | IndexError
  | TypeError
  | AttributeError
  | AssertionError
  | StopIteration
  | RuntimeError
  | ObjectFreedError
  | CheckpointManagerInitializationError
  | FileExistsError
  | FileNotFoundError
  | OverflowError
  | ZeroDivisionError
  | AuthenticationError
  | RayError
  | DeprecationWarning.

#[global] Instance exn_eq_dec : EqDecision exn.
Proof. solve_decision. Defined.

Inductive result (A : Type) : Type :=
  | Ok (a : A)
  | Raise (e : exn).
Arguments Ok {A} a.
Arguments Raise {A} e.

#[global] Instance result_ret : MRet result := λ A a, Ok a.
#[global] Instance result_bind : MBind result := λ A B f m,
  match m with Ok a => f a | Raise e => Raise e end.
#[global] Instance result_fmap : FMap result := λ A B f m,
  match m with Ok a => Ok (f a) | Raise e => Raise e end.

#[global] Instance result_eq_dec {A} `{EqDecision A} : EqDecision (result A).
Proof. solve_decision. Defined.

(** [assert b] of the source. *)
Definition py_assert (b : bool) : result unit :=
  if b then Ok tt else Raise AssertionError.

(** An optional value read where Python would raise [e] on a missing one. *)
Definition or_raise {A} (e : exn) (o : option A) : result A :=
  match o with Some a => Ok a | None => Raise e end.

Definition is_ok {A} (m : result A) : bool :=
  match m with Ok _ => true | Raise _ => false end.

Section result_lemmas.
Context {A B : Type}.
Implicit Types (m : result A).

Lemma bind_ok m (f : A → result B) b :
  m ≫= f = Ok b ↔ ∃ a, m = Ok a ∧ f a = Ok b.
Proof. destruct m; simpl; naive_solver. Qed.

Lemma fmap_ok m (f : A → B) b : f <$> m = Ok b ↔ ∃ a, m = Ok a ∧ b = f a.
Proof. destruct m; simpl; naive_solver. Qed.

Lemma or_raise_ok e (o : option A) a : or_raise e o = Ok a ↔ o = Some a.
Proof. destruct o; simpl; naive_solver. Qed.
End result_lemmas.

Lemma Ok_inj {A} (a b : A) : Ok a = Ok b → a = b.
Proof. by intros [= ->]. Qed.

Lemma py_assert_ok b u : py_assert b = Ok u ↔ b = true.
Proof. destruct b, u; simpl; naive_solver. Qed.

(** [mapM] in the error monad, left to right, as a comprehension whose body
    may raise. *)
Fixpoint result_map {A B} (f : A → result B) (l : list A) : result (list B) :=
  match l with
  | [] => Ok []
  | x :: l => y ← f x; ys ← result_map f l; Ok (y :: ys)
  end.

(** [for x in l: s = f(s, x)] with a body that may raise. *)
Fixpoint result_fold {S A} (f : S → A → result S) (s : S) (l : list A) : result S :=
  match l with
  | [] => Ok s
  | x :: l => s' ← f s x; result_fold f s' l
  end.

(** Inverts an equation between a monadic computation and [Ok _]. *)
Ltac inv_ok :=
  repeat match goal with
  | H : _ ≫= _ = Ok _ |- _ =>
      let a := fresh "r" in let Ha := fresh "Hr" in
      apply bind_ok in H as (a & Ha & H)
  | H : or_raise _ _ = Ok _ |- _ => apply or_raise_ok in H
  | H : py_assert _ = Ok _ |- _ => apply py_assert_ok in H
  | H : Ok _ = Ok _ |- _ => apply Ok_inj in H; try subst
  | H : Raise _ = Ok _ |- _ => discriminate H
  | H : mret _ = Ok _ |- _ => apply Ok_inj in H; try subst
  end.

Section result_iter.
Context {A B S : Type}.

Lemma result_map_ok (f : A → result B) l k :
  result_map f l = Ok k ↔ Forall2 (λ x y, f x = Ok y) l k.
Proof.
  revert k. induction l as [|x l IH]; intros k; simpl.
  - split; [intros [= <-]; constructor | by inversion 1].
  - split.
    + intros H. inv_ok. constructor; [done|]. by apply IH.
    + inversion 1 as [|? y ? ys Hx Hl]; subst.
      apply IH in Hl. by rewrite Hx, Hl.
Qed.

Lemma result_map_total (f : A → result B) l : (∀ x, x ∈ l → ∃ y, f x = Ok y) → ∃ k, result_map f l = Ok k.
Proof.
  induction l as [|x l IH]; intros H; [by exists []|]. cbn [result_map]. destruct (H x) as [y ->]; [left|].
  destruct IH as [k Hk]; [intros z Hz; apply H; by right|]. exists (y :: k). cbn [mbind result_bind]. by rewrite Hk.
Qed.

Lemma result_map_ok_map (f : A → result B) (g : A → B) l :
  (∀ x, x ∈ l → f x = Ok (g x)) → result_map f l = Ok (map g l).
Proof.
  induction l as [|x l IH]; intros Hf; simpl; [done|].
  rewrite Hf by set_solver. simpl. rewrite IH; [done|set_solver].
Qed.

Lemma result_fold_app (f : S → A → result S) s l k :
  result_fold f s (l ++ k) = s' ← result_fold f s l; result_fold f s' k.
Proof.
  revert s. induction l as [|x l IH]; intros s; simpl; [done|].
  destruct (f s x); simpl; [apply IH|done].
Qed.

(** A loop invariant carries over a loop that returns. *)
Lemma result_fold_inv (P : S → Prop) (f : S → A → result S) s l s' :
  (∀ t x t', x ∈ l → P t → f t x = Ok t' → P t') →
  P s → result_fold f s l = Ok s' → P s'.
Proof.
  revert s. induction l as [|x l IH]; intros s Hf Hs; simpl.
  - by intros [= <-].
  - intros H. inv_ok. eapply IH; [..|done].
    + intros t y t' Hy. apply Hf. set_solver.
    + eapply Hf; [|done..]. set_solver.
Qed.
End result_iter.

(** Unfolds the head of one applied occurrence [f a b] only. *)
Tactic Notation "unfold_app" constr(t) :=
  let rec head u := lazymatch u with ?f _ => head f | _ => u end in
  let h := head t in
  let t' := eval unfold h in t in
  let t' := eval cbn beta iota in t' in
  change t with t'.

(** ** Sums and running sums of integer lists *)

Definition sumZ (l : list Z) : Z := foldr Z.add 0 l.

(** The running totals before each element, from [off]. *)
Fixpoint prefix_sums (off : Z) (l : list Z) : list Z :=
  match l with [] => [] | n :: l => off :: prefix_sums (off + n) l end.

Lemma sumZ_cons x l : sumZ (x :: l) = x + sumZ l.
Proof. done. Qed.

Lemma sumZ_app l k : sumZ (l ++ k) = sumZ l + sumZ k.
Proof. induction l as [|x l IH]; simpl; [done|]. rewrite IH. lia. Qed.

Lemma sumZ_nonneg l : Forall (λ x, 0 ≤ x) l → 0 ≤ sumZ l.
Proof. induction 1; simpl; lia. Qed.

Lemma sumZ_concat (ls : list (list Z)) : sumZ (concat ls) = sumZ (map sumZ ls).
Proof. induction ls as [|l ls IH]; simpl; [done|]. by rewrite sumZ_app, IH. Qed.

#[export] Instance sumZ_perm : Proper ((≡ₚ) ==> (=)) sumZ.
Proof. induction 1; simpl; lia. Qed.

Lemma length_prefix_sums off l : length (prefix_sums off l) = length l.
Proof. revert off. induction l; intros; simpl; auto. Qed.

Lemma prefix_sums_lookup off l i n :
  l !! i = Some n → prefix_sums off l !! i = Some (off + sumZ (take i l)).
Proof.
  revert off i. induction l as [|x l IH]; intros off [|i] Hi; simplify_eq/=.
  - f_equal. lia.
  - rewrite (IH _ _ Hi). f_equal. lia.
Qed.

(** Consecutive integer ranges concatenate to one range. *)
Lemma seqZ_concat off ns : Forall (λ n, 0 ≤ n) ns →
  concat (zip_with seqZ (prefix_sums off ns) ns) = seqZ off (sumZ ns).
Proof.
  revert off. induction ns as [|n ns IH]; intros off; [done|].
  intros [Hn Hns]%Forall_cons. simpl. rewrite IH by done.
  rewrite (seqZ_app off n (sumZ ns)); [done|done|by apply sumZ_nonneg].
Qed.

Lemma seqZ_shift off m n : map (λ i, i + off) (seqZ m n) = seqZ (m + off) n.
Proof.
  rewrite (Z.add_comm m), <-fmap_add_seqZ. apply list_fmap_ext. intros. lia.
Qed.

#[export] Hint Rewrite @sumZ_app @length_prefix_sums : rows.

(** ** Python's stable sort

    [list.sort] and [sorted] with a strict order; both keep the order of
    elements that compare equal. *)

(** Stable insertion: [sorted(l, key)] and, with the order flipped, [reverse=True]. *)
Fixpoint insert_by {A} (lt : A → A → bool) (x : A) (l : list A) : list A :=
  match l with
  | [] => [x]
  | y :: l => if lt y x then y :: insert_by lt x l else x :: y :: l
  end.

Definition sort_by {A} (lt : A → A → bool) (l : list A) : list A := foldr (insert_by lt) [] l.

Lemma insert_by_perm {A} (lt : A → A → bool) x l : insert_by lt x l ≡ₚ x :: l.
Proof.
  induction l as [|y l IH]; simpl; [done|]. destruct (lt y x); [|done].
  rewrite IH. apply Permutation_swap.
Qed.

Lemma sort_by_perm {A} (lt : A → A → bool) l : sort_by lt l ≡ₚ l.
Proof. induction l as [|x l IH]; simpl; [done|]. by rewrite insert_by_perm, IH. Qed.

(** Sorted by an order that is a strict weak one on the elements. *)
Section sorted.
Context {A : Type} (P : A → Prop) (lt : A → A → bool).
Hypotheses (lt_asym : ∀ a b, P a → P b → lt a b = true → lt b a = false)
  (nlt_trans : ∀ a b c, P a → P b → P c → lt b a = false → lt c b = false → lt c a = false).

Lemma insert_by_sorted x l : P x → Forall P l → StronglySorted (λ a b, lt b a = false) l →
  StronglySorted (λ a b, lt b a = false) (insert_by lt x l).
Proof.
  intros Hx Hl. induction l as [|y l IH]; intros Hs; simpl; [by repeat constructor|].
  apply Forall_cons in Hl as [Hpy Hl]. apply StronglySorted_inv in Hs as [Hs Hy]. destruct (lt y x) eqn:E.
  - constructor; [by apply IH|]. rewrite insert_by_perm. constructor; [by apply lt_asym|done].
  - constructor; [by constructor|]. constructor; [done|]. rewrite Forall_forall in Hl, Hy |- *.
    intros z Hz. apply (nlt_trans x y z); auto.
Qed.

Lemma sort_by_sorted l : Forall P l → StronglySorted (λ a b, lt b a = false) (sort_by lt l).
Proof.
  induction l as [|x l IH]; intros Hl; [constructor|]. apply Forall_cons in Hl as [Hx Hl].
  apply insert_by_sorted; [done| |by apply IH]. change (Forall P (sort_by lt l)). by rewrite sort_by_perm.
Qed.
End sorted.
