(* ===== verification/PyDict.v ===== *)
(** * Python dictionaries with their insertion order

    The tokenizer code iterates over its dictionaries ([next(iter(d))],
    [for k, v in d.items()]) and overwrites entries, so a dictionary is an
    association list in insertion order: assigning to a present key keeps its
    position, assigning to a new key appends it, as Python guarantees. *)
From S2P Require Import Prelude.

Abbreviation dict K V := (list (K * V)).

Section dict.
Context {K V : Type} `{EqDecision K}.
Implicit Types (d : dict K V) (k : K) (v : V).

(** [d.get(k)] *)
Fixpoint dget d k : option V :=
  match d with
  | [] => None
  | (k', v) :: d => if decide (k = k') then Some v else dget d k
  end.

(** [d[k] = v] *)
Fixpoint dset d k v : dict K V :=
  match d with
  | [] => [(k, v)]
  | (k', v') :: d =>
      if decide (k = k') then (k', v) :: d else (k', v') :: dset d k v
  end.

(** [d.pop(k, None)] *)
Fixpoint ddel d k : dict K V :=
  match d with
  | [] => []
  | (k', v) :: d => if decide (k = k') then d else (k', v) :: ddel d k
  end.

(** [d.update(l)] for the items [l] of a dictionary, in order. *)
Definition dupdate d (l : list (K * V)) : dict K V :=
  foldl (λ d kv, dset d kv.1 kv.2) d l.

(** [dict(l)], and dictionary comprehensions. *)
Definition dict_of (l : list (K * V)) : dict K V := dupdate [] l.

(** [k in d] *)
Definition dmem d k : bool := if dget d k is Some _ then true else false.

(** A dictionary as Python can build it. *)
Definition dwf d : Prop := NoDup d.*1.

Lemma dget_dset_eq d k v : dget (dset d k v) k = Some v.
Proof.
  induction d as [|[k' v'] d IH]; simpl; [by rewrite decide_True|].
  destruct (decide (k = k')) as [->|]; simpl.
  - by rewrite decide_True.
  - by rewrite decide_False.
Qed.

Lemma dget_dset_ne d k k' v : k ≠ k' → dget (dset d k v) k' = dget d k'.
Proof.
  intros Hk. induction d as [|[j w] d IH]; simpl; [by rewrite decide_False|].
  destruct (decide (k = j)) as [->|]; simpl.
  - by rewrite !decide_False by done.
  - by rewrite IH.
Qed.

Lemma dget_dset d k v k' :
  dget (dset d k v) k' = if decide (k' = k) then Some v else dget d k'.
Proof.
  case_decide as E; [subst; apply dget_dset_eq|by apply dget_dset_ne].
Qed.

Lemma dset_keys_mem d k v : k ∈ d.*1 → (dset d k v).*1 = d.*1.
Proof.
  induction d as [|[j w] d IH]; simpl; [set_solver|].
  intros Hk. case_decide as E; [by subst|]. simpl. f_equal. apply IH. set_solver.
Qed.

Lemma dset_fresh d k v : k ∉ d.*1 → dset d k v = d ++ [(k, v)].
Proof.
  induction d as [|[j w] d IH]; simpl; [done|].
  intros Hk. rewrite decide_False by set_solver. f_equal. apply IH. set_solver.
Qed.

Lemma dset_keys_elem d k v j : j ∈ (dset d k v).*1 ↔ j = k ∨ j ∈ d.*1.
Proof.
  destruct (decide (k ∈ d.*1)).
  - rewrite dset_keys_mem by done. set_solver.
  - rewrite dset_fresh, fmap_app by done. set_solver.
Qed.

Lemma dset_wf d k v : dwf d → dwf (dset d k v).
Proof.
  unfold dwf. intros Hd. destruct (decide (k ∈ d.*1)).
  - by rewrite dset_keys_mem.
  - rewrite dset_fresh, fmap_app by done. apply NoDup_app. simpl.
    split_and!; [done|set_solver|apply NoDup_singleton].
Qed.

Lemma dupdate_wf d l : dwf d → dwf (dupdate d l).
Proof.
  unfold dupdate. revert d. induction l as [|[k v] l IH]; intros d Hd; simpl;
    [done|]. by apply IH, dset_wf.
Qed.

Lemma dict_of_wf l : dwf (dict_of l).
Proof. apply dupdate_wf. constructor. Qed.

Lemma dupdate_app d l l' : dupdate d (l ++ l') = dupdate (dupdate d l) l'.
Proof. unfold dupdate. by rewrite foldl_app. Qed.

Lemma dget_app l l' k :
  dget (l ++ l') k = match dget l k with Some v => Some v | None => dget l' k end.
Proof. induction l as [|[j w] l IH]; simpl; [done|]. by case_decide. Qed.

Lemma dget_None d k : dget d k = None ↔ k ∉ d.*1.
Proof.
  induction d as [|[j w] d IH]; simpl; [set_solver|].
  case_decide; [set_solver|]. rewrite IH. set_solver.
Qed.

Lemma dset_elem d k u k' v : (k', v) ∈ dset d k u → (k' = k ∧ v = u) ∨ (k', v) ∈ d.
Proof.
  induction d as [|[j x] d IH]; simpl.
  - intros [= -> ->]%list_elem_of_singleton. by left.
  - case_decide; rewrite !elem_of_cons; naive_solver.
Qed.

Lemma dget_elem d k v : dget d k = Some v → (k, v) ∈ d.
Proof.
  induction d as [|[j w] d IH]; simpl; [done|].
  case_decide; [intros [= ->]; subst; left|]. intros. right. auto.
Qed.

Lemma dget_wf_elem d k v : dwf d → dget d k = Some v ↔ (k, v) ∈ d.
Proof.
  intros Hd. split; [apply dget_elem|].
  induction d as [|[j w] d IH]; [set_solver|].
  unfold dwf in Hd. simpl in *. apply NoDup_cons in Hd as [Hj Hd].
  rewrite elem_of_cons. intros [[= -> ->]|Hin]; [by rewrite decide_True|].
  rewrite decide_False; [by apply IH|].
  intros ->. apply Hj. apply list_elem_of_fmap. by exists (j, v).
Qed.

(** The last assignment to a key wins. *)
Lemma dget_dupdate d l k :
  dget (dupdate d l) k =
    match dget (reverse l) k with Some v => Some v | None => dget d k end.
Proof.
  revert d. induction l as [|[j w] l IH]; intros d; [done|].
  change (dupdate d ((j, w) :: l)) with (dupdate (dset d j w) l).
  rewrite IH, dget_dset, reverse_cons, dget_app. simpl.
  destruct (dget (reverse l) k); [done|]. by case_decide.
Qed.

Lemma dget_dict_of l k : dget (dict_of l) k = dget (reverse l) k.
Proof. unfold dict_of. rewrite dget_dupdate. by destruct (dget _ _). Qed.

Lemma dupdate_elem l d k v :
  (k, v) ∈ dupdate d l → (k, v) ∈ d ∨ (k, v) ∈ l.
Proof.
  revert d. induction l as [|[j w] l IH]; intros d; [by left|].
  change (dupdate d ((j, w) :: l)) with (dupdate (dset d j w) l).
  intros [H|H]%IH; [|right; by right].
  clear IH. rewrite elem_of_cons.
  induction d as [|[i u] d IHd]; simpl in H.
  - apply list_elem_of_singleton in H. auto.
  - rewrite elem_of_cons. case_decide as E.
    + apply elem_of_cons in H as [H|H]; [subst|]; auto.
    + apply elem_of_cons in H as [H|H]; [|apply IHd in H]; naive_solver.
Qed.

Lemma dict_of_elem l k v : (k, v) ∈ dict_of l → (k, v) ∈ l.
Proof. intros [H|H]%dupdate_elem; [set_solver|done]. Qed.

Lemma dupdate_keys_elem d l j : j ∈ (dupdate d l).*1 ↔ j ∈ d.*1 ∨ j ∈ l.*1.
Proof.
  revert d. induction l as [|[k v] l IH]; intros d; simpl; [set_solver|].
  change (dupdate d ((k, v) :: l)) with (dupdate (dset d k v) l).
  rewrite IH, dset_keys_elem. set_solver.
Qed.

Lemma dict_of_keys_elem l j : j ∈ (dict_of l).*1 ↔ j ∈ l.*1.
Proof. unfold dict_of. rewrite dupdate_keys_elem. set_solver. Qed.

Lemma dget_reverse d k : dwf d → dget (reverse d) k = dget d k.
Proof.
  intros Hd. apply option_eq. intros v. rewrite dget_wf_elem.
  - by rewrite elem_of_reverse, dget_wf_elem.
  - unfold dwf. by rewrite reverse_Permutation.
Qed.

(** Items with distinct keys form the dictionary they list. *)
Lemma dupdate_NoDup d l : NoDup (d.*1 ++ l.*1) → dupdate d l = d ++ l.
Proof.
  revert d. induction l as [|[k v] l IH]; intros d.
  { intros _. symmetry. apply app_nil_r. }
  change (dupdate d ((k, v) :: l)) with (dupdate (dset d k v) l).
  simpl. intros Hnd. rewrite dset_fresh.
  - rewrite IH; [by rewrite <-(assoc (++))|].
    by rewrite fmap_app, <-(assoc (++)).
  - apply NoDup_app in Hnd as (_ & H & _). intros Hk. apply (H _ Hk). left.
Qed.

Lemma dict_of_NoDup l : NoDup l.*1 → dict_of l = l.
Proof. intros. unfold dict_of. by rewrite dupdate_NoDup. Qed.

(** An entry whose key is written again later does not count. *)
Lemma dget_dict_of_shadow a e b k :
  e.1 ∈ b.*1 → dget (dict_of (a ++ e :: b)) k = dget (dict_of (a ++ b)) k.
Proof.
  intros He. rewrite !dget_dict_of, !reverse_app, reverse_cons, <-(assoc (++)).
  rewrite !dget_app. destruct (dget (reverse b) k) eqn:E; [done|].
  apply dget_None in E. rewrite fmap_reverse, elem_of_reverse in E.
  destruct e as [j v]. simpl in *. rewrite decide_False; [done|]. by intros ->.
Qed.

Lemma dget_ddel_ne d k j : k ≠ j → dget (ddel d k) j = dget d j.
Proof.
  intros Hk. induction d as [|[i w] d IH]; simpl; [done|].
  case_decide; subst; simpl; [by rewrite decide_False|by rewrite IH].
Qed.

Lemma ddel_keys_elem d k j : j ∈ (ddel d k).*1 → j ∈ d.*1.
Proof.
  induction d as [|[i w] d IH]; simpl; [done|]. case_decide; set_solver.
Qed.

Lemma ddel_perm d k v : dget d k = Some v → d ≡ₚ (k, v) :: ddel d k.
Proof.
  induction d as [|[j w] d IH]; simpl; [done|]. case_decide as E; [intros [= ->]; by subst|].
  intros Hd. by rewrite (IH Hd) at 1; rewrite Permutation_swap.
Qed.

Lemma ddel_wf d k : dwf d → dwf (ddel d k).
Proof.
  unfold dwf. induction d as [|[i w] d IH]; simpl; [done|].
  intros [Hi Hd]%NoDup_cons. case_decide; simpl; [done|].
  apply NoDup_cons. split; [|by apply IH]. intros Hk%ddel_keys_elem. done.
Qed.

Lemma dget_ddel_eq d k : dwf d → dget (ddel d k) k = None.
Proof.
  unfold dwf. induction d as [|[i w] d IH]; simpl; [done|].
  intros [Hi Hd]%NoDup_cons. case_decide as E; simpl.
  - subst. by apply dget_None.
  - rewrite decide_False by done. by apply IH.
Qed.

Lemma dmem_true d k : dmem d k = true ↔ k ∈ d.*1.
Proof.
  unfold dmem. destruct (dget d k) as [v|] eqn:E.
  - split; [|done]. intros _. apply dget_elem in E.
    apply list_elem_of_fmap. by exists (k, v).
  - apply dget_None in E. naive_solver.
Qed.
End dict.

Arguments dwf {K V} d /.

(** The keys and elements of the list of swapped pairs. *)
Lemma swap_keys {K V} (l : list (K * V)) : (map (λ e, (e.2, e.1)) l).*1 = l.*2.
Proof. by rewrite <-list_fmap_compose. Qed.

Lemma swap_elem {K V} (l : list (K * V)) k v :
  (v, k) ∈ map (λ e, (e.2, e.1)) l ↔ (k, v) ∈ l.
Proof.
  rewrite (list_elem_of_fmap (λ e : K * V, (e.2, e.1)) l). split.
  - intros ([k' v'] & He & Hin). by simplify_eq/=.
  - intros Hin. by exists (k, v).
Qed.

(** [{v: k for k, v in d.items()}], the inverse of a dictionary. *)
Definition dswap {K V} `{EqDecision V} (d : dict K V) : dict V K :=
  dict_of (map (λ kv, (kv.2, kv.1)) d).

Lemma dswap_NoDup {K V} `{EqDecision V} (d : dict K V) :
  NoDup d.*2 → dswap d = map (λ kv, (kv.2, kv.1)) d.
Proof.
  intros Hd. unfold dswap. apply dict_of_NoDup.
  by rewrite <-list_fmap_compose.
Qed.

(** Looking a value up in the inverse gives a key that maps to it. *)
Lemma dswap_sound {K V} `{EqDecision K, EqDecision V} (d : dict K V) v k :
  dwf d → dget (dswap d) v = Some k → dget d k = Some v.
Proof.
  intros Hd Hv. apply dget_wf_elem; [done|].
  apply dget_elem, dict_of_elem, list_elem_of_fmap in Hv as ([k' v'] & [= -> ->] & ?).
  done.
Qed.

(** Entries with distinct keys numbered [0 .. n-1]: the dictionary and its
    inverse are a bijection onto the range. *)
Lemma dict_bijection {K} `{EqDecision K} (l : dict K Z) n :
  NoDup l.*1 → l.*2 = seqZ 0 n →
  (∀ k g, dget (dict_of l) k = Some g ↔
     dget (dict_of (map (λ e, (e.2, e.1)) l)) g = Some k) ∧
  (∀ g, g ∈ (dict_of (map (λ e, (e.2, e.1)) l)).*1 ↔ 0 ≤ g < n).
Proof.
  intros Hl1 Hl2.
  assert ((map (λ e, (e.2, e.1)) l).*1 = seqZ 0 n) as Hsw.
  { by rewrite <-Hl2, <-list_fmap_compose. }
  assert (NoDup (map (λ e, (e.2, e.1)) l).*1) as Hl3.
  { rewrite Hsw. apply NoDup_seqZ. }
  rewrite !dict_of_NoDup by done. split.
  - intros k g. rewrite !dget_wf_elem by done. split.
    + intros Hin. apply list_elem_of_fmap. by exists (k, g).
    + intros ([k' g'] & [= -> ->] & Hin)%list_elem_of_fmap. done.
  - intros g. rewrite Hsw, elem_of_seqZ. lia.
Qed.

#[export] Hint Resolve dict_of_wf dset_wf dupdate_wf ddel_wf : pydict.
