(* ===== verification/PyStr.v ===== *)
(** * The string operations of the source

    [f"{i:0{w}d}"], [str.join], [str.split] and decimal printing.  A string is
    a list of characters below U+0100 (one [ascii] each). *)
From S2P Require Import Prelude.
From Stdlib Require Import Ascii.
Open Scope string_scope.
Open Scope list_scope.
Open Scope Z_scope.

(** ** Formatting integers *)

Fixpoint zeros (n : nat) : string :=
  match n with O => "" | S n => String "0" (zeros n) end.

(** [f"{z:0{w}d}"]: zero padding after the sign, up to width [w]. *)
Definition fmt0d (w : nat) (z : Z) : string :=
  let sign := if z <? 0 then "-" else "" in
  let digits := pretty (Z.abs_N z) in
  sign +:+ zeros (w - (String.length sign + String.length digits)) +:+ digits.

(** Reading decimal digits back: the inverse used to prove formatting
    injective. *)
Fixpoint undec (acc : N) (s : string) : N :=
  match s with
  | "" => acc
  | String c s => undec (10 * acc + (N_of_ascii c - 48)) s
  end.

Definition parse_int (s : string) : Z :=
  match s with
  | String "-" s => - Z.of_N (undec 0 s)
  | s => Z.of_N (undec 0 s)
  end.

Lemma digit_char x : (x < 10)%N → (N_of_ascii (pretty_N_char x) - 48 = x)%N.
Proof.
  intros. assert (x = 0 ∨ x = 1 ∨ x = 2 ∨ x = 3 ∨ x = 4 ∨ x = 5 ∨ x = 6 ∨
    x = 7 ∨ x = 8 ∨ x = 9)%N as H' by lia.
  by repeat destruct H' as [->|H']; [..|subst].
Qed.

Lemma undec_go x s : undec 0 (pretty_N_go x s) = undec x s.
Proof.
  revert s. induction (N.lt_wf_0 x) as [x _ IH]; intros s.
  destruct (decide (x = 0)%N) as [->|Hx]; [by rewrite pretty_N_go_0|].
  rewrite pretty_N_go_step by lia. rewrite IH by (apply N.div_lt; lia).
  simpl. rewrite digit_char by (apply N.mod_lt; lia).
  f_equal. rewrite (N.div_mod x 10) at 3 by done. lia.
Qed.

Lemma undec_pretty (x : N) : undec 0 (pretty x) = x.
Proof.
  unfold pretty, pretty_N. case_decide as E; [by subst|]. by rewrite undec_go.
Qed.

Lemma undec_zeros n s : undec 0 (zeros n +:+ s) = undec 0 s.
Proof. induction n as [|n IH]; [done|]. exact IH. Qed.

Lemma pretty_N_head (x : N) : ∃ c s, pretty x = String c s ∧ c ≠ "-"%char.
Proof.
  assert (∀ x s, (∃ c s', s = String c s' ∧ c ≠ "-"%char) ∨ (0 < x)%N →
    ∃ c s', pretty_N_go x s = String c s' ∧ c ≠ "-"%char) as Hgo.
  { clear x. intros x. induction (N.lt_wf_0 x) as [x _ IH]; intros s Hs.
    destruct (decide (x = 0)%N) as [->|Hx].
    { rewrite pretty_N_go_0. destruct Hs; [done|lia]. }
    rewrite pretty_N_go_step by lia. apply IH; [apply N.div_lt; lia|].
    left. eexists _, _. split; [done|]. unfold pretty_N_char.
    by repeat case_match. }
  unfold pretty, pretty_N. case_decide; [by eexists _, _|].
  apply Hgo. right. lia.
Qed.

Lemma parse_zeros n (x : N) : parse_int (zeros n +:+ pretty x) = Z.of_N x.
Proof.
  transitivity (Z.of_N (undec 0 (zeros n +:+ pretty x)));
    [|by rewrite undec_zeros, undec_pretty].
  destruct n as [|n]; [|done].
  destruct (pretty_N_head x) as (c & s & Hx & Hc).
  change (zeros 0 +:+ pretty x) with (pretty x). rewrite Hx.
  destruct c as [[] [] [] [] [] [] [] []]; done.
Qed.

Lemma parse_fmt0d w z : parse_int (fmt0d w z) = z.
Proof.
  unfold fmt0d. destruct (Z.ltb_spec z 0) as [Hz|Hz].
  - change (- Z.of_N (undec 0 (zeros (w - (1 + String.length (pretty (Z.abs_N z))))
      +:+ pretty (Z.abs_N z))) = z).
    rewrite undec_zeros, undec_pretty. lia.
  - change ("" +:+ ?s) with s. rewrite parse_zeros. lia.
Qed.

#[export] Instance fmt0d_inj w : Inj (=) (=) (fmt0d w).
Proof. intros x y H. by rewrite <-(parse_fmt0d w x), H, parse_fmt0d. Qed.

(** ** Token strings *)

(** The characters [str.split()] separates at. *)
Definition is_ws (c : ascii) : bool :=
  let n := N_of_ascii c in
  ((9 <=? n) && (n <=? 13) || (28 <=? n) && (n <=? 32) || (n =? 133) || (n =? 160))%N.

Fixpoint no_ws (s : string) : bool :=
  match s with "" => true | String c s => negb (is_ws c) && no_ws s end.

(** A string [split()] can return. *)
Definition wordb (s : string) : bool :=
  match s with "" => false | _ => no_ws s end.

Fixpoint split_go (s cur : string) : list string :=
  match s with
  | "" => match cur with "" => [] | _ => [cur] end
  | String c s =>
      if is_ws c then
        match cur with "" => split_go s "" | _ => cur :: split_go s "" end
      else split_go s (cur +:+ String c "")
  end.

(** [s.split()] *)
Definition py_split (s : string) : list string := split_go s "".

(** [sep.join(l)] *)
Definition py_join (sep : string) (l : list string) : string := String.concat sep l.

Lemma sapp_assoc (a b c : string) : (a +:+ b) +:+ c = a +:+ b +:+ c.
Proof. induction a as [|x a IH]; [done|]. exact (f_equal (String x) IH). Qed.

Lemma sapp_nil_r (a : string) : a +:+ "" = a.
Proof. induction a as [|x a IH]; [done|]. exact (f_equal (String x) IH). Qed.

Lemma no_ws_app a b : no_ws (a +:+ b) = no_ws a && no_ws b.
Proof. induction a as [|x a IH]; [done|]. simpl. rewrite IH. by destruct (is_ws x). Qed.

Lemma zeros_no_ws n : no_ws (zeros n) = true.
Proof. induction n; [done|]. simpl. done. Qed.

Lemma pretty_N_no_ws (x : N) : no_ws (pretty x) = true.
Proof.
  assert (∀ x s, no_ws s = true → no_ws (pretty_N_go x s) = true) as Hgo.
  { clear x. intros x. induction (N.lt_wf_0 x) as [x _ IH]; intros s Hs.
    destruct (decide (x = 0)%N) as [->|Hx]; [done|].
    rewrite pretty_N_go_step by lia. apply IH; [apply N.div_lt; lia|].
    simpl. rewrite Hs. unfold pretty_N_char. by repeat case_match. }
  unfold pretty, pretty_N. case_decide; [done|]. by apply Hgo.
Qed.

Lemma fmt0d_no_ws w z : no_ws (fmt0d w z) = true.
Proof.
  unfold fmt0d. rewrite !no_ws_app, zeros_no_ws, pretty_N_no_ws.
  by destruct (z <? 0).
Qed.

Lemma wordb_app_l a b : wordb a = true → no_ws b = true → wordb (a +:+ b) = true.
Proof.
  destruct a as [|c a]; [done|]. simpl. rewrite no_ws_app.
  intros Ha Hb. by rewrite Hb, andb_true_r.
Qed.

Lemma split_go_word t s cur :
  no_ws t = true → split_go (t +:+ s) cur = split_go s (cur +:+ t).
Proof.
  revert cur. induction t as [|c t IH]; intros cur; simpl; [by rewrite sapp_nil_r|].
  intros [Hc Ht]%andb_true_iff. apply negb_true_iff in Hc. rewrite Hc.
  change (String.append t s) with (t +:+ s).
  rewrite IH by done. by rewrite sapp_assoc.
Qed.

Lemma wordb_no_ws t : wordb t = true → no_ws t = true.
Proof. by destruct t. Qed.

(** Splitting the joined words returns the words. *)
Lemma split_join l :
  Forall (λ t, wordb t = true) l → py_split (py_join " " l) = l.
Proof.
  unfold py_split, py_join. induction l as [|t l IH]; [done|].
  intros [Ht Hl]%Forall_cons.
  destruct l as [|u l].
  - simpl. rewrite <-(sapp_nil_r t) at 1.
    rewrite split_go_word by by apply wordb_no_ws. by destruct t.
  - change (String.concat " " (t :: u :: l)) with
      (t +:+ String " " (String.concat " " (u :: l))).
    rewrite split_go_word by by apply wordb_no_ws.
    change ("" +:+ t) with t.
    change (split_go (String " " ?x) t) with
      (match t with "" => split_go x "" | _ => t :: split_go x "" end).
    destruct t; [done|]. f_equal. by apply IH.
Qed.

Lemma split_go_words s cur :
  no_ws cur = true → Forall (λ t, wordb t = true) (split_go s cur).
Proof.
  revert cur. induction s as [|c s IH]; intros cur Hcur; simpl.
  - destruct cur; [constructor|]. by repeat constructor.
  - destruct (is_ws c) eqn:Hc.
    + destruct cur; [by apply IH|]. constructor; [done|by apply IH].
    + apply IH. rewrite no_ws_app. simpl. by rewrite Hcur, Hc.
Qed.

Lemma split_words s : Forall (λ t, wordb t = true) (py_split s).
Proof. by apply split_go_words. Qed.

#[export] Hint Resolve fmt0d_no_ws pretty_N_no_ws split_words wordb_no_ws : pystr.

(** [sorted(l)] on strings, by code point. *)
Definition py_sorted (l : list string) : list string := merge_sort String.le l.

Lemma py_sorted_perm l : py_sorted l ≡ₚ l.
Proof. apply merge_sort_Permutation. Qed.

(** [sorted(set(l))] *)
Definition sorted_set (l : list string) : list string := py_sorted (remove_dups l).

Lemma sorted_set_elem l s : s ∈ sorted_set l ↔ s ∈ l.
Proof.
  unfold sorted_set. rewrite py_sorted_perm. apply elem_of_remove_dups.
Qed.

Lemma sorted_set_NoDup l : NoDup (sorted_set l).
Proof. unfold sorted_set. rewrite py_sorted_perm. apply NoDup_remove_dups. Qed.
