(* ===== verification/Cudf.v ===== *)
(** * The GPU data-frame libraries the tokenizers call

    cuDF, pandas, NumPy, CuPy and cuML are third-party code.  [Cudf] lists the
    operations the tokenizer package calls, as parameters; [CudfLaws] states
    the documented element-wise behaviour the theorems rely on; [list_cudf] is
    a concrete instance on lists of cells, in which witnesses evaluate. *)
From S2P Require Import Prelude PyDict PyStr.

(** One cell of a column: an integer, a string, or a missing value. *)
Inductive cell : Type :=
  | CInt (z : Z)
  | CStr (s : string)
  | CNull.

#[export] Instance cell_eq_dec : EqDecision cell.
Proof. solve_decision. Defined.

(** A two-dimensional int64 array: its number of columns and its rows. *)
Record mat : Type := { mat_width : Z; mat_rows : list (list Z) }.

(** [str(v)] *)
Definition cell_str (c : cell) : string :=
  match c with CInt z => pretty z | CStr s => s | CNull => "nan" end.

Class Cudf : Type := {
  (** column data: a [Series], a [DataFrame] of selected columns, or the
      pandas copy of either *)
  col : Type;
  (** [s.to_pandas().tolist()] *)
  cells : col → list cell;
  (** [hasattr(s, "str") and s.dtype == "object"] *)
  col_is_object : col → bool;
  (** [isinstance(s, cudf.Series)] *)
  col_is_series : col → bool;
  (** [s.to_frame()], [cudf.DataFrame(s)] and [d.iloc[:, 0]] *)
  col_to_frame : col → col;
  col_first : col → col;
  (** [s.astype(str)], [s.astype("int32")] *)
  col_astype_str : col → col;
  col_astype_int32 : col → col;
  (** [s.clip(lo, hi)], [s % n] *)
  col_clip : Z → Z → col → col;
  col_mod : Z → col → col;
  (** [s.map(d)] for integer keys and for keys of any cell type *)
  col_map_int : dict Z string → col → col;
  col_map_cell : dict cell string → col → col;
  (** [s.fillna(v)], [p + s.astype(str)] *)
  col_fillna : string → col → col;
  col_prepend : string → col → col;
  (** [s.dropna().unique()] *)
  col_unique : col → list cell;
  (** [np.asarray(s.values, dtype=np.int64)] *)
  col_int64 : col → result (list Z);
  (** [cudf.Series(values, index=s.index)] *)
  col_of_strs : list string → col → col;
  col_of_ints : list Z → col → col;
  (** [np.full(n, v)], [(a >= lo) & (a <= hi)], [a[mask] = v] *)
  np_full : nat → string → list string;
  np_between : Z → Z → list Z → list bool;
  np_assign : list bool → string → list string → list string;
  (** float64 and CuPy's element-wise functions on it *)
  f64 : Type;
  f64_le : f64 → f64 → bool;
  f64_of_Z : Z → f64;
  f64_mul : f64 → f64 → f64;
  f64_trunc : f64 → Z;
  f64_add1 : f64 → f64;
  cp_log : f64 → f64;
  cp_linspace : f64 → f64 → Z → list f64;
  cp_float64 : col → list f64;
  cp_digitize : list f64 → list f64 → list Z;
  cp_clip : Z → Z → list Z → list Z;
  (** [float("inf")], and the literal 31556951.999999996 *)
  f64_inf : f64;
  julian_year_seconds : f64;
  (** cuML's [KBinsDiscretizer] *)
  kbins : Type;
  kb_new : Z → string → kbins;
  kb_fit : kbins → col → kbins;
  kb_transform : kbins → col → col;
  (** data frames: [d.columns], [len(d)], [d[c]], [d[[c1, c2]]], the frame of
      one column under a name, a column that already is a frame, and
      [cudf.concat(parts, axis=1)] *)
  df : Type;
  df_columns : df → list string;
  df_len : df → nat;
  df_col : df → string → result col;
  df_cols : df → list string → result col;
  col_named : string → col → df;
  col_as_df : col → df;
  df_concat : list df → df;
  (** [s.to_pandas().map(vocab).fillna(unk).astype(np.int64).values] *)
  col_ids : dict string Z → Z → col → list Z;
  (** [np.full((n, m), v)], [a[:, j] = column] and [a[:, j] = v] *)
  np_full2 : nat → Z → Z → result mat;
  np_set_col : Z → list Z → mat → result mat;
  np_fill_col : Z → Z → mat → result mat
}.

(** Element-wise reference functions used to state the laws. *)
Definition clip_Z (lo hi z : Z) : Z := Z.min (Z.max z lo) hi.

Definition cell_clip (lo hi : Z) (c : cell) : cell :=
  match c with CInt z => CInt (clip_Z lo hi z) | c => c end.

Definition cell_mod (n : Z) (c : cell) : cell :=
  match c with CInt z => CInt (z mod n) | c => c end.

Definition cell_map_int (d : dict Z string) (c : cell) : cell :=
  match c with
  | CInt z => match dget d z with Some t => CStr t | None => CNull end
  | _ => CNull
  end.

Definition cell_map (d : dict cell string) (c : cell) : cell :=
  match c with
  | CNull => CNull
  | c => match dget d c with Some t => CStr t | None => CNull end
  end.

Definition cell_fillna (v : string) (c : cell) : cell :=
  match c with CNull => CStr v | c => c end.

Definition cell_prepend (p : string) (c : cell) : cell := CStr (p +:+ cell_str c).

Definition in_int32 (c : cell) : Prop :=
  match c with CInt z => -2 ^ 31 ≤ z < 2 ^ 31 | _ => False end.

Definition is_cstr (c : cell) : Prop := match c with CStr _ => True | _ => False end.

Fixpoint mask_assign (m : list bool) (v : string) (a : list string) : list string :=
  match m, a with
  | b :: m, x :: a => (if b then v else x) :: mask_assign m v a
  | _, _ => a
  end.

Definition cell_id (d : dict string Z) (unk : Z) (c : cell) : Z :=
  match c with
  | CStr s => match dget d s with Some i => i | None => unk end
  | _ => unk
  end.

(** [a[:, j] = f(row)], for a column [j] inside the array. *)
Definition mat_set (j : nat) (vs : list Z) (m : mat) : mat := {|
  mat_width := mat_width m;
  mat_rows := zip_with (λ v r, <[j := v]> r) vs (mat_rows m)
|}.

(** The documented behaviour of the operations above. *)
Class CudfLaws `{Cudf} : Prop := {
  cells_astype_int32 s : Forall in_int32 (cells s) → cells (col_astype_int32 s) = cells s;
  cells_astype_str s : cells (col_astype_str s) = map (λ c, CStr (cell_str c)) (cells s);
  cells_object s : col_is_object s = true → Forall (λ c, is_cstr c ∨ c = CNull) (cells s);
  cells_clip lo hi s : lo ≤ hi → cells (col_clip lo hi s) = map (cell_clip lo hi) (cells s);
  cells_mod n s : 0 < n → cells (col_mod n s) = map (cell_mod n) (cells s);
  cells_map_int d s : cells (col_map_int d s) = map (cell_map_int d) (cells s);
  cells_map_cell d s : cells (col_map_cell d s) = map (cell_map d) (cells s);
  cells_fillna v s : cells (col_fillna v s) = map (cell_fillna v) (cells s);
  cells_prepend p s : cells (col_prepend p s) = map (cell_prepend p) (cells s);
  cells_of_strs l s : length l = length (cells s) → cells (col_of_strs l s) = map CStr l;
  cells_of_ints l s : length l = length (cells s) → cells (col_of_ints l s) = map CInt l;
  cells_unique s c : c ∈ col_unique s ↔ c ∈ cells s ∧ c ≠ CNull;
  cells_int64 s l : cells s = map CInt l → col_int64 s = Ok l;
  np_full_law n v : np_full n v = replicate n v;
  np_between_law lo hi l : np_between lo hi l = map (λ z, bool_decide (lo ≤ z ≤ hi)) l;
  np_assign_law m v a : length m = length a → np_assign m v a = mask_assign m v a;
  cp_clip_law lo hi l : lo ≤ hi → cp_clip lo hi l = map (clip_Z lo hi) l;
  cp_float64_length s : length (cp_float64 s) = length (cells s);
  cp_float64_law s l : cells s = map CInt l → cp_float64 s = map f64_of_Z l;
  cp_digitize_length xs bs : length (cp_digitize xs bs) = length xs;
  (** [np.digitize]: a value at or above the first boundary of an increasing
      list is never in bin 0 *)
  cp_digitize_ge xs b bs i x d :
    f64_le b x = true → xs !! i = Some x → cp_digitize xs (b :: bs) !! i = Some d → 1 ≤ d;
  (** [np.linspace] starts at its start *)
  cp_linspace_head a b n : 0 < n → ∃ bs, cp_linspace a b n = a :: bs;
  (** [log(x + 1) >= 0] for [x >= 0] *)
  df_col_missing d c : c ∉ df_columns d → df_col d c = Raise KeyError;
  df_col_present d c s : df_col d c = Ok s → c ∈ df_columns d ∧ length (cells s) = df_len d;
  col_ids_law d u s : col_ids d u s = map (cell_id d u) (cells s);
  np_full2_neg n m v : m < 0 → np_full2 n m v = Raise ValueError;
  np_full2_law n m v : 0 ≤ m → np_full2 n m v =
    Ok {| mat_width := m; mat_rows := replicate n (replicate (Z.to_nat m) v) |};
  np_set_col_out j vs a : mat_width a ≤ j → np_set_col j vs a = Raise IndexError;
  np_set_col_law j vs a : 0 ≤ j < mat_width a → length vs = length (mat_rows a) →
    np_set_col j vs a = Ok (mat_set (Z.to_nat j) vs a);
  np_fill_col_out j v a : mat_width a ≤ j → np_fill_col j v a = Raise IndexError;
  np_fill_col_law j v a : 0 ≤ j < mat_width a →
    np_fill_col j v a = Ok (mat_set (Z.to_nat j) (replicate (length (mat_rows a)) v) a);
  cp_log_nonneg z : 0 ≤ z → f64_le (f64_of_Z 0) (cp_log (f64_add1 (f64_of_Z z))) = true
}.

(** ** The instance on lists *)

Fixpoint uniq (l : list cell) : list cell :=
  match l with
  | [] => []
  | CNull :: l => uniq l
  | c :: l => c :: filter (λ c', c' ≠ c) (uniq l)
  end.

Definition ints_of (l : list cell) : list Z :=
  map (λ c, match c with CInt z => z | _ => 0 end) l.

(** [f64] is [Z], the logarithm [Z.log2], and the discretizer clamps. *)
Definition list_cudf : Cudf := {|
  col := list cell;
  cells := id;
  col_is_object s := forallb (λ c, match c with CInt _ => false | _ => true end) s;
  col_is_series _ := true;
  col_to_frame := id;
  col_first := id;
  col_astype_str := map (λ c, CStr (cell_str c));
  col_astype_int32 := id;
  col_clip lo hi := map (cell_clip lo hi);
  col_mod n := map (cell_mod n);
  col_map_int d := map (cell_map_int d);
  col_map_cell d := map (cell_map d);
  col_fillna v := map (cell_fillna v);
  col_prepend p := map (cell_prepend p);
  col_unique := uniq;
  col_int64 s := Ok (ints_of s);
  col_of_strs l _ := map CStr l;
  col_of_ints l _ := map CInt l;
  np_full := replicate;
  np_between lo hi := map (λ z, bool_decide (lo ≤ z ≤ hi));
  np_assign := mask_assign;
  f64 := Z;
  f64_le := Z.leb;
  f64_of_Z z := z;
  f64_mul := Z.mul;
  f64_trunc z := z;
  f64_add1 := Z.succ;
  cp_log := Z.log2;
  cp_linspace a b n := a :: map (λ i, a + Z.of_nat i * ((b - a) / (n - 1))) (seq 1 (Z.to_nat n - 1));
  cp_float64 := ints_of;
  cp_digitize xs bs := map (λ x, Z.of_nat (length (filter (λ b, b ≤ x) bs))) xs;
  cp_clip lo hi := map (clip_Z lo hi);
  f64_inf := 2 ^ 62;
  julian_year_seconds := 31556952;
  kbins := Z;
  kb_new n _ := n;
  kb_fit b _ := b;
  kb_transform b s := map (cell_clip 0 (b - 1)) s;
  df := nat * dict string (list cell);
  df_columns d := d.2.*1;
  df_len d := d.1;
  df_col d c := match dget d.2 c with
    | Some s => if decide (length s = d.1) then Ok s else Raise KeyError
    | None => Raise KeyError end;
  df_cols d cs := match cs with
    | c :: _ => or_raise KeyError (dget d.2 c) | [] => Raise KeyError end;
  col_named k s := (length s, [(k, s)]);
  col_as_df s := (length s, [("0"%string, s)]);
  df_concat ds := (match ds with d :: _ => d.1 | [] => 0%nat end, concat (map snd ds));
  col_ids d u := map (cell_id d u);
  np_full2 n m v := if m <? 0 then Raise ValueError else
    Ok {| mat_width := m; mat_rows := replicate n (replicate (Z.to_nat m) v) |};
  np_set_col j vs a := if mat_width a <=? j then Raise IndexError
    else Ok (mat_set (Z.to_nat j) vs a);
  np_fill_col j v a := if mat_width a <=? j then Raise IndexError
    else Ok (mat_set (Z.to_nat j) (replicate (length (mat_rows a)) v) a)
|}.

Lemma uniq_elem l c : c ∈ uniq l ↔ c ∈ l ∧ c ≠ CNull.
Proof.
  assert (∀ x l, x ≠ CNull → (c ∈ uniq l ↔ c ∈ l ∧ c ≠ CNull) →
    c ∈ x :: filter (λ c', c' ≠ x) (uniq l) ↔ c ∈ x :: l ∧ c ≠ CNull) as Hcons.
  { intros x k Hx IH. rewrite !elem_of_cons, list_elem_of_filter, IH.
    destruct (decide (c = x)) as [->|]; tauto. }
  induction l as [|[] l IH]; simpl.
  - split; [by intros ?%elem_of_nil|]. by intros [?%elem_of_nil _].
  - by apply Hcons.
  - by apply Hcons.
  - rewrite IH, elem_of_cons. split; [tauto|]. by intros [[->|] ?].
Qed.

Lemma list_cudf_laws : @CudfLaws list_cudf.
Proof.
  split; simpl; try done.
  - intros s Hs. apply Is_true_eq_left, forallb_True in Hs. eapply Forall_impl; [exact Hs|].
    intros []; simpl; naive_solver.
  - apply uniq_elem.
  - intros s l ->. f_equal. unfold ints_of. rewrite map_map. apply map_id.
  - intros. unfold ints_of. apply length_map.
  - intros s l ->. unfold ints_of. by rewrite map_map.
  - intros. by rewrite length_map.
  - intros xs b bs i x d Hb Hx Hd. apply Z.leb_le in Hb.
    rewrite list_lookup_fmap, Hx in Hd. simplify_eq/=.
    rewrite filter_cons_True by done. simpl. lia.
  - intros a b n Hn. by eexists.
  - intros d c Hc. by apply dget_None in Hc as ->.
  - intros d c s Hs. destruct (dget d.2 c) as [s'|] eqn:E; [|done].
    case_decide; simplify_eq. split; [|done].
    apply dget_elem in E. apply list_elem_of_fmap. by exists (c, s).
  - intros n m v Hm. by destruct (Z.ltb_spec m 0); [|lia].
  - intros n m v Hm. by destruct (Z.ltb_spec m 0); [lia|].
  - intros j vs a Hj. by destruct (Z.leb_spec (mat_width a) j); [|lia].
  - intros j vs a Hj _. by destruct (Z.leb_spec (mat_width a) j); [lia|].
  - intros j v a Hj. by destruct (Z.leb_spec (mat_width a) j); [|lia].
  - intros j v a Hj. by destruct (Z.leb_spec (mat_width a) j); [lia|].
  - intros z Hz. apply Z.leb_le, Z.log2_nonneg.
Qed.
