(* ===== verification/BaseTok.v ===== *)
(** * [tokenizer/base.py]: the tokenizer base class

    The state every tokenizer step shares (the [_idx_to_token] mapping and the
    lazily cached inverse [_vocab]), the interface a step offers the pipeline,
    and the state dictionaries it is saved to and restored from. *)
From S2P Require Import Prelude PyDict PyStr Cudf.

(** [_idx_to_token]: one dictionary of tokens, or one per sub-field.  An empty
    Python dictionary is [Flat []] or [Nested []]; both behave alike. *)
Inductive idx_map : Type :=
  | Flat (d : dict Z string)
  | Nested (d : dict string (dict Z string)).

Inductive vocab_map : Type :=
  | FlatVocab (d : dict string Z)
  | NestedVocab (d : dict string (dict string Z)).

Module BaseTokenizer.
Record t : Type := {
  _vocab : option vocab_map;
  _idx_to_token : option idx_map
}.

Definition init : t := {| _vocab := None; _idx_to_token := None |}.

Definition set_idx (b : t) (m : idx_map) : t :=
  {| _vocab := _vocab b; _idx_to_token := Some m |}.

(** The inverse mapping the [vocab] property builds;
    [next(iter(...))] raises on an empty dictionary. *)
Definition invert (m : idx_map) : result vocab_map :=
  match m with
  | Flat [] | Nested [] => Raise StopIteration
  | Nested d => Ok (NestedVocab (map (λ kv, (kv.1, dswap kv.2)) d))
  | Flat d => Ok (FlatVocab (dict_of (zip d.*2 d.*1)))
  end.

(** The [vocab] property: builds the inverse once and caches it. *)
Definition vocab (b : t) : result (vocab_map * t) :=
  match _vocab b, _idx_to_token b with
  | Some v, _ => Ok (v, b)
  | None, Some m =>
      v ← invert m;
      Ok (v, {| _vocab := Some v; _idx_to_token := Some m |})
  | None, None => Ok (FlatVocab [], b)
  end.

(** The [vocab] setter. *)
Definition set_vocab (b : t) (v : vocab_map) : t :=
  {| _vocab := Some v; _idx_to_token := _idx_to_token b |}.

Definition vocab_size (b : t) : Z :=
  match _idx_to_token b with
  | None => 0
  | Some (Nested d) => foldr (λ kv n, Z.of_nat (length kv.2) + n) 0 d
  | Some (Flat d) => Z.of_nat (length d)
  end.

(** [_get_vocab_state] and [_set_vocab_state].  NumPy integer keys are
    converted to [int]; both are [Z] here. *)
Definition get_vocab_state (b : t) : option idx_map := _idx_to_token b.

Definition set_vocab_state (b : t) (s : option idx_map) : t :=
  {| _vocab := _vocab b; _idx_to_token := s |}.
End BaseTokenizer.

(** The dictionary [get_state] returns, without the class name: the init
    parameters, the vocabulary state and the fitted state. *)
Record tok_state (P F : Type) : Type := {
  init_params : P;
  vocab_state : option idx_map;
  fitted_state : F
}.
Arguments init_params {P F} _.
Arguments vocab_state {P F} _.
Arguments fitted_state {P F} _.

(** A tokenizer class: its constructor and the hooks [get_state] and
    [from_state] call. *)
Class Serializable (T P F : Type) : Type := {
  tok_new : P → T;
  get_init_params : T → P;
  get_fitted_state : T → F;
  set_fitted_state : T → F → T;
  get_base : T → BaseTokenizer.t;
  put_base : T → BaseTokenizer.t → T
}.

Section state.
Context {T P F : Type} `{Serializable T P F}.

Definition get_state (x : T) : tok_state P F := {|
  init_params := get_init_params x;
  vocab_state := BaseTokenizer.get_vocab_state (get_base x);
  fitted_state := get_fitted_state x
|}.

Definition from_state (s : tok_state P F) : T :=
  let x := tok_new (init_params s) in
  let x := put_base x (BaseTokenizer.set_vocab_state (get_base x) (vocab_state s)) in
  set_fitted_state x (fitted_state s).
End state.

(** What a tokenizer step offers [TokenizerPipeline]: the three methods it
    calls and the CUDA stream attribute it sets around them. *)
Class Tokenizer `{Cudf} (T : Type) : Type := {
  tk_base : T → BaseTokenizer.t;
  tk_build_vocab : option col → T → result T;
  tk_tokenize : col → T → result col;
  tk_stream : T → option nat;
  tk_set_stream : option nat → T → T
}.

(** The promise of a step to the pipeline: the stream attribute changes
    neither the vocabulary that is built nor the tokens that are produced. *)
Class TokenizerLaws `{Cudf} (T : Type) `{!Tokenizer T} : Prop := {
  tk_base_set_stream st x : tk_base (tk_set_stream st x) = tk_base x;
  tk_stream_set st x : tk_stream (tk_set_stream st x) = st;
  tk_set_stream_id x : tk_set_stream (tk_stream x) x = x;
  tk_set_set st st' x : tk_set_stream st (tk_set_stream st' x) = tk_set_stream st x;
  tk_build_stream c st x :
    tk_build_vocab c (tk_set_stream st x) = tk_set_stream st <$> tk_build_vocab c x;
  tk_tokenize_stream c st x : tk_tokenize c (tk_set_stream st x) = tk_tokenize c x;
  tk_build_keeps_stream c x y : tk_build_vocab c x = Ok y → tk_stream y = tk_stream x
}.

Lemma vocab_size_nonneg b : 0 ≤ BaseTokenizer.vocab_size b.
Proof.
  unfold BaseTokenizer.vocab_size.
  destruct (BaseTokenizer._idx_to_token b) as [[d|d]|]; [lia| |lia].
  induction d; simpl; lia.
Qed.

Lemma invert_flat d :
  NoDup d.*2 → d ≠ [] → BaseTokenizer.invert (Flat d) =
    Ok (FlatVocab (map (λ kv, (kv.2, kv.1)) d)).
Proof.
  intros Hnd Hd. destruct d as [|kv d]; [done|].
  unfold BaseTokenizer.invert. do 2 f_equal.
  assert (∀ l : dict Z string, zip l.*2 l.*1 = map (λ kv, (kv.2, kv.1)) l) as Hz.
  { intros l. induction l as [|a l IH]; [done|]. exact (f_equal (cons (a.2, a.1)) IH). }
  rewrite Hz. apply dict_of_NoDup.
  by rewrite <-list_fmap_compose.
Qed.
