(* ===== verification/Tokenizers.v ===== *)
(** * The concrete tokenizer steps

    One Module per file of [tokenizer/]: [FixedVocab] (fixed_vocab.py),
    [Mapping] (mapping.py), [CategoricalHash] (categorical_hash.py),
    [Numerical] (numerical.py) and [TimeDelta] (timedelta.py).  Each has its
    state as a Record, [init], [build_vocab], [tokenize], [repr] and the
    serialization hooks, and the lemmas on its vocabulary and its tokens. *)
From S2P Require Import Prelude PyDict PyStr Cudf BaseTok.
Open Scope string_scope.
Open Scope list_scope.
Open Scope Z_scope.

(** [idx.map(self._idx_to_token)]: the steps below only build flat
    vocabularies; a step whose vocabulary was never built has [None] here. *)
Definition map_vocab `{Cudf} (b : BaseTokenizer.t) (c : col) : result col :=
  match BaseTokenizer._idx_to_token b with
  | Some (Flat d) => Ok (col_map_int d c)
  | _ => Raise TypeError
  end.

(** [f"{prefix}_{label}"] *)
Definition token (prefix label : string) : string := prefix +:+ "_" +:+ label.

(** [{i: f"{prefix}_{lbl}" for i, lbl in enumerate(labels)}] *)
Definition enum_tokens (prefix : string) (labels : list string) : dict Z string :=
  dict_of (imap (λ i lbl, (Z.of_nat i, token prefix lbl)) labels).

(** [{i: f"{prefix}_{i}" for i in range(n)}] *)
Definition range_tokens (prefix : string) (n : Z) : dict Z string :=
  dict_of (map (λ i, (i, token prefix (pretty i))) (seqZ 0 n)).

(** ** fixed_vocab.py *)
Module FixedVocab.
Record t : Type := {
  base : BaseTokenizer.t;
  prefix : string;
  min_val : Z;
  max_val : Z;
  pad_width : nat;
  stream : option nat;
  _vocab_built : bool
}.

(** Constructor arguments, without the stream. *)
Record params : Type := {
  p_prefix : string; p_min_val : Z; p_max_val : Z; p_pad_width : nat
}.

Definition init (p : params) : t := {|
  base := BaseTokenizer.init;
  prefix := p_prefix p; min_val := p_min_val p; max_val := p_max_val p;
  pad_width := p_pad_width p; stream := None; _vocab_built := false
|}.

Definition vocab_entries (x : t) : dict Z string :=
  dict_of (map (λ i, (i, token (prefix x) (fmt0d (pad_width x) i)))
    (seqZ (min_val x) (max_val x + 1 - min_val x))).

Definition with_base (x : t) (b : BaseTokenizer.t) (built : bool) : t := {|
  base := b; prefix := prefix x; min_val := min_val x; max_val := max_val x;
  pad_width := pad_width x; stream := stream x; _vocab_built := built
|}.

Definition build_vocab (x : t) : t :=
  with_base x (BaseTokenizer.set_idx (base x) (Flat (vocab_entries x))) true.

Definition set_stream (st : option nat) (x : t) : t := {|
  base := base x; prefix := prefix x; min_val := min_val x;
  max_val := max_val x; pad_width := pad_width x; stream := st;
  _vocab_built := _vocab_built x
|}.

Definition repr (x : t) : string :=
  "FixedVocabTokenizer(prefix=" +:+ prefix x +:+ ", range=[" +:+
  pretty (min_val x) +:+ "," +:+ pretty (max_val x) +:+ "], " +:+
  (if _vocab_built x then "built" else "not built") +:+ ")".

Definition get_params (x : t) : params := {|
  p_prefix := prefix x; p_min_val := min_val x; p_max_val := max_val x;
  p_pad_width := pad_width x |}.

#[global] Instance serializable : Serializable t params bool := {|
  tok_new := init;
  get_init_params := get_params;
  get_fitted_state := _vocab_built;
  set_fitted_state x f := with_base x (base x) f;
  get_base := base;
  put_base x b := with_base x b (_vocab_built x)
|}.

Section tokenize.
Context `{Cudf}.

Definition tokenize (c : col) (x : t) : result col :=
  map_vocab (base x) (col_clip (min_val x) (max_val x) (col_astype_int32 c)).

#[global] Instance tokenizer : Tokenizer t := {|
  tk_base := base;
  tk_build_vocab _ x := Ok (build_vocab x);
  tk_tokenize := tokenize;
  tk_stream := stream;
  tk_set_stream := set_stream
|}.

#[global] Instance tokenizer_laws : TokenizerLaws t.
Proof.
  split; simpl; try done.
  - by intros [].
  - by intros c x y [= <-].
Qed.
End tokenize.

Lemma vocab_entries_raw x :
  vocab_entries x = map (λ i, (i, token (prefix x) (fmt0d (pad_width x) i)))
    (seqZ (min_val x) (max_val x + 1 - min_val x)).
Proof.
  unfold vocab_entries. apply dict_of_NoDup.
  rewrite <-list_fmap_compose, (list_fmap_id (seqZ _ _)). apply NoDup_seqZ.
Qed.

Lemma vocab_lookup x i :
  dget (vocab_entries x) i =
    if decide (min_val x ≤ i ≤ max_val x)
    then Some (token (prefix x) (fmt0d (pad_width x) i)) else None.
Proof.
  case_decide as E.
  - apply dget_wf_elem; [apply dict_of_wf|]. rewrite vocab_entries_raw.
    apply list_elem_of_fmap. exists i. split; [done|]. apply elem_of_seqZ. lia.
  - apply dget_None. rewrite vocab_entries_raw, <-list_fmap_compose.
    rewrite (list_fmap_id (seqZ _ _)), elem_of_seqZ. lia.
Qed.
End FixedVocab.

(** ** mapping.py *)
Module Mapping.
Inductive mode : Type := Range | Direct | Passthrough.

Record params : Type := {
  p_prefix : string;
  p_mapping : option (dict cell string);
  p_values : option (list cell);
  p_ranges : option (list (Z * Z * string));
  p_default : string
}.

Record t : Type := {
  base : BaseTokenizer.t;
  cfg : params;                       (* the constructor arguments kept *)
  stream : option nat;
  _vocab_built : bool;
  _mode : mode;
  _direct_map : option (dict cell string);
  _range_lookup : option (list (Z * Z * string))
}.

Definition prefix (x : t) : string := p_prefix (cfg x).
Definition default (x : t) : string := p_default (cfg x).

Definition init (p : params) : t :=
  let mk m dm rl := {|
    base := BaseTokenizer.init; cfg := p; stream := None;
    _vocab_built := false; _mode := m; _direct_map := dm; _range_lookup := rl |} in
  match p_ranges p, p_mapping p, p_values p with
  | Some r, _, _ => mk Range None (Some r)
  | None, Some m, _ => mk Direct (Some m) None
  | None, None, Some v =>
      mk Passthrough (Some (dict_of (map (λ c, (c, cell_str c)) v))) None
  | None, None, None => mk Passthrough (Some []) None
  end.

Definition update (x : t) (b : BaseTokenizer.t) (built : bool)
    (dm : option (dict cell string)) : t := {|
  base := b; cfg := cfg x; stream := stream x; _vocab_built := built;
  _mode := _mode x; _direct_map := dm; _range_lookup := _range_lookup x |}.

Definition set_stream (st : option nat) (x : t) : t := {|
  base := base x; cfg := cfg x; stream := st; _vocab_built := _vocab_built x;
  _mode := _mode x; _direct_map := _direct_map x;
  _range_lookup := _range_lookup x |}.

(** [list(dict.fromkeys(labels))]: the first occurrence of each label. *)
Definition dedupe (l : list string) : list string :=
  (dict_of (map (λ s, (s, tt)) l)).*1.

(** [sorted({lbl for _, _, lbl in self._range_lookup}) + [default]] *)
Definition range_labels (x : t) (r : list (Z * Z * string)) : list string :=
  sorted_set (map snd r) ++ [default x].

Definition direct_labels (x : t) (dm : dict cell string) : list string :=
  dedupe (sorted_set dm.*2 ++ [default x]).

Definition cell_str_le (a b : cell) : Prop := String.le (cell_str a) (cell_str b).
#[global] Instance cell_str_le_dec : RelDecision cell_str_le.
Proof. intros a b. unfold cell_str_le. apply _. Defined.

Definition repr (x : t) : string :=
  "MappingTokenizer(prefix=" +:+ prefix x +:+ ", mode=" +:+
  (match _mode x with
   | Range => "range" | Direct => "direct" | Passthrough => "passthrough" end) +:+
  ", " +:+ (if _vocab_built x then "built" else "not built") +:+ ")".

#[global] Instance serializable : Serializable t params bool := {|
  tok_new := init;
  get_init_params := cfg;
  get_fitted_state := _vocab_built;
  set_fitted_state x f := update x (base x) f (_direct_map x);
  get_base := base;
  put_base x b := update x b (_vocab_built x) (_direct_map x)
|}.

Section tokenize.
Context `{Cudf}.

Definition column_labels (x : t) (c : col) : list string :=
  dedupe (map cell_str (merge_sort cell_str_le (col_unique c)) ++ [default x]).

(** The truth value of [self._direct_map]: a non-empty dictionary. *)
Definition direct_truthy (x : t) : option (dict cell string) :=
  match _direct_map x with Some (e :: d) => Some (e :: d) | _ => None end.

Definition build_vocab (column : option col) (x : t) : result t :=
  match _mode x, direct_truthy x, column with
  | Range, _, _ =>
      r ← or_raise TypeError (_range_lookup x);
      Ok (update x (BaseTokenizer.set_idx (base x)
            (Flat (enum_tokens (prefix x) (range_labels x r)))) true (_direct_map x))
  | _, Some dm, _ =>
      Ok (update x (BaseTokenizer.set_idx (base x)
            (Flat (enum_tokens (prefix x) (direct_labels x dm)))) true (_direct_map x))
  | Passthrough, None, Some c =>
      let labels := column_labels x c in
      Ok (update x (BaseTokenizer.set_idx (base x)
            (Flat (enum_tokens (prefix x) labels))) true
            (Some (dict_of (map (λ v, (CStr v, v)) labels))))
  | _, _, _ =>
      Ok (update x (BaseTokenizer.set_idx (base x)
            (Flat [(0, token (prefix x) (default x))])) true (_direct_map x))
  end.

Definition _tokenize_direct (c : col) (x : t) : col :=
  let s := if col_is_object c then c else col_astype_str c in
  let mapped :=
    match direct_truthy x with
    | Some dm => col_fillna (default x) (col_map_cell dm s)
    | None => col_fillna (default x) s
    end in
  col_prepend (prefix x +:+ "_") mapped.

(** One pass of the loop over the ranges. *)
Definition assign_range (p : string) (vals : list Z) (res : list string)
    (r : Z * Z * string) : list string :=
  np_assign (np_between r.1.1 r.1.2 vals) (token p r.2) res.

Definition _tokenize_range (c : col) (x : t) : result col :=
  vals ← col_int64 c;
  r ← or_raise TypeError (_range_lookup x);
  let result := np_full (length vals) (token (prefix x) (default x)) in
  Ok (col_of_strs (foldl (assign_range (prefix x) vals) result r) c).

Definition tokenize (c : col) (x : t) : result col :=
  match _mode x with
  | Range => _tokenize_range c x
  | _ => Ok (_tokenize_direct c x)
  end.

#[global] Instance tokenizer : Tokenizer t := {|
  tk_base := base;
  tk_build_vocab := build_vocab;
  tk_tokenize := tokenize;
  tk_stream := stream;
  tk_set_stream := set_stream
|}.

#[global] Instance tokenizer_laws : TokenizerLaws t.
Proof.
  split; simpl; try done.
  - by intros [].
  - intros c st x. unfold build_vocab, direct_truthy. simpl.
    destruct (_mode x); [by destruct (_range_lookup x)|..];
      by destruct (_direct_map x) as [[|]|], c.
  - intros c x y. unfold build_vocab, direct_truthy. intros Hy.
    destruct (_mode x); [destruct (_range_lookup x)|..];
      destruct (_direct_map x) as [[|]|], c; simpl in *; by simplify_eq.
Qed.
End tokenize.
End Mapping.

(** ** categorical_hash.py *)
Module CategoricalHash.
Record params : Type := { p_vocab_limit : Z; p_special_token : string }.

Record t : Type := {
  base : BaseTokenizer.t;
  cfg : params;
  stream : option nat;
  _vocab_built : bool
}.

Definition vocab_limit (x : t) : Z := p_vocab_limit (cfg x).
Definition special_token (x : t) : string := p_special_token (cfg x).

Definition init (p : params) : t := {|
  base := BaseTokenizer.init; cfg := p; stream := None; _vocab_built := false |}.

Definition update (x : t) (b : BaseTokenizer.t) (built : bool) : t := {|
  base := b; cfg := cfg x; stream := stream x; _vocab_built := built |}.

Definition set_stream (st : option nat) (x : t) : t := {|
  base := base x; cfg := cfg x; stream := st; _vocab_built := _vocab_built x |}.

(** Without a stream, a comprehension; with one, the tokens are
    concatenated column-wise ([special_token + "_"] repeated, joined to the
    index as a string) and zipped with the index. *)
Definition stream_tokens (x : t) : dict Z string :=
  let idx := seqZ 0 (vocab_limit x) in
  let heads := replicate (Z.to_nat (vocab_limit x)) (special_token x +:+ "_") in
  dict_of (zip idx (zip_with (λ h i, h +:+ pretty i) heads idx)).

Definition build_vocab (x : t) : t :=
  let m := match stream x with
           | Some _ => stream_tokens x
           | None => range_tokens (special_token x) (vocab_limit x) end in
  update x (BaseTokenizer.set_idx (base x) (Flat m)) true.

Definition repr (x : t) : string :=
  "CategoricalHashTokenizer(token=" +:+ special_token x +:+ ", limit=" +:+
  pretty (vocab_limit x) +:+ ", " +:+
  (if _vocab_built x then "built" else "not built") +:+ ")".

#[global] Instance serializable : Serializable t params bool := {|
  tok_new := init;
  get_init_params := cfg;
  get_fitted_state := _vocab_built;
  set_fitted_state x f := update x (base x) f;
  get_base := base;
  put_base x b := update x b (_vocab_built x)
|}.

(** Both ways of building the vocabulary agree. *)
Lemma stream_tokens_eq x :
  stream_tokens x = range_tokens (special_token x) (vocab_limit x).
Proof.
  unfold stream_tokens, range_tokens. f_equal.
  assert (∀ p n a, zip (seqZ a (Z.of_nat n))
      (zip_with (λ h i, h +:+ pretty i) (replicate n (p +:+ "_")) (seqZ a (Z.of_nat n)))
    = map (λ i, (i, token p (pretty i))) (seqZ a (Z.of_nat n))) as Hz.
  { intros p n. induction n as [|n IH]; intros a; [done|].
    rewrite seqZ_cons by lia. replace (Z.pred (Z.of_nat (S n))) with (Z.of_nat n) by lia.
    simpl. rewrite <-IH. unfold token. by rewrite <-sapp_assoc. }
  destruct (Z.le_gt_cases 0 (vocab_limit x)) as [Hn|Hn].
  - rewrite <-(Z2Nat.id (vocab_limit x)) at 1 3 4 by done. apply Hz.
  - by rewrite seqZ_nil by lia.
Qed.

Section tokenize.
Context `{Cudf}.

Definition tokenize (c : col) (x : t) : result col :=
  map_vocab (base x) (col_mod (vocab_limit x) c).

#[global] Instance tokenizer : Tokenizer t := {|
  tk_base := base;
  tk_build_vocab _ x := Ok (build_vocab x);
  tk_tokenize := tokenize;
  tk_stream := stream;
  tk_set_stream := set_stream
|}.

#[global] Instance tokenizer_laws : TokenizerLaws t.
Proof.
  split; simpl; try done.
  - by intros [].
  - intros c st x. do 2 f_equal. unfold build_vocab, set_stream. simpl.
    rewrite stream_tokens_eq. simpl.
    destruct st, (stream x); simpl; by rewrite ?stream_tokens_eq.
  - by intros c x y [= <-].
Qed.
End tokenize.
End CategoricalHash.

(** ** numerical.py *)
Module Numerical.
Section numerical.
Context `{Cudf}.

Record params : Type := {
  p_special_token : string; p_num_bins : Z; p_strategy : string }.

Record t : Type := {
  base : BaseTokenizer.t;
  cfg : params;
  stream : option nat;
  _vocab_built : bool;
  builder : kbins
}.

Definition init (p : params) : t := {|
  base := BaseTokenizer.init; cfg := p; stream := None; _vocab_built := false;
  builder := kb_new (p_num_bins p) (p_strategy p) |}.

Definition update (x : t) (b : BaseTokenizer.t) (built : bool) (k : kbins) : t := {|
  base := b; cfg := cfg x; stream := stream x; _vocab_built := built; builder := k |}.

Definition set_stream (st : option nat) (x : t) : t := {|
  base := base x; cfg := cfg x; stream := st; _vocab_built := _vocab_built x;
  builder := builder x |}.

Definition build_vocab (column : option col) (x : t) : t :=
  let m := range_tokens (p_special_token (cfg x)) (p_num_bins (cfg x)) in
  let k := match column with
           | None => builder x
           | Some c => kb_fit (builder x) (if col_is_series c then col_to_frame c else c)
           end in
  update x (BaseTokenizer.set_idx (base x) (Flat m)) true k.

Definition tokenize (c : col) (x : t) : result col :=
  let c := if col_is_series c then col_to_frame c else c in
  let bins := kb_transform (builder x) c in
  let bins := if col_is_series bins then bins else col_first bins in
  map_vocab (base x) (col_astype_int32 bins).

Definition repr (x : t) : string :=
  "NumericalTokenizerOptBin(token=" +:+ p_special_token (cfg x) +:+ ", bins=" +:+
  pretty (p_num_bins (cfg x)) +:+ ", strategy=" +:+ p_strategy (cfg x) +:+ ", " +:+
  (if _vocab_built x then "built" else "not built") +:+ ")".

(** The fitted state carries the builder only once the vocabulary is
    built. *)
#[global] Instance serializable : Serializable t params (option kbins * bool) := {|
  tok_new := init;
  get_init_params := cfg;
  get_fitted_state x := (if _vocab_built x then Some (builder x) else None, _vocab_built x);
  set_fitted_state x f :=
    update x (base x) f.2 (match f.1 with Some k => k | None => builder x end);
  get_base := base;
  put_base x b := update x b (_vocab_built x) (builder x)
|}.

#[global] Instance tokenizer : Tokenizer t := {|
  tk_base := base;
  tk_build_vocab c x := Ok (build_vocab c x);
  tk_tokenize := tokenize;
  tk_stream := stream;
  tk_set_stream := set_stream
|}.

#[global] Instance tokenizer_laws : TokenizerLaws t.
Proof.
  split; simpl; try done.
  - by intros [].
  - by intros c x y [= <-].
Qed.
End numerical.
End Numerical.

(** ** timedelta.py *)
Module TimeDelta.
Section timedelta.
Context `{Cudf}.

Record params : Type := {
  p_num_bins : Z; p_special_token : string; p_max_years : f64 }.

Record t : Type := {
  base : BaseTokenizer.t;
  cfg : params;
  stream : option nat;
  _vocab_built : bool;
  max_horizon : Z;
  boundaries : list f64
}.

Definition num_bins (x : t) : Z := p_num_bins (cfg x).
Definition special_token (x : t) : string := p_special_token (cfg x).

Definition init (p : params) : t :=
  let horizon := f64_trunc (f64_mul (p_max_years p) julian_year_seconds) in
  let log_max := cp_log (f64_add1 (f64_of_Z horizon)) in {|
    base := BaseTokenizer.init; cfg := p; stream := None; _vocab_built := false;
    max_horizon := horizon;
    boundaries := cp_linspace (f64_of_Z 0) log_max (p_num_bins p + 1) |}.

Definition update (x : t) (b : BaseTokenizer.t) (built : bool) : t := {|
  base := b; cfg := cfg x; stream := stream x; _vocab_built := built;
  max_horizon := max_horizon x; boundaries := boundaries x |}.

Definition set_stream (st : option nat) (x : t) : t := {|
  base := base x; cfg := cfg x; stream := st; _vocab_built := _vocab_built x;
  max_horizon := max_horizon x; boundaries := boundaries x |}.

Definition build_vocab (x : t) : t :=
  let m := match stream x with
           | Some _ => range_tokens (special_token x) (num_bins x)
           | None => range_tokens (special_token x) (num_bins x) end in
  update x (BaseTokenizer.set_idx (base x) (Flat m)) true.

(** The bin of each delta: [digitize] of [log(clip(delta) + 1)], clipped. *)
Definition token_ids (c : col) (x : t) : list Z :=
  let clamped := col_clip 0 (max_horizon x) c in
  let log_vals := map (λ v, cp_log (f64_add1 v)) (cp_float64 clamped) in
  cp_clip 0 (num_bins x - 1) (cp_digitize log_vals (boundaries x)).

Definition tokenize (c : col) (x : t) : result col :=
  map_vocab (base x) (col_of_ints (token_ids c x) c).

Definition repr (x : t) : string :=
  "TimeDeltaTokenizer(token=" +:+ special_token x +:+ ", bins=" +:+
  pretty (num_bins x) +:+ ", " +:+
  (if _vocab_built x then "built" else "not built") +:+ ")".

#[global] Instance serializable : Serializable t params (list f64 * Z * bool) := {|
  tok_new := init;
  get_init_params := cfg;
  get_fitted_state x := (boundaries x, max_horizon x, _vocab_built x);
  set_fitted_state x f := {|
    base := base x; cfg := cfg x; stream := stream x; _vocab_built := f.2;
    max_horizon := f.1.2; boundaries := f.1.1 |};
  get_base := base;
  put_base x b := update x b (_vocab_built x)
|}.

#[global] Instance tokenizer : Tokenizer t := {|
  tk_base := base;
  tk_build_vocab _ x := Ok (build_vocab x);
  tk_tokenize := tokenize;
  tk_stream := stream;
  tk_set_stream := set_stream
|}.

#[global] Instance tokenizer_laws : TokenizerLaws t.
Proof.
  split; simpl; try done.
  - by intros [].
  - intros c st x. do 2 f_equal. unfold build_vocab, set_stream. simpl.
    by destruct st, (stream x).
  - by intros c x y [= <-].
Qed.
End timedelta.
End TimeDelta.
