(* ===== verification/TokenizerFacts.v ===== *)
(** * Theorems on the tokenizer steps

    What each step's [tokenize] returns for a column, that its tokens are
    entries of the vocabulary [build_vocab] made, and what survives
    [get_state]/[from_state]. *)
From S2P Require Import Prelude PyDict PyStr Cudf BaseTok Tokenizers.
Open Scope string_scope.
Open Scope list_scope.
Open Scope Z_scope.

(** The tokens of a built step. *)
Definition tokens_of (b : BaseTokenizer.t) : list string :=
  match BaseTokenizer._idx_to_token b with Some (Flat d) => d.*2 | _ => [] end.

#[export] Instance token_label_inj p : Inj (=) (=) (token p).
Proof. intros l l' Hl. unfold token in Hl. by do 2 apply (inj (String.append _)) in Hl. Qed.

Lemma dget_range_tokens pre n i :
  dget (range_tokens pre n) i =
    if decide (0 ≤ i < n) then Some (token pre (pretty i)) else None.
Proof.
  assert (range_tokens pre n = map (λ i, (i, token pre (pretty i))) (seqZ 0 n)) as Hr.
  { apply dict_of_NoDup. rewrite <-list_fmap_compose, (list_fmap_id (seqZ _ _)).
    apply NoDup_seqZ. }
  case_decide as E.
  - apply dget_wf_elem; [apply dict_of_wf|]. rewrite Hr.
    apply list_elem_of_fmap. exists i. split; [done|]. apply elem_of_seqZ. lia.
  - apply dget_None. rewrite Hr, <-list_fmap_compose.
    rewrite (list_fmap_id (seqZ _ _)), elem_of_seqZ. lia.
Qed.

Lemma enum_tokens_elem pre labels l : l ∈ labels → token pre l ∈ (enum_tokens pre labels).*2.
Proof.
  intros [i Hi]%list_elem_of_lookup. apply list_elem_of_fmap.
  exists (Z.of_nat i, token pre l). split; [done|].
  set (es := imap (λ i lbl, (Z.of_nat i, token pre lbl)) labels).
  assert (es.*1 = seqZ 0 (Z.of_nat (length labels))) as Hk.
  { apply list_eq. intros j. unfold es. rewrite list_lookup_fmap, list_lookup_imap.
    destruct (labels !! j) eqn:E; simpl.
    - apply lookup_lt_Some in E. symmetry. apply lookup_seqZ. lia.
    - apply lookup_ge_None in E. symmetry. apply lookup_seqZ_ge. lia. }
  unfold enum_tokens. fold es. rewrite dict_of_NoDup by (rewrite Hk; apply NoDup_seqZ).
  apply list_elem_of_lookup. exists i. unfold es. by rewrite list_lookup_imap, Hi.
Qed.

Lemma enum_tokens_inv pre labels l : token pre l ∈ (enum_tokens pre labels).*2 → l ∈ labels.
Proof.
  intros ([i t] & Ht & Hin)%list_elem_of_fmap. apply dict_of_elem in Hin.
  apply elem_of_lookup_imap in Hin as (j & lbl & He & Hj). simplify_eq/=.
  by apply list_elem_of_lookup_2 in Hj.
Qed.

Lemma dedupe_elem l s : s ∈ Mapping.dedupe l ↔ s ∈ l.
Proof.
  unfold Mapping.dedupe. rewrite dict_of_keys_elem, <-list_fmap_compose.
  by rewrite (list_fmap_ext _ id l), list_fmap_id.
Qed.

Section facts.
Context `{Cudf} `{!CudfLaws}.

(** Mapping integer cells through a vocabulary that covers them. *)
Lemma map_vocab_ints b d (f : Z → string) c zs :
  BaseTokenizer._idx_to_token b = Some (Flat d) → cells c = map CInt zs →
  (∀ z, z ∈ zs → dget d z = Some (f z)) →
  ∃ r, map_vocab b c = Ok r ∧ cells r = map (λ z, CStr (f z)) zs ∧
    Forall (λ z, f z ∈ tokens_of b) zs.
Proof.
  intros Hb Hc Hf. unfold map_vocab, tokens_of. rewrite Hb. eexists. split; [done|].
  rewrite cells_map_int, Hc, map_map. split.
  - apply map_ext_in. intros z Hz%list_elem_of_In. simpl. by rewrite (Hf z Hz).
  - apply Forall_forall. intros z Hz. specialize (Hf z Hz). apply dget_elem in Hf.
    by apply (list_elem_of_fmap_2 snd d (z, f z)).
Qed.

(** A fixed-range step clips every integer into its range and prints it
    zero-padded; the result is always a token of the built vocabulary. *)
Theorem fixed_tokenize_spec (x : FixedVocab.t) c zs :
  FixedVocab.min_val x ≤ FixedVocab.max_val x →
  cells c = map CInt zs → Forall (λ z, -2 ^ 31 ≤ z < 2 ^ 31) zs →
  let f z := token (FixedVocab.prefix x) (fmt0d (FixedVocab.pad_width x)
    (clip_Z (FixedVocab.min_val x) (FixedVocab.max_val x) z)) in
  ∃ r, FixedVocab.tokenize c (FixedVocab.build_vocab x) = Ok r ∧
    cells r = map (λ z, CStr (f z)) zs ∧
    Forall (λ z, f z ∈ tokens_of (FixedVocab.base (FixedVocab.build_vocab x))) zs.
Proof.
  intros Hmm Hc Hz f. unfold FixedVocab.tokenize. simpl.
  set (g := λ z, token (FixedVocab.prefix x) (fmt0d (FixedVocab.pad_width x) z)).
  set (k := clip_Z (FixedVocab.min_val x) (FixedVocab.max_val x)).
  destruct (map_vocab_ints (FixedVocab.base (FixedVocab.build_vocab x))
    (FixedVocab.vocab_entries x) g
    (col_clip (FixedVocab.min_val x) (FixedVocab.max_val x) (col_astype_int32 c))
    (map k zs)) as (r & Hr & Hcr & Htok); [done|..].
  - rewrite cells_clip, cells_astype_int32, Hc, !map_map by
      (done || (rewrite Hc; by apply Forall_map)). done.
  - intros z (y & -> & _)%list_elem_of_fmap. rewrite FixedVocab.vocab_lookup.
    rewrite decide_True; [done|]. unfold k, clip_Z. lia.
  - exists r. rewrite Hcr, map_map. split_and!; [done..|]. by apply Forall_map in Htok.
Qed.

(** A hash step maps every integer, negative ones included, to the token
    of its bucket, and all buckets are tokens of the vocabulary, whichever
    way (with or without a stream) the vocabulary was built. *)
Theorem hash_tokenize_spec (x : CategoricalHash.t) c zs :
  0 < CategoricalHash.vocab_limit x → cells c = map CInt zs →
  let f z := token (CategoricalHash.special_token x)
    (pretty (z mod CategoricalHash.vocab_limit x)) in
  ∃ r, CategoricalHash.tokenize c (CategoricalHash.build_vocab x) = Ok r ∧
    cells r = map (λ z, CStr (f z)) zs ∧
    Forall (λ z, f z ∈ tokens_of (CategoricalHash.base (CategoricalHash.build_vocab x))) zs.
Proof.
  intros Hn Hc f. unfold CategoricalHash.tokenize.
  set (n := CategoricalHash.vocab_limit x) in *.
  set (g := λ z : Z, token (CategoricalHash.special_token x) (pretty z)).
  destruct (map_vocab_ints (CategoricalHash.base (CategoricalHash.build_vocab x))
    (range_tokens (CategoricalHash.special_token x) n) g (col_mod n c)
    (map (λ z, z mod n) zs)) as (r & Hr & Hcr & Htok).
  - simpl. destruct (CategoricalHash.stream x); [|done].
    by rewrite CategoricalHash.stream_tokens_eq.
  - rewrite cells_mod, Hc, !map_map by done. done.
  - intros z (y & -> & _)%list_elem_of_fmap. rewrite dget_range_tokens.
    rewrite decide_True; [done|]. by apply Z.mod_pos_bound.
  - exists r. rewrite Hcr, map_map. split_and!; [done..|]. by apply Forall_map in Htok.
Qed.

(** The bins of the time-delta step. *)
Lemma timedelta_bins (x : TimeDelta.t) c zs b bs :
  cells c = map CInt zs → 2 ≤ TimeDelta.num_bins x → 0 ≤ TimeDelta.max_horizon x →
  TimeDelta.boundaries x = b :: bs → b = f64_of_Z 0 →
  length (TimeDelta.token_ids c x) = length zs ∧
  Forall (λ i, 1 ≤ i < TimeDelta.num_bins x) (TimeDelta.token_ids c x).
Proof.
  intros Hc Hn Hh Hb ->. unfold TimeDelta.token_ids. rewrite Hb.
  set (n := TimeDelta.num_bins x) in *. set (m := TimeDelta.max_horizon x) in *.
  rewrite (cp_float64_law _ (map (clip_Z 0 m) zs)).
  2:{ rewrite cells_clip, Hc, !map_map by done. done. }
  set (logs := map _ (map f64_of_Z _)).
  rewrite cp_clip_law by lia.
  assert (length logs = length zs) as Hl by (unfold logs; by rewrite !length_map).
  split; [by rewrite length_map, cp_digitize_length|].
  apply Forall_map, Forall_lookup. intros i d Hd.
  assert (i < length logs)%nat as Hi.
  { apply lookup_lt_Some in Hd. by rewrite cp_digitize_length in Hd. }
  destruct (lookup_lt_is_Some_2 logs i Hi) as [v Hv].
  enough (1 ≤ d) by (unfold clip_Z; lia).
  refine (cp_digitize_ge logs _ bs i v d _ Hv Hd).
  unfold logs in Hv. rewrite !map_map in Hv. rewrite list_lookup_fmap in Hv.
  destruct (zs !! i) as [z|]; [|done]. injection Hv as <-.
  apply cp_log_nonneg. unfold clip_Z. lia.
Qed.

(** A time-delta step maps every integer delta to one of its tokens, and
    never to the token of bin 0: [digitize] numbers the intervals from 1. *)
Theorem timedelta_tokenize_spec (p : TimeDelta.params) c zs :
  let x := TimeDelta.build_vocab (TimeDelta.init p) in
  cells c = map CInt zs → 2 ≤ TimeDelta.p_num_bins p → 0 ≤ TimeDelta.max_horizon x →
  ∃ r ids, TimeDelta.tokenize c x = Ok r ∧
    cells r = map (λ i, CStr (token (TimeDelta.p_special_token p) (pretty i))) ids ∧
    length ids = length zs ∧ Forall (λ i, 1 ≤ i < TimeDelta.p_num_bins p) ids ∧
    (CStr (token (TimeDelta.p_special_token p) "0") ∉ cells r) ∧
    token (TimeDelta.p_special_token p) "0" ∈ tokens_of (TimeDelta.base x).
Proof.
  intros x Hc Hn Hh. unfold TimeDelta.tokenize.
  destruct (cp_linspace_head (f64_of_Z 0) (cp_log (f64_add1 (f64_of_Z (TimeDelta.max_horizon x))))
    (TimeDelta.p_num_bins p + 1)) as [bs Hbs]; [lia|].
  destruct (timedelta_bins x c zs (f64_of_Z 0) bs) as [Hlen Hids]; [done..|].
  change (TimeDelta.num_bins x) with (TimeDelta.p_num_bins p) in Hids.
  set (ids := TimeDelta.token_ids c x) in *.
  set (f := λ i : Z, token (TimeDelta.p_special_token p) (pretty i)).
  assert (BaseTokenizer._idx_to_token (TimeDelta.base x) =
    Some (Flat (range_tokens (TimeDelta.p_special_token p) (TimeDelta.p_num_bins p)))) as Hi
    by done.
  destruct (map_vocab_ints (TimeDelta.base x) _ f (col_of_ints ids c) ids Hi) as (r & Hr & Hcr & _).
  - apply cells_of_ints. by rewrite Hlen, Hc, length_map.
  - intros i Hin. rewrite dget_range_tokens. rewrite decide_True; [done|].
    rewrite Forall_forall in Hids. specialize (Hids i Hin). lia.
  - exists r, ids. split_and!; [done..| |].
    + rewrite Hcr. intros (i & Hf & Hin)%list_elem_of_fmap. injection Hf as Hf.
      change "0" with (pretty 0) in Hf. apply (inj (token _)), (inj pretty) in Hf as <-.
      rewrite Forall_forall in Hids. specialize (Hids 0 Hin). lia.
    + unfold tokens_of. rewrite Hi.
      assert (dget (range_tokens (TimeDelta.p_special_token p) (TimeDelta.p_num_bins p)) 0
        = Some (f 0)) as Hf0 by (rewrite dget_range_tokens; rewrite decide_True; [done|lia]).
      apply dget_elem in Hf0. by apply (list_elem_of_fmap_2 snd _ (0, f 0)).
Qed.

(** The label a value gets from a list of ranges: of the last range that
    contains it. *)
Definition range_label (r : list (Z * Z * string)) (d : string) (z : Z) : string :=
  default d (snd <$> last (filter (λ rg, rg.1.1 ≤ z ≤ rg.1.2) r)).

Lemma last_snoc_default {A B} (f : A → B) (d : B) (l : list A) (P : A → Prop)
    `{∀ x, Decision (P x)} (x : A) :
  default d (f <$> last (filter P (l ++ [x]))) =
    if decide (P x) then f x else default d (f <$> last (filter P l)).
Proof.
  rewrite filter_app. case_decide.
  - rewrite filter_cons_True, filter_nil by done. by rewrite last_snoc.
  - rewrite filter_cons_False, filter_nil by done. by rewrite app_nil_r.
Qed.

Lemma mask_assign_map {A} (P : A → Prop) `{∀ x, Decision (P x)} (f : A → string) v l :
  mask_assign (map (λ x, bool_decide (P x)) l) v (map f l)
  = map (λ x, if decide (P x) then v else f x) l.
Proof.
  induction l as [|x l IH]; [done|]. simpl. rewrite IH. f_equal.
  destruct (decide (P x)); [by rewrite bool_decide_eq_true_2|by rewrite bool_decide_eq_false_2].
Qed.

Lemma assign_ranges p r d zs :
  foldl (Mapping.assign_range p zs) (map (λ _, token p d) zs) r
  = map (λ z, token p (range_label r d z)) zs.
Proof.
  induction r as [|rg r IH] using rev_ind; [done|].
  rewrite foldl_app, IH. simpl. unfold Mapping.assign_range.
  rewrite np_between_law, np_assign_law by by rewrite !length_map.
  rewrite mask_assign_map. apply map_ext. intros z. unfold range_label.
  rewrite (last_snoc_default snd d r (λ rg, rg.1.1 ≤ z ≤ rg.1.2)). by case_decide.
Qed.

Lemma range_label_elem (x : Mapping.t) r z :
  range_label r (Mapping.default x) z ∈ Mapping.range_labels x r.
Proof.
  unfold range_label, Mapping.range_labels. rewrite elem_of_app, list_elem_of_singleton.
  destruct (last _) as [rg|] eqn:E; simpl; [left|by right].
  rewrite sorted_set_elem. apply (list_elem_of_fmap_2 snd).
  by eapply list_elem_of_filter, last_Some_elem_of.
Qed.

(** In range mode a value gets the label of the last range that contains
    it and the default label otherwise, and the token is always one of the
    vocabulary built from the ranges. *)
Theorem mapping_range_spec (x : Mapping.t) r c zs :
  Mapping._mode x = Mapping.Range → Mapping._range_lookup x = Some r →
  cells c = map CInt zs →
  ∃ y res, Mapping.build_vocab None x = Ok y ∧ Mapping.tokenize c y = Ok res ∧
    cells res = map (λ z, CStr (token (Mapping.prefix x) (range_label r (Mapping.default x) z))) zs ∧
    ∀ s, CStr s ∈ cells res → s ∈ tokens_of (Mapping.base y).
Proof.
  intros Hm Hr Hc. unfold Mapping.build_vocab. rewrite Hm, Hr. simpl.
  eexists _, _. split; [reflexivity|].
  unfold Mapping.tokenize, Mapping._tokenize_range. simpl.
  rewrite Hm, (cells_int64 c zs Hc). simpl. rewrite Hr. simpl.
  rewrite np_full_law.
  assert (∀ (v : string), replicate (length zs) v = map (λ _, v) zs) as Hrep.
  { intros v. induction zs as [|z zs' IH]; [done|]. simpl. f_equal.
    clear. induction zs'; simpl; congruence. }
  rewrite Hrep, assign_ranges. split; [reflexivity|].
  rewrite cells_of_strs by by rewrite Hc, !length_map.
  rewrite map_map. split; [done|].
  intros s (z & Hs & Hz)%list_elem_of_fmap. injection Hs as ->.
  unfold tokens_of. simpl. apply enum_tokens_elem, (range_label_elem x).
Qed.

(** The label of a cell under an explicit mapping. *)
Definition direct_label (dm : dict cell string) (d : string) (c : cell) : string :=
  match c with CNull => d | c => default d (dget dm c) end.

(** The cells the mapping is applied to: strings as they are, anything else
    printed. *)
Definition as_key (obj : bool) (c : cell) : cell :=
  if obj then c else CStr (cell_str c).

(** The label of a cell, with or without a mapping in force. *)
Definition label_of (x : Mapping.t) (c : cell) : string :=
  match Mapping.direct_truthy x, c with
  | Some dm, _ => direct_label dm (Mapping.default x) c
  | None, CNull => Mapping.default x
  | None, c => cell_str c end.

Lemma direct_cells (x : Mapping.t) c :
  cells (Mapping._tokenize_direct c x)
  = map (λ v, CStr (token (Mapping.prefix x) (label_of x (as_key (col_is_object c) v))))
      (cells c).
Proof.
  assert (cells (if col_is_object c then c else col_astype_str c)
    = map (as_key (col_is_object c)) (cells c)) as Hkey.
  { unfold as_key. destruct (col_is_object c); [by rewrite map_id|apply cells_astype_str]. }
  unfold Mapping._tokenize_direct, label_of, direct_label, cell_prepend, token.
  destruct (Mapping.direct_truthy x) as [dm|];
    rewrite cells_prepend, cells_fillna, ?cells_map_cell, Hkey, !map_map;
    apply map_ext; intros v; unfold cell_prepend; rewrite <-sapp_assoc; do 2 f_equal;
    destruct (as_key _ v) as [z|s|]; simpl; try done; by destruct (dget dm _).
Qed.

(** In direct mode (an explicit mapping or a list of values) every cell,
    missing ones included, gets the label of its key or the default label,
    and the token is always one of the vocabulary. *)
Theorem mapping_direct_spec (x : Mapping.t) dm c col0 :
  Mapping._mode x ≠ Mapping.Range → Mapping.direct_truthy x = Some dm →
  ∃ y res, Mapping.build_vocab col0 x = Ok y ∧ Mapping.tokenize c y = Ok res ∧
    cells res = map (λ v, CStr (token (Mapping.prefix x)
      (direct_label dm (Mapping.default x) (as_key (col_is_object c) v)))) (cells c) ∧
    ∀ s, CStr s ∈ cells res → s ∈ tokens_of (Mapping.base y).
Proof.
  intros Hm Hdm.
  set (y := Mapping.update x (BaseTokenizer.set_idx (Mapping.base x) (Flat (enum_tokens
    (Mapping.prefix x) (Mapping.direct_labels x dm)))) true (Mapping._direct_map x)).
  set (lab := λ v, direct_label dm (Mapping.default x) (as_key (col_is_object c) v)).
  exists y, (Mapping._tokenize_direct c y).
  assert (cells (Mapping._tokenize_direct c y)
    = map (λ v, CStr (token (Mapping.prefix x) (lab v))) (cells c)) as Hres.
  { rewrite direct_cells. unfold label_of.
    change (Mapping.direct_truthy y) with (Mapping.direct_truthy x). by rewrite Hdm. }
  split_and!.
  - unfold Mapping.build_vocab. rewrite Hdm. by destruct (Mapping._mode x).
  - unfold Mapping.tokenize. change (Mapping._mode y) with (Mapping._mode x).
    by destruct (Mapping._mode x).
  - done.
  - intros s Hs. rewrite Hres in Hs. apply list_elem_of_fmap in Hs as (v & Hs & _).
    injection Hs as ->. apply enum_tokens_elem.
    unfold Mapping.direct_labels. rewrite dedupe_elem, elem_of_app, sorted_set_elem.
    unfold lab, direct_label.
    destruct (as_key _ v) as [z|s|]; [| |right; by left];
      (destruct (dget dm _) as [l|] eqn:E; [left|right; by left]);
      apply dget_elem, (list_elem_of_fmap_2 snd) in E; done.
Qed.
End facts.

(** ** Saving and restoring *)
Section state_facts.
Context `{Cudf}.

(** [from_state (get_state x)] has the vocabulary of [x] and tokenizes every
    column like [x]. *)
Definition restores {T P F} `{!Serializable T P F, !Tokenizer T} (x : T) : Prop :=
  let y := from_state (get_state x) in
  BaseTokenizer._idx_to_token (tk_base y) = BaseTokenizer._idx_to_token (tk_base x) ∧
  ∀ c, tk_tokenize c y = tk_tokenize c x.

(** A mapping step with a range list, a mapping or a non-empty value list. *)
Definition configured (p : Mapping.params) : bool :=
  match Mapping.p_ranges p, Mapping.direct_truthy (Mapping.init p) with
  | None, None => false | _, _ => true end.

(** A built step of every class, saved and restored, has the same
    vocabulary and tokenizes every column alike; for a mapping step, when
    its labels come from its configuration. *)
Theorem state_roundtrip c0 :
  (∀ p, restores (FixedVocab.build_vocab (FixedVocab.init p))) ∧
  (∀ p, restores (CategoricalHash.build_vocab (CategoricalHash.init p))) ∧
  (∀ p, restores (Numerical.build_vocab c0 (Numerical.init p))) ∧
  (∀ p, restores (TimeDelta.build_vocab (TimeDelta.init p))) ∧
  (∀ p x, configured p = true → Mapping.build_vocab c0 (Mapping.init p) = Ok x → restores x).
Proof.
  split_and!; [done..|].
  intros p x Hp Hx. unfold configured, Mapping.build_vocab, Mapping.direct_truthy in *.
  unfold Mapping.init in *.
  destruct (Mapping.p_ranges p) as [r|] eqn:Er; simpl in *.
  { injection Hx as <-. unfold restores, from_state, get_state. simpl.
    unfold Mapping.init. by rewrite Er. }
  destruct (Mapping.p_mapping p) as [m|] eqn:Em; simpl in *.
  { destruct m as [|e m]; [done|]. injection Hx as <-.
    unfold restores, from_state, get_state. simpl. unfold Mapping.init.
    by rewrite Er, Em. }
  destruct (Mapping.p_values p) as [vs|] eqn:Ev; simpl in *; [|done].
  destruct (dict_of _) as [|e m] eqn:Ed; [done|]. injection Hx as <-.
  unfold restores, from_state, get_state. simpl. unfold Mapping.init.
  by rewrite Er, Em, Ev, Ed.
Qed.

Lemma init_cfg p : Mapping.cfg (Mapping.init p) = p.
Proof.
  unfold Mapping.init. by destruct (Mapping.p_ranges p), (Mapping.p_mapping p),
    (Mapping.p_values p).
Qed.

(** What the passthrough mode learns from a column. *)
Lemma passthrough_build p c0 x :
  configured p = false → Mapping._mode (Mapping.init p) = Mapping.Passthrough →
  Mapping.build_vocab (Some c0) (Mapping.init p) = Ok x →
  let labels := Mapping.column_labels (Mapping.init p) c0 in
  Mapping.direct_truthy (Mapping.init p) = None ∧
  Mapping._mode x = Mapping.Passthrough ∧ Mapping.cfg x = p ∧
  BaseTokenizer._idx_to_token (Mapping.base x)
    = Some (Flat (enum_tokens (Mapping.p_prefix p) labels)) ∧
  Mapping.direct_truthy x = Some (dict_of (map (λ v, (CStr v, v)) labels)).
Proof.
  intros Hp Hm Hx labels.
  assert (Mapping.direct_truthy (Mapping.init p) = None) as Hdt.
  { unfold configured in Hp. destruct (Mapping.p_ranges p); [done|].
    by destruct (Mapping.direct_truthy _). }
  unfold Mapping.build_vocab in Hx. rewrite Hm, Hdt in Hx. injection Hx as <-.
  unfold Mapping.prefix. simpl. rewrite init_cfg. split_and!; [done..|].
  unfold Mapping.direct_truthy. simpl. fold labels.
  destruct (dict_of _) as [|e d] eqn:E; [|done]. exfalso.
  assert (CStr (Mapping.default (Mapping.init p)) ∈
    (dict_of (map (λ v, (CStr v, v)) labels)).*1) as Hin.
  { apply dict_of_keys_elem. rewrite <-list_fmap_compose.
    apply (list_elem_of_fmap_2 CStr), dedupe_elem, elem_of_app. right. by left. }
  rewrite E in Hin. by apply elem_of_nil in Hin.
Qed.

(** a mapping step that learned its labels from a column loses them when
    saved: the restored step passes unknown values through as tokens that
    are not in its vocabulary. *)
Theorem mapping_fitted_state_lost `{!CudfLaws} p c0 x c v :
  configured p = false → Mapping._mode (Mapping.init p) = Mapping.Passthrough →
  Mapping.build_vocab (Some c0) (Mapping.init p) = Ok x →
  cells c = [CStr v] → v ∉ Mapping.column_labels (Mapping.init p) c0 →
  let y := from_state (get_state x) in
  ∃ r r', Mapping.tokenize c x = Ok r ∧ Mapping.tokenize c y = Ok r' ∧
    cells r = [CStr (token (Mapping.p_prefix p) (Mapping.p_default p))] ∧
    cells r' = [CStr (token (Mapping.p_prefix p) v)] ∧
    token (Mapping.p_prefix p) v ∉ tokens_of (Mapping.base y).
Proof.
  intros Hp Hm Hx Hc Hv y.
  destruct (passthrough_build p c0 x Hp Hm Hx) as (Hdt & Hmx & Hcx & Hix & Hdx).
  assert (Mapping.direct_truthy y = None ∧ Mapping._mode y = Mapping.Passthrough ∧
    Mapping.cfg y = p ∧
    BaseTokenizer._idx_to_token (Mapping.base y)
      = BaseTokenizer._idx_to_token (Mapping.base x)) as (Hy & Hmy & Hcy & Hiy).
  { unfold y, from_state, get_state, Mapping.direct_truthy. simpl. by rewrite Hcx, init_cfg. }
  assert (as_key (col_is_object c) (CStr v) = CStr v) as Hk by by destruct (col_is_object c).
  exists (Mapping._tokenize_direct c x), (Mapping._tokenize_direct c y).
  unfold Mapping.tokenize. rewrite Hmx, Hmy, !direct_cells, Hc. unfold label_of.
  rewrite Hdx, Hy. unfold Mapping.prefix, Mapping.default. rewrite Hcx, Hcy.
  cbn [map]. rewrite Hk. split_and!; [done|done| |done|].
  - unfold direct_label. assert (dget _ (CStr v) = None) as ->; [|done].
    apply dget_None. rewrite dict_of_keys_elem, <-list_fmap_compose.
    intros (w & Hw & Hin)%list_elem_of_fmap. by injection Hw as <-.
  - unfold tokens_of. rewrite Hiy, Hix. intros Hin. by apply enum_tokens_inv in Hin.
Qed.
End state_facts.

(** ** The theorems at concrete columns, on the list instance *)
Section witnesses.
#[local] Existing Instance list_cudf.
#[local] Existing Instance list_cudf_laws.

Definition column (l : list cell) : @col list_cudf := l.

Definition hour_step : FixedVocab.t := FixedVocab.init {| FixedVocab.p_prefix := "HOUR";
  FixedVocab.p_min_val := 0; FixedVocab.p_max_val := 23; FixedVocab.p_pad_width := 2 |}.
Definition hash_step : CategoricalHash.t := CategoricalHash.init {|
  CategoricalHash.p_vocab_limit := 5; CategoricalHash.p_special_token := "MERCH" |}.
Definition delta_params : TimeDelta.params := {| TimeDelta.p_num_bins := 4;
  TimeDelta.p_special_token := "TDIF"; TimeDelta.p_max_years := 1 |}.
Definition cat_step : Mapping.t := Mapping.init {| Mapping.p_prefix := "CAT";
  Mapping.p_mapping := None; Mapping.p_values := None;
  Mapping.p_ranges := Some [(0, 9, "LOW"); (5, 19, "MID")]; Mapping.p_default := "ANY" |}.
Definition chip_step : Mapping.t := Mapping.init {| Mapping.p_prefix := "CHIP";
  Mapping.p_mapping := Some [(CStr "CHIP TRANSACTION", "CHIP")]; Mapping.p_values := None;
  Mapping.p_ranges := None; Mapping.p_default := "UNK" |}.
Definition learn_params : Mapping.params := {| Mapping.p_prefix := "CITY";
  Mapping.p_mapping := None; Mapping.p_values := None; Mapping.p_ranges := None;
  Mapping.p_default := "UNK" |}.

Lemma fixed_tokenize_spec_witness :
  cells (column [CInt 7; CInt 99]) = map CInt [7; 99] ∧
  ∃ r, FixedVocab.tokenize (column [CInt 7; CInt 99]) (FixedVocab.build_vocab hour_step) = Ok r ∧
    r = column [CStr "HOUR_07"; CStr "HOUR_23"].
Proof.
  split; [done|].
  destruct (fixed_tokenize_spec hour_step (column [CInt 7; CInt 99]) [7; 99]) as (r & Hr & Hc & _);
    [done|done|by repeat constructor|].
  exists r. split; [exact Hr|exact Hc].
Defined.

Lemma hash_tokenize_spec_witness :
  ∃ r, CategoricalHash.tokenize (column [CInt 7; CInt (-1)]) (CategoricalHash.build_vocab hash_step)
    = Ok r ∧ r = column [CStr "MERCH_2"; CStr "MERCH_4"].
Proof.
  destruct (hash_tokenize_spec hash_step (column [CInt 7; CInt (-1)]) [7; -1]) as (r & Hr & Hc & _);
    [done|done|].
  exists r. split; [exact Hr|exact Hc].
Defined.

Lemma timedelta_tokenize_spec_witness :
  ∃ r (ids : list Z), TimeDelta.tokenize (column [CInt 0; CInt 90]) (TimeDelta.build_vocab (TimeDelta.init delta_params))
    = Ok r ∧ length ids = 2%nat ∧ CStr "TDIF_0" ∉ cells r.
Proof.
  destruct (timedelta_tokenize_spec delta_params (column [CInt 0; CInt 90]) [0; 90])
    as (r & ids & Hr & _ & Hl & _ & Hn & _); [done..|].
  exists r, ids. by split_and!.
Defined.

Lemma mapping_range_spec_witness :
  ∃ y res, Mapping.build_vocab None cat_step = Ok y ∧
    Mapping.tokenize (column [CInt 3; CInt 7; CInt 40]) y = Ok res ∧
    res = column [CStr "CAT_LOW"; CStr "CAT_MID"; CStr "CAT_ANY"].
Proof.
  destruct (mapping_range_spec cat_step [(0, 9, "LOW"); (5, 19, "MID")]
    (column [CInt 3; CInt 7; CInt 40]) [3; 7; 40]) as (y & res & Hy & Hres & Hc & _); [done..|].
  exists y, res. split; [exact Hy|]. split; [exact Hres|exact Hc].
Defined.

Lemma mapping_direct_spec_witness :
  ∃ y res, Mapping.build_vocab None chip_step = Ok y ∧
    Mapping.tokenize (column [CStr "CHIP TRANSACTION"; CNull]) y = Ok res ∧
    res = column [CStr "CHIP_CHIP"; CStr "CHIP_UNK"].
Proof.
  destruct (mapping_direct_spec chip_step [(CStr "CHIP TRANSACTION", "CHIP")]
    (column [CStr "CHIP TRANSACTION"; CNull]) None) as (y & res & Hy & Hres & Hc & _); [done..|].
  exists y, res. split; [exact Hy|]. split; [exact Hres|exact Hc].
Defined.

Lemma state_roundtrip_witness :
  restores (FixedVocab.build_vocab hour_step) ∧
  ∃ x, Mapping.build_vocab None chip_step = Ok x ∧ restores x.
Proof.
  split; [apply (proj1 (state_roundtrip None))|].
  eexists. split; [reflexivity|].
  apply (proj2 (proj2 (proj2 (proj2 (state_roundtrip None)))) (Mapping.cfg chip_step));
    reflexivity.
Defined.

Lemma mapping_fitted_state_lost_witness :
  ∃ x r r', Mapping.build_vocab (Some (column [CStr "ROME"])) (Mapping.init learn_params) = Ok x ∧
    Mapping.tokenize (column [CStr "OSLO"]) x = Ok r ∧ r = column [CStr "CITY_UNK"] ∧
    Mapping.tokenize (column [CStr "OSLO"]) (from_state (get_state x)) = Ok r' ∧
    r' = column [CStr "CITY_OSLO"].
Proof.
  eexists. 
  destruct (mapping_fitted_state_lost learn_params (column [CStr "ROME"]) _ (column [CStr "OSLO"]) "OSLO"
    eq_refl eq_refl eq_refl eq_refl) as (r & r' & Hr & Hr' & Hc & Hc' & _).
  { apply (bool_decide_eq_true_1 _). vm_compute. reflexivity. }
  exists r, r'. split; [reflexivity|]. by split_and!.
Defined.
End witnesses.
