(* ===== verification/Pipeline.v ===== *)
(** * [tokenizer/pipeline.py]: the tokenizer pipeline

    [TokenizerPipeline] keeps an ordered set of tokenizer steps, gives each a
    range of global ids, builds the global vocabulary, transforms data frames
    into token columns and encodes them into padded id rows.  The pipeline is
    parametric in its step type: it is written and proved against the
    [Tokenizer] interface of BaseTok.v only. *)
From S2P Require Import Prelude PyDict PyStr Cudf BaseTok.
Open Scope string_scope.
Open Scope list_scope.
Open Scope Z_scope.

Definition SPECIAL_TOKENS : dict string string :=
  [("PAD", "<pad>"); ("BOS", "<bos>"); ("EOS", "<eos>"); ("SEP", "<sep>");
   ("UNK", "<unk>")].

(** [column_name: Union[list, str]] *)
Inductive column_key : Type :=
  | OneCol (c : string)
  | ManyCols (cs : list string).

Module TokenizerPipeline.
Section pipeline.
Context `{Cudf} {T : Type} `{!Tokenizer T}.

Record t : Type := {
  steps : dict string T;
  vocab_sizes : dict string Z;
  vocab_offset : dict string Z;
  column_specs : dict string (list string);
  tokenizer_order : list string;
  stream_threshold : Z;
  special_tokens : dict string string;
  special_token_ids : dict string Z;
  num_special_tokens : Z;
  global_vocab_size : Z;
  use_streams : bool;
  is_fitted : bool;
  _vocab : option (dict string Z);
  _id_to_token : option (dict Z string)
}.

(** [__init__]; a missing or empty [special_tokens] selects the default. *)
Definition init (special : option (dict string string)) (streams : bool)
    (threshold : Z) : t :=
  let sp := match special with Some (e :: d) => e :: d | _ => SPECIAL_TOKENS end in {|
    steps := []; vocab_sizes := []; vocab_offset := []; column_specs := [];
    tokenizer_order := []; stream_threshold := threshold;
    special_tokens := sp;
    special_token_ids := dict_of (imap (λ i tok, (tok, Z.of_nat i)) sp.*2);
    num_special_tokens := Z.of_nat (length sp);
    global_vocab_size := Z.of_nat (length sp);
    use_streams := streams; is_fitted := false;
    _vocab := None; _id_to_token := None |}.

(** ** Construction *)

Definition _normalize_key (k : column_key) : list string :=
  match k with OneCol c => [c] | ManyCols cs => cs end.

Definition add_step (k : column_key) (tok : T) (p : t) : t :=
  let cols := _normalize_key k in
  let tok_id := py_join "_" cols in {|
    steps := dset (steps p) tok_id tok;
    vocab_sizes := vocab_sizes p; vocab_offset := vocab_offset p;
    column_specs := dset (column_specs p) tok_id cols;
    tokenizer_order := tokenizer_order p ++ [tok_id];
    stream_threshold := stream_threshold p; special_tokens := special_tokens p;
    special_token_ids := special_token_ids p;
    num_special_tokens := num_special_tokens p;
    global_vocab_size := global_vocab_size p; use_streams := use_streams p;
    is_fitted := is_fitted p; _vocab := _vocab p; _id_to_token := _id_to_token p |}.

(** ** Field updates of the fit methods *)

Definition set_steps (s : dict string T) (p : t) : t := {|
  steps := s; vocab_sizes := vocab_sizes p; vocab_offset := vocab_offset p;
  column_specs := column_specs p; tokenizer_order := tokenizer_order p;
  stream_threshold := stream_threshold p; special_tokens := special_tokens p;
  special_token_ids := special_token_ids p; num_special_tokens := num_special_tokens p;
  global_vocab_size := global_vocab_size p; use_streams := use_streams p;
  is_fitted := is_fitted p; _vocab := _vocab p; _id_to_token := _id_to_token p |}.

Definition set_sizes (vs vo : dict string Z) (p : t) : t := {|
  steps := steps p; vocab_sizes := vs; vocab_offset := vo;
  column_specs := column_specs p; tokenizer_order := tokenizer_order p;
  stream_threshold := stream_threshold p; special_tokens := special_tokens p;
  special_token_ids := special_token_ids p; num_special_tokens := num_special_tokens p;
  global_vocab_size := global_vocab_size p; use_streams := use_streams p;
  is_fitted := is_fitted p; _vocab := _vocab p; _id_to_token := _id_to_token p |}.

Definition set_global (size : Z) (fitted : bool) (v : option (dict string Z))
    (iv : option (dict Z string)) (p : t) : t := {|
  steps := steps p; vocab_sizes := vocab_sizes p; vocab_offset := vocab_offset p;
  column_specs := column_specs p; tokenizer_order := tokenizer_order p;
  stream_threshold := stream_threshold p; special_tokens := special_tokens p;
  special_token_ids := special_token_ids p; num_special_tokens := num_special_tokens p;
  global_vocab_size := size; use_streams := use_streams p;
  is_fitted := fitted; _vocab := v; _id_to_token := iv |}.

(** ** Fit *)

(** [df[columns] if len(columns) > 1 else df[columns[0]]] *)
Definition select_columns (d : df) (columns : list string) : result col :=
  match columns with
  | [] => Raise IndexError
  | [c] => df_col d c
  | cs => df_cols d cs
  end.

(** The column lookup at the head of both fit loops: the columns of a step
    must all be present. *)
Definition step_columns (d : df) (p : t) (tok_id : string) : result col :=
  columns ← or_raise KeyError (dget (column_specs p) tok_id);
  if forallb (λ c, bool_decide (c ∈ df_columns d)) columns
  then select_columns d columns else Raise ValueError.

(** The tail of the fit loops: record the size of the step and give it, or
    each of its sub-vocabularies, the next offset. *)
Definition next_offsets (tok_id : string) (b : BaseTokenizer.t)
    (vo : dict string Z) (offset : Z) : dict string Z * Z :=
  match BaseTokenizer._idx_to_token b with
  | Some (Nested (e :: d)) =>
      foldl (λ st sub,
          (dset st.1 (tok_id +:+ "." +:+ sub.1) st.2, st.2 + Z.of_nat (length sub.2)))
        (vo, offset) (e :: d)
  | _ => (dset vo tok_id offset, offset + BaseTokenizer.vocab_size b)
  end.

Definition assign_offsets (p : t) (tok_id : string) (b : BaseTokenizer.t)
    (offset : Z) : t * Z :=
  let st := next_offsets tok_id b (vocab_offset p) offset in
  (set_sizes (dset (vocab_sizes p) tok_id (BaseTokenizer.vocab_size b)) st.1 p, st.2).

(** One iteration of a fit loop, [cs] giving the column the step is built
    from (none for [FinancialTabularTokenizer]). *)
Definition fit_step_with (cs : t → string → result (option col)) (st : t * Z)
    (tok_id : string) : result (t * Z) :=
  let '(p, offset) := st in
  c ← cs p tok_id;
  tok ← or_raise KeyError (dget (steps p) tok_id);
  tok' ← tk_build_vocab c tok;
  Ok (assign_offsets (set_steps (dset (steps p) tok_id tok') p) tok_id
        (tk_base tok') offset).

Definition df_source (d : df) (p : t) (tok_id : string) : result (option col) :=
  Some <$> step_columns d p tok_id.

Definition fit_step (d : df) : t * Z → string → result (t * Z) :=
  fit_step_with (df_source d).

Definition _fit_sequential (d : df) (p : t) : result t :=
  st ← result_fold (fit_step d) (p, num_special_tokens p) (tokenizer_order p);
  Ok (set_global st.2 (is_fitted st.1) (_vocab st.1) (_id_to_token st.1) st.1).

(** First loop of [_fit_parallel]: build each step on its own CUDA stream
    and restore the step's stream attribute. *)
Definition build_on_stream (d : df) (p : t) (s_id : nat * string) : result t :=
  let '(s, tok_id) := s_id in
  c ← step_columns d p tok_id;
  tok ← or_raise KeyError (dget (steps p) tok_id);
  tok' ← tk_build_vocab (Some c) (tk_set_stream (Some s) tok);
  Ok (set_steps (dset (steps p) tok_id (tk_set_stream (tk_stream tok) tok')) p).

(** Its second loop: sizes and offsets. *)
Definition offset_step (st : t * Z) (tok_id : string) : result (t * Z) :=
  let '(p, offset) := st in
  tok ← or_raise KeyError (dget (steps p) tok_id);
  Ok (assign_offsets p tok_id (tk_base tok) offset).

Definition _fit_parallel (d : df) (p : t) : result t :=
  let streams := seq 0 (length (tokenizer_order p)) in
  p1 ← result_fold (build_on_stream d) p (zip streams (tokenizer_order p));
  st ← result_fold offset_step (p1, num_special_tokens p1) (tokenizer_order p1);
  Ok (set_global st.2 (is_fitted st.1) (_vocab st.1) (_id_to_token st.1) st.1).

(** ** The global vocabulary *)

(** [vocab[tok] = gid; id_to_token[gid] = tok] *)
Definition add_entry (st : dict string Z * dict Z string) (e : string * Z) :
    dict string Z * dict Z string :=
  (dset st.1 e.1 e.2, dset st.2 e.2 e.1).

(** The (token, global id) pairs a step contributes, in order. *)
Definition step_entries (p : t) (tok_id : string) : result (list (string * Z)) :=
  tok ← or_raise KeyError (dget (steps p) tok_id);
  Ok (match BaseTokenizer._idx_to_token (tk_base tok) with
      | None => []
      | Some (Nested d) =>
          concat (map (λ sub,
            let off := default 0 (dget (vocab_offset p) (tok_id +:+ "." +:+ sub.1)) in
            map (λ kv, (kv.2, kv.1 + off)) sub.2) d)
      | Some (Flat d) =>
          let off := default 0 (dget (vocab_offset p) tok_id) in
          map (λ kv, (kv.2, kv.1 + off)) d
      end).

Definition _build_global_vocab (p : t) : result t :=
  entries ← result_map (step_entries p) (tokenizer_order p);
  let '(v, iv) := foldl add_entry ([], []) (special_token_ids p ++ concat entries) in
  Ok (set_global (global_vocab_size p) (is_fitted p) (Some v) (Some iv) p).

Definition vocab (p : t) : dict string Z := default [] (_vocab p).
Definition id_to_token (p : t) : dict Z string := default [] (_id_to_token p).

(** [use_streams and len(steps) >= stream_threshold] *)
Definition uses_streams (p : t) : bool :=
  use_streams p && (stream_threshold p <=? Z.of_nat (length (steps p))).

Definition fit (d : df) (p : t) : result t :=
  p1 ← (if uses_streams p then _fit_parallel d p else _fit_sequential d p);
  p2 ← _build_global_vocab p1;
  Ok (set_global (global_vocab_size p2) true (_vocab p2) (_id_to_token p2) p2).

(** ** Transform *)

Definition transform_step (d : df) (p : t) (res : dict string col)
    (tok_id : string) : result (dict string col) :=
  columns ← or_raise KeyError (dget (column_specs p) tok_id);
  c ← select_columns d columns;
  tok ← or_raise KeyError (dget (steps p) tok_id);
  r ← tk_tokenize c tok;
  Ok (dset res tok_id r).

(** The streamed variant sets the stream attribute around the call and
    restores it, so the steps are unchanged afterwards. *)
Definition transform_step_stream (d : df) (p : t) (res : dict string col)
    (s_id : nat * string) : result (dict string col) :=
  let '(s, tok_id) := s_id in
  columns ← or_raise KeyError (dget (column_specs p) tok_id);
  c ← select_columns d columns;
  tok ← or_raise KeyError (dget (steps p) tok_id);
  r ← tk_tokenize c (tk_set_stream (Some s) tok);
  Ok (dset res tok_id r).

Definition transform (d : df) (p : t) : result df :=
  if is_fitted p then
    res ← (if uses_streams p
           then result_fold (transform_step_stream d p) []
                  (zip (seq 0 (length (tokenizer_order p))) (tokenizer_order p))
           else result_fold (transform_step d p) [] (tokenizer_order p));
    Ok (df_concat (map (λ kv,
          if col_is_series kv.2 then col_named kv.1 kv.2 else col_as_df kv.2) res))
  else Raise ValueError.

Definition fit_transform (d : df) (p : t) : result (df * t) :=
  p' ← fit d p;
  r ← transform d p';
  Ok (r, p').

(** ** Encode *)

Definition encode_column (p : t) (d : df) (unk max_length : Z)
    (st : mat * Z) (c : string) : result (mat * Z) :=
  let '(padded, off) := st in
  if max_length <=? off then Ok st                      (* break *)
  else
    s ← df_col d c;
    v ← or_raise TypeError (_vocab p);
    padded' ← np_set_col off (col_ids v unk s) padded;
    Ok (padded', off + 1).

Definition encode (p : t) (d : df) (max_length : Z) (add_special : bool) :
    result mat :=
  pad ← or_raise KeyError (dget (special_token_ids p) "<pad>");
  bos ← or_raise KeyError (dget (special_token_ids p) "<bos>");
  eos ← or_raise KeyError (dget (special_token_ids p) "<eos>");
  unk ← or_raise KeyError (dget (special_token_ids p) "<unk>");
  padded ← np_full2 (df_len d) max_length pad;
  st ← (if add_special then a ← np_fill_col 0 bos padded; Ok (a, 1) else Ok (padded, 0));
  st ← result_fold (encode_column p d unk max_length) st (df_columns d);
  if add_special && (st.2 <? max_length) then np_fill_col st.2 eos st.1 else Ok st.1.
End pipeline.
Arguments t : clear implicits.
End TokenizerPipeline.
