(* ===== verification/PipelineFacts.v ===== *)
(** * Theorems on the tokenizer pipeline

    The two fit loops agree; offsets lay the steps out consecutively; the
    global vocabulary is a bijection when every step is dense and no token is
    shared; [encode] produces the padded rows its comment describes. *)
From S2P Require Import Prelude PyDict PyStr Cudf BaseTok Pipeline.
Open Scope string_scope.
Open Scope list_scope.
Open Scope Z_scope.
Import TokenizerPipeline.

(** ** Sequential and parallel fit *)

(** Building, then laying out: common to the fit loops and to
    [FinancialTabularTokenizer]. *)
Section build.
Context `{Cudf} {T : Type} `{!Tokenizer T}.
Implicit Types (p q : t T) (d : df) (l : list string).

#[local] Arguments fit_step_with : simpl never.
#[local] Arguments offset_step : simpl never.

(** The column source reads the column specifications only. *)
Variable cs : t T → string → result (option col).
Hypothesis cs_specs : ∀ p q x, column_specs p = column_specs q → cs p x = cs q x.

(** Building one step in place, without streams. *)
Definition build_one (p : t T) (tok_id : string) : result (t T) :=
  c ← cs p tok_id;
  tok ← or_raise KeyError (dget (steps p) tok_id);
  tok' ← tk_build_vocab c tok;
  Ok (set_steps (dset (steps p) tok_id tok') p).
#[local] Arguments build_one : simpl never.

Lemma build_one_sizes vs vo p x :
  build_one (set_sizes vs vo p) x = set_sizes vs vo <$> build_one p x.
Proof using cs_specs.
  unfold build_one. rewrite (cs_specs (set_sizes vs vo p) p) by done.
  destruct (cs p x); [|done]. simpl.
  destruct (dget (steps p) x); [|done]. simpl.
  by destruct (tk_build_vocab _ _).
Qed.

Lemma build_all_sizes vs vo p l :
  result_fold build_one (set_sizes vs vo p) l
  = set_sizes vs vo <$> result_fold build_one p l.
Proof using cs_specs.
  revert p. induction l as [|x l IH]; intros p; [done|]. simpl.
  rewrite build_one_sizes. destruct (build_one p x); [apply IH|done].
Qed.

Lemma build_one_frame p x q : build_one p x = Ok q →
  vocab_sizes q = vocab_sizes p ∧ vocab_offset q = vocab_offset p ∧
  tokenizer_order q = tokenizer_order p ∧ num_special_tokens q = num_special_tokens p ∧
  special_token_ids q = special_token_ids p ∧
  ∀ y, y ≠ x → dget (steps q) y = dget (steps p) y.
Proof using Type. clear cs_specs.
  unfold build_one. intros Hq. inv_ok. simpl.
  split_and!; [done..|]. intros y Hy. by apply dget_dset_ne.
Qed.

Lemma build_all_frame p l q : result_fold build_one p l = Ok q →
  vocab_sizes q = vocab_sizes p ∧ vocab_offset q = vocab_offset p ∧
  tokenizer_order q = tokenizer_order p ∧ num_special_tokens q = num_special_tokens p ∧
  special_token_ids q = special_token_ids p ∧
  ∀ y, y ∉ l → dget (steps q) y = dget (steps p) y.
Proof using Type. clear cs_specs.
  revert p. induction l as [|x l IH]; intros p; simpl; [by intros [= ->]|].
  intros Hq. inv_ok. apply build_one_frame in Hr as (H1 & H2 & H3 & H4 & H5 & H6).
  apply IH in Hq as (-> & -> & -> & -> & -> & H7). split_and!; [done..|].
  intros y Hy. rewrite H7, H6 by set_solver. done.
Qed.

Lemma assign_offsets_set_sizes p x b off :
  assign_offsets p x b off =
    (set_sizes (dset (vocab_sizes p) x (BaseTokenizer.vocab_size b))
       (next_offsets x b (vocab_offset p) off).1 p,
     (next_offsets x b (vocab_offset p) off).2).
Proof using Type. done. Qed.

(** Sequential fitting is building every step, then laying out offsets. *)
Lemma fit_fold_split p off l : NoDup l →
  result_fold (fit_step_with cs) (p, off) l =
  p1 ← result_fold build_one p l; result_fold offset_step (p1, off) l.
Proof using cs_specs.
  revert p off. induction l as [|x l IH]; intros p off Hl; [done|].
  apply NoDup_cons in Hl as [Hx Hl]. simpl.
  unfold_app (fit_step_with cs (p, off) x). unfold_app (build_one p x).
  destruct (cs p x) as [c|]; [|done]. simpl.
  destruct (or_raise KeyError (dget (steps p) x)) as [tok|]; [|done]. simpl.
  destruct (tk_build_vocab c tok) as [tok'|]; [|done]. simpl.
  rewrite assign_offsets_set_sizes, IH by done.
  simpl. rewrite build_all_sizes.
  set (p' := set_steps (dset (steps p) x tok') p).
  destruct (result_fold build_one p' l) as [q|] eqn:Hq; [|done]. simpl.
  apply build_all_frame in Hq as (Hvs & Hvo & _ & _ & _ & Hs).
  unfold_app (offset_step (q, off) x). rewrite Hs by done.
  unfold p'. simpl. rewrite dget_dset_eq. simpl.
  by rewrite assign_offsets_set_sizes, Hvs, Hvo.
Qed.

End build.

Section fit.
Context `{Cudf} {T : Type} `{!Tokenizer T} `{!TokenizerLaws T}.
Implicit Types (p q : t T) (d : df) (l : list string).

#[local] Arguments build_on_stream : simpl never.
#[local] Arguments build_one : simpl never.

Lemma df_source_specs d p q x :
  column_specs p = column_specs q → df_source d p x = df_source d q x.
Proof. unfold df_source, step_columns. by intros ->. Qed.

Lemma build_on_stream_eq d p s tok_id :
  build_on_stream d p (s, tok_id) = build_one (df_source d) p tok_id.
Proof.
  unfold build_on_stream, build_one, df_source.
  destruct (step_columns d p tok_id) as [c|]; [|done]. simpl.
  destruct (or_raise KeyError (dget (steps p) tok_id)) as [tok|]; [|done]. simpl.
  rewrite tk_build_stream.
  destruct (tk_build_vocab (Some c) tok) as [tok'|] eqn:E; [|done]. simpl.
  by rewrite tk_set_set, <-(tk_build_keeps_stream _ _ _ E), tk_set_stream_id.
Qed.

Lemma build_streams_eq d p l n :
  result_fold (build_on_stream d) p (zip (seq n (length l)) l)
  = result_fold (build_one (df_source d)) p l.
Proof.
  revert p n. induction l as [|x l IH]; intros p n; [done|]. simpl.
  rewrite build_on_stream_eq.
  destruct (build_one (df_source d) p x); [apply IH|done].
Qed.

Lemma fit_parallel_eq d p :
  NoDup (tokenizer_order p) → _fit_parallel d p = _fit_sequential d p.
Proof.
  intros Hnd. unfold _fit_parallel, _fit_sequential.
  unfold fit_step.
  rewrite build_streams_eq, (fit_fold_split _ (df_source_specs d)) by done.
  destruct (result_fold (build_one (df_source d)) p (tokenizer_order p))
    as [q|] eqn:Hq; [|done].
  apply build_all_frame in Hq as (_ & _ & Ho & Hn & _). simpl. by rewrite Ho, Hn.
Qed.

(** What a successful [fit] went through: every step built, then the
    offsets, then the global vocabulary. *)
Lemma fit_inv d p p' : NoDup (tokenizer_order p) → fit d p = Ok p' →
  ∃ p1 st p2,
    tokenizer_order p1 = tokenizer_order p ∧
    special_token_ids p1 = special_token_ids p ∧
    result_fold offset_step (p1, num_special_tokens p) (tokenizer_order p1) = Ok st ∧
    _build_global_vocab (set_global st.2 (is_fitted st.1) (_vocab st.1)
      (_id_to_token st.1) st.1) = Ok p2 ∧
    p' = set_global (global_vocab_size p2) true (_vocab p2) (_id_to_token p2) p2.
Proof.
  intros Hnd Hfit. unfold fit in Hfit. rewrite fit_parallel_eq in Hfit by done.
  apply bind_ok in Hfit as (q & Hq & Hg).
  assert (_fit_sequential d p = Ok q) as Hs by by destruct (uses_streams p).
  unfold _fit_sequential, fit_step in Hs.
  rewrite (fit_fold_split _ (df_source_specs d)) in Hs by done.
  apply bind_ok in Hs as (st & Hst & [= <-]).
  apply bind_ok in Hst as (p1 & Hp1 & Hst).
  apply bind_ok in Hg as (p2 & Hg & [= <-]).
  apply build_all_frame in Hp1 as (_ & _ & Ho & _ & Hs & _).
  exists p1, st, p2. by rewrite Ho.
Qed.
End fit.

(** ** Offsets and the global vocabulary *)
Section layout.
Context `{Cudf} {T : Type} `{!Tokenizer T}.
Implicit Types (p q : t T) (l : list string) (toks : list T).

(** A step without sub-vocabularies. *)
Definition flat_step (tok : T) : Prop :=
  match BaseTokenizer._idx_to_token (tk_base tok) with
  | Some (Nested (_ :: _)) => False | _ => True end.

(** A step whose local ids are [0 .. n-1], in order. *)
Definition dense_step (tok : T) : Prop :=
  match BaseTokenizer._idx_to_token (tk_base tok) with
  | Some (Flat d) => d.*1 = seqZ 0 (Z.of_nat (length d))
  | _ => False end.

Definition step_size (tok : T) : Z := BaseTokenizer.vocab_size (tk_base tok).

(** The token strings of a flat step, in the order of its local ids. *)
Definition step_tokens (tok : T) : list string :=
  match BaseTokenizer._idx_to_token (tk_base tok) with
  | Some (Flat d) => d.*2 | _ => [] end.

(** [toks] are the steps of [p] in the order [l]. *)
Definition steps_are (p : t T) (l : list string) (toks : list T) : Prop :=
  Forall2 (λ x tok, dget (steps p) x = Some tok) l toks.

Lemma dense_flat tok : dense_step tok → flat_step tok.
Proof. unfold dense_step, flat_step. by destruct (BaseTokenizer._idx_to_token _) as [[]|]. Qed.

Lemma step_size_nonneg tok : 0 ≤ step_size tok.
Proof. apply vocab_size_nonneg. Qed.

Lemma next_offsets_flat x tok vo off : flat_step tok →
  next_offsets x (tk_base tok) vo off = (dset vo x off, off + step_size tok).
Proof.
  unfold flat_step, next_offsets, step_size.
  by destruct (BaseTokenizer._idx_to_token _) as [[|[]]|].
Qed.

(** The offset loop gives step [i] the sum of the sizes before it. *)
Lemma offset_fold_flat p off l toks :
  steps_are p l toks → Forall flat_step toks →
  ∃ q, result_fold offset_step (p, off) l = Ok (q, off + sumZ (map step_size toks)) ∧
    steps q = steps p ∧ tokenizer_order q = tokenizer_order p ∧
    special_token_ids q = special_token_ids p ∧
    vocab_offset q =
      dupdate (vocab_offset p) (zip l (prefix_sums off (map step_size toks))).
Proof.
  revert toks p off.
  induction l as [|x l IH]; intros toks p off Hl Hf.
  { apply Forall2_nil_inv_l in Hl as ->. exists p. simpl.
    by rewrite Z.add_0_r. }
  apply Forall2_cons_inv_l in Hl as (tok & toks' & Hx & Hl & ->).
  apply Forall_cons in Hf as [Hf Hfs]. simpl.
  rewrite Hx. simpl. rewrite assign_offsets_set_sizes, next_offsets_flat by done. simpl.
  edestruct (IH toks' (set_sizes (dset (vocab_sizes p) x (BaseTokenizer.vocab_size (tk_base tok)))
    (dset (vocab_offset p) x off) p)) as (q & Hq & Hst & Ho & Hsp & Hvo); [exact Hl|exact Hfs|].
  exists q. rewrite Hq, Hst, Ho, Hsp, Hvo. split; [|done].
  by rewrite Z.add_assoc.
Qed.

Lemma offset_step_frame st x st' : offset_step st x = Ok st' →
  steps st'.1 = steps st.1 ∧ tokenizer_order st'.1 = tokenizer_order st.1 ∧
  special_token_ids st'.1 = special_token_ids st.1.
Proof. destruct st. simpl. intros Hst. by inv_ok. Qed.

Lemma offset_fold_frame st l st' : result_fold offset_step st l = Ok st' →
  steps st'.1 = steps st.1 ∧ tokenizer_order st'.1 = tokenizer_order st.1 ∧
  special_token_ids st'.1 = special_token_ids st.1.
Proof.
  intros Hst. eapply (result_fold_inv (λ s, steps s.1 = steps st.1 ∧
    tokenizer_order s.1 = tokenizer_order st.1 ∧
    special_token_ids s.1 = special_token_ids st.1)); [|done|exact Hst].
  intros s x s' _ (<- & <- & <-). apply offset_step_frame.
Qed.

Lemma zip_offset_lookup (vo : dict string Z) l offs x i off :
  NoDup l → l !! i = Some x → offs !! i = Some off →
  dget (dupdate vo (zip l offs)) x = Some off.
Proof.
  intros Hnd Hx Ho. rewrite dget_dupdate.
  assert ((zip l offs).*1 `prefix_of` l) as [k Hk].
  { clear. revert offs. induction l as [|y l IH]; intros [|o offs]; simpl;
      [by exists []|by exists []|by exists (y :: l)|].
    destruct (IH offs) as [k Hk]. exists k. simpl. f_equal. exact Hk. }
  assert (dget (reverse (zip l offs)) x = Some off) as ->; [|done].
  apply dget_wf_elem.
  - simpl. rewrite fmap_reverse, reverse_Permutation.
    rewrite Hk in Hnd. by apply NoDup_app in Hnd as (? & _).
  - rewrite elem_of_reverse. apply list_elem_of_lookup. exists i.
    apply lookup_zip_with_Some. by exists x, off.
Qed.

Lemma foldl_add_entry a b (l : list (string * Z)) :
  foldl add_entry (a, b) l = (dupdate a l, dupdate b (map (λ e, (e.2, e.1)) l)).
Proof. revert a b. induction l as [|e l IH]; intros a b; [done|]. apply IH. Qed.

(** [_build_global_vocab] stores the entries of the special tokens and of
    every step, in order; the last writer of a key wins. *)
Lemma build_global_vocab_ok p entries :
  result_map (step_entries p) (tokenizer_order p) = Ok entries →
  let l := special_token_ids p ++ concat entries in
  _build_global_vocab p = Ok (set_global (global_vocab_size p) (is_fitted p)
    (Some (dict_of l)) (Some (dict_of (map (λ e, (e.2, e.1)) l))) p).
Proof.
  intros He. simpl. unfold _build_global_vocab. rewrite He. simpl.
  by rewrite foldl_add_entry.
Qed.

Lemma step_entries_dense p x tok off :
  dget (steps p) x = Some tok → dense_step tok → dget (vocab_offset p) x = Some off →
  ∃ es, step_entries p x = Ok es ∧ es.*1 = step_tokens tok ∧
    es.*2 = seqZ off (step_size tok).
Proof.
  intros Hx Hd Ho. unfold step_entries, dense_step, step_tokens, step_size,
    BaseTokenizer.vocab_size in *. rewrite Hx. simpl.
  destruct (BaseTokenizer._idx_to_token (tk_base tok)) as [[d|]|]; [|done..].
  rewrite Ho. simpl. eexists. split; [done|].
  rewrite <-!list_fmap_compose. split; [done|].
  rewrite <-(Z.add_0_l off), <-seqZ_shift, <-Hd, <-list_fmap_compose. done.
Qed.

(** With dense steps, the entries of all steps carry consecutive ids. *)
Lemma all_entries_dense p l toks offs :
  steps_are p l toks → Forall dense_step toks →
  Forall2 (λ x off, dget (vocab_offset p) x = Some off) l offs →
  ∃ entries, result_map (step_entries p) l = Ok entries ∧
    (concat entries).*1 = concat (map step_tokens toks) ∧
    (concat entries).*2 = concat (zip_with seqZ offs (map step_size toks)).
Proof.
  intros Hl. revert offs. induction Hl as [|x tok l toks Hx Hl IH]; intros offs Hd Ho.
  { apply Forall2_nil_inv_l in Ho as ->. by exists []. }
  apply Forall_cons in Hd as [Hd Hds].
  apply Forall2_cons_inv_l in Ho as (off & offs' & Hox & Ho & ->).
  destruct (step_entries_dense p x tok off) as (es & Hes & H1 & H2); [done..|].
  destruct (IH offs') as (entries & Hes' & H3 & H4); [done..|].
  exists (es :: entries). simpl. rewrite Hes. simpl. rewrite Hes'. simpl.
  by rewrite !fmap_app, H1, H2, H3, H4.
Qed.
(** The entries of a step without sub-vocabularies, from its offset on. *)
Definition entries_at (off : Z) (tok : T) : list (string * Z) :=
  match BaseTokenizer._idx_to_token (tk_base tok) with
  | Some (Flat d) => map (λ kv, (kv.2, kv.1 + off)) d
  | _ => [] end.

Lemma all_entries_flat p l toks offs :
  steps_are p l toks → Forall flat_step toks →
  Forall2 (λ x off, dget (vocab_offset p) x = Some off) l offs →
  result_map (step_entries p) l = Ok (zip_with entries_at offs toks).
Proof.
  intros Hl. revert offs. induction Hl as [|x tok l toks Hx Hl IH]; intros offs Hf Ho.
  { by apply Forall2_nil_inv_l in Ho as ->. }
  apply Forall_cons in Hf as [Hf Hfs].
  apply Forall2_cons_inv_l in Ho as (off & offs' & Hox & Ho & ->).
  simpl. rewrite (IH offs') by done. unfold_app (step_entries p x). rewrite Hx. simpl.
  unfold entries_at, flat_step in *.
  destruct (BaseTokenizer._idx_to_token (tk_base tok)) as [[d|[|]]|]; simpl; [|done..].
  by rewrite Hox.
Qed.

(** The offsets the layout loop leaves are the running sums of the sizes. *)
Lemma layout_offsets (vo : dict string Z) l off toks :
  NoDup l → length l = length toks →
  let offs := prefix_sums off (map step_size toks) in
  Forall2 (λ x o, dget (dupdate vo (zip l offs)) x = Some o) l offs.
Proof.
  intros Hnd Hlen offs. apply Forall2_same_length_lookup_2.
  { unfold offs. by rewrite length_prefix_sums, length_map. }
  intros i x o Hx Hi. by eapply zip_offset_lookup.
Qed.
End layout.

(** Fitting without data, as [FinancialTabularTokenizer] does: every step is
    built, laid out and entered into the vocabulary. *)
Section without_data.
Context `{Cudf} {T : Type} `{!Tokenizer T}.
Implicit Types (p q : t T) (l : list string) (toks : list T).

Definition no_data (p : t T) (tok_id : string) : result (option col) := Ok None.

Lemma steps_are_ext p q l toks :
  steps_are p l toks → (∀ y, y ∈ l → dget (steps q) y = dget (steps p) y) →
  steps_are q l toks.
Proof.
  induction 1 as [|x tok l toks Hx Hl IH]; intros Hf; constructor.
  - rewrite Hf; [done|set_solver].
  - apply IH. intros y Hy. apply Hf. set_solver.
Qed.

Lemma build_all_steps p l toks toks' :
  NoDup l → steps_are p l toks →
  Forall2 (λ tok tok', tk_build_vocab None tok = Ok tok') toks toks' →
  ∃ q, result_fold (build_one no_data) p l = Ok q ∧ steps_are q l toks'.
Proof.
  intros Hnd Hl. revert p toks Hl toks'.
  induction l as [|x l IH]; intros p toks Hl toks' Hb.
  { apply Forall2_nil_inv_l in Hl as ->. apply Forall2_nil_inv_l in Hb as ->.
    exists p. by split; [|constructor]. }
  apply NoDup_cons in Hnd as [Hx Hnd].
  apply Forall2_cons_inv_l in Hl as (tok & toks1 & Ht & Hl & ->).
  apply Forall2_cons_inv_l in Hb as (tok' & toks2 & Hb & Hbs & ->).
  set (p1 := set_steps (dset (steps p) x tok') p).
  assert (build_one no_data p x = Ok p1) as H1.
  { unfold build_one, no_data. simpl. rewrite Ht. simpl. by rewrite Hb. }
  simpl. rewrite H1. simpl.
  destruct (IH Hnd p1 toks1) with (toks' := toks2) as (q & Hq & Hqs); [|done|].
  { eapply steps_are_ext; [exact Hl|]. intros y Hy. apply dget_dset_ne. by intros ->. }
  exists q. split; [done|]. constructor; [|done].
  apply build_all_frame in Hq as (_ & _ & _ & _ & _ & Hf).
  rewrite Hf by done. apply dget_dset_eq.
Qed.

Lemma fit_without_data p toks toks' :
  NoDup (tokenizer_order p) → steps_are p (tokenizer_order p) toks →
  Forall2 (λ tok tok', tk_build_vocab None tok = Ok tok') toks toks' →
  Forall flat_step toks' →
  let offs := prefix_sums (num_special_tokens p) (map step_size toks') in
  let l := special_token_ids p ++ concat (zip_with entries_at offs toks') in
  ∃ q, (st ← result_fold (fit_step_with no_data) (p, num_special_tokens p)
               (tokenizer_order p);
        _build_global_vocab (set_global st.2 true (_vocab st.1)
          (_id_to_token st.1) st.1)) = Ok q ∧
    _vocab q = Some (dict_of l) ∧
    _id_to_token q = Some (dict_of (map (λ e, (e.2, e.1)) l)) ∧
    global_vocab_size q = num_special_tokens p + sumZ (map step_size toks').
Proof.
  intros Hnd Hs Hb Hf offs l. rewrite fit_fold_split by done.
  destruct (build_all_steps _ _ _ _ Hnd Hs Hb) as (p1 & Hp1 & Hs1).
  rewrite Hp1. simpl.
  apply build_all_frame in Hp1 as (_ & _ & Ho & Hn & Hsp & _).
  destruct (offset_fold_flat p1 (num_special_tokens p) (tokenizer_order p) toks')
    as (p2 & Hp2 & Hst & Ho2 & Hsp2 & Hvo); [done..|].
  rewrite Hp2. simpl. rewrite (build_global_vocab_ok _ (zip_with entries_at offs toks')).
  - eexists. split; [reflexivity|]. simpl. by rewrite Hsp2, Hsp.
  - simpl. rewrite Ho2, Ho. apply all_entries_flat; [|done|].
    + eapply steps_are_ext; [exact Hs1|]. simpl. intros. by rewrite Hst.
    + simpl. rewrite Hvo. apply layout_offsets; [done|by eapply Forall2_length].
Qed.
End without_data.

Section bijection.
Context `{Cudf} {T : Type} `{!Tokenizer T} `{!TokenizerLaws T}.

(** The special tokens of a pipeline are numbered from 0. *)
Definition specials_ok (p : t T) : Prop :=
  (special_token_ids p).*2 = seqZ 0 (num_special_tokens p) ∧ 0 ≤ num_special_tokens p.

(** The pipeline keeps its specials through [add_step]. *)
Lemma add_step_specials k tok (p : t T) : specials_ok p → specials_ok (add_step k tok p).
Proof. done. Qed.

Lemma init_specials streams thr : specials_ok (init (T := T) None streams thr).
Proof. by split. Qed.

(** The bijection, as a lemma on the fitted pipeline. *)
Lemma fit_bijection d p p' toks :
  fit d p = Ok p' → NoDup (tokenizer_order p) → specials_ok p →
  steps_are p' (tokenizer_order p') toks → Forall dense_step toks →
  NoDup ((special_token_ids p).*1 ++ concat (map step_tokens toks)) →
  global_vocab_size p' = num_special_tokens p + sumZ (map step_size toks) ∧
  (∀ tok g, dget (vocab p') tok = Some g ↔ dget (id_to_token p') g = Some tok) ∧
  (∀ g, g ∈ (id_to_token p').*1 ↔ 0 ≤ g < global_vocab_size p').
Proof.
  intros Hfit Hnd [Hsp Hn0] Hsteps Hdense Htok.
  destruct (fit_inv _ _ _ Hnd Hfit) as (p1 & st & p2 & Ho & Hs1 & Hoff & Hg & ->).
  destruct (offset_fold_frame _ _ _ Hoff) as (Hst & Hot & Hspt). simpl in *.
  assert (tokenizer_order p2 = tokenizer_order p ∧ steps p2 = steps p1) as [Ho2 Hs2].
  { unfold _build_global_vocab in Hg. apply bind_ok in Hg as (es & _ & Hg).
    rewrite foldl_add_entry in Hg. injection Hg as <-. simpl. by rewrite Hot, Hst. }
  assert (steps_are p1 (tokenizer_order p) toks) as Hst1.
  { unfold steps_are in *. simpl in Hsteps. by rewrite Ho2, Hs2 in Hsteps. }
  rewrite Ho in Hoff, Hot.
  destruct (offset_fold_flat p1 (num_special_tokens p) (tokenizer_order p) toks)
    as (q & Hq & Hqs & Hqo & Hqsp & Hvo); [done|by eapply Forall_impl, dense_flat|].
  rewrite Hoff in Hq. apply Ok_inj in Hq as ->. simpl in *.
  set (offs := prefix_sums (num_special_tokens p) (map step_size toks)) in *.
  match type of Hg with _build_global_vocab ?x = _ => set (P := x) in * end.
  assert (tokenizer_order P = tokenizer_order p) as HP by exact Hot.
  destruct (all_entries_dense P (tokenizer_order p) toks offs)
    as (es & Hes & H1 & H2); [|done|..].
  { unfold steps_are, P. simpl. by rewrite Hst. }
  { simpl. rewrite Hvo. apply layout_offsets; [done|by eapply Forall2_length]. }
  rewrite <-HP in Hes. pose proof (build_global_vocab_ok P es Hes) as Hb.
  cbv zeta in Hb. rewrite Hg in Hb. apply Ok_inj in Hb as ->. simpl.
  rewrite Hspt, Hs1. clear Hg Hes.
  assert (Forall (λ n, 0 ≤ n) (map step_size toks)) as Hns.
  { apply Forall_map, Forall_true, step_size_nonneg. }
  unfold offs in H2. rewrite seqZ_concat in H2 by done.
  split; [done|]. unfold vocab, id_to_token. simpl. apply dict_bijection.
  - by rewrite fmap_app, H1.
  - rewrite fmap_app, Hsp, H2, seqZ_app; [done|done|by apply sumZ_nonneg].
Qed.
End bijection.

(** ** Encoding *)

(** [pre] padded with [pad] to length [L], or cut there. *)
Definition fill_row (L : nat) (pad : Z) (pre : list Z) : list Z :=
  take L (pre ++ replicate L pad).

Lemma fill_row_lookup L pad pre i :
  fill_row L pad pre !! i =
    if decide (i < L)%nat then Some (default pad (pre !! i)) else None.
Proof.
  unfold fill_row. case_decide as Hi.
  - rewrite lookup_take_lt by done.
    destruct (pre !! i) as [x|] eqn:E; simpl.
    + by rewrite lookup_app_l by by eapply lookup_lt_Some.
    + apply lookup_ge_None in E. rewrite lookup_app_r by done.
      apply lookup_replicate. split; [done|lia].
  - apply lookup_take_ge. lia.
Qed.

Lemma fill_row_snoc L pad pre v : (length pre < L)%nat →
  <[length pre := v]> (fill_row L pad pre) = fill_row L pad (pre ++ [v]).
Proof.
  intros Hlen. apply list_eq. intros i. rewrite fill_row_lookup.
  destruct (decide (i = length pre)) as [->|Hi].
  - rewrite list_lookup_insert_eq.
    + rewrite decide_True by done. by rewrite list_lookup_middle.
    + unfold fill_row. rewrite length_take, length_app, length_replicate. lia.
  - rewrite list_lookup_insert_ne, fill_row_lookup by done. case_decide; [|done].
    f_equal. destruct (decide (i < length pre)%nat).
    + by rewrite lookup_app_l.
    + rewrite !lookup_ge_None_2; [done|..]; rewrite ?length_app; simpl; lia.
Qed.

Lemma fill_row_full L pad pre post : (L ≤ length pre)%nat →
  fill_row L pad (pre ++ post) = fill_row L pad pre.
Proof.
  intros Hlen. unfold fill_row. rewrite <-(assoc (++)), !take_app_le by done. done.
Qed.

(** Row [i] of a list of columns. *)
Definition col_row (cols : list (list Z)) (i : nat) : list Z :=
  map (λ c, default 0 (c !! i)) cols.

Lemma mat_set_rows j vs n (f : nat → list Z) :
  length vs = n →
  zip_with (λ v r, <[j := v]> r) vs (map f (seq 0 n))
  = map (λ i, <[j := default 0 (vs !! i)]> (f i)) (seq 0 n).
Proof.
  intros Hn. apply list_eq. intros i.
  rewrite lookup_zip_with, !list_lookup_fmap.
  destruct (vs !! i) as [v|] eqn:E; simpl.
  - apply lookup_lt_Some in E as Hi. rewrite lookup_seq_lt by lia. simpl. by rewrite E.
  - apply lookup_ge_None in E. by rewrite lookup_seq_ge by lia.
Qed.

Section encode.
Context `{Cudf} `{!CudfLaws} {T : Type} `{!Tokenizer T}.
Variables (p : t T) (d : df) (v : dict string Z) (unk pad : Z) (L : nat).
Hypothesis Hv : _vocab p = Some v.
#[local] Arguments encode_column : simpl never.

Definition mat_of (n : nat) (f : nat → list Z) : mat :=
  {| mat_width := Z.of_nat L; mat_rows := map f (seq 0 n) |}.

Lemma mat_of_ext n f g : (∀ i, (i < n)%nat → f i = g i) → mat_of n f = mat_of n g.
Proof.
  intros Hfg. unfold mat_of. f_equal. apply list_fmap_ext.
  intros i k [-> Hk]%lookup_seq. by apply Hfg.
Qed.

Lemma encode_column_step c s pre plen :
  df_col d c = Ok s → (∀ i, length (pre i) = plen) →
  encode_column p d unk (Z.of_nat L)
    (mat_of (df_len d) (λ i, fill_row L pad (pre i)), Z.of_nat (Nat.min L plen)) c
  = Ok (mat_of (df_len d) (λ i, fill_row L pad
          (pre i ++ [default 0 (col_ids v unk s !! i)])),
        Z.of_nat (Nat.min L (S plen))).
Proof.
  intros Hs Hpre. unfold encode_column.
  destruct (Z.leb_spec (Z.of_nat L) (Z.of_nat (Nat.min L plen))) as [Hle|Hlt].
  - replace (Nat.min L (S plen)) with (Nat.min L plen) by lia. do 2 f_equal.
    apply mat_of_ext. intros i _. symmetry. apply fill_row_full.
    rewrite Hpre. lia.
  - rewrite Hs, Hv. simpl. destruct (df_col_present _ _ _ Hs) as [_ Hlen].
    assert (length (col_ids v unk s) = df_len d) as Hids.
    { by rewrite col_ids_law, length_map. }
    rewrite np_set_col_law; [|simpl; lia|simpl; by rewrite length_map, length_seq].
    simpl. f_equal. f_equal; [|lia]. unfold mat_set, mat_of. simpl. f_equal.
    rewrite mat_set_rows by done. apply list_fmap_ext. intros i k _.
    rewrite Nat2Z.id. replace (Nat.min L plen) with (length (pre k)) by (rewrite Hpre; lia).
    apply fill_row_snoc. rewrite Hpre. lia.
Qed.

Lemma encode_loop cs ss pre plen :
  Forall2 (λ c s, df_col d c = Ok s) cs ss → (∀ i, length (pre i) = plen) →
  result_fold (encode_column p d unk (Z.of_nat L))
    (mat_of (df_len d) (λ i, fill_row L pad (pre i)), Z.of_nat (Nat.min L plen)) cs
  = Ok (mat_of (df_len d) (λ i, fill_row L pad
          (pre i ++ col_row (map (col_ids v unk) ss) i)),
        Z.of_nat (Nat.min L (plen + length cs))).
Proof.
  intros Hcs. revert pre plen.
  induction Hcs as [|c s cs ss Hc Hcs IH]; intros pre plen Hpre; simpl.
  - rewrite Nat.add_0_r. do 2 f_equal. apply mat_of_ext. intros. by rewrite app_nil_r.
  - rewrite (encode_column_step c s) by done. simpl.
    rewrite (IH _ (S plen)) by (intros; rewrite length_app, Hpre; simpl; lia).
    rewrite Nat.add_succ_comm. do 2 f_equal. apply mat_of_ext. intros i _.
    by rewrite <-(assoc (++)).
Qed.

Lemma np_fill_col_rows off x pre :
  (off < L)%nat → (∀ i, length (pre i) = off) →
  np_fill_col (Z.of_nat off) x (mat_of (df_len d) (λ i, fill_row L pad (pre i)))
  = Ok (mat_of (df_len d) (λ i, fill_row L pad (pre i ++ [x]))).
Proof.
  intros Hoff Hpre. rewrite np_fill_col_law by (simpl; lia). f_equal.
  unfold mat_set, mat_of. simpl. f_equal. rewrite length_map, length_seq, Nat2Z.id.
  rewrite mat_set_rows by (by rewrite length_replicate).
  apply list_fmap_ext. intros i k Hk. apply lookup_seq in Hk as [-> Hk].
  rewrite lookup_replicate_2 by lia. simpl.
  rewrite <-(Hpre (0 + i)%nat). apply fill_row_snoc. by rewrite Hpre.
Qed.

Lemma encode_spec bos eos ss (add_special : bool) :
  dget (special_token_ids p) "<pad>" = Some pad →
  dget (special_token_ids p) "<bos>" = Some bos →
  dget (special_token_ids p) "<eos>" = Some eos →
  dget (special_token_ids p) "<unk>" = Some unk →
  Forall2 (λ c s, df_col d c = Ok s) (df_columns d) ss →
  (if add_special then (0 < L)%nat else True) →
  encode p d (Z.of_nat L) add_special = Ok (mat_of (df_len d) (λ i,
    let ids := map (λ s, cell_id v unk (default CNull (cells s !! i))) ss in
    fill_row L pad (if add_special then bos :: ids ++ [eos] else ids))).
Proof.
  intros Hpad Hbos Heos Hunk Hss HL. unfold encode.
  rewrite Hpad, Hbos, Heos, Hunk. simpl.
  rewrite np_full2_law by lia. simpl. rewrite Nat2Z.id.
  assert ({| mat_width := Z.of_nat L;
      mat_rows := replicate (df_len d) (replicate L pad) |}
    = mat_of (df_len d) (λ i, fill_row L pad [])) as ->.
  { unfold mat_of, fill_row. f_equal. simpl. rewrite take_ge by by rewrite length_replicate.
    symmetry. etransitivity; [by apply const_fmap|]. by rewrite length_seq. }
  set (ids := col_row (map (col_ids v unk) ss)).
  assert (∀ i, length (ids i) = length (df_columns d)) as Hids.
  { intros i. unfold ids, col_row. rewrite !length_map.
    symmetry. by eapply Forall2_length. }
  transitivity (Ok (mat_of (df_len d) (λ i, fill_row L pad
    (if add_special then bos :: ids i ++ [eos] else ids i)))).
  - destruct add_special; simpl.
    + pose proof (np_fill_col_rows 0 bos (λ _, []) HL (λ _, eq_refl)) as Hb.
      change (Z.of_nat 0) with 0 in Hb. rewrite Hb. simpl.
      pose proof (encode_loop _ _ (λ _, [bos]) 1 Hss (λ _, eq_refl)) as Hloop.
      replace (Z.of_nat (Nat.min L 1)) with 1 in Hloop by lia.
      rewrite Hloop. simpl. fold ids.
      destruct (Z.ltb_spec (Z.of_nat (Nat.min L (S (length (df_columns d)))))
        (Z.of_nat L)) as [Hlt|Hge].
      * rewrite Nat.min_r by lia.
        rewrite (np_fill_col_rows _ eos (λ i, bos :: ids i)); [done|lia|].
        intros i. simpl. by rewrite Hids.
      * f_equal. apply mat_of_ext. intros i _.
        change (bos :: ids i ++ [eos]) with ((bos :: ids i) ++ [eos]).
        symmetry. apply fill_row_full. simpl. rewrite Hids. lia.
    + pose proof (encode_loop _ _ (λ _, []) 0 Hss (λ _, eq_refl)) as Hloop.
      rewrite Nat.min_0_r in Hloop. change (Z.of_nat 0) with 0 in Hloop. by rewrite Hloop.
  - f_equal. apply mat_of_ext. intros i Hi. cbv zeta.
    enough (ids i = map (λ s, cell_id v unk (default CNull (cells s !! i))) ss) as ->
      by done.
    unfold ids, col_row. rewrite map_map. apply map_ext_in. intros s Hs.
    apply list_elem_of_In, list_elem_of_lookup in Hs as [j Hj].
    destruct (Forall2_lookup_r _ _ _ _ _ Hss Hj) as (c & _ & Hc).
    destruct (df_col_present _ _ _ Hc) as [_ Hlen].
    rewrite col_ids_law, list_lookup_fmap.
    by destruct (lookup_lt_is_Some_2 (cells s) i) as [x ->]; [lia|].
Qed.
End encode.
