(* ===== verification/PipelineProps.v ===== *)
(** * Properties of the tokenizer pipeline

    The theorems on [TokenizerPipeline] for steps of any class that keeps the
    [TokenizerLaws], and their instances on a two-step pipeline over the list
    data frames. *)
From S2P Require Import Prelude PyDict PyStr Cudf BaseTok Tokenizers Pipeline PipelineFacts.
Open Scope string_scope.
Open Scope list_scope.
Open Scope Z_scope.
Import TokenizerPipeline.

Section props.
Context `{Cudf} {T : Type} `{!Tokenizer T} `{!TokenizerLaws T}.
Implicit Types (p : t T) (d : df).

(** The pipeline with CUDA streams turned off. *)
Definition without_streams p : t T := {|
  steps := steps p; vocab_sizes := vocab_sizes p; vocab_offset := vocab_offset p;
  column_specs := column_specs p; tokenizer_order := tokenizer_order p;
  stream_threshold := stream_threshold p; special_tokens := special_tokens p;
  special_token_ids := special_token_ids p; num_special_tokens := num_special_tokens p;
  global_vocab_size := global_vocab_size p; use_streams := false;
  is_fitted := is_fitted p; _vocab := _vocab p; _id_to_token := _id_to_token p |}.

Lemma fit_step_without_streams d p l off :
  result_fold (fit_step d) (without_streams p, off) l
  = (λ st, (without_streams st.1, st.2)) <$> result_fold (fit_step d) (p, off) l.
Proof.
  revert p off. induction l as [|x l IH]; intros p off; [done|].
  cbn [result_fold].
  assert (fit_step d (without_streams p, off) x
    = (λ st, (without_streams st.1, st.2)) <$> fit_step d (p, off) x) as ->.
  { unfold fit_step, fit_step_with, df_source, step_columns. simpl.
    destruct (dget (column_specs p) x); [|done]. simpl.
    destruct (forallb _ _); [|done]. destruct (select_columns _ _); [|done]. simpl.
    destruct (dget (steps p) x); [|done]. simpl. by destruct (tk_build_vocab _ _). }
  destruct (fit_step d (p, off) x) as [[q off']|]; [apply IH|done].
Qed.

Lemma fit_without_streams d p : NoDup (tokenizer_order p) →
  fit d (without_streams p) = without_streams <$> fit d p.
Proof.
  intros Hnd. unfold fit. rewrite (fit_parallel_eq d p) by done.
  assert ((if uses_streams p then _fit_sequential d p else _fit_sequential d p)
    = _fit_sequential d p) as -> by by destruct (uses_streams p).
  change (uses_streams (without_streams p)) with false. cbv iota.
  unfold _fit_sequential. simpl. rewrite fit_step_without_streams.
  destruct (result_fold _ _ _) as [[q off]|]; [|done]. simpl.
  unfold _build_global_vocab. simpl.
  change (step_entries (set_global off (is_fitted q) (_vocab q) (_id_to_token q) (without_streams q)))
    with (step_entries (set_global off (is_fitted q) (_vocab q) (_id_to_token q) q)).
  destruct (result_map _ _); [|done]. simpl. by destruct (foldl _ _ _).
Qed.

Lemma transform_streams_eq d p l n res :
  result_fold (transform_step_stream d p) res (zip (seq n (length l)) l)
  = result_fold (transform_step d p) res l.
Proof.
  revert n res. induction l as [|x l IH]; intros n res; [done|].
  cbn [length seq zip zip_with result_fold].
  assert (transform_step_stream d p res (n, x) = transform_step d p res x) as ->.
  { unfold transform_step_stream, transform_step.
    destruct (dget (column_specs p) x); [|done]. simpl.
    destruct (select_columns _ _); [|done]. simpl.
    destruct (dget (steps p) x); [|done]. simpl. by rewrite tk_tokenize_stream. }
  destruct (transform_step d p res x); [apply IH|done].
Qed.

(** CUDA streams change nothing: fitting and transforming with streams
    yields the frame, or the error, that the sequential loops yield, and the
    same fitted pipeline. *)
Theorem streams_irrelevant d p :
  NoDup (tokenizer_order p) →
  fit_transform d (without_streams p)
  = (λ r, (r.1, without_streams r.2)) <$> fit_transform d p.
Proof.
  intros Hnd. unfold fit_transform. rewrite fit_without_streams by done.
  destruct (fit d p) as [q|]; [|done]. simpl.
  assert (transform d (without_streams q) = transform d q) as ->;
    [|by destruct (transform d q)].
  unfold transform. simpl. destruct (is_fitted q); [|done].
  change (uses_streams (without_streams q)) with false. cbv iota.
  change (transform_step d (without_streams q)) with (transform_step d q).
  destruct (uses_streams q); [|done]. by rewrite transform_streams_eq.
Qed.

(** C29: when every step numbers its tokens densely from 0 and no token
    occurs twice, a successful [fit] gives every token its own id, the ids
    are exactly [0 .. global_vocab_size - 1], and [id_to_token] is the
    inverse of [vocab]. *)
Theorem vocab_bijection d p p' toks :
  fit d p = Ok p' → NoDup (tokenizer_order p) → specials_ok p →
  steps_are p' (tokenizer_order p') toks → Forall dense_step toks →
  NoDup ((special_token_ids p).*1 ++ concat (map step_tokens toks)) →
  global_vocab_size p' = num_special_tokens p + sumZ (map step_size toks) ∧
  (∀ tok g, dget (vocab p') tok = Some g ↔ dget (id_to_token p') g = Some tok) ∧
  (∀ g, g ∈ (id_to_token p').*1 ↔ 0 ≤ g < global_vocab_size p').
Proof. apply fit_bijection. Qed.

(** [encode] turns row [i] into [<bos>], the ids of its tokens ([<unk>]
    for unknown ones) in column order, [<eos>], and padding, cut at
    [max_length]; without [add_special] only ids and padding. *)
Theorem encode_rows `{!CudfLaws} p d v pad bos eos unk (L : nat) (add_special : bool) ss :
  _vocab p = Some v →
  dget (special_token_ids p) "<pad>" = Some pad →
  dget (special_token_ids p) "<bos>" = Some bos →
  dget (special_token_ids p) "<eos>" = Some eos →
  dget (special_token_ids p) "<unk>" = Some unk →
  Forall2 (λ c s, df_col d c = Ok s) (df_columns d) ss →
  (if add_special then (0 < L)%nat else True) →
  ∃ m, encode p d (Z.of_nat L) add_special = Ok m ∧ length (mat_rows m) = df_len d ∧
    ∀ i, (i < df_len d)%nat → mat_rows m !! i = Some (
      let ids := map (λ s, cell_id v unk (default CNull (cells s !! i))) ss in
      take L ((if add_special then bos :: ids ++ [eos] else ids) ++ replicate L pad)).
Proof.
  intros Hv Hp Hb He Hu Hss HL. eexists. split; [by eapply encode_spec|].
  simpl. split; [by rewrite length_map, length_seq|].
  intros i Hi. by rewrite list_lookup_fmap, lookup_seq_lt.
Qed.
End props.

(** ** Instances *)
Section witnesses.
#[local] Existing Instance list_cudf.
#[local] Existing Instance list_cudf_laws.

Definition dow_step (pre : string) : FixedVocab.t := FixedVocab.init {|
  FixedVocab.p_prefix := pre; FixedVocab.p_min_val := 0;
  FixedVocab.p_max_val := 2; FixedVocab.p_pad_width := 0 |}.

(** Two steps, below or above the stream threshold. *)
Definition two_steps (threshold : Z) : t FixedVocab.t :=
  add_step (OneCol "b") (dow_step "Y") (add_step (OneCol "a") (dow_step "X")
    (init None true threshold)).

Definition two_columns : @df list_cudf :=
  (2%nat, [("a", [CInt 0; CInt 5]); ("b", [CInt 1; CInt 2])]).

Lemma two_steps_order thr : NoDup (tokenizer_order (two_steps thr)).
Proof. apply (bool_decide_eq_true_1 _). vm_compute. reflexivity. Defined.

Lemma streams_irrelevant_witness :
  is_ok (fit_transform two_columns (two_steps 2)) = true ∧
  fit_transform two_columns (without_streams (two_steps 2))
  = (λ r, (r.1, without_streams r.2)) <$> fit_transform two_columns (two_steps 2).
Proof.
  split; [vm_compute; reflexivity|].
  apply (streams_irrelevant two_columns (two_steps 2) (two_steps_order 2)).
Defined.

Lemma vocab_bijection_witness : ∃ p',
  fit two_columns (two_steps 2) = Ok p' ∧ global_vocab_size p' = 11 ∧
  ∀ tok g, dget (vocab p') tok = Some g ↔ dget (id_to_token p') g = Some tok.
Proof.
  destruct (fit two_columns (two_steps 2)) as [p'|e] eqn:E;
    [|exfalso; vm_compute in E; discriminate E].
  exists p'.
  destruct (vocab_bijection two_columns (two_steps 2) p'
    [FixedVocab.build_vocab (dow_step "X"); FixedVocab.build_vocab (dow_step "Y")] E
    (two_steps_order 2)) as (Hg & Hb & _).
  - split; [reflexivity|done].
  - vm_compute in E. injection E as <-. repeat constructor.
  - repeat constructor.
  - apply (bool_decide_eq_true_1 _). vm_compute. reflexivity.
  - split; [done|]. split; [rewrite Hg; vm_compute; reflexivity|exact Hb].
Defined.

(** The tokens of the two columns, and the pipeline fitted on them. *)
Definition fitted : @df list_cudf * t FixedVocab.t :=
  match fit_transform two_columns (two_steps 9) with
  | Ok r => r | Raise _ => (two_columns, two_steps 9) end.

Lemma encode_rows_witness : ∃ m,
  fit_transform two_columns (two_steps 9) = Ok fitted ∧
  encode fitted.2 fitted.1 5 true = Ok m ∧
  mat_rows m = [[1; 5; 9; 2; 0]; [1; 7; 10; 2; 0]].
Proof.
  destruct (encode_rows (H := list_cudf) fitted.2 fitted.1 (vocab fitted.2) 0 1 2 4 5 true
    [[CStr "X_0"; CStr "X_2"]; [CStr "Y_1"; CStr "Y_2"]]) as (m & Hm & Hlen & Hrows);
    [vm_compute; reflexivity..| |simpl; lia|].
  { repeat constructor; vm_compute; reflexivity. }
  exists m. split; [vm_compute; reflexivity|]. split; [exact Hm|].
  assert (df_len fitted.1 = 2%nat) as Hn by (vm_compute; reflexivity).
  rewrite Hn in *.
  apply list_eq. intros [|[|i]].
  - rewrite Hrows by lia. vm_compute. reflexivity.
  - rewrite Hrows by lia. vm_compute. reflexivity.
  - simpl. apply lookup_ge_None. rewrite Hlen. lia.
Defined.
End witnesses.
