(* ===== verification/Financial.v ===== *)
(** * [financial_pipeline.py] and [financial_tokenizer.py]

    The twelve-field (optionally thirteen) financial pipeline over the concrete
    steps of Tokenizers.v, and the text tokenizer [FinancialTabularTokenizer]
    that wraps it for training and inference. *)
From S2P Require Import Prelude PyDict PyStr Cudf BaseTok Tokenizers Pipeline.
Open Scope string_scope.
Open Scope list_scope.
Open Scope Z_scope.

(** ** Static definitions *)

Definition KNOWN_MCCS : list Z := [
   -1; 1711; 3000; 3001; 3005; 3006; 3007; 3008; 3009; 3058; 3066; 3075;
   3132; 3144; 3174; 3256; 3260; 3359; 3387; 3389; 3390; 3393; 3395; 3405;
   3504; 3509; 3596; 3640; 3684; 3722; 3730; 3771; 3775; 3780; 4111; 4112;
   4121; 4131; 4214; 4411; 4511; 4722; 4784; 4814; 4829; 4899; 4900; 5045;
   5094; 5192; 5193; 5211; 5251; 5261; 5300; 5310; 5311; 5411; 5499; 5533;
   5541; 5621; 5651; 5655; 5661; 5712; 5719; 5722; 5732; 5733; 5812; 5813;
   5814; 5815; 5816; 5912; 5921; 5932; 5941; 5942; 5947; 5970; 5977; 6300;
   7011; 7210; 7230; 7276; 7349; 7393; 7531; 7538; 7542; 7549; 7801; 7802;
   7832; 7922; 7995; 7996; 8011; 8021; 8041; 8043; 8049; 8062; 8099; 8111;
   8931; 9402].

Definition INDUSTRY_RANGES : list (Z * Z * string) := [
   (0, 1499, "AGRICULTURAL"); (1500, 2999, "CONTRACTED");
   (3000, 3299, "AIRLINES"); (3300, 3499, "CAR_RENTAL");
   (3500, 3999, "LODGING"); (4000, 4799, "TRANSPORTATION");
   (4800, 4999, "UTILITIES"); (5000, 5599, "RETAIL");
   (5600, 5699, "CLOTHING"); (5700, 7299, "MISC_STORES");
   (7300, 7999, "BUSINESS"); (8000, 8999, "PROFESSIONAL");
   (9000, 9999, "GOVERNMENT")].

Definition CHIP_MAPPING : dict cell string := [
   (CStr "SWIPE TRANSACTION", "SWIPE"); (CStr "CHIP TRANSACTION", "CHIP");
   (CStr "ONLINE TRANSACTION", "ONLINE")].

Definition ALL_STATES : list string := [
   "AL"; "AK"; "AZ"; "AR"; "CA"; "CO"; "CT"; "DE"; "FL"; "GA"; "HI"; "ID";
   "IL"; "IN"; "IA"; "KS"; "KY"; "LA"; "ME"; "MD"; "MA"; "MI"; "MN"; "MS";
   "MO"; "MT"; "NE"; "NV"; "NH"; "NJ"; "NM"; "NY"; "NC"; "ND"; "OH"; "OK";
   "OR"; "PA"; "RI"; "SC"; "SD"; "TN"; "TX"; "UT"; "VT"; "VA"; "WA"; "WV";
   "WI"; "WY"; "DC"; "PR"; "VI"; "GU"; "AS"; "MP"; "XX"; "ONLINE"].

Definition AMOUNT_THRESHOLDS : list Z := [
   0; 10; 50; 100; 500; 1000; 5000].

(** ** The step objects of the financial pipeline *)

Section financial.
Context `{Cudf}.

Inductive step : Type :=
  | SFixed (x : FixedVocab.t)
  | SMapping (x : Mapping.t)
  | SHash (x : CategoricalHash.t)
  | SNumerical (x : Numerical.t)
  | STimeDelta (x : TimeDelta.t).

(** Method calls on a step dispatch on its class. *)
#[export] Instance step_tokenizer : Tokenizer step := {|
  tk_base s := match s with
    | SFixed x => tk_base x | SMapping x => tk_base x | SHash x => tk_base x
    | SNumerical x => tk_base x | STimeDelta x => tk_base x end;
  tk_build_vocab c s := match s with
    | SFixed x => SFixed <$> tk_build_vocab c x
    | SMapping x => SMapping <$> tk_build_vocab c x
    | SHash x => SHash <$> tk_build_vocab c x
    | SNumerical x => SNumerical <$> tk_build_vocab c x
    | STimeDelta x => STimeDelta <$> tk_build_vocab c x end;
  tk_tokenize c s := match s with
    | SFixed x => tk_tokenize c x | SMapping x => tk_tokenize c x
    | SHash x => tk_tokenize c x | SNumerical x => tk_tokenize c x
    | STimeDelta x => tk_tokenize c x end;
  tk_stream s := match s with
    | SFixed x => tk_stream x | SMapping x => tk_stream x | SHash x => tk_stream x
    | SNumerical x => tk_stream x | STimeDelta x => tk_stream x end;
  tk_set_stream st s := match s with
    | SFixed x => SFixed (tk_set_stream st x)
    | SMapping x => SMapping (tk_set_stream st x)
    | SHash x => SHash (tk_set_stream st x)
    | SNumerical x => SNumerical (tk_set_stream st x)
    | STimeDelta x => STimeDelta (tk_set_stream st x) end
|}.

(** The dispatching step keeps the promise of the interface because every
    class does. *)
#[export] Instance step_tokenizer_laws : TokenizerLaws step.
Proof.
  split.
  - intros st [x|x|x|x|x]; exact (tk_base_set_stream st x).
  - intros st [x|x|x|x|x]; exact (tk_stream_set st x).
  - intros [x|x|x|x|x]; exact (f_equal _ (tk_set_stream_id x)).
  - intros st st' [x|x|x|x|x]; exact (f_equal _ (tk_set_set st st' x)).
  - assert (∀ A (f : A → step) (g : A → A) (g' : step → step) (m m' : result A),
      m' = g <$> m → (∀ x, f (g x) = g' (f x)) → f <$> m' = g' <$> (f <$> m)) as Hf.
    { intros A f g g' [a|e] m' -> Hfg; simpl; by rewrite ?Hfg. }
    intros c st [x|x|x|x|x];
      [eapply (Hf _ SFixed)|eapply (Hf _ SMapping)|eapply (Hf _ SHash)
      |eapply (Hf _ SNumerical)|eapply (Hf _ STimeDelta)];
      (exact (tk_build_stream c st x) || done).
  - intros c st [x|x|x|x|x]; exact (tk_tokenize_stream c st x).
  - intros c [x|x|x|x|x] y Hy; apply fmap_ok in Hy as (z & Hz & ->);
      exact (tk_build_keeps_stream c x z Hz).
Qed.
End financial.

(** ** [FinancialTokenizerPipeline] *)
Module FinancialTokenizerPipeline.
Section pipeline.
Context `{Cudf}.

(** The base-class state and the attributes the subclass adds. *)
Record t : Type := {
  pipeline : TokenizerPipeline.t step;
  merchant_hash_size : Z;
  amount_strategy : string;
  amount_bins : Z;
  include_time_delta : bool;
  time_delta_bins : Z
}.

Definition fixed (pre : string) (lo hi : Z) (w : nat) : step :=
  SFixed (FixedVocab.init {| FixedVocab.p_prefix := pre; FixedVocab.p_min_val := lo;
    FixedVocab.p_max_val := hi; FixedVocab.p_pad_width := w |}).

Definition mapping (pre : string) (m : option (dict cell string))
    (vs : option (list cell)) (rs : option (list (Z * Z * string))) (d : string) : step :=
  SMapping (Mapping.init {| Mapping.p_prefix := pre; Mapping.p_mapping := m;
    Mapping.p_values := vs; Mapping.p_ranges := rs; Mapping.p_default := d |}).

(** The (column, step) pairs [_configure_steps] adds, in order. *)
Definition configured (merchant_hash_size : Z) (amount_strategy : string)
    (amount_bins : Z) (include_time_delta : bool) (time_delta_bins : Z) :
    list (string * step) :=
  [ ("amt_val",
      if bool_decide (amount_strategy = "fixed") then fixed "AMT" 0 6 0
      else SNumerical (Numerical.init {| Numerical.p_special_token := "AMT";
             Numerical.p_num_bins := amount_bins;
             Numerical.p_strategy := amount_strategy |}));
    ("merch_hash", SHash (CategoricalHash.init {|
      CategoricalHash.p_vocab_limit := merchant_hash_size;
      CategoricalHash.p_special_token := "MERCH" |}));
    ("mcc_int", mapping "CAT" None None (Some INDUSTRY_RANGES) "GENERAL");
    ("mcc_str", mapping "MCC" None
      (Some (map (λ m : Z, CStr (pretty m)) KNOWN_MCCS)) None "-1");
    ("hour", fixed "HOUR" 0 23 2);
    ("dow", fixed "DOW" 0 6 0);
    ("month", fixed "MONTH" 1 12 2);
    ("card", fixed "CARD" 0 9 0);
    ("chip_upper", mapping "CHIP" (Some CHIP_MAPPING) None None "UNK");
    ("zip3", fixed "ZIP3" 0 999 3);
    ("state_clean", mapping "STATE" None (Some (map CStr ALL_STATES)) None "XX");
    ("cust", fixed "CUST" 0 2999 0) ] ++
  (if include_time_delta then
    [("time_delta_s", STimeDelta (TimeDelta.init {|
      TimeDelta.p_num_bins := time_delta_bins; TimeDelta.p_special_token := "TDIF";
      TimeDelta.p_max_years := f64_of_Z 10 |}))] else []).

Definition add_steps (l : list (string * step)) (p : TokenizerPipeline.t step) :
    TokenizerPipeline.t step :=
  foldl (λ p kv, TokenizerPipeline.add_step (OneCol kv.1) kv.2 p) p l.

Definition with_pipeline (p : TokenizerPipeline.t step) (x : t) : t := {|
  pipeline := p; merchant_hash_size := merchant_hash_size x;
  amount_strategy := amount_strategy x; amount_bins := amount_bins x;
  include_time_delta := include_time_delta x; time_delta_bins := time_delta_bins x |}.

Definition _configure_steps (x : t) : t :=
  with_pipeline (add_steps (configured (merchant_hash_size x) (amount_strategy x)
    (amount_bins x) (include_time_delta x) (time_delta_bins x)) (pipeline x)) x.

(** [__init__]; the keyword arguments are those of the base class. *)
Definition init (hash_size : Z) (strategy : string) (bins : Z) (td : bool)
    (td_bins : Z) (special : option (dict string string)) (streams : bool)
    (threshold : Z) : t :=
  _configure_steps {|
    pipeline := TokenizerPipeline.init special streams threshold;
    merchant_hash_size := hash_size; amount_strategy := strategy;
    amount_bins := bins; include_time_delta := td; time_delta_bins := td_bins |}.
End pipeline.
Arguments t {_}.
End FinancialTokenizerPipeline.

(** ** [FinancialTabularTokenizer] *)

(** [tokens[:n]] *)
Definition py_prefix {A} (n : Z) (l : list A) : list A :=
  if 0 <=? n then take (Z.to_nat n) l
  else take (Z.to_nat (Z.of_nat (length l) + n)) l.

Module FinancialTabularTokenizer.
Section tokenizer.
Context `{Cudf}.

Record t : Type := {
  merchant_hash_size : Z;
  category_hierarchy : bool;
  temporal_encoding : bool;
  amount_bins : list f64;
  _pipeline : FinancialTokenizerPipeline.t;
  vocab : dict string Z;
  id_to_token : dict Z string;
  special_tokens : dict string string;
  pad_token_id : Z;
  bos_token_id : Z;
  eos_token_id : Z;
  sep_token_id : Z;
  unk_token_id : Z;
  special_token_ids : gset Z
}.

(** The fit loop without data, and the pipeline's global vocabulary. *)
Definition _build_vocab_from_pipeline (p : TokenizerPipeline.t step) :
    result (TokenizerPipeline.t step) :=
  st ← result_fold (TokenizerPipeline.fit_step_with (λ _ _, Ok None))
         (p, TokenizerPipeline.num_special_tokens p)
         (TokenizerPipeline.tokenizer_order p);
  TokenizerPipeline._build_global_vocab
    (TokenizerPipeline.set_global st.2 true (TokenizerPipeline._vocab st.1)
       (TokenizerPipeline._id_to_token st.1) st.1).

(** [__init__]; its [special_tokens] argument is not used by the source. *)
Definition init (hash_size : Z) (hierarchy : bool) (bins : option (list f64))
    (temporal : bool) (strategy : string) (td : bool) : result t :=
  let fp := FinancialTokenizerPipeline.init hash_size strategy 10 td 32 None true 5 in
  p ← _build_vocab_from_pipeline (FinancialTokenizerPipeline.pipeline fp);
  let v := TokenizerPipeline.vocab p in
  let pad := default 0 (dget v "<pad>") in
  let bos := default 1 (dget v "<bos>") in
  let eos := default 2 (dget v "<eos>") in
  let sep := default 3 (dget v "<sep>") in
  let unk := default 4 (dget v "<unk>") in
  Ok {| merchant_hash_size := hash_size; category_hierarchy := hierarchy;
        temporal_encoding := temporal;
        amount_bins := match bins with
          | Some (b :: bs) => b :: bs
          | _ => map f64_of_Z [0; 10; 50; 100; 500; 1000; 5000] ++ [f64_inf] end;
        _pipeline := FinancialTokenizerPipeline.with_pipeline p fp;
        vocab := v; id_to_token := TokenizerPipeline.id_to_token p;
        special_tokens := [("pad", "<pad>"); ("bos", "<bos>"); ("eos", "<eos>");
          ("sep", "<sep>"); ("unk", "<unk>")];
        pad_token_id := pad; bos_token_id := bos; eos_token_id := eos;
        sep_token_id := sep; unk_token_id := unk;
        special_token_ids := {[pad; bos; eos; sep; unk]} |}.

Definition vocab_size (x : t) : Z := Z.of_nat (length (vocab x)).
Definition get_vocab_size (x : t) : Z := vocab_size x.

Definition tokenize (text : string) : list string := py_split text.

(** [while len(tokens) < n: tokens.append("<pad>")] *)
Definition pad_to (n : Z) (tokens : list string) : list string :=
  tokens ++ replicate (Z.to_nat n - length tokens) "<pad>".

Definition fit_length (max_length : option Z) (tokens : list string) : list string :=
  match max_length with
  | None | Some 0 => tokens
  | Some n => pad_to n (py_prefix n tokens)
  end.

Definition encode (x : t) (text : string) (max_length : option Z) : list Z :=
  map (λ tok, default (unk_token_id x) (dget (vocab x) tok))
    (fit_length max_length (tokenize text)).

(** A token [decode] keeps: known, not empty, not padding. *)
Definition kept (tok : option string) : option string :=
  match tok with
  | Some s => if bool_decide (s = "") || bool_decide (s = "<pad>") then None else Some s
  | None => None end.

Definition decode (x : t) (ids : list Z) : string :=
  py_join " " (omap (λ i, kept (dget (id_to_token x) i)) ids).
End tokenizer.
Arguments t {_}.
End FinancialTabularTokenizer.
