(* ===== verification/FinancialFacts.v ===== *)
(** * The vocabulary of [FinancialTabularTokenizer]

    The vocabulary is described once as a list of parts (prefix, first local
    id, labels), the constructor is shown to build exactly that list for every
    hash size, strategy and time-delta setting, and the theorems on size,
    identifiers, [encode] and [decode] are read off the description. *)
From S2P Require Import Prelude PyDict PyStr Cudf BaseTok Tokenizers Pipeline PipelineFacts Financial.
From Stdlib Require Import Ascii.
Open Scope string_scope.
Open Scope list_scope.
Open Scope Z_scope.

(** ** Vocabulary parts *)

Record vocab_part : Type := {
  vp_prefix : string; vp_first : Z; vp_labels : list string }.

Definition part_tokens (v : vocab_part) : list string :=
  map (token (vp_prefix v)) (vp_labels v).

Definition part_size (v : vocab_part) : Z := Z.of_nat (length (vp_labels v)).

Definition part_ids (off : Z) (v : vocab_part) : list Z :=
  seqZ (off + vp_first v) (part_size v).

(** The [_idx_to_token] of a step with this vocabulary. *)
Definition part_idx (v : vocab_part) : dict Z string :=
  zip (seqZ (vp_first v) (part_size v)) (part_tokens v).

Definition part_entries (off : Z) (v : vocab_part) : list (string * Z) :=
  zip (part_tokens v) (part_ids off v).

(** All entries, the parts laid out one after the other from [off]. *)
Definition layout (off : Z) (vs : list vocab_part) : list (string * Z) :=
  concat (zip_with part_entries (prefix_sums off (map part_size vs)) vs).

Definition parts_size (vs : list vocab_part) : Z := sumZ (map part_size vs).
Definition parts_tokens (vs : list vocab_part) : list string :=
  concat (map part_tokens vs).

Section parts.
Implicit Types (v : vocab_part) (vs : list vocab_part).

Lemma part_size_nonneg v : 0 ≤ part_size v.
Proof. unfold part_size. lia. Qed.

Lemma parts_size_nonneg vs : 0 ≤ parts_size vs.
Proof. apply sumZ_nonneg, Forall_map, Forall_true, part_size_nonneg. Qed.

Lemma length_part_tokens v : length (part_tokens v) = Z.to_nat (part_size v).
Proof. unfold part_tokens, part_size. rewrite length_map. lia. Qed.

Lemma length_parts_tokens vs : Z.of_nat (length (parts_tokens vs)) = parts_size vs.
Proof.
  induction vs as [|v vs IH]; [done|].
  unfold parts_tokens, parts_size in *. simpl.
  rewrite length_app, length_part_tokens. unfold part_size at 1 2. lia.
Qed.

Lemma part_entries_fst off v : (part_entries off v).*1 = part_tokens v.
Proof.
  unfold part_entries, part_ids. apply fst_zip.
  rewrite length_part_tokens, length_seqZ. done.
Qed.

Lemma part_entries_snd off v : (part_entries off v).*2 = part_ids off v.
Proof.
  unfold part_entries, part_ids. apply snd_zip.
  by rewrite length_part_tokens, length_seqZ.
Qed.

Lemma layout_cons off v vs :
  layout off (v :: vs) = part_entries off v ++ layout (off + part_size v) vs.
Proof. done. Qed.

Lemma layout_app off vs ws :
  layout off (vs ++ ws) = layout off vs ++ layout (off + parts_size vs) ws.
Proof.
  revert off. induction vs as [|v vs IH]; intros off.
  - unfold parts_size. simpl. by rewrite Z.add_0_r.
  - simpl. rewrite !layout_cons, IH, <-(assoc (++)). unfold parts_size. simpl.
    by rewrite Z.add_assoc.
Qed.

Lemma layout_fst off vs : (layout off vs).*1 = parts_tokens vs.
Proof.
  revert off. induction vs as [|v vs IH]; intros off; [done|].
  by rewrite layout_cons, fmap_app, IH, part_entries_fst.
Qed.

(** Parts whose local ids start at 0 get consecutive global ids. *)
Lemma layout_snd off vs : Forall (λ v, vp_first v = 0) vs →
  (layout off vs).*2 = seqZ off (parts_size vs).
Proof.
  intros Hvs. revert off. induction Hvs as [|v vs Hv Hvs IH]; intros off; [done|].
  rewrite layout_cons, fmap_app, IH, part_entries_snd. unfold part_ids.
  rewrite Hv, Z.add_0_r. unfold parts_size. simpl.
  symmetry. apply seqZ_app; [apply part_size_nonneg|apply parts_size_nonneg].
Qed.

Lemma part_idx_keys v : (part_idx v).*1 = seqZ (vp_first v) (part_size v).
Proof.
  unfold part_idx. apply fst_zip. by rewrite length_part_tokens, length_seqZ.
Qed.

Lemma part_entries_idx off v :
  map (λ kv, (kv.2, kv.1 + off)) (part_idx v) = part_entries off v.
Proof.
  unfold part_entries, part_ids, part_idx.
  rewrite Z.add_comm, <-seqZ_shift.
  generalize (seqZ (vp_first v) (part_size v)), (part_tokens v).
  intros l k. revert k. induction l as [|x l IH]; intros [|y k]; simpl; [done..|].
  by rewrite IH.
Qed.
End parts.

(** ** Tokens of different prefixes differ *)

Fixpoint no_us (s : string) : bool :=
  match s with "" => true | String c s => negb (bool_decide (c = "_"%char)) && no_us s end.

(** A word without underscore that does not open a special token. *)
Definition prefix_ok (p : string) : bool :=
  no_us p && wordb p &&
  match p with String c _ => negb (bool_decide (c = "<"%char)) | "" => false end.

Lemma token_inj p p' l l' :
  no_us p = true → no_us p' = true → token p l = token p' l' → p = p' ∧ l = l'.
Proof.
  unfold token. revert p'. induction p as [|c p IH]; intros [|c' p']; simpl; intros Hp Hp' He;
    try (by simplify_eq/=).
  - apply andb_true_iff in Hp as [_ Hp], Hp' as [_ Hp'].
    injection He as -> He. by destruct (IH p' Hp Hp' He) as [-> ->].
Qed.

Definition part_ok (v : vocab_part) : Prop :=
  prefix_ok (vp_prefix v) = true ∧ NoDup (vp_labels v) ∧
  Forall (λ l, no_ws l = true) (vp_labels v).

Section part_ok.
Implicit Types (v : vocab_part) (vs : list vocab_part).

Lemma prefix_no_us p : prefix_ok p = true → no_us p = true.
Proof. unfold prefix_ok. by intros [[? _]%andb_true_iff _]%andb_true_iff. Qed.

Lemma parts_tokens_elem vs t :
  t ∈ parts_tokens vs ↔ ∃ v l, v ∈ vs ∧ l ∈ vp_labels v ∧ t = token (vp_prefix v) l.
Proof.
  unfold parts_tokens, part_tokens. rewrite list_elem_of_In, in_concat. split.
  - intros (ts & Hts & Ht). apply in_map_iff in Hts as (v & <- & Hv).
    apply in_map_iff in Ht as (l & <- & Hl).
    apply list_elem_of_In in Hv, Hl. by exists v, l.
  - intros (v & l & Hv & Hl & ->). exists (map (token (vp_prefix v)) (vp_labels v)).
    apply list_elem_of_In in Hv, Hl. split; [apply in_map_iff; by exists v|].
    by apply (in_map (token (vp_prefix v))).
Qed.

Lemma parts_tokens_NoDup vs :
  Forall part_ok vs → NoDup (map vp_prefix vs) → NoDup (parts_tokens vs).
Proof.
  induction 1 as [|v vs (Hp & Hl & _) Hvs IH]; [constructor|].
  simpl. intros [Hnv Hnd]%NoDup_cons.
  change (parts_tokens (v :: vs)) with (part_tokens v ++ parts_tokens vs).
  apply NoDup_app. split_and!; [|..|by apply IH].
  - unfold part_tokens. apply NoDup_fmap_2_strong; [|done].
    intros x y _ _ He. apply token_inj in He as [_ He]; [done|by apply prefix_no_us..].
  - intros t Ht Ht'. apply list_elem_of_fmap in Ht as (l & -> & _).
    apply parts_tokens_elem in Ht' as (v' & l' & Hv' & _ & He).
    rewrite Forall_forall in Hvs. destruct (Hvs v' Hv') as (Hp' & _).
    apply token_inj in He as [He _]; [|by apply prefix_no_us..].
    apply Hnv. rewrite He. by apply list_elem_of_fmap_2.
Qed.

Lemma parts_tokens_word vs t :
  Forall part_ok vs → t ∈ parts_tokens vs →
  wordb t = true ∧ ∀ s, t ≠ String "<" s.
Proof.
  intros Hvs (v & l & Hv & Hl & ->)%parts_tokens_elem.
  rewrite Forall_forall in Hvs. destruct (Hvs v Hv) as (Hp & _ & Hw).
  rewrite Forall_forall in Hw. specialize (Hw l Hl).
  unfold prefix_ok in Hp. apply andb_true_iff in Hp as [[_ Hp]%andb_true_iff Hh].
  split.
  - unfold token. apply wordb_app_l; [done|].
    change (no_ws ("_" +:+ l)) with (no_ws l). done.
  - intros s He. unfold token in He. destruct (vp_prefix v) as [|c p]; [done|].
    simpl in He. injection He as -> _. done.
Qed.
End part_ok.

(** ** The parts each kind of step builds *)
Section builds.
Context `{Cudf}.

Definition builds (s : step) (v : vocab_part) : Prop :=
  ∃ s', tk_build_vocab None s = Ok s' ∧
    BaseTokenizer._idx_to_token (tk_base s') = Some (Flat (part_idx v)).

Lemma zip_map_r {A B} (f : A → B) l : zip l (map f l) = map (λ i, (i, f i)) l.
Proof. induction l as [|x l IH]; [done|]. simpl. by rewrite IH. Qed.

(** A part whose labels are computed from its local ids. *)
Lemma part_idx_seq pre lo n g : 0 ≤ n →
  part_idx {| vp_prefix := pre; vp_first := lo; vp_labels := map g (seqZ lo n) |}
  = map (λ i, (i, token pre (g i))) (seqZ lo n).
Proof.
  intros Hn. unfold part_idx, part_size, part_tokens. simpl.
  rewrite length_map, length_seqZ, Z2Nat.id by done.
  by rewrite map_map, zip_map_r.
Qed.

Lemma enum_tokens_part pre labels :
  enum_tokens pre labels = part_idx {| vp_prefix := pre; vp_first := 0; vp_labels := labels |}.
Proof.
  assert (∀ m, imap (λ i lbl, (m + Z.of_nat i, token pre lbl)) labels
    = zip (seqZ m (Z.of_nat (length labels))) (map (token pre) labels)) as Hi.
  { induction labels as [|l labels IH]; intros m; [done|]. simpl.
    rewrite seqZ_cons by lia. rewrite Z.add_0_r. simpl. f_equal.
    replace (Z.pred (Z.of_nat (S (length labels)))) with (Z.of_nat (length labels)) by lia.
    rewrite <-IH. apply imap_ext. intros i x _. simpl. f_equal. lia. }
  unfold enum_tokens. change (part_idx _)
    with (zip (seqZ 0 (Z.of_nat (length labels))) (map (token pre) labels)).
  rewrite <-Hi. apply dict_of_NoDup. rewrite Hi, fst_zip.
  - apply NoDup_seqZ.
  - rewrite length_map, length_seqZ. lia.
Qed.

Lemma range_tokens_part pre n : 0 ≤ n →
  range_tokens pre n =
    part_idx {| vp_prefix := pre; vp_first := 0; vp_labels := map pretty (seqZ 0 n) |}.
Proof.
  intros Hn. rewrite part_idx_seq by done. apply dict_of_NoDup.
  rewrite <-list_fmap_compose, (list_fmap_id (seqZ _ _)). apply NoDup_seqZ.
Qed.

Lemma fixed_builds pre lo hi w : lo ≤ hi + 1 →
  builds (FinancialTokenizerPipeline.fixed pre lo hi w)
    {| vp_prefix := pre; vp_first := lo; vp_labels := map (fmt0d w) (seqZ lo (hi + 1 - lo)) |}.
Proof.
  intros Hlo. eexists. split; [reflexivity|]. simpl. do 2 f_equal.
  rewrite FixedVocab.vocab_entries_raw, part_idx_seq by lia. done.
Qed.

Lemma hash_builds pre n : 0 ≤ n →
  builds (SHash (CategoricalHash.init {| CategoricalHash.p_vocab_limit := n;
      CategoricalHash.p_special_token := pre |}))
    {| vp_prefix := pre; vp_first := 0; vp_labels := map pretty (seqZ 0 n) |}.
Proof.
  intros Hn. eexists. split; [reflexivity|]. simpl. do 2 f_equal.
  by apply range_tokens_part.
Qed.

Lemma numerical_builds pre n strategy : 0 ≤ n →
  builds (SNumerical (Numerical.init {| Numerical.p_special_token := pre;
      Numerical.p_num_bins := n; Numerical.p_strategy := strategy |}))
    {| vp_prefix := pre; vp_first := 0; vp_labels := map pretty (seqZ 0 n) |}.
Proof.
  intros Hn. eexists. split; [reflexivity|]. simpl. do 2 f_equal.
  by apply range_tokens_part.
Qed.

Lemma timedelta_builds pre n years : 0 ≤ n →
  builds (STimeDelta (TimeDelta.init {| TimeDelta.p_special_token := pre;
      TimeDelta.p_num_bins := n; TimeDelta.p_max_years := years |}))
    {| vp_prefix := pre; vp_first := 0; vp_labels := map pretty (seqZ 0 n) |}.
Proof.
  intros Hn. eexists. split; [reflexivity|]. simpl. do 2 f_equal.
  by apply range_tokens_part.
Qed.

(** The labels of a mapping step: from its ranges, or its direct mapping. *)
Definition range_part (pre : string) (r : list (Z * Z * string)) (d : string) :=
  {| vp_prefix := pre; vp_first := 0; vp_labels := sorted_set (map snd r) ++ [d] |}.

Definition direct_part (pre : string) (m : dict cell string) (d : string) :=
  {| vp_prefix := pre; vp_first := 0;
     vp_labels := Mapping.dedupe (sorted_set m.*2 ++ [d]) |}.

Definition values_map (vs : list cell) : dict cell string :=
  dict_of (map (λ c, (c, cell_str c)) vs).

Lemma range_builds pre r d :
  builds (FinancialTokenizerPipeline.mapping pre None None (Some r) d) (range_part pre r d).
Proof.
  eexists. split; [reflexivity|]. simpl. do 2 f_equal. apply enum_tokens_part.
Qed.

Lemma mapping_builds pre m d : m ≠ [] →
  builds (FinancialTokenizerPipeline.mapping pre (Some m) None None d) (direct_part pre m d).
Proof.
  intros Hm. destruct m as [|e m]; [done|].
  eexists. split; [reflexivity|]. simpl. do 2 f_equal. apply enum_tokens_part.
Qed.

Lemma values_builds pre vs d : values_map vs ≠ [] →
  builds (FinancialTokenizerPipeline.mapping pre None (Some vs) None d)
    (direct_part pre (values_map vs) d).
Proof.
  unfold builds, FinancialTokenizerPipeline.mapping, Mapping.init. simpl.
  unfold Mapping.build_vocab, Mapping.direct_truthy. simpl. unfold values_map.
  destruct (dict_of _) as [|e m]; [done|]. intros _.
  eexists. split; [reflexivity|]. simpl. do 2 f_equal. apply enum_tokens_part.
Qed.
End builds.

(** ** The financial vocabulary *)

Definition digits_part (pre : string) (lo n : Z) (w : nat) : vocab_part :=
  {| vp_prefix := pre; vp_first := lo; vp_labels := map (fmt0d w) (seqZ lo n) |}.

Definition numbers_part (pre : string) (n : Z) : vocab_part :=
  {| vp_prefix := pre; vp_first := 0; vp_labels := map pretty (seqZ 0 n) |}.

Definition parts_before (h : Z) (strategy : string) : list vocab_part :=
  [ (if bool_decide (strategy = "fixed") then digits_part "AMT" 0 7 0
     else numbers_part "AMT" 10);
    numbers_part "MERCH" h;
    range_part "CAT" INDUSTRY_RANGES "GENERAL";
    direct_part "MCC" (values_map (map (λ m : Z, CStr (pretty m)) KNOWN_MCCS)) "-1";
    digits_part "HOUR" 0 24 2; digits_part "DOW" 0 7 0 ].

Definition month_part : vocab_part := digits_part "MONTH" 1 12 2.

Definition parts_after (td : bool) : list vocab_part :=
  [ digits_part "CARD" 0 10 0; direct_part "CHIP" CHIP_MAPPING "UNK";
    digits_part "ZIP3" 0 1000 3; direct_part "STATE" (values_map (map CStr ALL_STATES)) "XX";
    digits_part "CUST" 0 3000 0 ] ++ (if td then [numbers_part "TDIF" 32] else []).

Definition parts (h : Z) (strategy : string) (td : bool) : list vocab_part :=
  parts_before h strategy ++ month_part :: parts_after td.

Lemma digits_part_ok pre lo n w : prefix_ok pre = true → part_ok (digits_part pre lo n w).
Proof.
  intros Hp. split_and!; [done|..]; simpl.
  - apply NoDup_fmap_2_strong; [|apply NoDup_seqZ]. intros x y _ _ He.
    by rewrite <-(parse_fmt0d w x), <-(parse_fmt0d w y), He.
  - apply Forall_map, Forall_true. intros. apply fmt0d_no_ws.
Qed.

Lemma numbers_part_ok pre n : prefix_ok pre = true → part_ok (numbers_part pre n).
Proof.
  intros Hp. split_and!; [done|..]; simpl.
  - apply NoDup_fmap_2_strong; [|apply NoDup_seqZ]. intros x y _ _ He. by simplify_eq.
  - apply Forall_map, Forall_forall. intros x Hx%elem_of_seqZ.
    destruct x as [|p|p]; [done|apply (pretty_N_no_ws (Npos p))|lia].
Qed.

(** A part whose labels are concrete. *)
Lemma closed_part_ok v :
  prefix_ok (vp_prefix v) && bool_decide (NoDup (vp_labels v)) && forallb no_ws (vp_labels v)
  = true → part_ok v.
Proof.
  intros [[Hp Hn]%andb_true_iff Hw]%andb_true_iff. split_and!; [done|by eapply bool_decide_eq_true_1|].
  apply Is_true_eq_left, forallb_True in Hw. eapply Forall_impl; [exact Hw|].
  intros l. apply Is_true_eq_true.
Qed.

(** Solves [part_ok] by the shape of the part. *)
Ltac part_ok_tac :=
  try lazymatch goal with
  | |- part_ok (digits_part _ _ _ _) => apply digits_part_ok; reflexivity
  | |- part_ok (numbers_part _ _) => apply numbers_part_ok; reflexivity
  | |- part_ok (direct_part _ _ _) => apply closed_part_ok; vm_compute; reflexivity
  | |- part_ok (range_part _ _ _) => apply closed_part_ok; vm_compute; reflexivity
  end.

Lemma parts_all_ok h strategy td : Forall part_ok (parts h strategy td).
Proof.
  unfold parts, parts_before, parts_after, month_part.
  assert (∀ b v w, part_ok v → part_ok w → part_ok (if b : bool then v else w)) as Hif
    by by intros [].
  apply Forall_app_2; [|apply Forall_cons_2; [by apply digits_part_ok|apply Forall_app_2]];
    repeat (apply Forall_cons_2 || apply Forall_nil_2); part_ok_tac.
  - apply Hif; part_ok_tac.
  - destruct td; repeat (apply Forall_cons_2 || apply Forall_nil_2). part_ok_tac.
Qed.

Lemma parts_prefixes h strategy td : NoDup (map vp_prefix (parts h strategy td)).
Proof.
  unfold parts, parts_before.
  case_bool_decide; destruct td; apply (bool_decide_eq_true_1 _); vm_compute; reflexivity.
Qed.

Definition special_entries : list (string * Z) :=
  [("<pad>", 0); ("<bos>", 1); ("<eos>", 2); ("<sep>", 3); ("<unk>", 4)].

(** Every (token, id) pair entered into the vocabulary. *)
Definition entries (h : Z) (strategy : string) (td : bool) : list (string * Z) :=
  special_entries ++ layout 5 (parts h strategy td).

Lemma entries_NoDup h strategy td : NoDup (entries h strategy td).*1.
Proof.
  unfold entries. rewrite fmap_app, layout_fst. apply NoDup_app. split_and!.
  - apply (bool_decide_eq_true_1 _). vm_compute. reflexivity.
  - intros t Ht Ht'. apply parts_tokens_word in Ht' as [_ Hh]; [|apply parts_all_ok].
    simpl in Ht. rewrite !elem_of_cons, elem_of_nil in Ht.
    destruct Ht as [->|[->|[->|[->|[->|[]]]]]]; by eapply Hh.
  - apply parts_tokens_NoDup; [apply parts_all_ok|apply parts_prefixes].
Qed.

Lemma special_ids h strategy td :
  let d := entries h strategy td in
  dget d "<pad>" = Some 0 ∧ dget d "<bos>" = Some 1 ∧ dget d "<eos>" = Some 2 ∧
  dget d "<sep>" = Some 3 ∧ dget d "<unk>" = Some 4.
Proof. split_and!; reflexivity. Qed.

(** ** The identifiers *)

Lemma digits_entries off pre lo n w : 0 ≤ n →
  part_entries off (digits_part pre lo n w)
  = map (λ i, (token pre (fmt0d w i), i + off)) (seqZ lo n).
Proof.
  intros Hn. rewrite <-part_entries_idx. unfold digits_part.
  rewrite (part_idx_seq pre lo n (fmt0d w)) by done.
  by rewrite map_map.
Qed.

(** The first global id past the month step's range: one more than its last
    local id allows. *)
Definition month_end (h : Z) (strategy : string) : Z :=
  5 + parts_size (parts_before h strategy) + 12.

Definition entries_l (h : Z) (strategy : string) : list (string * Z) :=
  special_entries ++ layout 5 (parts_before h strategy) ++
  part_entries (month_end h strategy - 12) (digits_part "MONTH" 1 11 2).

Definition entries_r (h : Z) (strategy : string) (td : bool) : list (string * Z) :=
  layout (month_end h strategy) (parts_after td).

Definition total_size (h : Z) (strategy : string) (td : bool) : Z :=
  month_end h strategy + parts_size (parts_after td).

Lemma entries_split h strategy td :
  entries h strategy td =
    entries_l h strategy ++ ("MONTH_12", month_end h strategy) :: entries_r h strategy td.
Proof.
  unfold entries, entries_l, entries_r, parts. rewrite layout_app, layout_cons.
  set (A := 5 + parts_size (parts_before h strategy)).
  assert (month_end h strategy = A + 12) as -> by done.
  change (A + part_size month_part) with (A + 12).
  rewrite <-!(assoc (++)). apply (f_equal (app special_entries)), (f_equal (app _)).
  replace (A + 12 - 12) with A by lia. clearbody A.
  unfold month_part. rewrite !digits_entries by done.
  change 12 with (11 + 1) at 1. rewrite (seqZ_app 1 11 1), map_app by done.
  rewrite <-(assoc (++)). apply (f_equal (app _)).
  change (map _ (seqZ (1 + 11) 1)) with [("MONTH_12", 12 + A)].
  by rewrite (Z.add_comm 12).
Qed.

Lemma entries_l_ids h strategy :
  (entries_l h strategy).*2 =
    seqZ 0 (month_end h strategy - 12) ++ seqZ (month_end h strategy - 11) 11.
Proof.
  unfold entries_l. rewrite !fmap_app, part_entries_snd, layout_snd.
  - unfold part_ids. change (part_size _) with 11. change (vp_first _) with 1.
    rewrite (assoc (++)). f_equal; [|f_equal; lia].
    change (special_entries.*2) with (seqZ 0 5). unfold month_end.
    rewrite <-seqZ_app by (done || apply parts_size_nonneg). f_equal. lia.
  - unfold parts_before. case_bool_decide;
      (repeat (apply Forall_cons_2; [reflexivity|])); apply Forall_nil_2.
Qed.

Lemma entries_r_ids h strategy td :
  (entries_r h strategy td).*2 = seqZ (month_end h strategy) (parts_size (parts_after td)).
Proof.
  unfold entries_r. apply layout_snd. destruct td;
    (repeat (apply Forall_cons_2; [reflexivity|])); apply Forall_nil_2.
Qed.

Lemma parts_size_before h strategy : 0 ≤ h →
  parts_size (parts_before h strategy) =
    (if bool_decide (strategy = "fixed") then 7 else 10) + h + 155.
Proof.
  intros Hh. unfold parts_before. cbn [parts_size map sumZ foldr].
  assert (part_size (numbers_part "MERCH" h) = h) as Hm.
  { unfold part_size. simpl. rewrite length_map, length_seqZ. lia. }
  rewrite Hm.
  assert (part_size (direct_part "MCC"
    (values_map (map (λ m : Z, CStr (pretty m)) KNOWN_MCCS)) "-1") = 110) as ->
    by (vm_compute; reflexivity).
  assert (part_size (range_part "CAT" INDUSTRY_RANGES "GENERAL") = 14) as ->
    by (vm_compute; reflexivity).
  assert (part_size (digits_part "HOUR" 0 24 2) = 24) as -> by (vm_compute; reflexivity).
  assert (part_size (digits_part "DOW" 0 7 0) = 7) as -> by (vm_compute; reflexivity).
  case_bool_decide.
  - assert (part_size (digits_part "AMT" 0 7 0) = 7) as -> by (vm_compute; reflexivity). lia.
  - assert (part_size (numbers_part "AMT" 10) = 10) as -> by (vm_compute; reflexivity). lia.
Qed.

Lemma parts_size_after td : parts_size (parts_after td) = 4072 + (if td then 32 else 0).
Proof. destruct td; vm_compute; reflexivity. Qed.

Lemma month_end_ge h strategy : 17 ≤ month_end h strategy.
Proof. unfold month_end. pose proof (parts_size_nonneg (parts_before h strategy)). lia. Qed.

(** The ids in use: everything below the total size but the first id of the
    month step's range. *)
Lemma entries_ids h strategy td g :
  g ∈ (entries h strategy td).*2 ↔
    0 ≤ g < total_size h strategy td ∧ g ≠ month_end h strategy - 12.
Proof.
  rewrite entries_split, fmap_app, fmap_cons, elem_of_app, elem_of_cons.
  rewrite entries_l_ids, entries_r_ids, elem_of_app, !elem_of_seqZ. simpl.
  unfold total_size. pose proof (month_end_ge h strategy).
  pose proof (parts_size_after td). destruct td; lia.
Qed.

Lemma entries_length h strategy td :
  Z.of_nat (length (entries h strategy td)) = total_size h strategy td.
Proof.
  rewrite <-(length_map snd). change (map snd) with (fmap (M:=list) (@snd string Z)).
  rewrite entries_split, fmap_app, fmap_cons, entries_l_ids, entries_r_ids.
  rewrite !length_app, length_cons, !length_seqZ. unfold total_size.
  pose proof (month_end_ge h strategy). pose proof (parts_size_nonneg (parts_after td)).
  generalize dependent (parts_size (parts_after td)).
  generalize dependent (month_end h strategy). intros. lia.
Qed.

(** Reading an id back: the last entry with that id. *)
Lemma entries_id_lookup h strategy td g t :
  dget (dict_of (map (λ e, (e.2, e.1)) (entries h strategy td))) g = Some t ↔
  dget (entries h strategy td) t = Some g ∧ t ≠ "MONTH_12".
Proof.
  pose proof (entries_NoDup h strategy td) as Hnd.
  rewrite (dget_wf_elem (entries h strategy td) t g) by exact Hnd.
  rewrite entries_split in *. rewrite map_app, map_cons.
  rewrite dget_dict_of_shadow.
  2:{ rewrite swap_keys, entries_r_ids, elem_of_seqZ. simpl.
      pose proof (parts_size_after td). destruct td; lia. }
  rewrite <-map_app.
  assert (NoDup (entries_l h strategy ++ entries_r h strategy td).*2) as Hids.
  { rewrite fmap_app, entries_l_ids, entries_r_ids.
    pose proof (month_end_ge h strategy).
    rewrite <-(assoc (++)). apply NoDup_app. split_and!; [apply NoDup_seqZ| |].
    { intros x. rewrite elem_of_app, !elem_of_seqZ. lia. }
    apply NoDup_app. split_and!; [apply NoDup_seqZ| |apply NoDup_seqZ].
    intros x. rewrite !elem_of_seqZ. lia. }
  generalize dependent (entries_l h strategy). intros l Hnd Hids.
  generalize dependent (entries_r h strategy td). intros r Hnd Hids.
  rewrite fmap_app, fmap_cons in Hnd. simpl in Hnd.
  rewrite dict_of_NoDup by by rewrite swap_keys.
  rewrite dget_wf_elem by (unfold dwf; by rewrite swap_keys).
  rewrite swap_elem, !elem_of_app, elem_of_cons.
  apply NoDup_app in Hnd as (_ & Hl & [Hr _]%NoDup_cons).
  specialize (Hl "MONTH_12").
  assert ((t, g) ∈ l → t ∈ l.*1) as H1 by apply (list_elem_of_fmap_2 fst l (t, g)).
  assert ((t, g) ∈ r → t ∈ r.*1) as H2 by apply (list_elem_of_fmap_2 fst r (t, g)).
  split.
  - intros [Ht|Ht]; (split; [by auto|]); intros ->; [|by auto].
    apply Hl; [by auto|]. apply elem_of_cons. by left.
  - intros [[Ht|[Ht|Ht]] Hne]; [by auto| |by auto]. by injection Ht as ->.
Qed.

Section construct.
Context `{Cudf}.

(** Solves [builds] by the class of the step. *)
Ltac builds_tac :=
  try lazymatch goal with
  | |- builds (FinancialTokenizerPipeline.fixed ?p ?lo ?hi ?w) _ =>
      apply (fixed_builds p lo hi w); lia
  | |- builds (SHash _) _ => by apply hash_builds
  | |- builds (SNumerical _) _ => by apply numerical_builds
  | |- builds (STimeDelta _) _ => by apply timedelta_builds
  | |- builds (FinancialTokenizerPipeline.mapping _ None None _ _) _ => apply range_builds
  | |- builds (FinancialTokenizerPipeline.mapping _ None _ _ _) _ =>
      apply values_builds; vm_compute; discriminate
  | |- builds (FinancialTokenizerPipeline.mapping _ _ _ _ _) _ =>
      apply mapping_builds; discriminate
  end.

Lemma configured_builds h strategy td : 0 ≤ h →
  Forall2 (λ kv v, builds kv.2 v)
    (FinancialTokenizerPipeline.configured h strategy 10 td 32) (parts h strategy td).
Proof.
  intros Hh. unfold FinancialTokenizerPipeline.configured, parts, parts_before, parts_after.
  cbn [app]. repeat apply Forall2_cons_2; cbn [snd]; builds_tac.
  - case_bool_decide; builds_tac.
  - destruct td; [apply Forall2_cons_2; [|by apply Forall2_nil_2]|by apply Forall2_nil_2].
    cbn [snd]. builds_tac.
Qed.

Lemma add_steps_order l p :
  TokenizerPipeline.tokenizer_order (FinancialTokenizerPipeline.add_steps l p)
    = TokenizerPipeline.tokenizer_order p ++ l.*1 ∧
  TokenizerPipeline.steps (FinancialTokenizerPipeline.add_steps l p)
    = dupdate (TokenizerPipeline.steps p) l ∧
  TokenizerPipeline.special_token_ids (FinancialTokenizerPipeline.add_steps l p)
    = TokenizerPipeline.special_token_ids p ∧
  TokenizerPipeline.num_special_tokens (FinancialTokenizerPipeline.add_steps l p)
    = TokenizerPipeline.num_special_tokens p.
Proof.
  revert p. induction l as [|[k s] l IH]; intros p; simpl; [by rewrite app_nil_r|].
  unfold FinancialTokenizerPipeline.add_steps in *. simpl.
  destruct (IH (TokenizerPipeline.add_step (OneCol k) s p)) as (-> & -> & -> & ->).
  simpl. by rewrite <-(assoc (++)).
Qed.

Lemma configured_NoDup h strategy bins td tdb :
  NoDup (FinancialTokenizerPipeline.configured h strategy bins td tdb).*1.
Proof.
  destruct td; apply (bool_decide_eq_true_1 _); vm_compute; reflexivity.
Qed.

Lemma steps_are_zip (p : TokenizerPipeline.t step) l :
  NoDup l.*1 → TokenizerPipeline.steps p = l → steps_are p l.*1 l.*2.
Proof.
  intros Hnd Hs. apply Forall2_same_length_lookup_2; [by rewrite !length_map|].
  intros i x tok Hx Ht. rewrite Hs. apply dget_wf_elem; [done|].
  rewrite list_lookup_fmap in Hx. rewrite list_lookup_fmap in Ht. destruct (l !! i) as [[k s]|] eqn:E; [|done].
  simplify_eq/=. by eapply list_elem_of_lookup_2.
Qed.

Lemma builds_all ss vs : Forall2 builds ss vs →
  ∃ toks, Forall2 (λ s s', tk_build_vocab None s = Ok s') ss toks ∧
    Forall2 (λ tok v, BaseTokenizer._idx_to_token (tk_base tok) = Some (Flat (part_idx v)))
      toks vs.
Proof.
  induction 1 as [|s v ss vs (s' & Hs & Hi) _ (toks & H1 & H2)].
  { exists []. by split; constructor. }
  exists (s' :: toks). by split; constructor.
Qed.

Lemma built_layout toks vs off :
  Forall2 (λ (tok : step) v,
    BaseTokenizer._idx_to_token (tk_base tok) = Some (Flat (part_idx v))) toks vs →
  Forall flat_step toks ∧ map step_size toks = map part_size vs ∧
  concat (zip_with entries_at (prefix_sums off (map step_size toks)) toks) = layout off vs.
Proof.
  intros Ht. revert off. induction Ht as [|tok v toks vs Hi _ IH]; intros off; [done|].
  assert (step_size tok = part_size v) as Hsz.
  { unfold step_size, BaseTokenizer.vocab_size. rewrite Hi.
    unfold part_idx. rewrite length_zip_with, length_part_tokens, length_seqZ.
    pose proof (part_size_nonneg v). lia. }
  destruct (IH (off + part_size v)) as (Hf & Hs & He). split_and!.
  - constructor; [|done]. unfold flat_step. by rewrite Hi.
  - simpl. by rewrite Hsz, Hs.
  - simpl. rewrite Hsz, He, layout_cons. f_equal.
    unfold entries_at. rewrite Hi. apply part_entries_idx.
Qed.

Import FinancialTabularTokenizer.

(** The constructor builds the vocabulary described by [entries]. *)
Lemma init_entries h hier bins temporal strategy td : 0 ≤ h →
  ∃ x, init h hier bins temporal strategy td = Ok x ∧
    vocab x = entries h strategy td ∧
    id_to_token x = dict_of (map (λ e, (e.2, e.1)) (entries h strategy td)) ∧
    pad_token_id x = 0 ∧ unk_token_id x = 4 ∧
    TokenizerPipeline.global_vocab_size (FinancialTokenizerPipeline.pipeline (_pipeline x))
      = 5 + parts_size (parts h strategy td).
Proof.
  intros Hh. unfold init.
  set (conf := FinancialTokenizerPipeline.configured h strategy 10 td 32).
  set (p0 := FinancialTokenizerPipeline.pipeline _).
  assert (p0 = FinancialTokenizerPipeline.add_steps conf
    (TokenizerPipeline.init None true 5)) as Hp0 by done.
  pose proof (configured_NoDup h strategy 10 td 32) as Hnd. fold conf in Hnd.
  pose proof (configured_builds h strategy td Hh) as Hb. fold conf in Hb.
  clearbody p0 conf.
  destruct (add_steps_order conf (TokenizerPipeline.init None true 5)) as (Ho & Hst & Hsp & Hn).
  rewrite <-Hp0 in Ho, Hst, Hsp, Hn. simpl in Ho, Hst, Hn.
  rewrite dupdate_NoDup in Hst by done. simpl in Hst.
  destruct (builds_all conf.*2 (parts h strategy td)) as (toks & H1 & H2).
  { by apply Forall2_fmap_l. }
  destruct (built_layout toks _ 5 H2) as (Hf & Hsz & Hl).
  assert (steps_are p0 conf.*1 conf.*2) as Hs0 by by apply steps_are_zip.
  rewrite <-Ho in Hs0, Hnd.
  destruct (fit_without_data p0 conf.*2 toks Hnd Hs0 H1 Hf) as (q & Hq & Hv & Hi & Hg).
  rewrite Hn in Hv, Hi, Hg. change (Z.of_nat 5) with 5 in *.
  rewrite Hl, Hsp in Hv, Hi. rewrite Hsz in Hg.
  unfold _build_vocab_from_pipeline. unfold no_data in Hq. rewrite Hq. simpl.
  unfold TokenizerPipeline.vocab, TokenizerPipeline.id_to_token. rewrite Hv, Hi.
  pose proof (entries_NoDup h strategy td) as He.
  change (TokenizerPipeline.special_token_ids _) with special_entries.
  change (special_entries ++ layout 5 (parts h strategy td)) with (entries h strategy td).
  rewrite (dict_of_NoDup (entries h strategy td)) by done. cbn [from_option id].
  destruct (special_ids h strategy td) as (-> & -> & -> & -> & ->).
  eexists. split; [reflexivity|]. split_and!; try reflexivity. exact Hg.
Qed.
End construct.

(** ** Properties *)

Lemma month_lookup h strategy td :
  dget (entries h strategy td) "MONTH_12" = Some (month_end h strategy).
Proof.
  apply dget_wf_elem; [apply entries_NoDup|].
  rewrite entries_split, elem_of_app, elem_of_cons. by right; left.
Qed.

Lemma card_lookup h strategy td :
  dget (entries h strategy td) "CARD_0" = Some (month_end h strategy).
Proof.
  apply dget_wf_elem; [apply entries_NoDup|].
  rewrite entries_split, elem_of_app, elem_of_cons. right. right.
  unfold entries_r, parts_after. cbn [app]. rewrite layout_cons.
  apply elem_of_app. left. rewrite digits_entries by done.
  apply (list_elem_of_fmap_2 (λ i, (token "CARD" (fmt0d 0 i), i + month_end h strategy))
    (seqZ 0 10) 0).
  apply elem_of_seqZ. lia.
Qed.

Lemma vocab_get_elem h strategy td tok g :
  dget (entries h strategy td) tok = Some g →
  0 ≤ g < total_size h strategy td ∧ g ≠ month_end h strategy - 12.
Proof.
  intros Hg. apply dget_elem in Hg. apply (entries_ids h strategy td g).
  by apply (list_elem_of_fmap_2 snd _ (tok, g)).
Qed.

Lemma entries_words h strategy td tok g :
  dget (entries h strategy td) tok = Some g → wordb tok = true.
Proof.
  intros Hg. apply dget_elem, (list_elem_of_fmap_2 fst) in Hg. cbn [fst] in Hg.
  unfold entries in Hg. rewrite fmap_app, layout_fst in Hg.
  apply elem_of_app in Hg as [Hg|Hg].
  - assert (Forall (λ t, wordb t = true) special_entries.*1) as Hs by by repeat constructor.
    rewrite Forall_forall in Hs. by apply Hs.
  - by destruct (parts_tokens_word _ tok (parts_all_ok h strategy td) Hg).
Qed.

Section properties.
Context `{Cudf}.
Import FinancialTabularTokenizer.
Implicit Types (h : nat) (x : t).

(** A tokenizer as the constructor leaves it. *)
Record built (h : Z) (strategy : string) (td : bool) x : Prop := {
  built_vocab : vocab x = entries h strategy td;
  built_size : vocab_size x = total_size h strategy td;
  built_global :
    TokenizerPipeline.global_vocab_size (FinancialTokenizerPipeline.pipeline (_pipeline x))
      = vocab_size x;
  built_unk : unk_token_id x = 4;
  built_id g tok : dget (id_to_token x) g = Some tok ↔
    dget (vocab x) tok = Some g ∧ tok ≠ "MONTH_12"
}.

Lemma init_built h hier bins temporal strategy td :
  ∃ x, init (Z.of_nat h) hier bins temporal strategy td = Ok x ∧
    built (Z.of_nat h) strategy td x.
Proof.
  destruct (init_entries (Z.of_nat h) hier bins temporal strategy td)
    as (x & Hx & Hv & Hi & Hp & Hu & Hg); [lia|].
  exists x. split; [done|].
  assert (vocab_size x = total_size (Z.of_nat h) strategy td) as Hs.
  { unfold vocab_size. rewrite Hv. apply entries_length. }
  split; [done|done| |done|].
  - rewrite Hg, Hs. unfold total_size, month_end, parts, parts_size.
    rewrite map_app, map_cons, sumZ_app, sumZ_cons.
    change (part_size month_part) with 12. lia.
  - intros g tok. rewrite Hi, Hv. apply entries_id_lookup.
Qed.

(** the constructor succeeds for every hash size, strategy and
    time-delta setting; the vocabulary has exactly the sum of the step sizes
    plus 5 tokens, that is the pipeline's [global_vocab_size], and every id
    it assigns is below it. *)
Theorem financial_vocab_size h hier bins temporal strategy td :
  ∃ x, init (Z.of_nat h) hier bins temporal strategy td = Ok x ∧
    vocab_size x = 4244 + Z.of_nat h + (if bool_decide (strategy = "fixed") then 7 else 10)
                   + (if td then 32 else 0) ∧
    TokenizerPipeline.global_vocab_size (FinancialTokenizerPipeline.pipeline (_pipeline x))
      = vocab_size x ∧
    ∀ tok g, dget (vocab x) tok = Some g → 0 ≤ g < vocab_size x.
Proof.
  destruct (init_built h hier bins temporal strategy td) as (x & Hx & [Hv Hs Hg _ _]).
  exists x. split_and!; [done| |done|].
  - rewrite Hs. unfold total_size, month_end.
    rewrite parts_size_before, parts_size_after by lia. case_bool_decide; destruct td; lia.
  - intros tok g. rewrite Hv, Hs. intros Hl. by apply vocab_get_elem in Hl as [? _].
Qed.

(** the month step numbers its tokens from 1 while a step is given as
    many ids as it has tokens: [MONTH_12] and [CARD_0] share a global id,
    the id reads back as [CARD_0], and the first id of the month range
    belongs to no token. *)
Theorem month_card_collision h hier bins temporal strategy td :
  ∃ x g, init (Z.of_nat h) hier bins temporal strategy td = Ok x ∧
    dget (vocab x) "MONTH_12" = Some g ∧ dget (vocab x) "CARD_0" = Some g ∧
    dget (id_to_token x) g = Some "CARD_0" ∧
    0 ≤ g - 12 < vocab_size x ∧ ∀ tok, dget (vocab x) tok ≠ Some (g - 12).
Proof.
  destruct (init_built h hier bins temporal strategy td) as (x & Hx & [Hv Hs Hg _ Hid]).
  pose proof (card_lookup (Z.of_nat h) strategy td) as Hc.
  exists x, (month_end (Z.of_nat h) strategy). rewrite Hid, Hv, Hs, Hc.
  split_and!; [done|apply month_lookup|done..| | |].
  - pose proof (month_end_ge (Z.of_nat h) strategy). lia.
  - apply vocab_get_elem in Hc as [Hc _]. lia.
  - intros tok Ht. by apply vocab_get_elem in Ht as [_ Ht].
Qed.

#[local] Arguments kept : simpl never.

(** What [decode] prints for a word of the encoded text. *)
Definition canonical x (tok : string) : option string :=
  if bool_decide (tok = "<pad>") then None
  else if bool_decide (tok = "MONTH_12") then Some "CARD_0"
  else if dmem (vocab x) tok then Some tok else Some "<unk>".

Lemma kept_ok tok : tok ≠ "" → tok ≠ "<pad>" → kept (Some tok) = Some tok.
Proof. intros. unfold kept. by rewrite !bool_decide_eq_false_2. Qed.

Lemma decode_word (h : Z) strategy td x tok : built h strategy td x →
  kept (dget (id_to_token x) (default (unk_token_id x) (dget (vocab x) tok)))
  = canonical x tok.
Proof.
  intros [Hv _ _ Hu Hid]. unfold canonical.
  assert (∀ t g, dget (entries h strategy td) t = Some g → t ≠ "MONTH_12" →
    dget (id_to_token x) g = Some t) as Hget.
  { intros t g Ht Hne. apply Hid. by rewrite Hv. }
  pose proof (special_ids h strategy td) as (Hp & _ & _ & _ & Hk).
  rewrite Hv, Hu. unfold dmem. repeat case_bool_decide; subst.
  - rewrite Hp. simpl. by rewrite (Hget "<pad>" 0).
  - rewrite month_lookup. simpl. by rewrite (Hget "CARD_0" _ (card_lookup _ _ _)).
  - destruct (dget (entries h strategy td) tok) as [g|] eqn:Ht; simpl.
    + rewrite (Hget tok g) by done. apply kept_ok; [|done].
      apply entries_words in Ht. by intros ->.
    + by rewrite (Hget "<unk>" 4).
Qed.

(** C2: decoding an encoded text gives the text's words back, joined by
    single spaces, with padding words dropped, unknown words replaced by
    [<unk>] and [MONTH_12] by [CARD_0]. *)
Theorem decode_encode h hier bins temporal strategy td :
  ∃ x, init (Z.of_nat h) hier bins temporal strategy td = Ok x ∧
    ∀ text, decode x (encode x text None)
      = py_join " " (omap (canonical x) (py_split text)).
Proof.
  destruct (init_built h hier bins temporal strategy td) as (x & Hx & Hb).
  exists x. split; [done|]. intros text. unfold decode, encode. f_equal.
  apply list_omap_ext, Forall2_fmap_l, Forall_Forall2_diag, Forall_true.
  intros tok. by eapply decode_word.
Qed.

(** encoding the text a list of ids decodes to gives back exactly the
    ids that belong to a token other than padding, in order. *)
Theorem encode_decode h hier bins temporal strategy td :
  ∃ x, init (Z.of_nat h) hier bins temporal strategy td = Ok x ∧
    ∀ ids, encode x (decode x ids) None
      = filter (λ g, g ≠ 0 ∧ is_Some (dget (id_to_token x) g)) ids.
Proof.
  destruct (init_built h hier bins temporal strategy td) as (x & Hx & [Hv _ _ _ Hid]).
  exists x. split; [done|]. intros ids. unfold encode, decode, tokenize.
  pose proof (special_ids (Z.of_nat h) strategy td) as (Hp & _).
  assert (∀ g tok, dget (id_to_token x) g = Some tok →
    tok ≠ "" ∧ wordb tok = true ∧ dget (vocab x) tok = Some g ∧ (tok = "<pad>" ↔ g = 0))
    as Htok.
  { intros g tok [Ht Hne]%Hid. rewrite Hv in Ht.
    pose proof (entries_words _ _ _ _ _ Ht) as Hw.
    split_and!; [by intros ->|done|by rewrite Hv|]. split; intros ->; [congruence|].
    assert (dget (id_to_token x) 0 = Some tok) as H1 by (apply Hid; by rewrite Hv).
    assert (dget (id_to_token x) 0 = Some "<pad>") as H2 by (apply Hid; by rewrite Hv).
    congruence. }
  rewrite split_join.
  - simpl. induction ids as [|g ids IH]; [done|]. simpl.
    destruct (dget (id_to_token x) g) as [tok|] eqn:Hg; simpl.
    + destruct (Htok g tok Hg) as (Hne & _ & Ht & Hpad). simpl.
      destruct (decide (g = 0)) as [->|Hg0].
      * rewrite filter_cons_False by tauto.
        rewrite (proj2 Hpad) by done. apply IH.
      * rewrite filter_cons_True by by rewrite Hg. rewrite kept_ok by tauto.
        simpl. rewrite Ht. exact (f_equal (cons g) IH).
    + rewrite filter_cons_False by (rewrite Hg; intros [_ []]; done). apply IH.
  - apply Forall_forall. intros tok (g & Hg & Hk)%list_elem_of_omap.
    destruct (dget (id_to_token x) g) as [tok'|] eqn:E; [|done].
    destruct (Htok g tok' E) as (_ & Hw & _). unfold kept in Hk.
    by destruct (_ || _); simplify_eq.
Qed.

(** [encode] with a positive [max_length] returns exactly that many
    ids, without one as many as the text has words, and all of them are ids
    of the vocabulary. *)
Theorem encode_length_bounds h hier bins temporal strategy td :
  ∃ x, init (Z.of_nat h) hier bins temporal strategy td = Ok x ∧
    ∀ text m,
      Z.of_nat (length (encode x text m)) =
        match m with
        | Some (Zpos n) => Zpos n
        | Some (Zneg n) => Z.max 0 (Z.of_nat (length (py_split text)) - Zpos n)
        | _ => Z.of_nat (length (py_split text)) end ∧
      Forall (λ g, 0 ≤ g < vocab_size x) (encode x text m).
Proof.
  destruct (init_built h hier bins temporal strategy td) as (x & Hx & [Hv Hs _ Hu _]).
  exists x. split; [done|]. intros text m. unfold encode. split.
  - rewrite length_map. unfold fit_length, tokenize.
    destruct m as [[|n|n]|]; [done|..|done]; unfold pad_to, py_prefix.
    + rewrite (proj2 (Z.leb_le 0 (Z.pos n))) by lia.
      rewrite length_app, length_replicate, length_take. lia.
    + rewrite (proj2 (Z.leb_gt 0 (Z.neg n))) by lia.
      rewrite length_app, length_replicate, length_take. lia.
  - apply Forall_map, Forall_true. intros tok. rewrite Hv, Hs, Hu.
    destruct (dget (entries (Z.of_nat h) strategy td) tok) as [g|] eqn:E; simpl.
    + by apply vocab_get_elem in E as [? _].
    + pose proof (special_ids (Z.of_nat h) strategy td) as (_ & _ & _ & _ & Hk).
      by apply vocab_get_elem in Hk as [? _].
Qed.
End properties.
