(* ===== verification/BlockStore.v ===== *)
(** * Blocks, their metadata and the object store

    What the Ray Data components assume of a block ([BlockAccessor] over
    pyarrow or pandas tables, third-party data) and of the object store they
    put blocks into: a reference is an index, [free] forgets the object, and
    reading a freed reference raises. *)
From S2P Require Import Prelude.

(** The accessor interface of [data/block.py] on tables: the rows of a block
    are a ghost of the model, used to state what the operations do. *)
Class BlockAccessor (Row B : Type) : Type := {
  blk_rows : B → list Row;
  blk_num_rows : B → Z;
  blk_size_bytes : B → Z;
  (** [slice(start, end)]; [end] may be [None] where metadata is unknown *)
  blk_slice : B → Z → option Z → result B
}.

Class BlockAccessorLaws (Row B : Type) `{!BlockAccessor Row B} : Prop := {
  blk_num_rows_law b : blk_num_rows b = Z.of_nat (length (blk_rows b));
  blk_slice_law b s e :
    0 ≤ s → s ≤ e → e ≤ blk_num_rows b →
    ∃ b', blk_slice b s (Some e) = Ok b' ∧
      blk_rows b' = take (Z.to_nat (e - s)) (drop (Z.to_nat s) (blk_rows b))
}.

(** Tables as lists of rows, for the witnesses. *)
Definition list_blocks (Row : Type) : BlockAccessor Row (list Row) := {|
  blk_rows := id;
  blk_num_rows b := Z.of_nat (length b);
  blk_size_bytes b := 8 * Z.of_nat (length b);
  blk_slice b s e := match e with
    | Some e => Ok (take (Z.to_nat (e - s)) (drop (Z.to_nat s) b))
    | None => Raise TypeError end
|}.

Lemma list_blocks_laws Row : @BlockAccessorLaws Row (list Row) (list_blocks Row).
Proof. split; [done|]. intros b s e _ _ _. simpl. by eexists. Qed.

(** [BlockMetadata]; execution statistics are not modelled. *)
Record BlockMetadata : Type := {
  num_rows : option Z;
  size_bytes : option Z;
  input_files : list string
}.

#[export] Instance BlockMetadata_eq_dec : EqDecision BlockMetadata.
Proof. solve_decision. Defined.

(** ** The object store *)

Abbreviation ObjectRef := nat.
Abbreviation store B := (list (option B)).

Section store.
Context {B : Type}.
Implicit Types (s : store B) (r : ObjectRef).

(** [ray.get(r)] *)
Definition ray_get s r : result B :=
  match s !! r with Some (Some b) => Ok b | _ => Raise ObjectFreedError end.

(** [ray.put(b)], or a value returned by a task: a new reference. *)
Definition ray_put (b : B) s : store B * ObjectRef := (s ++ [Some b], length s).

Fixpoint ray_put_all (bs : list B) s : store B * list ObjectRef :=
  match bs with
  | [] => (s, [])
  | b :: bs =>
      let '(s1, r) := ray_put b s in
      let '(s2, rs) := ray_put_all bs s1 in (s2, r :: rs)
  end.

(** [trace_deallocation(r, loc, free)] *)
Definition trace_deallocation (free : bool) s r : store B :=
  if free then <[r := None]> s else s.

Lemma ray_get_ok s r b : ray_get s r = Ok b ↔ s !! r = Some (Some b).
Proof. unfold ray_get. destruct (s !! r) as [[]|]; naive_solver. Qed.

Lemma ray_get_app s k r b : ray_get s r = Ok b → ray_get (s ++ k) r = Ok b.
Proof. rewrite !ray_get_ok. intros H. by apply lookup_app_l_Some. Qed.

Lemma ray_put_all_spec bs s :
  ray_put_all bs s = (s ++ map Some bs, seq (length s) (length bs)).
Proof.
  revert s. induction bs as [|b bs IH]; intros s; simpl; [by rewrite app_nil_r|].
  rewrite IH, length_app, <-(assoc (++)). simpl. by rewrite Nat.add_1_r.
Qed.

Lemma ray_get_put_all bs s i b :
  bs !! i = Some b → ray_get (s ++ map Some bs) (length s + i)%nat = Ok b.
Proof.
  intros Hi. apply ray_get_ok. rewrite lookup_app_r by lia.
  replace (length s + i - length s)%nat with i by lia.
  by rewrite list_lookup_fmap, Hi.
Qed.

(** Freeing other references leaves a reference readable. *)
Lemma ray_get_dealloc free s r rs b :
  r ∉ rs → ray_get s r = Ok b → ray_get (foldl (trace_deallocation free) s rs) r = Ok b.
Proof.
  revert s. induction rs as [|x rs IH]; intros s Hr Hb; [done|]. simpl.
  apply not_elem_of_cons in Hr as [Hx Hr]. apply IH; [done|].
  unfold trace_deallocation. destruct free; [|done].
  rewrite ray_get_ok in *. by rewrite list_lookup_insert_ne.
Qed.
End store.

(** ** Live references with correct metadata *)
Section live.
Context {Row B : Type} `{!BlockAccessor Row B}.
Implicit Types (s : store B) (it : ObjectRef * BlockMetadata).

(** The rows behind a reference; none for a freed one. *)
Definition ref_rows s (r : ObjectRef) : list Row :=
  match ray_get s r with Ok b => blk_rows b | Raise _ => [] end.

Definition item_rows s it : list Row := ref_rows s it.1.
Definition items_rows s (l : list (ObjectRef * BlockMetadata)) : list Row :=
  concat (map (item_rows s) l).

(** A readable reference whose metadata states its number of rows, and some
    size in bytes (bundles insist on one). *)
Definition live s it : Prop :=
  ∃ b, ray_get s it.1 = Ok b ∧ num_rows it.2 = Some (blk_num_rows b) ∧
    is_Some (size_bytes it.2).

Definition item_size it : Z := default 0 (num_rows it.2).

Context `{!BlockAccessorLaws Row B}.

Lemma live_size s it : live s it → item_size it = Z.of_nat (length (item_rows s it)).
Proof.
  intros (b & Hb & Hn & _). unfold item_size, item_rows, ref_rows.
  rewrite Hb, Hn. simpl. apply blk_num_rows_law.
Qed.

Lemma live_num_rows s it : live s it → num_rows it.2 = Some (item_size it).
Proof. intros (b & _ & Hn & _). unfold item_size. by rewrite Hn. Qed.

Lemma items_size s l : Forall (live s) l →
  sumZ (map item_size l) = Z.of_nat (length (items_rows s l)).
Proof.
  induction 1 as [|it l Hit Hl IH]; [done|]. unfold items_rows in *. simpl.
  rewrite length_app, IH, (live_size s it) by done. lia.
Qed.

Lemma item_size_nonneg s l : Forall (live s) l → Forall (λ n, 0 ≤ n) (map item_size l).
Proof.
  intros Hl. apply Forall_map. eapply Forall_impl; [exact Hl|].
  intros it Hit. simpl. rewrite (live_size s it Hit). lia.
Qed.

Lemma items_rows_app s l k : items_rows s (l ++ k) = items_rows s l ++ items_rows s k.
Proof. unfold items_rows. by rewrite map_app, concat_app. Qed.

Lemma items_rows_concat s (ls : list (list (ObjectRef * BlockMetadata))) :
  items_rows s (concat ls) = concat (map (items_rows s) ls).
Proof.
  induction ls as [|l ls IH]; [done|]. simpl. by rewrite items_rows_app, IH.
Qed.

(** A store in which every readable reference of [l] reads the same. *)
Definition agree s s' (l : list (ObjectRef * BlockMetadata)) : Prop :=
  Forall (λ it, ∀ b, ray_get s it.1 = Ok b → ray_get s' it.1 = Ok b) l.

Lemma agree_live s s' l : agree s s' l → Forall (live s) l → Forall (live s') l.
Proof.
  unfold agree. intros Ha Hl. rewrite Forall_forall in *. intros it Hit.
  destruct (Hl it Hit) as (b & Hb & Hn). exists b. split; [|done]. by apply (Ha it Hit).
Qed.

Lemma agree_rows s s' l : agree s s' l → Forall (live s) l →
  items_rows s' l = items_rows s l.
Proof.
  unfold agree. intros Ha Hl. unfold items_rows. f_equal. apply map_ext_in.
  intros it Hit%list_elem_of_In. rewrite Forall_forall in *.
  destruct (Hl it Hit) as (b & Hb & _). unfold item_rows, ref_rows.
  by rewrite Hb, (Ha it Hit b Hb).
Qed.

Lemma agree_app s k l : agree s (s ++ k) l.
Proof. apply Forall_true. intros it b. apply ray_get_app. Qed.
End live.
