(* ===== verification/RefBundle.v ===== *)
(** * [data/_internal/execution/interfaces/ref_bundle.py]

    Bundles of block references with optional slices: construction checks,
    [num_rows], [slice] and [merge_ref_bundles]. *)
From S2P Require Import Prelude BlockStore.

Record BlockSlice : Type := { start_offset : Z; end_offset : Z }.

Definition slice_num_rows (b : BlockSlice) : Z := end_offset b - start_offset b.

Record BlockEntry : Type := { ref : ObjectRef; metadata : BlockMetadata }.

#[export] Instance BlockSlice_eq_dec : EqDecision BlockSlice.
Proof. solve_decision. Defined.
#[export] Instance BlockEntry_eq_dec : EqDecision BlockEntry.
Proof. solve_decision. Defined.

Module RefBundle.
Section bundle.
(** Schemas are pyarrow or pandas objects. *)
Context {Schema : Type} (schema_empty : Schema → bool).

Record t : Type := {
  blocks : list BlockEntry;
  schema : option Schema;
  owns_blocks : bool;
  slices : list (option BlockSlice);
  output_split_idx : option Z
}.

(** The range check of [__post_init__] on one slice. *)
Definition slice_ok (e : BlockEntry) (sl : option BlockSlice) : bool :=
  match sl with
  | None => true
  | Some b =>
      (0 <=? start_offset b) && (start_offset b <=? end_offset b) &&
      match num_rows (metadata e) with
      | Some n => end_offset b <=? n | None => true end
  end.

(** The constructor with [__post_init__]; its type checks always hold here. *)
Definition mk (bs : list BlockEntry) (sch : option Schema) (owns : bool)
    (sls : option (list (option BlockSlice))) (idx : option Z) : result t :=
  sl ← match sls with
       | None => Ok (replicate (length bs) None)
       | Some sl =>
           _ ← py_assert (Nat.eqb (length bs) (length sl));
           _ ← py_assert (forallb (λ p, slice_ok p.1 p.2) (zip bs sl));
           Ok sl
       end;
  if forallb (λ e, if size_bytes (metadata e) is Some _ then true else false) bs
  then Ok {| blocks := bs; schema := sch; owns_blocks := owns; slices := sl;
             output_split_idx := idx |}
  else Raise ValueError.

Definition block_refs (b : t) : list ObjectRef := map ref (blocks b).

(** The number of rows one entry contributes, if known. *)
Definition entry_rows (e : BlockEntry) (sl : option BlockSlice) : option Z :=
  match sl with
  | None => num_rows (metadata e)
  | Some b => Some (slice_num_rows b)
  end.

(** The loop of [num_rows], with its early return. *)
Fixpoint count_rows (total : Z) (l : list (BlockEntry * option BlockSlice)) : option Z :=
  match l with
  | [] => Some total
  | (e, sl) :: l =>
      match entry_rows e sl with None => None | Some n => count_rows (total + n) l end
  end.

Definition bundle_num_rows (b : t) : option Z := count_rows 0 (zip (blocks b) (slices b)).

(** [destroy_if_owned] on the object store; the byte count is not modelled. *)
Definition destroy_if_owned {B} (eager_free : bool) (b : t) (s : store B) : store B :=
  foldl (trace_deallocation (owns_blocks b && eager_free)) s (block_refs b).

(** ** [slice] *)

(** Full blocks become explicit slices. *)
Definition explicit_slice (e : BlockEntry) (sl : option BlockSlice) : result BlockSlice :=
  match sl with
  | Some b => Ok b
  | None =>
      n ← or_raise AssertionError (num_rows (metadata e));
      Ok {| start_offset := 0; end_offset := n |}
  end.

(** The loop that deals the entries out: (consumed, remaining). *)
Fixpoint deal (rows_to_take : Z) (l : list (BlockEntry * BlockSlice)) :
    list (BlockEntry * BlockSlice) * list (BlockEntry * BlockSlice) :=
  match l with
  | [] => ([], [])
  | (e, sl) :: l =>
      let block_rows := slice_num_rows sl in
      if block_rows <=? rows_to_take then
        let '(c, r) := deal (rows_to_take - block_rows) l in ((e, sl) :: c, r)
      else if rows_to_take =? 0 then
        let '(c, r) := deal 0 l in (c, (e, sl) :: r)
      else
        let consume := {| start_offset := start_offset sl;
                          end_offset := start_offset sl + rows_to_take |} in
        let leftover_rows := block_rows - rows_to_take in
        let '(c, r) := deal 0 l in
        ((e, consume) :: c,
         if 0 <? leftover_rows
         then (e, {| start_offset := end_offset consume; end_offset := end_offset sl |}) :: r
         else r)
  end.

(** [tuple(slices) if slices else None] *)
Definition some_slices (l : list (BlockEntry * BlockSlice)) : option (list (option BlockSlice)) :=
  match l with [] => None | l => Some (map (λ p, Some p.2) l) end.

Definition slice (needed_rows : Z) (b : t) : result (t * t) :=
  _ ← py_assert (0 <? needed_rows);
  n ← or_raise AssertionError (bundle_num_rows b);
  _ ← py_assert (needed_rows <? n);
  block_slices ← result_map (λ p, explicit_slice p.1 p.2) (zip (blocks b) (slices b));
  let '(consumed, remaining) := deal needed_rows (zip (blocks b) block_slices) in
  sliced ← mk consumed.*1 (schema b) false (some_slices consumed) None;
  rest ← mk remaining.*1 (schema b) false (some_slices remaining) None;
  Ok (sliced, rest).

(** ** [merge_ref_bundles] *)

Definition _is_empty_schema (s : option Schema) : bool :=
  match s with None => true | Some s => schema_empty s end.

Definition _take_first_non_empty_schema (l : list (option Schema)) : option Schema :=
  default None (head (filter (λ s, _is_empty_schema s = false) l)).

Definition merge_ref_bundles (bs : list t) : result t :=
  match bs with
  | [] => mk [] None true None None
  | _ =>
      mk (concat (map blocks bs)) (_take_first_non_empty_schema (map schema bs))
        (forallb owns_blocks bs) (Some (concat (map slices bs))) None
  end.
End bundle.
Arguments t : clear implicits.
End RefBundle.
