(* ===== verification/RefBundleFacts.v ===== *)
(** * Theorems on slicing bundles *)
From S2P Require Import Prelude BlockStore RefBundle.
Import RefBundle.

Section facts.
Context {Row B : Type} `{!BlockAccessor Row B} `{!BlockAccessorLaws Row B}.
Context {Schema : Type}.
Implicit Types (s : store B) (b : t Schema) (e : BlockEntry) (sl : BlockSlice).

(** The rows of an entry under a slice, and of a bundle. *)
Definition slice_rows s e sl : list Row :=
  take (Z.to_nat (slice_num_rows sl)) (drop (Z.to_nat (start_offset sl)) (ref_rows s (ref e))).

Definition entry_slice_rows s e (o : option BlockSlice) : list Row :=
  match o with None => ref_rows s (ref e) | Some sl => slice_rows s e sl end.

Definition bundle_rows s b : list Row :=
  concat (zip_with (entry_slice_rows s) (blocks b) (slices b)).

(** An entry that is readable with correct metadata, and a slice in range. *)
Definition entry_live s e : Prop := live s (ref e, metadata e).

Definition slice_in s e sl : Prop :=
  0 ≤ start_offset sl ≤ end_offset sl ∧
  end_offset sl ≤ Z.of_nat (length (ref_rows s (ref e))).

(** The invariant the constructor enforces, on readable blocks. *)
Record bundle_ok s b : Prop := {
  bo_len : length (slices b) = length (blocks b);
  bo_live : Forall (entry_live s) (blocks b);
  bo_slices : Forall (λ p, match p.2 with Some sl => slice_in s p.1 sl | None => True end)
                (zip (blocks b) (slices b))
}.

Lemma entry_live_rows s e : entry_live s e →
  num_rows (metadata e) = Some (Z.of_nat (length (ref_rows s (ref e)))) ∧
  is_Some (size_bytes (metadata e)).
Proof.
  intros (b & Hb & Hn & Hs). simpl in *. unfold ref_rows. rewrite Hb, Hn.
  by rewrite blk_num_rows_law.
Qed.

Lemma slice_rows_length s e sl : slice_in s e sl →
  Z.of_nat (length (slice_rows s e sl)) = slice_num_rows sl.
Proof.
  intros [H1 H2]. unfold slice_rows, slice_num_rows. rewrite length_take, length_drop. lia.
Qed.

(** ** [deal] *)

Definition dealt_rows s (l : list (BlockEntry * BlockSlice)) : list Row :=
  concat (map (λ p, slice_rows s p.1 p.2) l).

Definition dealt_ok s (l : list (BlockEntry * BlockSlice)) : Prop :=
  Forall (λ p, entry_live s p.1 ∧ slice_in s p.1 p.2) l.

Lemma slice_cut s e sl k : slice_in s e sl → 0 ≤ k < slice_num_rows sl →
  let c := {| start_offset := start_offset sl; end_offset := start_offset sl + k |} in
  let r := {| start_offset := start_offset sl + k; end_offset := end_offset sl |} in
  slice_in s e c ∧ slice_in s e r ∧
  slice_rows s e c = take (Z.to_nat k) (slice_rows s e sl) ∧
  slice_rows s e r = drop (Z.to_nat k) (slice_rows s e sl).
Proof.
  intros [H1 H2] Hk c r. unfold slice_num_rows in *. split_and!.
  - split; simpl; lia.
  - split; simpl; lia.
  - unfold slice_rows, slice_num_rows. simpl. rewrite take_take. f_equal. lia.
  - unfold slice_rows, slice_num_rows. simpl. rewrite skipn_firstn_comm, drop_drop.
    f_equal; [lia|]. f_equal. lia.
Qed.

Lemma deal_spec s k l c r : dealt_ok s l → 0 ≤ k → deal k l = (c, r) →
  dealt_ok s c ∧ dealt_ok s r ∧
  dealt_rows s c = take (Z.to_nat k) (dealt_rows s l) ∧
  dealt_rows s r = drop (Z.to_nat k) (dealt_rows s l).
Proof.
  intros Hl. revert k c r. induction Hl as [|[e sl] l [He Hsl] Hl IH]; intros k c r Hk; simpl.
  { intros [= <- <-]. unfold dealt_rows. simpl. rewrite take_nil, drop_nil.
    split_and!; [constructor..|done|done]. }
  cbn [fst snd] in *. pose proof (slice_rows_length s e sl Hsl) as Hlen.
  assert (dealt_rows s ((e, sl) :: l) = slice_rows s e sl ++ dealt_rows s l) as -> by done.
  destruct (Z.leb_spec (slice_num_rows sl) k) as [Hle|Hgt].
  - destruct (deal (k - slice_num_rows sl) l) as [c' r'] eqn:E. intros [= <- <-].
    destruct (IH (k - slice_num_rows sl) c' r' ltac:(lia) E) as (H1 & H2 & H3 & H4). split_and!.
    + by constructor.
    + done.
    + rewrite take_app_ge by lia. change (dealt_rows s ((e, sl) :: c')) with
        (slice_rows s e sl ++ dealt_rows s c'). rewrite H3. do 3 f_equal. lia.
    + rewrite drop_app_ge by lia. rewrite H4. f_equal. lia.
  - destruct (deal 0 l) as [c' r'] eqn:E.
    destruct (IH 0 c' r' ltac:(lia) E) as (H1 & H2 & H3 & H4). simpl in H3, H4.
    rewrite drop_0 in H4. rewrite take_0 in H3.
    destruct (Z.eqb_spec k 0) as [->|Hk0].
    + intros [= <- <-]. rewrite take_0, drop_0. split_and!; [done|by constructor|done|].
      unfold dealt_rows in *. simpl. by rewrite H4.
    + rewrite (proj2 (Z.ltb_lt _ _)) by lia. intros [= <- <-].
      destruct (slice_cut s e sl k Hsl ltac:(lia)) as (C1 & C2 & C3 & C4).
      rewrite take_app_le, drop_app_le by lia. split_and!.
      * by constructor.
      * by constructor.
      * unfold dealt_rows in *. simpl. by rewrite C3, H3, app_nil_r.
      * unfold dealt_rows in *. simpl. by rewrite C4, H4.
Qed.

(** ** Constructing the parts *)

Lemma count_rows_spec s n (bs : list BlockEntry) (ss : list (option BlockSlice)) :
  Forall (entry_live s) bs →
  Forall (λ p, match p.2 with Some sl => slice_in s p.1 sl | None => True end) (zip bs ss) →
  count_rows n (zip bs ss) =
    Some (n + Z.of_nat (length (concat (zip_with (entry_slice_rows s) bs ss)))).
Proof.
  intros Hl. revert n ss. induction Hl as [|e bs He Hl IH]; intros n ss Hs.
  { simpl. f_equal. lia. }
  destruct ss as [|o ss]; [simpl; f_equal; lia|]. simpl in *.
  apply Forall_cons in Hs as [Ho Hs]. destruct (entry_live_rows s e He) as [Hn _].
  assert (entry_rows e o = Some (Z.of_nat (length (entry_slice_rows s e o)))) as ->.
  { destruct o as [sl|]; simpl; [|done]. by rewrite slice_rows_length. }
  rewrite IH by done. rewrite length_app. f_equal. lia.
Qed.

Lemma mk_dealt s (l : list (BlockEntry * BlockSlice)) (sch : option Schema) :
  dealt_ok s l →
  ∃ b, mk l.*1 sch false (some_slices l) None = Ok b ∧ bundle_ok s b ∧
    bundle_rows s b = dealt_rows s l ∧ owns_blocks b = false ∧ schema b = sch.
Proof.
  intros Hl.
  assert (forallb (λ e, if size_bytes (metadata e) is Some _ then true else false) l.*1 = true) as Hsz.
  { induction Hl as [|[e sl] l [He _] Hl IH]; [done|]. simpl.
    destruct (entry_live_rows s e He) as [_ [n ->]]. done. }
  unfold mk. destruct l as [|p l].
  { simpl. eexists. split; [reflexivity|]. split; [by split|]. done. }
  set (L := p :: l) in *. assert (some_slices L = Some (map (λ p, Some p.2) L)) as -> by done.
  rewrite !length_map, Nat.eqb_refl. cbn [py_assert mbind result_bind].
  assert (zip L.*1 (map (λ p, Some p.2) L) = map (λ p, (p.1, Some p.2)) L) as Hz.
  { clear. induction L as [|q L IH]; [done|]. exact (f_equal (cons (q.1, Some q.2)) IH). }
  rewrite Hz.
  assert (forallb (λ p, slice_ok p.1 p.2) (map (λ p, (p.1, Some p.2)) L) = true) as ->.
  { clear -Hl BlockAccessorLaws0. induction Hl as [|[e sl] L [He [H1 H2]] Hl IH]; [done|]. simpl.
    destruct (entry_live_rows s e He) as [-> _]. cbn [fst snd] in *. rewrite IH.
    rewrite !(proj2 (Z.leb_le _ _)) by lia. done. }
  cbn [py_assert mbind result_bind]. rewrite Hsz. eexists. split; [reflexivity|]. split_and!; [|..|done|done].
  - split; cbn [blocks slices].
    + by rewrite !length_map.
    + apply Forall_fmap. eapply Forall_impl; [exact Hl|]. by intros q [? _].
    + rewrite Hz. apply Forall_map. eapply Forall_impl; [exact Hl|]. by intros q [_ ?].
  - unfold bundle_rows, dealt_rows. cbn [blocks slices]. f_equal. clear.
    induction L as [|q L IH]; [done|]. exact (f_equal (cons (slice_rows s q.1 q.2)) IH).
Qed.

(** slicing a well-formed bundle of live blocks at [k] rows,
    [0 < k < num_rows], always succeeds; the two parts hold the first [k] rows
    and the rest, in order, satisfy the constructor's invariant again, report
    those row counts, and do not own their blocks. *)
Theorem slice_spec s b k n :
  bundle_ok s b → bundle_num_rows b = Some n → 0 < k < n →
  ∃ x y, slice k b = Ok (x, y) ∧ bundle_ok s x ∧ bundle_ok s y ∧
    bundle_rows s x = take (Z.to_nat k) (bundle_rows s b) ∧
    bundle_rows s y = drop (Z.to_nat k) (bundle_rows s b) ∧
    bundle_num_rows x = Some k ∧ bundle_num_rows y = Some (n - k) ∧
    owns_blocks x = false ∧ owns_blocks y = false.
Proof.
  intros [Hlen Hlive Hsl] Hn Hk. unfold slice. rewrite Hn.
  cbn [or_raise mbind result_bind].
  rewrite (proj2 (Z.ltb_lt 0 k)), (proj2 (Z.ltb_lt k n)) by lia.
  cbn [py_assert mbind result_bind].
  set (ex := λ p : BlockEntry * option BlockSlice, match p.2 with Some sl => sl | None =>
    {| start_offset := 0; end_offset := Z.of_nat (length (ref_rows s (ref p.1))) |} end).
  assert (∀ p, p ∈ zip (blocks b) (slices b) → entry_live s p.1) as Hlz.
  { intros [e o] Hp%elem_of_zip_l. rewrite Forall_forall in Hlive. by apply Hlive. }
  rewrite (result_map_ok_map _ ex).
  2:{ intros [e o] Hp. destruct o as [sl|]; [done|]. simpl.
      destruct (entry_live_rows s e (Hlz _ Hp)) as [-> _]. done. }
  cbn [mbind result_bind].
  set (l := zip (blocks b) (map ex (zip (blocks b) (slices b)))).
  assert (dealt_ok s l ∧ dealt_rows s l = bundle_rows s b) as [Hok Hrows].
  { unfold l, bundle_rows, dealt_rows, dealt_ok. clear -Hlen Hlive Hsl BlockAccessorLaws0.
    revert Hlen Hsl. generalize (slices b). induction Hlive as [|e bs He Hl IH];
      intros [|o ss] Hlen Hsl; simpl in *; [by split|done..|].
    apply Forall_cons in Hsl as [Ho Hsl]. destruct (IH ss) as [IH1 IH2]; [lia|done|].
    split; [constructor; [split; [done|]|done]|rewrite IH2; f_equal]; destruct o as [sl|]; simpl; try done.
    - split; simpl; lia.
    - unfold slice_rows, slice_num_rows, ex. simpl. rewrite drop_0, take_ge; [done|lia]. }
  destruct (deal k l) as [c r] eqn:E.
  destruct (deal_spec s k l c r Hok ltac:(lia) E) as (H1 & H2 & H3 & H4).
  destruct (mk_dealt s c (schema b) H1) as (x & -> & Hx & Hxr & Hxo & _).
  destruct (mk_dealt s r (schema b) H2) as (y & -> & Hy & Hyr & Hyo & _).
  cbn [mbind result_bind]. rewrite Hrows in H3, H4.
  assert (Z.of_nat (length (bundle_rows s b)) = n) as Hnr.
  { unfold bundle_num_rows in Hn. rewrite (count_rows_spec s) in Hn by done.
    unfold bundle_rows. injection Hn. lia. }
  exists x, y. rewrite Hxr, Hyr. split_and!; try done.
  - destruct Hx as [_ ? ?]. unfold bundle_num_rows. rewrite (count_rows_spec s) by done.
    fold (bundle_rows s x). rewrite Hxr, H3, length_take. f_equal. lia.
  - destruct Hy as [_ ? ?]. unfold bundle_num_rows. rewrite (count_rows_spec s) by done.
    fold (bundle_rows s y). rewrite Hyr, H4, length_drop. f_equal. lia.
Qed.
End facts.

Section witnesses.
#[local] Existing Instance list_blocks.
#[local] Existing Instance list_blocks_laws.

Definition pair_store : store (list Z) := [Some [1; 2; 3]; Some [4; 5]].
Definition pair_bundle : t unit := {|
  blocks := [{| ref := 0%nat; metadata := {| num_rows := Some 3; size_bytes := Some 24; input_files := [] |} |};
             {| ref := 1%nat; metadata := {| num_rows := Some 2; size_bytes := Some 16; input_files := [] |} |}];
  schema := None; owns_blocks := true;
  slices := [Some {| start_offset := 1; end_offset := 3 |}; None]; output_split_idx := None |}.

Lemma slice_spec_witness :
  ∃ x y, slice 1 pair_bundle = Ok (x, y) ∧
    bundle_rows pair_store x = [2] ∧ bundle_rows pair_store y = [3; 4; 5].
Proof.
  destruct (slice_spec pair_store pair_bundle 1 4) as (x & y & H1 & _ & _ & H2 & H3 & _).
  - split; [reflexivity| |].
    + repeat constructor; eexists; repeat split; by eexists.
    + repeat constructor; simpl; lia.
  - reflexivity.
  - lia.
  - exists x, y. split; [exact H1|]. split; [exact H2|exact H3].
Defined.
End witnesses.
