(* ===== verification/Split.v ===== *)
(** * [data/_internal/split.py]: splitting blocks at row indices

    Three phases: per-block split indices, splitting of the blocks that need
    it, and reassembly of the pieces into the requested splits.  The store is
    threaded through the phase that creates and frees blocks. *)
From S2P Require Import Prelude BlockStore.

Section split.
Context {Row B : Type} `{!BlockAccessor Row B}.
Implicit Types (s : store B).

Abbreviation item := (ObjectRef * BlockMetadata)%type.

(** [_get_num_rows] run as a task on a block. *)
Definition _get_num_rows s (r : ObjectRef) : result Z :=
  b ← ray_get s r; Ok (blk_num_rows b).

(** [replace(metadata, num_rows=...)] rebinds a local name only: the fetched
    count is returned and the caller's metadata keeps [None]. *)
Definition _calculate_blocks_rows s (blocks_with_metadata : list item) : result (list Z) :=
  result_map (λ it : item,
    match num_rows it.2 with
    | None => _get_num_rows s it.1
    | Some n => Ok n
    end) blocks_with_metadata.

Definition _generate_valid_indices (num_rows_per_block split_indices : list Z) : list Z :=
  let total_rows := sumZ num_rows_per_block in
  map (λ index, index `min` total_rows) split_indices.

(** The loop over blocks and split indices: [offset] is the global offset of
    the current block, [cur] its indices so far.  When the indices are used
    up, the current block and the blocks after it get their lists. *)
Fixpoint per_block_loop (rows : list Z) (offset : Z) (cur indices : list Z) {struct rows} :
    result (list (list Z)) :=
  match rows with
  | [] => match indices with [] => Ok [] | _ => Raise IndexError end
  | row :: rows =>
      (fix indices_loop (cur indices : list Z) {struct indices} : result (list (list Z)) :=
        match indices with
        | [] => Ok (cur :: map (λ _, []) rows)
        | i :: indices' =>
            if i - offset <=? row then indices_loop (cur ++ [i - offset]) indices'
            else rest ← per_block_loop rows (offset + row) [] indices; Ok (cur :: rest)
        end) cur indices
  end.

Definition _generate_per_block_split_indices (num_rows_per_block split_indices : list Z) :
    result (list (list Z)) :=
  per_block_loop num_rows_per_block 0 [] split_indices.

(** The loop of [_split_single_block]: the piece up to each index. *)
Fixpoint split_pieces (b : B) (files : list string) (prev : Z) (indices : list (option Z)) :
    result (list (B * BlockMetadata)) :=
  match indices with
  | [] => Ok []
  | index :: indices =>
      piece ← blk_slice b prev index;
      let meta := {| num_rows := Some (blk_num_rows piece);
                     size_bytes := Some (blk_size_bytes piece); input_files := files |} in
      rest ← match index, indices with
             | _, [] => Ok []
             | Some i, _ => split_pieces b files i indices
             | None, _ => Raise TypeError
             end;
      Ok ((piece, meta) :: rest)
  end.

Definition _split_single_block (block_id : nat) (b : B) (meta : BlockMetadata)
    (split_indices : list Z) : result ((nat * list BlockMetadata) * list B) :=
  pieces ← split_pieces b (input_files meta) 0 (map Some split_indices ++ [num_rows meta]);
  Ok ((block_id, pieces.*2), pieces.*1).

(** The loop of [_drop_empty_block_split]. *)
Fixpoint drop_loop (num_rows : option Z) (prev : Z) (indices : list Z) : list Z :=
  match indices with
  | [] => []
  | index :: indices =>
      if (index =? 0) || bool_decide (Some index = num_rows) then drop_loop num_rows prev indices
      else if index =? prev then drop_loop num_rows prev indices
      else index :: drop_loop num_rows index indices
  end.

Definition _drop_empty_block_split (block_split_indices : list Z) (num_rows : option Z) : list Z :=
  drop_loop num_rows (-1) block_split_indices.

(** One iteration of [_split_all_blocks]: a block that needs no split is kept,
    another is split by a task whose results are new objects.  The state is
    the store, the results so far and the blocks that were split. *)
Definition split_one (blocks_with_metadata : list item)
    (st : store B * list (list item) * list ObjectRef) (e : nat * list Z) :
    result (store B * list (list item) * list ObjectRef) :=
  let '(s, results, splitted) := st in
  it ← or_raise IndexError (blocks_with_metadata !! e.1);
  match _drop_empty_block_split e.2 (num_rows it.2) with
  | [] => Ok (s, results ++ [[it]], splitted)
  | indices =>
      b ← ray_get s it.1;
      res ← _split_single_block e.1 b it.2 indices;
      let '(s', refs) := ray_put_all res.2 s in
      _ ← py_assert (Nat.eqb (length res.1.2) (length refs));
      Ok (s', results ++ [zip refs res.1.2], splitted ++ [it.1])
  end.

Definition _split_all_blocks s (blocks_with_metadata : list item)
    (per_block_split_indices : list (list Z)) (owned_by_consumer : bool) :
    result (store B * list item) :=
  st ← result_fold (split_one blocks_with_metadata) (s, [], [])
         (imap pair per_block_split_indices);
  let '(s', results, splitted) := st in
  Ok (foldl (trace_deallocation owned_by_consumer) s' splitted, concat results).

(** The loop of [_generate_global_split_results]: a split is closed as soon
    as it is full, and must then be exactly full. *)
Fixpoint global_loop (sizes : list Z) (items cur : list item) (cur_size : Z) {struct sizes} :
    result (list (list item)) :=
  match sizes with
  | [] => Ok []
  | size :: sizes =>
      (fix fill (items cur : list item) (cur_size : Z) {struct items} : result (list (list item)) :=
        if size <=? cur_size then
          _ ← py_assert (cur_size =? size);
          rest ← global_loop sizes items [] 0;
          Ok (cur :: rest)
        else
          match items with
          | [] => Raise StopIteration
          | it :: items =>
              n ← or_raise TypeError (num_rows it.2);
              fill items (cur ++ [it]) (cur_size + n)
          end) items cur cur_size
  end.

(** The lists of references and of metadata of each split. *)
Definition unzip_splits (l : list (list item)) :
    list (list ObjectRef) * list (list BlockMetadata) :=
  (map (λ k, k.*1) l, map (λ k, k.*2) l).

Definition _generate_global_split_results (items : list item) (global_split_sizes : list Z) :
    result (list (list ObjectRef) * list (list BlockMetadata)) :=
  unzip_splits <$> global_loop global_split_sizes items [] 0.

(** [[helper[i] - helper[i - 1] for i in range(1, len(helper))]] *)
Definition split_sizes (valid_indices block_rows : list Z) : list Z :=
  let helper := [0] ++ valid_indices ++ [sumZ block_rows] in
  zip_with (λ b a, b - a) (drop 1 helper) helper.

Definition _split_at_indices s (blocks_with_metadata : list item) (indices : list Z)
    (owned_by_consumer : bool) (block_rows : option (list Z)) :
    result (store B * (list (list ObjectRef) * list (list BlockMetadata))) :=
  match blocks_with_metadata with
  | [] => Ok (s, (replicate (length indices + 1) [], replicate (length indices + 1) []))
  | _ =>
      block_rows ← match block_rows with
                   | None => _calculate_blocks_rows s blocks_with_metadata
                   | Some l => Ok l end;
      let valid_indices := _generate_valid_indices block_rows indices in
      per_block ← _generate_per_block_split_indices block_rows valid_indices;
      st ← _split_all_blocks s blocks_with_metadata per_block owned_by_consumer;
      res ← _generate_global_split_results st.2 (split_sizes valid_indices block_rows);
      Ok (st.1, res)
  end.
End split.
