(* ===== verification/SplitFacts.v ===== *)
(** * Theorems on splitting at indices

    Splitting returns, for every list of nondecreasing indices, exactly the
    rows between consecutive indices, in order; the reassembly never fails,
    and no returned reference is one of the freed input blocks. *)
From S2P Require Import Prelude BlockStore Split.

(** ** Cut points *)

(** [sizes] can be filled from [ns], each from where the last one stopped. *)
Fixpoint cuts (sizes ns : list Z) : Prop :=
  match sizes with
  | [] => True
  | s :: sizes => ∃ k, sumZ (take k ns) = s ∧ cuts sizes (drop k ns)
  end.

(** [h] is the total of a prefix of [ns]. *)
Definition boundary (ns : list Z) (h : Z) : Prop := ∃ k, sumZ (take k ns) = h.

Definition diffs (h : list Z) : list Z := zip_with (λ b a, b - a) (drop 1 h) h.

Abbreviation nonneg := (Forall (λ n : Z, 0 ≤ n)).

Lemma sumZ_take_drop k l : sumZ l = sumZ (take k l) + sumZ (drop k l).
Proof. by rewrite <-(take_drop k l) at 1; rewrite sumZ_app. Qed.

Lemma nonneg_take k l : nonneg l → nonneg (take k l).
Proof. apply Forall_take. Qed.

Lemma nonneg_drop k l : nonneg l → nonneg (drop k l).
Proof. apply Forall_drop. Qed.

Lemma take_plus {A} j k (l : list A) : take (j + k) l = take j l ++ take k (drop j l).
Proof.
  revert l. induction j as [|j IH]; intros [|x l]; simpl; [done..|by rewrite take_nil|].
  by rewrite IH.
Qed.

Lemma sumZ_take_mono j k l : nonneg l → (j ≤ k)%nat → sumZ (take j l) ≤ sumZ (take k l).
Proof.
  intros Hl Hjk. replace k with (j + (k - j))%nat by lia. rewrite take_plus, sumZ_app.
  enough (0 ≤ sumZ (take (k - j) (drop j l))) by lia.
  by apply sumZ_nonneg, nonneg_take, nonneg_drop.
Qed.

(** Elements of total size zero may be left to the next split. *)
Lemma cuts_zero_prefix k sizes ns :
  sumZ (take k ns) = 0 → cuts sizes (drop k ns) → cuts sizes ns.
Proof.
  destruct sizes as [|s sizes]; [done|]. intros H0 (j & Hj & Hc). exists (k + j)%nat.
  split; [rewrite take_plus, sumZ_app; lia|]. by rewrite drop_drop in Hc.
Qed.

(** Nondecreasing boundaries are cut points. *)
Lemma boundaries_cuts ns k0 h0 hs :
  nonneg ns → sumZ (take k0 ns) = h0 → StronglySorted Z.le (h0 :: hs) →
  Forall (boundary ns) hs → cuts (diffs (h0 :: hs)) (drop k0 ns).
Proof.
  intros Hns. revert k0 h0. induction hs as [|h1 hs IH]; intros k0 h0 Hk Hs Hb; [done|].
  apply StronglySorted_inv in Hs as [Hs Hle].
  apply Forall_cons in Hle as [Hle _]. apply Forall_cons in Hb as [(k1 & Hk1) Hb].
  destruct (decide (k0 ≤ k1)%nat) as [Hkk|Hkk].
  - exists (k1 - k0)%nat. rewrite drop_drop.
    replace (k0 + (k1 - k0))%nat with k1 by lia. split; [|by apply (IH k1 h1)].
    replace k1 with (k0 + (k1 - k0))%nat in Hk1 by lia.
    rewrite take_plus, sumZ_app in Hk1. lia.
  - assert (h1 = h0) as ->.
    { pose proof (sumZ_take_mono k1 k0 ns Hns). lia. }
    exists 0%nat. split; [simpl; lia|]. simpl. by apply (IH k0 h0).
Qed.

(** ** Reassembly *)

Section reassembly.
Context {Row B : Type} `{!BlockAccessor Row B} `{!BlockAccessorLaws Row B}.
Implicit Types (items cur g : list (ObjectRef * BlockMetadata)).

Abbreviation sizes_of := (map item_size).

Definition known items : Prop := Forall (λ it, num_rows it.2 = Some (item_size it)) items.

Lemma global_spec sizes items :
  known items → nonneg (sizes_of items) → cuts sizes (sizes_of items) →
  ∃ groups, global_loop sizes items [] 0 = Ok groups ∧
    Forall2 (λ g s, sumZ (sizes_of g) = s) groups sizes ∧
    ∃ rest, items = concat groups ++ rest.
Proof.
  revert items. induction sizes as [|size sizes IH]; intros items Hk Hn Hc.
  { exists []. split; [done|]. split; [constructor|]. by exists items. }
  destruct Hc as (k & Hsum & Hc). simpl.
  assert (∀ items k cur cs, known items → nonneg (sizes_of items) →
    cs + sumZ (take k (sizes_of items)) = size → cs ≤ size →
    cuts sizes (drop k (sizes_of items)) →
    ∃ g items' groups, items = g ++ items' ∧ cs + sumZ (sizes_of g) = size ∧
      (fix fill (items cur : list (ObjectRef * BlockMetadata)) (cur_size : Z) {struct items} :=
        if size <=? cur_size then
          _ ← py_assert (cur_size =? size);
          rest ← global_loop sizes items [] 0;
          Ok (cur :: rest)
        else
          match items with
          | [] => Raise StopIteration
          | it :: items =>
              n ← or_raise TypeError (num_rows it.2);
              fill items (cur ++ [it]) (cur_size + n)
          end) items cur cs = Ok ((cur ++ g) :: groups) ∧
      Forall2 (λ g s, sumZ (sizes_of g) = s) groups sizes ∧
      ∃ rest, items' = concat groups ++ rest) as Hfill.
  { clear items k Hk Hn Hsum Hc. intros items.
    induction items as [|it items IHi]; intros k cur cs Hk Hn Hs Hle Hc;
      destruct (Z.leb_spec size cs) as [Hcs|Hcs].
    1,3: (assert (cs = size) as -> by lia;
      assert (cuts sizes (sizes_of ?[l])) as Hc' by (eapply cuts_zero_prefix; [|exact Hc]; lia);
      destruct (IH _ Hk Hn Hc') as (groups & Hg & Hf & Hr);
      eexists [], _, groups; split; [reflexivity|]; rewrite app_nil_r, Hg;
      split; [simpl; lia|]; split; [|done]; rewrite (Z.eqb_refl size); done).
    - simpl in Hs. rewrite take_nil in Hs. simpl in Hs. lia.
    - apply Forall_cons in Hk as [Hit Hk]. simpl in Hn. apply Forall_cons in Hn as [Hn0 Hn].
      destruct k as [|k]; [simpl in Hs; lia|]. simpl in Hs, Hc.
      destruct (IHi k (cur ++ [it]) (cs + item_size it)) as (g & items' & groups & -> & Hg & Hf & Hr);
        [done|done|lia| |done|].
      { enough (0 ≤ sumZ (take k (sizes_of items))) by lia. by apply sumZ_nonneg, nonneg_take. }
      exists (it :: g), items', groups. split; [done|]. split; [simpl; lia|].
      rewrite Hit. simpl. rewrite Hf, <-(assoc (++)). done. }
  destruct (Hfill items k [] 0) as (g & items' & groups & -> & Hg & Hf & Hg' & rest & ->);
    [done|done|lia| |done|].
  { enough (0 ≤ sumZ (take k (sizes_of items))) by lia. by apply sumZ_nonneg, nonneg_take. }
  exists (g :: groups). rewrite Hf. split; [done|].
  split; [constructor; [lia|done]|]. exists rest. simpl. by rewrite (assoc (++)).
Qed.
End reassembly.

(** ** Per-block indices *)

Lemma sorted_app_inv (l k : list Z) :
  StronglySorted Z.le (l ++ k) → StronglySorted Z.le l ∧ StronglySorted Z.le k ∧
  ∀ x y, x ∈ l → y ∈ k → x ≤ y.
Proof.
  induction l as [|a l IH]; simpl; intros Hs.
  - split_and!; [constructor|done|by intros x y ?%elem_of_nil].
  - apply StronglySorted_inv in Hs as [Hs Ha]. destruct (IH Hs) as (H1 & H2 & H3).
    apply Forall_app in Ha as [Ha1 Ha2]. split_and!; [by constructor|done|].
    intros x y [->|Hx]%elem_of_cons Hy; [|by apply H3].
    rewrite Forall_forall in Ha2. by apply Ha2.
Qed.

Lemma sorted_shift (k : Z) l :
  StronglySorted Z.le l → StronglySorted Z.le (map (λ i, i - k) l).
Proof.
  induction 1 as [|x l Hl IH Hx]; [constructor|]. simpl. constructor; [done|].
  apply Forall_map. eapply Forall_impl; [exact Hx|]. simpl. lia.
Qed.

(** Every global index is found again, relative to its block. *)
Lemma per_block_spec rows off cur indices :
  nonneg rows → (rows = [] → indices = []) →
  StronglySorted Z.le (cur ++ map (λ i, i - off) indices) →
  Forall (λ x, 0 ≤ x ≤ default 0 (head rows)) cur →
  Forall (λ i, off ≤ i ≤ off + sumZ rows) indices →
  ∃ pbs, per_block_loop rows off cur indices = Ok pbs ∧
    Forall2 (λ r pb, StronglySorted Z.le pb ∧ Forall (λ x, 0 ≤ x ≤ r) pb) rows pbs ∧
    ∀ i, i ∈ indices → ∃ k pb x, pbs !! k = Some pb ∧ x ∈ pb ∧ i = off + sumZ (take k rows) + x.
Proof.
  revert off cur indices. induction rows as [|row rows IH]; intros off cur indices Hn He Hs Hc Hi.
  { rewrite He by done. exists []. split_and!; [done|constructor|]. by intros i ?%elem_of_nil. }
  clear He. apply Forall_cons in Hn as [Hr Hn]. simpl in Hc, Hi. revert cur Hs Hc.
  induction indices as [|i indices IHi]; intros cur Hs Hc.
  { exists (cur :: map (λ _, []) rows). split; [done|]. split.
    - constructor; [by apply sorted_app_inv in Hs as [? _]|].
      clear. induction rows; constructor; [|done]. split; constructor.
    - by intros i ?%elem_of_nil. }
  pose proof Hi as Hi0. apply Forall_cons in Hi as [Hi Hi'].
  cbn [per_block_loop]. destruct (Z.leb_spec (i - off) row) as [Hle|Hgt].
  - destruct (IHi Hi' (cur ++ [i - off])) as (pbs & Hp & Hf & Hin).
    { by rewrite <-(assoc (++)). }
    { apply Forall_app. split; [done|]. constructor; [lia|done]. }
    exists pbs. split; [exact Hp|]. split; [done|]. intros j [->|Hj]%elem_of_cons; [|by apply Hin].
    destruct pbs as [|pb pbs]; [by inversion Hf|].
    exists 0%nat, pb, (i - off). split_and!; [done| |simpl; lia].
    assert (∀ idx cur pb pbs, per_block_loop (row :: rows) off cur idx = Ok (pb :: pbs) →
      cur `prefix_of` pb) as Hpre.
    { clear. intros idx. induction idx as [|i idx IH]; intros cur pb pbs; simpl.
      - by intros [= -> _].
      - destruct (i - off <=? row).
        + intros Hp%IH. etrans; [|exact Hp]. by eexists.
        + destruct (per_block_loop rows _ _ _); [|done]. by intros [= -> _]. }
    destruct (Hpre _ _ _ _ Hp) as [e ->]. rewrite !elem_of_app. left. right. by left.
  - destruct (IH (off + row) [] (i :: indices)) as (pbs & Hp & Hf & Hin).
    + done.
    + intros ->. simpl in Hi. lia.
    + apply sorted_app_inv in Hs as (_ & Hs & _).
      assert (StronglySorted Z.le (i :: indices)) as Hsi.
      { clear -Hs. revert Hs. generalize (i :: indices). intros l Hl.
        apply (sorted_shift (- off)) in Hl. rewrite map_map in Hl.
        rewrite (map_ext _ id), map_id in Hl; [done|]. simpl. intros. lia. }
      simpl. by apply (sorted_shift (off + row)) in Hsi.
    + constructor.
    + apply sorted_app_inv in Hs as (_ & Hs & _). simpl in Hs.
      apply StronglySorted_inv in Hs as [_ Hs]. rewrite Forall_map in Hs.
      constructor; [lia|]. rewrite Forall_forall in *. intros j Hj.
      specialize (Hs j Hj). specialize (Hi' j Hj). simpl in *. lia.
    + exists (cur :: pbs). rewrite Hp. split; [done|]. split.
      { constructor; [|done]. by apply sorted_app_inv in Hs as [? _]. }
      intros j Hj. destruct (Hin j Hj) as (k & pb & x & Hk & Hx & ->).
      exists (S k), pb, x. split_and!; [done..|]. simpl. lia.
Qed.

(** ** Pieces of one block *)

(** Dropping the indices that would make an empty piece. *)
Lemma drop_loop_spec n prev l :
  StronglySorted Z.le l → Forall (λ x, 0 ≤ x ≤ n ∧ prev ≤ x) l → prev ≤ n →
  StronglySorted Z.lt (drop_loop (Some n) prev l) ∧
  Forall (λ x, 0 < x < n ∧ prev < x) (drop_loop (Some n) prev l) ∧
  ∀ x, x ∈ l → x = 0 ∨ x = n ∨ x = prev ∨ x ∈ drop_loop (Some n) prev l.
Proof.
  revert prev. induction l as [|x l IH]; intros prev Hs Hb Hp; simpl.
  { split_and!; [constructor..|]. by intros x ?%elem_of_nil. }
  apply StronglySorted_inv in Hs as [Hs Hx]. apply Forall_cons in Hb as [[Hx0 Hxp] Hb].
  destruct (Z.eqb_spec x 0) as [->|Hne]; simpl.
  { destruct (IH prev Hs Hb Hp) as (H1 & H2 & H3). split_and!; [done..|].
    intros y [->|Hy]%elem_of_cons; [by left|by apply H3]. }
  case_bool_decide as Hn.
  { injection Hn as ->. destruct (IH prev Hs Hb Hp) as (H1 & H2 & H3). split_and!; [done..|].
    intros y [->|Hy]%elem_of_cons; [by right; left|by apply H3]. }
  assert (x ≠ n) as Hxn by congruence.
  destruct (Z.eqb_spec x prev) as [->|Hxp'].
  { destruct (IH prev Hs Hb Hp) as (H1 & H2 & H3). split_and!; [done..|].
    intros y [->|Hy]%elem_of_cons; [by right; right; left|by apply H3]. }
  destruct (IH x Hs) as (H1 & H2 & H3); [|lia|].
  { rewrite Forall_forall in *. intros y Hy. specialize (Hb y Hy). specialize (Hx y Hy).
    simpl in *. lia. }
  split_and!.
  - constructor; [done|]. eapply Forall_impl; [exact H2|]. simpl. lia.
  - constructor; [lia|]. eapply Forall_impl; [exact H2|]. simpl. lia.
  - intros y [->|Hy]%elem_of_cons; [right; right; right; by left|].
    destruct (H3 y Hy) as [?|[?|[->|?]]]; [by left|by right; left|..];
      right; right; right; rewrite elem_of_cons; [by left|by right].
Qed.

Section pieces.
Context {Row B : Type} `{!BlockAccessor Row B} `{!BlockAccessorLaws Row B}.

(** Metadata of a piece matches the piece. *)
Definition piece_ok (p : B * BlockMetadata) : Prop :=
  num_rows p.2 = Some (blk_num_rows p.1) ∧ is_Some (size_bytes p.2).

Lemma split_pieces_spec (b : B) files prev l :
  0 ≤ prev → StronglySorted Z.le (prev :: l) → Forall (λ x, x ≤ blk_num_rows b) (prev :: l) →
  ∃ pieces, split_pieces b files prev (map Some l ++ [Some (blk_num_rows b)]) = Ok pieces ∧
    length pieces = S (length l) ∧ Forall piece_ok pieces ∧
    concat (map (λ p, blk_rows p.1) pieces) = drop (Z.to_nat prev) (blk_rows b) ∧
    ∀ x, x ∈ l → ∃ k, prev + sumZ (take k (map (λ p, blk_num_rows p.1) pieces)) = x.
Proof.
  set (n := blk_num_rows b) in *.
  assert (∀ s e b', 0 ≤ s → s ≤ e → blk_rows b' = take (Z.to_nat (e - s)) (drop (Z.to_nat s) (blk_rows b)) →
    e ≤ n → blk_num_rows b' = e - s) as Hlen.
  { intros s e b' Hs He Hb Hn. rewrite blk_num_rows_law, Hb, length_take, length_drop.
    unfold n in Hn. rewrite blk_num_rows_law in Hn. lia. }
  revert prev. induction l as [|x l IH]; intros prev H0 Hs Hb.
  - apply Forall_cons in Hb as [Hb _].
    destruct (blk_slice_law b prev n H0 Hb) as (b' & Hsl & Hr); [unfold n; lia|].
    simpl. rewrite Hsl. simpl. eexists. split; [reflexivity|]. split_and!; [done| | |].
    + repeat constructor. by eexists.
    + simpl. rewrite app_nil_r, Hr. apply take_ge. rewrite length_drop. unfold n.
      rewrite blk_num_rows_law. lia.
    + by intros x ?%elem_of_nil.
  - apply StronglySorted_inv in Hs as [Hs Hle]. apply Forall_cons in Hle as [Hle _].
    apply Forall_cons in Hb as [Hbp Hb]. pose proof Hb as Hb'. apply Forall_cons in Hb' as [Hbx _].
    destruct (blk_slice_law b prev x H0 Hle Hbx) as (b' & Hsl & Hr).
    destruct (IH x) as (pieces & Hp & Hl & Hf & Hc & Hin); [lia|done|done|].
    cbn [map app split_pieces]. rewrite Hsl. simpl.
    destruct (map Some l ++ [Some n]) as [|o os] eqn:E; [by destruct l|].
    rewrite <-E in *. rewrite Hp. simpl.
    eexists. split; [reflexivity|]. split_and!; [simpl; by rewrite Hl| | |].
    + constructor; [|done]. split; [done|by eexists].
    + simpl. rewrite Hc, Hr.
      replace (drop (Z.to_nat x) (blk_rows b))
        with (drop (Z.to_nat (x - prev)) (drop (Z.to_nat prev) (blk_rows b))).
      { apply take_drop. }
      rewrite drop_drop. f_equal. lia.
    + pose proof (Hlen prev x b' H0 Hle Hr Hbx) as Hbl.
      intros y [->|Hy]%elem_of_cons.
      * exists 1%nat. simpl. rewrite Hbl. lia.
      * destruct (Hin y Hy) as [k Hk]. exists (S k). simpl. rewrite Hbl. lia.
Qed.
End pieces.

(** ** All blocks *)
Section blocks.
Context {Row B : Type} `{!BlockAccessor Row B} `{!BlockAccessorLaws Row B}.
Implicit Types (s : store B) (it : ObjectRef * BlockMetadata)
  (its items : list (ObjectRef * BlockMetadata)).

Lemma live_zip s (pieces : list (B * BlockMetadata)) :
  Forall piece_ok pieces →
  let s' := s ++ map Some pieces.*1 in
  let its := zip (seq (length s) (length pieces)) pieces.*2 in
  Forall (live s') its ∧ items_rows s' its = concat (map (λ p, blk_rows p.1) pieces) ∧
  map item_size its = map (λ p, blk_num_rows p.1) pieces.
Proof.
  intros Hp s' its.
  assert (Forall2 (λ it p, ray_get s' it.1 = Ok p.1 ∧ it.2 = p.2) its pieces) as Hz.
  { apply Forall2_same_length_lookup_2.
    { unfold its. rewrite length_zip_with, length_seq, length_map. lia. }
    intros i it p Hi Hpi. unfold its in Hi. apply lookup_zip_with_Some in Hi as (r & m & -> & Hr & Hm).
    apply lookup_seq in Hr as [-> Hlt]. rewrite list_lookup_fmap, Hpi in Hm. simplify_eq/=.
    split; [|done]. apply ray_get_put_all. by rewrite list_lookup_fmap, Hpi. }
  clearbody its s'. clear -Hp Hz. induction Hz as [|it p its pieces [Hg Hm] Hz IH]; [done|].
  apply Forall_cons in Hp as [Hp Hps]. destruct (IH Hps) as (H1 & H2 & H3).
  unfold items_rows in *. simpl. rewrite H2, H3.
  destruct Hp as [Hn Hsz]. rewrite <-Hm in Hn, Hsz.
  split_and!.
  - constructor; [|done]. by exists p.1.
  - unfold item_rows, ref_rows. by rewrite Hg.
  - unfold item_size at 1. by rewrite Hn.
Qed.

(** One block: what [split_one] adds for a live block and sorted indices. *)
Record split_result s s' it its (pb : list Z) (splitted : list ObjectRef) : Prop := {
  sr_ext : ∃ ext, s' = s ++ ext;
  sr_live : Forall (live s') its;
  sr_rows : items_rows s' its = item_rows s it;
  sr_bound : Forall (boundary (map item_size its)) pb;
  sr_refs : (its = [it] ∧ splitted = []) ∨
            (splitted = [it.1] ∧ Forall (λ i, (length s ≤ i.1)%nat) its)
}.

Lemma split_one_spec bwm s res spl k it pb :
  bwm !! k = Some it → live s it →
  StronglySorted Z.le pb → Forall (λ x, 0 ≤ x ≤ item_size it) pb →
  ∃ s' its splitted, split_one bwm (s, res, spl) (k, pb) = Ok (s', res ++ [its], spl ++ splitted) ∧
    split_result s s' it its pb splitted.
Proof.
  intros Hk Hlive Hs Hb. pose proof Hlive as (b & Hg & Hn & _).
  assert (item_size it = blk_num_rows b) as Hsz by (unfold item_size; by rewrite Hn).
  unfold split_one. cbn [fst snd]. rewrite Hk. cbn [or_raise mbind result_bind].
  unfold _drop_empty_block_split. rewrite Hn. rewrite Hsz in Hb.
  destruct (drop_loop_spec (blk_num_rows b) (-1) pb Hs) as (H1 & H2 & H3).
  { eapply Forall_impl; [exact Hb|]. simpl. lia. }
  { rewrite blk_num_rows_law. lia. }
  assert (∀ x ns, x ∈ pb → sumZ ns = blk_num_rows b →
    (x ∈ drop_loop (Some (blk_num_rows b)) (-1) pb → boundary ns x) → boundary ns x) as Hbd.
  { intros x ns Hx Hsum Hin. rewrite Forall_forall in Hb. specialize (Hb x Hx).
    destruct (H3 x Hx) as [->|[->|[->|Hd]]]; [by exists 0%nat| |lia|by apply Hin].
    exists (length ns). by rewrite take_ge. }
  destruct (drop_loop (Some (blk_num_rows b)) (-1) pb) as [|i l] eqn:Ed.
  - exists s, [it], []. rewrite app_nil_r. split; [done|]. split.
    + exists []. by rewrite app_nil_r.
    + by constructor.
    + unfold items_rows. simpl. by rewrite app_nil_r.
    + apply Forall_forall. intros x Hx. apply Hbd; [done|simpl; lia|by intros ?%elem_of_nil].
    + by left.
  - rewrite Hg. cbn [mbind result_bind]. unfold _split_single_block.
    destruct (split_pieces_spec b (input_files it.2) 0 (i :: l)) as (pieces & Hp & Hl & Hok & Hc & Hin).
    { done. }
    { constructor.
      - clear -H1. induction H1 as [|x k Hk IH Hx]; constructor; [done|].
        eapply Forall_impl; [exact Hx|]. simpl. lia.
      - eapply Forall_impl; [exact H2|]. simpl. lia. }
    { constructor; [rewrite blk_num_rows_law; lia|].
      eapply Forall_impl; [exact H2|]. simpl. lia. }
    rewrite Hn, Hp. cbn [mbind result_bind]. cbn [fst snd].
    rewrite ray_put_all_spec, !length_map, length_seq, Nat.eqb_refl. cbn [py_assert mbind result_bind].
    destruct (live_zip s pieces Hok) as (L1 & L2 & L3).
    eexists _, _, [it.1]. split; [reflexivity|]. split; [by eexists|exact L1| | |].
    + rewrite L2, Hc. unfold item_rows, ref_rows. by rewrite Hg.
    + rewrite L3. apply Forall_forall. intros x Hx. apply Hbd; [done| |].
      * rewrite <-L3, (items_size _ _ L1), L2, Hc. simpl. rewrite drop_0.
        by rewrite blk_num_rows_law.
      * intros Hd. destruct (Hin x Hd) as [k' Hk']. exists k'. lia.
    + right. split; [done|]. apply Forall_forall. intros x Hx.
      apply list_elem_of_lookup in Hx as [j Hj].
      apply lookup_zip_with_Some in Hj as (r & m & -> & Hr & _).
      apply lookup_seq in Hr as [-> _]. simpl. lia.
Qed.

(** What the whole of phase 2 leaves, block by block. *)
Record phase2 s s' (todo : list (ObjectRef * BlockMetadata)) (ress : list (list (ObjectRef * BlockMetadata)))
    (pbs : list (list Z)) (splitted : list ObjectRef) : Prop := {
  p2_ext : ∃ ext, s' = s ++ ext;
  p2_live : Forall (live s') (concat ress);
  p2_rows : Forall2 (λ it its, items_rows s' its = item_rows s it) todo ress;
  p2_bound : Forall2 (λ pb its, Forall (boundary (map item_size its)) pb) pbs ress;
  p2_spl : Forall (λ r, r ∈ todo.*1) splitted;
  p2_refs : Forall (λ it, (it.1 ∉ splitted) ∧ (it.1 ∈ todo.*1 ∨ (length s ≤ it.1)%nat)) (concat ress)
}.

Lemma live_app s ext it : live s it → live (s ++ ext) it.
Proof. intros (b & Hb & Hn). exists b. split; [by apply ray_get_app|done]. Qed.

Lemma live_lt s it : live s it → (it.1 < length s)%nat.
Proof. intros (b & Hb & _). apply ray_get_ok in Hb. by eapply lookup_lt_Some. Qed.

Lemma live_rows_app s ext it : live s it → item_rows (s ++ ext) it = item_rows s it.
Proof.
  intros (b & Hb & _). unfold item_rows, ref_rows. by rewrite Hb, (ray_get_app _ _ _ _ Hb).
Qed.

(** One block, and then the others. *)
Lemma phase2_cons s s1 s2 it its pb todo ress pbs spl1 spl2 :
  live s it → Forall (live s) todo → it.1 ∉ todo.*1 →
  split_result s s1 it its pb spl1 → phase2 s1 s2 todo ress pbs spl2 →
  phase2 s s2 (it :: todo) (its :: ress) (pb :: pbs) (spl1 ++ spl2).
Proof.
  intros Hit Hl Hni [[ext1 ->] Hlive1 Hrows1 Hb1 Hrefs1] [[ext2 ->] Hlive2 Hrows2 Hb2 Hspl2 Hrefs2].
  pose proof (live_lt _ _ Hit) as Hlt.
  assert (Forall (λ r, r ∈ it.1 :: todo.*1) spl1) as Hs1.
  { destruct Hrefs1 as [[_ ->]|[-> _]]; repeat constructor. }
  split.
  - exists (ext1 ++ ext2). by rewrite (assoc (++)).
  - simpl. apply Forall_app. split; [|done]. eapply Forall_impl; [exact Hlive1|]. intros. by apply live_app.
  - constructor.
    + rewrite <-Hrows1. apply agree_rows; [apply agree_app|done].
    + clear -Hrows2 Hl. induction Hrows2; constructor; apply Forall_cons in Hl as [? ?];
        [|by auto]. by rewrite live_rows_app in H by done.
  - by constructor.
  - simpl. apply Forall_app. split; [done|]. eapply Forall_impl; [exact Hspl2|].
    intros r Hr. by right.
  - simpl. apply Forall_app. split.
    + apply Forall_forall. intros x Hx. destruct Hrefs1 as [[-> ->]|[-> Hge]].
      * apply list_elem_of_singleton in Hx as ->. split; [|left; by left].
        rewrite Forall_forall in Hspl2. intros Hin. by apply Hni, Hspl2.
      * rewrite Forall_forall in Hge. rewrite Forall_forall in Hspl2. specialize (Hge x Hx). split; [|by right].
        simpl. intros [Heq|Hin]%elem_of_cons; [lia|].
        specialize (Hspl2 _ Hin). apply list_elem_of_fmap in Hspl2 as (y & Hxy & Hy).
        rewrite Forall_forall in Hl. pose proof (live_lt _ _ (Hl y Hy)). lia.
    + eapply Forall_impl; [exact Hrefs2|]. intros x [Hx1 Hx2]. simpl. rewrite length_app in Hx2.
      assert (x.1 ≠ it.1) as Hne.
      { intros Heq. destruct Hx2 as [Hx2|Hx2]; [|lia]. by rewrite Heq in Hx2. }
      split; [|destruct Hx2; [left; by right|right; lia]].
      rewrite elem_of_app. intros [Hin|Hin]; [|done]. destruct Hrefs1 as [[_ ->]|[-> _]]; [by apply elem_of_nil in Hin|].
      by apply list_elem_of_singleton in Hin.
Qed.

Lemma split_blocks_spec bwm done todo pbs s res spl :
  bwm = done ++ todo → Forall (live s) todo → NoDup todo.*1 →
  Forall2 (λ it pb, StronglySorted Z.le pb ∧ Forall (λ x, 0 ≤ x ≤ item_size it) pb) todo pbs →
  ∃ s' ress splitted,
    result_fold (split_one bwm) (s, res, spl) (imap (λ i pb, ((length done + i)%nat, pb)) pbs)
      = Ok (s', res ++ ress, spl ++ splitted) ∧
    phase2 s s' todo ress pbs splitted.
Proof.
  intros Hbwm Hl Hnd Hpb. revert done s res spl Hbwm Hl Hnd.
  induction Hpb as [|it pb todo pbs [Hs Hb] Hpb IH]; intros done s res spl Hbwm Hl Hnd.
  { exists s, [], []. rewrite !app_nil_r. split; [reflexivity|].
    split; try constructor. exists []. by rewrite app_nil_r. }
  apply Forall_cons in Hl as [Hit Hl]. apply NoDup_cons in Hnd as [Hni Hnd].
  destruct (split_one_spec bwm s res spl (length done + 0)%nat it pb) as (s1 & its & spl1 & Hso & Hr).
  { rewrite Nat.add_0_r, Hbwm. by apply list_lookup_middle. }
  { done. } { done. } { done. }
  destruct (IH (done ++ [it]) s1 (res ++ [its]) (spl ++ spl1)) as (s2 & ress & spl2 & Hf & Hp2).
  { by rewrite <-(assoc (++)). }
  { destruct Hr as [[ext1 ->] _ _ _ _]. eapply Forall_impl; [exact Hl|]. intros. by apply live_app. }
  { done. }
  exists s2, (its :: ress), (spl1 ++ spl2). split; [|by apply (phase2_cons s s1)].
  rewrite imap_cons. cbn [result_fold]. rewrite Hso. cbn [mbind result_bind].
  rewrite (imap_ext _ (λ i pb, ((length (done ++ [it]) + i)%nat, pb)) pbs).
  - rewrite Hf. by rewrite <-!(assoc (++)).
  - intros i x _. simpl. rewrite length_app. simpl. f_equal. lia.
Qed.
End blocks.

(** ** The whole of [_split_at_indices] *)

(** Reference definition: the rows between consecutive indices. *)
Fixpoint cut_rows {A} (l : list A) (prev : Z) (indices : list Z) : list (list A) :=
  match indices with
  | [] => [drop (Z.to_nat prev) l]
  | i :: indices =>
      take (Z.to_nat (i - prev)) (drop (Z.to_nat prev) l) :: cut_rows l i indices
  end.

Lemma cut_rows_unique {A} (l : list A) prev indices G rest :
  0 ≤ prev → StronglySorted Z.le (prev :: indices ++ [Z.of_nat (length l)]) →
  Forall2 (λ (g : list A) d, Z.of_nat (length g) = d) G
    (diffs (prev :: indices ++ [Z.of_nat (length l)])) →
  concat G ++ rest = drop (Z.to_nat prev) l → G = cut_rows l prev indices.
Proof.
  revert prev G. induction indices as [|i indices IH]; intros prev G H0 Hs Hf Hc.
  - apply Forall2_cons_inv_r in Hf as (g & G' & Hg & HG & ->).
    apply Forall2_nil_inv_r in HG as ->. simpl in *. f_equal.
    rewrite app_nil_r in Hc. rewrite <-Hc.
    assert (length (g ++ rest) = length (drop (Z.to_nat prev) l)) as Hlen by by rewrite Hc.
    rewrite length_app, length_drop in Hlen.
    destruct rest; [by rewrite app_nil_r|]. simpl in Hlen. lia.
  - apply StronglySorted_inv in Hs as [Hs Hle]. apply Forall_cons in Hle as [Hle _].
    apply Forall2_cons_inv_r in Hf as (g & G' & Hg & HG & ->). simpl in Hc.
    assert (g = take (Z.to_nat (i - prev)) (drop (Z.to_nat prev) l)) as Hg'.
    { rewrite <-Hc, <-(assoc (++)). rewrite take_app_le by lia. rewrite take_ge by lia. done. }
    simpl. f_equal; [exact Hg'|]. apply IH; [lia|done|exact HG|].
    replace (Z.to_nat i) with (Z.to_nat prev + Z.to_nat (i - prev))%nat by lia.
    rewrite <-drop_drop, <-Hc, <-(assoc (++)). rewrite drop_app_ge by lia.
    by replace (Z.to_nat (i - prev) - length g)%nat with 0%nat by lia.
Qed.

Section whole.
Context {Row B : Type} `{!BlockAccessor Row B} `{!BlockAccessorLaws Row B}.
Implicit Types (s : store B) (bwm : list (ObjectRef * BlockMetadata)).

Lemma calculate_rows_live s bwm : Forall (live s) bwm →
  _calculate_blocks_rows s bwm = Ok (map item_size bwm).
Proof.
  intros Hl. unfold _calculate_blocks_rows. apply result_map_ok_map.
  intros it Hit. rewrite Forall_forall in Hl. by rewrite (live_num_rows s it (Hl it Hit)).
Qed.

Lemma valid_sorted total l : 0 ≤ total → StronglySorted Z.le (0 :: l) →
  StronglySorted Z.le (0 :: map (λ i, i `min` total) l ++ [total]).
Proof.
  intros Ht Hs.
  assert (∀ a k, a ≤ total → StronglySorted Z.le (a :: k) →
    StronglySorted Z.le (a :: map (λ i, i `min` total) k ++ [total])) as H'; [|by apply H'].
  clear Hs l. intros a k. revert a. induction k as [|x k IH]; intros a Ha Hs; simpl.
  - repeat constructor. lia.
  - apply StronglySorted_inv in Hs as [Hs Hf]. constructor.
    + assert (StronglySorted Z.le (x `min` total :: k)) as Hs'.
      { apply StronglySorted_inv in Hs as [Hs Hx]. constructor; [done|].
        eapply Forall_impl; [exact Hx|]. simpl. lia. }
      apply IH; [lia|done].
    + apply Forall_cons. apply Forall_cons in Hf as [Hx Hf]. split; [lia|].
      apply Forall_app. split; [|repeat constructor; lia].
      apply Forall_map. eapply Forall_impl; [exact Hf|]. simpl. lia.
Qed.

Lemma sizes_preserved s s' todo ress :
  Forall (live s) todo → Forall (live s') (concat ress) →
  Forall2 (λ it its, items_rows s' its = item_rows s it) todo ress →
  sumZ (map item_size todo) = sumZ (map item_size (concat ress)).
Proof.
  intros Ht Hr Hf. induction Hf as [|it its t r Hit Hf IH]; [done|].
  apply Forall_cons in Ht as [Ht0 Ht]. simpl in Hr. apply Forall_app in Hr as [Hr0 Hr].
  simpl. rewrite map_app, sumZ_app, IH by done. f_equal.
  by rewrite (live_size s it Ht0), (items_size s' its Hr0), Hit.
Qed.

(** Every global index is a boundary of the pieces of all blocks. *)
Lemma phase2_boundaries s s' bwm ress pbs splitted indices :
  Forall (live s) bwm → phase2 s s' bwm ress pbs splitted →
  (∀ i, i ∈ indices → ∃ k pb x, pbs !! k = Some pb ∧ x ∈ pb ∧
    i = sumZ (take k (map item_size bwm)) + x) →
  Forall (boundary (map item_size (concat ress))) indices.
Proof.
  intros Hl Hp Hin. apply Forall_forall. intros i Hi.
  destruct (Hin i Hi) as (k & pb & x & Hk & Hx & ->). clear Hin Hi.
  destruct Hp as [_ Hlive Hrows Hb _ _].
  destruct (Forall2_lookup_l _ _ _ _ _ Hb Hk) as (its & Hits & Hbx).
  rewrite Forall_forall in Hbx. destruct (Hbx x Hx) as [j Hj].
  assert (ress = take k ress ++ its :: drop (S k) ress) as Hr by (symmetry; by apply take_drop_middle).
  exists (length (concat (take k ress)) + (j `min` length its))%nat.
  rewrite Hr at 2. rewrite concat_app, map_app. simpl. rewrite map_app.
  rewrite take_app_add' by by rewrite length_map.
  rewrite take_app_le by (rewrite length_map; lia).
  rewrite sumZ_app. f_equal.
  - rewrite firstn_map. symmetry. apply (sizes_preserved s s').
    + by apply Forall_take.
    + rewrite Hr, concat_app in Hlive. by apply Forall_app in Hlive as [? _].
    + by apply Forall2_take.
  - rewrite <-Hj. destruct (decide (j ≤ length its)%nat).
    + by rewrite Nat.min_l.
    + rewrite Nat.min_r, !take_ge by (rewrite ?length_map; lia). done.
Qed.

Lemma unsplit_rows s' (groups : list (list (ObjectRef * BlockMetadata))) sizes :
  Forall (Forall (live s')) groups →
  Forall2 (λ g n, sumZ (map item_size g) = n) groups sizes →
  Forall2 (λ g n, Z.of_nat (length g) = n) (map (items_rows s') groups) sizes.
Proof.
  intros Hl Hf. apply Forall2_fmap_l. induction Hf as [|g n groups sizes Hg Hf IH]; constructor.
  - apply Forall_cons in Hl as [Hl _]. simpl. by rewrite <-(items_size s' g Hl).
  - apply IH. by apply Forall_cons in Hl as [_ ?].
Qed.

Lemma no_blocks_ok s indices owned br ks : br = None ∨ br = Some [] →
  length ks = length indices → let groups := replicate (length indices + 1) [] in
  _split_at_indices s [] indices owned br = Ok (s, unzip_splits groups) ∧
  map (items_rows s) groups = cut_rows (items_rows s []) 0 ks.
Proof.
  intros Hbr Hk groups. split.
  - destruct Hbr as [->| ->]; unfold groups, unzip_splits; simpl; by rewrite !fmap_replicate.
  - unfold groups. rewrite fmap_replicate. unfold items_rows. simpl. rewrite Nat.add_1_r, <-Hk. clear.
    generalize 0. induction ks as [|i l IH]; intros p; simpl; rewrite drop_nil, ?take_nil; [done|]. f_equal. apply IH.
Qed.

Lemma valid_bounds total indices : 0 ≤ total → StronglySorted Z.le (0 :: indices) →
  let valid := map (λ i, i `min` total) indices in StronglySorted Z.le valid ∧ Forall (λ i, 0 ≤ i ≤ total) valid.
Proof.
  intros Ht Hs valid. pose proof (valid_sorted total indices Ht Hs) as Hv.
  apply StronglySorted_inv in Hv as [Hv1 Hv2]. apply sorted_app_inv in Hv1 as (? & _ & H3).
  split; [done|]. apply Forall_app in Hv2 as [Hv2 _]. rewrite Forall_forall in *.
  intros i Hi. split; [by apply Hv2|]. apply H3; [done|by left].
Qed.

Lemma split_at_indices_ok s bwm indices owned br :
  Forall (live s) bwm → NoDup bwm.*1 → StronglySorted Z.le (0 :: indices) →
  (br = None ∨ br = Some (map item_size bwm)) →
  let total := Z.of_nat (length (items_rows s bwm)) in
  ∃ s' groups,
    _split_at_indices s bwm indices owned br = Ok (s', unzip_splits groups) ∧
    Forall (Forall (live s')) groups ∧
    map (items_rows s') groups
      = cut_rows (items_rows s bwm) 0 (map (λ i, i `min` total) indices) ∧
    ∀ r b, r ∉ bwm.*1 → ray_get s r = Ok b → ray_get s' r = Ok b.
Proof.
  intros Hl Hnd Hs Hbr total. destruct bwm as [|it0 bwm0].
  { destruct (no_blocks_ok s indices owned br (map (λ i, i `min` total) indices) Hbr) as [E1 E2]; [by rewrite length_map|].
    exists s, (replicate (length indices + 1) []). split; [done|]. split; [by apply Forall_replicate|]. done. }
  set (bwm := it0 :: bwm0) in *.
  assert (sumZ (map item_size bwm) = total) as Htot by by apply items_size.
  pose proof (item_size_nonneg s bwm Hl) as Hnn.
  pose proof (valid_sorted total indices ltac:(lia) Hs) as Hv.
  set (valid := map (λ i, i `min` total) indices) in *.
  destruct (valid_bounds total indices ltac:(lia) Hs) as [Hvs Hvb]. fold valid in Hvs, Hvb.
  destruct (per_block_spec (map item_size bwm) 0 [] valid) as (pbs & Hp & Hpf & Hpin); [done|done| |constructor|..].
  { simpl. by apply (sorted_shift 0) in Hvs. }
  { by rewrite Htot. }
  destruct (split_blocks_spec bwm [] bwm pbs s [] []) as (s1 & ress & spl & Hf & Hp2);
    [done|done|done| |].
  { by apply Forall2_fmap_l in Hpf. }
  pose proof Hp2 as [Hext Hlive Hrows _ Hspl Hrefs].
  assert (Forall (boundary (map item_size (concat ress))) (valid ++ [total])) as Hbd.
  { apply Forall_app. split; [by apply (phase2_boundaries s s1 bwm ress pbs spl)|].
    constructor; [|done]. exists (length (map item_size (concat ress))).
    rewrite take_ge by done. by rewrite <-(sizes_preserved s s1 bwm ress). }
  destruct (global_spec (diffs (0 :: valid ++ [total])) (concat ress)) as (groups & Hg & Hgf & rest & Hgr).
  { eapply Forall_impl; [exact Hlive|]. intros it. apply live_num_rows. }
  { by apply (item_size_nonneg s1). }
  { apply (boundaries_cuts _ 0 0); [by apply (item_size_nonneg s1)|done|done|done]. }
  set (s2 := foldl (trace_deallocation owned) s1 spl).
  assert (agree s1 s2 (concat ress)) as Hag.
  { eapply Forall_impl; [exact Hrefs|]. intros it [Hni _] b. by apply ray_get_dealloc. }
  exists s2, groups.
  assert (Forall (Forall (live s2)) groups) as Hlg.
  { pose proof (agree_live _ _ _ Hag Hlive) as Hl2. rewrite Hgr in Hl2.
    apply Forall_app in Hl2 as [Hl2 _]. by apply Forall_concat in Hl2. }
  split_and!; [|done| |].
  - unfold _split_at_indices. fold bwm.
    assert ((match br with None => _calculate_blocks_rows s bwm | Some l => Ok l end)
      = Ok (map item_size bwm)) as ->.
    { destruct Hbr as [->| ->]; [by apply calculate_rows_live|done]. }
    cbn [mbind result_bind]. unfold _generate_valid_indices, split_sizes.
    rewrite Htot. fold valid. unfold _generate_per_block_split_indices. rewrite Hp.
    cbn [mbind result_bind]. unfold _split_all_blocks. simpl in Hf.
    change (imap pair pbs) with (imap (λ i pb, (i, pb)) pbs). rewrite Hf.
    cbn [mbind result_bind]. unfold _generate_global_split_results.
    change (zip_with _ _ _) with (diffs (0 :: valid ++ [total])).
    cbn [fst snd app]. by rewrite Hg.
  - apply (cut_rows_unique _ 0 valid _ (items_rows s2 rest)); [done|exact Hv|..].
    + fold total. by apply unsplit_rows.
    + rewrite <-items_rows_concat, <-items_rows_app, <-Hgr, (agree_rows s1 s2) by done.
      rewrite drop_0, items_rows_concat. clear -Hrows. unfold items_rows at 2.
      induction Hrows as [|it its t r Hit Hr IH]; [done|]. simpl. by rewrite Hit, IH.
  - intros r b Hr Hb. unfold s2. apply ray_get_dealloc.
    + intros Hin. rewrite Forall_forall in Hspl. by apply Hr, Hspl.
    + destruct Hext as [ext ->]. by apply ray_get_app.
Qed.

(** C19: splitting live blocks at nondecreasing indices always succeeds and
    yields exactly the rows between consecutive indices (clamped to the total),
    and every returned reference is readable with correct metadata even when
    the blocks that were split have been freed. *)
Theorem split_at_indices_spec s bwm indices owned :
  Forall (live s) bwm → NoDup bwm.*1 → StronglySorted Z.le (0 :: indices) →
  let total := Z.of_nat (length (items_rows s bwm)) in
  ∃ s' groups,
    _split_at_indices s bwm indices owned None = Ok (s', unzip_splits groups) ∧
    Forall (Forall (live s')) groups ∧
    map (items_rows s') groups
      = cut_rows (items_rows s bwm) 0 (map (λ i, i `min` total) indices).
Proof.
  intros Hl Hnd Hs total.
  destruct (split_at_indices_ok s bwm indices owned None Hl Hnd Hs) as (s' & groups & H1 & H2 & H3 & _);
    [by left|]. by exists s', groups.
Qed.
End whole.

Section witnesses.
#[local] Existing Instance list_blocks.
#[local] Existing Instance list_blocks_laws.

Definition block_meta (n : Z) : BlockMetadata :=
  {| num_rows := Some n; size_bytes := Some (8 * n); input_files := [] |}.

(** Two blocks of three and two rows. *)
Definition two_blocks : store (list Z) := [Some [1; 2; 3]; Some [4; 5]].
Definition two_items : list (ObjectRef * BlockMetadata) :=
  [(0%nat, block_meta 3); (1%nat, block_meta 2)].

Lemma two_items_live : Forall (live two_blocks) two_items.
Proof. repeat constructor; eexists; repeat split; by eexists. Defined.

Lemma split_at_indices_spec_witness :
  ∃ s' groups, _split_at_indices two_blocks two_items [2; 9] true None = Ok (s', unzip_splits groups) ∧
    map (items_rows s') groups = [[1; 2]; [3; 4; 5]; []].
Proof.
  destruct (split_at_indices_spec two_blocks two_items [2; 9] true) as (s' & groups & H1 & _ & H3).
  - exact two_items_live.
  - apply (bool_decide_eq_true_1 _). vm_compute. reflexivity.
  - repeat constructor; lia.
  - exists s', groups. split; [exact H1|exact H3].
Defined.
End witnesses.
