(* ===== verification/Equalize.v ===== *)
(** * [data/_internal/equalize.py]: equal row counts across splits

    Each split keeps the blocks that fit under the common target, the others
    become leftovers that are split in the shape of what is missing.  The
    theorem: every output has exactly the target number of rows, all of them
    rows of the input, and none of the source's assertions fails. *)
From S2P Require Import Prelude BlockStore RefBundle Split SplitFacts.

Section equalize.
Context {Row B : Type} `{!BlockAccessor Row B}.
Context {Schema : Type} (schema_empty : Schema → bool).
Implicit Types (s : store B).

Abbreviation item := (ObjectRef * BlockMetadata)%type.

(** The loop of [_shave_one_split]. *)
Fixpoint shave_loop (target_size shaved_rows : Z) (l : list (item * Z)) :
    list item * Z * list item :=
  match l with
  | [] => ([], target_size - shaved_rows, [])
  | (it, block_rows) :: l =>
      if block_rows + shaved_rows <=? target_size then
        let '(shaved, needed, leftovers) := shave_loop target_size (shaved_rows + block_rows) l in
        (it :: shaved, needed, leftovers)
      else
        let '(shaved, needed, leftovers) := shave_loop target_size shaved_rows l in
        (shaved, needed, it :: leftovers)
  end.

Definition _shave_one_split (split : list item) (num_rows_per_block : list Z) (target_size : Z) :
    list item * Z * list item :=
  shave_loop target_size 0 (zip split num_rows_per_block).

Fixpoint _shave_all_splits (input_splits : list (list item)) (per_split_num_rows : list (list Z))
    (target_size : Z) : list (list item) * list Z * list item :=
  match input_splits, per_split_num_rows with
  | split :: splits, rows :: rowss =>
      let '(shaved, needed, leftovers) := _shave_one_split split rows target_size in
      let '(shaveds, neededs, rest) := _shave_all_splits splits rowss target_size in
      (shaved :: shaveds, needed :: neededs, leftovers ++ rest)
  | _, _ => ([], [], [])
  end.

(** [sum([meta.num_rows for _, meta in split])] *)
Definition sum_num_rows (split : list item) : result Z :=
  ns ← result_map (λ it : item, or_raise TypeError (num_rows it.2)) split;
  Ok (sumZ ns).

(** The running totals that become the split indices. *)
Fixpoint needed_indices (prev : Z) (needed : list Z) : list Z :=
  match needed with
  | [] => []
  | n :: needed => (prev + n) :: needed_indices (prev + n) needed
  end.

Definition _split_leftovers s (leftovers : RefBundle.t Schema) (per_split_needed_rows : list Z) :
    result (store B * list (list item)) :=
  let num_splits := length per_split_needed_rows in
  r ← _split_at_indices s
        (map (λ e, (ref e, metadata e)) (RefBundle.blocks leftovers))
        (needed_indices 0 per_split_needed_rows) (RefBundle.owns_blocks leftovers) None;
  Ok (r.1, take num_splits (zip_with zip r.2.1 r.2.2)).

Definition entries_of (l : list item) : list BlockEntry :=
  map (λ it, {| ref := it.1; metadata := it.2 |}) l.

(** The first validation loop. *)
Definition check_shaved (target : Z) (p : list item * Z) : result unit :=
  n ← sum_num_rows p.1;
  _ ← py_assert (n <=? target);
  py_assert (n + p.2 =? target).

(** Phase 3 on one split: extend it by its part of the leftovers. *)
Definition merge_one (target : Z) (p : list item * list item) : result (list item) :=
  let split := p.1 ++ p.2 in
  n ← sum_num_rows split;
  _ ← py_assert (n =? target);
  Ok split.

Definition _equalize s (per_split_bundles : list (RefBundle.t Schema)) (owned_by_consumer : bool) :
    result (store B * list (RefBundle.t Schema)) :=
  match per_split_bundles with
  | [] => Ok (s, [])
  | _ =>
      let splits := map (λ b, map (λ e, (ref e, metadata e)) (RefBundle.blocks b)) per_split_bundles in
      per_split_num_rows ← result_map (_calculate_blocks_rows s) splits;
      let total_rows := sumZ (map sumZ per_split_num_rows) in
      let target_split_size := total_rows / Z.of_nat (length splits) in
      let '(shaved_splits, needed, leftovers) :=
        _shave_all_splits splits per_split_num_rows target_split_size in
      _ ← result_map (check_shaved target_split_size) (zip shaved_splits needed);
      let schema := RefBundle._take_first_non_empty_schema schema_empty
                      (map RefBundle.schema per_split_bundles) in
      leftover_bundle ← RefBundle.mk (entries_of leftovers) schema owned_by_consumer None None;
      r ← _split_leftovers s leftover_bundle needed;
      merged ← result_map (merge_one target_split_size) (zip shaved_splits r.2);
      let shaved_splits := merged ++ drop (length r.2) shaved_splits in
      bundles ← result_map (λ split, RefBundle.mk (entries_of split) schema owned_by_consumer None None)
                  shaved_splits;
      Ok (r.1, bundles)
  end.
End equalize.
