(* ===== verification/EqualizeFacts.v ===== *)
(** * Theorems on equalizing splits *)
From S2P Require Import Prelude BlockStore RefBundle Split SplitFacts Equalize.

Section facts.
Context {Row B : Type} `{!BlockAccessor Row B} `{!BlockAccessorLaws Row B}.
Context {Schema : Type} (schema_empty : Schema → bool).
Implicit Types (s : store B) (split : list (ObjectRef * BlockMetadata)).

Abbreviation sizes_of := (map item_size).
Abbreviation items := (list (ObjectRef * BlockMetadata)).

(** ** Shaving *)

Lemma shave_spec target split shaved_rows sh need lo :
  shaved_rows ≤ target →
  shave_loop target shaved_rows (zip split (sizes_of split)) = (sh, need, lo) →
  shaved_rows + sumZ (sizes_of sh) + need = target ∧ 0 ≤ need ∧ split ≡ₚ sh ++ lo.
Proof.
  revert shaved_rows sh need lo. induction split as [|it split IH]; intros sr sh need lo Hsr; simpl.
  { intros [= <- <- <-]. simpl. split_and!; [lia|lia|done]. }
  destruct (Z.leb_spec (item_size it + sr) target) as [Hle|Hgt].
  - destruct (shave_loop target (sr + item_size it) _) as [[sh' need'] lo'] eqn:E.
    intros [= <- <- <-]. destruct (IH (sr + item_size it) _ _ _ ltac:(lia) E) as (H1 & H2 & H3).
    split_and!; [simpl; lia|done|]. simpl. by rewrite H3.
  - destruct (shave_loop target sr _) as [[sh' need'] lo'] eqn:E.
    intros [= <- <- <-]. destruct (IH sr _ _ _ Hsr E) as (H1 & H2 & H3).
    split_and!; [done..|]. rewrite H3. by rewrite Permutation_middle.
Qed.

Lemma shave_all_spec target (splits : list items) shs needs los :
  0 ≤ target →
  _shave_all_splits splits (map sizes_of splits) target = (shs, needs, los) →
  length shs = length splits ∧
  Forall2 (λ sh need, sumZ (sizes_of sh) + need = target ∧ 0 ≤ need) shs needs ∧
  concat splits ≡ₚ concat shs ++ los.
Proof.
  intros Ht. revert shs needs los. induction splits as [|split splits IH]; intros shs needs los; simpl.
  { intros [= <- <- <-]. split_and!; [done|constructor|done]. }
  unfold _shave_one_split.
  destruct (shave_loop target 0 _) as [[sh need] lo] eqn:E.
  destruct (_shave_all_splits splits _ target) as [[shs' needs'] los'] eqn:E'.
  intros [= <- <- <-]. destruct (shave_spec _ _ _ _ _ _ Ht E) as (H1 & H2 & H3).
  destruct (IH _ _ _ eq_refl) as (H4 & H5 & H6). split_and!.
  - simpl. by rewrite H4.
  - constructor; [split; lia|done].
  - simpl. rewrite H3, H6. rewrite <-!(assoc (++)). apply Permutation_app_head.
    rewrite !(assoc (++)). apply Permutation_app_tail, Permutation_app_comm.
Qed.

(** ** Splitting the leftovers *)

Lemma needed_sorted prev needs : Forall (λ n, 0 ≤ n) needs →
  StronglySorted Z.le (prev :: needed_indices prev needs).
Proof.
  intros Hn. revert prev. induction Hn as [|n needs Hn Hns IH]; intros prev; simpl;
    [by repeat constructor|].
  specialize (IH (prev + n)). constructor; [done|]. constructor; [lia|].
  apply StronglySorted_inv in IH as [_ IH]. eapply Forall_impl; [exact IH|]. simpl. lia.
Qed.

Lemma needed_le prev needs : Forall (λ n, 0 ≤ n) needs →
  Forall (λ i, i ≤ prev + sumZ needs) (needed_indices prev needs).
Proof.
  intros Hn. revert prev. induction Hn as [|n needs Hn Hns IH]; intros prev; simpl; constructor.
  - pose proof (sumZ_nonneg needs Hns). lia.
  - eapply Forall_impl; [apply IH|]. simpl. lia.
Qed.

Lemma length_needed prev needs : length (needed_indices prev needs) = length needs.
Proof. revert prev. induction needs; intros; simpl; auto. Qed.

(** The first pieces have the needed sizes and are a prefix of the rows. *)
Lemma cut_needed {A} (l : list A) prev needs :
  Forall (λ n, 0 ≤ n) needs → 0 ≤ prev → prev + sumZ needs ≤ Z.of_nat (length l) →
  let pieces := take (length needs) (cut_rows l prev (needed_indices prev needs)) in
  Forall2 (λ (g : list A) n, Z.of_nat (length g) = n) pieces needs ∧
  concat pieces = take (Z.to_nat (sumZ needs)) (drop (Z.to_nat prev) l).
Proof.
  intros Hn. revert prev. induction Hn as [|n needs Hn Hns IH]; intros prev Hp Hl; simpl.
  { split; [constructor|done]. }
  simpl in Hl. pose proof (sumZ_nonneg needs Hns).
  destruct (IH (prev + n)) as [H1 H2]; [lia|lia|].
  replace (prev + n - prev) with n by lia. split.
  - constructor; [rewrite length_take, length_drop; lia|done].
  - rewrite H2. replace (Z.to_nat (n + sumZ needs)) with (Z.to_nat n + Z.to_nat (sumZ needs))%nat by lia.
    rewrite take_plus, drop_drop. do 2 f_equal. f_equal. lia.
Qed.

Lemma zip_unzip {A C} (ls : list (list (A * C))) :
  zip_with zip (map (λ k, k.*1) ls) (map (λ k, k.*2) ls) = ls.
Proof.
  induction ls as [|l ls IH]; [done|]. simpl. rewrite IH. f_equal. apply zip_fst_snd.
Qed.

(** Building a bundle from items with known sizes. *)
Lemma mk_entries (l : items) (sch : option Schema) owned :
  Forall (λ it, is_Some (size_bytes it.2)) l →
  ∃ b, RefBundle.mk (entries_of l) sch owned None None = Ok b ∧
    RefBundle.blocks b = entries_of l ∧ RefBundle.owns_blocks b = owned.
Proof.
  intros Hl. unfold RefBundle.mk. simpl.
  assert (forallb (λ e, if size_bytes (metadata e) is Some _ then true else false) (entries_of l)
    = true) as ->; [|by eexists].
  unfold entries_of. induction Hl as [|it l [n Hn] Hl IH]; [done|]. simpl. by rewrite Hn.
Qed.

Lemma items_of_entries (l : items) :
  map (λ e, (ref e, metadata e)) (entries_of l) = l.
Proof. unfold entries_of. rewrite map_map. rewrite <-(map_id l) at 2. apply map_ext. by intros []. Qed.

Lemma live_sizes s (l : items) : Forall (live s) l → Forall (λ it, is_Some (size_bytes it.2)) l.
Proof. intros Hl. eapply Forall_impl; [exact Hl|]. by intros it (b & _ & _ & Hs). Qed.

Lemma split_leftovers_ok s (bundle : RefBundle.t Schema) (los : items) needs :
  RefBundle.blocks bundle = entries_of los → Forall (live s) los → NoDup los.*1 →
  Forall (λ n, 0 ≤ n) needs → sumZ needs ≤ sumZ (sizes_of los) →
  ∃ s' parts, _split_leftovers s bundle needs = Ok (s', parts) ∧
    Forall (Forall (live s')) parts ∧
    Forall2 (λ g n, sumZ (sizes_of g) = n) parts needs ∧
    items_rows s' (concat parts) = take (Z.to_nat (sumZ needs)) (items_rows s los) ∧
    ∀ r b, r ∉ los.*1 → ray_get s r = Ok b → ray_get s' r = Ok b.
Proof.
  intros Hb Hl Hnd Hn Hsum. unfold _split_leftovers. rewrite Hb, items_of_entries.
  destruct (split_at_indices_ok s los (needed_indices 0 needs) (RefBundle.owns_blocks bundle) None)
    as (s' & groups & Hs & Hlg & Hr & Hframe); [done|done|by apply needed_sorted|by left|].
  rewrite (items_size s los Hl) in Hsum.
  assert (map (λ i, i `min` Z.of_nat (length (items_rows s los))) (needed_indices 0 needs)
    = needed_indices 0 needs) as Hmin.
  { rewrite <-(map_id (needed_indices 0 needs)) at 2. apply map_ext_in.
    intros i Hi%list_elem_of_In. pose proof (needed_le 0 needs Hn) as Hle.
    rewrite Forall_forall in Hle. specialize (Hle i Hi). simpl in Hle. lia. }
  rewrite Hmin in Hr. clear Hmin.
  destruct (cut_needed (items_rows s los) 0 needs Hn) as [Hc1 Hc2]; [done|lia|].
  rewrite <-Hr in Hc1, Hc2.
  exists s', (take (length needs) groups). rewrite Hs. cbn [mbind result_bind fst snd unzip_splits].
  rewrite zip_unzip. split_and!; [done|by apply Forall_take| | |done].
  - rewrite firstn_map in Hc1. apply (Forall2_fmap_l (items_rows s')) in Hc1.
    pose proof (Forall_take _ (length needs) _ Hlg) as Hlt.
    clear -Hc1 Hlt BlockAccessorLaws0. induction Hc1 as [|g n G N Hg HG IH]; constructor;
      apply Forall_cons in Hlt as [? ?]; [by rewrite (items_size s' g)|by apply IH].
  - rewrite items_rows_concat, <-firstn_map, Hc2. by rewrite drop_0.
Qed.

(** ** The whole of [_equalize] *)

Definition bundle_items (b : RefBundle.t Schema) : items :=
  map (λ e, (ref e, metadata e)) (RefBundle.blocks b).

Lemma items_rows_perm s (l k : items) : l ≡ₚ k → items_rows s l ≡ₚ items_rows s k.
Proof.
  unfold items_rows. induction 1 as [|x l k _ IH|x y l|l k m _ IH1 _ IH2]; simpl.
  - done.
  - by rewrite IH.
  - by rewrite !(assoc (++)), (comm (++) (item_rows s y)).
  - by rewrite IH1.
Qed.

Lemma sum_num_rows_live s (l : items) : Forall (live s) l →
  sum_num_rows l = Ok (sumZ (sizes_of l)).
Proof.
  intros Hl. unfold sum_num_rows. rewrite (result_map_ok_map _ item_size); [done|].
  intros it Hit. rewrite Forall_forall in Hl. by rewrite (live_num_rows s it (Hl it Hit)).
Qed.

Lemma check_all s target (shs : list items) needs :
  Forall (Forall (live s)) shs →
  Forall2 (λ sh need, sumZ (sizes_of sh) + need = target ∧ 0 ≤ need) shs needs →
  ∃ us, result_map (check_shaved target) (zip shs needs) = Ok us.
Proof.
  intros Hl Hf. induction Hf as [|sh need shs needs [H1 H2] Hf IH]; [by eexists|].
  apply Forall_cons in Hl as [Hl0 Hl]. destruct (IH Hl) as [us Hus]. simpl.
  unfold_app (check_shaved target (sh, need)). rewrite (sum_num_rows_live s) by done. simpl.
  rewrite (proj2 (Z.leb_le _ _)), (proj2 (Z.eqb_eq _ _)) by lia. simpl. rewrite Hus. by eexists.
Qed.

Lemma merge_all s target (shs parts : list items) needs :
  Forall (Forall (live s)) shs → Forall (Forall (live s)) parts →
  Forall2 (λ sh need, sumZ (sizes_of sh) + need = target ∧ 0 ≤ need) shs needs →
  Forall2 (λ g n, sumZ (sizes_of g) = n) parts needs →
  result_map (merge_one target) (zip shs parts) = Ok (zip_with app shs parts) ∧
  Forall (λ g, Forall (live s) g ∧ sumZ (sizes_of g) = target) (zip_with app shs parts).
Proof.
  intros Hl Hlp Hf. revert parts Hlp.
  induction Hf as [|sh need shs needs [H1 H2] Hf IH]; intros parts Hlp Hp.
  { by apply Forall2_nil_inv_r in Hp as ->. }
  apply Forall2_cons_inv_r in Hp as (p & parts' & Hp & Hps & ->).
  apply Forall_cons in Hl as [Hl0 Hl]. apply Forall_cons in Hlp as [Hlp0 Hlp].
  destruct (IH Hl parts' Hlp Hps) as [IH1 IH2].
  assert (Forall (live s) (sh ++ p)) as Hlive by by apply Forall_app.
  assert (sumZ (sizes_of (sh ++ p)) = target) as Hsum by (rewrite map_app, sumZ_app; lia).
  simpl. unfold_app (merge_one target (sh, p)). cbn [fst snd].
  rewrite (sum_num_rows_live s), Hsum by done. simpl. rewrite Z.eqb_refl. simpl.
  rewrite IH1. split; [done|by constructor].
Qed.

Lemma mk_all s (splits : list items) (sch : option Schema) owned :
  Forall (Forall (live s)) splits →
  ∃ outs, result_map (λ split, RefBundle.mk (entries_of split) sch owned None None) splits = Ok outs ∧
    Forall2 (λ b g, bundle_items b = g ∧ RefBundle.owns_blocks b = owned) outs splits.
Proof.
  induction 1 as [|g splits Hg _ (outs & Ho & Hf)]; [by exists []|].
  destruct (mk_entries g sch owned) as (b & Hb & Hbl & How); [by eapply live_sizes|].
  exists (b :: outs). simpl. rewrite Hb. simpl. rewrite Ho. split; [done|].
  constructor; [|done]. unfold bundle_items. by rewrite Hbl, items_of_entries.
Qed.

Lemma zip_app_rows s (shs parts : list items) : length shs = length parts →
  items_rows s (concat (zip_with app shs parts)) ≡ₚ
    items_rows s (concat shs) ++ items_rows s (concat parts).
Proof.
  intros Hlen. rewrite <-items_rows_app. apply items_rows_perm.
  revert parts Hlen. induction shs as [|sh shs IH]; intros [|p parts] Hlen; [done..|].
  simpl in *. rewrite IH by lia. rewrite <-!(assoc (++)). apply Permutation_app_head.
  rewrite !(assoc (++)). apply Permutation_app_tail, Permutation_app_comm.
Qed.

Lemma equalize_sizes (shs : list items) needs los target total n :
  Forall2 (λ sh need, sumZ (sizes_of sh) + need = target ∧ 0 ≤ need) shs needs →
  length shs = n → (0 < n)%nat → target = total / Z.of_nat n →
  sumZ (sizes_of (concat shs)) + sumZ (sizes_of los) = total →
  Forall (λ x, 0 ≤ x) needs ∧ sumZ needs ≤ sumZ (sizes_of los) ∧
  sumZ (sizes_of los) - sumZ needs = total mod Z.of_nat n.
Proof.
  intros Hf Hlen Hn Ht Htot.
  assert (sumZ (sizes_of (concat shs)) + sumZ needs = Z.of_nat n * target) as Hsum.
  { rewrite <-Hlen. clear -Hf. induction Hf as [|sh need shs needs [H1 H2] Hf IH]; [done|].
    simpl. rewrite map_app, sumZ_app. lia. }
  assert (Forall (λ x, 0 ≤ x) needs) as Hneeds.
  { clear -Hf. induction Hf as [|sh need shs needs [H1 H2] Hf IH]; by constructor. }
  pose proof (Z.div_mod total (Z.of_nat n) ltac:(lia)) as Hdm. rewrite <-Ht in Hdm.
  pose proof (Z.mod_pos_bound total (Z.of_nat n) ltac:(lia)). split_and!; [done|lia|lia].
Qed.

(** What the shaved splits and the leftovers share out. *)
Lemma shaved_parts s (input : items) (shs : list items) (los : items) : input ≡ₚ concat shs ++ los →
  Forall (live s) input → NoDup input.*1 →
  Forall (Forall (live s)) shs ∧ Forall (live s) los ∧ NoDup los.*1 ∧
  (∀ it, it ∈ concat shs → it.1 ∉ los.*1) ∧
  sumZ (sizes_of (concat shs)) + sumZ (sizes_of los) = Z.of_nat (length (items_rows s input)).
Proof.
  intros Hperm Hl Hnd. rewrite Hperm in Hl, Hnd. apply Forall_app in Hl as [Hlsh Hllo].
  rewrite fmap_app in Hnd. apply NoDup_app in Hnd as (_ & Hdisj & Hndlo). split_and!; try done.
  - by apply Forall_concat.
  - intros it Hit. apply Hdisj. by apply (list_elem_of_fmap_2 fst).
  - rewrite (items_size s), (items_size s los) by done.
    rewrite (items_rows_perm s _ _ Hperm), items_rows_app, length_app. lia.
Qed.

(** The rows of the output bundles are those of the merged splits. *)
Lemma outputs_rows s target (outs : list (RefBundle.t Schema)) gs owned :
  Forall2 (λ b g, bundle_items b = g ∧ RefBundle.owns_blocks b = owned) outs gs →
  Forall (λ g, Forall (live s) g ∧ sumZ (sizes_of g) = target) gs →
  map (λ b, items_rows s (bundle_items b)) outs = map (items_rows s) gs ∧
  Forall (λ b, Forall (live s) (bundle_items b) ∧
    Z.of_nat (length (items_rows s (bundle_items b))) = target) outs.
Proof.
  induction 1 as [|b g outs gs [Hb _] _ IH]; intros Hg; [by split|].
  apply Forall_cons in Hg as [[Hg1 Hg2] Hg]. destruct (IH Hg) as [IH1 IH2]. simpl. rewrite Hb, IH1.
  split; [done|]. constructor; [|done]. rewrite Hb. split; [done|]. by rewrite <-(items_size s).
Qed.

(** C13: equalizing live bundles never fails: every output bundle holds
    exactly [total // n] rows in readable blocks, together they are rows of
    the input, each used at most once, and fewer than [n] rows
    ([total % n] of them) are dropped. *)
Theorem equalize_spec s (bundles : list (RefBundle.t Schema)) owned :
  let input := concat (map bundle_items bundles) in
  Forall (live s) input → NoDup input.*1 →
  let total := Z.of_nat (length (items_rows s input)) in
  let n := Z.of_nat (length bundles) in
  ∃ s' outs dropped, _equalize schema_empty s bundles owned = Ok (s', outs) ∧
    length outs = length bundles ∧
    Forall (λ b, Forall (live s') (bundle_items b) ∧
      Z.of_nat (length (items_rows s' (bundle_items b))) = total / n) outs ∧
    concat (map (λ b, items_rows s' (bundle_items b)) outs) ++ dropped ≡ₚ items_rows s input ∧
    Z.of_nat (length dropped) = total mod n.
Proof.
  intros input Hl Hnd total n. destruct bundles as [|b0 bundles0].
  { exists s, [], []. by repeat split. }
  set (bundles := b0 :: bundles0) in *. unfold _equalize. fold bundles.
  change (map (λ b, map (λ e, (ref e, metadata e)) (RefBundle.blocks b)) bundles)
    with (map bundle_items bundles).
  set (splits := map bundle_items bundles) in *.
  assert (length splits = length bundles) as Hlen by (unfold splits; by rewrite length_map).
  rewrite (result_map_ok_map _ sizes_of).
  2:{ intros g Hg. apply calculate_rows_live. unfold input in Hl.
      by eapply Forall_concat, Forall_forall in Hl. }
  cbn [mbind result_bind].
  assert (sumZ (map sumZ (map sizes_of splits)) = total) as ->.
  { rewrite <-sumZ_concat, <-concat_map. by apply items_size. }
  rewrite Hlen. change (Z.of_nat (length bundles)) with n.
  destruct (_shave_all_splits splits (map sizes_of splits) (total / n)) as [[shs needs] los] eqn:E.
  assert (0 ≤ total / n) as Htn by (apply Z.div_pos; unfold n, bundles; simpl; lia).
  destruct (shave_all_spec _ _ _ _ _ Htn E) as (Hlsh & Hneed & Hperm). fold input in Hperm.
  destruct (shaved_parts s input shs los Hperm Hl Hnd) as (Hlall & Hllo & Hndlo & Hdisj & Htot).
  destruct (equalize_sizes shs needs los (total / n) total (length bundles)) as (Hn0 & Hle & Hmod);
    [done|by rewrite Hlsh|unfold bundles; simpl; lia|done|done|].
  destruct (check_all s _ _ _ Hlall Hneed) as [us ->]. cbn [mbind result_bind].
  destruct (mk_entries los (RefBundle._take_first_non_empty_schema schema_empty
    (map RefBundle.schema bundles)) owned) as (lb & -> & Hlb & _); [by eapply live_sizes|].
  cbn [mbind result_bind].
  destruct (split_leftovers_ok s lb los needs Hlb Hllo Hndlo Hn0 Hle)
    as (s' & parts & -> & Hlp & Hpn & Hprows & Hframe). cbn [mbind result_bind fst snd].
  assert (agree s s' (concat shs)) as Hag.
  { apply Forall_forall. intros it Hit b. by apply Hframe, Hdisj. }
  assert (Forall (Forall (live s')) shs) as Hlsh2.
  { apply Forall_concat. eapply agree_live; [exact Hag|]. by apply Forall_concat. }
  destruct (merge_all s' _ shs parts needs Hlsh2 Hlp Hneed Hpn) as [-> Hmerged].
  assert (length parts = length shs) as Hlpp.
  { by rewrite (Forall2_length _ _ _ Hpn), <-(Forall2_length _ _ _ Hneed). }
  cbn [mbind result_bind]. rewrite drop_ge, app_nil_r by lia.
  destruct (mk_all s' (zip_with app shs parts) (RefBundle._take_first_non_empty_schema schema_empty
    (map RefBundle.schema bundles)) owned) as (outs & -> & Houts).
  { eapply Forall_impl; [exact Hmerged|]. by intros g [? _]. }
  destruct (outputs_rows s' (total / n) _ _ _ Houts Hmerged) as [Hrows Hsizes].
  exists s', outs, (drop (Z.to_nat (sumZ needs)) (items_rows s los)). split_and!.
  - done.
  - rewrite (Forall2_length _ _ _ Houts), length_zip_with. lia.
  - done.
  - rewrite Hrows.
    rewrite <-items_rows_concat, zip_app_rows by done.
    rewrite Hprows, (agree_rows s s') by (done || by apply Forall_concat).
    rewrite <-(assoc (++)), take_drop, <-items_rows_app. symmetry. by apply items_rows_perm.
  - rewrite length_drop. rewrite (items_size s los Hllo) in Hmod, Hle.
    pose proof (sumZ_nonneg needs Hn0). fold n in Hmod. lia.
Qed.
End facts.

(** ** Unknown row counts *)

(** a block whose metadata lacks the row count makes [_equalize] raise a
    [TypeError], although the count was fetched: [_calculate_blocks_rows] does
    not store it in the metadata the later phases read. *)
Theorem equalize_unknown_rows {Row B Schema : Type} `{!BlockAccessor Row B}
    (schema_empty : Schema → bool) (s : store B) (r : ObjectRef) (b : B)
    (bundle : RefBundle.t Schema) (meta : BlockMetadata) (owned : bool) :
  ray_get s r = Ok b → num_rows meta = None →
  RefBundle.blocks bundle = [{| ref := r; metadata := meta |}] →
  _calculate_blocks_rows s [(r, meta)] = Ok [blk_num_rows b] ∧
  _equalize schema_empty s [bundle] owned = Raise TypeError.
Proof.
  intros Hb Hm Hbl.
  assert (_calculate_blocks_rows s [(r, meta)] = Ok [blk_num_rows b]) as Hc.
  { unfold _calculate_blocks_rows, _get_num_rows. simpl. by rewrite Hm, Hb. }
  split; [done|]. unfold _equalize. cbn [map length]. rewrite Hbl. cbn [map ref metadata].
  cbn [result_map]. rewrite Hc. cbn [mbind result_bind]. simpl.
  rewrite !Z.add_0_r, Z.div_1_r. unfold _shave_one_split. simpl.
  rewrite Z.add_0_r, Z.leb_refl. simpl. unfold check_shaved, sum_num_rows. simpl.
  by rewrite Hm.
Qed.

Section witnesses.
#[local] Existing Instance list_blocks.
#[local] Existing Instance list_blocks_laws.

Definition one_entry (r : ObjectRef) (m : BlockMetadata) : RefBundle.t unit := {|
  RefBundle.blocks := [{| ref := r; metadata := m |}]; RefBundle.schema := None;
  RefBundle.owns_blocks := true; RefBundle.slices := [None];
  RefBundle.output_split_idx := None |}.

(** Bundles of five, one and one row: the target is two rows each. *)
Definition uneven_store : store (list Z) := [Some [1; 2; 3; 4; 5]; Some [6]; Some [7]].
Definition uneven : list (RefBundle.t unit) :=
  [one_entry 0 (block_meta 5); one_entry 1 (block_meta 1); one_entry 2 (block_meta 1)].

Lemma equalize_spec_witness :
  ∃ s' outs, _equalize (λ _, false) uneven_store uneven true = Ok (s', outs) ∧
    Forall (λ b, Z.of_nat (length (items_rows s' (bundle_items b))) = 2) outs.
Proof.
  destruct (equalize_spec (λ _, false) uneven_store uneven true)
    as (s' & outs & dropped & H1 & _ & H2 & _).
  - repeat constructor; eexists; repeat split; by eexists.
  - apply (bool_decide_eq_true_1 _). vm_compute. reflexivity.
  - exists s', outs. split; [exact H1|]. eapply Forall_impl; [exact H2|].
    intros b [_ Hb]. exact Hb.
Defined.

Lemma equalize_unknown_rows_witness :
  _equalize (λ _, false) uneven_store
    [one_entry 0 {| num_rows := None; size_bytes := Some 8; input_files := [] |}] true
  = Raise TypeError.
Proof.
  apply (equalize_unknown_rows (λ _, false) uneven_store 0%nat [1; 2; 3; 4; 5]
    (one_entry 0 {| num_rows := None; size_bytes := Some 8; input_files := [] |})
    {| num_rows := None; size_bytes := Some 8; input_files := [] |} true); reflexivity.
Defined.
End witnesses.
