(* ===== verification/Batcher.v ===== *)
(** * [data/_internal/batcher.py] and the batching iterator

    [BatcherInterface] is a class of operations; [Batcher] chunks blocks in
    order, [ShufflingBatcher] yields random rows of a local buffer, and
    [_BatchingIterator] of [block_batching/util.py] drives either one through
    the interface. *)
From S2P Require Import Prelude BlockStore.

(** Building and permuting tables (pyarrow and pandas), and NumPy's random
    generator. *)
Class BlockBuilding (Row B : Type) : Type := {
  (** an empty table, and the table made of some tables, in order *)
  blk_empty : B;
  blk_concat : list B → B;
  (** [will_build_yield_copy] of a builder holding these tables *)
  blk_concat_copies : list B → bool;
  (** [slice(0, num_rows, copy=True)] and [try_combine_chunked_columns] *)
  blk_copy : B → B;
  blk_combine : B → B;
  (** [take(indices)] *)
  blk_take : B → list Z → B;
  rng : Type;
  default_rng : option Z → rng;
  rng_permutation : Z → rng → list Z * rng
}.

(** The rows at the given positions. *)
Definition rows_at {Row} (l : list Row) (idx : list Z) : list Row :=
  omap (λ i, l !! Z.to_nat i) idx.

Class BlockBuildingLaws (Row B : Type) `{!BlockAccessor Row B, !BlockBuilding Row B} : Prop := {
  blk_concat_law bs : blk_rows (blk_concat bs) = concat (map blk_rows bs);
  blk_copy_law b : blk_rows (blk_copy b) = blk_rows b;
  blk_combine_law b : blk_rows (blk_combine b) = blk_rows b;
  blk_take_law b idx : Forall (λ i, 0 ≤ i < blk_num_rows b) idx →
    blk_rows (blk_take b idx) = rows_at (blk_rows b) idx;
  rng_permutation_law n g : (rng_permutation n g).1 ≡ₚ seqZ 0 n
}.

(** ** [DelegatingBlockBuilder], for blocks of one type *)
Module DelegatingBlockBuilder.
Section builder.
Context {Row B : Type} `{!BlockAccessor Row B, !BlockBuilding Row B}.

Record t : Type := { parts : list B; empty_block : option B }.

Definition init : t := {| parts := []; empty_block := None |}.

Definition add_block (b : B) (x : t) : t :=
  if blk_num_rows b =? 0 then {| parts := parts x; empty_block := Some b |}
  else {| parts := parts x ++ [b]; empty_block := empty_block x |}.

Definition will_build_yield_copy (x : t) : bool :=
  match parts x with [] => true | ps => blk_concat_copies ps end.

Definition build (x : t) : B :=
  match parts x with
  | [] => match empty_block x with Some b => blk_concat [b] | None => blk_empty end
  | ps => blk_concat ps
  end.

Definition num_rows (x : t) : Z := sumZ (map blk_num_rows (parts x)).
End builder.
Arguments t : clear implicits.
End DelegatingBlockBuilder.

(** ** [BatcherInterface] *)
Class BatcherInterface (B St : Type) : Type := {
  bat_add : B → St → St;
  bat_done_adding : St → St;
  bat_has_batch : St → bool;
  bat_has_any : St → bool;
  bat_next_batch : St → result (B * St)
}.

Module Batcher.
Section batcher.
Context {Row B : Type} `{!BlockAccessor Row B, !BlockBuilding Row B}.

Record t : Type := {
  _batch_size : option Z;
  _buffer : list B;
  _buffer_size : Z;
  _done_adding : bool;
  _ensure_copy : bool
}.

Definition init (batch_size : option Z) (ensure_copy : bool) : t := {|
  _batch_size := batch_size; _buffer := []; _buffer_size := 0;
  _done_adding := false; _ensure_copy := ensure_copy |}.

Definition set_buffer (bs : list B) (n : Z) (x : t) : t := {|
  _batch_size := _batch_size x; _buffer := bs; _buffer_size := n;
  _done_adding := _done_adding x; _ensure_copy := _ensure_copy x |}.

Definition add (b : B) (x : t) : t :=
  if 0 <? blk_num_rows b
  then set_buffer (_buffer x ++ [b]) (_buffer_size x + blk_num_rows b) x
  else x.

Definition done_adding (x : t) : t := {|
  _batch_size := _batch_size x; _buffer := _buffer x; _buffer_size := _buffer_size x;
  _done_adding := true; _ensure_copy := _ensure_copy x |}.

Definition has_any (x : t) : bool := 0 <? _buffer_size x.

Definition has_batch (x : t) : bool :=
  has_any x &&
  match _batch_size x with None => true | Some n => n <=? _buffer_size x end.

(** The loop of [next_batch] over the buffer: the builder and the leftovers. *)
Fixpoint fill (needed : Z) (buffer : list B) (output : DelegatingBlockBuilder.t B) :
    result (DelegatingBlockBuilder.t B * list B) :=
  match buffer with
  | [] => Ok (output, [])
  | b :: buffer =>
      if needed <=? 0 then
        r ← fill needed buffer output; Ok (r.1, b :: r.2)
      else if blk_num_rows b <=? needed then
        fill (needed - blk_num_rows b) buffer (DelegatingBlockBuilder.add_block b output)
      else
        let c := blk_combine b in
        head ← blk_slice c 0 (Some needed);
        tail ← blk_slice c needed (Some (blk_num_rows c));
        r ← fill 0 buffer (DelegatingBlockBuilder.add_block head output);
        Ok (r.1, tail :: r.2)
  end.

Definition next_batch (x : t) : result (B * t) :=
  _ ← py_assert (has_batch x || (_done_adding x && has_any x));
  match _batch_size x with
  | None =>
      match _buffer x with
      | [b] => Ok (if _ensure_copy x then blk_copy b else b, set_buffer [] 0 x)
      | _ => Raise AssertionError
      end
  | Some n =>
      r ← fill n (_buffer x) DelegatingBlockBuilder.init;
      let needs_copy := _ensure_copy x && negb (DelegatingBlockBuilder.will_build_yield_copy r.1) in
      let batch := DelegatingBlockBuilder.build r.1 in
      Ok (if needs_copy then blk_copy batch else batch,
          set_buffer r.2 (_buffer_size x - n) x)
  end.

#[global] Instance interface : BatcherInterface B t := {|
  bat_add := add; bat_done_adding := done_adding; bat_has_batch := has_batch;
  bat_has_any := has_any; bat_next_batch := next_batch |}.
End batcher.
Arguments t : clear implicits.
End Batcher.

Module ShufflingBatcher.
Section batcher.
Context {Row B : Type} `{!BlockAccessor Row B, !BlockBuilding Row B}.

(** [_shuffle_buffer] and [_shuffled_indices] are set together. *)
Record t : Type := {
  _batch_size : Z;
  _rng : rng;
  _shuffle_buffer_min_size : Z;
  _min_rows_to_yield_batch : Z;
  _min_rows_to_trigger_compaction : Z;
  _builder : DelegatingBlockBuilder.t B;
  _shuffle : option (B * list Z);
  _batch_head : Z;
  _done_adding : bool;
  _total_num_rows_added : Z;
  _total_nbytes_added : Z
}.

(** [int(n * 0.5)] and [int(n * 1.5)], exact for sizes below 2^52. *)
Definition init (batch_size : option Z) (min_size : Z) (seed : option Z) : result t :=
  match batch_size with
  | None => Raise ValueError
  | Some n =>
      let m := if min_size <? n then n else min_size in
      Ok {| _batch_size := n; _rng := default_rng seed; _shuffle_buffer_min_size := m;
            _min_rows_to_yield_batch := Z.max 1 (Z.quot m 2);
            _min_rows_to_trigger_compaction := Z.quot (3 * m) 2;
            _builder := DelegatingBlockBuilder.init; _shuffle := None; _batch_head := 0;
            _done_adding := false; _total_num_rows_added := 0; _total_nbytes_added := 0 |}
  end.

(** The warning on the estimated buffer size changes no state. *)
Definition add (b : B) (x : t) : t :=
  if 0 <? blk_num_rows b then {|
    _batch_size := _batch_size x; _rng := _rng x;
    _shuffle_buffer_min_size := _shuffle_buffer_min_size x;
    _min_rows_to_yield_batch := _min_rows_to_yield_batch x;
    _min_rows_to_trigger_compaction := _min_rows_to_trigger_compaction x;
    _builder := DelegatingBlockBuilder.add_block b (_builder x);
    _shuffle := _shuffle x; _batch_head := _batch_head x; _done_adding := _done_adding x;
    _total_num_rows_added := _total_num_rows_added x + blk_num_rows b;
    _total_nbytes_added := _total_nbytes_added x + blk_size_bytes b |}
  else x.

Definition _average_row_nbytes (x : t) : option Z :=
  if 0 <? _total_num_rows_added x
  then Some (_total_nbytes_added x / _total_num_rows_added x) else None.

Definition _estimated_min_nbytes_in_buffers (x : t) : option Z :=
  a ← _average_row_nbytes x; Some (a * _min_rows_to_trigger_compaction x).

Definition done_adding (x : t) : t := {|
  _batch_size := _batch_size x; _rng := _rng x;
  _shuffle_buffer_min_size := _shuffle_buffer_min_size x;
  _min_rows_to_yield_batch := _min_rows_to_yield_batch x;
  _min_rows_to_trigger_compaction := _min_rows_to_trigger_compaction x;
  _builder := _builder x; _shuffle := _shuffle x; _batch_head := _batch_head x;
  _done_adding := true; _total_num_rows_added := _total_num_rows_added x;
  _total_nbytes_added := _total_nbytes_added x |}.

Definition _num_compacted_rows (x : t) : Z :=
  match _shuffle x with
  | None => 0
  | Some (_, idx) => Z.max 0 (Z.of_nat (length idx) - _batch_head x)
  end.

Definition _num_uncompacted_rows (x : t) : Z := DelegatingBlockBuilder.num_rows (_builder x).

Definition _num_rows (x : t) : Z := _num_compacted_rows x + _num_uncompacted_rows x.

Definition has_any (x : t) : bool := 0 <? _num_rows x.

Definition has_batch (x : t) : bool :=
  if _done_adding x then _batch_size x <=? _num_rows x
  else (_batch_size x <=? _num_rows x) &&
       ((_min_rows_to_yield_batch x <=? _num_compacted_rows x) ||
        (_min_rows_to_trigger_compaction x <=? _num_rows x - _batch_size x)).

Definition set_shuffle (bld : DelegatingBlockBuilder.t B) (sh : option (B * list Z))
    (head : Z) (g : rng) (x : t) : t := {|
  _batch_size := _batch_size x; _rng := g;
  _shuffle_buffer_min_size := _shuffle_buffer_min_size x;
  _min_rows_to_yield_batch := _min_rows_to_yield_batch x;
  _min_rows_to_trigger_compaction := _min_rows_to_trigger_compaction x;
  _builder := bld; _shuffle := sh; _batch_head := head; _done_adding := _done_adding x;
  _total_num_rows_added := _total_num_rows_added x;
  _total_nbytes_added := _total_nbytes_added x |}.

(** The compaction of [next_batch]: the rows not yet yielded are appended to
    the uncompacted ones and a permutation of all of them is drawn. *)
Definition compact (x : t) : t :=
  let bld := match _shuffle x with
    | Some (b, idx) =>
        if _batch_head x <? Z.of_nat (length idx)
        then DelegatingBlockBuilder.add_block
               (blk_take b (drop (Z.to_nat (_batch_head x)) idx)) (_builder x)
        else _builder x
    | None => _builder x end in
  let b := blk_combine (DelegatingBlockBuilder.build bld) in
  let '(idx, g) := rng_permutation (blk_num_rows b) (_rng x) in
  set_shuffle DelegatingBlockBuilder.init (Some (b, idx)) 0 g x.

Definition next_batch (x : t) : result (B * t) :=
  _ ← py_assert (has_batch x || (_done_adding x && has_any x));
  let x :=
    if (0 <? _num_uncompacted_rows x) &&
       (_done_adding x || (_num_compacted_rows x <=? _min_rows_to_yield_batch x))
    then compact x else x in
  sh ← or_raise AssertionError (_shuffle x);
  let '(b, idx) := sh in
  let remaining := Z.of_nat (length idx) - _batch_head x in
  let batch_size := _batch_size x `min` remaining in
  let batch_indices := take (Z.to_nat batch_size) (drop (Z.to_nat (_batch_head x)) idx) in
  Ok (blk_take b batch_indices,
      set_shuffle (_builder x) (_shuffle x) (_batch_head x + batch_size) (_rng x) x).

#[global] Instance interface : BatcherInterface B t := {|
  bat_add := add; bat_done_adding := done_adding; bat_has_batch := has_batch;
  bat_has_any := has_any; bat_next_batch := next_batch |}.
End batcher.
Arguments t Row B {_}.
End ShufflingBatcher.

(** ** [_BatchingIterator] *)
Module BatchingIterator.
Section iterator.
Context {B St : Type} `{!BatcherInterface B St}.

(** The rest of the block iterator is the list of its blocks. *)
Record t : Type := {
  _block_iter : list B;
  _batcher : St;
  _drop_last : bool;
  _global_counter : Z;
  _done_adding : bool
}.

Definition init (blocks : list B) (batcher : St) (drop_last : bool) : t := {|
  _block_iter := blocks; _batcher := batcher; _drop_last := drop_last;
  _global_counter := 0; _done_adding := false |}.

Definition can_yield (drop_last done : bool) (st : St) : bool :=
  bat_has_batch st || (bat_has_any st && done && negb drop_last).

(** What [__next__] yields: a numbered batch. *)
Definition yield (blocks : list B) (st : St) (done : bool) (x : t) : result (option (Z * B) * t) :=
  r ← bat_next_batch st;
  Ok (Some (_global_counter x, r.1),
      {| _block_iter := blocks; _batcher := r.2; _drop_last := _drop_last x;
         _global_counter := _global_counter x + 1; _done_adding := done |}).

Definition stop (blocks : list B) (st : St) (x : t) : result (option (Z * B) * t) :=
  Ok (None, {| _block_iter := blocks; _batcher := st; _drop_last := _drop_last x;
               _global_counter := _global_counter x; _done_adding := true |}).

(** The loop of [__next__]; [None] stands for [StopIteration]. *)
Fixpoint next_loop (blocks : list B) (st : St) (x : t) : result (option (Z * B) * t) :=
  if can_yield (_drop_last x) (_done_adding x) st then yield blocks st (_done_adding x) x
  else if _done_adding x then stop blocks st x
  else
    match blocks with
    | b :: blocks => next_loop blocks (bat_add b st) x
    | [] =>
        let st := bat_done_adding st in
        if can_yield (_drop_last x) true st then yield [] st true x else stop [] st x
    end.

Definition next (x : t) : result (option (Z * B) * t) := next_loop (_block_iter x) (_batcher x) x.

(** Calling [__next__] until it stops, at most [fuel] times. *)
Fixpoint run (fuel : nat) (x : t) : result (option (list (Z * B))) :=
  match fuel with
  | O => Ok None
  | S fuel =>
      r ← next x;
      match r.1 with
      | None => Ok (Some [])
      | Some batch => rest ← run fuel r.2; Ok (option_map (cons batch) rest)
      end
  end.
End iterator.
Arguments t : clear implicits.
End BatchingIterator.
