(* ===== verification/BatcherFacts.v ===== *)
(** * The batchers and the batching iterator: what they yield

    [BatcherLaws] is the contract of [BatcherInterface]: the rows a batcher
    holds, and what each operation does to them, up to an equivalence [R] of
    row lists.  [BatchingIterator] is verified against the contract alone;
    [Batcher] satisfies it with equality and [ShufflingBatcher] with
    permutation. *)
From S2P Require Import Prelude BlockStore Batcher.

(** Row lists up to some reordering. *)
Class RowEquiv {Row} (R : relation (list Row)) : Prop := {
  #[global] re_equiv :: Equivalence R;
  #[global] re_app :: Proper (R ==> R ==> R) (++);
  re_length l k : R l k → length l = length k
}.

#[export] Instance eq_row_equiv Row : RowEquiv (=@{list Row}).
Proof. split; [apply _..|by intros ?? ->]. Qed.

#[export] Instance perm_row_equiv Row : RowEquiv (≡ₚ@{Row}).
Proof. split; [apply _..|apply Permutation_length]. Qed.

(** [exact]: batches are full as long as enough rows are held, even before
    the end of the input. *)
Class BatcherLaws {Row B St} `{!BlockAccessor Row B, !BatcherInterface B St}
    (n : Z) (R : relation (list Row)) (exact_sizes : bool) : Type := {
  bl_ok : St → Prop;
  bl_pending : St → list Row;
  bl_done : St → bool;
  bl_add b st : bl_ok st → bl_done st = false →
    bl_ok (bat_add b st) ∧ bl_done (bat_add b st) = false ∧
    R (bl_pending (bat_add b st)) (bl_pending st ++ blk_rows b);
  bl_done_adding st : bl_ok st →
    bl_ok (bat_done_adding st) ∧ bl_done (bat_done_adding st) = true ∧
    bl_pending (bat_done_adding st) = bl_pending st;
  bl_has_any st : bl_ok st → bat_has_any st = true ↔ bl_pending st ≠ [];
  bl_has_batch st : bl_ok st → bat_has_batch st = true →
    n ≤ Z.of_nat (length (bl_pending st));
  bl_has_batch_done st : bl_ok st → bl_done st = true →
    n ≤ Z.of_nat (length (bl_pending st)) → bat_has_batch st = true;
  bl_next_batch st : bl_ok st →
    bat_has_batch st || (bl_done st && bat_has_any st) = true →
    ∃ b st', bat_next_batch st = Ok (b, st') ∧ bl_ok st' ∧ bl_done st' = bl_done st ∧
      R (bl_pending st) (blk_rows b ++ bl_pending st') ∧
      0 < Z.of_nat (length (blk_rows b)) ≤ n ∧
      (exact_sizes || bl_done st = true →
       Z.of_nat (length (blk_rows b)) = n `min` Z.of_nat (length (bl_pending st)))
}.

(** ** The iterator, against the contract *)
Section iterator_facts.
Context {Row B St : Type} `{!BlockAccessor Row B, !BatcherInterface B St}.
Context (n : Z) (R : relation (list Row)) (exact_sizes : bool).
Context `{!RowEquiv R, !BatcherLaws (St:=St) n R exact_sizes} (Hn : 0 < n).
Implicit Types (x : BatchingIterator.t B St).

Definition it_ok x : Prop :=
  bl_ok (BatchingIterator._batcher x) ∧
  bl_done (BatchingIterator._batcher x) = BatchingIterator._done_adding x ∧
  (BatchingIterator._done_adding x = true → BatchingIterator._block_iter x = []).

(** The rows still to come. *)
Definition remaining x : list Row :=
  bl_pending (BatchingIterator._batcher x) ++ concat (map blk_rows (BatchingIterator._block_iter x)).

(** One call of [__next__] that yields, and one that stops. *)
Definition yields x (r : option (Z * B) * BatchingIterator.t B St) : Prop :=
  ∃ b, r.1 = Some (BatchingIterator._global_counter x, b) ∧ it_ok r.2 ∧
    BatchingIterator._global_counter r.2 = BatchingIterator._global_counter x + 1 ∧
    BatchingIterator._drop_last r.2 = BatchingIterator._drop_last x ∧
    R (remaining x) (blk_rows b ++ remaining r.2) ∧
    0 < Z.of_nat (length (blk_rows b)) ≤ n ∧
    (exact_sizes = true → BatchingIterator._drop_last x = true ∨ remaining r.2 ≠ [] →
     Z.of_nat (length (blk_rows b)) = n).

Definition stops x (r : option (Z * B) * BatchingIterator.t B St) : Prop :=
  r.1 = None ∧ Z.of_nat (length (remaining x)) < n ∧
  (BatchingIterator._drop_last x = false → remaining x = []).

Lemma can_yield_yields x : it_ok x →
  BatchingIterator.can_yield (BatchingIterator._drop_last x) (BatchingIterator._done_adding x)
    (BatchingIterator._batcher x) = true →
  ∃ r, BatchingIterator.yield (BatchingIterator._block_iter x) (BatchingIterator._batcher x)
         (BatchingIterator._done_adding x) x = Ok r ∧ yields x r.
Proof.
  intros (Hok & Hd & Hb) Hc. unfold BatchingIterator.can_yield in Hc.
  set (st := BatchingIterator._batcher x) in *.
  destruct (bl_next_batch (R:=R) st Hok) as (b & st' & Hnb & Hok' & Hd' & HR & Hlen & Hex).
  { rewrite Hd. destruct (bat_has_batch st), (bat_has_any st),
      (BatchingIterator._done_adding x); simpl in *; congruence. }
  unfold BatchingIterator.yield. rewrite Hnb. simpl. eexists. split; [done|].
  exists b. split_and!; simpl; [done| |done|done| |lia|lia|].
  - unfold it_ok. simpl. by rewrite Hd', Hd.
  - unfold remaining. simpl. fold st. rewrite (assoc (++)). by f_equiv.
  - intros He Hr. specialize (Hex (proj2 (orb_true_iff _ _) (or_introl He))). rewrite Hex.
    destruct (bat_has_batch st) eqn:Hhb.
    { apply bl_has_batch in Hhb; [lia|done]. }
    simpl in Hc. rewrite !andb_true_iff, negb_true_iff in Hc. destruct Hc as [[Ha Hdn] Hdl].
    destruct Hr as [Hr|Hr]; [congruence|].
    destruct (decide (n ≤ Z.of_nat (length (bl_pending st)))) as [|Hlt]; [lia|].
    destruct Hr. unfold remaining. simpl. rewrite Hb by done. simpl. rewrite app_nil_r.
    apply re_length in HR. rewrite length_app in HR. apply nil_length_inv. lia.
Qed.

Lemma stop_stops x blocks st : it_ok x →
  BatchingIterator.can_yield (BatchingIterator._drop_last x) true (BatchingIterator._batcher x)
    = false →
  BatchingIterator._done_adding x = true →
  ∃ r, BatchingIterator.stop blocks st x = Ok r ∧ stops x r.
Proof.
  intros (Hok & Hd & Hb) Hc Hdn. unfold BatchingIterator.can_yield in Hc.
  rewrite orb_false_iff in Hc. destruct Hc as [Hhb Hany].
  assert (Hlt : ¬ n ≤ Z.of_nat (length (bl_pending (BatchingIterator._batcher x)))).
  { intros Hle. apply bl_has_batch_done in Hle; [congruence|done|congruence]. }
  eexists. split; [done|]. unfold stops, remaining. rewrite Hb by done. simpl.
  rewrite app_nil_r. split_and!; [done|lia|].
  intros Hdl. rewrite Hdl in Hany. simpl in Hany. rewrite !andb_true_r in Hany.
  destruct (bl_pending _) as [|r l] eqn:Hp; [done|].
  assert (bat_has_any (BatchingIterator._batcher x) = true) as Ha.
  { apply bl_has_any; [done|]. by rewrite Hp. }
  congruence.
Qed.

(** Only the block list and the batcher move while [__next__] loops. *)
Definition with_input (blocks : list B) (st : St) (d : bool) x : BatchingIterator.t B St := {|
  BatchingIterator._block_iter := blocks; BatchingIterator._batcher := st;
  BatchingIterator._drop_last := BatchingIterator._drop_last x;
  BatchingIterator._global_counter := BatchingIterator._global_counter x;
  BatchingIterator._done_adding := d |}.

Lemma yields_input x x' r :
  BatchingIterator._drop_last x' = BatchingIterator._drop_last x →
  BatchingIterator._global_counter x' = BatchingIterator._global_counter x →
  R (remaining x) (remaining x') → yields x' r → yields x r.
Proof.
  intros Hdl Hc HR (b & H1 & H2 & H3 & H4 & H5 & H6 & H7). exists b.
  rewrite Hc in H1, H3. rewrite Hdl in H4, H7. split_and!; try done; try lia. by rewrite HR.
Qed.

Lemma stops_input x x' r :
  BatchingIterator._drop_last x' = BatchingIterator._drop_last x →
  R (remaining x) (remaining x') → stops x' r → stops x r.
Proof.
  intros Hdl HR (H1 & H2 & H3). apply re_length in HR. split_and!; [done|lia|].
  intros Hd. rewrite <-Hdl in Hd. apply nil_length_inv. by rewrite HR, (H3 Hd).
Qed.

Lemma next_loop_spec x blocks st :
  BatchingIterator._done_adding x = false → it_ok (with_input blocks st false x) →
  ∃ r, BatchingIterator.next_loop blocks st x = Ok r ∧
    (yields (with_input blocks st false x) r ∨ stops (with_input blocks st false x) r).
Proof.
  intros Hnd. revert st. induction blocks as [|b blocks IH]; intros st Hok; simpl; rewrite Hnd.
  all: destruct (BatchingIterator.can_yield _ false st) eqn:Hc.
  1,3: destruct (can_yield_yields _ Hok Hc) as (r & Hr & Hy); exists r;
    split; [exact Hr|by left].
  - destruct Hok as (Hok & Hd & _).
    destruct (bl_done_adding st Hok) as (Hok' & Hd' & Hp).
    assert (it_ok (with_input [] (bat_done_adding st) true x)) as Hi by done.
    assert (R (remaining (with_input [] st false x))
              (remaining (with_input [] (bat_done_adding st) true x))) as HR.
    { unfold remaining. simpl. by rewrite Hp. }
    destruct (BatchingIterator.can_yield _ true _) eqn:Hc'.
    + destruct (can_yield_yields _ Hi Hc') as (r & Hr & Hy). exists r.
      split; [exact Hr|]. left. by eapply yields_input; [..|exact Hy].
    + destruct (stop_stops _ [] (bat_done_adding st) Hi Hc') as (r & Hr & Hy); [done|].
      exists r. split; [exact Hr|]. right. by eapply stops_input; [..|exact Hy].
  - destruct Hok as (Hok & Hd & _). destruct (bl_add (R:=R) b st Hok Hd) as (Hok' & Hd' & Hp).
    assert (R (remaining (with_input (b :: blocks) st false x))
              (remaining (with_input blocks (bat_add b st) false x))) as HR.
    { unfold remaining. simpl. by rewrite Hp, (assoc (++)). }
    destruct (IH (bat_add b st)) as (r & Hr & H); [done|].
    exists r. split; [done|]. destruct H as [H|H]; [left; by eapply yields_input; [..|exact H]|].
    right. by eapply stops_input; [..|exact H].
Qed.

Lemma next_spec x : it_ok x →
  ∃ r, BatchingIterator.next x = Ok r ∧ (yields x r ∨ stops x r).
Proof.
  intros Hok. unfold BatchingIterator.next.
  destruct (BatchingIterator._done_adding x) eqn:Hd.
  - destruct Hok as (H1 & H2 & H3). rewrite (H3 Hd). simpl.
    assert (it_ok x) as Hok by done. rewrite Hd.
    destruct (BatchingIterator.can_yield _ true _) eqn:Hc.
    + destruct (can_yield_yields x Hok) as (r & Hr & Hy); [by rewrite Hd|].
      rewrite H3, Hd in Hr by done. eauto.
    + destruct (stop_stops x [] (BatchingIterator._batcher x) Hok Hc Hd) as (r & Hr & Hy). eauto.
  - destruct x as [blocks st dl c d]. simpl in *. subst d.
    by apply (next_loop_spec (BatchingIterator.Build_t blocks st dl c false)).
Qed.

(** What a whole iteration yields from [x] on. *)
Definition run_result x (out : list (Z * B)) (rest : list Row) : Prop :=
  map fst out = seqZ (BatchingIterator._global_counter x) (Z.of_nat (length out)) ∧
  R (remaining x) (concat (map blk_rows (map snd out)) ++ rest) ∧
  Z.of_nat (length rest) < n ∧
  (BatchingIterator._drop_last x = false → rest = []) ∧
  Forall (λ o, 0 < Z.of_nat (length (blk_rows o.2)) ≤ n) out ∧
  (exact_sizes = true → ∀ i o, out !! i = Some o →
     BatchingIterator._drop_last x = true ∨ (S i < length out)%nat →
     Z.of_nat (length (blk_rows o.2)) = n).

Lemma run_spec fuel x : it_ok x → (length (remaining x) < fuel)%nat →
  ∃ out rest, BatchingIterator.run fuel x = Ok (Some out) ∧ run_result x out rest.
Proof using RowEquiv0 Hn.
  revert x. induction fuel as [|fuel IH]; intros x Hok Hf; [lia|].
  destruct (next_spec x Hok) as ([o x'] & Hr & H). simpl. rewrite Hr. simpl.
  destruct H as [(b & Ho & Hok' & Hc & Hdl & HR & Hb & Hex)|(Ho & Hlt & Hdl)];
    simpl in *; subst o; simpl.
  - pose proof (re_length _ _ HR) as Hlen. rewrite length_app in Hlen.
    destruct (IH x' Hok') as (out & rest & -> & Hfst & HR' & Hrest & Hdrop & Hall & Hexact);
      [lia|]. simpl. rewrite Hdl, Hc in *.
    exists ((BatchingIterator._global_counter x, b) :: out), rest. split; [done|].
    split_and!; [|..|].
    + simpl. rewrite Hfst, (seqZ_cons _ (Z.of_nat (S _))) by lia. f_equal. f_equal; lia.
    + simpl. by rewrite HR, HR', (assoc (++)).
    + done.
    + done.
    + by constructor.
    + intros He [|i] o Ho Hi; simplify_eq/=.
      * apply Hex; [done|]. destruct Hi as [|Hi]; [by left|right]. intros Hnil.
        rewrite Hnil in HR'. apply re_length in HR'.
        destruct out as [|o out]; simpl in *; [lia|].
        apply Forall_cons in Hall as [? _]. rewrite !length_app in HR'. simpl in HR'. lia.
      * eapply Hexact; [done..|]. destruct Hi; [by left|right; lia].
  - exists [], (remaining x). unfold run_result. split; [done|].
    split_and!; [done..|by constructor|]. intros _ i o. by rewrite lookup_nil.
Qed.

Lemma run_init blocks st drop_last : bl_ok st → bl_done st = false → bl_pending st = [] →
  ∃ out rest, BatchingIterator.run (S (length (concat (map blk_rows blocks))))
      (BatchingIterator.init blocks st drop_last) = Ok (Some out) ∧
    run_result (BatchingIterator.init blocks st drop_last) out rest.
Proof using RowEquiv0 Hn.
  intros Hok Hd Hp. apply run_spec; [done|].
  unfold remaining. simpl. rewrite Hp. simpl. lia.
Qed.
End iterator_facts.

(** ** [Batcher] keeps the contract, in order *)
Section fifo_facts.
Context {Row B : Type} `{!BlockAccessor Row B, !BlockAccessorLaws Row B}.
Context `{!BlockBuilding Row B, !BlockBuildingLaws Row B}.

Definition builder_rows (o : DelegatingBlockBuilder.t B) : list Row :=
  concat (map blk_rows (DelegatingBlockBuilder.parts o)).

Lemma blk_rows_empty (b : B) : blk_num_rows b = 0 → blk_rows b = [].
Proof. rewrite blk_num_rows_law. intros H. apply nil_length_inv. lia. Qed.

Lemma add_block_rows (b : B) o :
  builder_rows (DelegatingBlockBuilder.add_block b o) = builder_rows o ++ blk_rows b.
Proof.
  unfold builder_rows, DelegatingBlockBuilder.add_block.
  destruct (Z.eqb_spec (blk_num_rows b) 0) as [Hb|Hb]; simpl.
  - by rewrite (blk_rows_empty b Hb), app_nil_r.
  - rewrite map_app, concat_app. simpl. by rewrite app_nil_r.
Qed.

Lemma build_rows (o : DelegatingBlockBuilder.t B) : builder_rows o ≠ [] →
  blk_rows (DelegatingBlockBuilder.build o) = builder_rows o.
Proof.
  unfold builder_rows, DelegatingBlockBuilder.build.
  destruct (DelegatingBlockBuilder.parts o) as [|b ps]; [done|].
  by rewrite blk_concat_law.
Qed.

Lemma builder_num_rows (o : DelegatingBlockBuilder.t B) :
  DelegatingBlockBuilder.num_rows o = Z.of_nat (length (builder_rows o)).
Proof.
  unfold DelegatingBlockBuilder.num_rows, builder_rows.
  induction (DelegatingBlockBuilder.parts o) as [|b ps IH]; [done|]. simpl.
  rewrite length_app, IH, blk_num_rows_law. lia.
Qed.

Definition buffer_rows (buffer : list B) : list Row := concat (map blk_rows buffer).

(** The loop of [next_batch] moves the first [needed] rows to the builder. *)
Lemma fill_spec needed buffer output : 0 ≤ needed →
  Forall (λ b, 0 < blk_num_rows b) buffer →
  ∃ o left, Batcher.fill needed buffer output = Ok (o, left) ∧
    builder_rows o = builder_rows output ++ take (Z.to_nat needed) (buffer_rows buffer) ∧
    buffer_rows left = drop (Z.to_nat needed) (buffer_rows buffer) ∧
    Forall (λ b, 0 < blk_num_rows b) left.
Proof.
  intros Hn Hb. revert needed output Hn.
  induction Hb as [|b buffer Hb Hbs IH]; intros needed output Hn; simpl.
  { exists output, []. unfold buffer_rows. simpl. rewrite take_nil, drop_nil, app_nil_r. done. }
  unfold buffer_rows in *. simpl. pose proof (blk_num_rows_law b) as Hlen.
  destruct (Z.leb_spec needed 0).
  - destruct (IH needed output Hn) as (o & left & -> & Ho & Hl & Hall).
    replace needed with 0 in * by lia. simpl in *.
    exists o, (b :: left). split; [done|]. simpl. rewrite Ho, Hl. split_and!; [done..|].
    by constructor.
  - destruct (Z.leb_spec (blk_num_rows b) needed).
    + destruct (IH (needed - blk_num_rows b) (DelegatingBlockBuilder.add_block b output))
        as (o & left & -> & Ho & Hl & Hall); [lia|].
      exists o, left. split; [done|].
      rewrite Ho, Hl, add_block_rows, <-(assoc (++)), take_app_ge, drop_app_ge by lia.
      split_and!; [by repeat f_equal; lia|by repeat f_equal; lia|done].
    + assert (blk_num_rows (blk_combine b) = blk_num_rows b) as Hc.
      { by rewrite !blk_num_rows_law, blk_combine_law. }
      destruct (blk_slice_law (blk_combine b) 0 needed) as (hd & -> & Hhd); [lia..|]. simpl.
      destruct (blk_slice_law (blk_combine b) needed (blk_num_rows (blk_combine b)))
        as (tl & -> & Htl); [lia..|]. simpl.
      destruct (IH 0 (DelegatingBlockBuilder.add_block hd output))
        as (o & left & -> & Ho & Hl & Hall); [lia|].
      simpl in *. rewrite blk_combine_law in Hhd, Htl.
      rewrite Hc, Z.sub_0_r, drop_0 in *.
      assert (blk_rows tl = drop (Z.to_nat needed) (blk_rows b)) as Htl'.
      { rewrite Htl. apply take_ge. rewrite length_drop. lia. }
      exists o, (tl :: left). split; [done|]. simpl.
      rewrite Ho, Hl, add_block_rows, Hhd, Htl', take_app_le, drop_app_le, app_nil_r by lia.
      split_and!; [done..|].
      constructor; [|done]. rewrite blk_num_rows_law, Htl', length_drop. lia.
Qed.

(** The buffer size counts the buffered rows, except that the last, short
    batch leaves a negative count behind. *)
Definition batcher_ok (n : Z) (x : Batcher.t B) : Prop :=
  Batcher._batch_size x = Some n ∧
  Forall (λ b, 0 < blk_num_rows b) (Batcher._buffer x) ∧
  (Batcher._buffer_size x = Z.of_nat (length (buffer_rows (Batcher._buffer x))) ∨
   Batcher._done_adding x = true ∧ Batcher._buffer x = [] ∧ Batcher._buffer_size x ≤ 0).

Definition batcher_pending (x : Batcher.t B) : list Row := buffer_rows (Batcher._buffer x).

Lemma batcher_size n x : batcher_ok n x → batcher_pending x ≠ [] ∨ 0 < Batcher._buffer_size x →
  Batcher._buffer_size x = Z.of_nat (length (batcher_pending x)).
Proof.
  unfold batcher_pending. intros (_ & _ & [Hs|(_ & -> & Hs)]) H; [done|].
  unfold buffer_rows in H. simpl in H. destruct H; [done|lia].
Qed.

Lemma batcher_has_any n x : batcher_ok n x → Batcher.has_any x = true ↔ batcher_pending x ≠ [].
Proof.
  intros Hok. unfold Batcher.has_any. rewrite Z.ltb_lt. split.
  - intros H. pose proof (batcher_size _ _ Hok (or_intror H)) as Hs.
    intros Hnil. rewrite Hnil in Hs. simpl in Hs. lia.
  - intros H. rewrite (batcher_size _ _ Hok (or_introl H)).
    destruct (batcher_pending x); simpl; [done|lia].
Qed.

Lemma batcher_has_batch n x : 0 < n → batcher_ok n x →
  Batcher.has_batch x = true ↔ n ≤ Z.of_nat (length (batcher_pending x)).
Proof.
  intros Hn Hok. unfold Batcher.has_batch. rewrite andb_true_iff, (batcher_has_any n) by done.
  destruct (Hok) as (-> & _). rewrite Z.leb_le. split.
  - intros [Ha Hb]. rewrite <-(batcher_size n) by eauto. done.
  - intros Hle. assert (batcher_pending x ≠ []) as Ha.
    { intros Hnil. rewrite Hnil in Hle. simpl in Hle. lia. }
    split; [done|]. by rewrite (batcher_size n) by eauto.
Qed.

Lemma batcher_add n b x : batcher_ok n x → Batcher._done_adding x = false →
  batcher_ok n (Batcher.add b x) ∧ Batcher._done_adding (Batcher.add b x) = false ∧
  batcher_pending (Batcher.add b x) = batcher_pending x ++ blk_rows b.
Proof.
  intros (Hn & Hb & Hs) Hd. rewrite Hd in Hs. destruct Hs as [Hs|[? _]]; [|done].
  unfold Batcher.add. destruct (Z.ltb_spec 0 (blk_num_rows b)) as [Hlt|Hge].
  - unfold batcher_ok, batcher_pending, buffer_rows in *. simpl.
    rewrite map_app, concat_app, length_app. simpl. rewrite app_nil_r.
    split_and!; [done| |left|done|done].
    + apply Forall_app. split; [done|by constructor].
    + rewrite Hs, blk_num_rows_law. lia.
  - rewrite (blk_rows_empty b), app_nil_r; [|rewrite blk_num_rows_law in *; lia].
    split_and!; [|done..]. split_and!; [done..|by left].
Qed.

Lemma copy_rows (c : bool) (b : B) : blk_rows (if c then blk_copy b else b) = blk_rows b.
Proof. destruct c; [apply blk_copy_law|done]. Qed.

Lemma batcher_next n x : 0 < n → batcher_ok n x →
  Batcher.has_batch x || (Batcher._done_adding x && Batcher.has_any x) = true →
  ∃ b x', Batcher.next_batch x = Ok (b, x') ∧ batcher_ok n x' ∧
    Batcher._done_adding x' = Batcher._done_adding x ∧
    blk_rows b = take (Z.to_nat n) (batcher_pending x) ∧
    batcher_pending x' = drop (Z.to_nat n) (batcher_pending x) ∧ batcher_pending x ≠ [].
Proof.
  intros Hn Hok Hc.
  assert (batcher_pending x ≠ []) as Hne.
  { rewrite <-(batcher_has_any n) by done. apply orb_true_iff in Hc as [Hc|Hc].
    - by apply andb_true_iff in Hc as [Hc _].
    - by apply andb_true_iff in Hc as [_ Hc]. }
  pose proof (batcher_size n x Hok (or_introl Hne)) as Hs.
  pose proof (batcher_has_batch n x Hn Hok) as Hhb. unfold batcher_pending in *.
  unfold Batcher.next_batch. rewrite Hc. simpl. destruct (Hok) as (Hbs & Hb & _). rewrite Hbs.
  destruct (fill_spec n (Batcher._buffer x) DelegatingBlockBuilder.init)
    as (o & left & -> & Ho & Hl & Hall); [lia|done|]. simpl.
  do 2 eexists. split; [done|]. unfold builder_rows at 2 in Ho. simpl in Ho.
  assert (builder_rows o ≠ []) as Hone.
  { rewrite Ho. destruct (buffer_rows _); [done|].
    destruct (Z.to_nat n) eqn:E; [lia|done]. }
  rewrite copy_rows, build_rows, Ho by done. split_and!; try done.
  unfold batcher_ok. simpl. split_and!; [done..|]. rewrite Hl, length_drop, Hs.
  destruct (decide (n ≤ Z.of_nat (length (buffer_rows (Batcher._buffer x))))); [left; lia|].
  right. split_and!; [| |lia].
  - apply orb_true_iff in Hc as [Hc|Hc]; [by apply Hhb in Hc|].
    by apply andb_true_iff in Hc as [Hc _].
  - destruct left as [|b left]; [done|]. apply Forall_cons in Hall as [Hpos _].
    rewrite blk_num_rows_law in Hpos. apply (f_equal length) in Hl.
    unfold buffer_rows at 1 in Hl. simpl in Hl. rewrite length_app, length_drop in Hl. lia.
Qed.

Program Definition batcher_laws (n : Z) (Hn : 0 < n) :
    BatcherLaws (B:=B) (St:=Batcher.t B) n (=@{list Row}) true := {|
  bl_ok := batcher_ok n; bl_pending := batcher_pending; bl_done := Batcher._done_adding |}.
Next Obligation. intros. by apply batcher_add. Qed.
Next Obligation.
  intros n Hn x (H1 & H2 & H3). split_and!; [|done..]. split_and!; [done..|].
  destruct H3 as [H3|(_ & H3)]; [by left|by right].
Qed.
Next Obligation. intros. by eapply batcher_has_any. Qed.
Next Obligation. intros n Hn x Hok. by apply batcher_has_batch. Qed.
Next Obligation. intros n Hn x Hok Hd. by apply batcher_has_batch. Qed.
Next Obligation.
  intros n Hn x Hok Hc. destruct (batcher_next n x Hn Hok Hc)
    as (b & x' & Hr & Hok' & Hd & Hb & Hp & Hne).
  exists b, x'. rewrite Hb, Hp, take_drop, length_take.
  assert (0 < length (batcher_pending x))%nat; [by destruct (batcher_pending x); simpl; [|lia]|].
  split_and!; try done; lia.
Qed.
End fifo_facts.

(** ** [ShufflingBatcher] keeps the contract, up to permutation *)
Section shuffle_facts.
Context {Row B : Type} `{!BlockAccessor Row B, !BlockAccessorLaws Row B}.
Context `{!BlockBuilding Row B, !BlockBuildingLaws Row B}.
Implicit Types (x : ShufflingBatcher.t Row B).

Abbreviation in_range b := (Forall (λ i, 0 ≤ i < blk_num_rows b)).

Lemma rows_at_seq (l k : list Row) :
  rows_at (l ++ k) (seqZ (Z.of_nat (length l)) (Z.of_nat (length k))) = k.
Proof.
  unfold rows_at. revert l. induction k as [|r k IH]; intros l; [done|].
  rewrite seqZ_cons by (simpl; lia).
  replace (Z.succ (Z.of_nat (length l))) with (Z.of_nat (length (l ++ [r])))
    by (rewrite length_app; simpl; lia).
  replace (Z.pred (Z.of_nat (length (r :: k)))) with (Z.of_nat (length k)) by (simpl; lia).
  specialize (IH (l ++ [r])). rewrite <-(assoc_L (++)) in IH.
  simpl. rewrite Nat2Z.id, list_lookup_middle by done. f_equal. exact IH.
Qed.

Lemma rows_at_perm (l : list Row) idx :
  idx ≡ₚ seqZ 0 (Z.of_nat (length l)) → rows_at l idx ≡ₚ l.
Proof.
  intros Hi. transitivity (rows_at l (seqZ 0 (Z.of_nat (length l)))).
  - by apply omap_Permutation.
  - pose proof (rows_at_seq [] l : rows_at l (seqZ 0 _) = l) as H. by rewrite H.
Qed.

Lemma length_rows_at (b : B) idx : in_range b idx → length (rows_at (blk_rows b) idx) = length idx.
Proof.
  unfold rows_at. induction 1 as [|i idx Hi Hidx IH]; [done|]. simpl.
  rewrite blk_num_rows_law in Hi.
  destruct (lookup_lt_is_Some_2 (blk_rows b) (Z.to_nat i)) as [r ->]; [lia|].
  simpl. f_equal. exact IH.
Qed.

Lemma rows_at_app (l : list Row) idx k : rows_at l (idx ++ k) = rows_at l idx ++ rows_at l k.
Proof. apply omap_app. Qed.

(** The rows drawn but not yet yielded. *)
Definition compacted_rows x : list Row :=
  match ShufflingBatcher._shuffle x with
  | None => []
  | Some (b, idx) => rows_at (blk_rows b) (drop (Z.to_nat (ShufflingBatcher._batch_head x)) idx)
  end.

Definition shuffle_pending x : list Row :=
  compacted_rows x ++ builder_rows (ShufflingBatcher._builder x).

Definition shuffle_ok (n : Z) x : Prop :=
  ShufflingBatcher._batch_size x = n ∧
  1 ≤ ShufflingBatcher._min_rows_to_yield_batch x ∧
  1 ≤ ShufflingBatcher._min_rows_to_trigger_compaction x ∧
  match ShufflingBatcher._shuffle x with
  | None => True
  | Some (b, idx) => in_range b idx ∧
      0 ≤ ShufflingBatcher._batch_head x ≤ Z.of_nat (length idx)
  end.

Lemma num_compacted_rows n x : shuffle_ok n x →
  ShufflingBatcher._num_compacted_rows x = Z.of_nat (length (compacted_rows x)).
Proof.
  intros (_ & _ & _ & H). unfold ShufflingBatcher._num_compacted_rows, compacted_rows.
  destruct (ShufflingBatcher._shuffle x) as [[b idx]|]; [|done]. destruct H as [Hr Hh].
  rewrite length_rows_at, length_drop by by apply Forall_drop. lia.
Qed.

Lemma shuffle_num_rows n x : shuffle_ok n x →
  ShufflingBatcher._num_rows x = Z.of_nat (length (shuffle_pending x)).
Proof.
  intros Hok. unfold ShufflingBatcher._num_rows, ShufflingBatcher._num_uncompacted_rows.
  rewrite (num_compacted_rows n) by done. unfold shuffle_pending.
  rewrite builder_num_rows, length_app. lia.
Qed.

Lemma shuffle_has_any n x : shuffle_ok n x →
  ShufflingBatcher.has_any x = true ↔ shuffle_pending x ≠ [].
Proof.
  intros Hok. unfold ShufflingBatcher.has_any. rewrite Z.ltb_lt, (shuffle_num_rows n) by done.
  destruct (shuffle_pending x); simpl; [split; [lia|done]|split; [done|lia]].
Qed.

Lemma shuffle_has_batch n x : shuffle_ok n x → ShufflingBatcher.has_batch x = true →
  n ≤ Z.of_nat (length (shuffle_pending x)).
Proof.
  intros Hok. unfold ShufflingBatcher.has_batch. destruct (Hok) as (-> & _).
  rewrite (shuffle_num_rows n) by done.
  destruct (ShufflingBatcher._done_adding x); rewrite ?andb_true_iff; lia.
Qed.

Lemma shuffle_has_batch_done n x : shuffle_ok n x → ShufflingBatcher._done_adding x = true →
  n ≤ Z.of_nat (length (shuffle_pending x)) → ShufflingBatcher.has_batch x = true.
Proof.
  intros Hok Hd Hle. unfold ShufflingBatcher.has_batch. destruct (Hok) as (-> & _).
  rewrite Hd, (shuffle_num_rows n) by done. lia.
Qed.

Lemma shuffle_add n b x : shuffle_ok n x →
  shuffle_ok n (ShufflingBatcher.add b x) ∧
  ShufflingBatcher._done_adding (ShufflingBatcher.add b x) = ShufflingBatcher._done_adding x ∧
  shuffle_pending (ShufflingBatcher.add b x) = shuffle_pending x ++ blk_rows b.
Proof.
  intros Hok. unfold ShufflingBatcher.add.
  destruct (Z.ltb_spec 0 (blk_num_rows b)) as [Hlt|Hge].
  - split_and!; [done..|]. unfold shuffle_pending. simpl.
    by rewrite add_block_rows, (assoc (++)).
  - rewrite (blk_rows_empty b), app_nil_r; [done|]. rewrite blk_num_rows_law in *. lia.
Qed.

(** Compaction redraws the order of all the rows held. *)
Lemma compact_spec n x : shuffle_ok n x →
  builder_rows (ShufflingBatcher._builder x) ≠ [] →
  shuffle_ok n (ShufflingBatcher.compact x) ∧
  ShufflingBatcher._done_adding (ShufflingBatcher.compact x) = ShufflingBatcher._done_adding x ∧
  compacted_rows (ShufflingBatcher.compact x) ≡ₚ shuffle_pending x ∧
  builder_rows (ShufflingBatcher._builder (ShufflingBatcher.compact x)) = [] ∧
  is_Some (ShufflingBatcher._shuffle (ShufflingBatcher.compact x)).
Proof.
  intros (H1 & H2 & H3 & H4) Hne. unfold ShufflingBatcher.compact.
  set (bld := match ShufflingBatcher._shuffle x with Some _ => _ | None => _ end).
  assert (builder_rows bld ≡ₚ shuffle_pending x) as Hbld.
  { unfold bld, shuffle_pending, compacted_rows.
    destruct (ShufflingBatcher._shuffle x) as [[b idx]|]; [|done]. destruct H4 as [Hr Hh].
    destruct (Z.ltb_spec (ShufflingBatcher._batch_head x) (Z.of_nat (length idx))).
    - rewrite add_block_rows, blk_take_law by by apply Forall_drop. apply Permutation_app_comm.
    - by rewrite drop_ge by lia. }
  set (b := blk_combine _).
  assert (blk_rows b = builder_rows bld) as Hb.
  { unfold b. rewrite blk_combine_law. apply build_rows. intros Hnil. rewrite Hnil in Hbld.
    apply Permutation_nil_l in Hbld. unfold shuffle_pending in Hbld.
    symmetry in Hbld. by apply app_eq_nil in Hbld as [_ ?]. }
  pose proof (rng_permutation_law (blk_num_rows b) (ShufflingBatcher._rng x)) as Hp.
  destruct (rng_permutation _ _) as [idx g] eqn:Hg. simpl in Hp.
  rewrite blk_num_rows_law in Hp. split_and!; simpl; try done.
  - split_and!; [done..|]. simpl. split; [|lia]. rewrite blk_num_rows_law, Hp.
    apply Forall_forall. intros i Hi. apply elem_of_seqZ in Hi. lia.
  - unfold compacted_rows. simpl. rewrite drop_0, rows_at_perm by done. by rewrite Hb.
Qed.

(** Drawing a batch from the drawn order. *)
Lemma draw_spec n x b idx : 0 < n → shuffle_ok n x →
  ShufflingBatcher._shuffle x = Some (b, idx) →
  let head := ShufflingBatcher._batch_head x in
  let k := n `min` (Z.of_nat (length idx) - head) in
  let x' := ShufflingBatcher.set_shuffle (ShufflingBatcher._builder x)
    (ShufflingBatcher._shuffle x) (head + k) (ShufflingBatcher._rng x) x in
  let batch := blk_take b (take (Z.to_nat k) (drop (Z.to_nat head) idx)) in
  shuffle_ok n x' ∧ shuffle_pending x = blk_rows batch ++ shuffle_pending x' ∧
  Z.of_nat (length (blk_rows batch)) = n `min` Z.of_nat (length (compacted_rows x)).
Proof.
  intros Hn Hok Hs. simpl. pose proof (num_compacted_rows n x Hok) as Hc.
  destruct Hok as (H1 & H2 & H3 & H4). rewrite Hs in H4. destruct H4 as [Hr Hh].
  unfold ShufflingBatcher._num_compacted_rows in Hc. rewrite Hs in Hc.
  rewrite blk_take_law by (by apply Forall_take, Forall_drop). split_and!.
  - split_and!; [done..|]. simpl. rewrite Hs. split; [done|lia].
  - unfold shuffle_pending, compacted_rows. simpl. rewrite Hs, (assoc (++)), <-rows_at_app.
    f_equal. f_equal. rewrite Z2Nat.inj_add, <-drop_drop by lia. by rewrite take_drop.
  - rewrite length_rows_at by (by apply Forall_take, Forall_drop).
    rewrite length_take, length_drop. lia.
Qed.

(** The condition under which [next_batch] compacts. *)
Definition compacts x : bool :=
  (0 <? ShufflingBatcher._num_uncompacted_rows x) &&
  (ShufflingBatcher._done_adding x ||
   (ShufflingBatcher._num_compacted_rows x <=? ShufflingBatcher._min_rows_to_yield_batch x)).

(** Without compaction, drawn rows are left; all of them once the input has
    ended. *)
Lemma no_compaction n x : shuffle_ok n x → shuffle_pending x ≠ [] → compacts x = false →
  compacted_rows x ≠ [] ∧
  (ShufflingBatcher._done_adding x = true → compacted_rows x = shuffle_pending x).
Proof.
  intros Hok Hne. unfold compacts, ShufflingBatcher._num_uncompacted_rows.
  rewrite (num_compacted_rows n), builder_num_rows by done. destruct Hok as (_ & Hmin & _).
  rewrite andb_false_iff, orb_false_iff, Z.ltb_ge, Z.leb_gt. unfold shuffle_pending in *.
  intros [Hb|[Hd Hc]].
  - assert (builder_rows (ShufflingBatcher._builder x) = []) as E by (apply nil_length_inv; lia).
    rewrite E, app_nil_r in *. done.
  - split; [|congruence]. intros E. rewrite E in Hc. simpl in Hc. lia.
Qed.

Lemma shuffle_next n x : 0 < n → shuffle_ok n x →
  ShufflingBatcher.has_batch x || (ShufflingBatcher._done_adding x && ShufflingBatcher.has_any x)
    = true →
  ∃ b x', ShufflingBatcher.next_batch x = Ok (b, x') ∧ shuffle_ok n x' ∧
    ShufflingBatcher._done_adding x' = ShufflingBatcher._done_adding x ∧
    shuffle_pending x ≡ₚ blk_rows b ++ shuffle_pending x' ∧
    0 < Z.of_nat (length (blk_rows b)) ≤ n ∧
    (ShufflingBatcher._done_adding x = true →
     Z.of_nat (length (blk_rows b)) = n `min` Z.of_nat (length (shuffle_pending x))).
Proof.
  intros Hn Hok Hc.
  assert (shuffle_pending x ≠ []) as Hne.
  { apply orb_true_iff in Hc as [Hb|Ha].
    - apply (shuffle_has_batch n) in Hb; [|done]. intros E. rewrite E in Hb. simpl in Hb. lia.
    - apply andb_true_iff in Ha as [_ Ha]. by apply (shuffle_has_any n) in Ha. }
  unfold ShufflingBatcher.next_batch. rewrite Hc. simpl.
  change ((0 <? _) && _) with (compacts x).
  set (y := if compacts x then _ else _).
  assert (shuffle_ok n y ∧ ShufflingBatcher._done_adding y = ShufflingBatcher._done_adding x ∧
    shuffle_pending x ≡ₚ shuffle_pending y ∧ compacted_rows y ≠ [] ∧
    (ShufflingBatcher._done_adding x = true → compacted_rows y = shuffle_pending y))
    as (Hy & Hd & Hp & Hcy & Hall).
  { unfold y. destruct (compacts x) eqn:Hcx; [|by split_and!; try apply (no_compaction n)].
    assert (builder_rows (ShufflingBatcher._builder x) ≠ []) as Hbne.
    { unfold compacts, ShufflingBatcher._num_uncompacted_rows in Hcx.
      rewrite builder_num_rows in Hcx. apply andb_true_iff in Hcx as [Hlt _].
      intros E. by rewrite E in Hlt. }
    destruct (compact_spec n x Hok Hbne) as (H1 & H2 & H3 & H4 & H5).
    assert (compacted_rows (ShufflingBatcher.compact x)
      = shuffle_pending (ShufflingBatcher.compact x)) as E.
    { unfold shuffle_pending at 1. by rewrite H4, app_nil_r. }
    split_and!; [done|done|by rewrite <-E, H3| |done].
    intros Hnil. rewrite Hnil in H3. by apply Permutation_nil_l in H3. }
  destruct (ShufflingBatcher._shuffle y) as [[b idx]|] eqn:Hs;
    [|by unfold compacted_rows in Hcy; rewrite Hs in Hcy].
  simpl. destruct (Hy) as (Hbs & _). rewrite Hbs.
  destruct (draw_spec n y b idx Hn Hy Hs) as (H1 & H2 & H3). rewrite Hs in H1, H2.
  do 2 eexists. split; [done|]. split_and!; [exact H1|exact Hd|by rewrite Hp, H2| | |].
  - rewrite H3. destruct (compacted_rows y); simpl; [done|lia].
  - lia.
  - intros Hdn. by rewrite H3, (Hall Hdn), Hp.
Qed.

Program Definition shuffle_laws (n : Z) (Hn : 0 < n) :
    BatcherLaws (B:=B) (St:=ShufflingBatcher.t Row B) n (≡ₚ@{Row}) false := {|
  bl_ok := shuffle_ok n; bl_pending := shuffle_pending;
  bl_done := ShufflingBatcher._done_adding |}.
Next Obligation.
  intros n Hn b x Hok Hd. destruct (shuffle_add n b x Hok) as (H1 & H2 & H3).
  split_and!; [exact H1|exact (eq_trans H2 Hd)|]. by rewrite <-H3.
Qed.
Next Obligation. done. Qed.
Next Obligation. intros. by eapply shuffle_has_any. Qed.
Next Obligation. intros. by apply shuffle_has_batch. Qed.
Next Obligation. intros. by eapply shuffle_has_batch_done. Qed.
Next Obligation. intros n Hn x Hok Hc. by apply shuffle_next. Qed.
End shuffle_facts.

(** ** What the two iterators yield *)
Section yielded.
Context {Row B : Type} `{!BlockAccessor Row B, !BlockAccessorLaws Row B}.
Context `{!BlockBuilding Row B, !BlockBuildingLaws Row B}.

(** The rows of the yielded batches, in order. *)
Definition yielded_rows (out : list (Z * B)) : list Row := concat (map blk_rows (map snd out)).

Lemma exact_batch_sizes n (out : list (Z * B)) :
  (∀ i o, out !! i = Some o → Z.of_nat (length (blk_rows o.2)) = n) →
  Forall (λ b, length (blk_rows b.2) = Z.to_nat n) out.
Proof. intros H. apply Forall_lookup. intros i o Ho. specialize (H i o Ho). lia. Qed.

(** C30: Iterating a [Batcher] of [batch_size] [n > 0] over any blocks stops
    after yielding batches numbered 0, 1, 2, ... whose rows, concatenated, are
    the input rows in order: all of them without [drop_last], all but a
    remainder of fewer than [n] rows with it; every batch has exactly [n]
    rows, except that without [drop_last] the last one may have fewer, and
    none is empty. *)
Theorem batcher_iteration (n : Z) (ensure_copy drop_last : bool) (blocks : list B) :
  0 < n →
  ∃ out rest,
    BatchingIterator.run (S (length (concat (map blk_rows blocks))))
      (BatchingIterator.init blocks (Batcher.init (Some n) ensure_copy) drop_last) = Ok (Some out) ∧
    map fst out = seqZ 0 (Z.of_nat (length out)) ∧
    concat (map blk_rows blocks) = yielded_rows out ++ rest ∧
    Z.of_nat (length rest) < n ∧ (drop_last = false → rest = []) ∧
    Forall (λ o, 0 < Z.of_nat (length (blk_rows o.2)) ≤ n) out ∧
    (∀ i o, out !! i = Some o → drop_last = true ∨ (S i < length out)%nat →
       Z.of_nat (length (blk_rows o.2)) = n).
Proof.
  intros Hn.
  set (L := batcher_laws (Row:=Row) (B:=B) n Hn).
  destruct (run_init (BatcherLaws0:=L) n (=) true Hn blocks
    (Batcher.init (Some n) ensure_copy) drop_last) as (out & rest & Hr & H1 & H2 & H3 & H4 & H5 & H6).
  { by split_and!; [|constructor|left]. }
  { done. }
  { done. }
  exists out, rest. split_and!; try done. by apply H6.
Qed.

(** Iterating a [ShufflingBatcher] over any blocks (batch size and buffer
    size positive, any seed) stops after yielding non-empty batches of at most
    [n] rows numbered 0, 1, 2, ..., whose rows are together a permutation of
    the input rows: all of them without [drop_last], all but a remainder of
    fewer than [n] rows with it. *)
Theorem shuffling_iteration (n min_size : Z) (seed : option Z) (drop_last : bool)
    (blocks : list B) :
  0 < n →
  ∃ st out rest,
    ShufflingBatcher.init (Some n) min_size seed = Ok st ∧
    BatchingIterator.run (S (length (concat (map blk_rows blocks))))
      (BatchingIterator.init blocks st drop_last) = Ok (Some out) ∧
    map fst out = seqZ 0 (Z.of_nat (length out)) ∧
    concat (map blk_rows blocks) ≡ₚ yielded_rows out ++ rest ∧
    Z.of_nat (length rest) < n ∧ (drop_last = false → rest = []) ∧
    Forall (λ o, 0 < Z.of_nat (length (blk_rows o.2)) ≤ n) out.
Proof.
  intros Hn. set (L := shuffle_laws (Row:=Row) (B:=B) n Hn).
  destruct (ShufflingBatcher.init (Some n) min_size seed) as [st|] eqn:Hi; [|done].
  injection Hi as <-. eexists.
  edestruct (run_init (BatcherLaws0:=L) n (≡ₚ) false Hn blocks)
    as (out & rest & Hr & H1 & H2 & H3 & H4 & H5 & H6);
    [..|exists out, rest; split_and!; [done|exact Hr|done..]]; [|done..].
  simpl. split_and!; simpl; [done|lia| |done].
  apply Z.quot_le_lower_bound; destruct (Z.ltb_spec min_size n); lia.
Qed.
End yielded.

(** ** Concrete inputs: tables as lists of rows, a reversing "generator" *)
Section concrete.

#[local] Instance list_building : BlockBuilding Z (list Z) := {|
  blk_empty := []; blk_concat := @concat Z; blk_concat_copies bs := 1 <? Z.of_nat (length bs);
  blk_copy b := b; blk_combine b := b; blk_take := rows_at;
  rng := Z; default_rng := default 0; rng_permutation n g := (reverse (seqZ 0 n), g + 1) |}.

#[local] Existing Instance list_blocks.
#[local] Existing Instance list_blocks_laws.

#[local] Instance list_building_laws : BlockBuildingLaws Z (list Z).
Proof.
  split; [|done..|].
  - intros bs. simpl. by rewrite map_id.
  - intros n g. apply reverse_Permutation.
Qed.

Lemma batcher_iteration_witness :
  0 < 3 ∧ ∃ out rest,
    BatchingIterator.run 8 (BatchingIterator.init [[1; 2]; []; [3; 4; 5; 6; 7]]
      (Batcher.init (Some 3) false) false) = Ok (Some out) ∧
    map fst out = seqZ 0 (Z.of_nat (length out)) ∧
    [1; 2; 3; 4; 5; 6; 7] = yielded_rows out ++ rest ∧
    Z.of_nat (length rest) < 3 ∧ (false = false → rest = []) ∧
    Forall (λ o, 0 < Z.of_nat (length (blk_rows o.2)) ≤ 3) out ∧
    (∀ i o, out !! i = Some o → false = true ∨ (S i < length out)%nat →
       Z.of_nat (length (blk_rows o.2)) = 3).
Proof.
  split; [lia|].
  exact (batcher_iteration 3 false false [[1; 2]; []; [3; 4; 5; 6; 7]] ltac:(lia)).
Defined.

Lemma shuffling_iteration_witness :
  0 < 2 ∧ ∃ st out rest,
    ShufflingBatcher.init (Some 2) 4 (Some 7) = Ok st ∧
    BatchingIterator.run 6 (BatchingIterator.init [[1; 2; 3]; [4; 5]] st true)
      = Ok (Some out) ∧
    map fst out = seqZ 0 (Z.of_nat (length out)) ∧
    [1; 2; 3; 4; 5] ≡ₚ yielded_rows out ++ rest ∧
    Z.of_nat (length rest) < 2 ∧ (true = false → rest = []) ∧
    Forall (λ o, 0 < Z.of_nat (length (blk_rows o.2)) ≤ 2) out.
Proof.
  split; [lia|].
  exact (shuffling_iteration 2 4 (Some 7) true [[1; 2; 3]; [4; 5]] ltac:(lia)).
Defined.

(** The sizes of the batches of a shuffling iteration. *)
Definition shuffled_sizes (n min_size : Z) (drop_last : bool) (blocks : list (list Z)) :
    result (option (list nat)) :=
  st ← ShufflingBatcher.init (Some n) min_size (Some 0);
  out ← BatchingIterator.run (S (length (concat blocks)))
    (BatchingIterator.init blocks st drop_last);
  Ok (option_map (map (λ o, length o.2)) out).

(** A shuffling iteration may yield a short batch before the end, and does
    so even with [drop_last]: with batch size and buffer size 10 and blocks of
    26, 4 and 10 rows, six drawn rows are above the compaction threshold 5 and
    below the batch size, so the third of four batches has 6 rows while 14
    rows are still to come. *)
Theorem shuffling_short_batch :
  shuffled_sizes 10 10 true [seqZ 0 26; seqZ 26 4; seqZ 30 10]
    = Ok (Some [10; 10; 6; 10]%nat).
Proof. vm_compute. reflexivity. Qed.
End concrete.
