(* ===== verification/PyFloat.v ===== *)
(** * Python floats

    IEEE 754 binary64, as the standard library's [SpecFloat] defines it, and
    the comparison of a float with an integer, which Python does exactly. *)
From Stdlib Require Export SpecFloat.
From S2P Require Import Prelude.

Abbreviation float := spec_float.

#[export] Instance float_eq_dec : EqDecision float.
Proof. solve_decision. Defined.

Definition f_zero : float := S754_zero false.
Definition f_add (x y : float) : float := SFadd 53 1024 x y.
Definition f_mul (x y : float) : float := SFmul 53 1024 x y.
Definition f_of_int (n : Z) : float := binary_normalize 53 1024 n 0 false.
Definition f_sub (x y : float) : float := SFsub 53 1024 x y.
Definition f_ltb (x y : float) : bool := SFltb x y.
Definition f_eqb (x y : float) : bool := SFeqb x y.
Definition f_opp (x : float) : float := SFopp x.
Definition f_is_nan (x : float) : bool := match x with S754_nan => true | _ => false end.
Definition f_neg_inf : float := S754_infinity true.

(** How a float compares with an integer; [None] for a nan. *)
Definition f_compare_int (x : float) (n : Z) : option comparison :=
  match x with
  | S754_zero _ => Some (0 ?= n)
  | S754_infinity s => Some (if s then Lt else Gt)
  | S754_nan => None
  | S754_finite s m e =>
      let v := if s then Z.neg m else Z.pos m in
      Some (if 0 <=? e then v * 2 ^ e ?= n else v ?= n * 2 ^ (- e))
  end.

(** [x > n], [x >= n] and [x <= n] *)
Definition f_gt_int (x : float) (n : Z) : bool :=
  match f_compare_int x n with Some Gt => true | _ => false end.
Definition f_ge_int (x : float) (n : Z) : bool :=
  match f_compare_int x n with Some Gt | Some Eq => true | _ => false end.
Definition f_le_int (x : float) (n : Z) : bool :=
  match f_compare_int x n with Some Lt | Some Eq => true | _ => false end.

(** [math.ceil(x)] *)
Definition f_ceil (x : float) : result Z :=
  match x with
  | S754_zero _ => Ok 0
  | S754_infinity _ => Raise OverflowError
  | S754_nan => Raise ValueError
  | S754_finite s m e =>
      let v := if s then Z.neg m else Z.pos m in
      Ok (if 0 <=? e then v * 2 ^ e else - ((- v) / 2 ^ (- e)))
  end.

(** [int(n // 1e9)]: [n] is rounded to a float first; the floored quotient
    is exact while it is below 2^53. *)
Definition seconds_of_ns (n : Z) : Z :=
  match f_of_int n with
  | S754_finite s m e =>
      let v := if s then Z.neg m else Z.pos m in
      if 0 <=? e then v * 2 ^ e / 10 ^ 9 else v / (10 ^ 9 * 2 ^ (- e))
  | _ => 0
  end.

(** [x <= y] *)
Definition f_leb (x y : float) : bool := SFleb x y.

(** [math.floor], as a float. *)
Definition f_floor (x : float) : float :=
  match x with
  | S754_finite s m e =>
      if 0 <=? e then x else f_of_int ((if s then Z.neg m else Z.pos m) / 2 ^ (- e))
  | _ => x
  end.

(** C's [fmod], exact, with the sign of [x]. *)
Definition f_fmod (x y : float) : float :=
  match x, y with
  | S754_nan, _ | _, S754_nan | S754_infinity _, _ | _, S754_zero _ => S754_nan
  | S754_zero _, _ | _, S754_infinity _ => x
  | S754_finite s m e, S754_finite _ n d =>
      let k := Z.min e d in
      let r := (Z.pos m * 2 ^ (e - k)) mod (Z.pos n * 2 ^ (d - k)) in
      if r =? 0 then S754_zero s else binary_normalize 53 1024 (if s then - r else r) k false
  end.

Definition f_div (x y : float) : float := SFdiv 53 1024 x y.
Definition f_one : float := f_of_int 1.

(** [x // y] for a [y] other than zero. *)
Definition f_floordiv (x y : float) : float :=
  let mod_ := f_fmod x y in
  let div := f_div (f_sub x mod_) y in
  let div := if negb (f_eqb mod_ f_zero) && negb (eqb (f_ltb y f_zero) (f_ltb mod_ f_zero))
             then f_sub div f_one else div in
  if f_eqb div f_zero
  then match f_div x y with
       | S754_zero s | S754_infinity s | S754_finite s _ _ => S754_zero s | S754_nan => f_zero end
  else let q := f_floor div in
       if f_ltb (f_div f_one (f_of_int 2)) (f_sub div q) then f_add q f_one else q.

(** [max(0.0, x)]: Python keeps the first argument unless the second is
    greater. *)
Definition f_max0 (x : float) : float := if f_ltb f_zero x then x else f_zero.

Lemma f_gt_ge_int x n : f_gt_int x n = true → f_ge_int x n = true.
Proof. unfold f_gt_int, f_ge_int. by destruct (f_compare_int x n) as [[]|]. Qed.

Lemma f_add_zero_r x : x ≠ S754_zero true → f_add x f_zero = x.
Proof. by destruct x as [[]| | |]. Qed.

(** ** Signs: sums of non-negative floats are non-negative *)
Definition f_nonneg (x : float) : Prop :=
  match x with
  | S754_zero s | S754_infinity s | S754_finite s _ _ => s = false
  | S754_nan => True
  end.

Lemma binary_round_aux_nonneg m e l : f_nonneg (binary_round_aux 53 1024 false m e l).
Proof.
  unfold binary_round_aux. destruct (shr_fexp _ _ _ _ _) as [mrs e'].
  destruct (shr_fexp _ _ _ _ _) as [mrs' e'']. destruct (shr_m mrs'); simpl; [done| |done].
  by destruct (_ <=? _).
Qed.

Lemma f_add_nonneg x y : f_nonneg x → f_nonneg y → f_nonneg (f_add x y).
Proof.
  destruct x as [sx|sx| |sx mx ex], y as [sy|sy| |sy my ey]; simpl; try done; intros; subst; try done.
  unfold f_add, SFadd. simpl. unfold binary_round.
  destruct (shl_align _ _ (fexp _ _ _)) as [mz ez]. apply binary_round_aux_nonneg.
Qed.

Lemma f_max0_nonneg x : f_nonneg (f_max0 x).
Proof. unfold f_max0. by destruct x as [[]|[]| |[]]. Qed.

Lemma f_nonneg_add_zero x : f_nonneg x → f_add x f_zero = x.
Proof. intros H. apply f_add_zero_r. intros ->. done. Qed.

(** ** The order of floats that are not nan: lexicographic in sign, exponent
    and mantissa *)
Definition f_rank (x : float) : Z * Z * Z :=
  match x with
  | S754_zero _ => (0, 0, 0)
  | S754_infinity s => (if s then -2 else 2, 0, 0)
  | S754_nan => (0, 0, 0)
  | S754_finite s m e => if s then (-1, - e, Z.neg m) else (1, e, Z.pos m)
  end.

Definition lt3 (a b : Z * Z * Z) : Prop :=
  a.1.1 < b.1.1 ∨ a.1.1 = b.1.1 ∧ (a.1.2 < b.1.2 ∨ a.1.2 = b.1.2 ∧ a.2 < b.2).

Lemma f_compare_rank x y : f_is_nan x = false → f_is_nan y = false →
  match SFcompare x y with
  | Some Lt => lt3 (f_rank x) (f_rank y)
  | Some Gt => lt3 (f_rank y) (f_rank x)
  | Some Eq => f_rank x = f_rank y
  | None => False
  end.
Proof.
  unfold lt3. destruct x as [[]|[]| |[] m e], y as [[]|[]| |[] m' e']; simpl; try done; try lia.
  all: change (Pos.compare_cont Eq m m') with (Pos.compare m m').
  all: destruct (Z.compare_spec e e'); simpl; [|lia|lia].
  all: destruct (Pos.compare_spec m m'); simpl; subst; (done || lia).
Qed.

Lemma f_ltb_rank x y : f_is_nan x = false → f_is_nan y = false →
  f_ltb x y = true ↔ lt3 (f_rank x) (f_rank y).
Proof.
  intros Hx Hy. pose proof (f_compare_rank x y Hx Hy) as H. unfold f_ltb, SFltb.
  destruct (SFcompare x y) as [[]|]; [..|done].
  - rewrite H. unfold lt3. split; [done|lia].
  - done.
  - unfold lt3 in *. split; [done|lia].
Qed.

Lemma f_eqb_rank x y : f_is_nan x = false → f_is_nan y = false →
  f_eqb x y = true ↔ f_rank x = f_rank y.
Proof.
  intros Hx Hy. pose proof (f_compare_rank x y Hx Hy) as H. unfold f_eqb, SFeqb.
  destruct (SFcompare x y) as [[]|]; [done| | |done].
  all: split; [done|]; intros E; rewrite E in H; unfold lt3 in H; lia.
Qed.

(** [int(x)], which truncates. *)
Definition f_int (x : float) : result Z :=
  match x with
  | S754_zero _ => Ok 0
  | S754_infinity _ => Raise OverflowError
  | S754_nan => Raise ValueError
  | S754_finite s m e =>
      let n := if 0 <=? e then Z.pos m * 2 ^ e else Z.pos m / 2 ^ (- e) in
      Ok (if s then - n else n)
  end.

(** [sum] of floats, from the left as Python adds them up to version 3.11;
    later versions compensate for rounding, which changes neither sums of
    small integers nor whether non-negative numbers sum to zero. *)
Definition f_sum (l : list float) : float := foldl f_add f_zero l.

(** ** Small integers as floats *)
Definition dbl (k : nat) (p : positive) : positive := Nat.iter k xO p.

Lemma dbl_value k p : Z.pos (dbl k p) = Z.pos p * 2 ^ Z.of_nat k.
Proof.
  induction k as [|k IH]; [change (dbl 0 p) with p; lia|]. change (dbl (S k) p) with (xO (dbl k p)).
  rewrite Nat2Z.inj_succ, Z.pow_succ_r by lia. rewrite Pos2Z.inj_xO, IH. lia.
Qed.

Lemma dbl_digits k p : Z.pos (digits2_pos (dbl k p)) = Z.pos (digits2_pos p) + Z.of_nat k.
Proof.
  induction k as [|k IH]; [change (dbl 0 p) with p; lia|]. change (dbl (S k) p) with (xO (dbl k p)). cbn [digits2_pos]. lia.
Qed.

Lemma dbl_iter j p : Pos.iter xO p j = dbl (Pos.to_nat j) p.
Proof. apply Pos2Nat.inj_iter. Qed.

Lemma dbl_add j k p : dbl j (dbl k p) = dbl (j + k) p.
Proof. unfold dbl. by rewrite Nat.iter_add. Qed.

Lemma iter_shr j k p : (Pos.to_nat j ≤ k)%nat →
  SpecFloat.iter_pos shr_1 j {| shr_m := Z.pos (dbl k p); shr_r := false; shr_s := false |} =
  {| shr_m := Z.pos (dbl (k - Pos.to_nat j) p); shr_r := false; shr_s := false |}.
Proof.
  assert (∀ k, (0 < k)%nat → shr_1 {| shr_m := Z.pos (dbl k p); shr_r := false; shr_s := false |} =
    {| shr_m := Z.pos (dbl (k - 1) p); shr_r := false; shr_s := false |}) as H1.
  { intros [|n] ?; [lia|]. cbn. by rewrite Nat.sub_0_r. }
  revert k. induction j as [j IH|j IH|]; intros k Hk; cbn [SpecFloat.iter_pos].
  - rewrite H1, IH, IH by lia. do 2 f_equal. f_equal. lia.
  - rewrite IH, IH by lia. do 2 f_equal. f_equal. lia.
  - rewrite H1 by lia. done.
Qed.

Lemma fexp_small d : 0 < d ≤ 53 → fexp 53 1024 d = d - 53.
Proof. intros. unfold fexp, emin. lia. Qed.

(** A mantissa of 53 digits needs no rounding. *)
Lemma round_aux_full m e : Z.pos (digits2_pos m) = 53 → -53 ≤ e ≤ 0 →
  binary_round_aux 53 1024 false (Z.pos m) e loc_Exact = S754_finite false m e.
Proof.
  intros Hd He. unfold binary_round_aux, shr_fexp. cbn [Zdigits2]. rewrite Hd.
  assert (fexp 53 1024 (53 + e) - e = 0) as -> by (unfold fexp, emin; lia). cbn [shr shr_record_of_loc shr_m loc_of_shr_record round_nearest_even].
  cbn [Zdigits2]. rewrite Hd. assert (fexp 53 1024 (53 + e) - e = 0) as -> by (unfold fexp, emin; lia). cbn [shr shr_record_of_loc shr_m].
  rewrite (proj2 (Z.leb_le _ _)); [done|]. lia.
Qed.

Lemma round_dbl k p : Z.pos (digits2_pos p) ≤ 53 → (k ≤ 53)%nat →
  binary_round 53 1024 false (dbl k p) (- Z.of_nat k) =
  S754_finite false (dbl (53 - Pos.to_nat (digits2_pos p)) p) (Z.pos (digits2_pos p) - 53).
Proof.
  intros Hd Hk. unfold binary_round. rewrite dbl_digits.
  replace (Z.pos (digits2_pos p) + Z.of_nat k + - Z.of_nat k) with (Z.pos (digits2_pos p)) by lia.
  rewrite fexp_small by lia. set (d := Z.pos (digits2_pos p)) in *. assert (0 < d) as Hd0 by done.
  assert (Z.pos (digits2_pos (dbl (53 - Pos.to_nat (digits2_pos p)) p)) = 53) as Hfull by (rewrite dbl_digits; lia).
  unfold shl_align. destruct (d - 53 - - Z.of_nat k) as [|j|j] eqn:Hj.
  - rewrite <-round_aux_full by (done || lia). do 2 f_equal; [|lia]. f_equal. f_equal. lia.
  - unfold binary_round_aux at 1. unfold shr_fexp at 1. cbn [Zdigits2]. rewrite dbl_digits. fold d.
    replace (d + Z.of_nat k + - Z.of_nat k) with d by lia. rewrite fexp_small, Hj by lia.
    cbn [shr shr_record_of_loc]. rewrite iter_shr by lia. cbn [shr_m loc_of_shr_record round_nearest_even].
    replace (k - Pos.to_nat j)%nat with (53 - Pos.to_nat (digits2_pos p))%nat by lia.
    replace (- Z.of_nat k + Z.pos j) with (d - 53) by lia. unfold shr_fexp. cbn [Zdigits2]. rewrite Hfull.
    replace (fexp 53 1024 (53 + (d - 53)) - (d - 53)) with 0 by (unfold fexp, emin; lia). cbn [shr shr_record_of_loc shr_m].
    rewrite (proj2 (Z.leb_le _ _)); [done|]. lia.
  - rewrite dbl_iter, dbl_add, <-round_aux_full by (done || lia). do 3 f_equal. lia.
Qed.

Lemma digits_bound p : Z.pos p < 2 ^ 53 → Z.pos (digits2_pos p) ≤ 53.
Proof.
  assert (2 ^ (Z.pos (digits2_pos p) - 1) ≤ Z.pos p) as H.
  { induction p as [p IH|p IH|]; cbn [digits2_pos]; [| |done];
      replace (Z.pos (Pos.succ (digits2_pos p)) - 1) with (Z.succ (Z.pos (digits2_pos p) - 1)) by lia;
      rewrite Z.pow_succ_r by lia; lia. }
  intros Hp. destruct (Z.le_gt_cases (Z.pos (digits2_pos p)) 53); [done|].
  pose proof (Z.pow_le_mono_r 2 53 (Z.pos (digits2_pos p) - 1) ltac:(lia) ltac:(lia)). lia.
Qed.

Lemma f_of_int_dbl q : Z.pos q < 2 ^ 53 → f_of_int (Z.pos q) =
  S754_finite false (dbl (53 - Pos.to_nat (digits2_pos q)) q) (Z.pos (digits2_pos q) - 53).
Proof. intros Hq. apply (round_dbl 0 q); [by apply digits_bound|lia]. Qed.

(** Adding one to an integer below [2^53] is exact. *)
Lemma f_add_one n : 0 ≤ n < 2 ^ 53 - 1 → f_add (f_of_int n) f_one = f_of_int (n + 1).
Proof.
  intros Hn. destruct n as [|p|]; [done| |lia].
  replace (Z.pos p + 1) with (Z.pos (p + 1)) by lia. rewrite !f_of_int_dbl by lia.
  pose proof (digits_bound p ltac:(lia)) as Hd. change f_one with (S754_finite false (dbl 52 1) (-52)).
  unfold f_add, SFadd. replace (Z.min (Z.pos (digits2_pos p) - 53) (-52)) with (-52) by lia.
  change (fst (shl_align (dbl 52 1) (-52) (-52))) with (dbl 52 1).
  assert (fst (shl_align (dbl (53 - Pos.to_nat (digits2_pos p)) p) (Z.pos (digits2_pos p) - 53) (-52)) = dbl 52 p) as ->.
  { unfold shl_align. destruct (-52 - (Z.pos (digits2_pos p) - 53)) as [|j|j] eqn:Hj; cbn [fst]; [f_equal; lia|lia|].
    rewrite dbl_iter, dbl_add. f_equal. lia. }
  cbn [cond_Zopp]. replace (Z.pos (dbl 52 p) + Z.pos (dbl 52 1)) with (Z.pos (dbl 52 (p + 1))) by (rewrite !dbl_value; lia).
  apply (round_dbl 52); [apply digits_bound|]; lia.
Qed.

(** [int] of an integer below [2^53] is exact. *)
Lemma f_int_of_int n : 0 ≤ n < 2 ^ 53 → f_int (f_of_int n) = Ok n.
Proof.
  intros Hn. destruct n as [|p|]; [done| |lia]. pose proof (digits_bound p ltac:(lia)) as Hd.
  rewrite f_of_int_dbl by lia. unfold f_int. rewrite dbl_value.
  destruct (Z.leb_spec 0 (Z.pos (digits2_pos p) - 53)).
  - replace (Z.pos (digits2_pos p) - 53) with 0 by lia. replace (53 - Pos.to_nat (digits2_pos p))%nat with O by lia. f_equal. lia.
  - replace (- (Z.pos (digits2_pos p) - 53)) with (Z.of_nat (53 - Pos.to_nat (digits2_pos p))) by lia.
    by rewrite Z.div_mul by (apply Z.pow_nonzero; lia).
Qed.

(** A positive number goes into itself once. *)
Lemma div_eucl_mul m : Z.div_eucl (Z.pos m * 2 ^ 53) (Z.pos m) = (2 ^ 53, 0).
Proof.
  pose proof (Z.div_mul (2 ^ 53) (Z.pos m) ltac:(done)) as H3. pose proof (Z.mod_mul (2 ^ 53) (Z.pos m) ltac:(done)) as H4.
  rewrite Z.mul_comm in H3, H4. unfold Z.div in H3. unfold Z.modulo in H4. destruct (Z.div_eucl _ _); cbn [fst snd] in *; by subst.
Qed.

Lemma f_div_self m e : f_div (S754_finite false m e) (S754_finite false m e) = f_one.
Proof.
  assert (SFdiv_core_binary 53 1024 (Z.pos m) e (Z.pos m) e = (2 ^ 53, -53, loc_Exact)) as H.
  { unfold SFdiv_core_binary. rewrite Z.sub_diag, Z.sub_diag. change (fexp 53 1024 0) with (-53).
    change (Z.min (-53) 0) with (-53). change (0 - (-53)) with 53. cbv iota. rewrite Z.shiftl_mul_pow2 by lia.
    rewrite div_eucl_mul. unfold new_location, new_location_even, new_location_odd. by destruct (Z.even (Z.pos m)). }
  unfold f_div, SFdiv. rewrite H. reflexivity.
Qed.

Lemma f_floordiv_self m e : f_floordiv (S754_finite false m e) (S754_finite false m e) = f_one.
Proof.
  unfold f_floordiv. assert (f_fmod (S754_finite false m e) (S754_finite false m e) = f_zero) as ->.
  { unfold f_fmod. rewrite Z.min_id, Z.sub_diag, Z.mul_1_r, Z.mod_same by done. done. }
  change (f_sub (S754_finite false m e) f_zero) with (S754_finite false m e). rewrite f_div_self. reflexivity.
Qed.
