(* ===== verification/RoundRobin.v ===== *)
(** * [data/_internal/weighted_round_robin.py]

    A partitioner that spreads weighted items over buckets, round robin, and
    emits a bucket when it is full. *)
From S2P Require Import Prelude PyFloat.

Module WeightedBucket.
Record t (T : Type) : Type := { items : list T; weight : float }.
Arguments Build_t {T}.
Arguments items {T}.
Arguments weight {T}.

Definition empty {T} : t T := Build_t [] f_zero.
Definition add {T} (item : T) (w : float) (b : t T) : t T :=
  Build_t (items b ++ [item]) (f_add (weight b) w).
Definition clear {T} (b : t T) : t T := Build_t [] f_zero.
End WeightedBucket.

Module WeightedRoundRobinPartitioner.
Section partitioner.
Context {T : Type}.

Record t : Type := {
  _num_buckets : Z;
  _min_bucket_size : Z;
  _max_bucket_size : Z;
  _emit_before_overflow : bool;
  _buckets : list (WeightedBucket.t T);
  _current_bucket_index : Z;
  _output_queue : list (list T)
}.

Definition init (min_bucket_size max_bucket_size num_buckets : Z)
    (emit_before_overflow : bool) : t := {|
  _num_buckets := Z.max 1 num_buckets;
  _min_bucket_size := min_bucket_size;
  _max_bucket_size := max_bucket_size;
  _emit_before_overflow := emit_before_overflow;
  _buckets := replicate (Z.to_nat (Z.max 1 num_buckets)) WeightedBucket.empty;
  _current_bucket_index := 0;
  _output_queue := [] |}.

Definition set (buckets : list (WeightedBucket.t T)) (current : Z) (out : list (list T))
    (x : t) : t := {|
  _num_buckets := _num_buckets x; _min_bucket_size := _min_bucket_size x;
  _max_bucket_size := _max_bucket_size x; _emit_before_overflow := _emit_before_overflow x;
  _buckets := buckets; _current_bucket_index := current; _output_queue := out |}.

(** The truth value of a list. *)
Definition nonempty (l : list T) : bool := match l with [] => false | _ => true end.

(** [self._current_bucket]; the index stays in range. *)
Definition _current_bucket (x : t) : result (WeightedBucket.t T) :=
  or_raise IndexError (_buckets x !! Z.to_nat (_current_bucket_index x)).

(** A method call on the current bucket, which the list shares. *)
Definition update_current (f : WeightedBucket.t T → WeightedBucket.t T) (x : t) : t :=
  set (alter f (Z.to_nat (_current_bucket_index x)) (_buckets x))
    (_current_bucket_index x) (_output_queue x) x.

Definition _advance_bucket (x : t) : t :=
  set (_buckets x) ((_current_bucket_index x + 1) mod _num_buckets x) (_output_queue x) x.

Definition _emit_current_bucket (x : t) : result t :=
  b ← _current_bucket x;
  let x := set (_buckets x) (_current_bucket_index x)
    (_output_queue x ++ [WeightedBucket.items b]) x in
  Ok (_advance_bucket (update_current WeightedBucket.clear x)).

(** The [while] of [add_item]. *)
Fixpoint emit_loop (fuel : nat) (w : float) (x : t) : result (option t) :=
  match fuel with
  | O => Ok None
  | S fuel =>
      b ← _current_bucket x;
      if _emit_before_overflow x && nonempty (WeightedBucket.items b) &&
         f_gt_int (f_add (WeightedBucket.weight b) w) (_max_bucket_size x)
      then x ← _emit_current_bucket x; emit_loop fuel w x
      else Ok (Some x)
  end.

(** [add_item]; the loop clears one bucket per iteration. *)
Definition add_item (item : T) (weight : option float) (x : t) : result (option t) :=
  match weight with
  | None => Ok (Some (_advance_bucket (update_current (WeightedBucket.add item f_zero) x)))
  | Some w =>
      let w := f_max0 w in
      o ← emit_loop (S (length (_buckets x))) w x;
      match o with
      | None => Ok None
      | Some x =>
          let x := update_current (WeightedBucket.add item w) x in
          b ← _current_bucket x;
          if f_ge_int (WeightedBucket.weight b) (_max_bucket_size x)
          then x ← _emit_current_bucket x; Ok (Some x)
          else if f_ge_int (WeightedBucket.weight b) (_min_bucket_size x)
          then Ok (Some (_advance_bucket x)) else Ok (Some x)
      end
  end.

Definition has_partition (x : t) : bool := 0 <? Z.of_nat (length (_output_queue x)).

Definition next_partition (x : t) : result (list T * t) :=
  match _output_queue x with
  | [] => Raise IndexError
  | p :: q => Ok (p, set (_buckets x) (_current_bucket_index x) q x)
  end.

(** The loop of [finalize]: the buckets after it, and what it appended. *)
Fixpoint finalize_loop (bs : list (WeightedBucket.t T)) :
    list (WeightedBucket.t T) * list (list T) :=
  match bs with
  | [] => ([], [])
  | b :: bs =>
      let '(bs', out) := finalize_loop bs in
      match WeightedBucket.items b with
      | [] => (b :: bs', out)
      | its => (WeightedBucket.clear b :: bs', its :: out)
      end
  end.

Definition finalize (x : t) : t :=
  let '(bs, out) := finalize_loop (_buckets x) in
  set bs (_current_bucket_index x) (_output_queue x ++ out) x.
End partitioner.
Arguments t : clear implicits.
End WeightedRoundRobinPartitioner.
