(* ===== verification/RoundRobinFacts.v ===== *)
(** * The round-robin partitioner: no item lost, no partition overfull *)
From S2P Require Import Prelude PyFloat RoundRobin.

Lemma alter_middle {A} (f : A → A) (l r : list A) x :
  alter f (length l) (l ++ x :: r) = l ++ f x :: r.
Proof. induction l as [|y l IH]; [done|]. simpl. f_equal. exact IH. Qed.

Section facts.
Context {T : Type} (wt : T → option float).
Implicit Types (x y : WeightedRoundRobinPartitioner.t T) (b : WeightedBucket.t T).
Import WeightedRoundRobinPartitioner.

(** Adding items one after the other. *)
Fixpoint feed (its : list T) x : result (option (t T)) :=
  match its with
  | [] => Ok (Some x)
  | it :: its =>
      o ← add_item it (wt it) x;
      match o with None => Ok None | Some x => feed its x end
  end.

Definition item_weight (it : T) : float :=
  match wt it with None => f_zero | Some w => f_max0 w end.

(** The accumulated weight of a bucket holding these items. *)
Definition total_weight (its : list T) : float :=
  foldl (λ w it, f_add w (item_weight it)) f_zero its.

(** What holds of every partition: its items come in the order they were
    added and, where buckets are emitted before they overflow, it is a single
    item or weighs at most the maximum. *)
Definition good_partition (before : bool) (max : Z) (done p : list T) : Prop :=
  p ≠ [] ∧ p `sublist_of` done ∧
  (before = true → length p = 1%nat ∨ f_gt_int (total_weight p) max = false).

Definition good_bucket (max : Z) (done : list T) b : Prop :=
  WeightedBucket.items b `sublist_of` done ∧
  WeightedBucket.weight b = total_weight (WeightedBucket.items b) ∧
  f_gt_int (WeightedBucket.weight b) max = false.

Record inv (done : list T) (x : t T) : Prop := {
  inv_index : 0 ≤ _current_bucket_index x < _num_buckets x;
  inv_length : Z.of_nat (length (_buckets x)) = _num_buckets x;
  inv_rows : concat (_output_queue x) ++ concat (map WeightedBucket.items (_buckets x)) ≡ₚ done;
  inv_queue : Forall (good_partition (_emit_before_overflow x) (_max_bucket_size x) done)
    (_output_queue x);
  inv_buckets : Forall (good_bucket (_max_bucket_size x) done) (_buckets x)
}.

(** The configuration does not change. *)
Definition same_config x y : Prop :=
  _num_buckets y = _num_buckets x ∧ _min_bucket_size y = _min_bucket_size x ∧
  _max_bucket_size y = _max_bucket_size x ∧
  _emit_before_overflow y = _emit_before_overflow x ∧
  length (_buckets y) = length (_buckets x).

Lemma item_weight_nonneg it : f_nonneg (item_weight it).
Proof. unfold item_weight. destruct (wt it); [apply f_max0_nonneg|done]. Qed.

Lemma total_weight_snoc its it :
  total_weight (its ++ [it]) = f_add (total_weight its) (item_weight it).
Proof. unfold total_weight. by rewrite foldl_app. Qed.

Lemma total_weight_nonneg its : f_nonneg (total_weight its).
Proof.
  induction its as [|it its IH] using rev_ind; [done|]. rewrite total_weight_snoc.
  apply f_add_nonneg; [done|apply item_weight_nonneg].
Qed.

Lemma good_partition_mono before max done it p :
  good_partition before max done p → good_partition before max (done ++ [it]) p.
Proof.
  intros (H1 & H2 & H3). split_and!; [done| |done].
  etrans; [exact H2|]. by apply sublist_inserts_r.
Qed.

Lemma good_bucket_mono max done it b :
  good_bucket max done b → good_bucket max (done ++ [it]) b.
Proof.
  intros (H1 & H2 & H3). split_and!; [|done..]. etrans; [exact H1|]. by apply sublist_inserts_r.
Qed.

Lemma empty_good max done : 0 ≤ max → good_bucket max done (WeightedBucket.empty).
Proof.
  intros Hm. split_and!; [apply sublist_nil_l|done|].
  change (f_gt_int f_zero max = false). unfold f_gt_int, f_compare_int, f_zero.
  destruct (Z.compare_spec 0 max); [done..|lia].
Qed.

(** The current bucket [b], between the buckets before and after it. *)
Definition current_split x (l : list (WeightedBucket.t T)) b r : Prop :=
  _buckets x = l ++ b :: r ∧ Z.of_nat (length l) = _current_bucket_index x.

Lemma inv_current done x : inv done x → ∃ l b r, current_split x l b r.
Proof.
  intros H. pose proof (inv_index _ _ H). pose proof (inv_length _ _ H).
  destruct (lookup_lt_is_Some_2 (_buckets x) (Z.to_nat (_current_bucket_index x)))
    as [b Hb]; [lia|].
  exists (take (Z.to_nat (_current_bucket_index x)) (_buckets x)), b,
    (drop (S (Z.to_nat (_current_bucket_index x))) (_buckets x)).
  split; [by rewrite take_drop_middle|]. rewrite length_take. lia.
Qed.

Lemma current_eq x l b r : current_split x l b r → _current_bucket x = Ok b.
Proof.
  intros [Hb Hl]. unfold _current_bucket. rewrite <-Hl, Nat2Z.id, Hb.
  by rewrite list_lookup_middle.
Qed.

Lemma update_current_split f x l b r :
  current_split x l b r → current_split (update_current f x) l (f b) r.
Proof.
  intros [Hb Hl]. split; simpl; [|done]. by rewrite <-Hl, Nat2Z.id, Hb, alter_middle.
Qed.

Lemma advance_inv done x : inv done x → inv done (_advance_bucket x).
Proof.
  intros [H1 H2 H3 H4 H5]. split; simpl; [|done..]. apply Z.mod_pos_bound. lia.
Qed.

(** Emitting the current bucket, given that it makes a good partition. *)
Lemma emit_spec done x l b r : 0 ≤ _max_bucket_size x →
  current_split x l b r → Z.of_nat (length (_buckets x)) = _num_buckets x →
  concat (_output_queue x) ++ concat (map WeightedBucket.items (_buckets x)) ≡ₚ done →
  Forall (good_partition (_emit_before_overflow x) (_max_bucket_size x) done) (_output_queue x) →
  Forall (good_bucket (_max_bucket_size x) done) (l ++ r) →
  good_partition (_emit_before_overflow x) (_max_bucket_size x) done (WeightedBucket.items b) →
  ∃ y, _emit_current_bucket x = Ok y ∧ inv done y ∧ same_config x y ∧
    _buckets y = l ++ WeightedBucket.empty :: r.
Proof.
  intros Hm Hc Hlen Hrows Hq Hbs Hp. unfold _emit_current_bucket.
  rewrite (current_eq x l b r Hc). simpl. eexists. split; [done|].
  destruct Hc as [Hb Hl].
  assert (alter WeightedBucket.clear (Z.to_nat (_current_bucket_index x)) (_buckets x)
    = l ++ WeightedBucket.empty :: r) as Hu.
  { by rewrite <-Hl, Nat2Z.id, Hb, alter_middle. }
  split; [|repeat split; simpl; by rewrite ?length_alter].
  rewrite Hb in Hrows, Hlen. rewrite length_app in Hlen. simpl in Hlen.
  split; simpl; rewrite ?Hu.
  - apply Z.mod_pos_bound. lia.
  - rewrite length_app. simpl. lia.
  - rewrite map_app, concat_app in Hrows |- *. simpl in *.
    rewrite concat_app. simpl. rewrite app_nil_r, <-Hrows. solve_Permutation.
  - apply Forall_app. split; [done|by constructor].
  - apply Forall_app in Hbs as [? ?]. apply Forall_app. split; [done|].
    constructor; [by apply empty_good|done].
Qed.

(** The buckets the loop can still empty. *)
Definition filled x : nat := length (filter (λ b, WeightedBucket.items b ≠ []) (_buckets x)).

Lemma emit_loop_spec done w fuel x : 0 ≤ _max_bucket_size x → inv done x →
  (filled x < fuel)%nat →
  ∃ y, emit_loop fuel w x = Ok (Some y) ∧ inv done y ∧ same_config x y ∧
    ∃ l b r, current_split y l b r ∧
      (_emit_before_overflow x = true → WeightedBucket.items b ≠ [] →
       f_gt_int (f_add (WeightedBucket.weight b) w) (_max_bucket_size x) = false).
Proof.
  revert x. induction fuel as [|fuel IH]; intros x Hm Hx Hf; [lia|]. simpl.
  destruct (inv_current _ _ Hx) as (l & b & r & Hc). rewrite (current_eq x l b r Hc). simpl.
  destruct (_emit_before_overflow x && nonempty (WeightedBucket.items b) &&
    f_gt_int (f_add (WeightedBucket.weight b) w) (_max_bucket_size x)) eqn:Hcond.
  - apply andb_true_iff in Hcond as [[He Hne]%andb_true_iff Hgt].
    destruct Hx as [H1 H2 H3 H4 H5]. destruct (Hc) as [Hb Hl].
    rewrite Hb in H5. apply Forall_app in H5 as [H5 [H6 H7]%Forall_cons].
    destruct (emit_spec done x l b r) as (y & Hy & Hinv & Hcfg & Hby); try done.
    { by apply Forall_app. }
    { destruct H6 as (Hs & Hw & Hg). split_and!; [|done|].
      - intros E. by rewrite E in Hne.
      - right. by rewrite <-Hw. }
    rewrite Hy. simpl. destruct (Hcfg) as (C1 & C2 & C3 & C4 & C5).
    destruct (IH y) as (z & Hz & Hzinv & Hzcfg & l' & b' & r' & Hzc & Hzw).
    + by rewrite C3.
    + done.
    + unfold filled in *. rewrite Hby. rewrite Hb in Hf.
      rewrite filter_app, filter_cons, length_app in Hf |- *.
      rewrite (decide_False (P:=WeightedBucket.items WeightedBucket.empty ≠ [])) by naive_solver.
      rewrite decide_True in Hf; [simpl in Hf; lia|]. intros E. by rewrite E in Hne.
    + exists z. split_and!; [done|done| |].
      * destruct Hzcfg as (D1 & D2 & D3 & D4 & D5). unfold same_config. split_and!; congruence.
      * exists l', b', r'. rewrite C3, C4 in Hzw. done.
  - exists x. split_and!; [done|done|done|]. exists l, b, r. split; [done|].
    intros He Hne. rewrite He in Hcond. destruct (WeightedBucket.items b); [done|]. done.
Qed.

Lemma filled_bound x : (filled x < S (length (_buckets x)))%nat.
Proof. unfold filled. pose proof (length_filter (λ b, WeightedBucket.items b ≠ []) (_buckets x)). lia. Qed.

(** What adding an item to the current bucket leaves to show. *)
Lemma add_current done x l b r it w : inv done x → current_split x l b r →
  let y := update_current (WeightedBucket.add it w) x in
  current_split y l (WeightedBucket.add it w b) r ∧
  Z.of_nat (length (_buckets y)) = _num_buckets y ∧
  concat (_output_queue y) ++ concat (map WeightedBucket.items (_buckets y)) ≡ₚ done ++ [it] ∧
  Forall (good_partition (_emit_before_overflow y) (_max_bucket_size y) (done ++ [it]))
    (_output_queue y) ∧
  Forall (good_bucket (_max_bucket_size y) (done ++ [it])) (l ++ r) ∧
  good_bucket (_max_bucket_size y) done b ∧ same_config x y.
Proof.
  intros [H1 H2 H3 H4 H5] Hc. pose proof (update_current_split (WeightedBucket.add it w) _ _ _ _ Hc)
    as [Hy Hl]. destruct Hc as [Hb _]. rewrite Hb in *. simpl in Hl.
  apply Forall_app in H5 as [H5 [H6 H7]%Forall_cons]. split_and!; [done|..].
  - simpl. rewrite length_alter, Hb. done.
  - rewrite Hy. rewrite !map_app, !concat_app in *. simpl in *. rewrite <-H3. solve_Permutation.
  - eapply Forall_impl; [exact H4|]. intros p. apply good_partition_mono.
  - apply Forall_app.
    split; (eapply Forall_impl; [eassumption|]; intros ?; apply good_bucket_mono).
  - done.
  - repeat split. simpl. by rewrite length_alter, Hb.
Qed.

(** The bucket after the addition is good, if it is not over the maximum. *)
Lemma add_good max done b it w : good_bucket max done b →
  f_gt_int (f_add (WeightedBucket.weight b) w) max = false → w = item_weight it →
  good_bucket max (done ++ [it]) (WeightedBucket.add it w b).
Proof.
  intros (H1 & H2 & H3) Hg ->. split_and!; simpl; [by apply sublist_app| |done].
  by rewrite total_weight_snoc, H2.
Qed.

Lemma split_inv done x l b r : current_split x l b r →
  Z.of_nat (length (_buckets x)) = _num_buckets x →
  concat (_output_queue x) ++ concat (map WeightedBucket.items (_buckets x)) ≡ₚ done →
  Forall (good_partition (_emit_before_overflow x) (_max_bucket_size x) done) (_output_queue x) →
  Forall (good_bucket (_max_bucket_size x) done) (l ++ r) →
  good_bucket (_max_bucket_size x) done b → inv done x.
Proof.
  intros [Hb Hl] H1 H2 H3 H4 H5. split; [|done..|].
  - rewrite Hb, length_app in H1. simpl in H1. lia.
  - rewrite Hb. apply Forall_app in H4 as [? ?]. apply Forall_app. split; [done|by constructor].
Qed.

Lemma same_config_trans x y z : same_config x y → same_config y z → same_config x z.
Proof.
  unfold same_config. intros (?&?&?&?&?) (?&?&?&?&?). split_and!; congruence.
Qed.

Lemma add_item_spec done x it : 0 ≤ _max_bucket_size x → inv done x →
  ∃ y, add_item it (wt it) x = Ok (Some y) ∧ inv (done ++ [it]) y ∧ same_config x y.
Proof.
  intros Hm Hx. unfold add_item. pose proof (eq_refl (item_weight it)) as Hw.
  unfold item_weight in Hw at 2. destruct (wt it) as [w|] eqn:Hwt.
  - destruct (emit_loop_spec done (f_max0 w) (S (length (_buckets x))) x Hm Hx (filled_bound x))
      as (y & -> & Hy & Hcfg & l & b & r & Hc & Hfit). cbn [mbind result_bind].
    pose proof (add_current done y l b r it (f_max0 w) Hy Hc)
      as (Hc' & Hlen & Hrows & Hq & Hbs & Hgb & Hcfg').
    pose proof (same_config_trans _ _ _ Hcfg Hcfg') as Hcfg''.
    set (z := update_current _ y) in *. clearbody z. rewrite (current_eq _ _ _ _ Hc').
    cbn [mbind result_bind].
    destruct (Hcfg'') as (C1 & C2 & C3 & C4 & C5).
    destruct (f_ge_int _ (_max_bucket_size z)) eqn:Hge.
    + destruct (emit_spec (done ++ [it]) z l _ r ltac:(lia) Hc' Hlen Hrows Hq Hbs)
        as (u & -> & Hu & Hucfg & _).
      { destruct Hgb as (G1 & G2 & _). split_and!; simpl.
        - by destruct (WeightedBucket.items b).
        - by apply sublist_app.
        - rewrite C4, C3, total_weight_snoc, <-G2, Hw. intros He.
          destruct (WeightedBucket.items b) eqn:E; [by left|right]. by apply Hfit. }
      simpl. exists u. split; [done|]. split; [done|]. by eapply same_config_trans.
    + assert (f_gt_int (f_add (WeightedBucket.weight b) (f_max0 w)) (_max_bucket_size z) = false)
        as Hgt.
      { apply not_true_iff_false. intros Hgt%f_gt_ge_int. simpl in Hge. congruence. }
      assert (inv (done ++ [it]) z) as Hz.
      { eapply split_inv; [exact Hc'|done..|]. by apply add_good. }
      destruct (f_ge_int _ (_min_bucket_size z)); [|by exists z].
      exists (_advance_bucket z). split; [done|]. split; [by apply advance_inv|done].
  - destruct (inv_current _ _ Hx) as (l & b & r & Hc).
    pose proof (add_current done x l b r it f_zero Hx Hc)
      as (Hc' & Hlen & Hrows & Hq & Hbs & Hgb & Hcfg').
    eexists. split; [done|]. split; [|done]. apply advance_inv.
    eapply split_inv; [exact Hc'|done..|]. apply add_good; [done| |done].
    destruct Hgb as (_ & G2 & G3). rewrite f_nonneg_add_zero; [done|].
    rewrite G2. apply total_weight_nonneg.
Qed.

Lemma feed_spec its done x : 0 ≤ _max_bucket_size x → inv done x →
  ∃ y, feed its x = Ok (Some y) ∧ inv (done ++ its) y ∧ same_config x y.
Proof.
  revert done x. induction its as [|it its IH]; intros done x Hm Hx.
  { exists x. rewrite app_nil_r. done. }
  destruct (add_item_spec done x it Hm Hx) as (y & Hy & Hinv & Hcfg).
  simpl. rewrite Hy. simpl. destruct (IH (done ++ [it]) y) as (z & -> & Hz & Hcfg').
  { by destruct Hcfg as (_ & _ & -> & _). }
  { done. }
  exists z. rewrite <-(assoc_L (++)) in Hz. split; [done|]. split; [done|]. by eapply same_config_trans.
Qed.

Lemma init_inv min max n before : 0 ≤ max → inv [] (init min max n before).
Proof.
  intros Hm. split; simpl.
  - lia.
  - rewrite length_replicate. lia.
  - induction (Z.to_nat (Z.max 1 n)) as [|k IH]; [done|]. simpl. done.
  - constructor.
  - apply Forall_replicate. by apply empty_good.
Qed.

(** [finalize] moves what the buckets hold to the queue. *)
Lemma finalize_loop_spec (bs : list (WeightedBucket.t T)) :
  concat (finalize_loop bs).2 = concat (map WeightedBucket.items bs) ∧
  (finalize_loop bs).2 = filter (.≠ []) (map WeightedBucket.items bs) ∧
  Forall (λ b, WeightedBucket.items b = []) (finalize_loop bs).1.
Proof.
  induction bs as [|b bs (H1 & H2 & H3)]; [done|]. simpl.
  destruct (finalize_loop bs) as [bs' out]. simpl in *.
  rewrite filter_cons. destruct (WeightedBucket.items b) as [|it its] eqn:E; simpl.
  - split_and!; [done..|by constructor].
  - split_and!; [by rewrite H1|by rewrite H2|by constructor].
Qed.

(** C31: Items fed to the partitioner and flushed by [finalize] all come out:
    adding never fails and its loop stops, the partitions together hold
    exactly the items added, none is empty, each keeps the order of addition,
    no bucket holds anything any more, and when buckets are emitted before
    they overflow, every partition is a single item or has an accumulated
    (floating-point) weight of at most the maximum. *)
Theorem partitioner_spec (its : list T) (min max n : Z) (before : bool) :
  0 ≤ max →
  ∃ x, feed its (init min max n before) = Ok (Some x) ∧
    concat (_output_queue (finalize x)) ≡ₚ its ∧
    Forall (λ p, p ≠ [] ∧ p `sublist_of` its ∧
      (before = true → length p = 1%nat ∨ f_gt_int (total_weight p) max = false))
      (_output_queue (finalize x)) ∧
    Forall (λ b, WeightedBucket.items b = []) (_buckets (finalize x)).
Proof.
  intros Hm. destruct (feed_spec its [] (init min max n before) Hm (init_inv _ _ _ _ Hm))
    as (x & Hx & [H1 H2 H3 H4 H5] & (C1 & C2 & C3 & C4 & C5)).
  exists x. split; [done|]. simpl in *. unfold finalize.
  destruct (finalize_loop_spec (_buckets x)) as (F1 & F2 & F3).
  destruct (finalize_loop (_buckets x)) as [bs out]. simpl in *.
  rewrite C3, C4 in *. split_and!; [|apply Forall_app; split; [done|]|done].
  - by rewrite concat_app, F1.
  - rewrite F2. apply Forall_forall. intros p [Hp Hin]%list_elem_of_filter.
    apply list_elem_of_fmap in Hin as (b & -> & Hb).
    rewrite Forall_forall in H5. destruct (H5 b Hb) as (G1 & G2 & G3).
    split_and!; [done|done|]. intros _. right. by rewrite <-G2.
Qed.
End facts.

Lemma partitioner_spec_witness :
  0 ≤ 10 ∧ ∃ x, feed (λ i, Some (f_of_int i)) [4; 12; 7; 3; 20] 
      (WeightedRoundRobinPartitioner.init 5 10 2 true) = Ok (Some x) ∧
    concat (WeightedRoundRobinPartitioner._output_queue (WeightedRoundRobinPartitioner.finalize x))
      ≡ₚ [4; 12; 7; 3; 20] ∧
    Forall (λ p, p ≠ [] ∧ p `sublist_of` [4; 12; 7; 3; 20] ∧
      (true = true → length p = 1%nat ∨
       f_gt_int (total_weight (λ i, Some (f_of_int i)) p) 10 = false))
      (WeightedRoundRobinPartitioner._output_queue (WeightedRoundRobinPartitioner.finalize x)) ∧
    Forall (λ b, WeightedBucket.items b = [])
      (WeightedRoundRobinPartitioner._buckets (WeightedRoundRobinPartitioner.finalize x)).
Proof.
  split; [lia|].
  exact (partitioner_spec (λ i, Some (f_of_int i)) [4; 12; 7; 3; 20] 5 10 2 true ltac:(lia)).
Defined.
