(* ===== verification/InstanceUtil.v ===== *)
(** * [autoscaler/v2/instance_manager/common.py]

    The states of an autoscaler instance, its legal transitions, and the
    helper class [InstanceUtil].  The messages are those of
    [instance_manager.proto], read through their attributes: an unset optional
    string reads as the empty string. *)
From S2P Require Import Prelude PyFloat.

(** [Instance.InstanceStatus] *)
Inductive InstanceStatus : Type :=
  | UNKNOWN | QUEUED | REQUESTED | ALLOCATED | RAY_INSTALLING | RAY_RUNNING
  | RAY_STOP_REQUESTED | RAY_STOPPING | RAY_STOPPED | TERMINATING | TERMINATED
  | ALLOCATION_FAILED | RAY_INSTALL_FAILED | TERMINATION_FAILED | ALLOCATION_TIMEOUT.

#[export] Instance InstanceStatus_eq_dec : EqDecision InstanceStatus.
Proof. solve_decision. Defined.

(** The enum's values, in the order of their numbers. *)
Definition InstanceStatus_values : list InstanceStatus :=
  [UNKNOWN; QUEUED; REQUESTED; ALLOCATED; RAY_INSTALLING; RAY_RUNNING; RAY_STOP_REQUESTED;
   RAY_STOPPING; RAY_STOPPED; TERMINATING; TERMINATED; ALLOCATION_FAILED; RAY_INSTALL_FAILED;
   TERMINATION_FAILED; ALLOCATION_TIMEOUT].

Definition status_index (s : InstanceStatus) : nat :=
  match s with
  | UNKNOWN => 0 | QUEUED => 1 | REQUESTED => 2 | ALLOCATED => 3 | RAY_INSTALLING => 4
  | RAY_RUNNING => 5 | RAY_STOP_REQUESTED => 6 | RAY_STOPPING => 7 | RAY_STOPPED => 8
  | TERMINATING => 9 | TERMINATED => 10 | ALLOCATION_FAILED => 11 | RAY_INSTALL_FAILED => 12
  | TERMINATION_FAILED => 13 | ALLOCATION_TIMEOUT => 14
  end.

#[export] Program Instance InstanceStatus_countable : Countable InstanceStatus :=
  inj_countable status_index (λ n, InstanceStatus_values !! n) _.
Next Obligation. by intros []. Qed.

Inductive NodeKind : Type := UNMANAGED | HEAD | WORKER.

#[export] Instance NodeKind_eq_dec : EqDecision NodeKind.
Proof. solve_decision. Defined.

Record StatusHistory : Type := {
  instance_status : InstanceStatus;
  timestamp_ns : Z;
  details : string
}.

Record InstanceMsg : Type := {
  instance_id : string;
  cloud_instance_id : string;
  node_id : string;
  status : InstanceStatus;
  instance_type : string;
  total_resources : list (string * float);
  internal_ip : string;
  external_ip : string;
  version : Z;
  status_history : list StatusHistory;
  launch_request_id : string;
  exit_details : string;
  launch_config_hash : string;
  node_kind : NodeKind
}.

#[export] Instance StatusHistory_eq_dec : EqDecision StatusHistory.
Proof. solve_decision. Defined.
#[export] Instance InstanceMsg_eq_dec : EqDecision InstanceMsg.
Proof. solve_decision. Defined.

(** [TerminationRequest], less its id and details. *)
Inductive Cause : Type := IDLE | MAX_NUM_NODE_PER_TYPE | MAX_NUM_NODES | OUTDATED.

#[export] Instance Cause_eq_dec : EqDecision Cause.
Proof. solve_decision. Defined.

Record TerminationRequest : Type := {
  tr_instance_id : option string;
  tr_ray_node_id : string;
  tr_instance_type : string;
  tr_instance_status : option InstanceStatus;
  tr_cause : Cause
}.

(** [Instance()] *)
Definition Instance_default : InstanceMsg := {|
  instance_id := ""; cloud_instance_id := ""; node_id := ""; status := UNKNOWN;
  instance_type := ""; total_resources := []; internal_ip := ""; external_ip := "";
  version := 0; status_history := []; launch_request_id := ""; exit_details := "";
  launch_config_hash := ""; node_kind := UNMANAGED |}.

Module InstanceUtil.

(** The assignments of the source, one attribute group at a time. *)
Definition set_identity (id ty : string) (i : InstanceMsg) : InstanceMsg := {|
  instance_id := id; cloud_instance_id := cloud_instance_id i; node_id := node_id i;
  status := status i; instance_type := ty; total_resources := total_resources i;
  internal_ip := internal_ip i; external_ip := external_ip i; version := version i;
  status_history := status_history i; launch_request_id := launch_request_id i;
  exit_details := exit_details i; launch_config_hash := launch_config_hash i;
  node_kind := node_kind i |}.

Definition set_version (v : Z) (i : InstanceMsg) : InstanceMsg := {|
  instance_id := instance_id i; cloud_instance_id := cloud_instance_id i; node_id := node_id i;
  status := status i; instance_type := instance_type i; total_resources := total_resources i;
  internal_ip := internal_ip i; external_ip := external_ip i; version := v;
  status_history := status_history i; launch_request_id := launch_request_id i;
  exit_details := exit_details i; launch_config_hash := launch_config_hash i;
  node_kind := node_kind i |}.

Definition assign_status (s : InstanceStatus) (h : list StatusHistory) (i : InstanceMsg) :
    InstanceMsg := {|
  instance_id := instance_id i; cloud_instance_id := cloud_instance_id i; node_id := node_id i;
  status := s; instance_type := instance_type i; total_resources := total_resources i;
  internal_ip := internal_ip i; external_ip := external_ip i; version := version i;
  status_history := h; launch_request_id := launch_request_id i;
  exit_details := exit_details i; launch_config_hash := launch_config_hash i;
  node_kind := node_kind i |}.

(** [_record_status_transition]; [now] is the reading of [time.time_ns]. *)
Definition _record_status_transition (now : Z) (i : InstanceMsg) (s : InstanceStatus)
    (d : string) : InstanceMsg :=
  assign_status (status i)
    (status_history i ++ [{| instance_status := s; timestamp_ns := now; details := d |}]) i.

Definition new_instance (now : Z) (id ty : string) (s : InstanceStatus) (d : string) :
    InstanceMsg :=
  let i := set_identity id ty (set_version 0 Instance_default) in
  _record_status_transition now (assign_status s (status_history i) i) s d.

(** [get_valid_transitions()]: the set of each key, in the order written. *)
Definition get_valid_transitions (s : InstanceStatus) : list InstanceStatus :=
  match s with
  | QUEUED => [REQUESTED; TERMINATED]
  | REQUESTED => [ALLOCATED; QUEUED; ALLOCATION_FAILED]
  | ALLOCATED => [RAY_INSTALLING; RAY_RUNNING; ALLOCATION_TIMEOUT; RAY_STOPPING; RAY_STOPPED;
      TERMINATING; TERMINATED]
  | RAY_INSTALLING => [RAY_RUNNING; RAY_INSTALL_FAILED; RAY_STOPPED; TERMINATING; TERMINATED]
  | RAY_RUNNING => [RAY_STOP_REQUESTED; RAY_STOPPING; RAY_STOPPED; TERMINATING; TERMINATED]
  | RAY_STOP_REQUESTED => [RAY_STOPPING; RAY_STOPPED; RAY_RUNNING; TERMINATED]
  | ALLOCATION_TIMEOUT => [TERMINATING; TERMINATED]
  | RAY_STOPPING => [RAY_STOPPED; TERMINATING; TERMINATED]
  | RAY_STOPPED => [TERMINATING; TERMINATED]
  | TERMINATING => [TERMINATED; TERMINATION_FAILED]
  | TERMINATION_FAILED => [TERMINATING; TERMINATED]
  | TERMINATED => []
  | ALLOCATION_FAILED => []
  | RAY_INSTALL_FAILED => [TERMINATING; TERMINATED]
  | UNKNOWN => []
  end.

(** [set_status]: [None] where the code returns [False]. *)
Definition set_status (now : Z) (i : InstanceMsg) (s : InstanceStatus) (d : string) :
    option InstanceMsg :=
  if bool_decide (s ∈ get_valid_transitions (status i))
  then Some (_record_status_transition now (assign_status s (status_history i) i) s d)
  else None.

(** ** Reachable statuses *)
Section dfs.
Context {A : Type} `{Countable A} (graph : A → list A).

(** [dfs(graph, start, visited)]; [None] when the depth exceeds the fuel. *)
Fixpoint dfs (fuel : nat) (start : A) (visited : gset A) : option (gset A) :=
  match fuel with
  | O => None
  | S fuel =>
      foldl (λ acc next_node,
        visited ← acc;
        if bool_decide (next_node ∈ visited) then Some visited
        else dfs fuel next_node ({[next_node]} ∪ visited)) (Some visited) (graph start)
  end.
End dfs.

(** One level of recursion per visited status, and one for the start. *)
Definition dfs_fuel : nat := S (length InstanceStatus_values).

(** [_compute_reachable()]: the memo table. *)
Definition _compute_reachable : list (InstanceStatus * option (gset InstanceStatus)) :=
  map (λ s, (s, dfs get_valid_transitions dfs_fuel s ∅)) InstanceStatus_values.

Definition get_reachable_statuses (s : InstanceStatus) : gset InstanceStatus :=
  default ∅ (e ← list_find (λ e, e.1 = s) _compute_reachable; e.2.2).

Definition is_cloud_instance_allocated (s : InstanceStatus) : result bool :=
  _ ← py_assert (bool_decide (s ≠ UNKNOWN));
  Ok (bool_decide (s ∈ [ALLOCATED; RAY_INSTALLING; RAY_RUNNING; RAY_STOPPING; RAY_STOP_REQUESTED;
    RAY_STOPPED; TERMINATING; RAY_INSTALL_FAILED; TERMINATION_FAILED; ALLOCATION_TIMEOUT])).

Definition is_ray_running (s : InstanceStatus) : result bool :=
  _ ← py_assert (bool_decide (s ≠ UNKNOWN));
  if bool_decide (s ∈ get_reachable_statuses RAY_STOPPING) then Ok false
  else if bool_decide (s ∈ get_reachable_statuses RAY_RUNNING) then Ok true
  else Ok false.

Definition is_ray_pending (s : InstanceStatus) : result bool :=
  _ ← py_assert (bool_decide (s ≠ UNKNOWN));
  if bool_decide (RAY_RUNNING ∉ get_reachable_statuses s) then Ok false
  else if bool_decide (s ∈ get_reachable_statuses RAY_RUNNING) then Ok false
  else Ok true.

Definition is_ray_running_reachable (s : InstanceStatus) : bool :=
  bool_decide (RAY_RUNNING ∈ get_reachable_statuses s).

(** ** The status history *)

(** [get_status_transitions]: [UNKNOWN] is 0, hence no filter either. *)
Definition get_status_transitions (i : InstanceMsg) (sel : option InstanceStatus) :
    list StatusHistory :=
  match sel with
  | None | Some UNKNOWN => status_history i
  | Some s => filter (λ h, instance_status h = s) (status_history i)
  end.

(** [list.sort(key=timestamp_ns)], stable. *)
Fixpoint insert_by_time (h : StatusHistory) (l : list StatusHistory) : list StatusHistory :=
  match l with
  | [] => [h]
  | k :: l => if timestamp_ns h <=? timestamp_ns k then h :: k :: l else k :: insert_by_time h l
  end.

Definition sort_by_time (l : list StatusHistory) : list StatusHistory :=
  foldr insert_by_time [] l.

Definition get_last_status_transition (i : InstanceMsg) (sel : option InstanceStatus) :
    option StatusHistory :=
  last (sort_by_time (get_status_transitions i sel)).

Definition get_status_transition_times_ns (i : InstanceMsg) (sel : option InstanceStatus) :
    list Z :=
  map timestamp_ns (get_status_transitions i sel).

(** [sorted(l)[-1]]: the greatest element. *)
Definition sorted_last (l : list Z) : option Z := last (merge_sort Z.le l).

(** [has_timeout]; [timeout_s * 1e9] is a float, compared exactly. *)
Definition has_timeout (now : Z) (i : InstanceMsg) (timeout_s : Z) : result bool :=
  let times := get_status_transition_times_ns i (Some (status i)) in
  _ ← py_assert (1 <=? Z.of_nat (length times));
  t ← or_raise IndexError (sorted_last times);
  Ok (negb (f_ge_int (f_mul (f_of_int timeout_s) (f_of_int (10 ^ 9))) (now - t))).
End InstanceUtil.
