(* ===== verification/Storage.v ===== *)
(** * [storage.py] and [instance_storage.py] of the instance manager

    A versioned key-value store with optimistic concurrency control, and the
    table of instances kept in it.  [Storage] is the interface the clients
    use; the lock of [InMemoryStorage] makes each method one step. *)
From S2P Require Import Prelude PyDict PyFloat InstanceUtil.

(** [StoreStatus] *)
Record StoreStatus : Type := { success : bool; store_version : Z }.

Module VersionedValue.
Record t (V : Type) : Type := { value : V; version : Z }.
Arguments Build_t {V}.
Arguments value {V}.
Arguments version {V}.
End VersionedValue.

(** [Storage]; values are the serialized strings. *)
Class Storage (St V : Type) : Type := {
  storage_batch_update : string → dict string V → list string → option Z → St →
    StoreStatus * St;
  storage_update : string → string → V → option Z → option Z → bool → St → StoreStatus * St;
  storage_get_all : string → St → dict string (VersionedValue.t V) * Z;
  storage_get : string → list string → St → dict string (VersionedValue.t V) * Z;
  storage_get_version : St → Z
}.

(** ** [InMemoryStorage] *)
Module InMemoryStorage.
Section storage.
Context {V : Type}.

(** [_tables] is a [defaultdict(dict)]: a missing table reads as an empty
    one, and the empty tables that reads create are not told apart. *)
Record t : Type := {
  _version : Z;
  _tables : dict string (dict string (VersionedValue.t V))
}.

Definition init : t := {| _version := 0; _tables := [] |}.

Definition table_of (x : t) (table : string) : dict string (VersionedValue.t V) :=
  default [] (dget (_tables x) table).

Definition set_table (x : t) (v : Z) (table : string) (d : dict string (VersionedValue.t V)) : t :=
  {| _version := v; _tables := dset (_tables x) table d |}.

Definition batch_update (table : string) (mutation : dict string V) (deletion : list string)
    (expected_version : option Z) (x : t) : StoreStatus * t :=
  if match expected_version with Some e => negb (e =? _version x) | None => false end
  then ({| success := false; store_version := _version x |}, x)
  else
    let v := _version x + 1 in
    let key_value_pairs_with_version :=
      map (λ kv, (kv.1, VersionedValue.Build_t kv.2 v)) mutation in
    let d := dupdate (table_of x table) key_value_pairs_with_version in
    let d := foldl ddel d deletion in
    ({| success := true; store_version := v |}, set_table x v table d).

Definition update (table key : string) (value : V) (expected_entry_version : option Z)
    (expected_storage_version : option Z) (insert_only : bool) (x : t) : StoreStatus * t :=
  let failed := ({| success := false; store_version := _version x |}, x) in
  let old := dget (table_of x table) key in
  let version := match old with Some e => VersionedValue.version e | None => -1 end in
  if match expected_storage_version with Some e => negb (e =? _version x) | None => false end
  then failed
  else if insert_only && dmem (table_of x table) key then failed
  else if match expected_entry_version with Some e => negb (e =? version) | None => false end
  then failed
  else
    let v := _version x + 1 in
    ({| success := true; store_version := v |},
     set_table x v table (dset (table_of x table) key (VersionedValue.Build_t value v))).

Definition get_all (table : string) (x : t) : dict string (VersionedValue.t V) * Z :=
  (table_of x table, _version x).

Definition get (table : string) (keys : list string) (x : t) :
    dict string (VersionedValue.t V) * Z :=
  match keys with
  | [] => get_all table x
  | _ =>
      (foldl (λ result key,
         match dget (table_of x table) key with
         | Some e => dset result key e
         | None => result
         end) [] keys, _version x)
  end.

Definition get_version (x : t) : Z := _version x.

#[global] Instance interface : Storage t V := {|
  storage_batch_update := batch_update; storage_update := update;
  storage_get_all := get_all; storage_get := get; storage_get_version := get_version |}.
End storage.
Arguments t : clear implicits.
End InMemoryStorage.

(** ** [InstanceStorage] *)

(** Protobuf's [SerializeToString] and [ParseFromString]. *)
Class InstanceCodec (V : Type) : Type := {
  SerializeToString : InstanceMsg → V;
  ParseFromString : V → InstanceMsg
}.

Class InstanceCodecLaws (V : Type) `{!InstanceCodec V} : Prop := {
  parse_serialize i : ParseFromString (SerializeToString i) = i
}.

Module InstanceStorage.
Section storage.
Context {St V : Type} `{!Storage St V, !InstanceCodec V}.

(** The storage object is shared, and passed explicitly. *)
Record t : Type := { _cluster_id : string; _table_name : string }.

Definition init (cluster_id : string) : t :=
  {| _cluster_id := cluster_id; _table_name := "instance_table@" +:+ cluster_id |}.

(** [expected_storage_version and expected_storage_version != version]: an
    expected version 0 is not checked here. *)
Definition version_mismatch (expected : option Z) (v : Z) : bool :=
  match expected with
  | Some e => negb (e =? 0) && negb (e =? v)
  | None => false
  end.

Definition batch_upsert_instances (x : t) (updates : list InstanceMsg)
    (expected_storage_version : option Z) (st : St) : StoreStatus * St :=
  let v := storage_get_version st in
  if version_mismatch expected_storage_version v
  then ({| success := false; store_version := v |}, st)
  else
    let mutations := foldl (λ m instance,
      let instance := InstanceUtil.set_version 0 instance in
      dset m (instance_id instance) (SerializeToString instance)) [] updates in
    storage_batch_update (_table_name x) mutations [] expected_storage_version st.

Definition upsert_instance (x : t) (instance : InstanceMsg)
    (expected_instance_version expected_storage_version : option Z) (st : St) :
    StoreStatus * St :=
  let instance := InstanceUtil.set_version 0 instance in
  storage_update (_table_name x) (instance_id instance) (SerializeToString instance)
    expected_instance_version expected_storage_version false st.

Definition get_instances (x : t) (instance_ids : list string)
    (status_filter : gset InstanceStatus) (st : St) : dict string InstanceMsg * Z :=
  let '(pairs, v) := storage_get (_table_name x) instance_ids st in
  (foldl (λ instances p,
     let instance := InstanceUtil.set_version (VersionedValue.version p.2)
       (ParseFromString (VersionedValue.value p.2)) in
     if negb (bool_decide (status_filter = ∅)) && bool_decide (status instance ∉ status_filter)
     then instances else dset instances p.1 instance) [] pairs, v).

Definition batch_delete_instances (x : t) (instance_ids : list string)
    (expected_storage_version : option Z) (st : St) : StoreStatus * St :=
  let v := storage_get_version st in
  if version_mismatch expected_storage_version v
  then ({| success := false; store_version := v |}, st)
  else storage_batch_update (_table_name x) [] instance_ids expected_storage_version st.
End storage.
End InstanceStorage.
