(* ===== verification/StorageFacts.v ===== *)
(** * The versioned storage: atomicity, versions, optimistic concurrency

    [StorageLaws] is what [InstanceStorage] and the instance manager rely on;
    [InMemoryStorage] satisfies it. *)
From S2P Require Import Prelude PyDict PyFloat InstanceUtil Storage.

(** The expected version, when there is one, is the current one. *)
Definition expected_ok (expected : option Z) (v : Z) : bool :=
  match expected with Some e => e =? v | None => true end.

(** [st_lookup] is the entry of a key in a table. *)
Class StorageLaws {St V} `{!Storage St V} : Type := {
  st_inv : St → Prop;
  st_lookup : St → string → string → option (VersionedValue.t V);
  sl_batch_update table m del expected st : st_inv st → dwf m →
    let '(r, st') := storage_batch_update table m del expected st in
    let v := storage_get_version st in
    if expected_ok expected v then
      r = {| success := true; store_version := v + 1 |} ∧ storage_get_version st' = v + 1 ∧
      st_inv st' ∧
      ∀ t k, st_lookup st' t k =
        if decide (t = table) then
          if decide (k ∈ del) then None
          else match dget m k with
               | Some w => Some (VersionedValue.Build_t w (v + 1))
               | None => st_lookup st t k
               end
        else st_lookup st t k
    else r = {| success := false; store_version := v |} ∧ st' = st;
  sl_get table keys st : st_inv st →
    (storage_get table keys st).2 = storage_get_version st ∧
    dwf (storage_get table keys st).1 ∧
    ∀ k, dget (storage_get table keys st).1 k =
      if decide (keys = [] ∨ k ∈ keys) then st_lookup st table k else None;
  sl_entry_version st t k e : st_inv st → st_lookup st t k = Some e →
    1 ≤ VersionedValue.version e ≤ storage_get_version st
}.

Section in_memory.
Context {V : Type}.
Implicit Types (x : InMemoryStorage.t V).
Import InMemoryStorage.

Definition lookup x (t k : string) : option (VersionedValue.t V) := dget (table_of x t) k.

Definition table_ok (v : Z) (d : dict string (VersionedValue.t V)) : Prop :=
  dwf d ∧ ∀ k e, dget d k = Some e → 1 ≤ VersionedValue.version e ≤ v.

Definition storage_ok x : Prop := 0 ≤ _version x ∧ ∀ t, table_ok (_version x) (table_of x t).

Lemma table_of_set x v t d t' :
  table_of (set_table x v t d) t' = if decide (t' = t) then d else table_of x t'.
Proof. unfold table_of. simpl. rewrite dget_dset. by case_decide. Qed.

Lemma init_ok : storage_ok init.
Proof. split; [done|]. intros t. split; [constructor|done]. Qed.

Lemma map_keys {A B} (f : A → B) (m : dict string A) :
  (map (λ kv, (kv.1, f kv.2)) m).*1 = m.*1.
Proof. by rewrite <-list_fmap_compose. Qed.

Lemma dget_map {A B} (f : A → B) (m : dict string A) k :
  dget (map (λ kv, (kv.1, f kv.2)) m) k = f <$> dget m k.
Proof. induction m as [|[j w] m IH]; simpl; [done|]. by case_decide. Qed.

Lemma dget_dupdate_wf {A} (d m : dict string A) k : dwf m →
  dget (dupdate d m) k = match dget m k with Some w => Some w | None => dget d k end.
Proof. intros Hm. by rewrite dget_dupdate, dget_reverse. Qed.

Lemma ddel_all_wf {A} (d : dict string A) ks : dwf d → dwf (foldl ddel d ks).
Proof. revert d. induction ks as [|k ks IH]; intros d Hd; [done|]. by apply IH, ddel_wf. Qed.

Lemma dget_ddel_all {A} (d : dict string A) ks k : dwf d →
  dget (foldl ddel d ks) k = if decide (k ∈ ks) then None else dget d k.
Proof.
  revert d. induction ks as [|j ks IH]; intros d Hd; cbn [foldl].
  { by rewrite decide_False by set_solver. }
  rewrite IH by by apply ddel_wf. destruct (decide (k ∈ ks)).
  { by rewrite decide_True by set_solver. }
  destruct (decide (k = j)) as [->|].
  - rewrite decide_True by set_solver. by apply dget_ddel_eq.
  - rewrite decide_False by set_solver. by apply dget_ddel_ne.
Qed.

Lemma set_table_ok x t d : storage_ok x → table_ok (_version x + 1) d →
  storage_ok (set_table x (_version x + 1) t d).
Proof.
  intros [Hv Ht] Hd. split; [simpl; lia|]. intros t'. rewrite table_of_set. simpl.
  case_decide; [done|]. destruct (Ht t') as [H1 H2]. split; [done|].
  intros k e He. specialize (H2 k e He). lia.
Qed.

Lemma batch_update_ok table m del expected x : storage_ok x → dwf m →
  let '(r, x') := batch_update table m del expected x in
  if expected_ok expected (_version x) then
    r = {| success := true; store_version := _version x + 1 |} ∧ _version x' = _version x + 1 ∧
    storage_ok x' ∧
    ∀ t k, lookup x' t k =
      if decide (t = table) then
        if decide (k ∈ del) then None
        else match dget m k with
             | Some w => Some (VersionedValue.Build_t w (_version x + 1))
             | None => lookup x t k
             end
      else lookup x t k
  else r = {| success := false; store_version := _version x |} ∧ x' = x.
Proof.
  intros Hx Hm. unfold batch_update.
  destruct expected as [e|]; simpl; [destruct (Z.eqb_spec e (_version x)) as [->|]; simpl; [|done]|].
  all: destruct (proj2 Hx table) as [Hwf Hvs].
  all: set (kv := map _ m); assert (dwf kv) as Hkv by (unfold dwf, kv;
    by rewrite (map_keys (λ w, VersionedValue.Build_t w (_version x + 1)))).
  all: assert (∀ k, dget (foldl ddel (dupdate (table_of x table) kv) del) k =
    if decide (k ∈ del) then None
    else match dget m k with
         | Some w => Some (VersionedValue.Build_t w (_version x + 1))
         | None => lookup x table k end) as Hget.
  1,3: intros k; rewrite dget_ddel_all by (by apply dupdate_wf);
    rewrite dget_dupdate_wf by done; unfold kv;
    rewrite (dget_map (λ w, VersionedValue.Build_t w (_version x + 1))); destruct (dget m k); done.
  all: split_and!; [done|done| |].
  1,3: apply set_table_ok; [done|]; split; [by apply ddel_all_wf, dupdate_wf|];
    intros k e; rewrite Hget; destruct (decide (k ∈ del)); [done|];
    destruct (dget m k); [intros [= <-]; simpl; destruct Hx; lia|intros He; specialize (Hvs k e He); lia].
  all: intros t k; unfold lookup at 1; rewrite table_of_set; case_decide; [|done]; subst; apply Hget.
Qed.

Lemma get_loop_spec (d : dict string (VersionedValue.t V)) keys acc : dwf acc →
  let res := foldl (λ result key,
    match dget d key with Some e => dset result key e | None => result end) acc keys in
  dwf res ∧ ∀ k, dget res k =
    if decide (k ∈ keys) then match dget d k with Some e => Some e | None => dget acc k end
    else dget acc k.
Proof.
  revert acc. induction keys as [|j keys IH]; intros acc Hacc; cbn [foldl].
  { split; [done|]. intros k. by rewrite decide_False by set_solver. }
  destruct (dget d j) as [e|] eqn:Hj.
  - destruct (IH (dset acc j e)) as [H1 H2]; [by apply dset_wf|]. split; [done|].
    intros k. rewrite H2, dget_dset.
    destruct (decide (k = j)) as [->|]; [rewrite (decide_True (P:=j ∈ j :: keys)) by set_solver|].
    + rewrite Hj. by case_decide.
    + by repeat case_decide; try set_solver.
  - destruct (IH acc Hacc) as [H1 H2]. split; [done|]. intros k. rewrite H2.
    destruct (decide (k = j)) as [->|]; [|by repeat case_decide; try set_solver].
    rewrite Hj. by repeat case_decide.
Qed.

Lemma get_ok table keys x : storage_ok x →
  (get table keys x).2 = _version x ∧ dwf (get table keys x).1 ∧
  ∀ k, dget (get table keys x).1 k =
    if decide (keys = [] ∨ k ∈ keys) then lookup x table k else None.
Proof.
  intros [_ Ht]. unfold get. destruct keys as [|j keys].
  { split_and!; [done|apply Ht|]. intros k. by rewrite decide_True by by left. }
  destruct (get_loop_spec (table_of x table) (j :: keys) []) as [H1 H2]; [constructor|].
  split_and!; [done|done|]. intros k. cbn [fst]. rewrite H2. unfold lookup.
  destruct (decide (k ∈ j :: keys)).
  - rewrite decide_True by by right. by destruct (dget _ k).
  - rewrite decide_False; [done|]. by intros [|].
Qed.

#[export] Program Instance in_memory_laws :
    @StorageLaws (InMemoryStorage.t V) V InMemoryStorage.interface := {|
  st_inv := storage_ok; st_lookup := lookup |}.
Next Obligation. intros. by apply batch_update_ok. Qed.
Next Obligation. intros. by apply get_ok. Qed.
Next Obligation. intros x t k e [_ Ht] He. exact (proj2 (Ht t) k e He). Qed.

(** ** Operations in sequence *)

(** The mutating calls clients make. *)
Inductive storage_op : Type :=
  | BatchUpdate (table : string) (m : dict string V) (del : list string) (expected : option Z)
  | Update (table key : string) (v : V) (expected_entry expected_storage : option Z)
      (insert_only : bool).

Definition op_wf (o : storage_op) : Prop :=
  match o with BatchUpdate _ m _ _ => dwf m | Update _ _ _ _ _ _ => True end.

(** The storage version an operation insists on. *)
Definition op_expected (o : storage_op) : option Z :=
  match o with BatchUpdate _ _ _ e => e | Update _ _ _ _ e _ => e end.

Definition run_op (o : storage_op) x : StoreStatus * InMemoryStorage.t V :=
  match o with
  | BatchUpdate table m del e => batch_update table m del e x
  | Update table key v ee es ins => update table key v ee es ins x
  end.

Definition run_ops (os : list storage_op) x : InMemoryStorage.t V :=
  foldl (λ x o, (run_op o x).2) x os.

(** A call either succeeds with the next version, or changes nothing. *)
Definition atomic_step (o : storage_op) x : Prop :=
  let '(r, x') := run_op o x in
  storage_ok x' ∧
  (r = {| success := true; store_version := _version x + 1 |} ∧ _version x' = _version x + 1 ∧
   expected_ok (op_expected o) (_version x) = true
   ∨ r = {| success := false; store_version := _version x |} ∧ x' = x).

Lemma update_ok table key v ee es ins x : storage_ok x →
  let '(r, x') := update table key v ee es ins x in
  if expected_ok es (_version x) && negb (ins && bool_decide (is_Some (lookup x table key))) &&
     expected_ok ee (match lookup x table key with
                     | Some e => VersionedValue.version e | None => -1 end)
  then r = {| success := true; store_version := _version x + 1 |} ∧ _version x' = _version x + 1 ∧
    storage_ok x' ∧
    ∀ t k, lookup x' t k =
      if decide (t = table ∧ k = key) then Some (VersionedValue.Build_t v (_version x + 1))
      else lookup x t k
  else r = {| success := false; store_version := _version x |} ∧ x' = x.
Proof.
  intros Hx. unfold update. fold (lookup x table key).
  assert (match es with Some e => negb (e =? _version x) | None => false end
    = negb (expected_ok es (_version x))) as -> by by destruct es.
  destruct (expected_ok es (_version x)); simpl; [|done].
  assert (dmem (table_of x table) key = bool_decide (is_Some (lookup x table key))) as ->.
  { unfold dmem, lookup. by destruct (dget (table_of x table) key). }
  destruct (ins && _); simpl; [done|].
  set (w := match lookup x table key with Some e => _ | None => _ end).
  assert (match ee with Some e => negb (e =? w) | None => false end
    = negb (expected_ok ee w)) as -> by by destruct ee.
  destruct (expected_ok ee w); simpl; [|done].
  destruct (proj2 Hx table) as [Hwf Hvs]. split_and!; [done|done| |].
  - apply set_table_ok; [done|]. split; [by apply dset_wf|]. intros k e. rewrite dget_dset.
    case_decide; [intros [= <-]; simpl; destruct Hx; lia|].
    intros He. specialize (Hvs k e He). lia.
  - intros t k. unfold lookup. rewrite table_of_set.
    destruct (decide (t = table)) as [->|]; [|by rewrite decide_False by naive_solver].
    rewrite dget_dset. destruct (decide (k = key)) as [->|].
    + by rewrite decide_True.
    + by rewrite decide_False by naive_solver.
Qed.

Lemma run_op_atomic o x : storage_ok x → op_wf o → atomic_step o x.
Proof.
  intros Hx Ho. unfold atomic_step. destruct o as [t m del e|t k v ee es ins]; simpl in *.
  - pose proof (batch_update_ok t m del e x Hx Ho) as H.
    destruct (batch_update t m del e x) as [r x'].
    destruct (expected_ok e (_version x)); [|destruct H as [-> ->]; by eauto].
    destruct H as (-> & H1 & H2 & _). eauto.
  - pose proof (update_ok t k v ee es ins x Hx) as H.
    destruct (update t k v ee es ins x) as [r x'].
    destruct (expected_ok es (_version x)); simpl in H; [|destruct H as [-> ->]; by eauto].
    destruct (_ && _) in H; [|destruct H as [-> ->]; by eauto].
    destruct H as (-> & H1 & H2 & _). eauto.
Qed.

Lemma run_ops_ok os x : storage_ok x → Forall op_wf os →
  storage_ok (run_ops os x) ∧ _version x ≤ _version (run_ops os x).
Proof.
  intros Hx Hos. revert x Hx. induction Hos as [|o os Ho Hos IH]; intros x Hx; simpl; [done|].
  pose proof (run_op_atomic o x Hx Ho) as H. unfold atomic_step in H.
  destruct (run_op o x) as [r x']. simpl. destruct H as [Hx' H].
  destruct (IH x' Hx') as [H1 H2]. split; [done|]. destruct H as [(_ & H & _)|(_ & ->)]; lia.
Qed.

(** [InMemoryStorage.batch_update] is an atomic compare-and-swap on the
    storage version: if the expected version is absent or current, the version
    grows by one, the mutated keys hold their new values at that version, the
    deleted keys are gone (a key both mutated and deleted is deleted) and no
    other entry of any table changes; otherwise it reports failure with the
    current version and changes nothing. *)
Theorem batch_update_spec (table : string) (m : dict string V) (del : list string)
    (expected : option Z) (x : InMemoryStorage.t V) :
  storage_ok x → dwf m →
  let '(r, x') := batch_update table m del expected x in
  if expected_ok expected (_version x) then
    r = {| success := true; store_version := _version x + 1 |} ∧ _version x' = _version x + 1 ∧
    storage_ok x' ∧
    ∀ t k, lookup x' t k =
      if decide (t = table) then
        if decide (k ∈ del) then None
        else match dget m k with
             | Some w => Some (VersionedValue.Build_t w (_version x + 1))
             | None => lookup x t k
             end
      else lookup x t k
  else r = {| success := false; store_version := _version x |} ∧ x' = x.
Proof. apply batch_update_ok. Qed.

(** Optimistic concurrency: after an operation that insisted on storage
    version [e] has succeeded, and whatever operations follow, every other
    operation that insists on [e] fails, reports the current version and
    changes nothing. *)
Theorem expected_version_exclusive (o1 o2 : storage_op) (between : list storage_op) (e : Z)
    (x : InMemoryStorage.t V) :
  storage_ok x → Forall op_wf (o1 :: o2 :: between) →
  op_expected o1 = Some e → op_expected o2 = Some e →
  success (run_op o1 x).1 = true →
  let y := run_ops between (run_op o1 x).2 in
  run_op o2 y = ({| success := false; store_version := _version y |}, y).
Proof.
  intros Hx [Ho1 [Ho2 Hb]%Forall_cons]%Forall_cons He1 He2 Hs.
  pose proof (run_op_atomic o1 x Hx Ho1) as H1. unfold atomic_step in H1.
  destruct (run_op o1 x) as [r x1]. simpl in *. destruct H1 as [Hx1 [(-> & Hv & He)|(-> & _)]]; [|done].
  rewrite He1 in He. simpl in He. apply Z.eqb_eq in He.
  destruct (run_ops_ok between x1 Hx1 Hb) as [Hy Hle].
  pose proof (run_op_atomic o2 _ Hy Ho2) as H2. unfold atomic_step in H2.
  destruct (run_op o2 _) as [r2 y2]. destruct H2 as [_ [(_ & _ & H)|(-> & ->)]]; [|done].
  rewrite He2 in H. simpl in H. apply Z.eqb_eq in H. lia.
Qed.
End in_memory.

Lemma batch_update_spec_witness :
  let x := {| InMemoryStorage._version := 3; InMemoryStorage._tables :=
    [("t", [("a", VersionedValue.Build_t 10 2)])] |} in
  storage_ok x ∧ dwf [("b", 7)] ∧
  let '(r, x') := InMemoryStorage.batch_update "t" [("b", 7)] ["a"] (Some 3) x in
  if expected_ok (Some 3) (InMemoryStorage._version x) then
    r = {| success := true; store_version := 3 + 1 |} ∧ InMemoryStorage._version x' = 3 + 1 ∧
    storage_ok x' ∧
    ∀ t k, lookup x' t k =
      if decide (t = "t") then
        if decide (k ∈ ["a"]) then None
        else match dget [("b", 7)] k with
             | Some w => Some (VersionedValue.Build_t w (3 + 1))
             | None => lookup x t k
             end
      else lookup x t k
  else r = {| success := false; store_version := 3 |} ∧ x' = x.
Proof.
  set (x := {| InMemoryStorage._version := 3; InMemoryStorage._tables := _ |}).
  assert (storage_ok x) as Hx.
  { split; [done|]. intros t. unfold InMemoryStorage.table_of. simpl. case_decide; simpl.
    - split; [apply NoDup_singleton|]. intros k e. simpl. case_decide; [intros [= <-]; simpl; lia|done].
    - split; [constructor|done]. }
  assert (dwf [("b", 7)]) as Hm by apply NoDup_singleton.
  split; [exact Hx|]. split; [exact Hm|].
  exact (batch_update_spec "t" [("b", 7)] ["a"] (Some 3) x Hx Hm).
Defined.

Lemma expected_version_exclusive_witness :
  let o1 := BatchUpdate (V:=Z) "t" [] [] (Some 0) in
  let o2 := Update "t" "k" 5 None (Some 0) false in
  storage_ok (V:=Z) InMemoryStorage.init ∧ Forall op_wf [o1; o2] ∧
  success (run_op o1 InMemoryStorage.init).1 = true ∧
  let y := run_ops [] (run_op o1 InMemoryStorage.init).2 in
  run_op o2 y = ({| success := false; store_version := InMemoryStorage._version y |}, y).
Proof.
  set (o1 := BatchUpdate (V:=Z) "t" [] [] (Some 0)).
  set (o2 := Update "t" "k" 5 None (Some 0) false).
  assert (Forall op_wf [o1; o2]) as Ho by (repeat constructor).
  split; [exact init_ok|]. split; [exact Ho|]. split; [reflexivity|].
  exact (expected_version_exclusive o1 o2 [] 0 InMemoryStorage.init init_ok Ho
    eq_refl eq_refl eq_refl).
Defined.
