(* ===== verification/InstanceManager.v ===== *)
(** * [autoscaler/v2/instance_manager/instance_manager.py]

    The service that applies update requests to the table of instances. *)
From S2P Require Import Prelude PyDict PyFloat InstanceUtil Storage.

Record InstanceUpdateEvent : Type := {
  upd_instance_id : string;
  new_instance_status : InstanceStatus;
  upd_details : string;
  upsert : bool;
  upd_instance_type : string;
  upd_cloud_instance_id : string;
  upd_node_kind : NodeKind;
  upd_ray_node_id : string;
  upd_launch_request_id : string;
  upd_termination_request : option TerminationRequest
}.

Inductive StatusCode : Type := OK | VERSION_MISMATCH | UNKNOWN_ERRORS.

(** The reply, less the error message. *)
Record UpdateReply : Type := { reply_code : StatusCode; reply_version : Z }.

Record UpdateRequest : Type := {
  expected_version : Z;
  updates : list InstanceUpdateEvent
}.

Module InstanceManager.

(** The truth value of a string. *)
Definition truthy (s : string) : bool := bool_decide (s ≠ "").

(** The attributes [_apply_update] assigns. *)
Definition set_cloud (cloud ty node : string) (k : NodeKind) (i : InstanceMsg) : InstanceMsg := {|
  instance_id := instance_id i; cloud_instance_id := cloud; node_id := node;
  status := status i; instance_type := ty; total_resources := total_resources i;
  internal_ip := internal_ip i; external_ip := external_ip i; version := version i;
  status_history := status_history i; launch_request_id := launch_request_id i;
  exit_details := exit_details i; launch_config_hash := launch_config_hash i;
  node_kind := k |}.

Definition set_launch (req ty : string) (i : InstanceMsg) : InstanceMsg := {|
  instance_id := instance_id i; cloud_instance_id := cloud_instance_id i; node_id := node_id i;
  status := status i; instance_type := ty; total_resources := total_resources i;
  internal_ip := internal_ip i; external_ip := external_ip i; version := version i;
  status_history := status_history i; launch_request_id := req;
  exit_details := exit_details i; launch_config_hash := launch_config_hash i;
  node_kind := node_kind i |}.

Definition _apply_update (i : InstanceMsg) (u : InstanceUpdateEvent) : result InstanceMsg :=
  match new_instance_status u with
  | ALLOCATED =>
      _ ← py_assert (truthy (upd_cloud_instance_id u));
      _ ← py_assert (bool_decide (upd_node_kind u ∈ [WORKER; HEAD]));
      _ ← py_assert (truthy (upd_instance_type u));
      _ ← py_assert (truthy (upd_cloud_instance_id u));
      Ok (set_cloud (upd_cloud_instance_id u) (upd_instance_type u) (upd_ray_node_id u)
            (upd_node_kind u) i)
  | RAY_RUNNING =>
      _ ← py_assert (truthy (upd_ray_node_id u));
      Ok (set_cloud (cloud_instance_id i) (instance_type i) (upd_ray_node_id u) (node_kind i) i)
  | REQUESTED =>
      _ ← py_assert (truthy (upd_launch_request_id u));
      _ ← py_assert (truthy (upd_instance_type u));
      Ok (set_launch (upd_launch_request_id u) (upd_instance_type u) i)
  | TERMINATING =>
      _ ← py_assert (truthy (upd_cloud_instance_id u));
      Ok i
  | _ => Ok i
  end.

Definition _create_instance (now : Z) (u : InstanceUpdateEvent) : result InstanceMsg :=
  _ ← py_assert (upsert u);
  _ ← py_assert (bool_decide (new_instance_status u ∈ [ALLOCATED; QUEUED; TERMINATING]));
  _apply_update (InstanceUtil.new_instance now (upd_instance_id u) (upd_instance_type u)
    (new_instance_status u) (upd_details u)) u.

(** [set_status] is called without the update's details. *)
Definition _update_instance (now : Z) (i : InstanceMsg) (u : InstanceUpdateEvent) :
    result InstanceMsg :=
  i ← or_raise AssertionError (InstanceUtil.set_status now i (new_instance_status u) "");
  _apply_update i u.

Section manager.
Context {St V Sub : Type} `{!Storage St V, !InstanceCodec V}.

Record t : Type := {
  _instance_storage : InstanceStorage.t;
  _status_update_subscribers : list Sub
}.

(** The loop over the updates; the k-th iteration reads the clock once. *)
Fixpoint update_loop (clock : nat → Z) (k : nat) (instances : dict string InstanceMsg)
    (ups : dict string InstanceUpdateEvent) : result (list InstanceMsg) :=
  match ups with
  | [] => Ok []
  | (id, u) :: ups =>
      i ← match dget instances id with
          | Some i => _update_instance (clock k) i u
          | None => _create_instance (clock k) u
          end;
      rest ← update_loop clock (S k) instances ups;
      Ok (i :: rest)
  end.

(** [update_instance_manager_state]: the reply or the exception, the storage,
    and the calls of the subscribers' [notify]. *)
Definition update_instance_manager_state (x : t) (clock : nat → Z) (request : UpdateRequest)
    (st : St) : result UpdateReply * St * list (Sub * list InstanceUpdateEvent) :=
  let ids_to_updates := dict_of (map (λ u, (upd_instance_id u, u)) (updates request)) in
  let '(to_update_instances, v) :=
    InstanceStorage.get_instances (_instance_storage x) ids_to_updates.*1 ∅ st in
  if (0 <=? expected_version request) && negb (expected_version request =? v)
  then (Ok {| reply_code := VERSION_MISMATCH; reply_version := v |}, st, [])
  else
    match update_loop clock 0 to_update_instances ids_to_updates with
    | Raise e => (Raise e, st, [])
    | Ok to_upsert_instances =>
        let '(result, st) := InstanceStorage.batch_upsert_instances (_instance_storage x)
          to_upsert_instances (Some v) st in
        if negb (success result) then
          if negb (store_version result =? v)
          then (Ok {| reply_code := VERSION_MISMATCH; reply_version := store_version result |}, st, [])
          else (Ok {| reply_code := UNKNOWN_ERRORS; reply_version := store_version result |}, st, [])
        else
          (Ok {| reply_code := OK; reply_version := store_version result |}, st,
           map (λ s, (s, updates request)) (_status_update_subscribers x))
    end.

(** [get_instance_manager_state]: the instances and the version. *)
Definition get_instance_manager_state (x : t) (st : St) : list InstanceMsg * Z :=
  let '(instances, v) := InstanceStorage.get_instances (_instance_storage x) [] ∅ st in
  (instances.*2, v).
End manager.
Arguments t : clear implicits.
End InstanceManager.
