(* ===== verification/InstanceUtilFacts.v ===== *)
(** * The status graph: reachability, derived predicates, timeouts *)
From S2P Require Import Prelude PyFloat InstanceUtil.
From stdpp Require Import relations.
#[local] Open Scope Z_scope.

(** ** The depth-first search is correct on any finite graph *)
Section dfs_facts.
Context {A : Type} `{Countable A} (graph : A → list A) (U : gset A).
Context (Hclosed : ∀ a b, b ∈ graph a → b ∈ U).

Definition edge (a b : A) : Prop := b ∈ graph a.

(** What a search from [start] adds to [visited]. *)
Definition explored (start : A) (visited result : gset A) : Prop :=
  visited ⊆ result ∧ result ⊆ U ∧
  (∀ x, x ∈ result → x ∈ visited ∨ tc edge start x) ∧
  (∀ x y, x ∈ result → x ∉ visited → edge x y → y ∈ result).

Lemma explored_step start next visited mid result :
  edge start next → next ∉ visited →
  explored next ({[next]} ∪ visited) mid → (∀ y, edge next y → y ∈ mid) →
  explored start mid result → explored start visited result.
Proof.
  intros Hn Hnv (H1 & H2 & H3 & H4) Hnext (K1 & K2 & K3 & K4).
  split_and!; [set_solver|done| |].
  - intros x Hx. destruct (K3 x Hx) as [Hm|]; [|by right].
    destruct (H3 x Hm) as [[->%elem_of_singleton|]%elem_of_union|Ht]; [|by left|].
    + right. by apply tc_once.
    + right. by eapply tc_l.
  - intros x y Hx Hxv He. destruct (decide (x ∈ mid)) as [Hm|]; [|by eapply K4].
    apply K1. destruct (decide (x = next)) as [->|]; [by apply Hnext|].
    eapply H4; [done| |done]. set_solver.
Qed.

Lemma dfs_spec fuel start visited :
  visited ⊆ U → (size (U ∖ visited) < fuel)%nat →
  ∃ result, InstanceUtil.dfs graph fuel start visited = Some result ∧
    explored start visited result ∧ (∀ y, edge start y → y ∈ result).
Proof using Hclosed.
  revert start visited. induction fuel as [|fuel IH]; intros start visited Hv Hf; [lia|]. simpl.
  assert (∀ y, y ∈ graph start → edge start y) as Hl by done.
  assert (∃ result, foldl (λ acc next_node,
      visited ← acc;
      if bool_decide (next_node ∈ visited) then Some visited
      else InstanceUtil.dfs graph fuel next_node ({[next_node]} ∪ visited))
      (Some visited) (graph start) = Some result ∧
      explored start visited result ∧ (∀ y, y ∈ graph start → y ∈ result)) as Hgoal;
    [|done].
  revert Hl. generalize (graph start) as l. intros l. revert visited Hv Hf.
  induction l as [|n l IHl]; intros visited Hv Hf Hl.
  { exists visited. split_and!; [done|split_and!; naive_solver|set_solver]. }
  simpl. case_bool_decide as Hn.
  - destruct (IHl visited Hv Hf) as (r & -> & Hr & Hin); [set_solver|].
    exists r. split_and!; [done|done|]. intros y [->|]%elem_of_cons; [|by apply Hin].
    destruct Hr as (Hsub & _). set_solver.
  - assert (n ∈ U) as HnU. { eapply Hclosed, Hl. set_solver. }
    destruct (IH n ({[n]} ∪ visited)) as (m & -> & Hm & Hnext).
    { set_solver. }
    { assert (size (U ∖ ({[n]} ∪ visited)) < size (U ∖ visited))%nat; [|lia].
      apply subset_size. split; [set_solver|]. intros Hsub. set_solver. }
    assert (({[n]} ∪ visited) ⊆ m ∧ m ⊆ U) as [Hsub HmU] by (destruct Hm as (?&?&_); done).
    destruct (IHl m) as (r & Hr & Hexp & Hin); [done| |set_solver|].
    { assert (size (U ∖ m) ≤ size (U ∖ visited))%nat; [|lia]. apply subseteq_size. set_solver. }
    exists r. split_and!; [done| |].
    + eapply explored_step; [|done..]. apply Hl. set_solver.
    + intros y [->|]%elem_of_cons; [|by apply Hin]. destruct Hexp as (Hs & _). set_solver.
Qed.

(** From an empty set: exactly what one or more edges reach. *)
Lemma dfs_reachable fuel start : (size U < fuel)%nat →
  ∃ result, InstanceUtil.dfs graph fuel start ∅ = Some result ∧
    ∀ x, x ∈ result ↔ tc edge start x.
Proof using Hclosed.
  intros Hf. destruct (dfs_spec fuel start ∅) as (r & Hr & (_ & _ & H3 & H4) & H5).
  - set_solver.
  - assert (U ∖ ∅ = U) as -> by set_solver. done.
  - exists r. split; [done|]. intros x. split.
    + intros Hx. destruct (H3 x Hx); [set_solver|done].
    + intros Ht. clear Hr H3 Hf. revert H5. induction Ht as [a b Hab|a b c Hab Hbc IH]; intros H5.
      * by apply H5.
      * apply IH. intros y Hy. eapply H4; [by apply H5|set_solver|done].
Qed.
End dfs_facts.

(** ** The status graph *)

Definition transition : relation InstanceStatus := edge InstanceUtil.get_valid_transitions.

Definition all_statuses : gset InstanceStatus := list_to_set InstanceStatus_values.

Lemma all_statuses_all s : s ∈ all_statuses.
Proof. unfold all_statuses. rewrite elem_of_list_to_set. destruct s; set_solver. Qed.

Lemma get_reachable_dfs s : InstanceUtil.get_reachable_statuses s =
  default ∅ (InstanceUtil.dfs InstanceUtil.get_valid_transitions InstanceUtil.dfs_fuel s ∅).
Proof. destruct s; reflexivity. Qed.

(** The memoized search terminates on every status, and
    [get_reachable_statuses s] is exactly the set of statuses reached from [s]
    by one or more legal transitions ([s] itself only on a cycle). *)
Theorem reachable_statuses_spec (s s' : InstanceStatus) :
  (∃ v, InstanceUtil.dfs InstanceUtil.get_valid_transitions InstanceUtil.dfs_fuel s ∅ = Some v) ∧
  (s' ∈ InstanceUtil.get_reachable_statuses s ↔ tc transition s s').
Proof.
  destruct (dfs_reachable InstanceUtil.get_valid_transitions all_statuses
    (λ a b _, all_statuses_all b) InstanceUtil.dfs_fuel s) as (r & Hr & Hspec).
  { change (size all_statuses < 16)%nat. vm_compute. lia. }
  split; [by exists r|]. rewrite get_reachable_dfs, Hr. apply Hspec.
Qed.

(** [is_ray_running] holds exactly in [RAY_RUNNING], [RAY_STOP_REQUESTED]
    and [RAY_STOPPING], as its comment says; [is_ray_pending] exactly in the
    four statuses before Ray runs; both imply that a status is not terminal,
    a running instance has a cloud instance, and all three predicates raise on
    [UNKNOWN]. *)
Theorem status_predicates_spec (s : InstanceStatus) :
  InstanceUtil.is_ray_running s =
    (if bool_decide (s = UNKNOWN) then Raise AssertionError
     else Ok (bool_decide (s ∈ [RAY_RUNNING; RAY_STOP_REQUESTED; RAY_STOPPING]))) ∧
  InstanceUtil.is_ray_pending s =
    (if bool_decide (s = UNKNOWN) then Raise AssertionError
     else Ok (bool_decide (s ∈ [QUEUED; REQUESTED; ALLOCATED; RAY_INSTALLING]))) ∧
  (InstanceUtil.is_ray_running s = Ok true → InstanceUtil.is_cloud_instance_allocated s = Ok true) ∧
  (InstanceUtil.is_cloud_instance_allocated s = Raise AssertionError ↔ s = UNKNOWN) ∧
  (InstanceUtil.is_ray_running_reachable s = true ↔ tc transition s RAY_RUNNING) ∧
  (InstanceUtil.get_valid_transitions s = [] ↔ s ∈ [UNKNOWN; TERMINATED; ALLOCATION_FAILED]).
Proof.
  split_and!; [by destruct s; vm_compute| by destruct s; vm_compute| | | |].
  - destruct s; vm_compute; done.
  - destruct s; vm_compute; done.
  - unfold InstanceUtil.is_ray_running_reachable. rewrite bool_decide_eq_true.
    apply reachable_statuses_spec.
  - destruct s; simpl; split; (done || set_solver).
Qed.

(** ** Legal histories *)

Fixpoint legal_chain (s : InstanceStatus) (l : list InstanceStatus) : Prop :=
  match l with [] => True | t :: l => transition s t ∧ legal_chain t l end.

Definition creation_statuses : list InstanceStatus := [ALLOCATED; QUEUED; TERMINATING].

(** The recorded history starts in a creation status, follows legal
    transitions, and ends in the current status. *)
Definition legal_history (i : InstanceMsg) : Prop :=
  ∃ s0 rest, map instance_status (status_history i) = s0 :: rest ∧
    s0 ∈ creation_statuses ∧ legal_chain s0 rest ∧ last (s0 :: rest) = Some (status i).

Lemma legal_chain_snoc s l t u :
  legal_chain s l → last (s :: l) = Some t → transition t u → legal_chain s (l ++ [u]).
Proof.
  revert s. induction l as [|v l IH]; intros s.
  - simpl. by intros _ [= ->].
  - intros [H1 H2] Hl Ht. simpl. split; [done|]. by eapply IH.
Qed.

Lemma legal_history_unknown i : legal_history i → status i ≠ UNKNOWN.
Proof.
  intros (s0 & rest & _ & Hs & Hc & Hl).
  assert (s0 ≠ UNKNOWN) as H0 by (unfold creation_statuses in Hs; set_solver).
  clear Hs. revert s0 H0 Hc Hl. induction rest as [|t rest IH]; intros s0 H0 Hc Hl.
  - simpl in Hl. congruence.
  - destruct Hc as [Ht Hc]. eapply (IH t); [|done|done]. intros ->.
    unfold transition, edge in Ht. destruct s0; simpl in Ht; set_solver.
Qed.

Lemma new_instance_legal now id ty s d :
  s ∈ creation_statuses → legal_history (InstanceUtil.new_instance now id ty s d).
Proof. intros Hs. by exists s, []. Qed.

Lemma set_status_legal now i s d j :
  legal_history i → InstanceUtil.set_status now i s d = Some j → legal_history j.
Proof.
  intros (s0 & rest & Hh & Hs & Hc & Hl). unfold InstanceUtil.set_status.
  case_bool_decide as Ht; [|done]. intros [= <-].
  exists s0, (rest ++ [s]). split_and!; simpl.
  - rewrite map_app, Hh. done.
  - done.
  - by eapply legal_chain_snoc.
  - by rewrite app_comm_cons, last_snoc.
Qed.

Lemma sorted_last_max l : l ≠ [] →
  ∃ m, InstanceUtil.sorted_last l = Some m ∧ m ∈ l ∧ ∀ x, x ∈ l → x ≤ m.
Proof.
  intros Hl. unfold InstanceUtil.sorted_last.
  pose proof (merge_sort_Permutation Z.le l) as Hp.
  pose proof (StronglySorted_merge_sort Z.le l) as Hs.
  destruct (merge_sort Z.le l) as [|m k _] using rev_ind.
  { by apply Permutation_nil_l in Hp. }
  exists m. split_and!; [apply last_snoc|rewrite <-Hp; set_solver|].
  intros x Hx. rewrite <-Hp in Hx. apply elem_of_app in Hx as [Hx|Hx]; [|set_solver].
  eapply (StronglySorted_app_1_elem_of Z.le); [exact Hs|done|set_solver].
Qed.

(** For an instance with a legal history, [has_timeout] never trips its
    assertion, and it compares the timeout (as a float, times 1e9) with the
    time since the latest record of the current status. *)
Theorem has_timeout_spec (now timeout_s : Z) (i : InstanceMsg) :
  legal_history i →
  ∃ m, (∃ h, h ∈ status_history i ∧ instance_status h = status i ∧ timestamp_ns h = m) ∧
    (∀ h, h ∈ status_history i → instance_status h = status i → timestamp_ns h ≤ m) ∧
    InstanceUtil.has_timeout now i timeout_s =
      Ok (negb (f_ge_int (f_mul (f_of_int timeout_s) (f_of_int (10 ^ 9))) (now - m))).
Proof.
  intros Hi. pose proof (legal_history_unknown i Hi) as Hu.
  assert (InstanceUtil.get_status_transitions i (Some (status i)) =
    filter (λ h, instance_status h = status i) (status_history i)) as Ef.
  { unfold InstanceUtil.get_status_transitions. by destruct (status i). }
  unfold InstanceUtil.has_timeout, InstanceUtil.get_status_transition_times_ns. rewrite Ef.
  set (k := filter _ _).
  assert (k ≠ []) as Hk.
  { destruct Hi as (s0 & rest & Hh & _ & _ & Hl). rewrite <-Hh in Hl.
    change (map ?f ?l) with (f <$> l) in Hl. rewrite fmap_last in Hl.
    destruct (last (status_history i)) as [h|] eqn:Eh; [|done]. simpl in Hl.
    assert (h ∈ k) as Hin; [|intros E; rewrite E in Hin; set_solver].
    apply list_elem_of_filter. split; [congruence|]. by apply last_Some_elem_of. }
  destruct (sorted_last_max (map timestamp_ns k)) as (m & -> & Hm & Hmax).
  { by destruct k. }
  exists m. split_and!.
  - apply list_elem_of_fmap in Hm as (h & -> & Hh). apply list_elem_of_filter in Hh as [? ?].
    by exists h.
  - intros h Hh Hs. apply Hmax. apply list_elem_of_fmap. exists h. split; [done|].
    by apply list_elem_of_filter.
  - rewrite length_map. assert ((1 <=? Z.of_nat (length k)) = true) as ->; [|done].
    apply Z.leb_le. destruct k as [|h l]; [done|]. simpl length. lia.
Qed.

Lemma has_timeout_spec_witness :
  let i := InstanceUtil.new_instance 5 "i-1" "worker" QUEUED "" in
  legal_history i ∧
  ∃ m, (∃ h, h ∈ status_history i ∧ instance_status h = status i ∧ timestamp_ns h = m) ∧
    (∀ h, h ∈ status_history i → instance_status h = status i → timestamp_ns h ≤ m) ∧
    InstanceUtil.has_timeout 12000000006 i 12 =
      Ok (negb (f_ge_int (f_mul (f_of_int 12) (f_of_int (10 ^ 9))) (12000000006 - m))).
Proof.
  simpl. pose proof (new_instance_legal 5 "i-1" "worker" QUEUED "" ltac:(set_solver)) as H.
  split; [exact H|].
  exact (has_timeout_spec 12000000006 12 (InstanceUtil.new_instance 5 "i-1" "worker" QUEUED "") H).
Defined.
