(* ===== verification/InstanceManagerFacts.v ===== *)
(** * The instance manager: requests are atomic, transitions are legal

    Everything is proved against [StorageLaws]; [InMemoryStorage] is the
    instance the last theorem uses. *)
From S2P Require Import Prelude PyDict PyFloat InstanceUtil InstanceUtilFacts Storage StorageFacts InstanceManager.
#[local] Open Scope Z_scope.

(** ** Single updates *)

(** What the loop does with one update, given the stored instance. *)
Definition apply_event (now : Z) (old : option InstanceMsg) (u : InstanceUpdateEvent) :
    result InstanceMsg :=
  match old with
  | Some i => InstanceManager._update_instance now i u
  | None => InstanceManager._create_instance now u
  end.

Lemma apply_update_same i u j : InstanceManager._apply_update i u = Ok j →
  instance_id j = instance_id i ∧ status j = status i ∧ status_history j = status_history i.
Proof.
  unfold InstanceManager._apply_update.
  destruct (new_instance_status u); intros H; inv_ok; done.
Qed.

Lemma apply_event_id now old u j :
  (∀ i, old = Some i → instance_id i = upd_instance_id u) →
  apply_event now old u = Ok j → instance_id j = upd_instance_id u.
Proof.
  intros Hid. destruct old as [i|]; simpl.
  - unfold InstanceManager._update_instance, InstanceUtil.set_status.
    case_bool_decide; [|done]. intros H'. inv_ok. apply apply_update_same in H' as [-> _].
    simpl in *. injection Hr as <-. simpl. by apply Hid.
  - unfold InstanceManager._create_instance. intros H'. inv_ok.
    apply apply_update_same in H' as [-> _]. done.
Qed.

(** An accepted update is a legal transition, or a legal creation, recorded at
    the end of the history. *)
Lemma apply_event_status now old u j : apply_event now old u = Ok j →
  status j = new_instance_status u ∧
  (∃ d, status_history j = match old with Some i => status_history i | None => [] end ++
     [{| instance_status := new_instance_status u; timestamp_ns := now; details := d |}]) ∧
  match old with
  | Some i => transition (status i) (new_instance_status u)
  | None => upsert u = true ∧ new_instance_status u ∈ creation_statuses
  end.
Proof.
  destruct old as [i|]; simpl.
  - unfold InstanceManager._update_instance, InstanceUtil.set_status.
    case_bool_decide as Ht; [|done]. intros H'. inv_ok. simpl in Hr. injection Hr as <-.
    apply apply_update_same in H' as (_ & -> & ->). simpl. eauto.
  - unfold InstanceManager._create_instance. intros H'. inv_ok.
    apply apply_update_same in H' as (_ & -> & ->). simpl.
    apply bool_decide_eq_true in Hr0. eauto.
Qed.

Lemma apply_event_legal now old u j :
  (∀ i, old = Some i → legal_history i) → apply_event now old u = Ok j → legal_history j.
Proof.
  intros Hold Hj. pose proof (apply_event_status now old u j Hj) as (Hs & (d & Hh) & Ht).
  destruct old as [i|].
  - destruct (Hold i eq_refl) as (s0 & rest & H1 & H2 & H3 & H4).
    exists s0, (rest ++ [status j]). rewrite Hh, map_app, H1, Hs.
    split_and!; [done|done|exact (legal_chain_snoc _ _ _ _ H3 H4 Ht)|by rewrite app_comm_cons, last_snoc].
  - destruct Ht as [_ Ht]. exists (status j), []. rewrite Hh, Hs. by split_and!.
Qed.

(** ** Requests *)
Section requests.
Context {St V Sub : Type} `{!Storage St V, !InstanceCodec V}.
Context `{!StorageLaws (St:=St) (V:=V), !InstanceCodecLaws V}.
Implicit Types (st : St) (x : InstanceManager.t Sub) (clock : nat → Z).

(** The stored instance of an id, its version that of its entry. *)
Definition view (table : string) st (id : string) : option InstanceMsg :=
  (λ e, InstanceUtil.set_version (VersionedValue.version e)
     (ParseFromString (VersionedValue.value e))) <$> st_lookup st table id.

Definition table_name x : string :=
  InstanceStorage._table_name (InstanceManager._instance_storage x).

Definition manager_inv x st : Prop :=
  st_inv st ∧ ∀ id i, view (table_name x) st id = Some i →
    instance_id i = id ∧ legal_history i ∧ 1 ≤ version i ≤ storage_get_version st.

(** The update that counts for an id: the last one of the request. *)
Definition effective (request : UpdateRequest) (id : string) : option InstanceUpdateEvent :=
  dget (reverse (map (λ u, (upd_instance_id u, u)) (updates request))) id.

Lemma dset_all_dict_of {A B} (f : A → string) (g : A → B) (l : list A) acc :
  foldl (λ m a, dset m (f a) (g a)) acc l = dupdate acc (map (λ a, (f a, g a)) l).
Proof. revert acc. induction l as [|a l IH]; intros acc; [done|]. simpl. by rewrite IH. Qed.

Lemma get_instances_view s ids st : st_inv st →
  (InstanceStorage.get_instances s ids ∅ st).2 = storage_get_version st ∧
  dwf (InstanceStorage.get_instances s ids ∅ st).1 ∧
  ∀ id, dget (InstanceStorage.get_instances s ids ∅ st).1 id =
    if decide (ids = [] ∨ id ∈ ids)
    then view (InstanceStorage._table_name s) st id else None.
Proof.
  intros Hst. unfold InstanceStorage.get_instances.
  destruct (sl_get (InstanceStorage._table_name s) ids st Hst) as (Hv & Hwf & Hget).
  destruct (storage_get _ _ _) as [pairs v]. simpl in *.
  rewrite (bool_decide_eq_true_2 (∅ = ∅)) by done. simpl.
  rewrite (dset_all_dict_of fst (λ p, InstanceUtil.set_version (VersionedValue.version p.2)
     (ParseFromString (VersionedValue.value p.2)))).
  split_and!; [done|apply dict_of_wf|]. intros id.
  rewrite (dget_dupdate_wf []), (dget_map (λ e, InstanceUtil.set_version
    (VersionedValue.version e) (ParseFromString (VersionedValue.value e)))).
  - rewrite Hget. unfold view. case_decide; [|done]. by destruct (st_lookup _ _ _).
  - unfold dwf. rewrite <-list_fmap_compose. exact Hwf.
Qed.

(** The loop maps the updates, in order, or stops at the first that raises. *)
Lemma update_loop_spec clock k insts ups :
  match InstanceManager.update_loop clock k insts ups with
  | Ok is' => Forall2 (λ (p : string * InstanceUpdateEvent) i,
      ∃ n, apply_event (clock n) (dget insts p.1) p.2 = Ok i) ups is'
  | Raise e => ∃ id u n, (id, u) ∈ ups ∧ apply_event (clock n) (dget insts id) u = Raise e
  end.
Proof.
  revert k. induction ups as [|[id u] ups IH]; intros k; simpl; [constructor|].
  destruct (match dget insts id with Some _ => _ | None => _ end) as [i|e] eqn:Hi; simpl.
  - specialize (IH (S k)). destruct (InstanceManager.update_loop _ _ _ _) as [is'|e]; simpl.
    + constructor; [|done]. by exists k.
    + destruct IH as (id' & u' & n & Hin & He). exists id', u', n. split; [set_solver|done].
  - exists id, u, k. split; [set_solver|]. done.
Qed.

Lemma Forall2_dget {A B} (P : string * A → B → Prop) (f : B → string) ups is' id :
  Forall2 P ups is' → dwf ups → (∀ p i, P p i → p ∈ ups → f i = p.1) →
  match dget ups id with
  | Some u => ∃ i, P (id, u) i ∧ dget (map (λ i, (f i, i)) is') id = Some i
  | None => dget (map (λ i, (f i, i)) is') id = None
  end ∧ (map (λ i, (f i, i)) is').*1 = ups.*1.
Proof.
  intros H2 Hwf Hf. induction H2 as [|[j u] i ups is' Hp H2 IH]; [done|].
  apply NoDup_cons in Hwf as [Hj Hwf]. destruct IH as [IH Hk].
  { done. }
  { intros p i' Hp' Hin. apply Hf; [done|set_solver]. }
  assert (f i = j) as Hfi by (apply (Hf (j, u)); [done|set_solver]).
  simpl. rewrite Hfi. split; [|by f_equal]. case_decide; [subst id; by exists i|done].
Qed.

Lemma upsert_view s is' v st : st_inv st → v = storage_get_version st →
  NoDup (map instance_id is') →
  ∃ st', InstanceStorage.batch_upsert_instances s is' (Some v) st =
    ({| success := true; store_version := v + 1 |}, st') ∧ st_inv st' ∧
    storage_get_version st' = v + 1 ∧
    ∀ id, view (InstanceStorage._table_name s) st' id =
      match dget (map (λ i, (instance_id i, i)) is') id with
      | Some i => Some (InstanceUtil.set_version (v + 1) i)
      | None => view (InstanceStorage._table_name s) st id
      end.
Proof.
  intros Hst Hv Hnd. unfold InstanceStorage.batch_upsert_instances, InstanceStorage.version_mismatch.
  rewrite <-Hv, Z.eqb_refl, andb_false_r.
  rewrite (dset_all_dict_of (λ i, instance_id (InstanceUtil.set_version 0 i))
    (λ i, SerializeToString (InstanceUtil.set_version 0 i))).
  set (m := map _ is').
  assert (m.*1 = map instance_id is') as Hm by (unfold m; by rewrite <-list_fmap_compose).
  assert (dupdate [] m = m) as ->. { apply (dict_of_NoDup m). by rewrite Hm. }
  pose proof (sl_batch_update (InstanceStorage._table_name s) m [] (Some v) st Hst) as H.
  destruct (storage_batch_update _ _ _ _ _) as [r st']. simpl in H. rewrite <-Hv, Z.eqb_refl in H.
  destruct H as (-> & Hv' & Hst' & Hl); [unfold dwf; by rewrite Hm|].
  exists st'. split_and!; [done..|]. intros id. unfold view. rewrite Hl.
  rewrite decide_True by done.
  unfold m. clear Hm Hnd Hl m. induction is' as [|i is' IH]; [done|]. simpl.
  destruct (decide (id = instance_id i)); [|apply IH].
  simpl. by rewrite parse_serialize.
Qed.
(** The possible outcomes of a request on a storage. *)
Definition outcome x clock (request : UpdateRequest) st
    (res : result UpdateReply * St * list (Sub * list InstanceUpdateEvent)) : Prop :=
  let v := storage_get_version st in
  (* applied: every id of the request moved by its last update, no other *)
  (∃ st', res = (Ok {| reply_code := OK; reply_version := v + 1 |}, st',
       map (λ s, (s, updates request)) (InstanceManager._status_update_subscribers x)) ∧
     storage_get_version st' = v + 1 ∧
     ∀ id, match effective request id with
       | None => view (table_name x) st' id = view (table_name x) st id
       | Some u => ∃ n j, apply_event (clock n) (view (table_name x) st id) u = Ok j ∧
           view (table_name x) st' id = Some (InstanceUtil.set_version (v + 1) j)
       end) ∨
  (* refused: the caller saw another version *)
  (res = (Ok {| reply_code := VERSION_MISMATCH; reply_version := v |}, st, []) ∧
     0 ≤ expected_version request ∧ expected_version request ≠ v) ∨
  (* an update is illegal: its assertion escapes, nothing is written *)
  (∃ e id u n, res = (Raise e, st, []) ∧ effective request id = Some u ∧
     apply_event (clock n) (view (table_name x) st id) u = Raise e).

Lemma ids_effective request id :
  dget (dict_of (map (λ u, (upd_instance_id u, u)) (updates request))) id = effective request id.
Proof. apply dget_dict_of. Qed.

Lemma effective_id request id u :
  (id, u) ∈ dict_of (map (λ u, (upd_instance_id u, u)) (updates request)) → upd_instance_id u = id.
Proof. intros H%dict_of_elem. apply list_elem_of_fmap in H as (u' & [= -> ->] & _). done. Qed.

(** The instances read for the request are those of its ids. *)
Lemma to_update_view x (ids : dict string InstanceUpdateEvent) st id u : st_inv st → dget ids id = Some u →
  dget (InstanceStorage.get_instances (InstanceManager._instance_storage x) ids.*1 ∅ st).1 id
    = view (table_name x) st id.
Proof.
  intros Hst Hu. destruct (get_instances_view (InstanceManager._instance_storage x) ids.*1 st Hst)
    as (_ & _ & ->). rewrite decide_True; [done|]. right.
  apply dget_elem in Hu. apply list_elem_of_fmap. by exists (id, u).
Qed.

Lemma update_outcome x clock request st : manager_inv x st →
  let res := InstanceManager.update_instance_manager_state x clock request st in
  st_inv res.1.2 ∧ outcome x clock request st res.
Proof.
  intros [Hst Hinv]. simpl. unfold InstanceManager.update_instance_manager_state.
  set (ids := dict_of _). assert (dwf ids) as Hids by apply dict_of_wf.
  pose proof (get_instances_view (InstanceManager._instance_storage x) ids.*1 st Hst) as (Hv & _ & _).
  pose proof (λ id u, to_update_view x ids st id u Hst) as Hview.
  destruct (InstanceStorage.get_instances _ _ _ _) as [insts v]. simpl in Hv, Hview. subst v.
  destruct ((0 <=? expected_version request) && _) eqn:Hexp.
  { split; [done|]. right. left. split; [done|]. apply andb_true_iff in Hexp as [H1 H2].
    apply negb_true_iff, Z.eqb_neq in H2. lia. }
  pose proof (update_loop_spec clock 0 insts ids) as Hloop.
  destruct (InstanceManager.update_loop _ _ _ _) as [is'|e].
  - assert (∀ p i, (∃ n, apply_event (clock n) (dget insts p.1) p.2 = Ok i) → p ∈ ids →
      instance_id i = p.1) as Hid.
    { intros [id u] i [n Hn] Hin. simpl in *. pose proof (effective_id _ _ _ Hin) as Hu.
      apply apply_event_id in Hn as ->; [done|]. intros j Hj.
      rewrite (Hview id u) in Hj by by apply dget_wf_elem.
      destruct (Hinv id j Hj) as [-> _]. done. }
    assert (map instance_id is' = ids.*1) as Hmap.
    { destruct (Forall2_dget _ instance_id ids is' "" Hloop Hids Hid) as [_ Hk].
      by rewrite <-Hk, <-list_fmap_compose. }
    destruct (upsert_view (InstanceManager._instance_storage x) is' _ st Hst eq_refl)
      as (st' & -> & Hst' & Hv' & Hview'); [by rewrite Hmap|]. simpl.
    split; [done|]. left. exists st'. split_and!; [done|done|]. intros id.
    destruct (Forall2_dget _ instance_id ids is' id Hloop Hids Hid) as [Hget _].
    unfold ids in Hget. rewrite ids_effective in Hget. fold ids in Hget.
    destruct (effective request id) as [u|] eqn:Heff.
    + destruct Hget as (i & [n Hn] & Hi). simpl in Hn. exists n, i.
      rewrite <-(Hview id u) by (unfold ids; by rewrite ids_effective).
      split; [done|]. unfold table_name. by rewrite Hview', Hi.
    + unfold table_name. by rewrite Hview', Hget.
  - split; [done|]. right. right. destruct Hloop as (id & u & n & Hin & He). exists e, id, u, n.
    apply dget_wf_elem in Hin; [|done]. rewrite (Hview id u Hin) in He.
    split_and!; [done| |done]. unfold ids in Hin. by rewrite ids_effective in Hin.
Qed.

Lemma outcome_inv x clock request st res :
  manager_inv x st → st_inv res.1.2 → outcome x clock request st res → manager_inv x res.1.2.
Proof.
  intros [Hst Hinv] Hst' [(st' & -> & Hv & Hview)|[[-> _]|(e & id & u & n & -> & _)]];
    [|done..].
  split; [done|]. simpl in *. intros id i Hi. specialize (Hview id).
  destruct (effective request id) as [u|] eqn:Heff.
  - destruct Hview as (n & j & Hj & E). rewrite E in Hi. injection Hi as <-.
    assert (upd_instance_id u = id) as Hu.
    { apply (effective_id request id u), dget_elem. by rewrite ids_effective. }
    split_and!; simpl.
    + change (instance_id j = id). rewrite <-Hu. eapply apply_event_id; [|exact Hj]. intros k Hk. rewrite Hu.
      by apply (Hinv id k).
    + change (legal_history j). eapply apply_event_legal; [|exact Hj]. intros k Hk. by apply (Hinv id k).
    + pose proof (sl_entry_version st') as Hle. unfold view in E.
      destruct (st_lookup st' _ id) as [w|] eqn:Hw; [|done].
      apply (f_equal (from_option version 0)) in E. simpl in E. specialize (Hle _ _ _ Hst' Hw). lia.
    + lia.
  - rewrite Hview in Hi. destruct (Hinv id i Hi) as (H1 & H2 & H3). split_and!; [done|done|lia..].
Qed.
End requests.

(** C14: A request to the instance manager is atomic, over any storage that
    keeps [StorageLaws]: either it is applied in full, the version grows by
    one, every id of the request is moved by its last update, no other
    instance changes and every subscriber is told the request's updates; or it
    is refused because the caller expected another version; or an update is
    illegal and its assertion escapes; in the last two cases nothing is
    written and nobody is told. *)
Theorem update_request_spec {St V Sub : Type} `{!Storage St V, !InstanceCodec V}
    `{!StorageLaws (St:=St) (V:=V), !InstanceCodecLaws V}
    (x : InstanceManager.t Sub) (clock : nat → Z) (request : UpdateRequest) (st : St) :
  manager_inv x st →
  outcome x clock request st (InstanceManager.update_instance_manager_state x clock request st).
Proof. apply update_outcome. Qed.

(** ** Any sequence of requests *)
Section sequences.
Context {V Sub : Type} `{!InstanceCodec V, !InstanceCodecLaws V}.
Implicit Types (x : InstanceManager.t Sub).

(** Requests handled one after the other, each with its clock. *)
Definition run_requests x (rs : list ((nat → Z) * UpdateRequest)) (st : InMemoryStorage.t V) :
    InMemoryStorage.t V :=
  foldl (λ st r, (InstanceManager.update_instance_manager_state x r.1 r.2 st).1.2) st rs.

Lemma run_requests_inv x rs st : manager_inv x st → manager_inv x (run_requests x rs st).
Proof.
  revert st. induction rs as [|r rs IH]; intros st Hst; [done|]. simpl. apply IH.
  destruct (update_outcome x r.1 r.2 st Hst) as [H1 H2]. by eapply outcome_inv.
Qed.

(** C23: Whatever requests a manager over a fresh in-memory storage has
    handled, and however many it refused or raised on, every stored instance
    is kept under its own id, its history starts in ALLOCATED, QUEUED or
    TERMINATING and follows only legal transitions up to its current status,
    and its version is at least 1 and at most the storage version. *)
Theorem instances_always_legal x (rs : list ((nat → Z) * UpdateRequest)) (id : string)
    (i : InstanceMsg) :
  let st := run_requests x rs InMemoryStorage.init in
  view (table_name x) st id = Some i →
  instance_id i = id ∧ legal_history i ∧ 1 ≤ version i ≤ InMemoryStorage._version st.
Proof.
  intros st Hi. assert (manager_inv x st) as [_ H].
  { apply run_requests_inv. split; [apply init_ok|done]. }
  by apply H.
Qed.

End sequences.

(** ** Concrete requests, serializing a message as itself *)
Section concrete.

#[local] Instance id_codec : InstanceCodec InstanceMsg :=
  {| SerializeToString i := i; ParseFromString i := i |}.
#[local] Instance id_codec_laws : InstanceCodecLaws InstanceMsg.
Proof. split. done. Qed.

Definition queue_event (id : string) : InstanceUpdateEvent := {|
  upd_instance_id := id; new_instance_status := QUEUED; upd_details := "new"; upsert := true;
  upd_instance_type := "worker"; upd_cloud_instance_id := ""; upd_node_kind := UNMANAGED;
  upd_ray_node_id := ""; upd_launch_request_id := ""; upd_termination_request := None |}.

Definition request_event (id : string) : InstanceUpdateEvent := {|
  upd_instance_id := id; new_instance_status := REQUESTED; upd_details := "launch"; upsert := false;
  upd_instance_type := "worker"; upd_cloud_instance_id := ""; upd_node_kind := UNMANAGED;
  upd_ray_node_id := ""; upd_launch_request_id := "l-1"; upd_termination_request := None |}.

Definition demo_manager : InstanceManager.t nat := {|
  InstanceManager._instance_storage := InstanceStorage.init "c";
  InstanceManager._status_update_subscribers := [0; 1]%nat |}.

Definition demo_requests : list ((nat → Z) * UpdateRequest) :=
  [(Z.of_nat, {| expected_version := 0; updates := [queue_event "a"; queue_event "b"] |});
   (λ n, 10 + Z.of_nat n, {| expected_version := -1; updates := [request_event "a"] |})].

Lemma update_request_spec_witness :
  manager_inv (V:=InstanceMsg) demo_manager InMemoryStorage.init ∧
  outcome (V:=InstanceMsg) demo_manager Z.of_nat
    {| expected_version := 0; updates := [queue_event "a"] |} InMemoryStorage.init
    (InstanceManager.update_instance_manager_state demo_manager Z.of_nat
       {| expected_version := 0; updates := [queue_event "a"] |} InMemoryStorage.init).
Proof.
  assert (manager_inv (V:=InstanceMsg) demo_manager InMemoryStorage.init) as H.
  { split; [apply init_ok|done]. }
  split; [exact H|].
  exact (update_request_spec demo_manager Z.of_nat
    {| expected_version := 0; updates := [queue_event "a"] |} InMemoryStorage.init H).
Defined.

Definition demo_storage : InMemoryStorage.t InstanceMsg :=
  run_requests demo_manager demo_requests InMemoryStorage.init.

Definition demo_instance : InstanceMsg :=
  default Instance_default (view (table_name demo_manager) demo_storage "a").

Lemma instances_always_legal_witness :
  view (table_name demo_manager) demo_storage "a" = Some demo_instance ∧
  instance_id demo_instance = "a" ∧ legal_history demo_instance ∧
  1 ≤ version demo_instance ≤ InMemoryStorage._version demo_storage.
Proof.
  assert (view (table_name demo_manager) demo_storage "a" = Some demo_instance) as H
    by (vm_compute; reflexivity).
  exact (conj H (instances_always_legal demo_manager demo_requests "a" demo_instance H)).
Defined.

(** [_update_instance] calls [set_status] without the event's details, so
    the history of an existing instance records an empty string where the
    event had details, while a created instance keeps them. *)
Theorem update_details_dropped :
  (λ i, map details (status_history i)) <$> view (table_name demo_manager) demo_storage "a"
    = Some ["new"; ""].
Proof. vm_compute. reflexivity. Qed.
End concrete.
