(* ===== verification/Checkpoints.v ===== *)
(** * The checkpoint managers of Ray Train

    [train/_internal/checkpoint_manager.py] (the sorted list and the scores)
    and [train/v2/_internal/execution/checkpoint/checkpoint_manager.py].
    Checkpoints and training results are compared by identity: a training
    result is an index into a heap, whose metrics validation updates in
    place; a checkpoint carries the UUID it was created with. *)
From S2P Require Import Prelude PyDict PyFloat.

Record Checkpoint : Type := { uuid : Z; path : string }.

#[export] Instance Checkpoint_eq_dec : EqDecision Checkpoint.
Proof. solve_decision. Defined.

#[local] Set Warnings "-register-all".

(** Reported metrics: numbers, strings and nested dictionaries. *)
Inductive metric : Type :=
  | MInt (n : Z)
  | MFloat (x : float)
  | MStr (s : string)
  | MDict (d : list (string * metric)).

Abbreviation metrics := (list (string * metric)).

Fixpoint depth (m : metric) : nat :=
  match m with
  | MDict d => S (foldr (λ kv n, Nat.max (depth kv.2) n) O d)
  | _ => O
  end.

(** ** [flatten_dict] of [_private/dict.py], with its default options *)

Definition is_dict (m : metric) : bool := match m with MDict _ => true | _ => false end.

(** One pass of the loop: nested values are lifted, their keys removed. *)
Definition flatten_pass (dt : metrics) : metrics :=
  let add := concat (map (λ kv, match kv.2 with
    | MDict d => map (λ sv, (kv.1 +:+ "/" +:+ sv.1, sv.2)) d
    | _ => [] end) dt) in
  let remove := map fst (filter (λ kv, is_dict kv.2 = true) dt) in
  foldl ddel (dupdate dt (dict_of add)) remove.

Fixpoint flatten_loop (fuel : nat) (dt : metrics) : metrics :=
  match fuel with
  | O => dt
  | S fuel => if existsb (λ kv, is_dict kv.2) dt then flatten_loop fuel (flatten_pass dt) else dt
  end.

Definition flatten_dict (dt : metrics) : metrics := flatten_loop (depth (MDict dt)) dt.

(** ** Configuration and scores *)

Inductive score_order : Type := MAX | MIN.

Record CheckpointConfig : Type := {
  num_to_keep : option Z;
  checkpoint_score_attribute : option string;
  checkpoint_score_order : score_order
}.

(** A score: (not nan, number). *)
Abbreviation score := (bool * float)%type.

(** [order_factor * checkpoint_result]; multiplying a string by a float
    raises. *)
Definition scale (o : score_order) (m : metric) : result float :=
  let factor := match o with MAX => f_of_int 1 | MIN => f_opp (f_of_int 1) end in
  match m with
  | MInt n => Ok (f_mul factor (f_of_int n))
  | MFloat x => Ok (f_mul factor x)
  | MStr _ | MDict _ => Raise TypeError
  end.

Definition _get_checkpoint_score (cfg : CheckpointConfig) (ms : metrics) : result score :=
  let checkpoint_result :=
    match checkpoint_score_attribute cfg with
    | None | Some "" => MFloat f_neg_inf
    | Some a => default (MFloat f_neg_inf) (dget (flatten_dict ms) a)
    end in
  s ← scale (checkpoint_score_order cfg) checkpoint_result;
  Ok (if f_is_nan s then (false, f_neg_inf) else (true, s)).

(** Comparison of tuples: the first components that differ decide. *)
Definition score_gt (a b : score) : bool :=
  if eqb a.1 b.1 then f_ltb b.2 a.2 else a.1.
Definition score_eq (a b : score) : bool := eqb a.1 b.1 && f_eqb a.2 b.2.

(** [_insert_into_sorted_list], for a [key] that may raise and the report
    index of an item (0 when it has none). *)
Fixpoint _insert_into_sorted_list {A} (key : A → result score) (index : A → Z) (l : list A)
    (item : A) : result (list A) :=
  match l with
  | [] => Ok [item]
  | x :: l' =>
      list_item_key ← key x;
      item_key ← key item;
      if score_gt list_item_key item_key ||
         (score_eq list_item_key item_key && (index item <? index x))
      then Ok (item :: x :: l')
      else rest ← _insert_into_sorted_list key index l' item; Ok (x :: rest)
  end.

(** Terminal statuses a validation may report, and the others. *)
Inductive ReportedCheckpointStatus : Type :=
  | COMMITTED | PENDING_VALIDATION | VALIDATED | VALIDATION_TIMEOUT | VALIDATION_FAILED.

#[export] Instance ReportedCheckpointStatus_eq_dec : EqDecision ReportedCheckpointStatus.
Proof. solve_decision. Defined.

Record TrainingResult : Type := { checkpoint : Checkpoint; result_metrics : metrics }.

(** [_TrainingReport]; [validation] is [None] where the code has a falsy
    value. *)
Record TrainingReport (Spec : Type) : Type := {
  report_checkpoint : option Checkpoint;
  report_metrics : metrics;
  validation : option Spec
}.
Arguments report_checkpoint {Spec}.
Arguments report_metrics {Spec}.
Arguments validation {Spec}.

(** [_CheckpointManagerState] *)
Record ManagerState (Spec : Type) : Type := {
  checkpoint_results : list (string * metrics);
  checkpoint_report_indices : list Z;
  latest_checkpoint_result : option (string * metrics);
  pending_training_results : list (string * metrics);
  pending_validation_specs : list Spec;
  current_report_index : Z;
  validated_checkpoint_dir_names : list string;
  timed_out_validation_checkpoint_dir_names : list string;
  failed_validation_checkpoint_dir_names : list string
}.
Arguments Build_ManagerState {Spec}.
Arguments checkpoint_results {Spec}.
Arguments checkpoint_report_indices {Spec}.
Arguments latest_checkpoint_result {Spec}.
Arguments pending_training_results {Spec}.
Arguments pending_validation_specs {Spec}.
Arguments current_report_index {Spec}.
Arguments validated_checkpoint_dir_names {Spec}.
Arguments timed_out_validation_checkpoint_dir_names {Spec}.
Arguments failed_validation_checkpoint_dir_names {Spec}.

(** pydantic's [json] and [parse_obj] on the snapshot, a text of characters [J]. *)
Class SnapshotCodec (Spec J : Type) : Type := {
  to_json : ManagerState Spec → list J;
  of_json : list J → option (ManagerState Spec)
}.

(** The text of an object that breaks off is not JSON. *)
Class SnapshotCodecLaws (Spec J : Type) `{!SnapshotCodec Spec J} : Prop := {
  of_to_json s : of_json (to_json s) = Some s;
  of_torn s p : p `prefix_of` to_json s → p ≠ to_json s → of_json p = None
}.

(** The storage: the checkpoint directories that exist, and the text in the
    snapshot's file, if there is one. *)
Record Fs (J : Type) : Type := { dirs : list string; snapshot : option (list J) }.
Arguments Build_Fs {J}.
Arguments dirs {J}.
Arguments snapshot {J}.

(** Opening the snapshot's file for writing, writing to it, and deleting a
    checkpoint's directory. *)
Inductive fs_action (J : Type) : Type :=
  | OpenSnapshot
  | WriteSnapshot (j : list J)
  | DeletePath (p : string).
Arguments OpenSnapshot {J}.
Arguments WriteSnapshot {J}.
Arguments DeletePath {J}.

Definition fs_apply {J} (fs : Fs J) (a : fs_action J) : Fs J :=
  match a with
  | OpenSnapshot => Build_Fs (dirs fs) (Some [])
  | WriteSnapshot j => Build_Fs (dirs fs) (Some (default [] (snapshot fs) ++ j))
  | DeletePath p => Build_Fs (filter (.≠ p) (dirs fs)) (snapshot fs)
  end.

(** What a crash leaves of the storage: it happens before an action, after part
    of a text is written, or later; a deletion that fails is only logged. *)
Inductive crashed {J} : Fs J → list (fs_action J) → Fs J → Prop :=
  | crash_now fs acts : crashed fs acts fs
  | crash_writing fs p j acts : p `prefix_of` j →
      crashed fs (WriteSnapshot j :: acts) (fs_apply fs (WriteSnapshot p))
  | crash_later fs a acts fs' : crashed (fs_apply fs a) acts fs' → crashed fs (a :: acts) fs'
  | delete_fails fs p acts fs' : crashed fs acts fs' → crashed fs (DeletePath p :: acts) fs'.

Module StorageContext.
(** [extract_checkpoint_dir_name_from_path] and
    [build_checkpoint_path_from_name], for names that pathlib leaves alone. *)
Definition extract (experiment_fs_path p : string) : result string :=
  let pre := experiment_fs_path +:+ "/" in
  if String.prefix pre p
  then Ok (String.substring (String.length pre) (String.length p - String.length pre) p)
  else Raise ValueError.

Definition build (experiment_fs_path name : string) : string :=
  experiment_fs_path +:+ "/" +:+ name.
End StorageContext.

Module CheckpointManager.
Section manager.
Context {Spec J : Type} `{!SnapshotCodec Spec J}.

(** Training results are indices into [heap]; the pending results map a
    checkpoint to its result and validation spec; the sets of checkpoints are
    lists without duplicates.  The asyncio notifications are not modelled. *)
Record t : Type := {
  _checkpoint_config : CheckpointConfig;
  _experiment_fs_path : string;
  heap : list TrainingResult;
  _checkpoint_results : list nat;
  _latest_checkpoint_result : option nat;
  _current_report_index : Z;
  _pending_training_results : dict Checkpoint (nat * Spec);
  _validated_checkpoints : list Checkpoint;
  _timed_out_validation_checkpoints : list Checkpoint;
  _failed_validation_checkpoints : list Checkpoint;
  _checkpoint_to_report_index : dict Checkpoint Z
}.

Definition init (cfg : CheckpointConfig) (experiment : string) : result t :=
  if match num_to_keep cfg with Some k => k <=? 0 | None => false end then Raise ValueError
  else Ok {| _checkpoint_config := cfg; _experiment_fs_path := experiment; heap := [];
    _checkpoint_results := []; _latest_checkpoint_result := None; _current_report_index := 0;
    _pending_training_results := []; _validated_checkpoints := [];
    _timed_out_validation_checkpoints := []; _failed_validation_checkpoints := [];
    _checkpoint_to_report_index := [] |}.

(** The assignments of the methods. *)
Definition set_results (h : list TrainingResult) (rs : list nat) (latest : option nat) (x : t) : t := {|
  _checkpoint_config := _checkpoint_config x; _experiment_fs_path := _experiment_fs_path x;
  heap := h; _checkpoint_results := rs; _latest_checkpoint_result := latest;
  _current_report_index := _current_report_index x;
  _pending_training_results := _pending_training_results x;
  _validated_checkpoints := _validated_checkpoints x;
  _timed_out_validation_checkpoints := _timed_out_validation_checkpoints x;
  _failed_validation_checkpoints := _failed_validation_checkpoints x;
  _checkpoint_to_report_index := _checkpoint_to_report_index x |}.

Definition set_indices (n : Z) (d : dict Checkpoint Z) (x : t) : t := {|
  _checkpoint_config := _checkpoint_config x; _experiment_fs_path := _experiment_fs_path x;
  heap := heap x; _checkpoint_results := _checkpoint_results x;
  _latest_checkpoint_result := _latest_checkpoint_result x; _current_report_index := n;
  _pending_training_results := _pending_training_results x;
  _validated_checkpoints := _validated_checkpoints x;
  _timed_out_validation_checkpoints := _timed_out_validation_checkpoints x;
  _failed_validation_checkpoints := _failed_validation_checkpoints x;
  _checkpoint_to_report_index := d |}.

Definition set_validation (pending : dict Checkpoint (nat * Spec))
    (validated timed_out failed : list Checkpoint) (x : t) : t := {|
  _checkpoint_config := _checkpoint_config x; _experiment_fs_path := _experiment_fs_path x;
  heap := heap x; _checkpoint_results := _checkpoint_results x;
  _latest_checkpoint_result := _latest_checkpoint_result x;
  _current_report_index := _current_report_index x;
  _pending_training_results := pending; _validated_checkpoints := validated;
  _timed_out_validation_checkpoints := timed_out; _failed_validation_checkpoints := failed;
  _checkpoint_to_report_index := _checkpoint_to_report_index x |}.

(** A dangling reference cannot occur; reading one would be an error. *)
Definition deref (x : t) (r : nat) : result TrainingResult := or_raise RuntimeError (heap x !! r).

(** [set.add] and [set.discard] *)
Definition set_add (c : Checkpoint) (l : list Checkpoint) : list Checkpoint :=
  if bool_decide (c ∈ l) then l else l ++ [c].
Definition set_discard (l : list Checkpoint) (c : Checkpoint) : list Checkpoint := filter (.≠ c) l.

Definition score_of (x : t) (r : nat) : result score :=
  tr ← deref x r; _get_checkpoint_score (_checkpoint_config x) (result_metrics tr).

Definition report_index (x : t) (r : nat) : Z :=
  match heap x !! r with
  | Some tr => default 0 (dget (_checkpoint_to_report_index x) (checkpoint tr))
  | None => 0
  end.

(** ** Saving *)

Definition _get_state_from_training_result (x : t) (r : nat) : result (string * metrics) :=
  tr ← deref x r;
  d ← StorageContext.extract (_experiment_fs_path x) (path (checkpoint tr));
  Ok (d, result_metrics tr).

Definition dir_names (x : t) (cs : list Checkpoint) : result (list string) :=
  result_map (λ c, StorageContext.extract (_experiment_fs_path x) (path c)) cs.

Definition _save_state (x : t) : result (list J) :=
  checkpoint_results ← result_map (_get_state_from_training_result x) (_checkpoint_results x);
  checkpoint_report_indices ← result_map (λ r,
    tr ← deref x r;
    or_raise KeyError (dget (_checkpoint_to_report_index x) (checkpoint tr)))
    (_checkpoint_results x);
  latest_checkpoint_result ← match _latest_checkpoint_result x with
    | Some r => s ← _get_state_from_training_result x r; Ok (Some s)
    | None => Ok None end;
  pending_training_results ← result_map (λ p, _get_state_from_training_result x p.2.1)
    (_pending_training_results x);
  let pending_validation_specs := map (λ p, p.2.2) (_pending_training_results x) in
  validated ← dir_names x (_validated_checkpoints x);
  timed_out ← dir_names x (_timed_out_validation_checkpoints x);
  failed ← dir_names x (_failed_validation_checkpoints x);
  Ok (to_json (Build_ManagerState checkpoint_results checkpoint_report_indices
    latest_checkpoint_result pending_training_results pending_validation_specs
    (_current_report_index x) validated timed_out failed)).

(** The results [_save_state_and_delete_old_checkpoints] deletes. *)
Definition results_to_delete (x : t) : list nat :=
  match num_to_keep (_checkpoint_config x) with
  | None => []
  | Some k =>
      let worst_results :=
        take (length (_checkpoint_results x) - Z.to_nat k) (_checkpoint_results x) in
      filter (λ r, Some r ≠ _latest_checkpoint_result x ∧
                   r ∉ map (λ p, p.2.1) (_pending_training_results x))
        (remove_dups worst_results)
  end.

(** Forgetting a deleted result. *)
Definition forget (x : t) (r : nat) : result t :=
  tr ← deref x r;
  let c := checkpoint tr in
  _ ← or_raise KeyError (dget (_checkpoint_to_report_index x) c);
  let x := set_indices (_current_report_index x) (ddel (_checkpoint_to_report_index x) c) x in
  Ok (set_validation (_pending_training_results x) (set_discard (_validated_checkpoints x) c)
        (set_discard (_timed_out_validation_checkpoints x) c)
        (set_discard (_failed_validation_checkpoints x) c) x).

Definition _save_state_and_delete_old_checkpoints (x : t) : result (t * list (fs_action J)) :=
  let to_delete := results_to_delete x in
  let x := set_results (heap x) (filter (λ r, r ∉ to_delete) (_checkpoint_results x))
    (_latest_checkpoint_result x) x in
  x ← result_fold forget x to_delete;
  j ← _save_state x;
  paths ← result_map (λ r, tr ← deref x r; Ok (path (checkpoint tr))) to_delete;
  Ok (x, OpenSnapshot :: WriteSnapshot j :: map DeletePath paths).

(** ** Reports and validations *)

Definition register_checkpoint (c : Checkpoint) (ms : metrics) (validation : option Spec) (x : t) :
    result (t * list (fs_action J)) :=
  let r := length (heap x) in
  let x := set_results (heap x ++ [{| checkpoint := c; result_metrics := ms |}])
    (_checkpoint_results x) (Some r) x in
  let x := set_indices (_current_report_index x)
    (dset (_checkpoint_to_report_index x) c (_current_report_index x)) x in
  rs ← match checkpoint_score_attribute (_checkpoint_config x) with
       | Some _ => _insert_into_sorted_list (score_of x) (report_index x) (_checkpoint_results x) r
       | None => Ok (_checkpoint_results x ++ [r])
       end;
  let x := set_results (heap x) rs (_latest_checkpoint_result x) x in
  let x := match validation with
    | Some spec => set_validation (dset (_pending_training_results x) c (r, spec))
        (_validated_checkpoints x) (_timed_out_validation_checkpoints x)
        (_failed_validation_checkpoints x) x
    | None => x
    end in
  let x := set_indices (_current_report_index x + 1) (_checkpoint_to_report_index x) x in
  _save_state_and_delete_old_checkpoints x.

(** [after_report] *)
Definition after_report (rep : TrainingReport Spec) (x : t) : result (t * list (fs_action J)) :=
  match report_checkpoint rep with
  | None =>
      Ok (set_indices (_current_report_index x + 1) (_checkpoint_to_report_index x) x, [])
  | Some c => register_checkpoint c (report_metrics rep) (validation rep) x
  end.

(** [checkpoint_result.metrics.update(metrics)] *)
Definition update_metrics (r : nat) (ms : metrics) (x : t) : t :=
  set_results (alter (λ tr, {| checkpoint := checkpoint tr;
      result_metrics := dupdate (result_metrics tr) ms |}) r (heap x))
    (_checkpoint_results x) (_latest_checkpoint_result x) x.

(** [list.remove]: the first occurrence. *)
Fixpoint list_remove (r : nat) (l : list nat) : list nat :=
  match l with
  | [] => []
  | s :: l => if decide (s = r) then l else s :: list_remove r l
  end.

Definition update_one (x : t) (u : Checkpoint * (metrics * ReportedCheckpointStatus)) : result t :=
  let '(c, (ms, status)) := u in
  match dget (_pending_training_results x) c with
  | None => Ok x
  | Some (r, _) =>
      if negb (bool_decide (r ∈ _checkpoint_results x)) then Raise ValueError
      else
        let x := set_validation (ddel (_pending_training_results x) c) (_validated_checkpoints x)
          (_timed_out_validation_checkpoints x) (_failed_validation_checkpoints x) x in
        match status with
        | VALIDATED =>
            let x := update_metrics r ms x in
            let x := set_results (heap x) (list_remove r (_checkpoint_results x))
              (_latest_checkpoint_result x) x in
            rs ← _insert_into_sorted_list (score_of x) (report_index x) (_checkpoint_results x) r;
            let x := set_results (heap x) rs (_latest_checkpoint_result x) x in
            Ok (set_validation (_pending_training_results x)
                  (set_add c (_validated_checkpoints x)) (_timed_out_validation_checkpoints x)
                  (_failed_validation_checkpoints x) x)
        | VALIDATION_TIMEOUT =>
            Ok (set_validation (_pending_training_results x) (_validated_checkpoints x)
                  (set_add c (_timed_out_validation_checkpoints x))
                  (_failed_validation_checkpoints x) x)
        | VALIDATION_FAILED =>
            Ok (set_validation (_pending_training_results x) (_validated_checkpoints x)
                  (_timed_out_validation_checkpoints x)
                  (set_add c (_failed_validation_checkpoints x)) x)
        | _ => Raise ValueError
        end
  end.

Definition update_checkpoints_with_validation_result
    (updates : dict Checkpoint (metrics * ReportedCheckpointStatus)) (x : t) :
    result (t * list (fs_action J)) :=
  x ← result_fold update_one x updates;
  _save_state_and_delete_old_checkpoints x.

(** ** Loading *)

(** The loop over the saved results: each gets a new checkpoint, the k-th with
    the k-th UUID drawn. *)
Fixpoint load_results (uuid4 : nat → Z) (experiment : string) (k : nat)
    (ss : list (string * metrics)) : list TrainingResult :=
  match ss with
  | [] => []
  | (d, ms) :: ss =>
      {| checkpoint := {| uuid := uuid4 k; path := StorageContext.build experiment d |};
         result_metrics := ms |} :: load_results uuid4 experiment (S k) ss
  end.

Definition _assert_checkpoints_exist (fs : Fs J) (trs : list TrainingResult) : result unit :=
  if forallb (λ tr, bool_decide (path (checkpoint tr) ∈ dirs fs)) trs then Ok tt
  else Raise CheckpointManagerInitializationError.

(** The checkpoints of the saved names that were loaded. *)
Definition known_checkpoints (x : t) (by_name : dict string nat) (names : list string) :
    list Checkpoint :=
  foldl (λ acc name,
    match r ← dget by_name name; heap x !! r with
    | Some tr => set_add (checkpoint tr) acc
    | None => acc
    end) [] names.

(** [_load_state], into a manager that holds nothing yet. *)
Definition _load_state (uuid4 : nat → Z) (fs : Fs J) (j : list J) (x : t) : result t :=
  s ← or_raise CheckpointManagerInitializationError (of_json j);
  let trs := load_results uuid4 (_experiment_fs_path x) 0 (checkpoint_results s) in
  let by_name := dict_of (imap (λ k p, (p.1, k)) (checkpoint_results s)) in
  let x := set_results trs (seq 0 (length trs)) None x in
  _ ← _assert_checkpoints_exist fs trs;
  _ ← py_assert (bool_decide (length trs = length (checkpoint_report_indices s)));
  let indices := dict_of (zip (map checkpoint trs) (checkpoint_report_indices s)) in
  latest ← match latest_checkpoint_result s with
    | Some l => r ← or_raise KeyError (dget by_name l.1); Ok (Some r)
    | None => Ok None end;
  _ ← py_assert (bool_decide (length (pending_training_results s) =
        length (pending_validation_specs s)));
  pending ← result_fold (λ d p,
      r ← or_raise KeyError (dget by_name p.1.1);
      tr ← deref x r;
      Ok (dset d (checkpoint tr) (r, p.2))) []
    (zip (pending_training_results s) (pending_validation_specs s));
  let x := set_results trs (_checkpoint_results x) latest x in
  let x := set_validation pending
    (known_checkpoints x by_name (validated_checkpoint_dir_names s))
    (known_checkpoints x by_name (timed_out_validation_checkpoint_dir_names s))
    (known_checkpoints x by_name (failed_validation_checkpoint_dir_names s)) x in
  Ok (set_indices (current_report_index s) indices x).

(** [__init__] with [_maybe_load_state_from_storage]. *)
Definition create (uuid4 : nat → Z) (cfg : CheckpointConfig) (experiment : string) (fs : Fs J) :
    result t :=
  x ← init cfg experiment;
  match snapshot fs with
  | None => Ok x
  | Some j => _load_state uuid4 fs j x
  end.

(** ** Queries *)

Definition best_checkpoint_results (x : t) : list nat :=
  match num_to_keep (_checkpoint_config x) with
  | None => _checkpoint_results x
  | Some k => drop (length (_checkpoint_results x) - Z.to_nat k) (_checkpoint_results x)
  end.

Definition best_checkpoint_result (x : t) : option nat := last (_checkpoint_results x).

(** [before_init_train_context]: the checkpoint and the report index every
    worker starts from. *)
Definition before_init_train_context (n : nat) (x : t) :
    result (list (option Checkpoint) * list Z) :=
  latest ← match _latest_checkpoint_result x with
    | Some r => tr ← deref x r; Ok (Some (checkpoint tr))
    | None => Ok None end;
  Ok (replicate n latest, replicate n (_current_report_index x)).

Definition _get_checkpoint_status (x : t) (c : Checkpoint) : ReportedCheckpointStatus :=
  if dmem (_pending_training_results x) c then PENDING_VALIDATION
  else if bool_decide (c ∈ _timed_out_validation_checkpoints x) then VALIDATION_TIMEOUT
  else if bool_decide (c ∈ _failed_validation_checkpoints x) then VALIDATION_FAILED
  else if bool_decide (c ∈ _validated_checkpoints x) then VALIDATED
  else COMMITTED.

(** What [get_all_reported_checkpoints] waits for, and what it returns. *)
Inductive CheckpointConsistencyMode : Type := CommittedMode | ValidatedMode.

Definition predicate (mode : CheckpointConsistencyMode) (index : Z) (x : t) : bool :=
  (_current_report_index x =? index) &&
  match mode with
  | CommittedMode => true
  | ValidatedMode => match _pending_training_results x with [] => true | _ => false end
  end.

Definition reported_checkpoints (x : t) :
    result (list (Checkpoint * metrics * ReportedCheckpointStatus)) :=
  result_map (λ r, tr ← deref x r;
    Ok (checkpoint tr, result_metrics tr, _get_checkpoint_status x (checkpoint tr)))
    (_checkpoint_results x).
End manager.
Arguments t : clear implicits.
End CheckpointManager.
