(* ===== verification/CheckpointOrder.v ===== *)
(** * Checkpoint scores: the order, sorted insertion, flattened metrics *)
From S2P Require Import Prelude PyDict PyFloat Checkpoints.

(** ** The order *)

(** Scores as [_get_checkpoint_score] returns them. *)
Definition score_valid (s : score) : Prop := f_is_nan s.2 = false.

(** The test of the insertion loop: [a] comes after [b]. *)
Definition after (sa : score) (ia : Z) (sb : score) (ib : Z) : bool :=
  score_gt sa sb || (score_eq sa sb && (ib <? ia)).

Definition rank5 (s : score) (i : Z) : Z * (Z * Z * Z) * Z := (Z.b2z s.1, f_rank s.2, i).

Definition lt5 (a b : Z * (Z * Z * Z) * Z) : Prop :=
  a.1.1 < b.1.1 ∨ a.1.1 = b.1.1 ∧ (lt3 a.1.2 b.1.2 ∨ a.1.2 = b.1.2 ∧ a.2 < b.2).

Lemma after_rank sa ia sb ib : score_valid sa → score_valid sb →
  after sa ia sb ib = true ↔ lt5 (rank5 sb ib) (rank5 sa ia).
Proof.
  destruct sa as [ba xa], sb as [bb xb]. unfold score_valid, after, lt5, rank5. simpl.
  intros Ha Hb. unfold score_gt, score_eq. simpl.
  pose proof (f_ltb_rank xb xa Hb Ha) as Hlt. pose proof (f_eqb_rank xa xb Ha Hb) as Heq.
  rewrite orb_true_iff, !andb_true_iff, Z.ltb_lt, Heq.
  destruct ba, bb; simpl; rewrite ?Hlt; split; intros H; intuition (lia || congruence).
Qed.

Lemma lt5_not_ge a b : ¬ lt5 a b → lt5 b a ∨ a = b.
Proof.
  destruct a as [[a1 [[a2 a3] a4]] a5], b as [[b1 [[b2 b3] b4]] b5].
  unfold lt5, lt3. simpl. rewrite !pair_eq. lia.
Qed.

Lemma lt5_trans a b c : lt5 a b → lt5 b c → lt5 a c.
Proof.
  destruct a as [[a1 [[a2 a3] a4]] a5], b as [[b1 [[b2 b3] b4]] b5], c as [[c1 [[c2 c3] c4]] c5].
  unfold lt5, lt3. simpl. rewrite !pair_eq. lia.
Qed.

Lemma lt5_irrefl a : ¬ lt5 a a.
Proof. unfold lt5, lt3. lia. Qed.

(** ** Sorted insertion *)
Section insertion.
Context {A : Type} (key : A → result score) (index : A → Z) (k : A → score).

(** [a] may stand before [b]. *)
Definition before_ok (a b : A) : Prop := after (k a) (index a) (k b) (index b) = false.

Definition key_ok (a : A) : Prop := key a = Ok (k a) ∧ score_valid (k a).

Lemma before_ok_trans a b c : key_ok a → key_ok b → key_ok c →
  before_ok a b → before_ok b c → before_ok a c.
Proof.
  unfold before_ok. intros [_ Ha] [_ Hb] [_ Hc] H1 H2.
  apply not_true_iff_false in H1, H2. apply not_true_iff_false.
  rewrite after_rank in H1, H2 |- * by done.
  apply lt5_not_ge in H1 as [H1|H1], H2 as [H2|H2]; intros H.
  - eapply lt5_irrefl, lt5_trans, H. by eapply lt5_trans.
  - rewrite <-H2 in H1. eapply lt5_irrefl, lt5_trans; eassumption.
  - rewrite H1 in H2. eapply lt5_irrefl, lt5_trans; eassumption.
  - rewrite H2, H1 in H. by apply lt5_irrefl in H.
Qed.

Lemma before_ok_total a b : key_ok a → key_ok b → before_ok a b ∨ before_ok b a.
Proof.
  unfold before_ok. intros [_ Ha] [_ Hb].
  destruct (after (k a) (index a) (k b) (index b)) eqn:E; [|by left]. right.
  apply not_true_iff_false. intros E'. rewrite after_rank in E, E' by done.
  eapply lt5_irrefl, lt5_trans; eassumption.
Qed.

(** The insertion succeeds where the keys do, and puts the item between what
    does not come after it and what does. *)
Lemma insert_spec l item : key_ok item → Forall key_ok l →
  ∃ l1 l2, l = l1 ++ l2 ∧
    _insert_into_sorted_list key index l item = Ok (l1 ++ item :: l2) ∧
    Forall (λ a, before_ok a item) l1 ∧
    (∀ b, head l2 = Some b → before_ok b item → False).
Proof.
  intros Hi. induction 1 as [|a l Ha Hl IH]; simpl.
  { exists [], []. by split_and!. }
  destruct (Ha) as [-> _], (Hi) as [-> _]. simpl.
  destruct (score_gt (k a) (k item) || _) eqn:Haft.
  - exists [], (a :: l). split_and!; [done|done|done|]. simpl. unfold before_ok, after.
    intros b [= <-]. congruence.
  - destruct IH as (l1 & l2 & -> & -> & Hb & Hh). exists (a :: l1), l2.
    split_and!; [done|done| |done]. by constructor.
Qed.

Lemma insert_sorted l item l' : key_ok item → Forall key_ok l → StronglySorted before_ok l →
  _insert_into_sorted_list key index l item = Ok l' →
  l' ≡ₚ item :: l ∧ StronglySorted before_ok l'.
Proof.
  intros Hi Hl Hs Hins. destruct (insert_spec l item Hi Hl) as (l1 & l2 & -> & E & Hb & Hh).
  rewrite E in Hins. injection Hins as <-. split; [solve_Permutation|].
  apply Forall_app in Hl as [Hl1 Hl2]. clear E.
  induction l1 as [|a l1 IH]; simpl in *.
  - constructor; [done|]. destruct l2 as [|b l2]; [constructor|].
    apply Forall_cons in Hl2 as [Hkb Hl2]. apply StronglySorted_inv in Hs as [_ Hs].
    assert (before_ok item b) as Hib.
    { destruct (before_ok_total item b) as [?|H]; [done..|]. exfalso. by eapply Hh. }
    constructor; [done|]. rewrite Forall_forall in *. intros c Hc.
    eapply (before_ok_trans item b c); auto.
  - apply StronglySorted_inv in Hs as [Hs Ha]. apply Forall_cons in Hb as [Hab Hb].
    apply Forall_cons in Hl1 as [? Hl1]. constructor; [by apply IH|].
    apply Forall_app in Ha as [? ?]. apply Forall_app. split; [done|]. by constructor.
Qed.
End insertion.

(** ** Flattening terminates without nested values *)

Definition max_depth (dt : metrics) : nat := foldr (λ kv n, Nat.max (depth kv.2) n) O dt.

Lemma depth_le dt k v : (k, v) ∈ dt → (depth v ≤ max_depth dt)%nat.
Proof.
  unfold max_depth. induction dt as [|e dt IH]; [set_solver|].
  intros [<-|H]%elem_of_cons; simpl; [lia|]. specialize (IH H). lia.
Qed.

Lemma max_depth_le dt n : (∀ k v, (k, v) ∈ dt → (depth v ≤ n)%nat) → (max_depth dt ≤ n)%nat.
Proof.
  unfold max_depth. induction dt as [|[k v] dt IH]; intros H; simpl; [lia|].
  pose proof (H k v ltac:(set_solver)). specialize (IH (λ k v Hin, H k v ltac:(set_solver))). lia.
Qed.

Lemma ddel_all_elem {A} (d : dict string A) ks e : dwf d →
  e ∈ foldl ddel d ks → e ∈ d ∧ e.1 ∉ ks.
Proof.
  revert d. induction ks as [|k ks IH]; intros d Hd He; simpl in *; [set_solver|].
  apply IH in He as [He Hk]; [|by apply ddel_wf]. destruct e as [j v]. simpl in *.
  assert (dget (ddel d k) j = Some v) as Hj by (apply dget_wf_elem; [by apply ddel_wf|done]).
  destruct (decide (k = j)) as [->|Hne].
  { by rewrite dget_ddel_eq in Hj. }
  rewrite dget_ddel_ne in Hj by done. split; [by apply dget_elem|set_solver].
Qed.

Lemma ddel_all_dwf {A} (d : dict string A) ks : dwf d → dwf (foldl ddel d ks).
Proof. revert d. induction ks as [|k ks IH]; intros d Hd; [done|]. by apply IH, ddel_wf. Qed.

Lemma flatten_pass_depth dt : dwf dt →
  dwf (flatten_pass dt) ∧ (max_depth (flatten_pass dt) ≤ pred (max_depth dt))%nat.
Proof.
  intros Hwf. unfold flatten_pass. set (add := concat _).
  assert (dwf (dupdate dt (dict_of add))) as Hu by by apply dupdate_wf.
  split; [by apply ddel_all_dwf|]. apply max_depth_le. intros k v Hin.
  apply ddel_all_elem in Hin as [Hin Hk]; [|done]. simpl in Hk.
  apply dupdate_elem in Hin as [Hin|Hin].
  - destruct v as [| | |d]; simpl; [lia..|]. destruct Hk. apply list_elem_of_fmap.
    exists (k, MDict d). split; [done|]. by apply list_elem_of_filter.
  - apply dict_of_elem in Hin. unfold add in Hin.
    apply list_elem_of_In, in_concat in Hin as (l & Hl & Hin).
    apply in_map_iff in Hl as ([k' m] & <- & Hm). simpl in Hin.
    destruct m as [| | |d]; [done..|]. apply list_elem_of_In in Hm.
    apply in_map_iff in Hin as ([k'' w] & [= <- <-] & Hw). apply list_elem_of_In in Hw.
    pose proof (depth_le dt _ _ Hm) as H1. pose proof (depth_le d _ _ Hw) as H2.
    unfold max_depth in H2. simpl in H1. lia.
Qed.

Lemma existsb_dict dt : existsb (λ kv, is_dict kv.2) dt = true → (0 < max_depth dt)%nat.
Proof.
  intros H. apply existsb_exists in H as ([k v] & Hin & Hv). apply list_elem_of_In in Hin.
  pose proof (depth_le dt k v Hin). destruct v; simpl in *; (done || lia).
Qed.

Lemma flatten_loop_flat fuel dt : dwf dt → (max_depth dt ≤ fuel)%nat →
  existsb (λ kv, is_dict kv.2) (flatten_loop fuel dt) = false.
Proof.
  revert dt. induction fuel as [|fuel IH]; intros dt Hwf Hd; simpl.
  - apply not_true_iff_false. intros H%existsb_dict. lia.
  - destruct (existsb _ dt) eqn:E; [|done].
    destruct (flatten_pass_depth dt Hwf) as [H1 H2]. apply IH; [done|].
    apply existsb_dict in E. lia.
Qed.

Lemma flatten_dict_no_dict dt a d : dwf dt → dget (flatten_dict dt) a ≠ Some (MDict d).
Proof.
  intros Hwf H. apply dget_elem, list_elem_of_In in H.
  pose proof (flatten_loop_flat (S (max_depth dt)) dt Hwf ltac:(lia)) as Hf.
  apply not_true_iff_false in Hf. apply Hf, existsb_exists. by exists (a, MDict d).
Qed.

(** The value a score is computed from; a missing one counts as -inf. *)
Definition scored_value (cfg : CheckpointConfig) (ms : metrics) : metric :=
  match checkpoint_score_attribute cfg with
  | None | Some "" => MFloat f_neg_inf
  | Some a => default (MFloat f_neg_inf) (dget (flatten_dict ms) a)
  end.

Lemma score_ok cfg ms : dwf ms → (∀ s, scored_value cfg ms ≠ MStr s) →
  ∃ s, _get_checkpoint_score cfg ms = Ok s ∧ score_valid s.
Proof.
  intros Hwf Hstr. unfold _get_checkpoint_score. fold (scored_value cfg ms).
  assert (∀ d, scored_value cfg ms ≠ MDict d) as Hd.
  { intros d. unfold scored_value. destruct (checkpoint_score_attribute cfg) as [[|c a]|]; [done| |done].
    destruct (dget _ _) as [m|] eqn:E; [|done]. simpl. intros ->.
    by eapply flatten_dict_no_dict. }
  assert (∃ x, scale (checkpoint_score_order cfg) (scored_value cfg ms) = Ok x) as [x ->].
  { unfold scale. destruct (scored_value cfg ms) as [| |s|d] eqn:E; [by eexists..| |].
    - by destruct (Hstr s).
    - by destruct (Hd d). }
  simpl. destruct (f_is_nan x) eqn:E; eexists; (split; [done|]); done.
Qed.

(** Scoring a checkpoint always terminates in a number: however deeply the
    reported metrics are nested, flattening removes every nested dictionary,
    and unless the scored value is a string the score is not a nan (a nan
    value counts as less than every number), so any two scores compare. *)
Theorem checkpoint_score_spec (cfg : CheckpointConfig) (ms : metrics) :
  dwf ms →
  existsb (λ kv, is_dict kv.2) (flatten_dict ms) = false ∧
  ((∀ s, scored_value cfg ms ≠ MStr s) →
     ∃ s, _get_checkpoint_score cfg ms = Ok s ∧ f_is_nan s.2 = false ∧
       ∀ cfg' ms' s', _get_checkpoint_score cfg' ms' = Ok s' → f_is_nan s'.2 = false →
         score_gt s s' = true ∨ score_gt s' s = true ∨ score_eq s s' = true) ∧
  (∀ s, scored_value cfg ms = MStr s → _get_checkpoint_score cfg ms = Raise TypeError).
Proof.
  intros Hwf. split_and!.
  - apply (flatten_loop_flat (S (max_depth ms)) ms Hwf). lia.
  - intros Hs. destruct (score_ok cfg ms Hwf Hs) as (s & Hsc & Hv). exists s.
    split_and!; [done|done|]. intros _ _ s' _ Hv'.
    destruct s as [b x], s' as [b' x']. unfold score_gt, score_eq. simpl in *.
    pose proof (f_compare_rank x x' Hv Hv') as Hc.
    unfold f_ltb, f_eqb, SFltb, SFeqb. unfold score_valid in Hv. simpl in Hv.
    pose proof (f_ltb_rank x' x Hv' Hv) as Hg. unfold f_ltb, SFltb in Hg.
    destruct b, b'; simpl; eauto.
    all: destruct (SFcompare x x') as [[]|]; [by eauto| by eauto| |done].
    all: left; by apply Hg.
  - intros s Hs. unfold _get_checkpoint_score. fold (scored_value cfg ms). by rewrite Hs.
Qed.

Lemma checkpoint_score_spec_witness :
  let cfg := {| num_to_keep := Some 2; checkpoint_score_attribute := Some "eval/acc";
                checkpoint_score_order := MAX |} in
  let ms := [("loss", MInt 3); ("eval", MDict [("acc", MFloat (f_of_int 7))])] in
  dwf ms ∧ (∀ s, scored_value cfg ms ≠ MStr s) ∧
  ∃ s, _get_checkpoint_score cfg ms = Ok s ∧ f_is_nan s.2 = false ∧
    ∀ cfg' ms' s', _get_checkpoint_score cfg' ms' = Ok s' → f_is_nan s'.2 = false →
      score_gt s s' = true ∨ score_gt s' s = true ∨ score_eq s s' = true.
Proof.
  set (cfg := {| num_to_keep := Some 2; checkpoint_score_attribute := Some "eval/acc";
                checkpoint_score_order := MAX |}).
  set (ms := [("loss", MInt 3); ("eval", MDict [("acc", MFloat (f_of_int 7))])]).
  assert (dwf ms) as Hwf by (apply (bool_decide_unpack _); vm_compute; exact I).
  assert (∀ s, scored_value cfg ms ≠ MStr s) as Hs by (intros s; vm_compute; discriminate).
  split; [exact Hwf|]. split; [exact Hs|].
  exact (proj1 (proj2 (checkpoint_score_spec cfg ms Hwf)) Hs).
Defined.
