(* ===== verification/CheckpointFacts.v ===== *)
(** * The checkpoint manager: what is kept, what is deleted, what a crash leaves *)
From S2P Require Import Prelude PyDict PyFloat Checkpoints CheckpointOrder.
Import CheckpointManager.

(** ** Names of checkpoint directories *)

Lemma string_prefix_app (p s : string) : String.prefix p (p +:+ s) = true.
Proof.
  induction p as [|c p IH]; [by destruct s|]. simpl.
  destruct (Ascii.ascii_dec c c); [exact IH|done].
Qed.

Lemma string_length_app (p s : string) : String.length (p +:+ s) = (String.length p + String.length s)%nat.
Proof. induction p as [|c p IH]; [done|]. simpl. f_equal. exact IH. Qed.

Lemma substring_all (s : string) : String.substring 0 (String.length s) s = s.
Proof. induction s as [|c s IH]; [done|]. simpl. f_equal. exact IH. Qed.

Lemma substring_app (p s : string) :
  String.substring (String.length p) (String.length s) (p +:+ s) = s.
Proof. induction p as [|c p IH]; [apply substring_all|exact IH]. Qed.

Lemma string_app_inj (p s t : string) : p +:+ s = p +:+ t → s = t.
Proof. induction p as [|c p IH]; [done|]. intros [= H]. exact (IH H). Qed.

Lemma build_app e name : StorageContext.build e name = (e +:+ "/") +:+ name.
Proof. unfold StorageContext.build. induction e as [|c e IH]; [done|].
  exact (f_equal (String c) IH).
Qed.

Lemma extract_build e name : StorageContext.extract e (StorageContext.build e name) = Ok name.
Proof.
  unfold StorageContext.extract. rewrite build_app. generalize (e +:+ "/") as p. intros p.
  rewrite string_prefix_app, string_length_app.
  replace (String.length p + String.length name - String.length p)%nat
    with (String.length name) by lia.
  by rewrite substring_app.
Qed.

Lemma build_inj e n n' : StorageContext.build e n = StorageContext.build e n' → n = n'.
Proof. rewrite !build_app. apply string_app_inj. Qed.

(** ** Well-formed managers *)
Section manager.
Context {Spec J : Type} `{!SnapshotCodec Spec J}.
Implicit Types (x y : t Spec) (r : nat) (c : Checkpoint) (fs : Fs J).

Definition ckpt x r : option Checkpoint := checkpoint <$> heap x !! r.

Definition under x c : Prop := ∃ name, path c = StorageContext.build (_experiment_fs_path x) name.

(** A checkpoint with a terminal validation status. *)
Definition has_status x c : Prop :=
  c ∈ _validated_checkpoints x ∨ c ∈ _timed_out_validation_checkpoints x ∨
  c ∈ _failed_validation_checkpoints x.

(** The score of a result, where it has one. *)
Definition kscore x r : score :=
  match score_of x r with Ok s => s | Raise _ => (false, f_neg_inf) end.

Definition scorable x r : Prop := ∃ s, score_of x r = Ok s ∧ score_valid s.

(** Ascending scores; equal ones in the order of their reports. *)
Definition sorted_results x (l : list nat) : Prop :=
  StronglySorted (before_ok (report_index x) (kscore x)) l.

(** The results are sorted and have distinct checkpoints in distinct
    directories of the experiment, each with a score and a report index; the
    latest result, the pending ones and the checkpoints with a validation
    status are among them, and no pending checkpoint has such a status. *)
Record wf x : Prop := {
  wf_keep : ∀ k, num_to_keep (_checkpoint_config x) = Some k → 0 < k;
  wf_nodup : NoDup (_checkpoint_results x);
  wf_live : ∀ r, r ∈ _checkpoint_results x →
    ∃ c, ckpt x r = Some c ∧ under x c ∧ is_Some (dget (_checkpoint_to_report_index x) c);
  wf_distinct : ∀ r r' c c', r ∈ _checkpoint_results x → r' ∈ _checkpoint_results x →
    ckpt x r = Some c → ckpt x r' = Some c' → path c = path c' → r = r';
  wf_index : dwf (_checkpoint_to_report_index x);
  wf_index_lt : ∀ c n, dget (_checkpoint_to_report_index x) c = Some n →
    n < _current_report_index x;
  wf_score : ∀ r, r ∈ _checkpoint_results x → scorable x r;
  wf_sorted : sorted_results x (_checkpoint_results x);
  wf_latest : ∀ r, _latest_checkpoint_result x = Some r → r ∈ _checkpoint_results x;
  wf_pending : dwf (_pending_training_results x);
  wf_pending_in : ∀ c r sp, dget (_pending_training_results x) c = Some (r, sp) →
    r ∈ _checkpoint_results x ∧ ckpt x r = Some c;
  wf_status : ∀ c, has_status x c → ∃ r, r ∈ _checkpoint_results x ∧ ckpt x r = Some c;
  wf_disjoint : ∀ c v, dget (_pending_training_results x) c = Some v → ¬ has_status x c;
  wf_sets : NoDup (_validated_checkpoints x) ∧ NoDup (_timed_out_validation_checkpoints x) ∧
    NoDup (_failed_validation_checkpoints x)
}.

Lemma sorted_ext x y l :
  (∀ r, r ∈ l → report_index x r = report_index y r ∧ kscore x r = kscore y r) →
  sorted_results x l → sorted_results y l.
Proof.
  unfold sorted_results. intros He. induction 1 as [|r l Hl IH Hr]; [constructor|].
  constructor; [apply IH; set_solver|]. rewrite Forall_forall in *. intros r' Hr'.
  specialize (Hr r' Hr'). unfold before_ok in *.
  destruct (He r) as [<- <-]; [set_solver|]. destruct (He r') as [<- <-]; [set_solver|]. done.
Qed.

Lemma sorted_filter x (P : nat → Prop) `{!∀ r, Decision (P r)} l :
  sorted_results x l → sorted_results x (filter P l).
Proof.
  unfold sorted_results. induction 1 as [|r l Hl IH Hr]; [constructor|].
  rewrite filter_cons. destruct (decide (P r)); [|done]. constructor; [done|].
  rewrite Forall_forall in *. intros r' [_ Hr']%list_elem_of_filter. by apply Hr.
Qed.

(** ** Saving never fails *)

Definition name_of x c : string :=
  match StorageContext.extract (_experiment_fs_path x) (path c) with Ok d => d | Raise _ => "" end.

Lemma under_extract x c : under x c →
  StorageContext.extract (_experiment_fs_path x) (path c) = Ok (name_of x c) ∧
  path c = StorageContext.build (_experiment_fs_path x) (name_of x c).
Proof. intros [n Hn]. unfold name_of. by rewrite Hn, extract_build. Qed.

(** The saved form of a result. *)
Definition saved x r : string * metrics :=
  match heap x !! r with
  | Some tr => (name_of x (checkpoint tr), result_metrics tr)
  | None => ("", [])
  end.

Definition snapshot_of x : ManagerState Spec := Build_ManagerState
  (map (saved x) (_checkpoint_results x)) (map (report_index x) (_checkpoint_results x))
  (saved x <$> _latest_checkpoint_result x)
  (map (λ p, saved x p.2.1) (_pending_training_results x))
  (map (λ p, p.2.2) (_pending_training_results x)) (_current_report_index x)
  (map (name_of x) (_validated_checkpoints x))
  (map (name_of x) (_timed_out_validation_checkpoints x))
  (map (name_of x) (_failed_validation_checkpoints x)).

Lemma get_state_ok x r : wf x → r ∈ _checkpoint_results x →
  _get_state_from_training_result x r = Ok (saved x r).
Proof.
  intros Hx Hr. destruct (wf_live x Hx r Hr) as (c & Hc & Hu & _).
  unfold _get_state_from_training_result, deref, saved, ckpt in *.
  destruct (heap x !! r) as [tr|]; [|done]. injection Hc as <-. simpl.
  by rewrite (proj1 (under_extract x _ Hu)).
Qed.

Lemma status_under x c : wf x → has_status x c → under x c.
Proof.
  intros Hx Hc. destruct (wf_status x Hx c Hc) as (r & Hr & Hrc).
  destruct (wf_live x Hx r Hr) as (c' & Hc' & Hu & _). by simplify_eq.
Qed.

Lemma dir_names_ok x cs : (∀ c, c ∈ cs → under x c) → dir_names x cs = Ok (map (name_of x) cs).
Proof. intros H. apply result_map_ok_map. intros c Hc. by apply under_extract, H. Qed.

Lemma pending_elem_in x p : wf x → p ∈ _pending_training_results x → p.2.1 ∈ _checkpoint_results x.
Proof.
  intros Hx Hp. destruct p as [c [r sp]].
  apply (dget_wf_elem _ _ _ (wf_pending x Hx)) in Hp. by apply (wf_pending_in x Hx) in Hp as [? _].
Qed.

Lemma save_state_ok x : wf x → _save_state x = Ok (to_json (snapshot_of x)).
Proof.
  intros Hx. unfold _save_state.
  rewrite (result_map_ok_map _ (saved x)) by (intros; by apply get_state_ok). simpl.
  rewrite (result_map_ok_map _ (report_index x)).
  2: { intros r Hr. destruct (wf_live x Hx r Hr) as (c & Hc & _ & [n Hn]).
    unfold deref, report_index, ckpt in *. destruct (heap x !! r) as [tr|]; [|done].
    injection Hc as <-. simpl. by rewrite Hn. }
  simpl.
  assert (match _latest_checkpoint_result x with
    | Some r => s ← _get_state_from_training_result x r; Ok (Some s) | None => Ok None end
    = Ok (saved x <$> _latest_checkpoint_result x)) as ->.
  { destruct (_latest_checkpoint_result x) as [r|] eqn:E; [|done].
    by rewrite get_state_ok by (done || by apply wf_latest). }
  simpl. rewrite (result_map_ok_map _ (λ p, saved x p.2.1))
    by (intros; apply get_state_ok; [done|by apply pending_elem_in]).
  simpl. rewrite !dir_names_ok; [done|..]; intros c Hc; apply status_under; try done; unfold has_status; auto.
Qed.

(** ** Deletion *)

Definition forgot (cs : list Checkpoint) x : t Spec :=
  set_validation (_pending_training_results x) (foldl set_discard (_validated_checkpoints x) cs)
    (foldl set_discard (_timed_out_validation_checkpoints x) cs)
    (foldl set_discard (_failed_validation_checkpoints x) cs)
    (set_indices (_current_report_index x) (foldl ddel (_checkpoint_to_report_index x) cs) x).

Lemma forget_fold dels x cs :
  Forall2 (λ r c, ckpt x r = Some c) dels cs → NoDup cs → dwf (_checkpoint_to_report_index x) →
  (∀ c, c ∈ cs → is_Some (dget (_checkpoint_to_report_index x) c)) →
  result_fold forget x dels = Ok (forgot cs x).
Proof.
  revert x cs. induction dels as [|r dels IH]; intros x cs H2 Hnd Hwf Hidx.
  { inversion H2; subst. by destruct x. }
  inversion H2 as [|? c ? cs' Hc H2']; subst. apply NoDup_cons in Hnd as [Hcn Hnd].
  assert (forget x r = Ok (forgot [c] x)) as Hf.
  { unfold forget, deref, ckpt in *. destruct (heap x !! r) as [tr|]; [|done].
    injection Hc as <-. simpl. destruct (Hidx (checkpoint tr)) as [n Hn]; [set_solver|].
    by rewrite Hn. }
  simpl. rewrite Hf. simpl. rewrite (IH (forgot [c] x) cs'); [done|exact H2'|done|by apply ddel_wf|].
  intros c' Hc'. simpl. rewrite dget_ddel_ne by set_solver. apply Hidx. set_solver.
Qed.

Lemma discard_elem cs l c : c ∈ foldl set_discard l cs ↔ c ∈ l ∧ c ∉ cs.
Proof.
  revert l. induction cs as [|d cs IH]; intros l; simpl; [set_solver|].
  rewrite IH. unfold set_discard. rewrite list_elem_of_filter. set_solver.
Qed.

Lemma discard_nodup cs l : NoDup l → NoDup (foldl set_discard l cs).
Proof. revert l. induction cs as [|d cs IH]; intros l Hl; [done|]. by apply IH, NoDup_filter. Qed.

Lemma dget_ddel_all_ne {V} (d : dict Checkpoint V) cs c : c ∉ cs →
  dget (foldl ddel d cs) c = dget d c.
Proof.
  revert d. induction cs as [|e cs IH]; intros d Hc; [done|]. simpl.
  rewrite IH by set_solver. apply dget_ddel_ne. set_solver.
Qed.

Lemma dget_ddel_all_eq {V} (d : dict Checkpoint V) cs c : dwf d → c ∈ cs →
  dget (foldl ddel d cs) c = None.
Proof.
  revert d. induction cs as [|e cs IH]; intros d Hd Hc; [set_solver|]. simpl.
  destruct (decide (c ∈ cs)); [apply IH; [by apply ddel_wf|done]|].
  assert (c = e) as -> by set_solver. rewrite dget_ddel_all_ne by done. by apply dget_ddel_eq.
Qed.

Lemma ddel_list_wf {V} (d : dict Checkpoint V) cs : dwf d → dwf (foldl ddel d cs).
Proof. revert d. induction cs as [|e cs IH]; intros d Hd; [done|]. by apply IH, ddel_wf. Qed.

Lemma to_delete_in x r : r ∈ results_to_delete x →
  r ∈ _checkpoint_results x ∧ Some r ≠ _latest_checkpoint_result x ∧
  r ∉ map (λ p, p.2.1) (_pending_training_results x).
Proof.
  unfold results_to_delete. destruct (num_to_keep _) as [k|]; [|set_solver].
  rewrite list_elem_of_filter, elem_of_remove_dups. intros [[H1 H2] H3].
  split_and!; [|done|done]. exact (subseteq_take _ _ r H3).
Qed.

Lemma to_delete_nodup x : NoDup (results_to_delete x).
Proof.
  unfold results_to_delete. destruct (num_to_keep _); [|constructor].
  apply NoDup_filter, NoDup_remove_dups.
Qed.

(** The manager after the deletion. *)
Definition pruned x : t Spec :=
  set_results (heap x) (filter (λ r, r ∉ results_to_delete x) (_checkpoint_results x))
    (_latest_checkpoint_result x) x.

Definition deleted_checkpoints x : list Checkpoint := omap (ckpt x) (results_to_delete x).

Lemma deleted_forall2 x : wf x →
  Forall2 (λ r c, ckpt x r = Some c) (results_to_delete x) (deleted_checkpoints x).
Proof.
  intros Hx. unfold deleted_checkpoints.
  assert (∀ r, r ∈ results_to_delete x → is_Some (ckpt x r)) as H.
  { intros r Hr. apply to_delete_in in Hr as [Hr _].
    destruct (wf_live x Hx r Hr) as (c & Hc & _). by exists c. }
  induction (results_to_delete x) as [|r l IH]; [constructor|]. simpl.
  destruct (H r) as [c Hc]; [set_solver|]. rewrite Hc. constructor; [done|].
  apply IH. set_solver.
Qed.

Lemma deleted_elem x c : wf x →
  (c ∈ deleted_checkpoints x) ↔ (∃ r, (r ∈ results_to_delete x) ∧ ckpt x r = Some c).
Proof. intros Hx. unfold deleted_checkpoints. apply list_elem_of_omap. Qed.

Lemma deleted_nodup x : wf x → NoDup (deleted_checkpoints x).
Proof.
  intros Hx. pose proof (deleted_forall2 x Hx) as H2. pose proof (to_delete_nodup x) as Hnd.
  assert (∀ r, r ∈ results_to_delete x → r ∈ _checkpoint_results x) as Hin.
  { intros r Hr. by apply to_delete_in in Hr as [? _]. }
  induction H2 as [|r c l cs Hrc H2 IH]; [constructor|].
  apply NoDup_cons in Hnd as [Hr Hnd]. constructor; [|apply IH; [done|set_solver]].
  intros Hc. apply list_elem_of_lookup in Hc as [i Hi].
  destruct (Forall2_lookup_r _ _ _ _ _ H2 Hi) as (r' & Hr' & Hc').
  apply Hr. apply list_elem_of_lookup_2 in Hr' as Hr''.
  rewrite (wf_distinct x Hx r r' c c); [done|apply Hin; set_solver|apply Hin; set_solver|done..].
Qed.

(** A result that stays does not share its checkpoint with a deleted one. *)
Lemma kept_not_deleted x r c : wf x → r ∈ _checkpoint_results x → r ∉ results_to_delete x →
  ckpt x r = Some c → (c ∉ deleted_checkpoints x) ∧
  ∀ d, d ∈ deleted_checkpoints x → path d ≠ path c.
Proof.
  intros Hx Hr Hd Hc.
  assert (∀ d, d ∈ deleted_checkpoints x → path d ≠ path c) as Hp.
  { intros d Hdel E. apply (deleted_elem x d Hx) in Hdel as (r' & Hr' & Hd').
    destruct (to_delete_in x r' Hr') as [Hr'' _].
    by rewrite (wf_distinct x Hx r r' c d) in Hd by done. }
  split; [|done]. intros Hdel. by apply (Hp c).
Qed.

Lemma pruned_wf x : wf x → wf (forgot (deleted_checkpoints x) (pruned x)).
Proof.
  intros Hx. pose proof (λ r, list_elem_of_filter (λ r, r ∉ results_to_delete x)
    (_checkpoint_results x) r) as Hf. simpl in Hf.
  split; simpl.
  - apply (wf_keep x Hx).
  - apply NoDup_filter, (wf_nodup x Hx).
  - intros r [Hd Hr]%Hf. destruct (wf_live x Hx r Hr) as (c & Hc & Hu & Hi).
    exists c. split_and!; [done|done|].
    rewrite dget_ddel_all_ne; [done|]. by eapply kept_not_deleted.
  - intros r r' c c' [_ Hr]%Hf [_ Hr']%Hf. by apply (wf_distinct x Hx).
  - apply ddel_list_wf, (wf_index x Hx).
  - intros c n Hn. apply (wf_index_lt x Hx c). destruct (decide (c ∈ deleted_checkpoints x)).
    + by rewrite dget_ddel_all_eq in Hn by (done || apply (wf_index x Hx)).
    + by rewrite dget_ddel_all_ne in Hn.
  - intros r [_ Hr]%Hf. exact (wf_score x Hx r Hr).
  - apply (sorted_ext x); [|apply sorted_filter, (wf_sorted x Hx)].
    intros r [Hd Hr]%Hf. split; [|done]. destruct (wf_live x Hx r Hr) as (c & Hc & _).
    destruct (kept_not_deleted x r c Hx Hr Hd Hc) as [Hnd _]. unfold report_index, ckpt in *.
    simpl. destruct (heap x !! r) as [tr|]; [|done]. injection Hc as ->.
    by rewrite dget_ddel_all_ne.
  - intros r Hl. apply Hf. split; [|by apply (wf_latest x Hx)].
    intros Hd. apply to_delete_in in Hd as (_ & Hn & _). congruence.
  - apply (wf_pending x Hx).
  - intros c r sp Hp. destruct (wf_pending_in x Hx c r sp Hp) as [Hr Hc].
    split; [|done]. apply Hf. split; [|done]. intros Hd.
    apply to_delete_in in Hd as (_ & _ & Hn). apply Hn, list_elem_of_fmap.
    exists (c, (r, sp)). split; [done|]. by apply dget_elem.
  - intros c Hc. unfold has_status in Hc. simpl in Hc. rewrite !discard_elem in Hc.
    destruct (wf_status x Hx c) as (r & Hr & Hrc); [unfold has_status; tauto|].
    exists r. split; [|done]. apply Hf. split; [|done]. intros Hd.
    assert (c ∈ deleted_checkpoints x) by (apply deleted_elem; [done|by exists r]). tauto.
  - intros c v Hp Hc. apply (wf_disjoint x Hx c v Hp). unfold has_status in *. simpl in Hc.
    rewrite !discard_elem in Hc. tauto.
  - destruct (wf_sets x Hx) as (? & ? & ?). split_and!; by apply discard_nodup.
Qed.

Lemma deref_paths x l cs : Forall2 (λ r c, ckpt x r = Some c) l cs →
  result_map (λ r, tr ← deref x r; Ok (path (checkpoint tr))) l = Ok (map path cs).
Proof.
  intros H2. apply result_map_ok. induction H2 as [|r c l cs Hc H2 IH]; [constructor|].
  simpl. constructor; [|done]. unfold deref, ckpt in *.
  destruct (heap x !! r) as [tr|]; [|done]. by injection Hc as <-.
Qed.

Lemma save_and_delete_ok x : wf x →
  let y := forgot (deleted_checkpoints x) (pruned x) in
  _save_state_and_delete_old_checkpoints x =
    Ok (y, OpenSnapshot :: WriteSnapshot (to_json (snapshot_of y)) ::
           map DeletePath (map path (deleted_checkpoints x))) ∧ wf y.
Proof.
  intros Hx. pose proof (pruned_wf x Hx) as Hy. split; [|done].
  unfold _save_state_and_delete_old_checkpoints. fold (pruned x).
  rewrite (forget_fold (results_to_delete x) (pruned x) (deleted_checkpoints x)).
  - cbn [mbind result_bind]. rewrite save_state_ok by done. cbn [mbind result_bind].
    by rewrite (deref_paths (forgot (deleted_checkpoints x) (pruned x)) (results_to_delete x)
      (deleted_checkpoints x) (deleted_forall2 x Hx)).
  - apply (deleted_forall2 x Hx).
  - by apply deleted_nodup.
  - apply (wf_index x Hx).
  - intros c Hc. apply (deleted_elem x c Hx) in Hc as (r & Hr & Hrc).
    apply to_delete_in in Hr as [Hr _]. destruct (wf_live x Hx r Hr) as (c' & Hc' & _ & Hi).
    simplify_eq. exact Hi.
Qed.

(** Which results stay: the best [num_to_keep], the latest, the pending. *)
Lemma kept_iff x r : wf x → r ∈ _checkpoint_results x →
  (r ∉ results_to_delete x) ↔
  match num_to_keep (_checkpoint_config x) with
  | None => True
  | Some k =>
      r ∈ drop (length (_checkpoint_results x) - Z.to_nat k) (_checkpoint_results x) ∨
      _latest_checkpoint_result x = Some r ∨
      r ∈ map (λ p, p.2.1) (_pending_training_results x)
  end.
Proof.
  intros Hx Hr. unfold results_to_delete. destruct (num_to_keep _) as [k|]; [|set_solver].
  set (n := (_ - _)%nat). rewrite list_elem_of_filter, elem_of_remove_dups.
  pose proof (wf_nodup x Hx) as Hnd. rewrite <-(take_drop n (_checkpoint_results x)) in Hr, Hnd.
  apply NoDup_app in Hnd as (_ & Hdis & _). apply elem_of_app in Hr.
  destruct (decide (_latest_checkpoint_result x = Some r)) as [->|];
    [split; [auto|tauto]|].
  destruct (decide (r ∈ map (λ p, p.2.1) (_pending_training_results x))); [split; [auto|tauto]|].
  split.
  - intros H. left. destruct Hr as [Hr|Hr]; [|done]. destruct H. split; [|done].
    split; [congruence|done].
  - intros [H|[H|H]] [_ Ht]; [|done..]. by eapply Hdis.
Qed.

Lemma kept_bound x k : wf x → num_to_keep (_checkpoint_config x) = Some k →
  (length (filter (λ r, r ∉ results_to_delete x) (_checkpoint_results x))
   ≤ Z.to_nat k + 1 + length (_pending_training_results x))%nat.
Proof.
  intros Hx Hk. set (n := (length (_checkpoint_results x) - Z.to_nat k)%nat).
  assert (filter (λ r, r ∉ results_to_delete x) (_checkpoint_results x) ⊆+
    drop n (_checkpoint_results x) ++ from_option (λ l, [l]) [] (_latest_checkpoint_result x) ++
    map (λ p, p.2.1) (_pending_training_results x)) as Hsub.
  { apply NoDup_submseteq; [apply NoDup_filter, (wf_nodup x Hx)|].
    intros r [Hd Hr]%list_elem_of_filter. apply kept_iff in Hd; [|done..]. rewrite Hk in Hd.
    rewrite !elem_of_app. destruct Hd as [Hd|[Hd|Hd]]; [by left| |tauto].
    rewrite Hd. simpl. set_solver. }
  apply submseteq_length in Hsub. rewrite !length_app, length_drop, length_map in Hsub.
  destruct (_latest_checkpoint_result x); simpl in Hsub; unfold n in Hsub; lia.
Qed.

(** ** Registering a checkpoint *)

(** A checkpoint in a directory of its own. *)
Definition fresh_checkpoint x c : Prop :=
  under x c ∧ ∀ r d, r ∈ _checkpoint_results x → ckpt x r = Some d → path d ≠ path c.

Definition metrics_ok (cfg : CheckpointConfig) (ms : metrics) : Prop :=
  ∃ s, _get_checkpoint_score cfg ms = Ok s ∧ score_valid s.

(** The first assignments of [register_checkpoint]. *)
Definition add_result c (ms : metrics) x : t Spec :=
  set_indices (_current_report_index x)
    (dset (_checkpoint_to_report_index x) c (_current_report_index x))
    (set_results (heap x ++ [{| checkpoint := c; result_metrics := ms |}])
       (_checkpoint_results x) (Some (length (heap x))) x).

(** The rest of them, once the list of results is known. *)
Definition registered r c (validation : option Spec) (rs : list nat) x : t Spec :=
  let x := set_results (heap x) rs (_latest_checkpoint_result x) x in
  let x := match validation with
    | Some spec => set_validation (dset (_pending_training_results x) c (r, spec)) (_validated_checkpoints x) (_timed_out_validation_checkpoints x)
        (_failed_validation_checkpoints x) x
    | None => x end in
  set_indices (_current_report_index x + 1) (_checkpoint_to_report_index x) x.

Lemma result_live_lt x r : wf x → r ∈ _checkpoint_results x → (r < length (heap x))%nat.
Proof.
  intros Hx Hr. destruct (wf_live x Hx r Hr) as (c & Hc & _). unfold ckpt in Hc.
  destruct (heap x !! r) as [tr|] eqn:E; [|done]. by eapply lookup_lt_Some.
Qed.

Lemma add_result_old c ms x r : wf x → fresh_checkpoint x c → r ∈ _checkpoint_results x →
  heap (add_result c ms x) !! r = heap x !! r ∧
  report_index (add_result c ms x) r = report_index x r.
Proof.
  intros Hx [_ Hf] Hr. pose proof (result_live_lt x r Hx Hr) as Hlt.
  assert (heap (add_result c ms x) !! r = heap x !! r) as Hh by by apply lookup_app_l.
  split; [done|]. unfold report_index. rewrite Hh. destruct (heap x !! r) as [tr|] eqn:E; [|done].
  simpl. rewrite dget_dset_ne; [done|]. intros Heq. apply (Hf r (checkpoint tr)); [done| |by rewrite Heq].
  unfold ckpt. by rewrite E.
Qed.

Lemma add_result_new c ms x :
  heap (add_result c ms x) !! length (heap x) = Some {| checkpoint := c; result_metrics := ms |} ∧
  report_index (add_result c ms x) (length (heap x)) = _current_report_index x.
Proof.
  assert (heap (add_result c ms x) !! length (heap x)
    = Some {| checkpoint := c; result_metrics := ms |}) as Hh by (simpl; by apply list_lookup_middle).
  split; [done|]. unfold report_index. rewrite Hh. simpl. by rewrite dget_dset_eq.
Qed.

Lemma score_of_heap x y r : heap y !! r = heap x !! r →
  _checkpoint_config y = _checkpoint_config x → score_of y r = score_of x r.
Proof. intros Hh Hc. unfold score_of, deref. by rewrite Hh, Hc. Qed.

Lemma kscore_ok x r : scorable x r → key_ok (score_of x) (kscore x) r.
Proof. intros (s & Hs & Hv). unfold key_ok, kscore. by rewrite Hs. Qed.

(** The new list: a sorted permutation of the old one and the new result. *)
(** Without a score attribute the newest result goes last. *)
Lemma append_sorted c ms x : wf x → fresh_checkpoint x c → checkpoint_score_attribute (_checkpoint_config x) = None →
  let z := add_result c ms x in
  sorted_results z (_checkpoint_results x) → (∀ r, r ∈ _checkpoint_results x → scorable z r) → scorable z (length (heap x)) →
  sorted_results z (_checkpoint_results x ++ [length (heap x)]).
Proof.
  intros Hx Hf Ha z Hsort Hold Hsn. destruct (add_result_new c ms x) as [_ Hi].
  apply StronglySorted_app. split_and!; [|done|repeat constructor].
  intros r r' Hr Hr'%list_elem_of_singleton. subst r'. unfold before_ok, after.
  fold z in Hi. rewrite Hi.
  assert (∀ r, scorable z r → kscore z r = kscore z (length (heap x))) as Hconst.
  { intros q (sq & Hq & _). unfold kscore. rewrite Hq.
    destruct Hsn as (sn & Hsn & _). rewrite Hsn. unfold score_of in Hq, Hsn. inv_ok.
    unfold _get_checkpoint_score in Hq, Hsn. change (_checkpoint_config z) with (_checkpoint_config x) in *.
    rewrite Ha in Hq, Hsn. congruence. }
  rewrite (Hconst r (Hold r Hr)).
  assert (report_index z r < _current_report_index x) as Hlt.
  { destruct (add_result_old c ms x r Hx Hf Hr) as [_ E]. fold z in E. rewrite E.
    destruct (wf_live x Hx r Hr) as (d & Hd & _ & [n Hn']). unfold report_index, ckpt in *.
    destruct (heap x !! r) as [tr|]; [|done]. injection Hd as ->. rewrite Hn'. simpl.
    by apply (wf_index_lt x Hx d). }
  apply not_true_iff_false. intros Haft.
  apply (after_rank (kscore z (length (heap x))) _ (kscore z (length (heap x)))) in Haft.
  + unfold lt5, lt3, rank5 in Haft. simpl in Haft. lia.
  + destruct Hsn as (sn & Hsn & Hvn). unfold kscore. by rewrite Hsn.
  + destruct Hsn as (sn & Hsn & Hvn). unfold kscore. by rewrite Hsn.
Qed.

Lemma register_list c ms x : wf x → fresh_checkpoint x c → metrics_ok (_checkpoint_config x) ms →
  let z := add_result c ms x in
  ∃ rs, match checkpoint_score_attribute (_checkpoint_config z) with
    | Some _ => _insert_into_sorted_list (score_of z) (report_index z) (_checkpoint_results z)
                  (length (heap x))
    | None => Ok (_checkpoint_results z ++ [length (heap x)]) end = Ok rs ∧
  rs ≡ₚ length (heap x) :: _checkpoint_results x ∧ sorted_results z rs ∧
  ∀ r, r ∈ rs → scorable z r.
Proof.
  intros Hx Hf (s & Hs & Hv) z. destruct (add_result_new c ms x) as [Hn Hi].
  assert (scorable z (length (heap x))) as Hsn.
  { exists s. unfold score_of, deref. fold z in Hn. rewrite Hn. done. }
  assert (∀ r, r ∈ _checkpoint_results x → scorable z r ∧ kscore z r = kscore x r) as Hold.
  { intros r Hr. destruct (add_result_old c ms x r Hx Hf Hr) as [Hh _].
    pose proof (score_of_heap x z r Hh eq_refl) as E. unfold scorable, kscore. rewrite E.
    split; [exact (wf_score x Hx r Hr)|done]. }
  assert (sorted_results z (_checkpoint_results x)) as Hsort.
  { apply (sorted_ext x); [|apply (wf_sorted x Hx)]. intros r Hr.
    destruct (add_result_old c ms x r Hx Hf Hr) as [_ E]. split; [done|].
    by destruct (Hold r Hr) as [_ ->]. }
  assert (∀ rs, rs ≡ₚ length (heap x) :: _checkpoint_results x → ∀ r, r ∈ rs → scorable z r) as Hall.
  { intros rs Hp r Hr. rewrite Hp in Hr. apply elem_of_cons in Hr as [->|Hr]; [done|].
    by apply Hold. }
  change (_checkpoint_config z) with (_checkpoint_config x).
  change (_checkpoint_results z) with (_checkpoint_results x).
  destruct (checkpoint_score_attribute (_checkpoint_config x)) as [a|] eqn:Ha.
  - assert (Forall (key_ok (score_of z) (kscore z)) (_checkpoint_results x)) as Hk.
    { apply Forall_forall. intros r Hr. by apply kscore_ok, Hold. }
    destruct (insert_spec (score_of z) (report_index z) (kscore z) (_checkpoint_results x)
      (length (heap x)) (kscore_ok _ _ Hsn) Hk) as (l1 & l2 & _ & Hins & _).
    exists (l1 ++ length (heap x) :: l2). split; [exact Hins|].
    destruct (insert_sorted _ _ _ _ _ _ (kscore_ok _ _ Hsn) Hk Hsort Hins) as [Hp Hst].
    split_and!; [done|done|by apply Hall].
  - exists (_checkpoint_results x ++ [length (heap x)]). split; [done|].
    assert (_checkpoint_results x ++ [length (heap x)] ≡ₚ length (heap x) :: _checkpoint_results x)
      as Hp by solve_Permutation.
    split_and!; [done| |by apply Hall]. apply append_sorted; try done. intros r Hr. by apply Hold.
Qed.

Lemma register_unfold c ms v x :
  register_checkpoint c ms v x =
    rs ← match checkpoint_score_attribute (_checkpoint_config (add_result c ms x)) with
      | Some _ => _insert_into_sorted_list (score_of (add_result c ms x))
          (report_index (add_result c ms x)) (_checkpoint_results (add_result c ms x))
          (length (heap x))
      | None => Ok (_checkpoint_results (add_result c ms x) ++ [length (heap x)]) end;
    _save_state_and_delete_old_checkpoints
      (registered (length (heap x)) c v rs (add_result c ms x)).
Proof. reflexivity. Qed.

Lemma registered_pending r c v rs x d : dwf (_pending_training_results x) →
  dwf (_pending_training_results (registered r c v rs x)) ∧
  dget (_pending_training_results (registered r c v rs x)) d =
    match v with
    | Some spec => if decide (d = c) then Some (r, spec) else dget (_pending_training_results x) d
    | None => dget (_pending_training_results x) d
    end.
Proof.
  intros Hwf. unfold registered. destruct v as [spec|]; simpl; [|done].
  split; [by apply dset_wf|apply dget_dset].
Qed.

(** The checkpoints of the results after a new one is added. *)
Lemma ckpt_added c ms x : wf x → fresh_checkpoint x c →
  let z := add_result c ms x in
  ckpt z (length (heap x)) = Some c ∧ ∀ r, r ∈ _checkpoint_results x → ckpt z r = ckpt x r.
Proof.
  intros Hx Hf z. unfold ckpt. destruct (add_result_new c ms x) as [Hn _]. fold z in Hn. rewrite Hn. split; [done|].
  intros r Hr. destruct (add_result_old c ms x r Hx Hf Hr) as [E _]. fold z in E. by rewrite E.
Qed.

Lemma live_added c ms x r : wf x → fresh_checkpoint x c → r = length (heap x) ∨ r ∈ _checkpoint_results x →
  let z := add_result c ms x in
  ∃ d, ckpt z r = Some d ∧ under x d ∧ is_Some (dget (_checkpoint_to_report_index z) d).
Proof.
  intros Hx Hf Hr z. destruct (ckpt_added c ms x Hx Hf) as [Hnew Hold]. fold z in Hnew, Hold. destruct Hr as [->|Hr].
  - exists c. split_and!; [done|apply Hf|]. simpl. by rewrite dget_dset_eq.
  - destruct (wf_live x Hx r Hr) as (d & Hd & Hu & Hix). exists d. rewrite Hold by done.
    split_and!; [done|done|]. simpl. rewrite dget_dset. by case_decide.
Qed.

Lemma distinct_added c ms x r r' d d' : wf x → fresh_checkpoint x c →
  r = length (heap x) ∨ r ∈ _checkpoint_results x → r' = length (heap x) ∨ r' ∈ _checkpoint_results x →
  let z := add_result c ms x in
  ckpt z r = Some d → ckpt z r' = Some d' → path d = path d' → r = r'.
Proof.
  intros Hx Hf Hr Hr' z Hd Hd' E. destruct (ckpt_added c ms x Hx Hf) as [Hnew Hold]. fold z in Hnew, Hold.
  destruct Hr as [->|Hr], Hr' as [->|Hr']; [done|..].
  - exfalso. rewrite Hnew in Hd. injection Hd as <-. rewrite Hold in Hd' by done. by apply (proj2 Hf) in Hd'.
  - exfalso. rewrite Hnew in Hd'. injection Hd' as <-. rewrite Hold in Hd by done. by apply (proj2 Hf) in Hd.
  - rewrite Hold in Hd, Hd' by done. by eapply (wf_distinct x Hx).
Qed.

Lemma registered_wf c ms v x rs : wf x → fresh_checkpoint x c →
  let z := add_result c ms x in
  rs ≡ₚ length (heap x) :: _checkpoint_results x → sorted_results z rs →
  (∀ r, r ∈ rs → scorable z r) → wf (registered (length (heap x)) c v rs z).
Proof.
  intros Hx Hf z Hp Hs Hsc. set (r0 := length (heap x)) in *.
  destruct (ckpt_added c ms x Hx Hf) as [Hnew Hold]. fold z r0 in Hnew, Hold.
  assert (∀ r, r ∈ rs → r = r0 ∨ r ∈ _checkpoint_results x) as Hin.
  { intros r Hr. rewrite Hp in Hr. by apply elem_of_cons in Hr. }
  assert (∀ r, r ∈ _checkpoint_results x → r ∈ rs) as Hin'.
  { intros r Hr. rewrite Hp. by right. }
  assert (r0 ∈ rs) as Hr0 by (rewrite Hp; by left).
  split.
  - destruct v; apply (wf_keep x Hx).
  - assert (NoDup rs); [|by destruct v]. rewrite Hp. constructor; [|apply (wf_nodup x Hx)].
    intros Hr. apply (result_live_lt x r0 Hx) in Hr. lia.
  - assert (∀ r, r ∈ rs → ∃ d, ckpt z r = Some d ∧ under x d ∧
      is_Some (dget (_checkpoint_to_report_index z) d)); [|by destruct v].
    intros r Hr%Hin. by apply live_added.
  - assert (∀ r r' d d', r ∈ rs → r' ∈ rs → ckpt z r = Some d → ckpt z r' = Some d' →
      path d = path d' → r = r'); [|by destruct v].
    intros r r' d d' Hr%Hin Hr'%Hin. by apply distinct_added.
  - assert (dwf (_checkpoint_to_report_index z)) by (apply dset_wf, (wf_index x Hx)). by destruct v.
  - assert (∀ d n, dget (_checkpoint_to_report_index z) d = Some n →
      n < _current_report_index z + 1); [|by destruct v].
    intros d n. simpl. rewrite dget_dset. case_decide; [intros [= <-]; lia|].
    intros Hd. apply (wf_index_lt x Hx) in Hd. lia.
  - assert (∀ r, r ∈ rs → scorable z r) by done. by destruct v.
  - by destruct v.
  - assert (∀ r, Some r0 = Some r → r ∈ rs); [|by destruct v].
    intros r [= <-]. rewrite Hp. by left.
  - by apply registered_pending, (wf_pending x Hx).
  - intros d r sp. destruct (registered_pending r0 c v rs z d (wf_pending x Hx)) as [_ ->].
    assert (dget (_pending_training_results x) d = Some (r, sp) → r ∈ rs ∧ ckpt z r = Some d) as Ho.
    { intros Hd. destruct (wf_pending_in x Hx d r sp Hd) as [Hr Hc]. by rewrite Hold, Hc; auto. }
    destruct v as [spec|]; [|exact Ho]. case_decide as E; [|exact Ho].
    subst d. intros [= <- <-]. split; [exact Hr0|done].
  - intros d Hd. assert (has_status x d) as Hd' by (by destruct v).
    destruct (wf_status x Hx d Hd') as (r & Hr & Hrd). exists r.
    assert (r ∈ rs ∧ ckpt z r = Some d) by (rewrite Hold; auto). by destruct v.
  - intros d e. destruct (registered_pending r0 c v rs z d (wf_pending x Hx)) as [_ ->].
    intros Hd Hst. assert (has_status x d) as Hst' by (by destruct v). clear Hst.
    destruct v as [spec|]; [|by apply (wf_disjoint x Hx d e)]. case_decide as E.
    + subst d. destruct (wf_status x Hx c Hst') as (r & Hr & Hrc). by apply (proj2 Hf r c).
    + by apply (wf_disjoint x Hx d e).
  - pose proof (wf_sets x Hx). by destruct v.
Qed.

(** Registering succeeds, and deletes what [kept_iff] does not keep. *)
Lemma register_ok c ms v x : wf x → fresh_checkpoint x c → metrics_ok (_checkpoint_config x) ms →
  ∃ rs, let w := registered (length (heap x)) c v rs (add_result c ms x) in
    wf w ∧ rs ≡ₚ length (heap x) :: _checkpoint_results x ∧
    register_checkpoint c ms v x =
      Ok (forgot (deleted_checkpoints w) (pruned w),
          OpenSnapshot :: WriteSnapshot (to_json (snapshot_of (forgot (deleted_checkpoints w) (pruned w)))) ::
          map DeletePath (map path (deleted_checkpoints w))).
Proof.
  intros Hx Hf Hm. destruct (register_list c ms x Hx Hf Hm) as (rs & Hrs & Hp & Hs & Hsc).
  exists rs. pose proof (registered_wf c ms v x rs Hx Hf Hp Hs Hsc) as Hw.
  split; [exact Hw|]. split; [done|]. rewrite register_unfold, Hrs. simpl.
  by apply save_and_delete_ok.
Qed.
End manager.
