(* ===== verification/CheckpointUpdate.v ===== *)
(** * Validation results: metrics merged, results sorted again *)
From S2P Require Import Prelude PyDict PyFloat Checkpoints CheckpointOrder CheckpointFacts.
Import CheckpointManager.

Section updates.
Context {Spec J : Type} `{!SnapshotCodec Spec J}.
Implicit Types (x y : t Spec) (r : nat) (c : Checkpoint).

Lemma filter_ne_all r (l : list nat) : r ∉ l → filter (.≠ r) l = l.
Proof.
  induction l as [|s l IH]; intros Hr; [done|]. rewrite filter_cons.
  rewrite decide_True by set_solver. rewrite IH by set_solver. done.
Qed.

Lemma list_remove_filter r l : NoDup l → list_remove r l = filter (.≠ r) l.
Proof.
  induction 1 as [|s l Hs Hl IH]; [done|]. simpl. rewrite filter_cons.
  destruct (decide (s = r)) as [->|].
  - rewrite decide_False by naive_solver. by rewrite filter_ne_all.
  - by rewrite decide_True, IH by done.
Qed.

Lemma list_remove_perm r l : r ∈ l → r :: list_remove r l ≡ₚ l.
Proof.
  induction l as [|s l IH]; [set_solver|]. intros Hr. simpl.
  destruct (decide (s = r)) as [->|]; [done|].
  etrans; [apply perm_swap|]. constructor. apply IH. set_solver.
Qed.

Lemma set_add_elem c d l : c ∈ set_add d l ↔ c = d ∨ c ∈ l.
Proof. unfold set_add. case_bool_decide; set_solver. Qed.

Lemma set_add_nodup c l : NoDup l → NoDup (set_add c l).
Proof.
  intros Hl. unfold set_add. case_bool_decide as Hc; [done|]. apply NoDup_app.
  split_and!; [done|set_solver|apply NoDup_singleton].
Qed.

(** The statuses a validation may end with, and, for a validated checkpoint,
    metrics that can be scored. *)
Definition update_ok (u : Checkpoint * (metrics * ReportedCheckpointStatus)) x : Prop :=
  u.2.2 ∈ [VALIDATED; VALIDATION_TIMEOUT; VALIDATION_FAILED] ∧
  (u.2.2 = VALIDATED → ∀ r sp tr, dget (_pending_training_results x) u.1 = Some (r, sp) →
     heap x !! r = Some tr →
     metrics_ok (_checkpoint_config x) (dupdate (result_metrics tr) u.2.1)).

(** Metrics of one result changed, and the list sorted again. *)
Definition resorted c r (ms : metrics) x rs : t Spec :=
  let y := update_metrics r ms x in
  set_validation (ddel (_pending_training_results x) c) (set_add c (_validated_checkpoints x))
    (_timed_out_validation_checkpoints x) (_failed_validation_checkpoints x)
    (set_results (heap y) rs (_latest_checkpoint_result x) y).

Lemma heap_updated r ms x q : heap (update_metrics r ms x) !! q =
  if decide (q = r) then (λ tr, {| checkpoint := checkpoint tr;
    result_metrics := dupdate (result_metrics tr) ms |}) <$> heap x !! r
  else heap x !! q.
Proof.
  simpl. destruct (decide (q = r)) as [->|]; [by rewrite list_lookup_alter_eq|].
  by rewrite list_lookup_alter_ne.
Qed.

Lemma insert_ext (key key' : nat → result score) index index' l q :
  (∀ a, key a = key' a) → (∀ a, index a = index' a) →
  _insert_into_sorted_list key index l q = _insert_into_sorted_list key' index' l q.
Proof.
  intros Hk Hi. induction l as [|a l IH]; [done|]. simpl. by rewrite !Hk, !Hi, IH.
Qed.

Lemma ckpt_updated r ms x q : ckpt (update_metrics r ms x) q = ckpt x q.
Proof.
  unfold ckpt. rewrite heap_updated. case_decide; [subst q|done]. by destruct (heap x !! r).
Qed.

(** Fields the invariant reads that a change of status leaves alone. *)
Lemma wf_statuses x p va ti fa : wf x → dwf p →
  (∀ c v, dget p c = Some v → dget (_pending_training_results x) c = Some v) →
  (∀ c, c ∈ va ∨ c ∈ ti ∨ c ∈ fa → (∃ r, r ∈ _checkpoint_results x ∧ ckpt x r = Some c) ∧
     dget p c = None) → NoDup va ∧ NoDup ti ∧ NoDup fa →
  wf (set_validation p va ti fa x).
Proof.
  intros [] Hp Hsub Hst Hset. split; simpl; try done.
  - intros c r sp Hc. by eapply wf_pending_in, Hsub.
  - intros c Hc. by apply Hst.
  - intros c v Hc Hs. apply Hst in Hs as [_ Hs]. congruence.
Qed.

Lemma dget_ddel_sub {V} (d : dict Checkpoint V) c e v : dwf d →
  dget (ddel d c) e = Some v → dget d e = Some v.
Proof.
  intros Hd. destruct (decide (c = e)) as [->|]; [by rewrite dget_ddel_eq|by rewrite dget_ddel_ne].
Qed.

(** The list that replaces the old one when the metrics of [r] change. *)
Lemma resort_list r ms x : wf x → r ∈ _checkpoint_results x →
  (∀ tr, heap x !! r = Some tr → metrics_ok (_checkpoint_config x) (dupdate (result_metrics tr) ms)) →
  let z := set_results (heap (update_metrics r ms x)) (list_remove r (_checkpoint_results x))
    (_latest_checkpoint_result x) (update_metrics r ms x) in
  ∃ rs, _insert_into_sorted_list (score_of z) (report_index z) (_checkpoint_results z) r = Ok rs ∧
    rs ≡ₚ _checkpoint_results x ∧ sorted_results z rs ∧ ∀ q, q ∈ rs → scorable z q.
Proof.
  intros Hx Hr Hm z. pose proof (wf_nodup x Hx) as Hnd.
  assert (∀ q, report_index z q = report_index x q) as Hix.
  { intros q. unfold report_index. change (heap z) with (heap (update_metrics r ms x)).
    rewrite heap_updated. case_decide; [subst q|done]. by destruct (heap x !! r). }
  assert (∀ q, q ≠ r → score_of z q = score_of x q) as Hsc.
  { intros q Hq. apply score_of_heap; [|done]. change (heap z) with (heap (update_metrics r ms x)).
    rewrite heap_updated. by rewrite decide_False. }
  assert (scorable z r) as Hzr.
  { destruct (wf_live x Hx r Hr) as (c & Hc & _). unfold ckpt in Hc.
    destruct (heap x !! r) as [tr|] eqn:E; [|done]. destruct (Hm tr eq_refl) as (s & Hs & Hv).
    exists s. split; [|done]. unfold score_of, deref.
    change (heap z) with (heap (update_metrics r ms x)).
    rewrite heap_updated, decide_True by done. by rewrite E. }
  assert (∀ q, q ∈ filter (.≠ r) (_checkpoint_results x) → scorable z q ∧ kscore z q = kscore x q) as Ho.
  { intros q [Hq Hin]%list_elem_of_filter. unfold scorable, kscore. rewrite (Hsc q Hq).
    split; [exact (wf_score x Hx q Hin)|done]. }
  change (_checkpoint_results z) with (list_remove r (_checkpoint_results x)).
  pose proof (list_remove_perm r _ Hr) as Hperm. rewrite (list_remove_filter r _ Hnd) in *.
  assert (sorted_results z (filter (.≠ r) (_checkpoint_results x))) as Hst.
  { apply (sorted_ext x); [|apply sorted_filter, (wf_sorted x Hx)].
    intros q Hq. split; [by rewrite Hix|]. symmetry. by apply Ho. }
  assert (Forall (key_ok (score_of z) (kscore z)) (filter (.≠ r) (_checkpoint_results x))) as Hk.
  { apply Forall_forall. intros q Hq. by apply kscore_ok, Ho. }
  destruct (insert_spec (score_of z) (report_index z) (kscore z) _ r (kscore_ok _ _ Hzr) Hk)
    as (l1 & l2 & _ & Hins & _). eexists. split; [exact Hins|].
  destruct (insert_sorted _ _ _ _ _ _ (kscore_ok _ _ Hzr) Hk Hst Hins) as [Hp Hs].
  split_and!; [by rewrite Hp, Hperm|done|]. intros q Hq. rewrite Hp in Hq.
  apply elem_of_cons in Hq as [->|Hq]; [done|]. by apply Ho.
Qed.

Lemma resorted_wf r ms x rs : wf x →
  let z := update_metrics r ms x in
  rs ≡ₚ _checkpoint_results x → sorted_results z rs → (∀ q, q ∈ rs → scorable z q) →
  wf (set_results (heap z) rs (_latest_checkpoint_result x) z).
Proof.
  intros Hx z Hp Hs Hsc.
  assert (∀ q, q ∈ rs → q ∈ _checkpoint_results x) as Hin by (intros q; by rewrite Hp).
  assert (∀ q, q ∈ _checkpoint_results x → q ∈ rs) as Hin' by (intros q; by rewrite Hp).
  assert (∀ q, ckpt (set_results (heap z) rs (_latest_checkpoint_result x) z) q = ckpt x q) as Hck
    by apply (ckpt_updated r ms x).
  split.
  - apply (wf_keep x Hx).
  - simpl. rewrite Hp. apply (wf_nodup x Hx).
  - intros q Hq. rewrite Hck. apply (wf_live x Hx q), Hin, Hq.
  - intros q q' d d' Hq Hq'. rewrite !Hck. apply (wf_distinct x Hx); by apply Hin.
  - apply (wf_index x Hx).
  - apply (wf_index_lt x Hx).
  - exact Hsc.
  - exact Hs.
  - intros q Hq. apply Hin', (wf_latest x Hx q Hq).
  - apply (wf_pending x Hx).
  - intros d q sp Hd. rewrite Hck. destruct (wf_pending_in x Hx d q sp Hd). auto.
  - intros d Hd. destruct (wf_status x Hx d Hd) as (q & Hq & Hqd). exists q. rewrite Hck. auto.
  - apply (wf_disjoint x Hx).
  - apply (wf_sets x Hx).
Qed.

(** The entry [c] leaves the pending ones. *)
Lemma ddel_pending x c : wf x →
  dwf (ddel (_pending_training_results x) c) ∧
  ∀ d, dget (ddel (_pending_training_results x) c) d =
    if decide (d = c) then None else dget (_pending_training_results x) d.
Proof.
  intros Hx. pose proof (wf_pending x Hx) as Hp. split; [by apply ddel_wf|]. intros d.
  case_decide as E; [subst d; by apply dget_ddel_eq|by apply dget_ddel_ne].
Qed.

(** Terminal statuses for [c], the others as they were. *)
Lemma ended_wf x c va ti fa : wf x →
  (∃ v, dget (_pending_training_results x) c = Some v) →
  (∀ d, d ∈ va ∨ d ∈ ti ∨ d ∈ fa → d = c ∨ has_status x d) → NoDup va ∧ NoDup ti ∧ NoDup fa →
  wf (set_validation (ddel (_pending_training_results x) c) va ti fa x).
Proof.
  intros Hx [[r sp] Hc] Hs Hset. destruct (ddel_pending x c Hx) as [Hd Hg].
  apply wf_statuses; [done|done| | |done].
  - intros d v. rewrite Hg. by case_decide.
  - intros d [->|Hst]%Hs; rewrite Hg.
    + rewrite decide_True by done. split; [|done]. exists r. by apply (wf_pending_in x Hx c r sp).
    + split; [by apply (wf_status x Hx)|]. case_decide; [done|].
      destruct (dget _ d) as [v|] eqn:E; [|done]. by destruct (wf_disjoint x Hx d v E).
Qed.

(** What updates do: no result is lost or added; the updated checkpoints are
    no longer pending, have the reported statuses and, when validated, the
    reported metrics. *)
Definition merged (us : dict Checkpoint (metrics * ReportedCheckpointStatus)) x q
    (tr : TrainingResult) : TrainingResult :=
  match dget us (checkpoint tr) with
  | Some (ms, VALIDATED) =>
      if bool_decide (fst <$> dget (_pending_training_results x) (checkpoint tr) = Some q)
      then {| checkpoint := checkpoint tr; result_metrics := dupdate (result_metrics tr) ms |}
      else tr
  | _ => tr
  end.

Definition status_after (us : dict Checkpoint (metrics * ReportedCheckpointStatus)) x d :
    ReportedCheckpointStatus :=
  match dget us d with
  | Some (_, status) =>
      if dmem (_pending_training_results x) d then status else _get_checkpoint_status x d
  | None => _get_checkpoint_status x d
  end.

Record updates_effect (us : dict Checkpoint (metrics * ReportedCheckpointStatus)) x y : Prop := {
  ue_results : _checkpoint_results y ≡ₚ _checkpoint_results x;
  ue_heap : ∀ q tr, heap x !! q = Some tr → heap y !! q = Some (merged us x q tr);
  ue_latest : _latest_checkpoint_result y = _latest_checkpoint_result x;
  ue_config : _checkpoint_config y = _checkpoint_config x;
  ue_path : _experiment_fs_path y = _experiment_fs_path x;
  ue_indices : _checkpoint_to_report_index y = _checkpoint_to_report_index x;
  ue_pending : ∀ d, dget (_pending_training_results y) d =
    if dmem us d then None else dget (_pending_training_results x) d;
  ue_status : ∀ d, _get_checkpoint_status y d = status_after us x d
}.

Lemma merged_checkpoint us x q tr : checkpoint (merged us x q tr) = checkpoint tr.
Proof. unfold merged. destruct (dget us _) as [[ms []]|]; try done. by case_bool_decide. Qed.

Lemma dmem_dget {V} (d : dict Checkpoint V) c : dmem d c = bool_decide (is_Some (dget d c)).
Proof. unfold dmem. by destruct (dget d c). Qed.

(** The status of a checkpoint after one set has gained it. *)
Lemma status_ended c d x p va ti fa (st : ReportedCheckpointStatus) : wf x →
  (∃ v, dget (_pending_training_results x) c = Some v) →
  (∀ e, dget p e = if decide (e = c) then None else dget (_pending_training_results x) e) →
  (∀ e, e ∈ va ↔ (e = c ∧ st = VALIDATED) ∨ e ∈ _validated_checkpoints x) →
  (∀ e, e ∈ ti ↔ (e = c ∧ st = VALIDATION_TIMEOUT) ∨ e ∈ _timed_out_validation_checkpoints x) →
  (∀ e, e ∈ fa ↔ (e = c ∧ st = VALIDATION_FAILED) ∨ e ∈ _failed_validation_checkpoints x) →
  st ∈ [VALIDATED; VALIDATION_TIMEOUT; VALIDATION_FAILED] →
  _get_checkpoint_status (set_validation p va ti fa x) d =
    if decide (d = c) then st else _get_checkpoint_status x d.
Proof.
  intros Hx [v Hc] Hp Hva Hti Hfa Hst. pose proof (wf_disjoint x Hx c v Hc) as Hno.
  unfold has_status in Hno. unfold _get_checkpoint_status. simpl.
  rewrite !dmem_dget, Hp. case_decide as E.
  - subst d. rewrite (bool_decide_eq_false_2 (is_Some None)) by (intros [? [=]]).
    rewrite !elem_of_cons, elem_of_nil in Hst. destruct Hst as [->|[->|[->|[]]]].
    + rewrite bool_decide_eq_false_2, bool_decide_eq_false_2, bool_decide_eq_true_2;
        rewrite ?Hva, ?Hti, ?Hfa; intuition congruence.
    + rewrite bool_decide_eq_true_2; rewrite ?Hva, ?Hti, ?Hfa; intuition congruence.
    + rewrite bool_decide_eq_false_2, bool_decide_eq_true_2;
        rewrite ?Hva, ?Hti, ?Hfa; intuition congruence.
  - rewrite (bool_decide_ext (d ∈ va) (d ∈ _validated_checkpoints x)) by (rewrite Hva; tauto).
    rewrite (bool_decide_ext (d ∈ ti) (d ∈ _timed_out_validation_checkpoints x))
      by (rewrite Hti; tauto).
    rewrite (bool_decide_ext (d ∈ fa) (d ∈ _failed_validation_checkpoints x))
      by (rewrite Hfa; tauto). done.
Qed.

(** The effect of an update that leaves [z] with the results and scores it
    should have, and then ends the validation of [c]. *)
Lemma ended_effect c ms st x z va ti fa : wf x → wf z →
  (∃ v, dget (_pending_training_results x) c = Some v) →
  _pending_training_results z = _pending_training_results x →
  _checkpoint_results z ≡ₚ _checkpoint_results x →
  (∀ q tr, heap x !! q = Some tr → heap z !! q = Some (merged [(c, (ms, st))] x q tr)) →
  _latest_checkpoint_result z = _latest_checkpoint_result x →
  _checkpoint_config z = _checkpoint_config x →
  _experiment_fs_path z = _experiment_fs_path x →
  _checkpoint_to_report_index z = _checkpoint_to_report_index x →
  (∀ d, _get_checkpoint_status z d = _get_checkpoint_status x d) →
  (∀ e, e ∈ va ↔ (e = c ∧ st = VALIDATED) ∨ e ∈ _validated_checkpoints z) →
  (∀ e, e ∈ ti ↔ (e = c ∧ st = VALIDATION_TIMEOUT) ∨ e ∈ _timed_out_validation_checkpoints z) →
  (∀ e, e ∈ fa ↔ (e = c ∧ st = VALIDATION_FAILED) ∨ e ∈ _failed_validation_checkpoints z) →
  st ∈ [VALIDATED; VALIDATION_TIMEOUT; VALIDATION_FAILED] → NoDup va ∧ NoDup ti ∧ NoDup fa →
  let y := set_validation (ddel (_pending_training_results z) c) va ti fa z in
  wf y ∧ updates_effect [(c, (ms, st))] x y.
Proof.
  intros Hx Hz Hc Hp Hr Hh Hl Hcf He Hi Hs Hva Hti Hfa Hst Hset y. subst y.
  assert (∃ v, dget (_pending_training_results z) c = Some v) as Hcz by by rewrite Hp.
  destruct (ddel_pending z c Hz) as [_ Hdel]. split.
  - apply ended_wf; [done|done| |done]. intros d. rewrite Hva, Hti, Hfa. unfold has_status. tauto.
  - split; [done|exact Hh|done|done|done|done| |].
    + intros d. simpl. rewrite Hdel, Hp. unfold dmem. simpl. by case_decide.
    + intros d. rewrite (status_ended c d z _ _ _ _ st) by done. rewrite Hs.
      unfold status_after. simpl. case_decide; [subst d|done]. unfold dmem.
      destruct Hc as [v ->]. done.
Qed.

Lemma merged_same c ms st x q tr : st ≠ VALIDATED → merged [(c, (ms, st))] x q tr = tr.
Proof. intros. unfold merged. simpl. case_decide; [|done]. by destruct st. Qed.

Lemma add_iff c (P : Prop) e l : P → e ∈ set_add c l ↔ (e = c ∧ P) ∨ e ∈ l.
Proof. rewrite set_add_elem. tauto. Qed.

Lemma keep_iff c (P : Prop) (e : Checkpoint) (l : list Checkpoint) :
  ¬ P → e ∈ l ↔ (e = c ∧ P) ∨ e ∈ l.
Proof. tauto. Qed.

(** One update of a checkpoint that is pending. *)
Lemma update_pending_ok c ms st r sp x : wf x →
  dget (_pending_training_results x) c = Some (r, sp) → update_ok (c, (ms, st)) x →
  ∃ y, update_one x (c, (ms, st)) = Ok y ∧ wf y ∧ updates_effect [(c, (ms, st))] x y.
Proof.
  intros Hx Hc [Hst Hm]. simpl in Hst, Hm. unfold update_one. rewrite Hc.
  destruct (wf_pending_in x Hx c r sp Hc) as [Hr Hrc].
  rewrite bool_decide_eq_true_2 by done. simpl negb. cbv iota.
  destruct (wf_sets x Hx) as (Hn1 & Hn2 & Hn3).
  pose proof Hst as Hst'. rewrite !elem_of_cons, elem_of_nil in Hst'.
  destruct Hst' as [->|[->|[->|[]]]].
  - destruct (resort_list r ms x Hx Hr) as (rs & Hins & Hp & Hsort & Hsc).
    { intros tr Htr. by eapply (Hm eq_refl). }
    exists (resorted c r ms x rs). split.
    { lazymatch type of Hins with _insert_into_sorted_list ?k' ?i' _ _ = _ =>
        lazymatch goal with |- context [ _insert_into_sorted_list ?k ?i ?l ?q ] =>
          rewrite (insert_ext k k' i i' l q) by (intros; unfold score_of, report_index, deref; by simpl)
          end end.
      cbn [_checkpoint_results set_results update_metrics set_validation] in *. rewrite Hins. done. }
    unfold resorted. apply (ended_effect c ms VALIDATED x (set_results _ rs _ (update_metrics r ms x)));
      try done; [by apply resorted_wf|by eexists| |intros e; by apply add_iff|
        intros e; by apply keep_iff..|split_and!; [by apply set_add_nodup|done..]].
    intros q tr Htr. change (heap (update_metrics r ms x) !! q = Some (merged [(c, (ms, VALIDATED))] x q tr)).
    rewrite heap_updated. unfold merged. unfold ckpt in Hrc.
    case_decide as E; [subst q; rewrite Htr in *; injection Hrc as E; rewrite E|]; simpl.
    + by rewrite decide_True, Hc, bool_decide_eq_true_2, E by done.
    + rewrite Htr. case_decide as E'; [|done]. rewrite E', Hc. rewrite bool_decide_eq_false_2; [done|].
      intros [=]. congruence.
  - eexists. split; [done|].
    apply (ended_effect c ms VALIDATION_TIMEOUT x x); try done;
      [by eexists|intros q tr ?; by rewrite merged_same|intros e; by apply keep_iff
        |intros e; by apply add_iff|intros e; by apply keep_iff
        |split_and!; [done|by apply set_add_nodup|done]].
  - eexists. split; [done|].
    apply (ended_effect c ms VALIDATION_FAILED x x); try done;
      [by eexists|intros q tr ?; by rewrite merged_same|intros e; by apply keep_iff
        |intros e; by apply keep_iff|intros e; by apply add_iff
        |split_and!; [done|done|by apply set_add_nodup]].
Qed.

(** An update of a checkpoint that is not pending is ignored. *)
Lemma update_one_ok u x : wf x → update_ok u x →
  ∃ y, update_one x u = Ok y ∧ wf y ∧ updates_effect [u] x y.
Proof.
  intros Hx Hu. destruct u as [c [ms st]].
  destruct (dget (_pending_training_results x) c) as [[r sp]|] eqn:Hc;
    [by eapply update_pending_ok|]. exists x. unfold update_one. rewrite Hc.
  split; [done|]. split; [done|]. split; try done.
  - intros q tr Htr. unfold merged. simpl. case_decide as E; [|done].
    rewrite E, Hc. by destruct st.
  - intros d. unfold dmem. simpl. case_decide as E; [by subst|done].
  - intros d. unfold status_after. simpl. case_decide as E; [|done].
    unfold dmem. rewrite E, Hc. done.
Qed.

Lemma effect_trans u us x y z : u.1 ∉ us.*1 →
  updates_effect [u] x y → updates_effect us y z → updates_effect (u :: us) x z.
Proof.
  intros Hu [] []. destruct u as [c [ms st]]. simpl in Hu.
  assert (dget us c = None) as Hn by by apply dget_None.
  split; try (by etrans).
  - intros q tr Htr. rewrite (ue_heap1 q (merged [(c, (ms, st))] x q tr)) by auto. f_equal.
    unfold merged at 1. rewrite merged_checkpoint, ue_pending0. unfold merged, dmem. simpl.
    case_decide as E.
    + rewrite E, Hn. destruct st; try done.
    + by destruct (dget us (checkpoint tr)) as [[? []]|].
  - intros d. rewrite ue_pending1, ue_pending0. unfold dmem. simpl. case_decide as E.
    + rewrite E. by destruct (dget us c).
    + done.
  - intros d. rewrite ue_status1. unfold status_after. rewrite ue_status0.
    unfold status_after, dmem. rewrite ue_pending0. unfold dmem. simpl. case_decide as E.
    + rewrite E, Hn. done.
    + done.
Qed.

(** The updates of different checkpoints do not interfere. *)
Lemma updates_ok us x : wf x → dwf us → (∀ u, u ∈ us → update_ok u x) →
  ∃ y, result_fold update_one x us = Ok y ∧ wf y ∧ updates_effect us x y.
Proof.
  revert x. induction us as [|u us IH]; intros x Hx Hnd Hok.
  { exists x. split_and!; [done|done|]. split; done. }
  apply NoDup_cons in Hnd as [Hu Hnd].
  destruct (update_one_ok u x Hx (Hok u ltac:(set_solver))) as (y & Hy & Hwy & He).
  destruct (IH y Hwy Hnd) as (z & Hz & Hwz & He').
  - intros v Hv. destruct (Hok v ltac:(set_solver)) as [Hst Hm]. split; [done|].
    intros Hval r sp tr Hp Hh. destruct He.
    rewrite ue_pending0 in Hp. destruct (dmem [u] v.1) eqn:E; [done|].
    destruct (wf_pending_in x Hx _ _ _ Hp) as [_ Hrc]. unfold ckpt in Hrc.
    destruct (heap x !! r) as [tr'|] eqn:Ht; [|done]. injection Hrc as Hrc.
    rewrite (ue_heap0 r tr' Ht) in Hh. injection Hh as <-. rewrite ue_config0.
    assert (merged [u] x r tr' = tr') as ->.
    { unfold merged. rewrite Hrc. unfold dmem in E. by destruct (dget [u] v.1). }
    by eapply Hm.
  - exists z. simpl. rewrite Hy. split; [exact Hz|]. split; [done|]. by eapply effect_trans.
Qed.
End updates.
