(* ===== verification/CheckpointLoad.v ===== *)
(** * Loading a saved checkpoint manager *)
From S2P Require Import Prelude PyDict PyFloat Checkpoints CheckpointOrder CheckpointFacts CheckpointUpdate.
Import CheckpointManager.

Lemma by_name_lookup (ss : list (string * metrics)) k d : NoDup ss.*1 →
  ss.*1 !! k = Some d → dget (dict_of (imap (λ k p, (p.1, k)) ss)) d = Some k.
Proof.
  intros Hnd Hk. assert ((imap (λ k (p : string * metrics), (p.1, k)) ss).*1 = ss.*1) as Hkeys.
  { apply list_eq. intros i. rewrite !list_lookup_fmap, list_lookup_imap. by destruct (ss !! i). }
  apply dget_wf_elem; [apply dict_of_wf|].
  unfold dict_of. rewrite dupdate_NoDup by (simpl; by rewrite Hkeys). simpl.
  rewrite list_lookup_fmap in Hk. destruct (ss !! k) as [p|] eqn:E; [|done].
  injection Hk as <-. apply elem_of_lookup_imap. by exists k, p.
Qed.

Lemma bind_step {A B} (m : result A) (f : A → result B) a res :
  m = Ok a → f a = res → m ≫= f = res.
Proof. by intros ->. Qed.

Lemma zip_map {A B C} (f : A → B) (g : A → C) l : zip (map f l) (map g l) = map (λ a, (f a, g a)) l.
Proof. induction l as [|a l IH]; [done|]. simpl. by rewrite IH. Qed.

Section load.
Context {Spec J : Type} `{!SnapshotCodec Spec J}.
Context (uuid4 : nat → Z) (x : t Spec) (Hx : wf x).
Context `{!Inj (=) (=) uuid4}.
Implicit Types (r : nat) (c : Checkpoint).

(** Where a saved name is found, and what its result becomes. *)
Definition by_name : dict string nat :=
  dict_of (imap (λ k p, (p.1, k)) (map (saved x) (_checkpoint_results x))).

Definition posn (d : string) : nat := default 0%nat (dget by_name d).

Definition relabel c : Checkpoint := {| uuid := uuid4 (posn (name_of x c)); path := path c |}.

Definition ix r : nat := posn (saved x r).1.

Definition reloaded r : TrainingResult :=
  match heap x !! r with
  | Some tr => {| checkpoint := relabel (checkpoint tr); result_metrics := result_metrics tr |}
  | None => {| checkpoint := relabel {| uuid := 0; path := "" |}; result_metrics := [] |}
  end.

(** The manager that loading the snapshot of [x] gives. *)
Definition loaded : t Spec := {|
  _checkpoint_config := _checkpoint_config x; _experiment_fs_path := _experiment_fs_path x;
  heap := map reloaded (_checkpoint_results x);
  _checkpoint_results := map ix (_checkpoint_results x);
  _latest_checkpoint_result := ix <$> _latest_checkpoint_result x;
  _current_report_index := _current_report_index x;
  _pending_training_results :=
    map (λ p, (relabel p.1, (ix p.2.1, p.2.2))) (_pending_training_results x);
  _validated_checkpoints := map relabel (_validated_checkpoints x);
  _timed_out_validation_checkpoints := map relabel (_timed_out_validation_checkpoints x);
  _failed_validation_checkpoints := map relabel (_failed_validation_checkpoints x);
  _checkpoint_to_report_index :=
    dict_of (map (λ r, (checkpoint (reloaded r), report_index x r)) (_checkpoint_results x)) |}.

(** A live result, with all the invariant says of it. *)
Lemma live_spec r : r ∈ _checkpoint_results x → ∃ tr, heap x !! r = Some tr ∧
  under x (checkpoint tr) ∧ saved x r = (name_of x (checkpoint tr), result_metrics tr) ∧
  is_Some (dget (_checkpoint_to_report_index x) (checkpoint tr)).
Proof.
  intros Hr. destruct (wf_live x Hx r Hr) as (c & Hc & Hu & Hi). unfold ckpt, saved in *.
  destruct (heap x !! r) as [tr|]; [|done]. injection Hc as <-. by exists tr.
Qed.

Lemma name_inj c d : under x c → under x d → name_of x c = name_of x d → path c = path d.
Proof.
  intros [_ Hc]%under_extract [_ Hd]%under_extract E. by rewrite Hc, Hd, E.
Qed.

Lemma saved_inj r r' : r ∈ _checkpoint_results x → r' ∈ _checkpoint_results x →
  (saved x r).1 = (saved x r').1 → r = r'.
Proof.
  intros Hr Hr' E. destruct (live_spec r Hr) as (tr & Ht & Hu & Hs & _).
  destruct (live_spec r' Hr') as (tr' & Ht' & Hu' & Hs' & _). rewrite Hs, Hs' in E.
  apply (wf_distinct x Hx r r' (checkpoint tr) (checkpoint tr')); [done..| | |by apply name_inj].
  - unfold ckpt. by rewrite Ht.
  - unfold ckpt. by rewrite Ht'.
Qed.

Lemma saved_nodup : NoDup (map (saved x) (_checkpoint_results x)).*1.
Proof.
  change (map (saved x) ?l) with (saved x <$> l). rewrite <-list_fmap_compose.
  apply NoDup_fmap_2_strong; [|apply (wf_nodup x Hx)]. intros r r'. apply saved_inj.
Qed.

Lemma by_name_ix r : r ∈ _checkpoint_results x →
  dget by_name (saved x r).1 = Some (ix r) ∧ _checkpoint_results x !! ix r = Some r.
Proof.
  intros Hr. apply list_elem_of_lookup in Hr as [k Hk].
  assert (dget by_name (saved x r).1 = Some k) as E.
  { apply by_name_lookup; [apply saved_nodup|].
    change (map (saved x) ?l) with (saved x <$> l). by rewrite !list_lookup_fmap, Hk. }
  unfold ix, posn. by rewrite E.
Qed.

Lemma ix_inj r r' : r ∈ _checkpoint_results x → r' ∈ _checkpoint_results x → ix r = ix r' → r = r'.
Proof.
  intros [_ H]%by_name_ix [_ H']%by_name_ix E. rewrite E in H. congruence.
Qed.

Lemma results_seq : seq 0 (length (_checkpoint_results x)) = map ix (_checkpoint_results x).
Proof.
  apply list_eq. intros k. change (map ix ?l) with (ix <$> l). rewrite list_lookup_fmap.
  destruct (_checkpoint_results x !! k) as [r|] eqn:E; simpl.
  - rewrite lookup_seq_lt by by eapply lookup_lt_Some. simpl. f_equal.
    destruct (by_name_ix r) as [_ H]; [by eapply list_elem_of_lookup_2|].
    eapply NoDup_lookup; [apply (wf_nodup x Hx)|done|done].
  - apply lookup_ge_None in E. by apply lookup_seq_ge.
Qed.

Lemma loaded_heap r : r ∈ _checkpoint_results x → heap loaded !! ix r = Some (reloaded r).
Proof.
  intros [_ H]%by_name_ix. simpl. change (map reloaded ?l) with (reloaded <$> l).
  by rewrite list_lookup_fmap, H.
Qed.

Lemma loaded_ckpt r c : r ∈ _checkpoint_results x → ckpt x r = Some c →
  ckpt loaded (ix r) = Some (relabel c) ∧ checkpoint (reloaded r) = relabel c ∧
  relabel c = {| uuid := uuid4 (ix r); path := path c |}.
Proof.
  intros Hr Hc. unfold ckpt. rewrite loaded_heap by done. unfold reloaded, ckpt in *. simpl.
  destruct (live_spec r Hr) as (tr & Ht & _ & Hs & _). rewrite Ht in *. injection Hc as <-.
  split_and!; [done|done|]. unfold relabel, ix. by rewrite Hs.
Qed.

(** The checkpoint of a live result. *)
Definition live c : Prop := ∃ r, r ∈ _checkpoint_results x ∧ ckpt x r = Some c.

Lemma relabel_inj c d : live c → live d → relabel c = relabel d → c = d.
Proof.
  intros (r & Hr & Hc) (r' & Hr' & Hd) E.
  destruct (loaded_ckpt r c Hr Hc) as (_ & _ & Ec), (loaded_ckpt r' d Hr' Hd) as (_ & _ & Ed).
  rewrite Ec, Ed in E. injection E as Eu _. apply (inj uuid4), ix_inj in Eu; [|done..].
  congruence.
Qed.

Lemma loaded_name c : name_of loaded (relabel c) = name_of x c.
Proof. done. Qed.
(** ** The loaded manager is well-formed *)

Lemma loaded_index r : r ∈ _checkpoint_results x →
  dget (_checkpoint_to_report_index loaded) (checkpoint (reloaded r)) = Some (report_index x r) ∧
  report_index loaded (ix r) = report_index x r.
Proof.
  intros Hr.
  assert (dget (_checkpoint_to_report_index loaded) (checkpoint (reloaded r))
    = Some (report_index x r)) as E.
  { simpl. apply dget_wf_elem; [apply dict_of_wf|]. rewrite dict_of_NoDup.
    - apply list_elem_of_fmap. by exists r.
    - change (map ?f ?l) with (f <$> l). rewrite <-list_fmap_compose. simpl.
      apply NoDup_fmap_2_strong; [|apply (wf_nodup x Hx)]. intros q q' Hq Hq' E. simpl in E.
      destruct (wf_live x Hx q Hq) as (c & Hc & _), (wf_live x Hx q' Hq') as (c' & Hc' & _).
      destruct (loaded_ckpt q c Hq Hc) as (_ & Hqc & _), (loaded_ckpt q' c' Hq' Hc') as (_ & Hqc' & _).
      rewrite Hqc, Hqc' in E. apply relabel_inj in E; [subst c'|by exists q|by exists q'].
      by apply (wf_distinct x Hx q q' c c). }
  split; [exact E|]. unfold report_index at 1. rewrite loaded_heap by done.
  by rewrite E.
Qed.

Lemma loaded_score r : r ∈ _checkpoint_results x → score_of loaded (ix r) = score_of x r.
Proof.
  intros Hr. unfold score_of, deref. rewrite loaded_heap by done. unfold reloaded.
  destruct (live_spec r Hr) as (tr & -> & _). done.
Qed.

Lemma sorted_map_ix l : sorted_results x l → (∀ r, r ∈ l → r ∈ _checkpoint_results x) →
  sorted_results loaded (map ix l).
Proof.
  unfold sorted_results. induction 1 as [|r l Hl IH Hr]; intros Hin; [constructor|].
  assert (∀ q, q ∈ l → q ∈ _checkpoint_results x) as Hin' by (intros q Hq; apply Hin; by right).
  assert (r ∈ _checkpoint_results x) as Hrx by (apply Hin; by left).
  simpl. constructor; [by apply IH|].
  rewrite Forall_forall in *. intros q (r' & -> & Hr')%list_elem_of_fmap.
  specialize (Hr r' Hr'). unfold before_ok, kscore in *. apply Hin' in Hr'.
  destruct (loaded_index r Hrx) as [_ ->], (loaded_index r' Hr') as [_ ->].
  by rewrite !loaded_score by done.
Qed.

Lemma loaded_sorted : sorted_results loaded (map ix (_checkpoint_results x)).
Proof. by apply sorted_map_ix; [apply (wf_sorted x Hx)|]. Qed.

Lemma pending_live c r sp : (c, (r, sp)) ∈ _pending_training_results x →
  r ∈ _checkpoint_results x ∧ ckpt x r = Some c.
Proof. intros H. apply (wf_pending_in x Hx c r sp), dget_wf_elem; [apply (wf_pending x Hx)|done]. Qed.

Lemma loaded_pending_wf : dwf (_pending_training_results loaded).
Proof.
  unfold dwf. simpl. change (map ?f ?l) with (f <$> l). rewrite <-list_fmap_compose.
  pose proof (wf_pending x Hx) as Hnd. unfold dwf in Hnd.
  replace (fst ∘ (λ p : Checkpoint * (nat * Spec), (relabel p.1, (ix p.2.1, p.2.2))))
    with (relabel ∘ @fst Checkpoint (nat * Spec)) by done.
  rewrite list_fmap_compose. apply NoDup_fmap_2_strong; [|done].
  intros c d ([c' [r sp]] & -> & Hc)%list_elem_of_fmap ([d' [r' sp']] & -> & Hd)%list_elem_of_fmap.
  apply relabel_inj; [exists r; by apply pending_live in Hc|exists r'; by apply pending_live in Hd].
Qed.

Lemma loaded_status_elem c : has_status loaded c → ∃ d, c = relabel d ∧ has_status x d.
Proof.
  unfold has_status. simpl. rewrite !list_elem_of_fmap.
  intros [(d & -> & Hd)|[(d & -> & Hd)|(d & -> & Hd)]]; exists d; auto.
Qed.

Lemma relabel_nodup l : NoDup l → (∀ c, c ∈ l → live c) → NoDup (map relabel l).
Proof.
  intros Hl Hin. apply NoDup_fmap_2_strong; [|done]. intros c d Hc Hd.
  apply relabel_inj; by apply Hin.
Qed.

Lemma status_live c : has_status x c → live c.
Proof. apply (wf_status x Hx). Qed.

Lemma loaded_wf : wf loaded.
Proof.
  assert (∀ q, q ∈ map ix (_checkpoint_results x) ↔ ∃ r, q = ix r ∧ r ∈ _checkpoint_results x)
    as Hq by (intros; apply list_elem_of_fmap).
  split.
  - apply (wf_keep x Hx).
  - apply NoDup_fmap_2_strong; [intros; by apply ix_inj|apply (wf_nodup x Hx)].
  - intros q (r & -> & Hr)%Hq. destruct (wf_live x Hx r Hr) as (c & Hc & Hu & _).
    destruct (loaded_ckpt r c Hr Hc) as (Hl & Hrc & _). exists (relabel c).
    split_and!; [done|exact Hu|]. rewrite <-Hrc. destruct (loaded_index r Hr) as [E _].
    by rewrite E.
  - intros q q' d d' (r & -> & Hr)%Hq (r' & -> & Hr')%Hq Hd Hd' E.
    destruct (wf_live x Hx r Hr) as (c & Hc & _), (wf_live x Hx r' Hr') as (c' & Hc' & _).
    destruct (loaded_ckpt r c Hr Hc) as (Hl & _), (loaded_ckpt r' c' Hr' Hc') as (Hl' & _).
    simplify_eq. f_equal. by apply (wf_distinct x Hx r r' c c').
  - apply dict_of_wf.
  - intros c n Hn. apply dget_elem, dict_of_elem, list_elem_of_fmap in Hn as (r & [= -> ->] & Hr).
    destruct (wf_live x Hx r Hr) as (d & Hd & _ & [n Hn]). unfold report_index, ckpt in *.
    destruct (heap x !! r) as [tr|]; [|done]. injection Hd as ->. rewrite Hn. simpl.
    by apply (wf_index_lt x Hx d).
  - intros q (r & -> & Hr)%Hq. unfold scorable. rewrite loaded_score by done.
    apply (wf_score x Hx r Hr).
  - apply loaded_sorted.
  - intros q Hl. simpl in Hl. apply fmap_Some in Hl as (r & Hl & ->). apply Hq. exists r.
    split; [done|]. by apply (wf_latest x Hx).
  - apply loaded_pending_wf.
  - intros c q sp Hp. apply dget_elem in Hp. simpl in Hp.
    apply list_elem_of_fmap in Hp as ([d [r sp']] & [= -> -> ->] & Hp). apply pending_live in Hp as [Hr Hd].
    split; [apply Hq; by exists r|]. by apply loaded_ckpt.
  - intros c (d & -> & Hd)%loaded_status_elem. destruct (wf_status x Hx d Hd) as (r & Hr & Hrc).
    exists (ix r). split; [apply Hq; by exists r|]. by apply loaded_ckpt.
  - intros c v Hp (d & -> & Hd)%loaded_status_elem. apply dget_elem in Hp. simpl in Hp.
    apply list_elem_of_fmap in Hp as ([e [r sp]] & E & Hp).
    apply (f_equal fst) in E. change (relabel d = relabel e) in E.
    apply relabel_inj in E; [subst e|by apply status_live|exists r; by apply pending_live in Hp].
    apply (wf_disjoint x Hx d (r, sp)); [|done]. apply dget_wf_elem; [apply (wf_pending x Hx)|done].
  - destruct (wf_sets x Hx) as (? & ? & ?). split_and!; apply relabel_nodup; try done;
      intros c Hc; apply status_live; unfold has_status; auto.
Qed.

(** Saving it again writes the same snapshot. *)
Lemma loaded_saved r : r ∈ _checkpoint_results x → saved loaded (ix r) = saved x r.
Proof.
  intros Hr. unfold saved. rewrite loaded_heap by done. unfold reloaded.
  destruct (live_spec r Hr) as (tr & -> & _). done.
Qed.

Lemma snapshot_loaded : snapshot_of loaded = snapshot_of x.
Proof.
  unfold snapshot_of. simpl. rewrite !map_map. f_equal.
  - apply map_ext_in. intros r Hr%list_elem_of_In. by apply loaded_saved.
  - apply map_ext_in. intros r Hr%list_elem_of_In. by apply loaded_index.
  - destruct (_latest_checkpoint_result x) as [r|] eqn:E; [|done]. simpl. f_equal.
    apply loaded_saved. by apply (wf_latest x Hx).
  - apply map_ext_in. intros [c [r sp]] Hp%list_elem_of_In. simpl.
    apply loaded_saved. by apply pending_live in Hp as [? _].
Qed.
(** ** Loading gives it *)

Lemma load_results_eq k ss : load_results uuid4 (_experiment_fs_path x) k ss =
  imap (λ i s, {| checkpoint := {| uuid := uuid4 (k + i)%nat;
    path := StorageContext.build (_experiment_fs_path x) s.1 |}; result_metrics := s.2 |}) ss.
Proof.
  revert k. induction ss as [|[d ms] ss IH]; intros k; [done|]. cbn [load_results imap].
  rewrite Nat.add_0_r, IH. f_equal. apply imap_ext. intros i s _. simpl. do 3 f_equal. lia.
Qed.

Lemma load_results_ok :
  load_results uuid4 (_experiment_fs_path x) 0 (map (saved x) (_checkpoint_results x)) =
    map reloaded (_checkpoint_results x).
Proof.
  rewrite load_results_eq. apply list_eq. intros k.
  change (map ?f ?l) with (f <$> l). rewrite list_lookup_imap, !list_lookup_fmap.
  destruct (_checkpoint_results x !! k) as [r|] eqn:E; [|done]. simpl. f_equal.
  apply list_elem_of_lookup_2 in E as Hr. destruct (live_spec r Hr) as (tr & Ht & Hu & Hs & _).
  assert (ix r = k) as Hk.
  { destruct (by_name_ix r Hr) as [_ H]. eapply NoDup_lookup; [apply (wf_nodup x Hx)|done|done]. }
  unfold reloaded. rewrite Ht. unfold relabel, ix in *. rewrite Hs in *. simpl in *.
  rewrite Hk. by rewrite <-(proj2 (under_extract x _ Hu)).
Qed.

Definition dirs_hold (fs : Fs J) (y : t Spec) : Prop :=
  ∀ r c, r ∈ _checkpoint_results y → ckpt y r = Some c → path c ∈ dirs fs.

Lemma exist_ok fs : dirs_hold fs x → _assert_checkpoints_exist fs (map reloaded (_checkpoint_results x)) = Ok tt.
Proof.
  intros Hd. unfold _assert_checkpoints_exist.
  replace (forallb _ _) with true; [done|]. symmetry. apply forallb_forall.
  intros tr (r & <- & Hr%list_elem_of_In)%in_map_iff. apply bool_decide_eq_true_2.
  destruct (wf_live x Hx r Hr) as (c & Hc & _). destruct (loaded_ckpt r c Hr Hc) as (_ & -> & _).
  exact (Hd r c Hr Hc).
Qed.

Lemma fold_pending (k : (string * metrics) * Spec → Checkpoint) v l (d : dict Checkpoint (nat * Spec))
    (f : dict Checkpoint (nat * Spec) → _ → result (dict Checkpoint (nat * Spec))) :
  (∀ d p, p ∈ l → f d p = Ok (dset d (k p) (v p))) →
  result_fold f d l = Ok (dupdate d (map (λ p, (k p, v p)) l)).
Proof.
  revert d. induction l as [|p l IH]; intros d Hf; [done|]. simpl.
  rewrite Hf by by left. simpl. apply IH. intros e q Hq. apply Hf. by right.
Qed.

Lemma known_ok (y : t Spec) (cs : list Checkpoint) :
  heap y = map reloaded (_checkpoint_results x) → NoDup cs → (∀ c, c ∈ cs → live c) →
  known_checkpoints y by_name (map (name_of x) cs) = map relabel cs.
Proof.
  intros Hh Hnd Hin. unfold known_checkpoints. set (f := λ (acc : list Checkpoint) name, _).
  assert (∀ acc : list Checkpoint, NoDup (acc ++ map relabel cs) →
    foldl f acc (map (name_of x) cs) = acc ++ map relabel cs) as H.
  { clear Hnd. induction cs as [|c cs IH]; intros acc Hacc; [by rewrite app_nil_r|].
    cbn [map foldl] in *.
    assert (f acc (name_of x c) = acc ++ [relabel c]) as ->.
    { destruct (Hin c ltac:(by left)) as (r & Hr & Hc).
      destruct (by_name_ix r Hr) as [Hb _]. destruct (live_spec r Hr) as (tr & Ht & _ & Hs & _).
      destruct (loaded_ckpt r c Hr Hc) as (_ & Hrc & _).
      assert (checkpoint tr = c) as Ec by (unfold ckpt in Hc; rewrite Ht in Hc; by injection Hc).
      rewrite Hs, Ec in Hb. simpl in Hb. unfold f. rewrite Hb. simpl.
      rewrite Hh, (loaded_heap r Hr : map reloaded _ !! _ = _), Hrc.
      unfold set_add. rewrite bool_decide_eq_false_2; [done|].
      intros Hca. apply NoDup_app in Hacc as (_ & Hd & _). apply (Hd _ Hca). by left. }
    etrans; [apply IH; [intros e He; apply Hin; by right|]|]; by rewrite <-app_assoc. }
  apply H. by apply relabel_nodup.
Qed.

Lemma deref_loaded (y : t Spec) r : heap y = map reloaded (_checkpoint_results x) →
  r ∈ _checkpoint_results x → deref y (ix r) = Ok (reloaded r).
Proof.
  intros Hh Hr. unfold deref. rewrite Hh. by rewrite (loaded_heap r Hr : map reloaded _ !! _ = _).
Qed.

Lemma pending_ok (y : t Spec) : heap y = map reloaded (_checkpoint_results x) →
  result_fold (λ d p,
      r ← or_raise KeyError (dget by_name p.1.1);
      tr ← deref y r;
      Ok (dset d (checkpoint tr) (r, p.2))) []
    (zip (map (λ p, saved x p.2.1) (_pending_training_results x))
       (map (λ p, p.2.2) (_pending_training_results x))) =
  Ok (_pending_training_results loaded).
Proof.
  intros Hh. rewrite <-(dict_of_NoDup _ loaded_pending_wf). unfold dict_of, loaded.
  cbn [_pending_training_results].
  assert (∀ p, p ∈ _pending_training_results x → p ∈ _pending_training_results x) as Hin by done.
  revert Hin. generalize (_pending_training_results x) at 1 3 4 5 as l.
  generalize (@nil (Checkpoint * (nat * Spec))) as d. intros d l. revert d.
  induction l as [|[c [r sp]] l IH]; intros d Hin; [done|]. cbn [map zip zip_with result_fold].
  destruct (pending_live c r sp) as [Hr Hc]; [apply Hin; by left|].
  destruct (by_name_ix r Hr) as [Hb _]. destruct (loaded_ckpt r c Hr Hc) as (_ & Hrc & _).
  cbn [fst snd]. rewrite Hb. cbn [or_raise mbind result_bind].
  rewrite deref_loaded by done. cbn [mbind result_bind]. rewrite Hrc. rewrite IH; [done|]. intros q Hq. apply Hin. by right.
Qed.

(** The state that [__init__] starts loading into. *)
Lemma load_ok `{!SnapshotCodecLaws Spec J} fs x0 : dirs_hold fs x →
  _checkpoint_config x0 = _checkpoint_config x → _experiment_fs_path x0 = _experiment_fs_path x →
  _load_state uuid4 fs (to_json (snapshot_of x)) x0 = Ok loaded.
Proof.
  intros Hd Hc He. unfold _load_state. rewrite of_to_json. cbn [or_raise mbind result_bind].
  rewrite He. cbn [checkpoint_results snapshot_of]. rewrite load_results_ok, (exist_ok fs Hd).
  cbn [or_raise mbind result_bind].
  apply (bind_step _ _ tt); [by rewrite bool_decide_eq_true_2 by (simpl; by rewrite !length_map)|].
  fold by_name.
  apply (bind_step _ _ (ix <$> _latest_checkpoint_result x)).
  { cbn [latest_checkpoint_result snapshot_of].
    destruct (_latest_checkpoint_result x) as [r|] eqn:E; [|done]. simpl.
    by destruct (by_name_ix r (wf_latest x Hx r E)) as [-> _]. }
  cbn [pending_training_results pending_validation_specs snapshot_of].
  apply (bind_step _ _ tt); [by rewrite bool_decide_eq_true_2 by (simpl; by rewrite !length_map)|].
  apply (bind_step _ _ (_pending_training_results loaded)); [by apply pending_ok|].
  destruct (wf_sets x Hx) as (Hn1 & Hn2 & Hn3).
  cbn [validated_checkpoint_dir_names timed_out_validation_checkpoint_dir_names
    failed_validation_checkpoint_dir_names snapshot_of].
  rewrite !known_ok by (done || (intros c Hcs; apply status_live; unfold has_status; auto)).
  f_equal. unfold loaded, set_indices, set_validation, set_results. cbn. rewrite Hc, He.
  rewrite length_map, results_seq, map_map. by rewrite zip_map.
Qed.
End load.
