(* ===== verification/CheckpointProps.v ===== *)
(** * The checkpoint manager: retention, validation, crashes, reloading *)
From S2P Require Import Prelude PyDict PyFloat Checkpoints CheckpointOrder CheckpointFacts CheckpointUpdate CheckpointLoad.
Import CheckpointManager.

Section props.
Context {Spec J : Type} `{!SnapshotCodec Spec J}.
Implicit Types (x y z w : t Spec) (r : nat) (c : Checkpoint) (fs : Fs J).

(** ** Facts the properties share *)

Lemma pruned_elem w r : r ∈ filter (λ r, r ∉ results_to_delete w) (_checkpoint_results w) ↔
  r ∈ _checkpoint_results w ∧ r ∉ results_to_delete w.
Proof. rewrite list_elem_of_filter. tauto. Qed.

(** The saved state a manager can be created from, with its directories. *)
Definition recoverable fs x : Prop :=
  wf x ∧ snapshot fs = Some (to_json (snapshot_of x)) ∧ dirs_hold fs x.

Lemma create_ok `{!SnapshotCodecLaws Spec J} uuid4 `{!Inj (=) (=) uuid4} fs x : recoverable fs x →
  create uuid4 (_checkpoint_config x) (_experiment_fs_path x) fs = Ok (loaded uuid4 x).
Proof.
  intros (Hx & Hs & Hd). unfold create, init.
  assert (match num_to_keep (_checkpoint_config x) with Some k => k <=? 0 | None => false end = false)
    as ->.
  { destruct (num_to_keep _) as [k|] eqn:E; [|done]. apply Z.leb_gt, (wf_keep x Hx k E). }
  cbn [mbind result_bind]. rewrite Hs. by apply load_ok.
Qed.

Lemma crashed_deletes ps (g g' : Fs J) : crashed g (map DeletePath ps) g' →
  snapshot g' = snapshot g ∧ ∀ d, d ∈ dirs g → d ∉ ps → d ∈ dirs g'.
Proof.
  revert g. induction ps as [|p ps IH]; intros g H; inversion H; subst; clear H; try done.
  - destruct (IH _ H4) as [E Hd]. split; [done|]. intros d Hin Hp. apply Hd; [|set_solver]. apply list_elem_of_filter. set_solver.
  - destruct (IH _ H4) as [E Hd]. split; [done|]. intros d Hin Hp. apply Hd; set_solver.
Qed.

Lemma all_crashed (acts : list (fs_action J)) fs : crashed fs acts (foldl fs_apply fs acts).
Proof. revert fs. induction acts as [|a acts IH]; intros fs; [apply crash_now|]. apply crash_later, IH. Qed.

(** What a crash leaves while a text is saved: all as before, a part of the
    text and all directories, or the whole text. *)
Lemma crashed_save fs (j : list J) ps fs' : crashed fs (OpenSnapshot :: WriteSnapshot j :: map DeletePath ps) fs' →
  fs' = fs ∨ (∃ p, p `prefix_of` j ∧ p ≠ j ∧ fs' = Build_Fs (dirs fs) (Some p)) ∨
  (snapshot fs' = Some j ∧ ∀ d, d ∈ dirs fs → d ∉ ps → d ∈ dirs fs').
Proof.
  assert (∀ p, p `prefix_of` j → (∃ p', p' `prefix_of` j ∧ p' ≠ j ∧ Build_Fs (dirs fs) (Some p) = Build_Fs (dirs fs) (Some p')) ∨
    (snapshot (Build_Fs (dirs fs) (Some p)) = Some j ∧ ∀ d, d ∈ dirs fs → d ∉ ps → d ∈ dirs fs)) as Hpart.
  { intros p Hp. destruct (decide (length p = length j)) as [Hl|Hl].
    - right. split; [|done]. cbn. f_equal. destruct Hp as [k ->]. rewrite length_app in Hl.
      destruct k; [by rewrite app_nil_r|cbn in Hl; lia].
    - left. exists p. split; [done|]. split; [by intros ->|done]. }
  intros H. inversion H; subst; clear H; [by left|]. right. inversion H4; subst; clear H4.
  - apply Hpart, prefix_nil.
  - cbn. by apply Hpart.
  - right. apply crashed_deletes in H3. cbn in H3. exact H3.
Qed.
(** What saving [w], and deleting what need not be kept, leaves alone. *)
Definition saved_as w y : Prop :=
  heap y = heap w ∧ _checkpoint_config y = _checkpoint_config w ∧
  _latest_checkpoint_result y = _latest_checkpoint_result w ∧
  _pending_training_results y = _pending_training_results w ∧
  _current_report_index y = _current_report_index w.

(** The results after a save, of a manager that keeps [k] of them. *)
Definition retained w r : Prop :=
  match num_to_keep (_checkpoint_config w) with
  | None => True
  | Some k =>
      r ∈ drop (length (_checkpoint_results w) - Z.to_nat k) (_checkpoint_results w) ∨
      _latest_checkpoint_result w = Some r ∨
      r ∈ map (λ p, p.2.1) (_pending_training_results w)
  end.

Lemma retained_iff w r : wf w →
  let y := forgot (deleted_checkpoints w) (pruned w) in
  r ∈ _checkpoint_results y ↔ r ∈ _checkpoint_results w ∧ retained w r.
Proof.
  intros Hw y. rewrite (pruned_elem w r : r ∈ _checkpoint_results y ↔ _).
  split; intros [Hr Hk]; (split; [done|]); by apply (kept_iff w r Hw Hr).
Qed.

Lemma deleted_paths w p : wf w →
  p ∈ map path (deleted_checkpoints w) ↔
  ∃ r c, r ∈ _checkpoint_results w ∧ ¬ retained w r ∧ ckpt w r = Some c ∧ p = path c.
Proof.
  intros Hw. rewrite list_elem_of_fmap. split.
  - intros (c & -> & (r & Hd & Hc)%(deleted_elem w c Hw)).
    destruct (to_delete_in w r Hd) as [Hr _]. exists r, c. split_and!; [done| |done|done].
    intros Hk. by apply (kept_iff w r Hw Hr) in Hk.
  - intros (r & c & Hr & Hk & Hc & ->). exists c. split; [done|].
    apply deleted_elem; [done|]. exists r. split; [|done].
    destruct (decide (r ∈ results_to_delete w)) as [|Hn]; [done|].
    destruct Hk. by apply (kept_iff w r Hw Hr).
Qed.

Lemma discard_keep cs l d : d ∉ cs →
  bool_decide (d ∈ foldl set_discard l cs) = bool_decide (d ∈ l).
Proof. intros Hd. apply bool_decide_ext. rewrite discard_elem. tauto. Qed.

Lemma status_forgot cs w d : d ∉ cs →
  _get_checkpoint_status (forgot cs (pruned w)) d = _get_checkpoint_status w d.
Proof. intros Hd. unfold _get_checkpoint_status. simpl. by rewrite !discard_keep. Qed.

(** ** Retention *)

(** C20: Registering a reported checkpoint never fails on a well-formed manager
    (given a fresh directory and metrics that can be scored), keeps it
    well-formed and makes the new result the latest.  The results become a
    list sorted by score, equal scores by report order, of the old results
    and the new one, without those that are neither among the [num_to_keep]
    best, nor the latest, nor pending validation; so there are at most
    [num_to_keep] + 1 + the number pending.  The snapshot is written before
    any directory is deleted, and exactly the directories of the results
    dropped are deleted. *)
Theorem register_checkpoint_retains c ms v x :
  wf x → fresh_checkpoint x c → metrics_ok (_checkpoint_config x) ms →
  ∃ y j paths w, register_checkpoint c ms v x = Ok (y, OpenSnapshot :: WriteSnapshot j :: map DeletePath paths) ∧
    wf y ∧ _save_state y = Ok j ∧ saved_as w y ∧
    _checkpoint_config w = _checkpoint_config x ∧
    _latest_checkpoint_result w = Some (length (heap x)) ∧
    heap w = heap x ++ [{| checkpoint := c; result_metrics := ms |}] ∧
    _current_report_index w = _current_report_index x + 1 ∧
    _checkpoint_to_report_index w =
      dset (_checkpoint_to_report_index x) c (_current_report_index x) ∧
    _pending_training_results w = (if v is Some spec
      then dset (_pending_training_results x) c (length (heap x), spec)
      else _pending_training_results x) ∧
    _checkpoint_results w ≡ₚ length (heap x) :: _checkpoint_results x ∧
    sorted_results w (_checkpoint_results w) ∧
    (∀ r, r ∈ _checkpoint_results y ↔ r ∈ _checkpoint_results w ∧ retained w r) ∧
    (∀ k, num_to_keep (_checkpoint_config x) = Some k →
       (length (_checkpoint_results y) ≤ Z.to_nat k + 1 + length (_pending_training_results y))%nat) ∧
    (∀ p, p ∈ paths ↔
       ∃ r d, r ∈ _checkpoint_results w ∧ ¬ retained w r ∧ ckpt w r = Some d ∧ p = path d).
Proof.
  intros Hx Hf Hm. destruct (register_ok c ms v x Hx Hf Hm) as (rs & Hw & Hp & Hreg).
  set (w := registered (length (heap x)) c v rs (add_result c ms x)) in *.
  pose proof (pruned_wf w Hw) as Hy.
  eexists _, _, _, w. split; [exact Hreg|].
  split; [exact Hy|]. split; [by apply save_state_ok|].
  split; [done|]. do 7 (split; [subst w; by destruct v|]).
  split; [apply (wf_sorted w Hw)|]. split; [intros r; by apply retained_iff|].
  split; [|intros p; by apply deleted_paths].
  intros k Hk. apply (kept_bound w); [done|]. subst w. by destruct v.
Qed.

(** ** Validation results *)

(** Applying a batch of validation results never fails on a well-formed
    manager (given terminal statuses, and metrics that can be scored for what
    was validated) and keeps it well-formed.  The checkpoints of the batch are
    no longer pending; those that were pending have the reported status and,
    if validated, the merged metrics, while every other checkpoint keeps both.
    The latest result is kept, the results are sorted again by their new
    scores, and a result is dropped only when it is then neither among the
    best, nor the latest, nor still pending. *)
Theorem validation_results_applied us x :
  wf x → dwf us → (∀ u, u ∈ us → update_ok u x) →
  ∃ y j paths w, update_checkpoints_with_validation_result us x =
      Ok (y, OpenSnapshot :: WriteSnapshot j :: map DeletePath paths) ∧
    wf y ∧ _save_state y = Ok j ∧ saved_as w y ∧
    _checkpoint_config w = _checkpoint_config x ∧
    _latest_checkpoint_result w = _latest_checkpoint_result x ∧
    _checkpoint_to_report_index w = _checkpoint_to_report_index x ∧
    (∀ q tr, heap x !! q = Some tr → heap w !! q = Some (merged us x q tr)) ∧
    (∀ d, dget (_pending_training_results w) d =
       if dmem us d then None else dget (_pending_training_results x) d) ∧
    (∀ r d, r ∈ _checkpoint_results y → ckpt y r = Some d →
       _get_checkpoint_status y d = status_after us x d) ∧
    _checkpoint_results w ≡ₚ _checkpoint_results x ∧
    sorted_results w (_checkpoint_results w) ∧
    (∀ r, r ∈ _checkpoint_results y ↔ r ∈ _checkpoint_results w ∧ retained w r).
Proof.
  intros Hx Hus Hok. destruct (updates_ok us x Hx Hus Hok) as (w & Hw & Hwf & He).
  destruct (save_and_delete_ok w Hwf) as [Hs Hy].
  eexists _, _, _, w. split.
  { unfold update_checkpoints_with_validation_result. rewrite Hw. exact Hs. }
  split; [exact Hy|]. split; [by apply save_state_ok|]. destruct He.
  do 6 (split; [done|]). split.
  - intros r d [Hr Hk]%pruned_elem Hrd. rewrite <-ue_status.
    destruct (kept_not_deleted w r d Hwf Hr Hk Hrd) as [Hnd _].
    by apply status_forgot.
  - split; [done|]. split; [apply (wf_sorted w Hwf)|]. intros r. by apply retained_iff.
Qed.
(** ** Crashes *)

(** What the manager created from a storage holds is what was last saved. *)
Definition loads uuid4 fs x : Prop :=
  ∃ z, create uuid4 (_checkpoint_config x) (_experiment_fs_path x) fs = Ok z ∧ wf z ∧ _save_state z = _save_state x.

Lemma recoverable_loads `{!SnapshotCodecLaws Spec J} uuid4 `{!Inj (=) (=) uuid4} fs x : recoverable fs x → loads uuid4 fs x.
Proof.
  intros Hr. exists (loaded uuid4 x). split; [by apply create_ok|]. destruct Hr as (Hx & _ & _).
  assert (wf (loaded uuid4 x)) as Hl by by apply loaded_wf. split; [done|].
  rewrite save_state_ok, snapshot_loaded by done. by rewrite <-save_state_ok.
Qed.

(** A snapshot that breaks off: no manager is created from it. *)
Lemma torn_refused `{!SnapshotCodecLaws Spec J} uuid4 x y p ds : wf x → p `prefix_of` to_json (snapshot_of y) → p ≠ to_json (snapshot_of y) →
  create uuid4 (_checkpoint_config x) (_experiment_fs_path x) (Build_Fs ds (Some p)) = Raise CheckpointManagerInitializationError.
Proof.
  intros Hx Hp Hne. unfold create, init.
  assert (match num_to_keep (_checkpoint_config x) with Some k => k <=? 0 | None => false end = false) as ->.
  { destruct (num_to_keep _) as [k|] eqn:E; [|done]. apply Z.leb_gt, (wf_keep x Hx k E). }
  cbn [mbind result_bind snapshot]. unfold _load_state. by rewrite (of_torn (snapshot_of y)).
Qed.

(** The directories of the results, the new one's too, once it is added. *)
Lemma registered_dirs c ms v x fs rs : wf x → fresh_checkpoint x c → dirs_hold fs x → path c ∈ dirs fs →
  rs ≡ₚ length (heap x) :: _checkpoint_results x →
  dirs_hold fs (registered (length (heap x)) c v rs (add_result c ms x)).
Proof.
  intros Hx Hf Hd Hpc Hp r d Hr Hrd. destruct (ckpt_added c ms x Hx Hf) as [Hnew Hold].
  assert (r ∈ rs) as Hr' by by destruct v. assert (ckpt (add_result c ms x) r = Some d) as Hrd' by by destruct v.
  rewrite Hp in Hr'. apply elem_of_cons in Hr' as [->|Hr'].
  - rewrite Hnew in Hrd'. by injection Hrd' as <-.
  - apply (Hd r d Hr'). by rewrite <-Hold.
Qed.

(** C10: What a crash leaves while a checkpoint is being registered, at any
    moment and whatever deletions fail.  Either nothing is written yet, and a
    new manager created from the storage loads what was saved before; or the
    snapshot is written in full, and it loads exactly the new state, whatever
    old directories are deleted; or the snapshot's file, which is emptied
    before it is written, holds only a part of the text: then no directory is
    deleted yet, but a new manager raises
    [CheckpointManagerInitializationError].  After all of the operations the
    storage again holds a recoverable state. *)
Theorem register_checkpoint_crash_safe `{!SnapshotCodecLaws Spec J} uuid4 c ms v x x0 fs :
  Inj (=) (=) uuid4 →
  wf x → fresh_checkpoint x c → metrics_ok (_checkpoint_config x) ms →
  dirs_hold fs x → path c ∈ dirs fs → recoverable fs x0 →
  _checkpoint_config x0 = _checkpoint_config x → _experiment_fs_path x0 = _experiment_fs_path x →
  ∃ y acts, register_checkpoint c ms v x = Ok (y, acts) ∧
    _checkpoint_config y = _checkpoint_config x ∧ _experiment_fs_path y = _experiment_fs_path x ∧
    recoverable (foldl fs_apply fs acts) y ∧
    ∀ fs', crashed fs acts fs' →
      (fs' = fs ∧ loads uuid4 fs' x0) ∨
      (∃ j p, _save_state y = Ok j ∧ p `prefix_of` j ∧ p ≠ j ∧ fs' = Build_Fs (dirs fs) (Some p) ∧
         create uuid4 (_checkpoint_config x) (_experiment_fs_path x) fs' = Raise CheckpointManagerInitializationError) ∨
      (loads uuid4 fs' y ∧ dirs_hold fs' y).
Proof.
  intros Hinj Hx Hf Hm Hd Hpc Hr0 Hc He.
  destruct (register_ok c ms v x Hx Hf Hm) as (rs & Hw & Hp & Hreg).
  set (w := registered (length (heap x)) c v rs (add_result c ms x)) in *.
  pose proof (registered_dirs c ms v x fs rs Hx Hf Hd Hpc Hp : dirs_hold fs w) as Hdw. pose proof (pruned_wf w Hw) as Hy.
  set (y := forgot (deleted_checkpoints w) (pruned w)) in *.
  assert (∀ fs', snapshot fs' = Some (to_json (snapshot_of y)) →
    (∀ d, d ∈ dirs fs → d ∉ map path (deleted_checkpoints w) → d ∈ dirs fs') → recoverable fs' y) as Hrec.
  { intros fs' Hs Hdirs. split; [done|]. split; [done|]. intros r d [Hrw Hdel]%pruned_elem Hrc.
    apply Hdirs; [by apply (Hdw r)|]. intros (e & E & Hin)%list_elem_of_fmap.
    destruct (kept_not_deleted w r d Hw Hrw Hdel Hrc) as [_ Hne]. by apply (Hne e). }
  exists y, (OpenSnapshot :: WriteSnapshot (to_json (snapshot_of y)) :: map DeletePath (map path (deleted_checkpoints w))).
  split; [exact Hreg|]. split; [subst y w; by destruct v|]. split; [subst y w; by destruct v|]. split.
  - cbn. destruct (crashed_deletes (map path (deleted_checkpoints w)) (Build_Fs (dirs fs) (Some (to_json (snapshot_of y)))) _ (all_crashed _ _)).
    by apply Hrec.
  - intros fs' [->|[(p & Hpre & Hne & ->)|[Hs Hdirs]]]%crashed_save.
    + left. split; [done|by apply recoverable_loads].
    + right. left. exists (to_json (snapshot_of y)), p. split; [by apply save_state_ok|]. split_and!; try done.
      by apply (torn_refused uuid4 x y).
    + right. right. pose proof (Hrec fs' Hs Hdirs) as Hr. split; [by apply recoverable_loads|apply Hr].
Qed.

(** ** Reloading *)

Lemma loaded_status uuid4 `{!Inj (=) (=) uuid4} x c : wf x → live x c →
  _get_checkpoint_status (loaded uuid4 x) (relabel uuid4 x c) = _get_checkpoint_status x c.
Proof.
  intros Hx Hc.
  assert (∀ l, (∀ d, d ∈ l → live x d) →
    bool_decide (relabel uuid4 x c ∈ map (relabel uuid4 x) l) = bool_decide (c ∈ l)) as Hl.
  { intros l Hl. apply bool_decide_ext. rewrite list_elem_of_fmap. split; [|by exists c].
    intros (d & E & Hd). apply relabel_inj in E; [by subst|done|done|done|by apply Hl]. }
  unfold _get_checkpoint_status. simpl.
  rewrite !Hl by (intros; apply status_live; [done|]; unfold has_status; auto).
  replace (dmem (map _ _) (relabel uuid4 x c)) with (dmem (_pending_training_results x) c); [done|].
  apply eq_true_iff_eq. rewrite !dmem_true, !list_elem_of_fmap. split.
  - intros (p & -> & Hp). eexists. split; [|by apply list_elem_of_fmap_2]. done.
  - intros (q & E & ([d [r sp]] & -> & Hd)%list_elem_of_fmap). exists (d, (r, sp)).
    split; [|done]. apply (relabel_inj uuid4 x Hx c d Hc); [|exact E].
    exists r. by apply (pending_live x Hx d r sp).
Qed.

(** What a user sees of the results: directory, metrics and status. *)
Definition report_view (e : Checkpoint * metrics * ReportedCheckpointStatus) :
    string * metrics * ReportedCheckpointStatus := (path e.1.1, e.1.2, e.2).

Lemma reported_loaded uuid4 `{!Inj (=) (=) uuid4} x l : wf x →
  (∀ r, r ∈ l → r ∈ _checkpoint_results x) →
  let report y := λ r, tr ← deref y r;
    Ok (checkpoint tr, result_metrics tr, _get_checkpoint_status y (checkpoint tr)) in
  ∃ lx ly, result_map (report x) l = Ok lx ∧
    result_map (report (loaded uuid4 x)) (map (ix x) l) = Ok ly ∧
    map report_view ly = map report_view lx.
Proof.
  intros Hx Hin report. induction l as [|r l IH]; [by exists [], []|].
  destruct IH as (lx & ly & IHx & IHy & E); [intros q Hq; apply Hin; by right|].
  assert (r ∈ _checkpoint_results x) as Hr by (apply Hin; by left).
  destruct (live_spec x Hx r Hr) as (tr & Ht & _).
  assert (ckpt x r = Some (checkpoint tr)) as Hc by (unfold ckpt; by rewrite Ht).
  destruct (loaded_ckpt uuid4 x Hx r _ Hr Hc) as (_ & Hrc & _).
  cbn [map result_map]. rewrite IHx, IHy. eexists _, _. split.
  { unfold report, deref. by rewrite Ht. }
  split; [unfold report, deref; by rewrite (loaded_heap uuid4 x Hx r Hr)|].
  cbn [map]. f_equal; [|exact E].
  unfold report_view. simpl. rewrite Hrc.
  rewrite (loaded_status uuid4 x _ Hx) by by exists r. unfold reloaded. by rewrite Ht.
Qed.

(** C35: Saving and loading is a round trip.  The manager created from a
    snapshot is well-formed, writes the same snapshot again, has the same
    report index, and reports the same checkpoints: the same directories in
    the same order, with the same metrics and validation statuses; workers
    restart from the same latest checkpoint.  Only the identities of the
    checkpoints are new. *)
Theorem save_load_roundtrip `{!SnapshotCodecLaws Spec J} uuid4 fs x :
  Inj (=) (=) uuid4 → recoverable fs x →
  ∃ y, create uuid4 (_checkpoint_config x) (_experiment_fs_path x) fs = Ok y ∧ wf y ∧
    _save_state y = _save_state x ∧
    (∃ lx ly, reported_checkpoints x = Ok lx ∧ reported_checkpoints y = Ok ly ∧
       map report_view ly = map report_view lx) ∧
    (∀ k, ∃ cx cy, before_init_train_context k x = Ok (cx, replicate k (_current_report_index x)) ∧
       before_init_train_context k y = Ok (cy, replicate k (_current_report_index x)) ∧
       map (fmap path) cy = map (fmap path) cx).
Proof.
  intros Hinj Hr. pose proof (create_ok uuid4 fs x Hr) as Hc. destruct Hr as (Hx & _ & _).
  exists (loaded uuid4 x). assert (wf (loaded uuid4 x)) as Hl by by apply loaded_wf.
  split; [done|]. split; [done|]. split_and!.
  - rewrite save_state_ok, snapshot_loaded by done. by rewrite <-save_state_ok.
  - apply (reported_loaded uuid4 x (_checkpoint_results x) Hx). auto.
  - intros k. unfold before_init_train_context. simpl.
    destruct (_latest_checkpoint_result x) as [r|] eqn:E; simpl.
    + pose proof (wf_latest x Hx r E) as Hrl. destruct (live_spec x Hx r Hrl) as (tr & Ht & _).
      assert (ckpt x r = Some (checkpoint tr)) as Hc' by (unfold ckpt; by rewrite Ht).
      destruct (loaded_ckpt uuid4 x Hx r _ Hrl Hc') as (_ & Hrc & _).
      unfold deref. rewrite Ht, (loaded_heap uuid4 x Hx r Hrl). simpl. eexists _, _.
      split; [done|]. split; [done|]. rewrite Hrc. change (map ?f ?l) with (f <$> l). by rewrite !fmap_replicate.
    + eexists _, _. done.
Qed.
Lemma init_wf cfg e x : init cfg e = Ok x → wf x.
Proof.
  unfold init. intros H. assert (∀ k, num_to_keep cfg = Some k → 0 < k) as Hk.
  { intros k E. rewrite E in H. destruct (k <=? 0) eqn:El; [done|]. by apply Z.leb_gt. }
  destruct (match num_to_keep cfg with Some k => k <=? 0 | None => false end); [done|].
  injection H as <-. split; simpl; try done; try constructor.
  all: try (by intros r ?%elem_of_nil).
  - intros c [H|[H|H]]; by apply elem_of_nil in H.
  - constructor.
  - split; constructor.
Qed.

Lemma register_wf c ms v x y acts : wf x → fresh_checkpoint x c →
  metrics_ok (_checkpoint_config x) ms → register_checkpoint c ms v x = Ok (y, acts) → wf y.
Proof.
  intros Hx Hf Hm. destruct (register_ok c ms v x Hx Hf Hm) as (rs & Hw & _ & ->).
  intros [= <- _]. by apply pruned_wf.
Qed.
End props.

(** ** A run with two checkpoints, the first pending validation *)
Module Run.
#[global] Instance identity_codec : SnapshotCodec nat (ManagerState nat) :=
  {| to_json s := [s]; of_json j := head j |}.
#[global] Instance identity_codec_laws : SnapshotCodecLaws nat (ManagerState nat).
Proof.
  split; [done|]. intros s p Hp Hne. destruct p as [|a p]; [done|]. destruct Hne. cbn in *.
  pose proof (prefix_length _ _ Hp) as Hl. destruct p; [|cbn in Hl; lia]. by apply prefix_cons_inv_1 in Hp as ->.
Qed.

Definition cfg : CheckpointConfig := {| num_to_keep := Some 1;
  checkpoint_score_attribute := Some "acc"; checkpoint_score_order := MAX |}.
Definition ck (n : Z) (p : string) : Checkpoint := {| uuid := n; path := "exp/" +:+ p |}.
Definition acc (n : Z) : metrics := [("acc", MInt n)].

Definition then_register (c : Checkpoint) (ms : metrics) (v : option nat)
    (m : result (t nat)) : result (t nat) :=
  x ← m; r ← register_checkpoint c ms v x; Ok r.1.

Definition started : result (t nat) :=
  then_register (ck 2 "b") (acc 5) None (then_register (ck 1 "a") (acc 3) (Some 7%nat) (init cfg "exp")).

Definition state : t nat :=
  match started with Ok x => x | Raise _ => Build_t cfg "" [] [] None 0 [] [] [] [] [] end.

Definition storage : Fs (ManagerState nat) :=
  Build_Fs ["exp/a"; "exp/b"; "exp/c"] (Some [snapshot_of state]).

Lemma metrics_fine n : metrics_ok cfg (acc n).
Proof.
  apply score_ok; [apply (bool_decide_unpack _); by vm_compute|].
  intros s. unfold scored_value. simpl. done.
Qed.

Lemma wf_then c ms v m y : (∀ x, m = Ok x → wf x ∧ fresh_checkpoint x c ∧
    metrics_ok (_checkpoint_config x) ms) → then_register c ms v m = Ok y → wf y.
Proof.
  unfold then_register. intros Hm H. inv_ok. destruct (Hm _ eq_refl) as (Hx & Hf & Hs).
  destruct r0 as [y acts]. by eapply register_wf.
Qed.

Lemma state_wf : wf state.
Proof.
  assert (started = Ok state) as H by by vm_compute. unfold started in H.
  apply wf_then in H; [done|]. intros x Hx. split_and!.
  - apply wf_then in Hx; [done|]. intros x' Hx'. split; [by eapply init_wf|].
    vm_compute in Hx'. injection Hx' as <-. split; [|apply metrics_fine].
    split; [by exists "a"|]. by intros r d ?%elem_of_nil.
  - vm_compute in Hx. injection Hx as <-. split; [by exists "b"|].
    intros r d Hr%list_elem_of_singleton. subst r. vm_compute. by intros [= <-].
  - vm_compute in Hx. injection Hx as <-. apply metrics_fine.
Qed.

Lemma results_state r : r ∈ _checkpoint_results state → r = 0%nat ∨ r = 1%nat.
Proof. vm_compute. set_solver. Qed.

Lemma fresh_c : fresh_checkpoint state (ck 3 "c").
Proof.
  split; [by exists "c"|]. intros r d [-> | ->]%results_state; vm_compute; by intros [= <-].
Qed.

Lemma storage_holds : dirs_hold storage state.
Proof.
  intros r d [-> | ->]%results_state; vm_compute; intros [= <-]; set_solver.
Qed.

Lemma storage_recoverable : recoverable storage state.
Proof. split; [apply state_wf|]. split; [done|]. apply storage_holds. Qed.
End Run.
Import Run.

Lemma register_checkpoint_retains_witness :
  ∃ y j paths (w : t nat), register_checkpoint (ck 3 "c") (acc 4) None state =
      Ok (y, OpenSnapshot :: WriteSnapshot j :: map DeletePath paths) ∧
    wf y ∧ ∀ r, r ∈ _checkpoint_results y ↔ r ∈ _checkpoint_results w ∧ retained w r.
Proof.
  destruct (register_checkpoint_retains (ck 3 "c") (acc 4) None state state_wf fresh_c
    (metrics_fine 4)) as (y & j & paths & w & H & Hy & _ & _ & _ & _ & _ & _ & _ & _ & _ & _ & Hr & _).
  exists y, j, paths, w. exact (conj H (conj Hy Hr)).
Defined.

Lemma validation_results_applied_witness :
  let us := [(ck 1 "a", (acc 9, VALIDATED))] in
  ∃ y j paths, update_checkpoints_with_validation_result us state =
      Ok (y, OpenSnapshot :: WriteSnapshot j :: map DeletePath paths) ∧
    wf y ∧ ∀ r d, r ∈ _checkpoint_results y → ckpt y r = Some d →
       _get_checkpoint_status y d = status_after us state d.
Proof.
  set (us := [(ck 1 "a", (acc 9, VALIDATED))]).
  assert (dwf us) as Hus by (apply (bool_decide_unpack _); vm_compute; exact I).
  assert (∀ u, u ∈ us → update_ok u state) as Hok.
  { intros u Hu%list_elem_of_singleton. subst u. split; [left|].
    intros _ r sp tr Hp. vm_compute in Hp. injection Hp as <- <-. intros Ht. vm_compute in Ht.
    injection Ht as <-. exact (metrics_fine 9). }
  destruct (validation_results_applied us state state_wf Hus Hok)
    as (y & j & paths & w & H & Hy & _ & _ & _ & _ & _ & _ & _ & Hs & _).
  exists y, j, paths. exact (conj H (conj Hy Hs)).
Defined.

Lemma register_checkpoint_crash_safe_witness :
  ∃ y acts, register_checkpoint (ck 3 "c") (acc 4) None state = Ok (y, acts) ∧
    recoverable (foldl fs_apply storage acts) y ∧
    ∀ fs', crashed storage acts fs' →
      loads Z.of_nat fs' state ∨ loads Z.of_nat fs' y ∨
      create Z.of_nat cfg "exp" fs' = Raise CheckpointManagerInitializationError.
Proof.
  destruct (register_checkpoint_crash_safe Z.of_nat (ck 3 "c") (acc 4) None state state storage _
    state_wf fresh_c (metrics_fine 4) storage_holds) as (y & acts & H & _ & _ & Hr & Hc).
  - vm_compute. set_solver.
  - exact storage_recoverable.
  - reflexivity.
  - reflexivity.
  - exists y, acts. split; [exact H|]. split; [exact Hr|]. intros fs' Hfs.
    destruct (Hc fs' Hfs) as [[_ Hl]|[(j & p & _ & _ & _ & _ & Ht)|[Hl _]]]; [left; exact Hl|right; right; exact Ht|right; left; exact Hl].
Defined.

(** A crash between emptying and writing the snapshot: the state before can no
    longer be loaded, although its checkpoints are there. *)
Lemma emptied_snapshot : ∃ y acts, register_checkpoint (ck 3 "c") (acc 4) None state = Ok (y, acts) ∧
  let fs' := Build_Fs (dirs storage) (Some []) in
  crashed storage acts fs' ∧ dirs_hold fs' state ∧
  create Z.of_nat cfg "exp" fs' = Raise CheckpointManagerInitializationError.
Proof.
  destruct (register_ok (J:=ManagerState nat) (ck 3 "c") (acc 4) None state state_wf fresh_c (metrics_fine 4)) as (rs & _ & _ & ->).
  eexists _, _. split; [reflexivity|]. split; [apply crash_later, crash_now|]. split; [exact storage_holds|reflexivity].
Qed.

Lemma save_load_roundtrip_witness :
  ∃ y, create Z.of_nat cfg "exp" storage = Ok y ∧ wf y ∧ _save_state y = _save_state state.
Proof.
  destruct (save_load_roundtrip Z.of_nat storage state _ storage_recoverable)
    as (y & H & Hy & Hs & _).
  exists y. exact (conj H (conj Hy Hs)).
Defined.
