(* ===== verification/Validation.v ===== *)
(** * Reports and validations of Ray Train

    [train/v2/_internal/execution/checkpoint/report_handler.py], which
    consolidates the workers' reports, [validation_manager.py] beside it, which
    runs the validations the reports ask for and tells the checkpoint manager
    their results, and [api/validation_config.py]. *)
From S2P Require Import Prelude PyDict PyFloat Checkpoints.

(** ** [validation_config.py] *)
Record ValidationTaskConfig (V : Type) : Type := {
  fn_kwargs : dict string V;
  timeout_s : option float
}.
Arguments Build_ValidationTaskConfig {V}.
Arguments fn_kwargs {V}.
Arguments timeout_s {V}.

Definition timeout_ok (timeout : option float) : bool :=
  match timeout with None => true | Some s => f_gt_int s 0 end.

(** The constructor, with its default and its assertion. *)
Definition new_task_config {V} (kwargs : option (dict string V)) (timeout : option float) :
    result (ValidationTaskConfig V) :=
  _ ← py_assert (timeout_ok timeout);
  Ok (Build_ValidationTaskConfig (default [] kwargs) timeout).

(** A truthy [validation]: [True] or a configuration. *)
Inductive validation_spec (V : Type) : Type :=
  | ValidationTrue
  | ValidationTask (c : ValidationTaskConfig V).
Arguments ValidationTrue {V}.
Arguments ValidationTask {V}.

(** What a validation function does: it returns a dictionary or something
    else, or raises. *)
Inductive fn_outcome : Type :=
  | ReturnsDict (ms : metrics)
  | ReturnsOther
  | RaisesInFn (e : exn).

Record ValidationConfig (V : Type) : Type := {
  fn : Checkpoint → dict string V → fn_outcome;
  task_config : ValidationTaskConfig V
}.
Arguments fn {V}.
Arguments task_config {V}.

Definition merged_kwargs {V} (config : ValidationConfig V) (spec : validation_spec V) : dict string V :=
  match spec with
  | ValidationTrue => fn_kwargs (task_config config)
  | ValidationTask c => dupdate (fn_kwargs (task_config config)) (fn_kwargs c)
  end.

(** The body of the remote task. *)
Definition run_validation_fn {V} (config : ValidationConfig V) (spec : validation_spec V)
    (c : Checkpoint) : result metrics :=
  match fn config c (merged_kwargs config spec) with
  | ReturnsDict ms => Ok ms
  | ReturnsOther => Raise ValueError
  | RaisesInFn e => Raise e
  end.

(** ** [report_handler.py] *)
Module ReportCallbackHandler.
Section handler.
(** The report type's specification, and the state the callbacks share. *)
Context {Spec S : Type}.
Implicit Types (reports : list (TrainingReport Spec)).

(** The number of workers of the current worker group, and the queues. *)
Record t : Type := {
  _worker_group : option nat;
  _training_report_queues : option (list (list (TrainingReport Spec)))
}.

Definition after_worker_group_start (n : nat) : t :=
  {| _worker_group := Some n; _training_report_queues := Some (replicate n []) |}.
Definition before_worker_group_shutdown : t :=
  {| _worker_group := None; _training_report_queues := None |}.

Definition _assert_initialized (x : t) : result (nat * list (list (TrainingReport Spec))) :=
  match _worker_group x, _training_report_queues x with
  | Some (Datatypes.S n), Some (q :: queues) => Ok (Datatypes.S n, q :: queues)
  | _, _ => Raise AssertionError
  end.

Definition after_replica_group_start (x : t) : result t :=
  p ← _assert_initialized x;
  Ok {| _worker_group := Some p.1; _training_report_queues := Some (replicate p.1 []) |}.

(** One report per worker into one. *)
Definition consolidate reports : result (TrainingReport Spec) :=
  let checkpoint_results := omap (λ r, (λ c, (c, r)) <$> report_checkpoint r) reports in
  let ms := match reports with r :: _ => report_metrics r | [] => [] end in
  match checkpoint_results with
  | [] => Ok {| report_checkpoint := None; report_metrics := ms; validation := None |}
  | (c, r) :: _ =>
      if forallb (λ p : Checkpoint * TrainingReport Spec, bool_decide (path p.1 = path c)) checkpoint_results
      then Ok {| report_checkpoint := Some c; report_metrics := ms; validation := validation r |}
      else Raise RuntimeError
  end.

Definition enqueue (queues : list (list (TrainingReport Spec)))
    (statuses : list (option (TrainingReport Spec))) : list (list (TrainingReport Spec)) :=
  zip_with (λ q s, q ++ option_list s) queues statuses.

(** [statuses]: the report of each worker in this poll; [callbacks]: the
    [after_report]s, in order. *)
Definition after_worker_group_poll_status
    (callbacks : list (TrainingReport Spec → list metrics → S → result S))
    (statuses : list (option (TrainingReport Spec))) (x : t) (s : S) : result (t * S) :=
  p ← _assert_initialized x;
  let '(n, queues) := p in
  _ ← py_assert (Nat.eqb n (length statuses));
  let queues := enqueue queues statuses in
  if existsb (λ q : list (TrainingReport Spec), match q with [] => true | _ => false end) queues
  then Ok ({| _worker_group := Some n; _training_report_queues := Some queues |}, s)
  else
    let training_reports := omap head queues in
    report ← consolidate training_reports;
    s ← result_fold (λ s callback, callback report (map report_metrics training_reports) s) s callbacks;
    Ok ({| _worker_group := Some n; _training_report_queues := Some (map tail queues) |}, s).
End handler.
Arguments t : clear implicits.
End ReportCallbackHandler.

(** ** [validation_manager.py] *)

(** What [ray.get] of a finished task gives: the metrics, a cancellation, an
    exception of the task ([RayTaskError]), or another [RayError] (the worker
    or its node is lost). *)
Inductive task_outcome : Type :=
  | Returned (ms : metrics)
  | TaskCancelled
  | TaskFailed
  | TaskLost.

Record _PendingValidation : Type := {
  pv_checkpoint : Checkpoint;
  start_time : float;
  pv_timeout_s : option float
}.

Module ValidationManager.
Section manager.
Context {V J : Type} `{!SnapshotCodec (validation_spec V) J}.

Definition MAX_IN_FLIGHT_VALIDATIONS : nat := 1.

(** What a method does outside: start a task, cancel one, write storage. *)
Inductive event : Type :=
  | Launch (task : nat) (spec : validation_spec V) (c : Checkpoint)
  | Cancel (task : nat) (force : bool)
  | Stored (a : fs_action J).

(** Tasks are numbered in the order of their launch. *)
Record t : Type := {
  _checkpoint_manager : CheckpointManager.t (validation_spec V);
  _validation_config : ValidationConfig V;
  _training_report_queue : list (TrainingReport (validation_spec V));
  _pending_validations : dict nat _PendingValidation;
  _timed_out_tasks : list nat;
  _finished_validations : dict nat Checkpoint;
  next_task : nat
}.

Definition set_checkpoint_manager (m : CheckpointManager.t (validation_spec V)) (x : t) : t := {|
  _checkpoint_manager := m; _validation_config := _validation_config x;
  _training_report_queue := _training_report_queue x;
  _pending_validations := _pending_validations x; _timed_out_tasks := _timed_out_tasks x;
  _finished_validations := _finished_validations x; next_task := next_task x |}.

Definition set_queue (q : list (TrainingReport (validation_spec V))) (x : t) : t := {|
  _checkpoint_manager := _checkpoint_manager x; _validation_config := _validation_config x;
  _training_report_queue := q;
  _pending_validations := _pending_validations x; _timed_out_tasks := _timed_out_tasks x;
  _finished_validations := _finished_validations x; next_task := next_task x |}.

Definition set_tasks (pending : dict nat _PendingValidation) (timed_out : list nat)
    (finished : dict nat Checkpoint) (next : nat) (x : t) : t := {|
  _checkpoint_manager := _checkpoint_manager x; _validation_config := _validation_config x;
  _training_report_queue := _training_report_queue x;
  _pending_validations := pending; _timed_out_tasks := timed_out;
  _finished_validations := finished; next_task := next |}.

(** [_requeue_incomplete_validations] *)
Definition incomplete (m : CheckpointManager.t (validation_spec V)) :
    result (list (TrainingReport (validation_spec V))) :=
  result_map (λ p : Checkpoint * (nat * validation_spec V),
    tr ← CheckpointManager.deref m p.2.1;
    Ok {| report_checkpoint := Some p.1; report_metrics := result_metrics tr; validation := Some p.2.2 |})
    (CheckpointManager._pending_training_results m).

Definition init (m : CheckpointManager.t (validation_spec V)) (config : ValidationConfig V) : result t :=
  queue ← incomplete m;
  Ok {| _checkpoint_manager := m; _validation_config := config; _training_report_queue := queue;
        _pending_validations := []; _timed_out_tasks := []; _finished_validations := [];
        next_task := 0 |}.

Definition after_report (report : TrainingReport (validation_spec V)) (x : t) : t :=
  match validation report with
  | Some _ => set_queue (_training_report_queue x ++ [report]) x
  | None => x
  end.

(** A consolidated report: the checkpoint manager's callback, then this one. *)
Definition receive (report : TrainingReport (validation_spec V)) (x : t) : result (t * list event) :=
  m ← CheckpointManager.after_report report (_checkpoint_manager x);
  Ok (after_report report (set_checkpoint_manager m.1 x), map Stored m.2).

(** [pending.timeout_s is None or now - pending.start_time < pending.timeout_s] *)
Definition in_time (now : float) (p : _PendingValidation) : bool :=
  match pv_timeout_s p with
  | None => true
  | Some timeout => f_ltb (f_sub now (start_time p)) timeout
  end.

(** [set.add] and [set.discard] of tasks. *)
Definition add_task (task : nat) (l : list nat) : list nat :=
  if bool_decide (task ∈ l) then l else l ++ [task].
Definition discard_task (task : nat) (l : list nat) : list nat := filter (.≠ task) l.

Definition cancel_one (now : float) (r : t * list event) (p : nat * _PendingValidation) :
    t * list event :=
  if in_time now p.2 then r
  else
    let x := r.1 in
    (set_tasks (ddel (_pending_validations x) p.1) (add_task p.1 (_timed_out_tasks x))
       (dset (_finished_validations x) p.1 (pv_checkpoint p.2)) (next_task x) x,
     r.2 ++ [Cancel p.1 true]).

Definition _cancel_timed_out_validations (now : float) (x : t) : t * list event :=
  foldl (cancel_one now) (x, []) (_pending_validations x).

(** A task that [ray.wait] reports as done. *)
Definition finish_one (x : t) (task : nat) : result t :=
  pending ← or_raise KeyError (dget (_pending_validations x) task);
  Ok (set_tasks (ddel (_pending_validations x) task) (_timed_out_tasks x)
        (dset (_finished_validations x) task (pv_checkpoint pending)) (next_task x) x).

Definition _process_finished_validation (outcome : nat → task_outcome) (task : nat) (x : t) :
    result (t * option (metrics * ReportedCheckpointStatus)) :=
  let was_timed_out := bool_decide (task ∈ _timed_out_tasks x) in
  let x := set_tasks (_pending_validations x) (discard_task task (_timed_out_tasks x))
    (_finished_validations x) (next_task x) x in
  if was_timed_out then Ok (x, Some ([], VALIDATION_TIMEOUT))
  else match outcome task with
  | Returned ms => Ok (x, Some (ms, VALIDATED))
  | TaskCancelled => Ok (x, None)
  | TaskFailed => Ok (x, Some ([], VALIDATION_FAILED))
  | TaskLost => Raise RayError
  end.

(** The oldest finished validation, if any, processed. *)
Definition process_one (outcome : nat → task_outcome) (x : t) : result (t * list event) :=
  match _finished_validations x with
  | [] => Ok (x, [])
  | (task, c) :: finished =>
      let x := set_tasks (_pending_validations x) (_timed_out_tasks x) finished (next_task x) x in
      r ← _process_finished_validation outcome task x;
      match r.2 with
      | None => Ok (r.1, [])
      | Some update =>
          m ← CheckpointManager.update_checkpoints_with_validation_result [(c, update)]
                (_checkpoint_manager r.1);
          Ok (set_checkpoint_manager m.1 r.1, map Stored m.2)
      end
  end.

(** What the method reads from outside: the clock, the clock at each launch,
    and the tasks among its argument that [ray.wait] reports as done. *)
Record environment : Type := {
  now : float;
  now_at_launch : nat → float;
  ray_wait : list nat → list nat
}.

(** [ray.wait] of no tasks returns none. *)
Definition wait_for (env : environment) (tasks : list nat) : list nat :=
  match tasks with [] => [] | _ => ray_wait env tasks end.

(** The state, the events, and the number of validations in flight. *)
Definition _poll_validations (outcome : nat → task_outcome) (env : environment) (x : t) :
    result (t * list event * nat) :=
  let '(x, cancelled) := _cancel_timed_out_validations (now env) x in
  x ← result_fold finish_one x (wait_for env (_pending_validations x).*1);
  r ← process_one outcome x;
  Ok (r.1, cancelled ++ r.2, length (_pending_validations r.1)).

(** The state and the events that [_poll_validations] leaves behind when it
    raises while it processes the oldest finished validation: its task is
    forgotten, and the checkpoint manager still waits for its checkpoint. *)
Definition lost_one (x : t) : t :=
  match _finished_validations x with
  | [] => x
  | (task, _) :: finished =>
      set_tasks (_pending_validations x) (discard_task task (_timed_out_tasks x)) finished (next_task x) x
  end.
Definition poll_raised (env : environment) (x : t) : t * list event :=
  let '(x, cancelled) := _cancel_timed_out_validations (now env) x in
  match result_fold finish_one x (wait_for env (_pending_validations x).*1) with
  | Ok x => (lost_one x, cancelled)
  | Raise _ => (x, cancelled)
  end.

(** The loop that starts [num] validations.  A queued report has a checkpoint,
    since [consolidate] gives no validation without one. *)
Fixpoint kick_off_loop (clock : nat → float) (num i : nat) (x : t) : result (t * list event) :=
  match num with
  | O => Ok (x, [])
  | S num =>
      match _training_report_queue x with
      | [] => Raise IndexError
      | report :: queue =>
          c ← or_raise AttributeError (report_checkpoint report);
          spec ← or_raise AttributeError (validation report);
          let timeout := match spec with
            | ValidationTask cfg => timeout_s cfg
            | ValidationTrue => timeout_s (task_config (_validation_config x)) end in
          _ ← py_assert (timeout_ok timeout);
          let task := next_task x in
          let pending := {| pv_checkpoint := c; start_time := clock i; pv_timeout_s := timeout |} in
          let x := set_tasks (dset (_pending_validations x) task pending) (_timed_out_tasks x)
            (_finished_validations x) (S task) (set_queue queue x) in
          r ← kick_off_loop clock num (S i) x;
          Ok (r.1, Launch task spec c :: r.2)
      end
  end.

Definition _kick_off_validations (env : environment) (x : t) : result (t * list event * nat) :=
  let num := Nat.min (MAX_IN_FLIGHT_VALIDATIONS - length (_pending_validations x))
               (length (_training_report_queue x)) in
  r ← kick_off_loop (now_at_launch env) num 0 x;
  Ok (r.1, r.2, length (_pending_validations r.1)).

Definition after_controller_state_update (outcome : nat → task_outcome) (env : environment)
    (is_terminal : bool) (x : t) : result (t * list event) :=
  if is_terminal then Ok (x, [])
  else
    p ← _poll_validations outcome env x;
    k ← _kick_off_validations env p.1.1;
    Ok (k.1.1, p.1.2 ++ k.1.2).

Definition before_controller_abort (x : t) : list event :=
  map (λ task, Cancel task false) (_pending_validations x).*1.

(** What each of [n] workers is told before its train context is made. *)
Definition before_init_train_context (n : nat) : dict string (list bool) :=
  [("has_validation_fn", replicate n true)].

(** *** Shutdown *)

(** The loop, in the environments [envs]; [None] when [fuel] iterations are
    not enough. *)
Fixpoint shutdown_loop (outcome : nat → task_outcome) (envs : nat → environment) (fuel k : nat)
    (x : t) : result (option (t * list event)) :=
  match fuel with
  | O => Ok None
  | S fuel =>
      p ← _poll_validations outcome (envs k) x;
      let more x' evs := r ← shutdown_loop outcome envs fuel (S k) x';
        Ok (option_map (λ r, (r.1, evs ++ r.2)) r) in
      if negb (Nat.eqb p.2 0) then more p.1.1 p.1.2
      else
        l ← _kick_off_validations (envs k) p.1.1;
        if negb (Nat.eqb l.2 0) then more l.1.1 (p.1.2 ++ l.1.2)
        else Ok (Some (l.1.1, p.1.2 ++ l.1.2))
  end.

(** One iteration of the loop over the finished validations. *)
Definition drain_one (outcome : nat → task_outcome)
    (st : t * dict Checkpoint (metrics * ReportedCheckpointStatus)) (task : nat) :
    result (t * dict Checkpoint (metrics * ReportedCheckpointStatus)) :=
  let x := st.1 in
  c ← or_raise KeyError (dget (_finished_validations x) task);
  let x := set_tasks (_pending_validations x) (_timed_out_tasks x)
    (ddel (_finished_validations x) task) (next_task x) x in
  r ← _process_finished_validation outcome task x;
  Ok (r.1, match r.2 with Some update => dset st.2 c update | None => st.2 end).

Definition before_controller_shutdown (outcome : nat → task_outcome) (envs : nat → environment)
    (fuel : nat) (x : t) : result (option (t * list event)) :=
  o ← shutdown_loop outcome envs fuel 0 x;
  match o with
  | None => Ok None
  | Some (x, evs) =>
      d ← result_fold (drain_one outcome) (x, []) (_finished_validations x).*1;
      m ← CheckpointManager.update_checkpoints_with_validation_result d.2 (_checkpoint_manager d.1);
      Ok (Some (set_checkpoint_manager m.1 d.1, evs ++ map Stored m.2))
  end.
End manager.
Arguments t : clear implicits.
Arguments event : clear implicits.
End ValidationManager.
