(* ===== verification/ValidationFacts.v ===== *)
(** * Validations: accounting for every request

    A requested validation is queued, running, finished, settled (its
    checkpoint has a status) or abandoned (its task was cancelled, or its worker
    was lost); [account] relates these lists to the two managers and to the
    launches. *)
From S2P Require Import Prelude PyDict PyFloat Checkpoints CheckpointOrder CheckpointFacts.
From S2P Require Import CheckpointUpdate CheckpointProps Validation.

Import ValidationManager.

Section facts.
Context {V J : Type} `{!SnapshotCodec (validation_spec V) J}.
Implicit Types (x y : t V) (m : CheckpointManager.t (validation_spec V)) (c : Checkpoint).

Abbreviation pending_keys m := ((CheckpointManager._pending_training_results m).*1).

(** ** The checkpoint manager under updates *)

Record updated (us : dict Checkpoint (metrics * ReportedCheckpointStatus)) m m' : Prop := {
  up_wf : wf m';
  up_config : CheckpointManager._checkpoint_config m' = CheckpointManager._checkpoint_config m;
  up_pending d : dget (CheckpointManager._pending_training_results m') d =
    if dmem us d then None else dget (CheckpointManager._pending_training_results m) d;
  up_live r : r ∈ CheckpointManager._checkpoint_results m' →
    r ∈ CheckpointManager._checkpoint_results m ∧ ckpt m' r = ckpt m r;
  up_status r d : r ∈ CheckpointManager._checkpoint_results m' → ckpt m' r = Some d →
    CheckpointManager._get_checkpoint_status m' d = status_after us m d
}.

Lemma update_manager us m : wf m → dwf us → (∀ u, u ∈ us → update_ok u m) →
  ∃ m' acts, CheckpointManager.update_checkpoints_with_validation_result us m = Ok (m', acts) ∧
    updated us m m'.
Proof.
  intros Hm Hus Hok. destruct (updates_ok us m Hm Hus Hok) as (w & Hw & Hwf & []).
  destruct (save_and_delete_ok w Hwf) as [Hs Hy]. eexists _, _. split.
  { unfold CheckpointManager.update_checkpoints_with_validation_result. rewrite Hw. exact Hs. }
  split; [exact Hy|done|done| |].
  { intros r [Hr _]%pruned_elem. rewrite ue_results in Hr. split; [done|].
    destruct (wf_live m Hm r Hr) as (d & Hd & _). rewrite Hd. unfold ckpt in Hd |- *. simpl.
    destruct (CheckpointManager.heap m !! r) as [tr|] eqn:E; [|done].
    rewrite (ue_heap r tr E). simpl. by rewrite merged_checkpoint. }
  intros r d [Hr Hk]%pruned_elem Hrd. rewrite <-ue_status.
  destruct (kept_not_deleted w r d Hwf Hr Hk Hrd) as [Hnd _]. by apply status_forgot.
Qed.

(** ** The tasks *)
Definition running x : list Checkpoint := map (λ p, pv_checkpoint p.2) (_pending_validations x).
Definition finished x : list Checkpoint := (_finished_validations x).*2.
Definition queued x : list Checkpoint := omap report_checkpoint (_training_report_queue x).
Definition tracked x : list Checkpoint := queued x ++ running x ++ finished x.

Definition spec_ok (spec : validation_spec V) : Prop :=
  match spec with ValidationTrue => True | ValidationTask cfg => timeout_ok (timeout_s cfg) = true end.

Definition queued_ok (r : TrainingReport (validation_spec V)) : Prop :=
  ∃ c spec, report_checkpoint r = Some c ∧ validation r = Some spec ∧ spec_ok spec.

(** The task of a checkpoint, running or finished. *)
Definition has_task x (task : nat) c : Prop :=
  (∃ p, (task, p) ∈ _pending_validations x ∧ pv_checkpoint p = c) ∨ (task, c) ∈ _finished_validations x.

Record tasks_ok x : Prop := {
  tk_pending : dwf (_pending_validations x);
  tk_finished : dwf (_finished_validations x);
  tk_disjoint task : task ∈ (_pending_validations x).*1 → task ∉ (_finished_validations x).*1;
  tk_next task : task ∈ (_pending_validations x).*1 ∨ task ∈ (_finished_validations x).*1 →
    (task < next_task x)%nat;
  tk_flight : (length (_pending_validations x) ≤ MAX_IN_FLIGHT_VALIDATIONS)%nat;
  tk_queue : Forall queued_ok (_training_report_queue x);
  tk_config : timeout_ok (timeout_s (task_config (_validation_config x))) = true
}.

(** [x'] is [x] with some running validations finished. *)
Record shifted x x' : Prop := {
  sh_tasks : tasks_ok x';
  sh_queue : _training_report_queue x' = _training_report_queue x;
  sh_manager : _checkpoint_manager x' = _checkpoint_manager x;
  sh_config : _validation_config x' = _validation_config x;
  sh_lists : running x' ++ finished x' ≡ₚ running x ++ finished x;
  sh_has_task task c : has_task x' task c → has_task x task c;
  sh_next : next_task x' = next_task x
}.

Lemma shifted_refl x : tasks_ok x → shifted x x.
Proof. by split. Qed.

Lemma shifted_trans x y z : shifted x y → shifted y z → shifted x z.
Proof.
  intros [] []. split; [done|congruence|congruence|congruence| |auto|congruence].
  by rewrite sh_lists1.
Qed.

(** One running validation finished. *)
Lemma shift_one x task p timed_out : tasks_ok x → dget (_pending_validations x) task = Some p →
  shifted x (set_tasks (ddel (_pending_validations x) task) timed_out
    (dset (_finished_validations x) task (pv_checkpoint p)) (next_task x) x).
Proof.
  intros [Hp Hf Hd Hn Hl Hq Hc] Ht. pose proof (ddel_perm _ _ _ Ht) as Hperm.
  set (rest := ddel (_pending_validations x) task) in *.
  assert ((_pending_validations x).*1 ≡ₚ task :: rest.*1) as Hkeys by (by rewrite Hperm at 1).
  assert (NoDup (task :: rest.*1)) as [Hni Hnd]%NoDup_cons by by rewrite <-Hkeys.
  assert (task ∉ (_finished_validations x).*1) as Hfresh by (apply Hd; rewrite Hkeys; left).
  pose proof (Permutation_length Hperm) as Hlen. simpl in Hlen. rewrite dset_fresh by done.
  assert ((_finished_validations x ++ [(task, pv_checkpoint p)]).*1 = (_finished_validations x).*1 ++ [task])
    as Hfst by by rewrite fmap_app.
  split; try done.
  - split; simpl; try done.
    + unfold dwf. rewrite Hfst. apply NoDup_app. split; [done|]. split; [|apply NoDup_singleton].
      intros k Hk ->%list_elem_of_singleton. done.
    + intros k Hk. rewrite Hfst, elem_of_app, list_elem_of_singleton. intros [Hin| ->]; [|done].
      apply (Hd k); [|done]. rewrite Hkeys. by right.
    + intros k. rewrite Hfst, elem_of_app, list_elem_of_singleton.
      intros [Hk|[Hk| ->]]; apply Hn; [left|by right|left]; rewrite Hkeys; [by right|by left].
    + lia.
  - unfold running, finished. simpl. rewrite fmap_app. rewrite (Permutation_map _ Hperm). simpl.
    solve_Permutation.
  - intros k c. unfold has_task. simpl. rewrite elem_of_app, list_elem_of_singleton.
    intros [(q & Hq' & Hqc)|[Hin|[= -> ->]]]; [left; exists q|by right|left; exists p].
    + split; [|done]. rewrite Hperm. by right.
    + split; [|done]. rewrite Hperm. by left.
Qed.

(** Only cancellations happen while validations finish. *)
Lemma cancel_shifted at_ l x evs : tasks_ok x → NoDup l.*1 →
  (∀ task p, (task, p) ∈ l → dget (_pending_validations x) task = Some p) →
  let r := foldl (cancel_one (J:=J) at_) (x, evs) l in
  shifted x r.1 ∧ ∃ cancelled, r.2 = evs ++ map (λ task, Cancel task true) cancelled.
Proof.
  revert x evs. induction l as [|[task p] l IH]; intros x evs Hx Hnd Hl; cbn [foldl].
  { split; [by apply shifted_refl|]. exists []. by rewrite app_nil_r. }
  rewrite fmap_cons in Hnd. apply NoDup_cons in Hnd as [Hni Hnd]. cbn [fst] in Hni.
  assert (∀ k q, (k, q) ∈ l → dget (_pending_validations x) k = Some q) as Hl'
    by (intros; apply Hl; by right).
  destruct (in_time at_ p) eqn:E.
  { assert (cancel_one (J:=J) at_ (x, evs) (task, p) = (x, evs)) as ->
      by (unfold cancel_one; simpl; by rewrite E). by apply IH. }
  pose proof (shift_one x task p (add_task task (_timed_out_tasks x)) Hx
    (Hl task p ltac:(left))) as Hs.
  set (x1 := set_tasks _ _ _ _ x) in Hs.
  assert (cancel_one (J:=J) at_ (x, evs) (task, p) = (x1, evs ++ [Cancel task true])) as ->
    by (unfold cancel_one; simpl; by rewrite E).
  destruct (IH _ (evs ++ [Cancel task true]) (sh_tasks _ _ Hs) Hnd) as [Hs' [cs Hcs]].
  { intros k q Hk. simpl. rewrite dget_ddel_ne; [by apply Hl'|]. intros ->.
    apply Hni. by apply (list_elem_of_fmap_2 fst) in Hk. }
  split; [by eapply shifted_trans|]. exists (task :: cs). by rewrite Hcs, <-app_assoc.
Qed.

Lemma finish_all l x : tasks_ok x → NoDup l → (∀ task, task ∈ l → task ∈ (_pending_validations x).*1) →
  ∃ x', result_fold finish_one x l = Ok x' ∧ shifted x x' ∧
    ∀ task, task ∈ (_pending_validations x').*1 → task ∈ (_pending_validations x).*1 ∧ task ∉ l.
Proof.
  revert x. induction l as [|task l IH]; intros x Hx Hnd Hl.
  { exists x. split; [done|]. split; [by apply shifted_refl|]. intros k Hk. split; [done|].
    by intros ?%elem_of_nil. }
  apply NoDup_cons in Hnd as [Hni Hnd]. cbn [result_fold].
  destruct (dget (_pending_validations x) task) as [p|] eqn:Ht.
  2: { apply dget_None in Ht. destruct Ht. apply Hl. left. }
  pose proof (shift_one x task p (_timed_out_tasks x) Hx Ht) as Hs.
  assert (finish_one x task = Ok (set_tasks (ddel (_pending_validations x) task) (_timed_out_tasks x)
    (dset (_finished_validations x) task (pv_checkpoint p)) (next_task x) x)) as ->
    by (unfold finish_one; by rewrite Ht).
  destruct (IH _ (sh_tasks _ _ Hs) Hnd) as (x' & Hx' & Hs' & Hk).
  { intros k Hk. simpl. assert (k ∈ (_pending_validations x).*1) as Hkx by (apply Hl; by right).
    rewrite (Permutation_map fst (ddel_perm _ _ _ Ht)) in Hkx. simpl in Hkx.
    apply elem_of_cons in Hkx as [->|Hkx]; done. }
  exists x'. split; [exact Hx'|]. split; [by eapply shifted_trans|].
  intros k Hk'. destruct (Hk k Hk') as [H1 H2]. simpl in H1. split.
  - by eapply ddel_keys_elem.
  - intros [->|Hin]%elem_of_cons; [|done].
    pose proof (dget_ddel_eq (_pending_validations x) task (tk_pending _ Hx)) as Hd.
    by apply dget_None in Hd.
Qed.

(** An environment that answers as [ray.wait] is documented to. *)
Definition env_ok (env : environment) : Prop :=
  ∀ tasks, NoDup tasks → NoDup (ray_wait env tasks) ∧ ∀ task, task ∈ ray_wait env tasks → task ∈ tasks.

(** An environment in which every task is done. *)
Definition all_done (env : environment) : Prop := ∀ tasks, ray_wait env tasks ≡ₚ tasks.

Lemma wait_ok env tasks : env_ok env → NoDup tasks →
  NoDup (wait_for env tasks) ∧ ∀ task, task ∈ wait_for env tasks → task ∈ tasks.
Proof. destruct tasks as [|k tasks]; [intros _ _; split; [constructor|done]|]. intros He Hn. by apply He. Qed.

Lemma wait_all env tasks : all_done env → wait_for env tasks ≡ₚ tasks.
Proof. intros Ha. destruct tasks as [|k tasks]; [done|]. apply Ha. Qed.

(** The first half of a poll. *)
Lemma collect_shifted env x : env_ok env → tasks_ok x →
  let r := _cancel_timed_out_validations (J:=J) (now env) x in
  ∃ x', result_fold finish_one r.1 (wait_for env (_pending_validations r.1).*1) = Ok x' ∧
    shifted x x' ∧ (∃ cancelled, r.2 = map (λ task, Cancel task true) cancelled) ∧
    (all_done env → _pending_validations x' = []).
Proof.
  intros He Hx r.
  destruct (cancel_shifted (now env) (_pending_validations x) x [] Hx (tk_pending _ Hx)) as [Hs [cs Hcs]].
  { intros task p Hp. apply dget_wf_elem; [apply Hx|done]. }
  change (foldl (cancel_one (J:=J) (now env)) (x, []) (_pending_validations x)) with r in *.
  pose proof (sh_tasks _ _ Hs) as Hr.
  destruct (wait_ok env _ He (tk_pending _ Hr)) as [Hn Hin].
  destruct (finish_all _ _ Hr Hn Hin) as (x' & Hx' & Hs' & Hk).
  exists x'. split; [done|]. split; [by eapply shifted_trans|]. split; [by exists cs|].
  intros Ha. destruct (_pending_validations x') as [|[task p] d]; [done|].
  destruct (Hk task) as [H1 H2]; [left|]. destruct H2. by rewrite wait_all.
Qed.

(** ** The account *)
Definition launched (evs : list (event V J)) : list Checkpoint :=
  omap (λ e, match e with Launch _ _ c => Some c | _ => None end) evs.

Lemma launched_app k l : launched (k ++ l) = launched k ++ launched l.
Proof. apply omap_app. Qed.

Lemma launched_stored acts : launched (map Stored acts) = [].
Proof. unfold launched. by induction acts. Qed.

Lemma launched_cancel (f : bool) tasks : launched (map (λ task, Cancel task f) tasks) = [].
Proof. unfold launched. by induction tasks. Qed.

(** A checkpoint with a terminal status, if its result is retained. *)
Definition settled_ok m c : Prop :=
  ∀ r, r ∈ CheckpointManager._checkpoint_results m → ckpt m r = Some c →
    CheckpointManager._get_checkpoint_status m c ∈ [VALIDATED; VALIDATION_TIMEOUT; VALIDATION_FAILED].

Definition was_launched (evs : list (event V J)) task c : Prop := ∃ spec, Launch task spec c ∈ evs.

(** A task without a result: cancelled from outside, or lost with its worker. *)
Definition no_result (o : task_outcome) : Prop := o = TaskCancelled ∨ o = TaskLost.

Context (outcome : nat → task_outcome).

(** [us]: results that are known and not yet given to the checkpoint manager. *)
Record account x (requested : list Checkpoint) (evs : list (event V J))
    (us : dict Checkpoint (metrics * ReportedCheckpointStatus)) (settled abandoned : list Checkpoint) : Prop := {
  ac_tasks : tasks_ok x;
  ac_wf : wf (_checkpoint_manager x);
  ac_requested : requested ≡ₚ tracked x ++ us.*1 ++ settled ++ abandoned;
  ac_manager : pending_keys (_checkpoint_manager x) ≡ₚ tracked x ++ us.*1 ++ abandoned;
  ac_launched : launched evs ≡ₚ (running x ++ finished x) ++ us.*1 ++ settled ++ abandoned;
  ac_has_task task c : has_task x task c → was_launched evs task c;
  ac_updates u : u ∈ us → update_ok u (_checkpoint_manager x);
  ac_settled c : c ∈ settled → settled_ok (_checkpoint_manager x) c;
  ac_abandoned c : c ∈ abandoned → ∃ task, was_launched evs task c ∧ no_result (outcome task)
}.

Lemma was_launched_app evs evs' task c : was_launched evs task c → was_launched (evs ++ evs') task c.
Proof. intros [spec Hs]. exists spec. apply elem_of_app. by left. Qed.

Lemma account_shifted x x' requested evs evs' us settled abandoned : shifted x x' → launched evs' = [] →
  account x requested evs us settled abandoned → account x' requested (evs ++ evs') us settled abandoned.
Proof.
  intros [Ht Hq Hm Hc Hl Hh] He []. split; try done; rewrite ?Hm; try done.
  - rewrite ac_requested0. unfold tracked, queued. by rewrite Hq, Hl.
  - rewrite ac_manager0. unfold tracked, queued. by rewrite Hq, Hl.
  - by rewrite launched_app, He, app_nil_r, ac_launched0, Hl.
  - intros task c Htask. by apply was_launched_app, ac_has_task0, Hh.
  - intros c (task & Hw & Ho)%ac_abandoned0. exists task. split; [by apply was_launched_app|done].
Qed.

(** The metrics that validations return can be scored with those reported. *)
Definition outcomes_ok (cfg : CheckpointConfig) : Prop :=
  ∀ task ms base, outcome task = Returned ms → metrics_ok cfg base → metrics_ok cfg (dupdate base ms).

Lemma update_fine m c task u : wf m → outcomes_ok (CheckpointManager._checkpoint_config m) →
  u.2 ∈ [VALIDATED; VALIDATION_TIMEOUT; VALIDATION_FAILED] →
  (u.2 = VALIDATED → outcome task = Returned u.1) → update_ok (c, u) m.
Proof.
  intros Hm Ho Hst Hv. split; [done|]. simpl. intros Hu r sp tr Hp Ht.
  apply (Ho task); [by apply Hv|]. destruct (wf_pending_in m Hm c r sp Hp) as [Hr _].
  destruct (wf_score m Hm r Hr) as (s & Hs & Hval). exists s. split; [|done].
  unfold CheckpointManager.score_of, CheckpointManager.deref in Hs. by rewrite Ht in Hs.
Qed.

Definition result_of task (u : option (metrics * ReportedCheckpointStatus)) : Prop :=
  match u with
  | None => no_result (outcome task)
  | Some u => u.2 ∈ [VALIDATED; VALIDATION_TIMEOUT; VALIDATION_FAILED] ∧
              (u.2 = VALIDATED → outcome task = Returned u.1)
  end.

Lemma process_spec task x :
  match _process_finished_validation outcome task x with
  | Ok (y, u) => result_of task u ∧
      y = set_tasks (_pending_validations x) (discard_task task (_timed_out_tasks x)) (_finished_validations x) (next_task x) x
  | Raise e => e = RayError ∧ outcome task = TaskLost
  end.
Proof.
  unfold _process_finished_validation.
  destruct (bool_decide _); [|destruct (outcome task) as [ms| | |] eqn:Ho]; try done; (split; [|done]); simpl;
    rewrite ?Ho; try (by left); (split; [set_solver|done]).
Qed.

(** Taking the first finished validation off. *)
Lemma pop_tasks x task c rest timed_out : tasks_ok x → _finished_validations x = (task, c) :: rest →
  tasks_ok (set_tasks (_pending_validations x) timed_out rest (next_task x) x).
Proof.
  intros [Hp Hf Hd Hn Hl Hq Hc] Hx. rewrite Hx in *. split; simpl; try done.
  - unfold dwf in Hf. rewrite fmap_cons in Hf. by apply NoDup_cons in Hf as [_ ?].
  - intros k Hk Hr. apply (Hd k Hk). by right.
  - intros k [Hk|Hk]; apply Hn; [by left|right; by right].
Qed.

Lemma account_pop x requested evs us settled abandoned task c rest timed_out u :
  account x requested evs us settled abandoned → _finished_validations x = (task, c) :: rest →
  outcomes_ok (CheckpointManager._checkpoint_config (_checkpoint_manager x)) →
  result_of task u →
  let x' := set_tasks (_pending_validations x) timed_out rest (next_task x) x in
  match u with
  | Some u => account x' requested evs (dset us c u) settled abandoned
  | None => account x' requested evs us settled (c :: abandoned)
  end.
Proof.
  intros [] Hx Ho Hu x'.
  assert (tracked x ≡ₚ c :: tracked x') as Ht.
  { unfold tracked, queued, running, finished, x'. rewrite Hx. simpl. solve_Permutation. }
  assert (running x ++ finished x ≡ₚ c :: running x' ++ finished x') as Hr.
  { unfold running, finished, x'. rewrite Hx. simpl. solve_Permutation. }
  assert (∀ k d, has_task x' k d → has_task x k d) as Hh.
  { intros k d [Hp|Hd]; [by left|right]. rewrite Hx. by right. }
  assert (tasks_ok x') as Htk by by eapply pop_tasks.
  assert (c ∉ us.*1) as Hc.
  { pose proof (wf_pending _ ac_wf0) as Hnd. unfold dwf in Hnd. rewrite ac_manager0, Ht in Hnd. simpl in Hnd.
    apply NoDup_cons in Hnd as [Hnd _]. rewrite !elem_of_app in Hnd. tauto. }
  destruct u as [u|].
  - assert ((dset us c u).*1 = us.*1 ++ [c]) as Hus by (rewrite dset_fresh, fmap_app by done; done).
    split; try done; rewrite ?Hus; auto.
    + rewrite ac_requested0, Ht. solve_Permutation.
    + change (_checkpoint_manager x') with (_checkpoint_manager x). rewrite ac_manager0, Ht. solve_Permutation.
    + rewrite ac_launched0, Hr. solve_Permutation.
    + intros v. rewrite dset_fresh by done. rewrite elem_of_app, list_elem_of_singleton.
      intros [Hv| ->]; [by apply ac_updates0|]. destruct Hu. by apply (update_fine _ c task).
  - split; try done; auto.
    + rewrite ac_requested0, Ht. solve_Permutation.
    + change (_checkpoint_manager x') with (_checkpoint_manager x). rewrite ac_manager0, Ht. solve_Permutation.
    + rewrite ac_launched0, Hr. solve_Permutation.
    + intros d [->|Hd]%elem_of_cons; [|by apply ac_abandoned0]. exists task. split; [|exact Hu].
      apply ac_has_task0. right. rewrite Hx. left.
Qed.

(** Giving the results to the checkpoint manager. *)
Lemma updated_keys us m m' K : updated us m m' → wf m → pending_keys m ≡ₚ us.*1 ++ K →
  pending_keys m' ≡ₚ K.
Proof.
  intros Hu Hm Hp. pose proof (wf_pending m Hm) as Hnd. unfold dwf in Hnd. rewrite Hp in Hnd.
  apply NoDup_app in Hnd as (_ & Hdis & HndK).
  apply NoDup_Permutation; [apply (wf_pending m' (up_wf _ _ _ Hu))|done|]. intros d.
  assert (d ∈ pending_keys m' ↔ d ∈ pending_keys m ∧ d ∉ us.*1) as ->.
  { rewrite <-!(dmem_true _ d). unfold dmem. rewrite (up_pending _ _ _ Hu).
    unfold dmem. destruct (dget us d) as [u|] eqn:E.
    - apply dget_elem, (list_elem_of_fmap_2 fst) in E. simpl in E. naive_solver.
    - apply dget_None in E. naive_solver. }
  rewrite Hp, elem_of_app. split; [naive_solver|]. intros Hd. split; [by right|].
  intros Hin. by apply (Hdis d).
Qed.

Lemma updated_settled us m m' d : updated us m m' → (∀ u, u ∈ us → update_ok u m) →
  (d ∈ us.*1 ∧ d ∈ pending_keys m) ∨ settled_ok m d → settled_ok m' d.
Proof.
  intros Hu Hok Hd r Hr Hrd. rewrite (up_status _ _ _ Hu r d Hr Hrd).
  destruct (up_live _ _ _ Hu r Hr) as [Hr' E]. rewrite E in Hrd. unfold status_after.
  destruct (dget us d) as [[ms st]|] eqn:Hus.
  - apply dget_elem in Hus. destruct (Hok _ Hus) as [Hst _]. simpl in Hst.
    destruct (dmem _ d) eqn:Hp; [done|]. destruct Hd as [[_ Hd]|Hd]; [|by apply (Hd r)].
    apply dmem_true in Hd. congruence.
  - apply dget_None in Hus. destruct Hd as [[? _]|Hd]; [done|by apply (Hd r)].
Qed.

Lemma account_update x requested evs us settled abandoned : account x requested evs us settled abandoned →
  ∃ m acts, CheckpointManager.update_checkpoints_with_validation_result us (_checkpoint_manager x) = Ok (m, acts) ∧
    account (set_checkpoint_manager m x) requested (evs ++ map Stored acts) [] (us.*1 ++ settled) abandoned ∧
    CheckpointManager._checkpoint_config m = CheckpointManager._checkpoint_config (_checkpoint_manager x).
Proof.
  intros [].
  assert (pending_keys (_checkpoint_manager x) ≡ₚ us.*1 ++ tracked x ++ abandoned) as Hk
    by (rewrite ac_manager0; solve_Permutation).
  assert (dwf us) as Hus.
  { pose proof (wf_pending _ ac_wf0) as Hnd. unfold dwf in Hnd. rewrite Hk in Hnd.
    by apply NoDup_app in Hnd as (? & _). }
  destruct (update_manager us _ ac_wf0 Hus ac_updates0) as (m & acts & -> & Hu).
  exists m, acts. split; [done|]. split; [|apply Hu]. split; try done.
  - by destruct ac_tasks0.
  - apply Hu.
  - rewrite ac_requested0. simpl. rewrite <-!app_assoc. done.
  - simpl. rewrite (updated_keys us _ m _ Hu ac_wf0 Hk). done.
  - rewrite launched_app, launched_stored, app_nil_r, ac_launched0. simpl. by rewrite <-!app_assoc.
  - intros task c Hc. by apply was_launched_app, ac_has_task0.
  - by intros u ?%elem_of_nil.
  - intros c Hc. apply (updated_settled us _ m c Hu ac_updates0).
    apply elem_of_app in Hc as [Hc|Hc]; [left|right; by apply ac_settled0].
    split; [done|]. rewrite Hk. apply elem_of_app. by left.
  - intros c (task & Hw & Ho)%ac_abandoned0. exists task. split; [by apply was_launched_app|done].
Qed.

(** ** The operations *)

(** What every operation keeps of a state. *)
Record same_setup x x' : Prop := {
  ss_config : _validation_config x' = _validation_config x;
  ss_checkpoints : CheckpointManager._checkpoint_config (_checkpoint_manager x') =
    CheckpointManager._checkpoint_config (_checkpoint_manager x)
}.

(** A validation that is over or running, and whose worker is lost. *)
Definition loses x : Prop := ∃ task c, has_task x task c ∧ outcome task = TaskLost.

(** What an operation on the tasks keeps besides the setup. *)
Record polled x x' : Prop := {
  po_setup : same_setup x x';
  po_queue : _training_report_queue x' = _training_report_queue x;
  po_next : next_task x' = next_task x;
  po_has_task task c : has_task x' task c → has_task x task c
}.

Lemma shifted_polled x y : shifted x y → polled x y.
Proof. intros [Ht Hq Hm Hc Hl Hh Hn]. split; [split; [done|by rewrite Hm]|done|done|done]. Qed.

Lemma polled_trans x y z : polled x y → polled y z → polled x z.
Proof. intros [[] ? ? ?] [[] ? ? ?]. split; [split|..]; try congruence. auto. Qed.

Lemma popped_polled x task c rest timed_out m : _finished_validations x = (task, c) :: rest →
  CheckpointManager._checkpoint_config m = CheckpointManager._checkpoint_config (_checkpoint_manager x) →
  polled x (set_checkpoint_manager m (set_tasks (_pending_validations x) timed_out rest (next_task x) x)).
Proof. intros Hx Hm. split; try done. intros k d [Hp|Hd]; [by left|right]. rewrite Hx. by right. Qed.

Lemma process_one_account x requested evs settled abandoned : account x requested evs [] settled abandoned →
  outcomes_ok (CheckpointManager._checkpoint_config (_checkpoint_manager x)) →
  match process_one outcome x with
  | Ok (x', evs') => polled x x' ∧ _pending_validations x' = _pending_validations x ∧
      ∃ settled' abandoned', account x' requested (evs ++ evs') [] settled' abandoned'
  | Raise e => e = RayError ∧ loses x ∧ polled x (lost_one x) ∧
      ∃ abandoned', account (lost_one x) requested evs [] settled abandoned'
  end.
Proof.
  intros Ha Ho. unfold process_one, lost_one.
  destruct (_finished_validations x) as [|[task c] rest] eqn:Hx.
  { split; [by split|]. split; [done|]. exists settled, abandoned. by rewrite app_nil_r. }
  set (x1 := set_tasks _ _ rest _ x). pose proof (process_spec task x1) as Hp.
  destruct (_process_finished_validation outcome task x1) as [[y u]|e]; cbn [mbind result_bind fst snd].
  2: { destruct Hp as [-> Hl]. split; [done|]. split; [exists task, c; split; [right; rewrite Hx; left|done]|].
       split; [by apply (popped_polled x task c rest _ (_checkpoint_manager x))|]. exists (c :: abandoned).
       apply (account_pop x requested evs [] settled abandoned task c rest _ None Ha Hx Ho). by right. }
  destruct Hp as [Hu Hy]. set (x2 := set_tasks (_pending_validations x) (discard_task task (_timed_out_tasks x)) rest (next_task x) x).
  change (y = x2) in Hy. subst y.
  pose proof (account_pop x requested evs [] settled abandoned task c rest (discard_task task (_timed_out_tasks x)) u Ha Hx Ho Hu) as Hp.
  destruct u as [u|].
  - destruct (account_update _ _ _ _ _ _ Hp) as (m & acts & Hm & Hacc & Hc).
    change (_checkpoint_manager x2) with (_checkpoint_manager x).
    change (CheckpointManager.update_checkpoints_with_validation_result [(c, u)] (_checkpoint_manager x) = Ok (m, acts)) in Hm.
    rewrite Hm. cbn [mbind result_bind fst snd].
    split; [by apply (popped_polled x task c rest)|]. split; [done|]. eexists _, _. exact Hacc.
  - split; [by apply (popped_polled x task c rest _ (_checkpoint_manager x))|]. split; [done|]. rewrite app_nil_r.
    eexists _, _. exact Hp.
Qed.

Lemma poll_account env x requested evs settled abandoned : account x requested evs [] settled abandoned →
  env_ok env → outcomes_ok (CheckpointManager._checkpoint_config (_checkpoint_manager x)) →
  match _poll_validations outcome env x with
  | Ok (x', evs', n) => n = length (_pending_validations x') ∧ polled x x' ∧
      (all_done env → _pending_validations x' = []) ∧
      ∃ settled' abandoned', account x' requested (evs ++ evs') [] settled' abandoned'
  | Raise e => e = RayError ∧ loses x ∧ polled x (poll_raised (J:=J) env x).1 ∧
      ∃ abandoned', account (poll_raised (J:=J) env x).1 requested (evs ++ (poll_raised env x).2) [] settled abandoned'
  end.
Proof.
  intros Ha He Ho. unfold _poll_validations, poll_raised.
  destruct (collect_shifted env x He (ac_tasks _ _ _ _ _ _ Ha)) as (x1 & Hx1 & Hs & [cs Hcs] & Hd).
  destruct (_cancel_timed_out_validations (now env) x) as [x0 evs0]. simpl in Hx1, Hcs. subst evs0.
  rewrite Hx1. cbn [mbind result_bind fst snd]. pose proof (shifted_polled _ _ Hs) as Hsp.
  apply (account_shifted x x1 _ _ (map (λ task, Cancel task true) cs) _ _ _ Hs) in Ha;
    [|apply launched_cancel].
  pose proof (process_one_account x1 _ _ _ _ Ha) as Hp. rewrite (sh_manager _ _ Hs) in Hp. specialize (Hp Ho).
  destruct (process_one outcome x1) as [[x' evs']|e]; cbn [mbind result_bind fst snd].
  - destruct Hp as (Hp & Hpend & st' & ab' & Ha'). split; [done|]. split; [by eapply polled_trans|].
    split; [intros Hall; by rewrite Hpend, Hd|]. exists st', ab'. by rewrite app_assoc.
  - destruct Hp as (-> & (task & c & Ht & Hl) & Hp & Ha'). split; [done|].
    split; [exists task, c; split; [by apply (sh_has_task _ _ Hs)|done]|]. split; [by eapply polled_trans|done].
Qed.

(** The state with the first queued report launched. *)
Definition launch x queue (p : _PendingValidation) : t V :=
  set_tasks (dset (_pending_validations x) (next_task x) p) (_timed_out_tasks x)
    (_finished_validations x) (S (next_task x)) (set_queue queue x).

Lemma launch_tasks x report queue p : tasks_ok x → _training_report_queue x = report :: queue →
  (length (_pending_validations x) < MAX_IN_FLIGHT_VALIDATIONS)%nat →
  tasks_ok (launch x queue p) ∧
  _pending_validations (launch x queue p) = _pending_validations x ++ [(next_task x, p)].
Proof.
  intros [Hp Hf Hd Hn Hl Hq Hc] Hx Hlen.
  assert (next_task x ∉ (_pending_validations x).*1) as Hfp.
  { intros Hin. specialize (Hn (next_task x) ltac:(by left)). lia. }
  assert (next_task x ∉ (_finished_validations x).*1) as Hff.
  { intros Hin. specialize (Hn (next_task x) ltac:(by right)). lia. }
  pose proof (dset_fresh _ _ p Hfp) as Hds. rewrite Hx in Hq. apply Forall_cons in Hq as [_ Hq].
  split; [|exact Hds]. split; simpl; rewrite ?Hds; try done.
  - by rewrite <-Hds; apply dset_wf.
  - intros k. rewrite fmap_app, elem_of_app. intros [Hk|Hk]; [by apply Hd|].
    apply list_elem_of_singleton in Hk. simpl in Hk. by subst.
  - intros k. rewrite fmap_app, elem_of_app. intros [[Hk|Hk]|Hk].
    + specialize (Hn k ltac:(by left)). lia.
    + apply list_elem_of_singleton in Hk. simpl in Hk. lia.
    + specialize (Hn k ltac:(by right)). lia.
  - rewrite length_app. simpl. lia.
Qed.

Lemma launch_account x requested evs settled abandoned report queue c spec p :
  account x requested evs [] settled abandoned → _training_report_queue x = report :: queue →
  (length (_pending_validations x) < MAX_IN_FLIGHT_VALIDATIONS)%nat →
  report_checkpoint report = Some c → pv_checkpoint p = c →
  account (launch x queue p) requested (evs ++ [Launch (next_task x) spec c]) [] settled abandoned.
Proof.
  intros [] Hx Hlen Hc Hp. destruct (launch_tasks x report queue p ac_tasks0 Hx Hlen) as [Ht Hpend].
  set (y := launch x queue p) in *.
  assert (running y = running x ++ [c]) as Hr by (unfold running; rewrite Hpend, map_app; simpl; by rewrite Hp).
  assert (queued x = c :: queued y) as Hq.
  { unfold queued. rewrite Hx.
    change (omap report_checkpoint (report :: queue)) with (match report_checkpoint report with
      | Some d => d :: omap report_checkpoint queue | None => omap report_checkpoint queue end).
    by rewrite Hc. }
  assert (tracked y ≡ₚ tracked x) as Htr.
  { unfold tracked. rewrite Hr, Hq. change (finished y) with (finished x). solve_Permutation. }
  split; try done.
  - by rewrite Htr.
  - change (_checkpoint_manager y) with (_checkpoint_manager x). by rewrite Htr.
  - rewrite launched_app, ac_launched0, Hr. change (finished y) with (finished x). simpl. solve_Permutation.
  - intros k d [(q & Hq' & Hqd)|Hf].
    + rewrite Hpend in Hq'. apply elem_of_app in Hq' as [Hq'|Hq'].
      * apply was_launched_app, ac_has_task0. left. by exists q.
      * apply list_elem_of_singleton in Hq' as [= -> ->]. exists spec.
        apply elem_of_app. right. apply list_elem_of_singleton. congruence.
    + apply was_launched_app, ac_has_task0. by right.
  - intros d (task & Hw & Ho)%ac_abandoned0. exists task. split; [by apply was_launched_app|done].
Qed.

(** The tasks of a state, and those it will launch. *)
Definition may_run x (task : nat) : Prop :=
  (∃ c, has_task x task c) ∨ (next_task x ≤ task < next_task x + length (_training_report_queue x))%nat.

Lemma polled_may_run x y task : polled x y → may_run y task → may_run x task.
Proof. intros [_ Hq Hn Hh] [[c Hc]|H]; [left; exists c; by apply Hh|right]. by rewrite Hq, Hn in H. Qed.

Lemma launch_may_run x report queue p task : tasks_ok x → _training_report_queue x = report :: queue →
  (length (_pending_validations x) < MAX_IN_FLIGHT_VALIDATIONS)%nat →
  may_run (launch x queue p) task → may_run x task.
Proof.
  intros Ht Hx Hlen. destruct (launch_tasks x report queue p Ht Hx Hlen) as [_ Hpend]. unfold may_run. rewrite Hx.
  intros [[c [(q & Hq & Hc)|Hf]]|H]; [|left; exists c; by right|right; cbn in *; lia].
  rewrite Hpend in Hq. apply elem_of_app in Hq as [Hq|Hq]; [left; exists c; left; by exists q|].
  apply list_elem_of_singleton in Hq as [= -> _]. right. cbn. lia.
Qed.

Lemma kick_off_account clock num i x requested evs settled abandoned :
  account x requested evs [] settled abandoned →
  (length (_pending_validations x) + num ≤ MAX_IN_FLIGHT_VALIDATIONS)%nat →
  (num ≤ length (_training_report_queue x))%nat →
  ∃ x' evs', kick_off_loop (J:=J) clock num i x = Ok (x', evs') ∧
    account x' requested (evs ++ evs') [] settled abandoned ∧ same_setup x x' ∧
    length (_pending_validations x') = (length (_pending_validations x) + num)%nat ∧
    length (_training_report_queue x') = (length (_training_report_queue x) - num)%nat ∧
    ∀ task, may_run x' task → may_run x task.
Proof.
  revert i x evs. induction num as [|num IH]; intros i x evs Ha Hl Hq; cbn [kick_off_loop].
  { exists x, []. rewrite app_nil_r. split_and!; try done; lia. }
  destruct (_training_report_queue x) as [|report queue] eqn:Hx; [simpl in Hq; lia|].
  pose proof (tk_queue _ (ac_tasks _ _ _ _ _ _ Ha)) as Hqo. rewrite Hx in Hqo.
  apply Forall_cons in Hqo as [(c & spec & Hc & Hs & Hso) _]. rewrite Hc, Hs. cbn [or_raise mbind result_bind].
  set (timeout := match spec with ValidationTrue => _ | ValidationTask cfg => timeout_s cfg end).
  assert (timeout_ok timeout = true) as ->.
  { unfold timeout. destruct spec; [apply (tk_config _ (ac_tasks _ _ _ _ _ _ Ha))|done]. }
  cbn [py_assert mbind result_bind].
  set (p := {| pv_checkpoint := c; start_time := clock i; pv_timeout_s := timeout |}).
  pose proof (launch_account x requested evs settled abandoned report queue c spec p Ha Hx ltac:(lia) Hc eq_refl)
    as Hla.
  destruct (launch_tasks x report queue p (ac_tasks _ _ _ _ _ _ Ha) Hx ltac:(lia)) as [_ Hp].
  pose proof (λ task, launch_may_run x report queue p task (ac_tasks _ _ _ _ _ _ Ha) Hx ltac:(lia)) as Hrun.
  destruct (IH (S i) _ _ Hla) as (x' & evs' & Hk & Ha' & [Hs1 Hs2] & Hl' & Hq' & Hm').
  { rewrite Hp, length_app. simpl. lia. }
  { simpl in Hq |- *. lia. }
  unfold launch in Hk. rewrite Hk. cbn [mbind result_bind fst snd].
  exists x', (Launch (next_task x) spec c :: evs'). split; [done|].
  split; [by rewrite <-(app_assoc evs) in Ha'|]. split; [by split|].
  rewrite Hl', Hp, length_app, Hq'. simpl. split; [lia|]. split; [lia|]. intros task Htask. by apply Hrun, Hm'.
Qed.

Lemma kick_off_ok env x requested evs settled abandoned : account x requested evs [] settled abandoned →
  ∃ x' evs', _kick_off_validations env x = Ok (x', evs', length (_pending_validations x')) ∧
    account x' requested (evs ++ evs') [] settled abandoned ∧ same_setup x x' ∧
    let num := Nat.min (1 - length (_pending_validations x)) (length (_training_report_queue x)) in
    length (_training_report_queue x') = (length (_training_report_queue x) - num)%nat ∧
    length (_pending_validations x') = (length (_pending_validations x) + num)%nat ∧
    ∀ task, may_run x' task → may_run x task.
Proof.
  intros Ha. unfold _kick_off_validations, MAX_IN_FLIGHT_VALIDATIONS. set (num := Nat.min _ _).
  pose proof (tk_flight _ (ac_tasks _ _ _ _ _ _ Ha)) as Hf. unfold MAX_IN_FLIGHT_VALIDATIONS in Hf.
  destruct (kick_off_account (now_at_launch env) num 0 x _ _ _ _ Ha) as (x' & evs' & -> & Ha' & Hs & Hl & Hq & Hr).
  1-2: unfold MAX_IN_FLIGHT_VALIDATIONS; lia.
  cbn [mbind result_bind fst snd]. by exists x', evs'.
Qed.

(** ** Reports *)
Lemma wf_next_index m : wf m → wf (CheckpointManager.set_indices (CheckpointManager._current_report_index m + 1)
  (CheckpointManager._checkpoint_to_report_index m) m).
Proof.
  intros []. split; try done. simpl. intros c n Hc. specialize (wf_index_lt c n Hc). lia.
Qed.

Lemma register_status c ms v m rs : wf m → fresh_checkpoint m c → metrics_ok (CheckpointManager._checkpoint_config m) ms →
  let w := registered (length (CheckpointManager.heap m)) c v rs (add_result c ms m) in
  wf w → rs ≡ₚ length (CheckpointManager.heap m) :: CheckpointManager._checkpoint_results m →
  let y := forgot (deleted_checkpoints w) (pruned w) in
  ∀ d, d ≠ c → settled_ok m d → settled_ok y d.
Proof.
  intros Hm Hf Hms w Hw Hrs y d Hdc Hd r Hr Hrd.
  assert (ckpt w r = Some d) as Hwd by exact Hrd. apply pruned_elem in Hr as [Hr Hk].
  destruct (kept_not_deleted w r d Hw Hr Hk Hwd) as [Hnd _].
  unfold y. rewrite status_forgot by done.
  assert (r ∈ rs) as Hr' by (unfold w in Hr; by destruct v). rewrite Hrs in Hr'.
  destruct (add_result_new c ms m) as [Hnew _].
  assert (ckpt w r = ckpt (add_result c ms m) r) as E by (unfold w; by destruct v).
  rewrite E in Hwd. unfold ckpt in Hwd. apply elem_of_cons in Hr' as [->|Hr'].
  { rewrite Hnew in Hwd. by injection Hwd as <-. }
  destruct (add_result_old c ms m r Hm Hf Hr') as [Eh _]. rewrite Eh in Hwd.
  specialize (Hd r Hr' Hwd). unfold w, CheckpointManager._get_checkpoint_status in *.
  destruct v as [spec|]; simpl; [|exact Hd]. unfold dmem in *. by rewrite dget_dset_ne by congruence.
Qed.

(** A report as a worker group makes it: a new checkpoint in a directory of
    its own, with metrics that can be scored, or none. *)
Definition report_ok (requested : list Checkpoint) m (report : TrainingReport (validation_spec V)) : Prop :=
  match report_checkpoint report with
  | None => validation report = None
  | Some c => fresh_checkpoint m c ∧ metrics_ok (CheckpointManager._checkpoint_config m) (report_metrics report) ∧
      (c ∉ requested) ∧ ∀ spec, validation report = Some spec → spec_ok spec
  end.

(** The checkpoint a report asks to validate. *)
Definition requests (report : TrainingReport (validation_spec V)) : list Checkpoint :=
  match validation report with Some _ => option_list (report_checkpoint report) | None => [] end.

Lemma account_manager x m requested evs acts settled abandoned :
  account x requested evs [] settled abandoned → wf m →
  pending_keys m ≡ₚ pending_keys (_checkpoint_manager x) →
  (∀ d, d ∈ settled → settled_ok (_checkpoint_manager x) d → settled_ok m d) →
  account (set_checkpoint_manager m x) requested (evs ++ map Stored acts) [] settled abandoned.
Proof.
  intros [] Hm Hk Hs. split; try done.
  - by destruct ac_tasks0.
  - simpl. by rewrite Hk.
  - by rewrite launched_app, launched_stored, app_nil_r.
  - intros task c Hc. by apply was_launched_app, ac_has_task0.
  - by intros u ?%elem_of_nil.
  - intros c Hc. by apply Hs, ac_settled0.
  - intros c (task & Hw & Ho)%ac_abandoned0. exists task. split; [by apply was_launched_app|done].
Qed.
End facts.
