(* ===== verification/ValidationSteps.v ===== *)
(** * Validations: reports, restarts and shutdown

    What the remaining operations do to the account of [ValidationFacts]:
    receiving a report, starting from a manager's saved state, and shutting
    down, with the number of iterations the shutdown takes. *)
From S2P Require Import Prelude PyDict PyFloat Checkpoints CheckpointOrder CheckpointFacts.
From S2P Require Import CheckpointUpdate CheckpointProps Validation ValidationFacts.

Import ValidationManager.

Section steps.
Context {V J : Type} `{!SnapshotCodec (validation_spec V) J}.
Context (outcome : nat → task_outcome).
Implicit Types (x y : t V) (m : CheckpointManager.t (validation_spec V)) (c : Checkpoint)
  (evs : list (event V J)).

Abbreviation pending_keys m := ((CheckpointManager._pending_training_results m).*1).
Abbreviation account := (account (J:=J) outcome).

(** ** Receiving a report *)
Lemma account_request x m report c requested evs acts settled abandoned :
  account x requested evs [] settled abandoned → wf m → queued_ok report →
  report_checkpoint report = Some c →
  pending_keys m ≡ₚ pending_keys (_checkpoint_manager x) ++ [c] →
  (∀ d, d ∈ settled → settled_ok (_checkpoint_manager x) d → settled_ok m d) →
  account (set_queue (_training_report_queue x ++ [report]) (set_checkpoint_manager m x))
    (requested ++ [c]) (evs ++ map Stored acts) [] settled abandoned.
Proof.
  intros Ha Hm Hr Hc Hk Hs.
  set (y := set_queue _ _).
  assert (tracked y ≡ₚ tracked x ++ [c]) as Ht.
  { unfold tracked, y, queued. simpl. rewrite omap_app. cbn [omap list_omap]. rewrite Hc.
    change (running (set_queue _ _)) with (running x).
    change (finished (set_queue _ _)) with (finished x). solve_Permutation. }
  destruct Ha as [Hta Hwf Hreq Hman Hla Hha Hup Hse Hab]. split; try done.
  - destruct Hta. split; try done. simpl. apply Forall_app. by split; [|constructor].
  - rewrite Hreq, Ht. solve_Permutation.
  - simpl. rewrite Hk, Hman, Ht. solve_Permutation.
  - by rewrite launched_app, launched_stored, app_nil_r.
  - intros task d Hd. by apply was_launched_app, Hha.
  - by intros u ?%elem_of_nil.
  - intros d Hd. by apply Hs, Hse.
  - intros d (task & Hw & Ho)%Hab. exists task. split; [by apply was_launched_app|done].
Qed.

(** The pending validations after a report. *)
Lemma dset_keys_perm {A} (d : dict Checkpoint A) c a : c ∉ d.*1 → ((dset d c a).*1) ≡ₚ (d.*1 ++ [c]).
Proof. intros Hc. by rewrite dset_fresh, fmap_app by done. Qed.

Lemma account_not_requested x requested evs settled abandoned c :
  account x requested evs [] settled abandoned → c ∉ requested →
  (c ∉ pending_keys (_checkpoint_manager x)) ∧ c ∉ settled.
Proof.
  intros [_ _ Hreq Hman _ _ _ _ _]. rewrite Hreq, Hman, !elem_of_app. tauto.
Qed.

Lemma receive_account report x requested evs settled abandoned :
  account x requested evs [] settled abandoned → report_ok requested (_checkpoint_manager x) report →
  ∃ x' evs', receive report x = Ok (x', evs') ∧
    account x' (requested ++ requests report) (evs ++ evs') [] settled abandoned ∧ same_setup x x'.
Proof.
  intros Ha Hr. pose proof (ac_wf _ _ _ _ _ _ _ Ha) as Hwf.
  unfold report_ok in Hr. unfold receive, CheckpointManager.after_report, requests.
  destruct (report_checkpoint report) as [c|] eqn:Hc.
  2: { rewrite Hr. cbn [mbind result_bind fst snd map]. unfold after_report. rewrite Hr.
       eexists _, (map Stored []). split; [done|]. rewrite app_nil_r. split; [|done].
       apply account_manager; [done|by apply wf_next_index|done|done]. }
  destruct Hr as (Hf & Hm & Hn & Hsp).
  destruct (account_not_requested _ _ _ _ _ c Ha Hn) as [Hnp Hns].
  destruct (register_ok c (report_metrics report) (validation report) _ Hwf Hf Hm) as (rs & Hw & Hp & ->).
  cbn [mbind result_bind fst snd]. set (w := registered _ _ _ _ _) in *.
  set (m := forgot (deleted_checkpoints w) (pruned w)).
  assert (wf m) as Hm' by by apply pruned_wf.
  assert (∀ d, d ∈ settled → settled_ok (_checkpoint_manager x) d → settled_ok m d) as Hset.
  { intros d Hd. apply (register_status c (report_metrics report) (validation report) _ rs); try done.
    by intros ->. }
  eexists _, (map Stored (OpenSnapshot :: WriteSnapshot _ :: map DeletePath _)). split; [done|]. unfold after_report.
  destruct (validation report) as [spec|] eqn:Hv.
  - split; [|done]. apply (account_request x m report c); try done.
    + exists c, spec. split_and!; [done|done|by apply Hsp].
    + change (pending_keys m) with (dset (CheckpointManager._pending_training_results (_checkpoint_manager x)) c
        (length (CheckpointManager.heap (_checkpoint_manager x)), spec)).*1.
      by apply dset_keys_perm.
  - rewrite app_nil_r. split; [|done]. by apply account_manager.
Qed.

(** ** Starting, and starting again *)

(** The validations a saved manager still waits for can be started. *)
Definition pending_ok m : Prop :=
  Forall (λ p : Checkpoint * (nat * validation_spec V), spec_ok p.2.2)
    (CheckpointManager._pending_training_results m).

Lemma incomplete_ok m : wf m → pending_ok m →
  ∃ queue, incomplete m = Ok queue ∧ Forall queued_ok queue ∧ omap report_checkpoint queue = pending_keys m.
Proof.
  intros Hm Hp. unfold incomplete.
  assert (∀ p, p ∈ CheckpointManager._pending_training_results m →
    is_Some (CheckpointManager.heap m !! p.2.1)) as Hin.
  { intros [c [r sp]] H. apply dget_wf_elem in H; [|apply wf_pending, Hm].
    destruct (wf_pending_in m Hm c r sp H) as [Hr _]. simpl.
    apply lookup_lt_is_Some. by apply result_live_lt. }
  unfold pending_ok in Hp. revert Hp Hin.
  generalize (CheckpointManager._pending_training_results m) as l. intros l.
  induction l as [|[c [r sp]] l IH]; intros Hp Hin.
  { exists []. split_and!; [done|constructor|done]. }
  apply Forall_cons in Hp as [Hsp Hp].
  destruct (IH Hp) as (queue & Hq & Hok & Hom); [intros; apply Hin; by right|].
  destruct (Hin (c, (r, sp))) as [tr Htr]; [left|]. simpl in Htr.
  assert (CheckpointManager.deref m r = Ok tr) as Hd by (unfold CheckpointManager.deref; by rewrite Htr).
  cbn [result_map fst snd]. rewrite Hd. cbn [mbind result_bind]. rewrite Hq. cbn [mbind result_bind].
  eexists. split; [done|]. split; [constructor; [|done]; by exists c, sp|].
  cbn [omap list_omap]. rewrite fmap_cons. by rewrite <-Hom.
Qed.

Lemma init_account m config : wf m → pending_ok m →
  timeout_ok (timeout_s (task_config config)) = true →
  ∃ x, init m config = Ok x ∧ account x (pending_keys m) [] [] [] [] ∧ _checkpoint_manager x = m.
Proof.
  intros Hm Hp Ht. destruct (incomplete_ok m Hm Hp) as (queue & Hq & Hok & Hom).
  unfold init. rewrite Hq. cbn [mbind result_bind]. eexists. split; [done|]. split; [|done].
  assert (∀ task c, ¬ has_task {| _checkpoint_manager := m; _validation_config := config;
    _training_report_queue := queue; _pending_validations := []; _timed_out_tasks := [];
    _finished_validations := []; next_task := 0 |} task c) as Hno.
  { intros task c [(p & ?%elem_of_nil & _)|?%elem_of_nil]; done. }
  split; try done; unfold tracked, queued, running, finished; simpl; rewrite ?Hom, ?app_nil_r; try done.
  - split; simpl; try done; try apply NoDup_nil_2.
    + by intros task ?%elem_of_nil.
    + by intros task [?%elem_of_nil|?%elem_of_nil].
    + apply Nat.le_0_l.
  - by intros task c ?%Hno.
  - by intros u ?%elem_of_nil.
  - by intros c ?%elem_of_nil.
  - by intros c ?%elem_of_nil.
Qed.

(** ** A controller update *)
Lemma state_update_account env is_terminal x requested evs settled abandoned :
  account x requested evs [] settled abandoned → env_ok env →
  outcomes_ok outcome (CheckpointManager._checkpoint_config (_checkpoint_manager x)) →
  match after_controller_state_update outcome env is_terminal x with
  | Ok (x', evs') => same_setup x x' ∧
      (is_terminal = false → _pending_validations x' = [] → _training_report_queue x' = []) ∧
      ∃ settled' abandoned', account x' requested (evs ++ evs') [] settled' abandoned'
  | Raise e => e = RayError ∧ loses outcome x ∧ same_setup x (poll_raised (J:=J) env x).1 ∧
      ∃ abandoned', account (poll_raised (J:=J) env x).1 requested (evs ++ (poll_raised env x).2) [] settled abandoned'
  end.
Proof.
  intros Ha He Ho. unfold after_controller_state_update. destruct is_terminal.
  { split; [done|]. split; [done|]. exists settled, abandoned. by rewrite app_nil_r. }
  pose proof (poll_account outcome env x _ _ _ _ Ha He Ho) as Hp.
  destruct (_poll_validations outcome env x) as [[[y evs1] n]|e]; cbn [mbind result_bind fst snd].
  2: { destruct Hp as (-> & Hl & Hp & Hb). split; [done|]. split; [done|]. split; [apply Hp|done]. }
  destruct Hp as (_ & [[Hc1 Hc2] _ _ _] & _ & st & ab & Hy).
  destruct (kick_off_ok outcome env y _ _ _ _ Hy) as (x' & evs2 & -> & Hx & [Hc3 Hc4] & Hl & Hr & _).
  cbn [mbind result_bind fst snd]. split; [split; congruence|]. split.
  - intros _ Hp. rewrite Hp in Hr. cbn [length] in Hr. apply length_zero_iff_nil. lia.
  - exists st, ab. by rewrite app_assoc.
Qed.

(** ** Shutdown *)

(** One iteration of the loop, and what is left to do after it. *)
Definition work (N k : nat) x : nat := ((N - k) + length (_training_report_queue x))%nat.

(** A validation of the run, launched or not, whose worker is lost. *)
Definition will_lose x : Prop := ∃ task, may_run x task ∧ outcome task = TaskLost.

Lemma loses_will x : loses outcome x → will_lose x.
Proof. intros (task & c & Ht & Hl). exists task. split; [left; by exists c|done]. Qed.

Lemma loop_account envs N fuel k x requested evs settled abandoned :
  (∀ j, env_ok (envs j)) → (∀ j, (N ≤ j)%nat → all_done (envs j)) →
  account x requested evs [] settled abandoned →
  outcomes_ok outcome (CheckpointManager._checkpoint_config (_checkpoint_manager x)) →
  (work N k x < fuel)%nat →
  match shutdown_loop outcome envs fuel k x with
  | Ok (Some (x', evs')) => same_setup x x' ∧ _pending_validations x' = [] ∧ _training_report_queue x' = [] ∧
      (∀ task, may_run x' task → may_run x task) ∧
      ∃ settled' abandoned', account x' requested (evs ++ evs') [] settled' abandoned'
  | Ok None => False
  | Raise e => e = RayError ∧ will_lose x
  end.
Proof.
  intros He Hdone. revert k x evs settled abandoned.
  induction fuel as [|fuel IH]; intros k x evs settled abandoned Ha Ho Hw; [lia|].
  cbn [shutdown_loop]. pose proof (poll_account outcome (envs k) x _ _ _ _ Ha (He k) Ho) as Hpoll.
  destruct (_poll_validations outcome (envs k) x) as [[[y evs1] n]|e]; cbn [mbind result_bind fst snd].
  2: { destruct Hpoll as (-> & Hl & _). split; [done|by apply loses_will]. }
  destruct Hpoll as (-> & Hxy & Hall & st & ab & Hy). pose proof Hxy as [[Hc1 Hc2] Hq _ _].
  assert (∀ z evs2 st2 ab2, account z requested (evs ++ evs2) [] st2 ab2 → same_setup x z →
    (∀ task, may_run z task → may_run x task) → (work N (S k) z < fuel)%nat →
    match (r ← shutdown_loop outcome envs fuel (S k) z;
       Ok (option_map (λ r : t V * list (event V J), (r.1, evs2 ++ r.2)) r)) with
    | Ok (Some (x', evs')) => same_setup x x' ∧ _pending_validations x' = [] ∧ _training_report_queue x' = [] ∧
        (∀ task, may_run x' task → may_run x task) ∧
        ∃ settled' abandoned', account x' requested (evs ++ evs') [] settled' abandoned'
    | Ok None => False
    | Raise e => e = RayError ∧ will_lose x
    end) as Hmore.
  { intros z evs2 st2 ab2 Hz [Hz1 Hz2] Hrun Hwz. rewrite <-Hz2 in Ho. specialize (IH (S k) z _ _ _ Hz Ho Hwz).
    destruct (shutdown_loop outcome envs fuel (S k) z) as [[[x' evs']|]|e]; cbn [mbind result_bind option_map fst snd]; [|done|].
    - destruct IH as ([] & Hp' & Hq' & Hr' & st' & ab' & Hx'). split; [split; congruence|]. split; [done|]. split; [done|].
      split; [auto|]. exists st', ab'. by rewrite app_assoc.
    - destruct IH as (-> & task & Ht & Hl). split; [done|]. exists task. auto. }
  unfold work in *.
  destruct (Nat.eqb_spec (length (_pending_validations y)) 0) as [Hp|Hp]; cbn [negb].
  2: { apply (Hmore _ _ _ _ Hy); [by split|intros task; by apply polled_may_run|]. rewrite Hq.
       destruct (decide (N ≤ k)%nat) as [Hk|Hk]; [|lia]. by rewrite (Hall (Hdone k Hk)) in Hp. }
  apply length_zero_iff_nil in Hp.
  destruct (kick_off_ok outcome (envs k) y _ _ _ _ Hy) as (z & evs2 & -> & Hz & [Hc3 Hc4] & Hkick).
  destruct Hkick as (Hlen & Hrun & Hmay). rewrite Hp in Hlen, Hrun. cbn [length] in Hlen, Hrun. cbn [mbind result_bind fst snd].
  assert (same_setup x z) as Hs by (split; congruence).
  assert (∀ task, may_run z task → may_run x task) as Hxz by (intros task Ht; eapply polled_may_run, Hmay; done).
  rewrite <-app_assoc in Hz.
  destruct (Nat.eqb_spec (length (_pending_validations z)) 0) as [Hp'|Hp']; cbn [negb].
  - split; [done|]. split; [by apply length_zero_iff_nil|]. split; [apply length_zero_iff_nil; lia|].
    split; [done|]. exists st, ab. done.
  - apply (Hmore _ _ _ _ Hz Hs Hxz). rewrite Hlen. rewrite Hrun in Hp'. rewrite Hq in *. lia.
Qed.

(** The finished validations, one after the other. *)
Lemma drain_one_account x requested evs us settled abandoned task c rest :
  account x requested evs us settled abandoned → _finished_validations x = (task, c) :: rest →
  outcomes_ok outcome (CheckpointManager._checkpoint_config (_checkpoint_manager x)) →
  match drain_one outcome (x, us) task with
  | Ok (x', us') => x' = set_tasks (_pending_validations x) (discard_task task (_timed_out_tasks x)) rest (next_task x) x ∧
      ∃ abandoned', account x' requested evs us' settled abandoned'
  | Raise e => e = RayError ∧ outcome task = TaskLost
  end.
Proof.
  intros Ha Hx Ho. unfold drain_one. cbn [fst snd]. rewrite Hx. cbn [dget ddel].
  rewrite !decide_True by done. cbn [or_raise mbind result_bind].
  pose proof (process_spec outcome task (set_tasks (_pending_validations x) (_timed_out_tasks x) rest (next_task x) x)) as Hp.
  destruct (_process_finished_validation _ _ _) as [[y u]|e]; cbn [mbind result_bind fst snd]; [|done].
  destruct Hp as [Hu ->]. split; [done|].
  pose proof (account_pop outcome x requested evs us settled abandoned task c rest (discard_task task (_timed_out_tasks x)) u Ha Hx Ho Hu) as Hp.
  destruct u as [u|]; [by exists abandoned|by exists (c :: abandoned)].
Qed.

Lemma drain_account l x requested evs us settled abandoned :
  account x requested evs us settled abandoned → (_finished_validations x).*1 = l →
  outcomes_ok outcome (CheckpointManager._checkpoint_config (_checkpoint_manager x)) →
  match result_fold (drain_one outcome) (x, us) l with
  | Ok (x', us') => same_setup x x' ∧ _finished_validations x' = [] ∧
      _pending_validations x' = _pending_validations x ∧ _training_report_queue x' = _training_report_queue x ∧
      ∃ abandoned', account x' requested evs us' settled abandoned'
  | Raise e => e = RayError ∧ loses outcome x
  end.
Proof.
  revert x us abandoned. induction l as [|task l IH]; intros x us abandoned Ha Hl Ho; cbn [result_fold].
  { split; [done|]. split; [by apply fmap_nil_inv in Hl|]. split; [done|]. split; [done|]. by exists abandoned. }
  destruct (_finished_validations x) as [|[k c] rest] eqn:Hx; [done|].
  rewrite fmap_cons in Hl. injection Hl as -> Hrest. cbn [mbind result_bind].
  pose proof (drain_one_account _ _ _ _ _ _ _ _ _ Ha Hx Ho) as Hd.
  destruct (drain_one outcome (x, us) task) as [[y us']|e]; cbn [mbind result_bind].
  2: { destruct Hd as [-> Hl]. split; [done|]. exists task, c. split; [right; rewrite Hx; left|done]. }
  destruct Hd as (-> & ab' & Ha'). specialize (IH _ us' ab' Ha' Hrest Ho).
  destruct (result_fold _ _ _) as [[x' us2]|e].
  - destruct IH as ([] & Hrem). split; [by split|done].
  - destruct IH as (-> & task' & c' & Ht & Hl). split; [done|]. exists task', c'. split; [|done].
    destruct Ht as [Ht|Ht]; [by left|right; rewrite Hx; by right].
Qed.

Lemma shutdown_account envs N fuel x requested evs settled abandoned :
  (∀ j, env_ok (envs j)) → (∀ j, (N ≤ j)%nat → all_done (envs j)) →
  account x requested evs [] settled abandoned →
  outcomes_ok outcome (CheckpointManager._checkpoint_config (_checkpoint_manager x)) →
  (N + length (_training_report_queue x) < fuel)%nat →
  match before_controller_shutdown outcome envs fuel x with
  | Ok (Some (x', evs')) => tracked x' = [] ∧
      ∃ settled' abandoned', account x' requested (evs ++ evs') [] settled' abandoned'
  | Ok None => False
  | Raise e => e = RayError ∧ will_lose x
  end.
Proof.
  intros He Hd Ha Ho Hf. unfold before_controller_shutdown.
  pose proof (loop_account envs N fuel 0 x _ _ _ _ He Hd Ha Ho ltac:(unfold work; lia)) as Hloop.
  destruct (shutdown_loop outcome envs fuel 0 x) as [[[y evs1]|]|e]; cbn [mbind result_bind fst snd]; [|done|done].
  destruct Hloop as ([Hc1 Hc2] & Hp & Hq & Hmay & st & ab & Hy). rewrite <-Hc2 in Ho.
  pose proof (drain_account _ y _ _ _ _ _ Hy eq_refl Ho) as Hdr.
  destruct (result_fold _ _ _) as [[z us]|e]; cbn [mbind result_bind fst snd].
  2: { destruct Hdr as (-> & (task & Ht & Hl)%loses_will). split; [done|]. exists task. auto. }
  destruct Hdr as ([Hc3 Hc4] & Hfin & Hpz & Hqz & ab' & Hz).
  destruct (account_update outcome z _ _ _ _ _ Hz) as (m & acts & -> & Hm & Hc5). cbn [mbind result_bind fst snd].
  split; [unfold tracked, queued, running, finished; simpl; by rewrite Hqz, Hq, Hpz, Hp, Hfin|].
  exists (us.*1 ++ st), ab'. by rewrite app_assoc.
Qed.
End steps.
