(* ===== verification/ReportHandlerFacts.v ===== *)
(** * The report handler: rounds of reports

    The handler against a reference that knows the whole history: round [k] is
    the [k]-th report of every worker. *)
From S2P Require Import Prelude PyDict PyFloat Checkpoints Validation.

Import ReportCallbackHandler.

Lemma head_of_drop {A} (l : list A) k : head (drop k l) = l !! k.
Proof. revert k. induction l as [|x l IH]; intros [|k]; simpl; [done..|apply IH]. Qed.

Lemma tail_of_drop {A} (l : list A) k : tail (drop k l) = drop (Datatypes.S k) l.
Proof. revert k. induction l as [|x l IH]; intros [|k]; simpl; [done..|apply IH]. Qed.

Section handler.
Context {Spec S : Type}.
Implicit Types (polls : list (list (option (TrainingReport Spec)))).
Variables (callbacks : list (TrainingReport Spec → list metrics → S → result S)) (n : nat).

(** The reports of worker [i] in a sequence of polls. *)
Definition received polls (i : nat) : list (TrainingReport Spec) :=
  omap (λ p : list (option (TrainingReport Spec)), mjoin (p !! i)) polls.

Definition round polls (k : nat) : list (TrainingReport Spec) :=
  omap (λ i, received polls i !! k) (seq 0 n).

(** What the callbacks do for a round. *)
Definition deliver (reports : list (TrainingReport Spec)) (s : S) : result S :=
  report ← consolidate reports;
  result_fold (λ s callback, callback report (map report_metrics reports) s) s callbacks.

Definition deliver_rounds polls (r : nat) (s : S) : result S :=
  result_fold (λ s k, deliver (round polls k) s) s (seq 0 r).

(** The handler after [r] rounds. *)
Definition pending_after polls (r : nat) : t Spec :=
  {| _worker_group := Some n; _training_report_queues := Some (map (λ i, drop r (received polls i)) (seq 0 n)) |}.

Definition poll_all polls (s : S) : result (t Spec * S) :=
  result_fold (λ st p, after_worker_group_poll_status callbacks p st.1 st.2) (after_worker_group_start n, s) polls.

(** [r] rounds are complete, and no more. *)
Definition rounds polls (r : nat) : Prop :=
  (∀ i, (i < n)%nat → (r ≤ length (received polls i))%nat) ∧
  (∃ i, (i < n)%nat ∧ length (received polls i) = r).

Lemma received_snoc polls p i : received (polls ++ [p]) i = received polls i ++ option_list (mjoin (p !! i)).
Proof.
  unfold received. rewrite omap_app. by f_equal.
Qed.

Lemma enqueue_received polls p r : length p = n → (∀ i, (i < n)%nat → (r ≤ length (received polls i))%nat) →
  enqueue (map (λ i, drop r (received polls i)) (seq 0 n)) p =
    map (λ i, drop r (received (polls ++ [p]) i)) (seq 0 n).
Proof.
  intros Hp Hr. unfold enqueue. apply list_eq. intros i.
  rewrite lookup_zip_with, !list_lookup_fmap.
  destruct (decide (i < n)%nat) as [Hi|Hi].
  2: { by rewrite lookup_seq_ge by lia. }
  rewrite lookup_seq_lt by done. destruct (lookup_lt_is_Some_2 p i) as [s Hs]; [lia|].
  rewrite Hs. simpl. f_equal.
  by rewrite received_snoc, Hs, drop_app_le by (by apply Hr).
Qed.

Lemma round_snoc polls p r k : (∀ i, (i < n)%nat → (r ≤ length (received polls i))%nat) → (k < r)%nat →
  round (polls ++ [p]) k = round polls k.
Proof.
  intros Hr Hk. unfold round. apply list_omap_ext, Forall2_same_length_lookup_2; [done|].
  intros i j j' Hj Hj'. rewrite Hj in Hj'. injection Hj' as <-. apply lookup_seq in Hj as [-> Hi].
  rewrite received_snoc, lookup_app_l; [done|]. specialize (Hr i Hi). simpl. lia.
Qed.

Lemma deliver_snoc polls p r s : (∀ i, (i < n)%nat → (r ≤ length (received polls i))%nat) →
  deliver_rounds (polls ++ [p]) r s = deliver_rounds polls r s.
Proof.
  intros Hr. unfold deliver_rounds.
  assert (∀ l s, (∀ k, k ∈ l → (k < r)%nat) →
    result_fold (λ s k, deliver (round (polls ++ [p]) k) s) s l =
    result_fold (λ s k, deliver (round polls k) s) s l) as H.
  { induction l as [|k l IH]; intros u Hl; [done|]. cbn [result_fold].
    rewrite (round_snoc polls p r k Hr) by (apply Hl; left).
    destruct (deliver (round polls k) u); [|done]. apply IH. intros j Hj. apply Hl. by right. }
  apply H. intros k Hk%elem_of_seq. lia.
Qed.

(** Whether a queue is empty. *)
Lemma some_empty polls r :
  existsb (λ q : list (TrainingReport Spec), match q with [] => true | _ => false end)
    (map (λ i, drop r (received polls i)) (seq 0 n)) = true ↔
  ∃ i, (i < n)%nat ∧ (length (received polls i) ≤ r)%nat.
Proof.
  rewrite existsb_exists. split.
  - intros (q & Hq & Hnil). apply in_map_iff in Hq as (i & <- & Hi%in_seq). exists i. split; [lia|].
    destruct (drop r (received polls i)) eqn:E; [|done]. by apply drop_nil_inv in E.
  - intros (i & Hi & Hle). exists []. split; [|done]. apply in_map_iff. exists i.
    split; [by apply drop_ge|]. apply in_seq. lia.
Qed.

(** One poll, on the state after [r] rounds. *)
Lemma poll_one polls p r s : length p = n → (0 < n)%nat →
  (∀ i, (i < n)%nat → (r ≤ length (received polls i))%nat) →
  after_worker_group_poll_status callbacks p (pending_after polls r) s =
    if existsb (λ q : list (TrainingReport Spec), match q with [] => true | _ => false end)
         (map (λ i, drop r (received (polls ++ [p]) i)) (seq 0 n))
    then Ok (pending_after (polls ++ [p]) r, s)
    else s' ← deliver (round (polls ++ [p]) r) s; Ok (pending_after (polls ++ [p]) (Datatypes.S r), s').
Proof.
  intros Hp Hn Hr. unfold after_worker_group_poll_status.
  assert (_assert_initialized (pending_after polls r) =
    Ok (n, map (λ i, drop r (received polls i)) (seq 0 n))) as ->.
  { unfold _assert_initialized, pending_after. simpl. by destruct n as [|k]; [lia|]. }
  cbn [mbind result_bind]. rewrite Hp, Nat.eqb_refl. cbn [py_assert mbind result_bind].
  rewrite (enqueue_received polls p r Hp Hr). destruct (existsb _ _); [done|].
  assert (omap head (map (λ i, drop r (received (polls ++ [p]) i)) (seq 0 n)) = round (polls ++ [p]) r) as ->.
  { unfold round. generalize (seq 0 n) as l. induction l as [|i l IH]; [done|].
    cbn [map omap list_omap]. by rewrite <-IH, head_of_drop. }
  unfold deliver. destruct (consolidate _) as [report|]; [|done]. cbn [mbind result_bind].
  destruct (result_fold _ _ _) as [s'|]; [|done]. cbn [mbind result_bind]. do 3 f_equal.
  unfold pending_after. do 2 f_equal. rewrite map_map. apply map_ext. intros i. apply tail_of_drop.
Qed.

Lemma poll_step polls p r s : length p = n → rounds polls r →
  ∃ r', rounds (polls ++ [p]) r' ∧
    (s' ← deliver_rounds polls r s; after_worker_group_poll_status callbacks p (pending_after polls r) s') =
    (s' ← deliver_rounds (polls ++ [p]) r' s; Ok (pending_after (polls ++ [p]) r', s')).
Proof.
  intros Hp [Hr (j & Hj & Hjr)].
  assert (∀ i, (i < n)%nat → (r ≤ length (received (polls ++ [p]) i))%nat) as Hr'.
  { intros i Hi. rewrite received_snoc, length_app. specialize (Hr i Hi). lia. }
  assert (length (received (polls ++ [p]) j) ≤ r + 1)%nat as Hj'.
  { rewrite received_snoc, length_app, Hjr. destruct (mjoin (p !! j)); simpl; lia. }
  pose proof (λ s, poll_one polls p r s Hp ltac:(lia) Hr) as Hstep.
  destruct (existsb _ _) eqn:E.
  - apply some_empty in E as (i & Hi & Hle). exists r. split.
    { split; [done|]. exists i. specialize (Hr' i Hi). split; [done|lia]. }
    rewrite deliver_snoc by done. destruct (deliver_rounds polls r s) as [s'|]; [|done]. apply Hstep.
  - assert (∀ i, (i < n)%nat → (r < length (received (polls ++ [p]) i))%nat) as Hlt.
    { intros i Hi. destruct (decide (length (received (polls ++ [p]) i) ≤ r)%nat) as [Hle|]; [|lia].
      assert (true = false) as [=]. rewrite <-E. symmetry. apply some_empty. by exists i. }
    exists (Datatypes.S r). split.
    { split; [exact Hlt|]. exists j. split; [done|]. specialize (Hlt j Hj). lia. }
    unfold deliver_rounds at 2. rewrite seq_S, result_fold_app. cbn [result_fold plus].
    change (result_fold _ s (seq 0 r)) with (deliver_rounds (polls ++ [p]) r s).
    rewrite (deliver_snoc polls p r s Hr).
    destruct (deliver_rounds polls r s) as [s'|]; [|done]. cbn [mbind result_bind]. rewrite Hstep.
    by destruct (deliver (round (polls ++ [p]) r) s').
Qed.
End handler.

(** C33: After any sequence of polls of a group of [n] > 0 workers, the handler
    has run the callbacks for the complete rounds and for nothing else: for
    [k] below the least number of reports any worker has made, in order of
    [k], the callbacks receive the consolidation of every worker's [k]-th
    report and all their metrics.  The queues hold the remaining reports,
    some queue is empty, and the first round that cannot be consolidated, or
    the first callback to raise, determines the exception. *)
Theorem report_handler_rounds {Spec S : Type}
    (callbacks : list (TrainingReport Spec → list metrics → S → result S)) (n : nat)
    (polls : list (list (option (TrainingReport Spec)))) (s : S) :
  (0 < n)%nat → Forall (λ p, length p = n) polls →
  ∃ r, rounds n polls r ∧
    poll_all callbacks n polls s =
      s' ← deliver_rounds callbacks n polls r s; Ok (pending_after n polls r, s').
Proof.
  intros Hn. induction polls as [|p polls IH] using rev_ind; intros Hp.
  - exists 0%nat. split; [split; [intros; apply Nat.le_0_l|by exists 0%nat]|].
    unfold poll_all, after_worker_group_start, pending_after. cbn. do 4 f_equal.
    assert (∀ j, map (λ i, drop 0 (received (Spec:=Spec) [] i)) (seq j n) = replicate n []) as H; [|by rewrite H].
    clear. induction n as [|n IH]; intros j; [done|]. simpl. by rewrite <-(IH (Datatypes.S j)).
  - apply Forall_app in Hp as [Hp Hlast]. rewrite Forall_singleton in Hlast.
    destruct (IH Hp) as (r & Hr & He).
    destruct (poll_step callbacks n polls p r s Hlast Hr) as (r' & Hr' & Hs). exists r'. split; [done|].
    unfold poll_all. rewrite result_fold_app.
    change (result_fold _ _ polls) with (poll_all callbacks n polls s). rewrite He, <-Hs.
    destruct (deliver_rounds callbacks n polls r s) as [s'|]; [|done]. cbn [mbind result_bind result_fold fst snd].
    by destruct (after_worker_group_poll_status _ _ _ _).
Qed.

(** ** Two workers, the second slower *)
Module TwoWorkers.
Definition ck (n : Z) : Checkpoint := {| uuid := n; path := "exp/c" |}.
Definition plain : TrainingReport nat := {| report_checkpoint := None; report_metrics := []; validation := None |}.
Definition with_ck (n : Z) (v : nat) : TrainingReport nat :=
  {| report_checkpoint := Some (ck n); report_metrics := [("n", MInt n)]; validation := Some v |}.

(** A callback that logs what it is told. *)
Definition log (r : TrainingReport nat) (ms : list metrics) (s : list (TrainingReport nat * list metrics)) :
    result (list (TrainingReport nat * list metrics)) := Ok (s ++ [(r, ms)]).

Definition polls : list (list (option (TrainingReport nat))) :=
  [[Some plain; None]; [Some (with_ck 1 7); Some (with_ck 2 8)]; [None; Some (with_ck 3 9)]; [Some plain; None]].

(** The second round takes the first worker's checkpoint and specification. *)
Example polls_logged : poll_all [log] 2 polls [] = Ok (pending_after 2 polls 2,
  [({| report_checkpoint := Some (ck 2); report_metrics := []; validation := Some 8%nat |}, [[]; [("n", MInt 2)]]);
   (with_ck 1 7, [[("n", MInt 1)]; [("n", MInt 3)]])]).
Proof. vm_compute. reflexivity. Qed.
End TwoWorkers.

Lemma report_handler_rounds_witness :
  ∃ r, rounds 2 TwoWorkers.polls r ∧
    poll_all [TwoWorkers.log] 2 TwoWorkers.polls [] =
      s' ← deliver_rounds [TwoWorkers.log] 2 TwoWorkers.polls r []; Ok (pending_after 2 TwoWorkers.polls r, s').
Proof. apply (report_handler_rounds [TwoWorkers.log] 2 TwoWorkers.polls []); [lia|by repeat constructor]. Defined.
