(* ===== verification/ValidationProps.v ===== *)
(** * Validations: the manager's contract

    What a run of the validation manager guarantees: a run starts from a
    (new or restored) checkpoint manager, receives consolidated reports and is
    called at every controller update. *)
From S2P Require Import Prelude PyDict PyFloat Checkpoints CheckpointOrder CheckpointFacts.
From S2P Require Import CheckpointUpdate CheckpointProps Validation ValidationFacts ValidationSteps.

Import ValidationManager.

Section props.
Context {V J : Type} `{!SnapshotCodec (validation_spec V) J}.
(** The outcomes of the tasks, and the two managers' configurations. *)
Context (outcome : nat → task_outcome) (cfg : CheckpointConfig) (config : ValidationConfig V).
Implicit Types (x : t V) (m : CheckpointManager.t (validation_spec V)) (c : Checkpoint)
  (evs : list (event V J)).

Abbreviation pending_keys m := ((CheckpointManager._pending_training_results m).*1).

(** The states a run reaches, with the checkpoints whose validation was
    requested and the events so far, also after updates that raised. *)
Inductive reachable : t V → list Checkpoint → list (event V J) → Prop :=
  | reach_init m x :
      wf m → pending_ok m → CheckpointManager._checkpoint_config m = cfg →
      timeout_ok (timeout_s (task_config config)) = true →
      init m config = Ok x → reachable x (pending_keys m) []
  | reach_report report x requested evs x' evs' :
      reachable x requested evs → report_ok requested (_checkpoint_manager x) report →
      receive report x = Ok (x', evs') → reachable x' (requested ++ requests report) (evs ++ evs')
  | reach_update env is_terminal x requested evs x' evs' :
      reachable x requested evs → env_ok env →
      after_controller_state_update outcome env is_terminal x = Ok (x', evs') →
      reachable x' requested (evs ++ evs')
  | reach_raised env is_terminal x requested evs e :
      reachable x requested evs → env_ok env →
      after_controller_state_update (J:=J) outcome env is_terminal x = Raise e →
      reachable (poll_raised (J:=J) env x).1 requested (evs ++ (poll_raised env x).2).

Definition cfg_kept x : Prop := CheckpointManager._checkpoint_config (_checkpoint_manager x) = cfg.

(** Everything reachable has an account. *)
Lemma reachable_account x requested evs : outcomes_ok outcome cfg → reachable x requested evs →
  cfg_kept x ∧ NoDup requested ∧ ∃ settled abandoned, account outcome x requested evs [] settled abandoned.
Proof.
  intros Ho. unfold cfg_kept.
  induction 1 as [m x Hm Hp Hc Ht Hx|report x req evs x' evs' _ (Hk & Hn & st & ab & Ha) Hr Hx
    |env term x req evs x' evs' _ (Hk & Hn & st & ab & Ha) He Hx
    |env term x req evs e _ (Hk & Hn & st & ab & Ha) He Hx].
  - destruct (init_account (J:=J) outcome m config Hm Hp Ht) as (y & Hy & Ha & Hym).
    rewrite Hy in Hx. injection Hx as <-. rewrite Hym. split; [done|].
    split; [apply (wf_pending m Hm)|]. by exists [], [].
  - destruct (receive_account outcome report x req evs st ab Ha Hr) as (y & evs2 & Hy & Hay & [_ Hcy]).
    rewrite Hy in Hx. injection Hx as <- <-. split; [congruence|]. split; [|by exists st, ab].
    unfold requests. unfold report_ok in Hr.
    destruct (validation report); [|by rewrite app_nil_r].
    destruct (report_checkpoint report) as [c|]; simpl; [|by rewrite app_nil_r].
    apply NoDup_app. split; [done|]. split; [|apply NoDup_singleton].
    intros d Hd ->%list_elem_of_singleton. by destruct Hr as (_ & _ & ? & _).
  - pose proof (state_update_account outcome env term x req evs st ab Ha He ltac:(by rewrite Hk)) as Hu. rewrite Hx in Hu.
    destruct Hu as ([_ Hcy] & _ & st2 & ab2 & Hay). split; [congruence|]. split; [done|]. by exists st2, ab2.
  - pose proof (state_update_account outcome env term x req evs st ab Ha He ltac:(by rewrite Hk)) as Hu. rewrite Hx in Hu.
    destruct Hu as (_ & _ & [_ Hcy] & ab2 & Hay). split; [congruence|]. split; [done|]. by exists st, ab2.
Qed.

(** C9: Whatever reports arrive and whenever the controller is updated, every
    requested validation is accounted for: it is queued, running (at most one
    at a time), finished, settled with a terminal status, or abandoned because
    its task was cancelled from outside or its worker was lost; and no two of
    these at once.  Exactly those neither queued nor untouched have been
    launched, each once; the checkpoint manager waits for exactly those not
    settled, so none is deleted before it is.  The next update returns, and
    leaves nothing queued unless a validation is in flight, or it raises
    [RayError], and then only for a finished or running validation whose worker
    is lost; the account holds as well after updates that raised.  Reports are
    of new checkpoints in directories of their own, and the metrics reported
    and returned can be scored. *)
Theorem validations_accounted x requested evs :
  outcomes_ok outcome cfg → reachable x requested evs →
  NoDup requested ∧ wf (_checkpoint_manager x) ∧
  (length (_pending_validations x) ≤ MAX_IN_FLIGHT_VALIDATIONS)%nat ∧
  (∃ settled abandoned,
    requested ≡ₚ queued x ++ running x ++ finished x ++ settled ++ abandoned ∧
    launched evs ≡ₚ running x ++ finished x ++ settled ++ abandoned ∧
    pending_keys (_checkpoint_manager x) ≡ₚ queued x ++ running x ++ finished x ++ abandoned ∧
    (∀ c, c ∈ settled → settled_ok (_checkpoint_manager x) c) ∧
    (∀ c, c ∈ abandoned → ∃ task, was_launched evs task c ∧ no_result (outcome task))) ∧
  (∀ env is_terminal, env_ok env →
    match after_controller_state_update (J:=J) outcome env is_terminal x with
    | Ok (x', _) => is_terminal = false → _pending_validations x' = [] → _training_report_queue x' = []
    | Raise e => e = RayError ∧ loses outcome x
    end).
Proof.
  intros Ho Hx. destruct (reachable_account x requested evs Ho Hx) as (Hk & Hn & st & ab & Ha).
  split; [done|]. split; [apply Ha|]. split; [apply Ha|]. split.
  - exists st, ab. destruct Ha as [_ _ Hreq Hman Hla _ _ Hse Hab]. unfold tracked in *. simpl in *.
    rewrite <-?app_assoc in *. by split_and!.
  - intros env term He. pose proof (state_update_account outcome env term x _ _ _ _ Ha He ltac:(by rewrite Hk)) as Hu.
    destruct (after_controller_state_update _ _ _ _) as [[x' evs']|e]; [apply Hu|by destruct Hu as (? & ? & _)].
Qed.

(** C34: Shutting down from any reachable state terminates, after at most as
    many polls as the tasks need to finish plus one for each queued validation
    and one more.  When it returns, every requested validation has been
    launched exactly once, and each has a terminal status unless its task was
    cancelled from outside or lost before; only those stay pending in the
    checkpoint manager, to be run again after a restart.  It raises only
    [RayError], and only when the worker of a validation that was still to be
    settled is lost; so without such a loss it returns. *)
Theorem validation_shutdown_drains x requested evs envs N :
  outcomes_ok outcome cfg → reachable x requested evs →
  (∀ j, env_ok (envs j)) → (∀ j, (N ≤ j)%nat → all_done (envs j)) →
  match before_controller_shutdown outcome envs (N + length (_training_report_queue x) + 1) x with
  | Ok (Some (x', evs')) => ∃ settled abandoned,
      queued x' = [] ∧ running x' = [] ∧ finished x' = [] ∧ wf (_checkpoint_manager x') ∧
      requested ≡ₚ settled ++ abandoned ∧ launched (evs ++ evs') ≡ₚ requested ∧
      pending_keys (_checkpoint_manager x') ≡ₚ abandoned ∧
      (∀ c, c ∈ settled → settled_ok (_checkpoint_manager x') c) ∧
      (∀ c, c ∈ abandoned → ∃ task, was_launched (evs ++ evs') task c ∧ no_result (outcome task))
  | Ok None => False
  | Raise e => e = RayError ∧ ∃ task, may_run x task ∧ outcome task = TaskLost
  end.
Proof.
  intros Ho Hx He Hd. destruct (reachable_account x requested evs Ho Hx) as (Hk & _ & st & ab & Ha).
  pose proof (shutdown_account outcome envs N (N + length (_training_report_queue x) + 1) x _ _ _ _ He Hd Ha
    ltac:(by rewrite Hk) ltac:(lia)) as Hs.
  destruct (before_controller_shutdown _ _ _ _) as [[[x' evs']|]|e]; [|done|done].
  destruct Hs as (Ht & st' & ab' & [_ Hwf Hreq Hman Hla _ _ Hse Hab]).
  rewrite Ht in Hreq, Hman. unfold tracked in Ht.
  apply app_eq_nil in Ht as [Hq Ht]. apply app_eq_nil in Ht as [Hr Hf].
  rewrite Hr, Hf in Hla. simpl in *. exists st', ab'. split_and!; try done. by rewrite Hla.
Qed.
End props.

(** ** A run with two checkpoints to validate *)
Module ValidationRun.
#[global] Instance spec_codec : SnapshotCodec (validation_spec nat) (ManagerState (validation_spec nat)) :=
  {| to_json s := [s]; of_json j := head j |}.

Definition checkpoints : CheckpointConfig := {| num_to_keep := Some 1;
  checkpoint_score_attribute := None; checkpoint_score_order := MAX |}.
Definition config : ValidationConfig nat :=
  {| fn _ _ := ReturnsDict [("val", MInt 9)]; task_config := {| fn_kwargs := []; timeout_s := None |} |}.
Definition outcome (task : nat) : task_outcome :=
  match task with 0 => Returned [("val", MInt 9)] | 1 => TaskFailed | 2 => TaskLost | _ => TaskCancelled end%nat.

Definition ck (n : Z) (p : string) : Checkpoint := {| uuid := n; path := "exp/" +:+ p |}.
Definition report (n : Z) (p : string) : TrainingReport (validation_spec nat) :=
  {| report_checkpoint := Some (ck n p); report_metrics := [("acc", MInt n)]; validation := Some ValidationTrue |}.

(** Environments in which no task, or every task, is done. *)
Definition busy : environment := {| now := f_zero; now_at_launch _ := f_zero; ray_wait _ := [] |}.
Definition done_env : environment := {| now := f_zero; now_at_launch _ := f_zero; ray_wait tasks := tasks |}.

Lemma busy_ok : env_ok busy.
Proof. intros tasks _. split; [apply NoDup_nil_2|]. by intros task ?%elem_of_nil. Qed.
Lemma done_ok : env_ok done_env.
Proof. intros tasks Hn. by split. Qed.
Lemma done_all : all_done done_env.
Proof. by intros tasks. Qed.

Lemma outcomes_fine : outcomes_ok outcome checkpoints.
Proof.
  intros task ms base _ _. by exists (true, f_neg_inf).
Qed.

(** Two reports, an update in between and one after: the first validation is
    settled and the second is running. *)
Definition manager0 : CheckpointManager.t (validation_spec nat) :=
  CheckpointManager.Build_t checkpoints "exp" [] [] None 0 [] [] [] [] [].
Definition step0 : result (t nat) :=
  m ← CheckpointManager.init checkpoints "exp"; init m config.
Definition then_receive (r : TrainingReport (validation_spec nat))
    (s : result (t nat * list (event nat (ManagerState (validation_spec nat))))) :=
  x ← s; y ← receive r x.1; Ok (y.1, x.2 ++ y.2).
Definition then_update (env : environment)
    (s : result (t nat * list (event nat (ManagerState (validation_spec nat))))) :=
  x ← s; y ← after_controller_state_update outcome env false x.1; Ok (y.1, x.2 ++ y.2).
Definition run :=
  then_update done_env (then_receive (report 2 "b") (then_update busy (then_receive (report 1 "a")
    (x ← step0; Ok (x, []))))).

Lemma reach_then_receive r s y requested :
  (∀ x, s = Ok x → reachable outcome checkpoints config x.1 requested x.2 ∧
     report_ok requested (_checkpoint_manager x.1) r) →
  then_receive r s = Ok y → reachable outcome checkpoints config y.1 (requested ++ requests r) y.2.
Proof.
  unfold then_receive. intros Hs H. destruct s as [x|]; [|done]. destruct (Hs x eq_refl) as [Hx Hr].
  cbn [mbind result_bind] in H. destruct (receive r x.1) as [[z evs]|] eqn:E; [|done].
  injection H as <-. by eapply reach_report.
Qed.

Lemma reach_then_update env s y requested : env_ok env →
  (∀ x, s = Ok x → reachable outcome checkpoints config x.1 requested x.2) →
  then_update env s = Ok y → reachable outcome checkpoints config y.1 requested y.2.
Proof.
  unfold then_update. intros He Hs H. destruct s as [x|]; [|done].
  cbn [mbind result_bind] in H. destruct (after_controller_state_update _ _ _ _) as [[z evs]|] eqn:E; [|done].
  injection H as <-. eapply reach_update; [by apply Hs|done|done].
Qed.

Definition final : t nat * list (event nat (ManagerState (validation_spec nat))) :=
  match run with Ok s => s | Raise _ => (Build_t manager0 config [] [] [] [] 0, []) end.

Example final_lists : (queued final.1, running final.1, finished final.1, launched final.2) =
  ([], [ck 2 "b"], [], [ck 1 "a"; ck 2 "b"]).
Proof. vm_compute. reflexivity. Qed.

Lemma final_reachable : reachable outcome checkpoints config final.1 [ck 1 "a"; ck 2 "b"] final.2.
Proof.
  assert (run = Ok final) as H by by vm_compute. unfold run in H.
  apply (reach_then_update _ _ _ [ck 1 "a"; ck 2 "b"] done_ok) in H; [exact H|]. intros x3 H3.
  apply (reach_then_receive _ _ _ [ck 1 "a"]) in H3; [exact H3|]. intros x2 H2.
  assert (reachable outcome checkpoints config x2.1 [ck 1 "a"] x2.2) as Hr.
  { apply (reach_then_update _ _ _ [ck 1 "a"] busy_ok) in H2; [exact H2|]. intros x1 H1.
    apply (reach_then_receive _ _ _ []) in H1; [exact H1|]. intros x0 H0.
    clear - H0. vm_compute in H0. injection H0 as <-. split.
    - refine (reach_init outcome checkpoints config manager0 _ _ _ eq_refl eq_refl _).
      + by apply (init_wf checkpoints "exp").
      + constructor.
      + reflexivity.
    - split; [|split; [by exists (true, f_neg_inf)|split; [set_solver|by intros spec [= <-]]]].
      split; [by exists "a"|]. by intros r d ?%elem_of_nil. }
  split; [exact Hr|]. clear - H2. vm_compute in H2. injection H2 as <-.
  split; [|split; [by exists (true, f_neg_inf)|split; [|by intros spec [= <-]]]].
  - split; [by exists "b"|]. intros r d Hr'%list_elem_of_singleton. subst r. vm_compute. by intros [= <-].
  - intros Hin%list_elem_of_singleton. done.
Qed.
End ValidationRun.

Lemma validations_accounted_witness : let x := ValidationRun.final.1 in
  ∃ settled abandoned,
    [ValidationRun.ck 1 "a"; ValidationRun.ck 2 "b"] ≡ₚ
      queued x ++ running x ++ finished x ++ settled ++ abandoned ∧
    launched ValidationRun.final.2 ≡ₚ running x ++ finished x ++ settled ++ abandoned.
Proof.
  destruct (validations_accounted ValidationRun.outcome ValidationRun.checkpoints ValidationRun.config
    ValidationRun.final.1 _ _ ValidationRun.outcomes_fine ValidationRun.final_reachable)
    as (_ & _ & _ & (settled & abandoned & Hr & Hl & _) & _).
  exact (ex_intro _ settled (ex_intro _ abandoned (conj Hr Hl))).
Defined.

Lemma validation_shutdown_drains_witness :
  ∃ x' evs' settled abandoned,
    before_controller_shutdown ValidationRun.outcome (λ k, if (k <? 2)%nat then ValidationRun.busy else ValidationRun.done_env)
      (2 + length (_training_report_queue ValidationRun.final.1) + 1) ValidationRun.final.1 = Ok (Some (x', evs')) ∧
    running x' = [] ∧ [ValidationRun.ck 1 "a"; ValidationRun.ck 2 "b"] ≡ₚ settled ++ abandoned.
Proof.
  pose proof (validation_shutdown_drains ValidationRun.outcome ValidationRun.checkpoints ValidationRun.config
    ValidationRun.final.1 _ _ (λ k, if (k <? 2)%nat then ValidationRun.busy else ValidationRun.done_env) 2
    ValidationRun.outcomes_fine ValidationRun.final_reachable) as H.
  destruct (before_controller_shutdown _ _ _ _) as [[[x' evs']|]|e].
  - destruct H as (settled & abandoned & _ & Hrun & _ & _ & Hreq & _).
    + intros j. destruct (j <? 2)%nat; [apply ValidationRun.busy_ok|apply ValidationRun.done_ok].
    + intros j Hj. destruct (Nat.ltb_spec j 2); [lia|apply ValidationRun.done_all].
    + exact (ex_intro _ x' (ex_intro _ evs' (ex_intro _ settled (ex_intro _ abandoned
        (conj eq_refl (conj Hrun Hreq)))))).
  - exfalso. apply H.
    + intros j. destruct (j <? 2)%nat; [apply ValidationRun.busy_ok|apply ValidationRun.done_ok].
    + intros j Hj. destruct (Nat.ltb_spec j 2); [lia|apply ValidationRun.done_all].
  - exfalso. destruct H as (_ & task & [[c [(p & Hp & _)|Hf]]|Hn] & Hl).
    + intros j. destruct (j <? 2)%nat; [apply ValidationRun.busy_ok|apply ValidationRun.done_ok].
    + intros j Hj. destruct (Nat.ltb_spec j 2); [lia|apply ValidationRun.done_all].
    + vm_compute in Hp. apply list_elem_of_singleton in Hp as [= -> _]. discriminate Hl.
    + vm_compute in Hf. by apply elem_of_nil in Hf.
    + vm_compute in Hn. lia.
Defined.

(** A lost worker: the update raises, and afterwards the manager waits for a
    checkpoint that has no task. *)
Module LostRun.
Import ValidationRun.
Definition lost (task : nat) : task_outcome := TaskLost.

Example update_raises :
  after_controller_state_update (J:=ManagerState (validation_spec nat)) lost done_env false final.1 = Raise RayError ∧
  let x := (poll_raised (J:=ManagerState (validation_spec nat)) done_env final.1).1 in
  (queued x, running x, finished x) = ([], [], []) ∧
  (CheckpointManager._pending_training_results (_checkpoint_manager x)).*1 = [ck 2 "b"].
Proof. vm_compute. done. Qed.
End LostRun.
