(* ===== verification/FailurePolicy.v ===== *)
(** * Errors, failure policies and callbacks of the Ray Train controller

    [train/v2/api/exceptions.py], [failure_handling/default.py],
    [failure_handling/failure_policy.py], [controller/state.py],
    [scaling_policy/fixed.py], [callback_manager.py] and
    [worker_group/poll.py] of [train/v2/_internal/execution]. *)
From S2P Require Import Prelude PyDict PyFloat.

#[local] Set Warnings "-register-all".

(** ** Exceptions *)

(** [PyError] is one of Python's own exceptions, [UserError] any exception of
    user code or of a library. *)
Inductive exc : Type :=
  | PyError (e : exn)
  | UserError (id : Z)
  | UserExceptionWithTraceback (base_exc : exc)
  | WorkerGroupStartupFailedError
  | WorkerGroupStartupTimeoutError
  | AsyncioActorExit
  | WorkerGroupError (worker_failures : list (Z * exc))
  | ControllerError (controller_failure : exc).

(** What a call leaves: a value or an exception. *)
Inductive outcome (A : Type) : Type :=
  | Ret (a : A)
  | Exc (e : exc).
Arguments Ret {A} a.
Arguments Exc {A} e.

Definition is_TrainingFailedError (e : exc) : bool :=
  match e with WorkerGroupError _ | ControllerError _ => true | _ => false end.

(** ** Failure policies *)

Record FailureConfig : Type := { max_failures : Z; controller_failure_limit : Z }.

Inductive FailureDecision : Type := RETRY | RAISE | NOOP.

#[export] Instance FailureDecision_eq_dec : EqDecision FailureDecision.
Proof. solve_decision. Defined.

(** The interface the controller uses: a state of its own, and a decision for
    an error, which may itself raise. *)
Class FailurePolicy (P : Type) : Type :=
  make_decision : exc → P → outcome FailureDecision * P.

Module DefaultFailurePolicy.
Record t : Type := {
  failure_config : FailureConfig;
  _worker_group_failures : Z;
  _controller_failures : Z
}.

Definition init (cfg : FailureConfig) : t :=
  {| failure_config := cfg; _worker_group_failures := 0; _controller_failures := 0 |}.

(** Only what it may raise. *)
Definition _log_decision (e : exc) : outcome unit :=
  if is_TrainingFailedError e then Ret tt else Exc (PyError ValueError).

Definition RETRYABLE_CONTROLLER_ERRORS (e : exc) : bool :=
  match e with WorkerGroupStartupFailedError | WorkerGroupStartupTimeoutError => true | _ => false end.

Definition _is_retryable_error (e : exc) : bool :=
  match e with
  | WorkerGroupError _ => true
  | ControllerError f => RETRYABLE_CONTROLLER_ERRORS f
  | _ => false
  end.

(** A retry limit; [None] is [float("inf")]. *)
Definition retry_limit (n : Z) : option Z := if n =? -1 then None else Some n.

Definition exceeds (error_count : Z) (limit : option Z) : bool :=
  match limit with Some n => n <? error_count | None => false end.

Definition make_decision (e : exc) (p : t) : outcome FailureDecision * t :=
  let log d p := match _log_decision e with Ret _ => (Ret d, p) | Exc x => (Exc x, p) end in
  if negb (_is_retryable_error e) then log RAISE p
  else match e with
  | ControllerError _ =>
      let error_count := _controller_failures p + 1 in
      let p := {| failure_config := failure_config p;
        _worker_group_failures := _worker_group_failures p; _controller_failures := error_count |} in
      log (if exceeds error_count (retry_limit (controller_failure_limit (failure_config p)))
           then RAISE else RETRY) p
  | WorkerGroupError _ =>
      let error_count := _worker_group_failures p + 1 in
      let p := {| failure_config := failure_config p;
        _worker_group_failures := error_count; _controller_failures := _controller_failures p |} in
      log (if exceeds error_count (retry_limit (max_failures (failure_config p)))
           then RAISE else RETRY) p
  | _ => (Exc (PyError ValueError), p)
  end.
End DefaultFailurePolicy.

#[export] Instance DefaultFailurePolicy_policy : FailurePolicy DefaultFailurePolicy.t :=
  DefaultFailurePolicy.make_decision.

(** ** Scaling decisions *)

(** [PlainDecision] is an instance of the base class. *)
Inductive ScalingDecision : Type :=
  | NoopDecision
  | ResizeDecision (num_workers : Z) (resources_per_worker : list (string * float))
  | PlainDecision.

Module FixedScalingPolicy.
(** The policy holds the number of workers and their resources; its requests
    to the autoscaling coordinator log their errors and raise none. *)
Definition make_decision_for_non_running_worker_group (num_workers : Z)
    (resources : list (string * float)) : outcome ScalingDecision :=
  Ret (ResizeDecision num_workers resources).

Definition make_decision_for_running_worker_group : outcome ScalingDecision := Ret NoopDecision.
End FixedScalingPolicy.

(** ** Controller states *)

Inductive TrainControllerStateType : Type :=
  | INITIALIZING | SCHEDULING | RESCHEDULING | RUNNING | RESTARTING | RESIZING
  | SHUTTING_DOWN | ERRORED | FINISHED | ABORTED.

Definition state_type_flags (s : TrainControllerStateType) : bool * bool :=
  match s with
  | INITIALIZING => (false, true)
  | SCHEDULING => (false, false)
  | RESCHEDULING => (false, false)
  | RUNNING => (false, false)
  | RESTARTING => (false, true)
  | RESIZING => (false, true)
  | SHUTTING_DOWN => (false, false)
  | ERRORED => (true, false)
  | FINISHED => (true, false)
  | ABORTED => (true, false)
  end.

Inductive TrainControllerState : Type :=
  | InitializingState
  | SchedulingState (scaling_decision : ScalingDecision)
  | ReschedulingState (training_failed_error : exc)
  | RunningState
  | RestartingState (training_failed_error : exc)
  | ResizingState (scaling_decision : ScalingDecision)
  | ShuttingDownState (next_state : TrainControllerState)
  | ErroredState (training_failed_error : exc)
  | FinishedState
  | AbortedState.

Definition _state_type (s : TrainControllerState) : TrainControllerStateType :=
  match s with
  | InitializingState => INITIALIZING
  | SchedulingState _ => SCHEDULING
  | ReschedulingState _ => RESCHEDULING
  | RunningState => RUNNING
  | RestartingState _ => RESTARTING
  | ResizingState _ => RESIZING
  | ShuttingDownState _ => SHUTTING_DOWN
  | ErroredState _ => ERRORED
  | FinishedState => FINISHED
  | AbortedState => ABORTED
  end.

Definition is_terminal (s : TrainControllerState) : bool := (state_type_flags (_state_type s)).1.
Definition needs_new_run_attempt (s : TrainControllerState) : bool :=
  (state_type_flags (_state_type s)).2.

(** ** Poll statuses *)

Record WorkerStatus : Type := {
  running : bool;
  error : option exc;
  return_value : option Z
}.

Record WorkerGroupPollStatus : Type := {
  worker_statuses : dict Z WorkerStatus;
  worker_rank_to_replica_group_rank : option (dict Z Z)
}.

Definition errors (s : WorkerGroupPollStatus) : dict Z exc :=
  dict_of (omap (λ ws : Z * WorkerStatus, match error ws.2 with
    | Some (UserExceptionWithTraceback e) => Some (ws.1, e)
    | Some e => Some (ws.1, e)
    | None => None
    end) (worker_statuses s)).

Definition get_worker_group_error (s : WorkerGroupPollStatus) : exc := WorkerGroupError (errors s).

Definition finished (s : WorkerGroupPollStatus) : bool :=
  match worker_statuses s with
  | [] => false
  | ws => forallb (λ w, negb (running w.2)) ws
  end.

Definition all_replica_group_indices (s : WorkerGroupPollStatus) : gset Z :=
  match worker_rank_to_replica_group_rank s with
  | None => ∅
  | Some d => list_to_set d.*2
  end.

Definition failing_replica_group_indices (s : WorkerGroupPollStatus) : gset Z :=
  match worker_rank_to_replica_group_rank s with
  | None => ∅
  | Some d => list_to_set (omap (dget d) (errors s).*1)
  end.

(** ** Callbacks *)

(** What a hook of a callback does at a given time: [None] where the method is
    missing or not callable, else the exception it raises, if any. *)
Record Callback : Type := { hook : string → nat → option (option exc) }.

Module CallbackManager.
(** [invoke] (and [async_invoke]): the first failure stops the loop.  The k-th
    call from now happens at time [now + k]; the result is the exception
    raised, if any, with the time at the end. *)
Fixpoint invoke (hook_name : string) (callbacks : list Callback) (now : nat) : option exc * nat :=
  match callbacks with
  | [] => (None, now)
  | c :: callbacks =>
      match hook c hook_name now with
      | None => (Some (ControllerError (PyError AttributeError)), now)
      | Some (Some e) => (Some (ControllerError e), S now)
      | Some None => invoke hook_name callbacks (S now)
      end
  end.

(** Errors of the methods are logged, a missing method is raised. *)
Fixpoint invoke_best_effort (hook_name : string) (callbacks : list Callback) (now : nat) :
    option exc * nat :=
  match callbacks with
  | [] => (None, now)
  | c :: callbacks =>
      match hook c hook_name now with
      | None => (Some (ControllerError (PyError AttributeError)), now)
      | Some _ => invoke_best_effort hook_name callbacks (S now)
      end
  end.
End CallbackManager.
