(* ===== verification/Controller.v ===== *)
(** * The Ray Train controller

    [controller/controller.py] of [train/v2/_internal/execution]: the control
    loop over a worker group, a scaling policy, a failure policy and
    callbacks.  What these do is an input: any of their calls may return or
    raise anything, and may depend on how many calls were made before it (the
    [clock]). *)
From S2P Require Import Prelude PyDict PyFloat FailurePolicy.

(** [WorkerGroupContext], as far as it is computed here. *)
Record WorkerGroupContext (Selector : Type) : Type := {
  run_attempt_id : nat;
  num_workers : Z;
  resources_per_worker : list (string * float);
  label_selector : option (list Selector);
  num_slices : Z
}.
Arguments Build_WorkerGroupContext {Selector}.

(** The collaborators of the controller.  [WG] is a handle to a worker group;
    a label selector [None] is one Python takes for false. *)
Record Env (WG Selector : Type) : Type := {
  _controller_callbacks : list Callback;
  on_controller_start_worker_group : nat → nat → outcome (option Selector);
  scaling_label_selector : Z → option (list Selector);
  use_tpu : bool;
  get_tpu_num_slices_for_workers : nat → Z → outcome Z;
  make_decision_for_non_running_worker_group : nat → outcome ScalingDecision;
  make_decision_for_running_worker_group :
    nat → WG → WorkerGroupPollStatus → outcome ScalingDecision;
  wg_create : nat → WorkerGroupContext Selector → outcome WG;
  wg_shutdown : nat → WG → outcome unit;
  wg_abort : nat → WG → outcome unit;
  wg_poll_status : nat → WG → outcome WorkerGroupPollStatus;
  wg_get_latest_poll_status : nat → WG → outcome (option WorkerGroupPollStatus);
  wg_num_workers : nat → WG → outcome Z;
  wg_replace_replica_group : nat → WG → Z → outcome unit;
  _manages_replica_groups : bool;
  aborted_while_sleeping : nat → bool
}.
Arguments _controller_callbacks {WG Selector}.
Arguments on_controller_start_worker_group {WG Selector}.
Arguments scaling_label_selector {WG Selector}.
Arguments use_tpu {WG Selector}.
Arguments get_tpu_num_slices_for_workers {WG Selector}.
Arguments make_decision_for_non_running_worker_group {WG Selector}.
Arguments make_decision_for_running_worker_group {WG Selector}.
Arguments wg_create {WG Selector}.
Arguments wg_shutdown {WG Selector}.
Arguments wg_abort {WG Selector}.
Arguments wg_poll_status {WG Selector}.
Arguments wg_get_latest_poll_status {WG Selector}.
Arguments wg_num_workers {WG Selector}.
Arguments wg_replace_replica_group {WG Selector}.
Arguments _manages_replica_groups {WG Selector}.
Arguments aborted_while_sleeping {WG Selector}.

Module TrainController.
Section controller.
Context {WG Selector P : Type} `{!FailurePolicy P} (env : Env WG Selector).

Record t : Type := {
  _state : TrainControllerState;
  _worker_group : option WG;
  _failure_policy : P;
  _run_attempt_id : nat;
  _return_value : option Z;
  clock : nat
}.

Record TrainControllerLoopIterationResult : Type := {
  previous_state : TrainControllerState;
  next_state : TrainControllerState;
  training_failed_error : option exc
}.

(** ** Methods: they change the controller and return or raise *)

Definition M (A : Type) : Type := t → outcome A * t.

#[global] Instance M_ret : MRet M := λ A a c, (Ret a, c).
#[global] Instance M_bind : MBind M := λ A B f m c,
  match m c with
  | (Ret a, c) => f a c
  | (Exc e, c) => (Exc e, c)
  end.

Definition raise {A} (e : exc) : M A := λ c, (Exc e, c).

(** [try: m except e: h(e)] *)
Definition catch {A} (m : M A) (h : exc → M A) : M A := λ c,
  match m c with
  | (Exc e, c) => h e c
  | r => r
  end.

(** A call of a collaborator. *)
Definition call {A} (f : nat → outcome A) : M A := λ c,
  (f (clock c), {| _state := _state c; _worker_group := _worker_group c;
    _failure_policy := _failure_policy c; _run_attempt_id := _run_attempt_id c;
    _return_value := _return_value c; clock := S (clock c) |}).

Definition get {A} (f : t → A) : M A := λ c, (Ret (f c), c).

Definition put_state (s : TrainControllerState) : M unit := λ c,
  (Ret tt, {| _state := s; _worker_group := _worker_group c;
    _failure_policy := _failure_policy c; _run_attempt_id := _run_attempt_id c;
    _return_value := _return_value c; clock := clock c |}).

Definition put_worker_group (wg : option WG) : M unit := λ c,
  (Ret tt, {| _state := _state c; _worker_group := wg;
    _failure_policy := _failure_policy c; _run_attempt_id := _run_attempt_id c;
    _return_value := _return_value c; clock := clock c |}).

Definition put_return_value (v : option Z) : M unit := λ c,
  (Ret tt, {| _state := _state c; _worker_group := _worker_group c;
    _failure_policy := _failure_policy c; _run_attempt_id := _run_attempt_id c;
    _return_value := v; clock := clock c |}).

(** [_generate_run_attempt_id]: UUIDs drawn are numbered. *)
Definition _generate_run_attempt_id : M unit := λ c,
  (Ret tt, {| _state := _state c; _worker_group := _worker_group c;
    _failure_policy := _failure_policy c; _run_attempt_id := S (_run_attempt_id c);
    _return_value := _return_value c; clock := clock c |}).

(** [self._failure_policy.make_decision] *)
Definition decide_failure (e : exc) : M FailureDecision := λ c,
  let '(d, p) := make_decision e (_failure_policy c) in
  (d, {| _state := _state c; _worker_group := _worker_group c; _failure_policy := p;
    _run_attempt_id := _run_attempt_id c; _return_value := _return_value c; clock := clock c |}).

(** [self._controller_callback_manager.invoke] *)
Definition invoke (hook_name : string) : M unit := λ c,
  let '(e, now) := CallbackManager.invoke hook_name (_controller_callbacks env) (clock c) in
  (match e with Some e => Exc e | None => Ret tt end,
   {| _state := _state c; _worker_group := _worker_group c; _failure_policy := _failure_policy c;
      _run_attempt_id := _run_attempt_id c; _return_value := _return_value c; clock := now |}).

Definition invoke_best_effort (hook_name : string) : M unit := λ c,
  let '(e, now) := CallbackManager.invoke_best_effort hook_name (_controller_callbacks env) (clock c) in
  (match e with Some e => Exc e | None => Ret tt end,
   {| _state := _state c; _worker_group := _worker_group c; _failure_policy := _failure_policy c;
      _run_attempt_id := _run_attempt_id c; _return_value := _return_value c; clock := now |}).

(** ** Failure decisions and hooks *)

Definition _get_retry_state (s : TrainControllerState) (e : exc) : TrainControllerState :=
  match s with
  | RunningState => RestartingState e
  | SchedulingState _ => ReschedulingState e
  | _ => ShuttingDownState (ErroredState e)
  end.

(** The end of [_execute_failure_decision], after its callbacks. *)
Definition failure_decision_result (d : FailureDecision) (e : exc) (s : TrainControllerState) :
    TrainControllerLoopIterationResult :=
  match d with
  | NOOP => {| previous_state := s; next_state := s; training_failed_error := Some e |}
  | RETRY => {| previous_state := s; next_state := _get_retry_state s e;
                training_failed_error := None |}
  | RAISE => {| previous_state := s; next_state := ShuttingDownState (ErroredState e);
                training_failed_error := Some e |}
  end.

(** [_run_controller_hook] with [invoke_failure_decision_callbacks=False]:
    there [_execute_failure_decision] calls no hooks. *)
Definition run_hook_only (hook_name : string) : M (option TrainControllerLoopIterationResult) :=
  catch (_ ← invoke hook_name; mret None) (λ e,
    d ← decide_failure e;
    s ← get _state;
    mret (Some (failure_decision_result d e s))).

Definition _execute_failure_decision (d : FailureDecision) (e : exc)
    (invoke_failure_decision_callbacks : bool) : M TrainControllerLoopIterationResult :=
  s ← get _state;
  failure_result ← (if invoke_failure_decision_callbacks
    then run_hook_only "before_controller_execute_failure_decision" else mret None);
  match failure_result with
  | Some r => mret r
  | None => mret (failure_decision_result d e s)
  end.

(** [except ControllerError]: [invoke] raises nothing else. *)
Definition _run_controller_hook (hook_name : string) (invoke_failure_decision_callbacks : bool) :
    M (option TrainControllerLoopIterationResult) :=
  catch (_ ← invoke hook_name; mret None) (λ e,
    d ← decide_failure e;
    r ← _execute_failure_decision d e invoke_failure_decision_callbacks;
    mret (Some r)).

Definition _set_state (s : TrainControllerState) : M unit :=
  _ ← put_state s;
  failure_result ← _run_controller_hook "after_controller_state_update" true;
  match failure_result with
  | None => mret tt
  | Some r =>
      if is_terminal s || match s with ShuttingDownState (ErroredState _) => true | _ => false end
      then mret tt
      else put_state (next_state r)
  end.

(** ** The worker group *)

Definition _shutdown_worker_group : M unit :=
  wg ← get _worker_group;
  match wg with
  | None => raise (PyError AttributeError)
  | Some wg => _ ← call (λ now, wg_shutdown env now wg); put_worker_group None
  end.

(** The loop over the callbacks: the last selector wins. *)
Fixpoint select_labels (n : Z) (selector : option (list Selector)) (k : nat) (fuel : nat) :
    M (option (list Selector)) :=
  match fuel with
  | O => mret selector
  | S fuel =>
      s ← call (λ now, on_controller_start_worker_group env k now);
      select_labels n (match s with
        | Some s => Some (replicate (Z.to_nat n) s) | None => selector end) (S k) fuel
  end.

Definition _start_worker_group (n : Z) (resources : list (string * float)) : M unit :=
  selector ← select_labels n (scaling_label_selector env n) 0 (length (_controller_callbacks env));
  slices ← (if use_tpu env then call (λ now, get_tpu_num_slices_for_workers env now n) else mret 1);
  attempt ← get _run_attempt_id;
  wg ← call (λ now, wg_create env now (Build_WorkerGroupContext attempt n resources selector slices));
  put_worker_group (Some wg).

Fixpoint replace_all (wg : WG) (rgs : list Z) : M unit :=
  match rgs with
  | [] => mret tt
  | rg :: rgs => _ ← call (λ now, wg_replace_replica_group env now wg rg); replace_all wg rgs
  end.

Definition _replace_bad_workers (wg : WG) (status : WorkerGroupPollStatus) : M unit :=
  replace_all wg (elements (failing_replica_group_indices status)).

Definition _execute_resize_decision (n : Z) (resources : list (string * float)) :
    M TrainControllerLoopIterationResult :=
  failure_result ← _run_controller_hook "before_controller_execute_resize_decision" true;
  match failure_result with
  | Some r => mret r
  | None =>
      owg ← get _worker_group;
      current_num_workers ← match owg with
        | Some wg => call (λ now, wg_num_workers env now wg) | None => mret 0 end;
      poll_status ← match owg with
        | Some wg => call (λ now, wg_get_latest_poll_status env now wg) | None => mret None end;
      let failing_rgs := from_option failing_replica_group_indices ∅ poll_status in
      let all_rgs := from_option all_replica_group_indices ∅ poll_status in
      _ ← match owg, poll_status with
          | Some wg, Some status =>
              if _manages_replica_groups env && bool_decide (failing_rgs ≠ ∅) &&
                 bool_decide (failing_rgs ≠ all_rgs) && (n =? current_num_workers)
              then _replace_bad_workers wg status
              else _ ← _shutdown_worker_group; _start_worker_group n resources
          | Some wg, None => _ ← _shutdown_worker_group; _start_worker_group n resources
          | None, _ => _start_worker_group n resources
          end;
      s ← get _state;
      mret {| previous_state := s; next_state := RunningState; training_failed_error := None |}
  end.

Definition _make_and_handle_scaling_decision_for_non_running_worker_group
    (s : TrainControllerState) : M TrainControllerLoopIterationResult :=
  d ← call (make_decision_for_non_running_worker_group env);
  match d with
  | NoopDecision => mret {| previous_state := s; next_state := s; training_failed_error := None |}
  | ResizeDecision _ _ =>
      mret {| previous_state := s; next_state := SchedulingState d; training_failed_error := None |}
  | PlainDecision => raise (PyError ValueError)
  end.

(** ** Abort *)

(** [abort], which ends the actor. *)
Definition abort : M unit :=
  s ← get _state;
  if is_terminal s then mret tt
  else
    _ ← invoke_best_effort "before_controller_abort";
    _ ← catch
      (wg ← get _worker_group;
       _ ← match wg with Some wg => call (λ now, wg_abort env now wg) | None => mret tt end;
       _set_state AbortedState)
      (λ _, mret tt);
    raise AsyncioActorExit.

(** [_poll_workers]: it may sleep, and [abort] may run meanwhile; what [abort]
    raises goes to its own caller. *)
Definition _poll_workers : M WorkerGroupPollStatus :=
  aborted ← call (λ now, Ret (aborted_while_sleeping env now));
  _ ← (if aborted : bool
       then _ ← catch abort (λ _, mret tt);
            s ← get _state;
            if is_terminal s then raise AsyncioActorExit else mret tt
       else mret tt);
  owg ← get _worker_group;
  match owg with
  | None => raise (PyError AttributeError)
  | Some wg => call (λ now, wg_poll_status env now wg)
  end.

(** ** The control loop *)

Definition _shutdown (next : TrainControllerState) : M TrainControllerLoopIterationResult :=
  s ← get _state;
  owg ← get _worker_group;
  shutdown_error ← match owg with
    | Some _ => catch (_ ← _shutdown_worker_group; mret None) (λ e, mret (Some (ControllerError e)))
    | None => mret None end;
  shutdown_error ← catch (_ ← invoke "before_controller_shutdown"; mret shutdown_error)
    (λ e, mret (match shutdown_error with Some e0 => Some e0 | None => Some e end));
  match shutdown_error with
  | Some e =>
      match next with
      | ErroredState _ => mret {| previous_state := s; next_state := next;
                                  training_failed_error := None |}
      | _ => mret {| previous_state := s; next_state := ErroredState e;
                     training_failed_error := Some e |}
      end
  | None => mret {| previous_state := s; next_state := next; training_failed_error := None |}
  end.

Definition _step_running : M TrainControllerLoopIterationResult :=
  status ← _poll_workers;
  match errors status with
  | [] =>
      if finished status then
        match dget (worker_statuses status) 0 with
        | None => raise (PyError KeyError)
        | Some w =>
            _ ← put_return_value (return_value w);
            mret {| previous_state := RunningState; next_state := ShuttingDownState FinishedState;
                    training_failed_error := None |}
        end
      else
        owg ← get _worker_group;
        match owg with
        | None => raise (PyError AttributeError)
        | Some wg =>
            d ← call (λ now, make_decision_for_running_worker_group env now wg status);
            match d with
            | NoopDecision => mret {| previous_state := RunningState; next_state := RunningState;
                                      training_failed_error := None |}
            | ResizeDecision _ _ => mret {| previous_state := RunningState;
                next_state := ResizingState d; training_failed_error := None |}
            | PlainDecision => raise (PyError ValueError)
            end
        end
  | _ :: _ =>
      let e := get_worker_group_error status in
      d ← decide_failure e;
      _execute_failure_decision d e true
  end.

Definition _step : M TrainControllerLoopIterationResult :=
  s ← get _state;
  match s with
  | InitializingState | RestartingState _ | ReschedulingState _ =>
      _make_and_handle_scaling_decision_for_non_running_worker_group s
  | SchedulingState (ResizeDecision n resources) => _execute_resize_decision n resources
  | SchedulingState _ => raise (PyError AssertionError)
  | RunningState => _step_running
  | ResizingState d =>
      mret {| previous_state := s; next_state := SchedulingState d; training_failed_error := None |}
  | ShuttingDownState next => _shutdown next
  | ErroredState _ | FinishedState | AbortedState => raise (PyError ValueError)
  end.

(** What handles an exception of [_step]: a result, or [None] where the
    controller was forced into the errored state. *)
Definition handle_step_error (e : exc) : M (option TrainControllerLoopIterationResult) :=
  match e with
  | AsyncioActorExit => raise e
  | _ =>
      let training_error := if is_TrainingFailedError e then e else ControllerError e in
      catch (d ← decide_failure training_error;
             r ← _execute_failure_decision d training_error true;
             mret (Some r))
        (λ _, _ ← put_state (ErroredState training_error); mret None)
  end.

Definition _run_control_loop_iteration : M unit :=
  s ← get _state;
  if is_terminal s then raise (PyError AssertionError)
  else
    _ ← (if needs_new_run_attempt s then _generate_run_attempt_id else mret tt);
    r ← catch (r ← _step; mret (Some r)) handle_step_error;
    match r with
    | Some r => _set_state (next_state r)
    | None => mret tt
    end.

Definition get_training_failed_error (c : t) : option exc :=
  match _state c with ErroredState e => Some e | _ => None end.

(** The loop of [run], bounded: [false] when [fuel] iterations did not end it. *)
Fixpoint run_loop (fuel : nat) : M bool :=
  s ← get _state;
  if is_terminal s then mret true
  else match fuel with
       | O => mret false
       | S fuel => _ ← _run_control_loop_iteration; run_loop fuel
       end.

Definition run (fuel : nat) : M bool :=
  ended ← run_loop fuel;
  if ended : bool
  then _ ← _run_controller_hook "after_controller_finish" false; mret true
  else mret false.

(** [__init__], up to the creation of the collaborators. *)
Definition initial (p : P) : t := {|
  _state := InitializingState; _worker_group := None; _failure_policy := p;
  _run_attempt_id := 0; _return_value := None; clock := 0 |}.

Definition _start : M unit :=
  _ ← _generate_run_attempt_id;
  failure_result ← _run_controller_hook "after_controller_start" true;
  match failure_result with
  | Some r => _set_state (next_state r)
  | None => mret tt
  end.
End controller.
Arguments t WG P : clear implicits.
End TrainController.
