(* ===== verification/ControllerFacts.v ===== *)
(** * The controller: what each method may leave behind *)
From S2P Require Import Prelude PyDict PyFloat FailurePolicy Controller.
Import TrainController.

Section facts.
Context {WG Selector P : Type} `{!FailurePolicy P} (env : Env WG Selector).
Implicit Types (c : TrainController.t WG P) (s : TrainControllerState) (e : exc).
Implicit Types (res : TrainControllerLoopIterationResult).

(** The failure policy [p] after any number of decisions on training errors. *)
Inductive decided : P → P → Prop :=
  | decided_refl p : decided p p
  | decided_step p e q : is_TrainingFailedError e = true →
      decided (make_decision e p).2 q → decided p q.

Lemma decided_trans p q o : decided p q → decided q o → decided p o.
Proof. induction 1; [done|]. intros. eapply decided_step; eauto. Qed.

(** Nothing but the policy, the clock and the worker group has changed. *)
Definition quiet c c' : Prop :=
  _state c' = _state c ∧ decided (_failure_policy c) (_failure_policy c') ∧
  (clock c ≤ clock c')%nat.

Lemma quiet_refl c : quiet c c.
Proof. split_and!; [done|constructor|done]. Qed.

Lemma quiet_trans c1 c2 c3 : quiet c1 c2 → quiet c2 c3 → quiet c1 c3.
Proof.
  intros (E1 & D1 & L1) (E2 & D2 & L2). split_and!; [congruence|by eapply decided_trans|lia].
Qed.

(** ** Methods that leave the state alone *)

Definition keeps {A} (m : M A) : Prop := ∀ c r c', m c = (r, c') → quiet c c'.

Lemma keeps_ret {A} (a : A) : keeps (mret a).
Proof. intros c r c' [= <- <-]. apply quiet_refl. Qed.

Lemma keeps_raise {A} e : keeps (raise (A := A) e).
Proof. intros c r c' [= <- <-]. apply quiet_refl. Qed.

Lemma keeps_get {A} (f : TrainController.t WG P → A) : keeps (get f).
Proof. intros c r c' [= <- <-]. apply quiet_refl. Qed.

Lemma keeps_call {A} (f : nat → outcome A) : keeps (call f).
Proof. intros c r c' [= <- <-]. split_and!; [done|constructor|simpl; lia]. Qed.

Lemma keeps_put_worker_group wg : keeps (put_worker_group wg).
Proof. intros c r c' [= <- <-]. split_and!; [done|constructor|done]. Qed.

Lemma keeps_put_return_value v : keeps (put_return_value v).
Proof. intros c r c' [= <- <-]. split_and!; [done|constructor|done]. Qed.

Lemma keeps_generate : keeps _generate_run_attempt_id.
Proof. intros c r c' [= <- <-]. split_and!; [done|constructor|done]. Qed.

Lemma keeps_bind {A B} (m : M A) (f : A → M B) : keeps m → (∀ a, keeps (f a)) → keeps (m ≫= f).
Proof.
  intros Hm Hf c r c'. unfold mbind, M_bind. destruct (m c) as [[a|e] c1] eqn:E.
  - intros H. eapply quiet_trans; [by eapply Hm|by eapply Hf].
  - intros [= <- <-]. by eapply Hm.
Qed.

Lemma keeps_catch {A} (m : M A) (h : exc → M A) : keeps m → (∀ e, keeps (h e)) → keeps (catch m h).
Proof.
  intros Hm Hh c r c'. unfold catch. destruct (m c) as [[a|e] c1] eqn:E.
  - intros [= <- <-]. by eapply Hm.
  - intros H. eapply quiet_trans; [by eapply Hm|by eapply Hh].
Qed.

Lemma callbacks_clock h cbs now : (now ≤ (CallbackManager.invoke h cbs now).2)%nat.
Proof.
  revert now. induction cbs as [|cb cbs IH]; intros now; simpl; [done|].
  destruct (hook cb h now) as [[e|]|]; simpl; [lia| |lia]. specialize (IH (S now)). lia.
Qed.

Lemma best_effort_clock h cbs now : (now ≤ (CallbackManager.invoke_best_effort h cbs now).2)%nat.
Proof.
  revert now. induction cbs as [|cb cbs IH]; intros now; simpl; [done|].
  destruct (hook cb h now); simpl; [|lia]. specialize (IH (S now)). lia.
Qed.

Lemma keeps_invoke h : keeps (invoke env h).
Proof.
  intros c r c'. unfold invoke. pose proof (callbacks_clock h (_controller_callbacks env) (clock c)).
  destruct (CallbackManager.invoke _ _ _) as [o now]. intros [= <- <-].
  split_and!; [done|constructor|done].
Qed.

Lemma keeps_best_effort h : keeps (invoke_best_effort env h).
Proof.
  intros c r c'. unfold invoke_best_effort.
  pose proof (best_effort_clock h (_controller_callbacks env) (clock c)).
  destruct (CallbackManager.invoke_best_effort _ _ _) as [o now]. intros [= <- <-].
  split_and!; [done|constructor|done].
Qed.

Lemma keeps_decide e : is_TrainingFailedError e = true → keeps (decide_failure e).
Proof.
  intros He c r c'. unfold decide_failure. destruct (make_decision e (_failure_policy c)) as [d p] eqn:E.
  intros [= <- <-]. split_and!; [done| |done]. simpl. eapply decided_step; [done|].
  rewrite E. constructor.
Qed.

(** The callback manager raises nothing but controller errors. *)
Lemma invoke_error h c e c' : invoke env h c = (Exc e, c') → ∃ f, e = ControllerError f.
Proof.
  unfold invoke. generalize (clock c) as now. intros now H.
  assert (∀ cbs now o n, CallbackManager.invoke h cbs now = (Some o, n) →
    ∃ f, o = ControllerError f) as Hi.
  { clear. induction cbs as [|cb cbs IH]; intros now o n; simpl; [done|].
    destruct (hook cb h now) as [[x|]|]; [|apply IH|]; intros [= <- <-]; by eexists. }
  destruct (CallbackManager.invoke _ _ _) as [[o|] n] eqn:E; [|done]. injection H as <- <-.
  by eapply Hi.
Qed.

(** ** Failure decisions *)

(** [res] is what a failure decided between [c] and [c'] leads to in state
    [s]. *)
Definition failed s c res c' : Prop :=
  ∃ d e p p', is_TrainingFailedError e = true ∧ decided (_failure_policy c) p ∧
    make_decision e p = (Ret d, p') ∧ decided p' (_failure_policy c') ∧
    res = failure_decision_result d e s.

(** The failure policy itself raised [x]. *)
Definition policy_raised (x : exc) : Prop :=
  ∃ e p, is_TrainingFailedError e = true ∧ (make_decision e p).1 = Exc x.

Definition hook_post c (r : outcome (option TrainControllerLoopIterationResult)) c' : Prop :=
  quiet c c' ∧
  match r with
  | Ret None => True
  | Ret (Some res) => failed (_state c) c res c'
  | Exc x => policy_raised x
  end.

Lemma failed_mono s c0 c res c' : quiet c0 c → failed s c res c' → failed s c0 res c'.
Proof.
  intros (_ & Hd & _) (d & e & p & p' & He & Hp & Hm & Hp' & ->).
  exists d, e, p, p'. split_and!; [done|by eapply decided_trans|done..].
Qed.

Lemma decide_failed e c r c' : is_TrainingFailedError e = true → decide_failure e c = (r, c') →
  quiet c c' ∧
  match r with
  | Ret d => failed (_state c) c (failure_decision_result d e (_state c)) c'
  | Exc x => policy_raised x
  end.
Proof.
  intros He H. split; [by eapply keeps_decide|]. unfold decide_failure in H.
  destruct (make_decision e (_failure_policy c)) as [d p] eqn:E. injection H as <- <-.
  destruct d as [d|x].
  - exists d, e, (_failure_policy c), p. split_and!; [done|constructor|done|constructor|done].
  - exists e, (_failure_policy c). by rewrite E.
Qed.

Lemma hook_only_post h c r c' : run_hook_only env h c = (r, c') → hook_post c r c'.
Proof.
  unfold run_hook_only, catch. destruct ((_ ← invoke env h; mret None) c) as [[a|e] c1] eqn:E.
  - intros [= <- <-]. unfold mbind, M_bind in E.
    destruct (invoke env h c) as [[u|x] c2] eqn:Ei; [|done]. injection E as <- <-.
    split; [by eapply keeps_invoke|done].
  - unfold mbind at 1, M_bind at 1 in E. destruct (invoke env h c) as [[u|x] c2] eqn:Ei; [done|].
    injection E as -> ->. intros H. pose proof (keeps_invoke _ _ _ _ Ei) as Hq.
    apply invoke_error in Ei as [f ->]. unfold mbind at 1, M_bind at 1 in H.
    destruct (decide_failure (ControllerError f) c1) as [[d|x] c2'] eqn:Ed.
    + apply decide_failed in Ed as [Hq' Hf]; [|done]. simpl in H. injection H as <- <-.
      split; [by eapply quiet_trans|]. destruct Hq as (Es & Hd & Hl), Hq' as (Es' & Hd' & Hl').
      rewrite Es', Es. rewrite Es in Hf. by eapply failed_mono.
    + apply decide_failed in Ed as [Hq' Hf]; [|done]. injection H as <- <-.
      split; [by eapply quiet_trans|done].
Qed.
Definition result_post c s (r : outcome TrainControllerLoopIterationResult) c' : Prop :=
  quiet c c' ∧
  match r with
  | Ret res => failed s c res c'
  | Exc x => policy_raised x
  end.

(** A decision made between [c0] and [c], executed. *)
Lemma execute_post d e b c0 c r c' : quiet c0 c →
  failed (_state c) c0 (failure_decision_result d e (_state c)) c →
  _execute_failure_decision env d e b c = (r, c') → quiet c c' ∧ result_post c0 (_state c) r c'.
Proof.
  intros Hq0 Hf. unfold _execute_failure_decision, mbind, M_bind, get. cbv beta iota.
  set (m := if b then run_hook_only env _ else _).
  destruct (m c) as [[o|x] c1] eqn:E; subst m.
  - assert (hook_post c (Ret o) c1) as [Hq Ho].
    { destruct b; [by eapply hook_only_post|]. injection E as <- <-. split; [apply quiet_refl|done]. }
    destruct o as [res|]; intros [= <- <-]; (split; [done|]); (split; [by eapply quiet_trans|]).
    + by eapply failed_mono.
    + destruct Hf as (d' & e' & p & p' & He & Hp & Hm & Hp' & Hr).
      exists d', e', p, p'. split_and!; [done..| |done].
      eapply decided_trans; [done|]. by destruct Hq as (_ & ? & _).
  - intros [= <- <-]. destruct b; [|done].
    apply hook_only_post in E as [Hq Hx]. split; [done|]. split; [by eapply quiet_trans|done].
Qed.

Lemma decide_execute_post e b c r c' : is_TrainingFailedError e = true →
  (d ← decide_failure e; _execute_failure_decision env d e b) c = (r, c') →
  result_post c (_state c) r c'.
Proof.
  intros He. unfold mbind at 1, M_bind at 1.
  destruct (decide_failure e c) as [[d|x] c1] eqn:Ed; apply decide_failed in Ed as [Hq Hd]; try done.
  - pose proof Hq as (Es & _). rewrite <-Es. intros H. rewrite <-Es in Hd at 1 2.
    by eapply execute_post in H as [_ H].
  - by intros [= <- <-].
Qed.

Lemma hook_post_any h b c r c' : _run_controller_hook env h b c = (r, c') → hook_post c r c'.
Proof.
  unfold _run_controller_hook, catch.
  destruct ((_ ← invoke env h; mret None) c) as [[a|e] c1] eqn:E.
  - intros [= <- <-]. unfold mbind, M_bind in E.
    destruct (invoke env h c) as [[u|x] c2] eqn:Ei; [|done]. injection E as <- <-.
    split; [by eapply keeps_invoke|done].
  - unfold mbind at 1, M_bind at 1 in E. destruct (invoke env h c) as [[u|x] c2] eqn:Ei; [done|].
    injection E as -> ->. pose proof (keeps_invoke _ _ _ _ Ei) as Hq.
    apply invoke_error in Ei as [f ->]. intros H.
    assert (∃ r0, (d ← decide_failure (ControllerError f);
      _execute_failure_decision env d (ControllerError f) b) c1 = (r0, c') ∧
      r = match r0 with Ret res => Ret (Some res) | Exc x => Exc x end) as (r0 & H0 & ->).
    { unfold mbind, M_bind in *. destruct (decide_failure _ c1) as [[d|x] c2]; [|by injection H as <- <-; eexists].
      destruct (_execute_failure_decision env d _ b c2) as [[res|x] c3]; injection H as <- <-; by eexists. }
    apply decide_execute_post in H0 as [Hq' Hr]; [|done]. split; [by eapply quiet_trans|].
    destruct r0 as [res|x]; [|done]. destruct Hq as (Es & Hd & Hl). rewrite <-Es.
    by eapply (failed_mono (_state c1) c c1).
Qed.

Lemma keeps_hook h b : keeps (_run_controller_hook env h b).
Proof. intros c r c' H. by apply hook_post_any in H as [? _]. Qed.

(** ** Changing the state *)

(** States that a failure may lead to from [s]. *)
Inductive failure_state s : TrainControllerState → Prop :=
  | failure_noop : failure_state s s
  | failure_retry e : is_TrainingFailedError e = true → failure_state s (_get_retry_state s e)
  | failure_raise e : is_TrainingFailedError e = true →
      failure_state s (ShuttingDownState (ErroredState e)).

Lemma failed_state s c res c' : failed s c res c' → failure_state s (next_state res).
Proof.
  intros (d & e & p & p' & He & _ & _ & _ & ->).
  destruct d; simpl; [by apply failure_retry|by apply failure_raise|apply failure_noop].
Qed.

Definition preserved s : bool :=
  is_terminal s || match s with ShuttingDownState (ErroredState _) => true | _ => false end.

Definition later c c' : Prop :=
  decided (_failure_policy c) (_failure_policy c') ∧ (clock c ≤ clock c')%nat.

Lemma quiet_later c c' : quiet c c' → later c c'.
Proof. intros (_ & H). exact H. Qed.

Lemma later_refl c : later c c.
Proof. split; [constructor|done]. Qed.

Lemma later_trans c1 c2 c3 : later c1 c2 → later c2 c3 → later c1 c3.
Proof. intros [D1 L1] [D2 L2]. split; [by eapply decided_trans|lia]. Qed.

(** The state set, unless a callback failed and the new state may change. *)
Lemma set_state_post s c r c' : _set_state env s c = (r, c') → later c c' ∧
  (r = Ret tt ∨ ∃ x, r = Exc x ∧ policy_raised x) ∧
  (_state c' = s ∨
   preserved s = false ∧ r = Ret tt ∧ ∃ c1 c2 res, later c c1 ∧ later c2 c' ∧
     failed s c1 res c2 ∧ _state c' = next_state res).
Proof.
  unfold _set_state, mbind, M_bind, put_state at 1.
  set (c1 := {| _state := s; _worker_group := _; _failure_policy := _; _run_attempt_id := _;
                _return_value := _; clock := _ |}).
  assert (later c c1) as Hc1 by (split; [constructor|done]).
  cbv beta iota.
  destruct (_run_controller_hook env "after_controller_state_update" true c1)
    as [[[res|]|x] c2] eqn:E;
    apply hook_post_any in E as [Hq Hf]; pose proof (quiet_later _ _ Hq) as Hl;
    pose proof (later_trans _ _ _ Hc1 Hl) as Hc2.
  - fold (preserved s). destruct (preserved s) eqn:Hp; intros [= <- <-].
    + split; [done|]. split; [by left|]. left. by destruct Hq as (-> & _).
    + assert (later c2 {| _state := next_state res; _worker_group := _worker_group c2;
        _failure_policy := _failure_policy c2; _run_attempt_id := _run_attempt_id c2;
        _return_value := _return_value c2; clock := clock c2 |}) as Hlast
        by (split; [constructor|done]).
      split; [eapply later_trans; [exact Hc2|exact Hlast]|].
      split; [by left|]. right.
      split; [done|]. split; [done|]. exists c1, c2, res. done.
  - intros [= <- <-]. split; [done|]. split; [by left|]. left.
    by destruct Hq as (-> & _).
  - intros [= <- <-]. split; [done|]. split; [right; by exists x|].
    left. by destruct Hq as (-> & _).
Qed.
(** ** Aborting *)

Lemma set_aborted_post c r c' : _set_state env AbortedState c = (r, c') →
  later c c' ∧ _state c' = AbortedState.
Proof. intros (Hl & _ & [Hs|(? & _)])%set_state_post; done. Qed.

(** The part of [abort] whose exceptions are caught. *)
Lemma abort_group_post c r c' :
  catch (wg ← get _worker_group;
         _ ← match wg with Some wg => call (λ now, wg_abort env now wg) | None => mret tt end;
         _set_state env AbortedState) (λ _, mret tt) c = (r, c') →
  r = Ret tt ∧ later c c' ∧ (_state c' = _state c ∨ _state c' = AbortedState).
Proof.
  unfold catch, mbind, M_bind, get. cbv beta iota.
  set (m := match _worker_group c with Some wg => _ | None => _ end).
  assert (keeps m) as Hm by (subst m; destruct (_worker_group c); [apply keeps_call|apply keeps_ret]).
  destruct (m c) as [[u|x] c1] eqn:E; pose proof (quiet_later _ _ (Hm _ _ _ E)) as Hl.
  - destruct (_set_state env AbortedState c1) as [o c2] eqn:Es.
    apply set_aborted_post in Es as [Hl' Hs].
    assert (later c c2) by (eapply later_trans; [exact Hl|exact Hl']).
    destruct o as [[]|x]; intros [= <- <-]; auto.
  - intros [= <- <-]. destruct (Hm _ _ _ E) as (-> & _). auto.
Qed.

Lemma abort_post c r c' : abort env c = (r, c') →
  later c c' ∧ (_state c' = _state c ∨ _state c' = AbortedState).
Proof.
  unfold abort. unfold mbind at 1, M_bind at 1, get at 1. cbv beta iota.
  destruct (is_terminal (_state c)); [intros [= <- <-]; split; [apply later_refl|by left]|].
  unfold mbind at 1, M_bind at 1.
  destruct (invoke_best_effort env _ c) as [[u|x] c1] eqn:Ei;
    pose proof (keeps_best_effort _ _ _ _ Ei) as Hq; pose proof (quiet_later _ _ Hq) as Hl;
    destruct Hq as (Es & _).
  - unfold mbind at 1, M_bind at 1.
    destruct (catch _ _ c1) as [o c2] eqn:Ec. apply abort_group_post in Ec as (-> & Hl' & Hs).
    intros [= <- <-]. rewrite <-Es. split; [eapply later_trans; [exact Hl|exact Hl']|done].
  - intros [= <- <-]. split; [done|by left].
Qed.

(** ** Polling *)

(** A poll of a worker group after [c] gave [st]. *)
Definition polled c (st : WorkerGroupPollStatus) : Prop :=
  ∃ now wg, (clock c ≤ now)%nat ∧ wg_poll_status env now wg = Ret st.

Lemma poll_post c r c' : is_terminal (_state c) = false → _poll_workers env c = (r, c') →
  later c c' ∧ (clock c < clock c')%nat ∧
  match r with
  | Ret st => _state c' = _state c ∧ polled c st
  | Exc x => _state c' = _state c ∨ x = AsyncioActorExit ∧ _state c' = AbortedState
  end.
Proof.
  intros Ht. unfold _poll_workers. unfold mbind at 1, M_bind at 1, call at 1. cbv beta iota.
  set (c1 := {| _state := _state c; _worker_group := _; _failure_policy := _; _run_attempt_id := _;
                _return_value := _; clock := _ |}).
  assert (later c c1 ∧ (clock c < clock c1)%nat ∧ _state c1 = _state c) as (Hl1 & Hc1 & Hs1)
    by (split_and!; [constructor; [constructor|simpl; lia]|simpl; lia|done]).
  set (m := if aborted_while_sleeping env (clock c) then _ else _).
  assert (∀ o c2, m c1 = (o, c2) → later c1 c2 ∧
    match o with
    | Ret _ => _state c2 = _state c
    | Exc x => x = AsyncioActorExit ∧ _state c2 = AbortedState
    end) as Hm.
  { intros o c2. subst m. destruct (aborted_while_sleeping env (clock c)).
    - unfold mbind at 1, M_bind at 1, catch at 1.
      destruct (abort env c1) as [o1 c3] eqn:Ea. apply abort_post in Ea as [Hl Hs].
      replace (match o1 with Ret a => (Ret a, c3) | Exc e => (mret tt : M unit) c3 end)
        with (Ret tt : outcome unit, c3) by (by destruct o1 as [[]|]).
      unfold mbind, M_bind, get. cbv beta iota. rewrite Hs1 in Hs.
      destruct (is_terminal (_state c3)) eqn:Ht3; intros [= <- <-]; (split; [done|]).
      + destruct Hs as [Hs|Hs]; [congruence|done].
      + destruct Hs as [Hs|Hs]; [done|]. by rewrite Hs in Ht3.
    - intros [= <- <-]. split; [apply later_refl|done]. }
  unfold mbind at 1, M_bind at 1. destruct (m c1) as [[u|x] c2] eqn:E; destruct (Hm _ _ eq_refl) as [Hl2 Hx].
  - unfold mbind, M_bind, get. cbv beta iota.
    assert (later c c2) as Hlc by (eapply later_trans; [exact Hl1|exact Hl2]).
    destruct (_worker_group c2) as [wg|]; intros H.
    + pose proof (keeps_call _ _ _ _ H) as Hq. split; [eapply later_trans; [exact Hlc|by apply quiet_later]|].
      split; [destruct Hq as (_ & _ & ?), Hl2 as [_ ?]; lia|].
      destruct Hq as (-> & _). destruct r as [st|]; [|by left]. split; [done|].
      injection H as Hst _. exists (clock c2), wg. split; [|done].
      destruct Hl2 as [_ ?]. lia.
    + injection H as <- <-. split; [done|]. split; [destruct Hl2 as [_ ?]; lia|by left].
  - intros [= <- <-]. split; [eapply later_trans; [exact Hl1|exact Hl2]|].
    split; [destruct Hl2 as [_ ?]; lia|by right].
Qed.
(** ** One step *)

Definition waiting s : bool :=
  match s with InitializingState | RestartingState _ | ReschedulingState _ => true | _ => false end.

Definition is_shutting s : bool := match s with ShuttingDownState _ => true | _ => false end.

(** The transitions of a step in which nothing fails, and of a shutdown. *)
Inductive step_target c : TrainControllerState → TrainControllerState → Prop :=
  | target_stay s now : waiting s = true →
      make_decision_for_non_running_worker_group env now = Ret NoopDecision → step_target c s s
  | target_schedule s n rs : waiting s = true →
      step_target c s (SchedulingState (ResizeDecision n rs))
  | target_start n rs : step_target c (SchedulingState (ResizeDecision n rs)) RunningState
  | target_run st : polled c st → errors st = [] → finished st = false →
      step_target c RunningState RunningState
  | target_resize st n rs : polled c st → errors st = [] → finished st = false →
      step_target c RunningState (ResizingState (ResizeDecision n rs))
  | target_complete st : polled c st → errors st = [] → finished st = true →
      step_target c RunningState (ShuttingDownState FinishedState)
  | target_reschedule d : step_target c (ResizingState d) (SchedulingState d)
  | target_shut s : step_target c (ShuttingDownState s) s
  | target_shut_failed s f : (∀ e, s ≠ ErroredState e) →
      step_target c (ShuttingDownState s) (ErroredState (ControllerError f)).

Lemma target_earlier c0 c s s' : later c0 c → step_target c s s' → step_target c0 s s'.
Proof.
  intros [_ Hc].
  assert (∀ st, polled c st → polled c0 st) as Hp.
  { intros st (now & wg & Hn & Hw). exists now, wg. split; [lia|done]. }
  destruct 1; [by eapply target_stay|apply target_schedule; done|apply target_start| | | | | |].
  - by eapply (target_run _ st); auto.
  - by eapply (target_resize _ st); auto.
  - by eapply (target_complete _ st); auto.
  - apply target_reschedule.
  - apply target_shut.
  - by apply target_shut_failed.
Qed.

Definition step_post c (r : outcome TrainControllerLoopIterationResult) c' : Prop :=
  later c c' ∧
  match r with
  | Ret res => _state c' = _state c ∧
      (step_target c (_state c) (next_state res) ∨
       is_shutting (_state c) = false ∧ failed (_state c) c res c')
  | Exc x => is_shutting (_state c) = false ∧
      (_state c' = _state c ∨
       _state c = RunningState ∧ x = AsyncioActorExit ∧ _state c' = AbortedState)
  end.

Lemma keeps_select n sel k fuel : keeps (select_labels env n sel k fuel).
Proof.
  revert sel k. induction fuel as [|fuel IH]; intros sel k; [apply keeps_ret|].
  apply keeps_bind; [apply keeps_call|]. intros a. apply IH.
Qed.

Lemma keeps_start_worker_group n rs : keeps (_start_worker_group env n rs).
Proof.
  unfold _start_worker_group. apply keeps_bind; [apply keeps_select|]. intros sel.
  apply keeps_bind; [destruct (use_tpu env); [apply keeps_call|apply keeps_ret]|]. intros k.
  apply keeps_bind; [apply keeps_get|]. intros a.
  apply keeps_bind; [apply keeps_call|]. intros wg. apply keeps_put_worker_group.
Qed.

Lemma keeps_shutdown_worker_group : keeps (_shutdown_worker_group env).
Proof.
  apply keeps_bind; [apply keeps_get|]. intros [wg|]; [|apply keeps_raise].
  apply keeps_bind; [apply keeps_call|]. intros _. apply keeps_put_worker_group.
Qed.

Lemma keeps_replace_all wg rgs : keeps (replace_all env wg rgs).
Proof.
  induction rgs as [|rg rgs IH]; [apply keeps_ret|].
  apply keeps_bind; [apply keeps_call|]. by intros _.
Qed.

Lemma keeps_restart n rs : keeps (_ ← _shutdown_worker_group env; _start_worker_group env n rs).
Proof.
  apply keeps_bind; [apply keeps_shutdown_worker_group|]. intros _. apply keeps_start_worker_group.
Qed.

Lemma resize_post n rs c r c' : _execute_resize_decision env n rs c = (r, c') →
  later c c' ∧ _state c' = _state c ∧
  match r with
  | Ret res => next_state res = RunningState ∨ failed (_state c) c res c'
  | Exc _ => True
  end.
Proof.
  unfold _execute_resize_decision. unfold mbind at 1, M_bind at 1.
  destruct (_run_controller_hook env _ true c) as [[[res|]|x] c1] eqn:Eh;
    apply hook_post_any in Eh as [Hq Hh].
  - intros [= <- <-]. split; [by apply quiet_later|]. split; [apply Hq|by right].
  - lazymatch goal with |- ?m c1 = _ → _ =>
      assert (keeps m ∧ ∀ res c2, m c1 = (Ret res, c2) → next_state res = RunningState) as [Hk Hn] end.
    { split.
      - apply keeps_bind; [apply keeps_get|]. intros owg.
        apply keeps_bind; [destruct owg; [apply keeps_call|apply keeps_ret]|]. intros k.
        apply keeps_bind; [destruct owg; [apply keeps_call|apply keeps_ret]|]. intros ps.
        apply keeps_bind; [|intros _; apply keeps_bind; [apply keeps_get|intros; apply keeps_ret]].
        destruct owg as [wg|]; [|apply keeps_start_worker_group].
        destruct ps; [|apply keeps_restart].
        destruct (_ && _); [apply keeps_replace_all|apply keeps_restart].
      - intros res c2. unfold mbind, M_bind, get. cbv beta iota.
        repeat match goal with
        | |- context [match ?m ?c with (o, c') => _ end] => destruct (m c) as [[?|?] ?]; try done
        end.
        by intros [= <- _]. }
    intros H. apply Hk in H as Hq'. pose proof (quiet_trans _ _ _ Hq Hq') as Hq2.
    split; [by apply quiet_later|]. split; [apply Hq2|]. destruct r as [res|]; [|done].
    left. by eapply Hn.
  - intros [= <- <-]. split; [by apply quiet_later|]. split; [apply Hq|done].
Qed.
Lemma catch_invoke_post h (o : option exc) c :
  (∀ e, o = Some e → ∃ f, e = ControllerError f) →
  ∃ o' c', catch (_ ← invoke env h; mret o)
      (λ e, mret (match o with Some e0 => Some e0 | None => Some e end)) c = (Ret o', c') ∧
    quiet c c' ∧ (∀ e, o' = Some e → ∃ f, e = ControllerError f) ∧ (is_Some o → o' = o).
Proof.
  intros Ho. unfold catch, mbind, M_bind. destruct (invoke env h c) as [[u|x] c1] eqn:E.
  - exists o, c1. split; [done|]. split; [by eapply keeps_invoke|done].
  - exists (match o with Some e0 => Some e0 | None => Some x end), c1. split; [done|].
    split; [by eapply keeps_invoke|]. apply invoke_error in E as [f ->].
    destruct o; [done|]. split; [intros e [= <-]; by eexists|]. by intros [? [=]].
Qed.

(** Shutting down always returns; the state it leads to. *)
Lemma shutdown_post next c : ∃ res c', _shutdown env next c = (Ret res, c') ∧ quiet c c' ∧
  (next_state res = next ∨
   (∀ e, next ≠ ErroredState e) ∧ ∃ f, next_state res = ErroredState (ControllerError f)).
Proof.
  unfold _shutdown. unfold mbind at 1 2, M_bind at 1 2, get. cbv beta iota.
  set (m := match _worker_group c with Some _ => _ | None => _ end).
  assert (∃ o c1, m c = (Ret o, c1) ∧ quiet c c1 ∧ ∀ e, o = Some e → ∃ f, e = ControllerError f)
    as (o & c1 & Em & Hq1 & Ho).
  { subst m. destruct (_worker_group c); [|by exists None, c; split_and!; [|apply quiet_refl|]].
    unfold catch, mbind, M_bind. destruct (_shutdown_worker_group env c) as [[u|x] c1] eqn:E.
    - exists None, c1. split_and!; [done|by eapply keeps_shutdown_worker_group|done].
    - exists (Some (ControllerError x)), c1.
      split_and!; [done|by eapply keeps_shutdown_worker_group|]. intros e [= <-]. by exists x. }
  unfold mbind at 1, M_bind at 1. rewrite Em.
  destruct (catch_invoke_post "before_controller_shutdown" o c1 Ho) as (o' & c2 & Ec & Hq2 & Ho' & _).
  unfold mbind at 1, M_bind at 1. rewrite Ec. pose proof (quiet_trans _ _ _ Hq1 Hq2) as Hq.
  destruct o' as [e|]; [|by eexists _, c2; split; [done|]; split; [|left]].
  destruct (Ho' e eq_refl) as [f ->].
  destruct next; eexists _, c2; (split; [done|]); (split; [done|]); try (by left);
    right; (split; [done|by exists f]).
Qed.

Lemma handle_scaling_post s c r c' : waiting s = true →
  _make_and_handle_scaling_decision_for_non_running_worker_group env s c = (r, c') →
  quiet c c' ∧ (clock c < clock c')%nat ∧
  match r with Ret res => step_target c s (next_state res) | Exc _ => True end.
Proof.
  intros Hw. unfold _make_and_handle_scaling_decision_for_non_running_worker_group, mbind, M_bind.
  destruct (call _ c) as [[d|x] c1] eqn:E; pose proof (keeps_call _ _ _ _ E) as Hq;
    injection E as E <-.
  - destruct d eqn:Ed; intros [= <- <-]; (split; [done|]); (split; [simpl; lia|]); try done.
    + by eapply target_stay.
    + by apply target_schedule.
  - intros [= <- <-]. split; [done|]. split; [simpl; lia|done].
Qed.

Lemma running_post c r c' : _state c = RunningState → _step_running env c = (r, c') →
  step_post c r c' ∧ (clock c < clock c')%nat.
Proof.
  intros Hs. unfold _step_running, step_post. rewrite Hs. unfold mbind at 1, M_bind at 1.
  destruct (_poll_workers env c) as [[st|x] c1] eqn:Ep;
    apply poll_post in Ep as (Hl & Hc & Hp); try (by rewrite Hs).
  - rewrite Hs in Hp. destruct Hp as [Hp Hpd]. destruct (errors st) as [|we wes] eqn:Ee.
    + destruct (finished st) eqn:Ef.
      * destruct (dget _ 0) as [w|].
        -- intros [= <- <-]. split; [|done]. split; [done|]. split; [done|]. left.
           by apply (target_complete c st).
        -- intros [= <- <-]. split; [|done]. split; [done|]. split; [done|by left].
      * unfold mbind, M_bind, get. cbv beta iota. destruct (_worker_group c1) as [wg|].
        -- destruct (call _ c1) as [[d|x] c2] eqn:Ec; pose proof (keeps_call _ _ _ _ Ec) as Hq;
             assert (later c c2 ∧ (clock c < clock c2)%nat) as [Hl2 Hc2]
               by (split; [eapply later_trans; [exact Hl|by apply quiet_later]|
                           destruct Hq as (_ & _ & ?); lia]);
             destruct Hq as (Hs2 & _); rewrite Hp in Hs2.
           ++ destruct d; intros [= <- <-]; (split; [|done]); (split; [done|]).
              ** split; [done|]. left. by apply (target_run c st).
              ** split; [done|]. left. by apply (target_resize c st).
              ** split; [done|by left].
           ++ intros [= <- <-]. split; [|done]. split; [done|]. split; [done|by left].
        -- intros [= <- <-]. split; [|done]. split; [done|]. split; [done|by left].
    + intros H. apply decide_execute_post in H as [Hq Hr]; [|done].
      assert (later c c') as Hl' by (eapply later_trans; [exact Hl|by apply quiet_later]).
      split; [|destruct Hq as (_ & _ & ?); lia]. split; [done|]. destruct Hq as (Hs' & _).
      rewrite Hp in Hs'. destruct r as [res|x]; [|split; [done|by left]]. split; [done|]. right.
      split; [done|].
      rewrite Hp in Hr. destruct Hr as (d & e & p & p' & He & Hd & Hm & Hd' & ->).
      exists d, e, p, p'. split_and!; [done| |done..].
      destruct Hl as [Hl _]. by eapply decided_trans.
  - rewrite Hs in Hp. intros [= <- <-]. split; [|done]. split; [done|].
    split; [done|]. destruct Hp as [Hp|[-> Hp]]; [by left|by right].
Qed.

Lemma step_ok c r c' : is_terminal (_state c) = false → _step env c = (r, c') → step_post c r c'.
Proof.
  intros Ht. unfold _step. unfold mbind at 1, M_bind at 1, get at 1. cbv beta iota.
  assert (∀ x, is_shutting (_state c) = false → (Exc x, c) = (r, c') → step_post c r c') as Hraise.
  { intros x Hns [= <- <-]. split; [apply later_refl|]. split; [done|by left]. }
  assert (∀ s, _state c = s → waiting s = true →
    _make_and_handle_scaling_decision_for_non_running_worker_group env s c = (r, c') →
    step_post c r c') as Hwait.
  { intros s Hs Hw H. apply handle_scaling_post in H as (Hq & _ & Hr); [|done].
    unfold step_post. split; [by apply quiet_later|].
    destruct r; [|split; [rewrite Hs; by destruct s|left; apply Hq]].
    rewrite Hs. split; [rewrite <-Hs; apply Hq|by left]. }
  destruct (_state c) as [|d|e| |e|d|next|e| |] eqn:Hs; try done; try by apply Hwait.
  - destruct d as [|n rs|]; [by apply Hraise| |by apply Hraise].
    intros H. apply resize_post in H as (Hl & Hs' & Hr). split; [done|].
    rewrite Hs in *. destruct r as [res|x]; [|split; [done|by left]]. split; [done|].
    destruct Hr as [->|Hr]; [left; apply target_start|by right].
  - intros H. by apply running_post in H as [H _].
  - intros [= <- <-]. split; [apply later_refl|]. rewrite Hs. split; [done|]. left. apply target_reschedule.
  - destruct (shutdown_post next c) as (res & c1 & E & Hq & Hn). rewrite E. intros [= <- <-].
    split; [by apply quiet_later|]. split; [apply Hq|]. left. rewrite Hs.
    destruct Hn as [->|[Hne [f ->]]]; [apply target_shut|by apply target_shut_failed].
Qed.
(** ** One iteration *)

Lemma failed_later s c0 c res c' c2 : later c0 c → failed s c res c' → later c' c2 →
  failed s c0 res c2.
Proof.
  intros [Hd _] (d & e & p & p' & He & Hp & Hm & Hp' & ->) [Hd' _].
  exists d, e, p, p'. split_and!; [done| |done| |done]; by eapply decided_trans.
Qed.

(** The state a step asks for, before callbacks see it. *)
Definition moved c n c2 : Prop :=
  step_target c (_state c) n ∨
  is_shutting (_state c) = false ∧ ∃ res, failed (_state c) c res c2 ∧ n = next_state res.

Inductive iteration_post c : outcome unit → TrainController.t WG P → Prop :=
  | iteration_moved n c2 r c' : later c c2 → later c2 c' → moved c n c2 →
      (waiting (_state c) = true ∨ _state c = RunningState → clock c < clock c2)%nat →
      (_state c' = n ∨
       preserved n = false ∧ ∃ res, failed n c2 res c' ∧ _state c' = next_state res) →
      r = Ret tt ∨ (∃ x, r = Exc x ∧ policy_raised x) →
      iteration_post c r c'
  | iteration_exit c' : later c c' →
      _state c' = _state c ∨ _state c = RunningState ∧ _state c' = AbortedState →
      iteration_post c (Exc AsyncioActorExit) c'
  | iteration_forced c' e x : later c c' → is_TrainingFailedError e = true →
      _state c' = ErroredState e → policy_raised x →
      iteration_post c (Ret tt) c'.

Lemma handle_post e c r c' : handle_step_error env e c = (r, c') → later c c' ∧
  match r with
  | Ret (Some res) => failed (_state c) c res c'
  | Ret None => ∃ e x, is_TrainingFailedError e = true ∧ _state c' = ErroredState e ∧ policy_raised x
  | Exc x => x = AsyncioActorExit ∧ _state c' = _state c
  end.
Proof.
  unfold handle_step_error. set (te := if is_TrainingFailedError e then e else ControllerError e).
  assert (is_TrainingFailedError te = true) as Hte
    by (subst te; destruct (is_TrainingFailedError e) eqn:E; done).
  assert (∀ r0 c0, catch (d ← decide_failure te; r ← _execute_failure_decision env d te true;
      mret (Some r)) (λ _, _ ← put_state (ErroredState te); mret None) c = (r0, c0) →
    later c c0 ∧ match r0 with
      | Ret (Some res) => failed (_state c) c res c0
      | Ret None => ∃ e x, is_TrainingFailedError e = true ∧ _state c0 = ErroredState e ∧ policy_raised x
      | Exc x => False end) as H.
  { intros r0 c0. unfold catch.
    destruct ((d ← decide_failure te; _execute_failure_decision env d te true) c) as [r1 c1] eqn:E1.
    assert ((d ← decide_failure te; r ← _execute_failure_decision env d te true; mret (Some r)) c =
      (match r1 with Ret res => Ret (Some res) | Exc x => Exc x end, c1)) as ->.
    { unfold mbind, M_bind in *. destruct (decide_failure te c) as [[d|x] c2]; [|by injection E1 as <- <-].
      destruct (_execute_failure_decision env d te true c2) as [[res|x] c3];
        by injection E1 as <- <-. }
    apply decide_execute_post in E1 as [Hq Hr]; [|done].
    destruct r1 as [res|x]; intros [= <- <-].
    - split; [by apply quiet_later|done].
    - split; [destruct Hq as (_ & ? & ?); by split|]. by exists te, x. }
  destruct e; (intros Hh; first
    [ apply H in Hh as [Hl Hr]; split; [exact Hl|]; by destruct r as [[res|]|x]
    | injection Hh as <- <-; split; [apply later_refl|done] ]).
Qed.

Lemma iteration_ok c r c' : is_terminal (_state c) = false →
  _run_control_loop_iteration env c = (r, c') → iteration_post c r c'.
Proof.
  intros Ht. unfold _run_control_loop_iteration.
  unfold mbind at 1, M_bind at 1, get at 1. cbv beta iota. rewrite Ht.
  unfold mbind at 1, M_bind at 1.
  set (g := if needs_new_run_attempt (_state c) then _ else _).
  assert (∃ c0, g c = (Ret tt, c0) ∧ quiet c c0) as (c0 & Eg & Hq0).
  { subst g. destruct (needs_new_run_attempt _); eexists; (split; [done|]);
      [by eapply keeps_generate|apply quiet_refl]. }
  rewrite Eg. pose proof Hq0 as (Es0 & _). pose proof (quiet_later _ _ Hq0) as Hl0.
  unfold mbind at 1, M_bind at 1.
  assert (∀ n c2, later c c2 → moved c n c2 →
    (waiting (_state c) = true ∨ _state c = RunningState → clock c < clock c2)%nat →
    _set_state env n c2 = (r, c') → iteration_post c r c') as Hset.
  { intros n c2 Hl Hm Hclk H. apply set_state_post in H as (Hl' & Hr & Hs).
    apply (iteration_moved c n c2); [done..| |done].
    destruct Hs as [Hs|(Hp & _ & d1 & d2 & res & Hl1 & Hl2 & Hf & Hs)]; [by left|].
    right. split; [done|]. exists res. split; [by eapply failed_later|done]. }
  unfold catch.
  assert (∀ o c1, _step env c0 = (o, c1) → waiting (_state c) = true ∨ _state c = RunningState →
    (clock c < clock c1)%nat) as Hclk.
  { intros o c1 E1 Hw. destruct Hq0 as (_ & _ & Hle).
    assert (clock c0 < clock c1)%nat; [|lia].
    unfold _step in E1. unfold mbind at 1, M_bind at 1, get at 1 in E1. cbv beta iota in E1.
    rewrite Es0 in E1. destruct Hw as [Hw|Hw].
    - destruct (_state c); try done; by apply handle_scaling_post in E1 as (_ & ? & _).
    - rewrite Hw in E1. rewrite Hw in Es0. by apply running_post in E1 as [_ ?]. }
  unfold mbind at 1, M_bind at 1.
  destruct (_step env c0) as [[res|x] c1] eqn:E1; specialize (Hclk _ _ eq_refl);
    apply step_ok in E1 as [Hl1 Hr]; try (by rewrite Es0);
    pose proof (later_trans _ _ _ Hl0 Hl1) as Hlc; rewrite Es0 in Hr.
  - destruct Hr as [Hs Hr]. apply (Hset (next_state res) c1); [done| |done].
    destruct Hr as [Hr|[Hns Hr]]; [left; exact (target_earlier _ _ _ _ Hl0 Hr)|]. right. split; [done|].
    exists res. split; [|done].
    eapply failed_later; [exact Hl0|exact Hr|apply later_refl].
  - destruct (handle_step_error env x c1) as [[[res|]|y] c2] eqn:Eh;
      pose proof Eh as Eh'; apply handle_post in Eh as [Hl2 Hh]; pose proof (later_trans _ _ _ Hlc Hl2) as Hlc2.
    + assert (_state c1 = _state c) as Hs1.
      { destruct Hr as (_ & [Hr|(_ & -> & _)]); [exact Hr|]. discriminate Eh'. }
      intros H. apply (Hset (next_state res) c2); [done| | |done].
      * right. split; [apply Hr|]. exists res. split; [|done]. rewrite Hs1 in Hh.
        eapply failed_later; [exact Hlc|exact Hh|apply later_refl].
      * intros Hw. specialize (Hclk Hw). destruct Hl2 as [_ ?]. lia.
    + destruct Hh as (e & z & He & Hs & Hz). intros [= <- <-]. by eapply iteration_forced.
    + destruct Hh as [-> Hs2]. intros [= <- <-]. apply iteration_exit; [done|].
      rewrite Hs2. destruct Hr as (_ & [Hr|(? & _ & ?)]); auto.
Qed.
End facts.
