(* ===== verification/ControllerProps.v ===== *)
(** * The controller: failure budget, state diagram, shutdown, termination *)
From S2P Require Import Prelude PyDict PyFloat FailurePolicy Controller ControllerFacts.
Import TrainController.

(** ** The default failure policy *)
Module Budget.
Import DefaultFailurePolicy.

(** Which limit an error counts against. *)
Definition is_worker_error (e : exc) : bool := match e with WorkerGroupError _ => true | _ => false end.

Definition limit_of (cfg : FailureConfig) (e : exc) : Z :=
  if is_worker_error e then max_failures cfg else controller_failure_limit cfg.

(** The errors of the same kind as [e] that count. *)
Definition same_kind (e e' : exc) : bool :=
  _is_retryable_error e' && eqb (is_worker_error e) (is_worker_error e').

Definition count (P : exc → bool) (es : list exc) : Z := Z.of_nat (length (filter (λ e, P e = true) es)).

(** The decisions on a sequence of errors. *)
Fixpoint decide_all (p : t) (es : list exc) : list (outcome FailureDecision) :=
  match es with
  | [] => []
  | e :: es => let '(d, p) := make_decision e p in d :: decide_all p es
  end.

Definition decided_on (cfg : FailureConfig) (es : list exc) : t := {|
  failure_config := cfg;
  _worker_group_failures := count (λ e, _is_retryable_error e && is_worker_error e) es;
  _controller_failures := count (λ e, _is_retryable_error e && negb (is_worker_error e)) es |}.

Lemma count_snoc P es e : count P (es ++ [e]) = count P es + Z.b2z (P e).
Proof.
  unfold count. rewrite filter_app, length_app, filter_cons. destruct (P e); simpl; lia.
Qed.

Definition decision (cfg : FailureConfig) (before : list exc) (e : exc) : FailureDecision :=
  if _is_retryable_error e &&
     ((limit_of cfg e =? -1) || (count (same_kind e) before + 1 <=? limit_of cfg e))
  then RETRY else RAISE.

Lemma count_ext P Q es : (∀ e, P e = Q e) → count P es = count Q es.
Proof.
  intros H. unfold count. do 2 f_equal. induction es as [|e es IH]; [done|].
  rewrite !filter_cons, H, IH. done.
Qed.

Lemma make_decision_on cfg before e : is_TrainingFailedError e = true →
  make_decision e (decided_on cfg before) =
    (Ret (decision cfg before e), decided_on cfg (before ++ [e])).
Proof.
  intros He. unfold decision, decided_on, limit_of. rewrite !count_snoc.
  destruct e as [| | | | | |wf|f]; try done.
  - rewrite (count_ext (same_kind _) (λ e, _is_retryable_error e && is_worker_error e))
      by (intros e; unfold same_kind; simpl; by destruct (is_worker_error e)).
    unfold make_decision, exceeds, retry_limit, _log_decision. simpl. rewrite Z.add_0_r. f_equal. f_equal.
    destruct (_ =? -1); [done|]. destruct (_ <? _) eqn:E; destruct (_ <=? _) eqn:E'; (done || lia).
  - rewrite (count_ext (same_kind _) (λ e, _is_retryable_error e && negb (is_worker_error e)))
      by (intros e; unfold same_kind; simpl; by destruct (is_worker_error e)).
    unfold make_decision, exceeds, retry_limit, _log_decision. simpl.
    destruct (RETRYABLE_CONTROLLER_ERRORS f); simpl; rewrite ?Z.add_0_r; [|done]. f_equal. f_equal.
    destruct (_ =? -1); [done|]. destruct (_ <? _) eqn:E; destruct (_ <=? _) eqn:E'; (done || lia).
Qed.

Lemma decide_all_on cfg before es : Forall (λ e, is_TrainingFailedError e = true) es →
  decide_all (decided_on cfg before) es =
    imap (λ k e, Ret (decision cfg (before ++ take k es) e)) es.
Proof.
  revert before. induction es as [|e es IH]; intros before; [done|].
  intros [He Hes]%Forall_cons. simpl. rewrite make_decision_on by done.
  rewrite app_nil_r. f_equal. rewrite IH by done. apply imap_ext. intros k e' _. simpl.
  by rewrite <-app_assoc.
Qed.

Definition retried (d : outcome FailureDecision) : bool :=
  match d with Ret RETRY => true | _ => false end.

(** The retries granted to errors of the kind of [e]. *)
Definition retries (e : exc) (es : list exc) (ds : list (outcome FailureDecision)) : Z :=
  Z.of_nat (length (filter (λ p, same_kind e p.1 && retried p.2 = true) (zip es ds))).

Lemma retries_bound cfg e before es : limit_of cfg e ≠ -1 →
  Forall (λ e, is_TrainingFailedError e = true) es →
  retries e es (decide_all (decided_on cfg before) es) ≤
    Z.max 0 (limit_of cfg e - count (same_kind e) before).
Proof.
  intros Hl. revert before. induction es as [|e' es IH]; intros before; [simpl; unfold retries; simpl; lia|].
  intros [He Hes]%Forall_cons. cbn [decide_all]. rewrite make_decision_on by done.
  specialize (IH (before ++ [e']) Hes). rewrite count_snoc in IH. unfold retries in *.
  cbn [zip zip_with]. rewrite filter_cons. case_decide as Hk; [|destruct (same_kind e e'); simpl in IH; lia].
  simpl in Hk. apply andb_true_iff in Hk as [Hk Hd]. rewrite Hk in IH. cbn [length].
  apply andb_true_iff in Hk as [Hr Hw%eqb_prop].
  unfold decision, limit_of in Hd. rewrite Hr, <-Hw in Hd. fold (limit_of cfg e) in Hd.
  rewrite (count_ext (same_kind e') (same_kind e)) in Hd by (intros x; unfold same_kind; by rewrite Hw).
  apply Z.eqb_neq in Hl. rewrite Hl in Hd. simpl in Hd.
  destruct (_ <=? _) eqn:E; [|done]. simpl in IH. lia.
Qed.

(** C39: The decision on each training error, in any sequence of them, depends
    on nothing but the errors before it: an error that cannot be retried is
    raised and counts against no limit; the k-th worker group error is retried
    exactly when [max_failures] is -1 or k is at most [max_failures], and the
    k-th retryable controller error by [controller_failure_limit] in the same
    way.  So the retries granted never exceed a limit other than -1. *)
Theorem failure_policy_decisions cfg es :
  Forall (λ e, is_TrainingFailedError e = true) es →
  decide_all (init cfg) es = imap (λ k e, Ret (decision cfg (take k es) e)) es ∧
  ∀ e, limit_of cfg e ≠ -1 → retries e es (decide_all (init cfg) es) ≤ Z.max 0 (limit_of cfg e).
Proof.
  intros Hes. split; [exact (decide_all_on cfg [] es Hes)|]. intros e Hl.
  pose proof (retries_bound cfg e [] es Hl Hes) as H. unfold count in H. simpl in H.
  by rewrite Z.sub_0_r in H.
Qed.

Lemma failure_policy_decisions_witness :
  let cfg := {| max_failures := 1; controller_failure_limit := -1 |} in
  let es := [WorkerGroupError []; ControllerError WorkerGroupStartupFailedError; WorkerGroupError [];
             ControllerError (UserError 7)] in
  decide_all (init cfg) es = [Ret RETRY; Ret RETRY; Ret RAISE; Ret RAISE] ∧
  retries (WorkerGroupError []) es (decide_all (init cfg) es) ≤ 1.
Proof.
  set (cfg := {| max_failures := 1; controller_failure_limit := -1 |}).
  set (es := [WorkerGroupError []; ControllerError WorkerGroupStartupFailedError; WorkerGroupError [];
              ControllerError (UserError 7)]).
  assert (Forall (λ e, is_TrainingFailedError e = true) es) as Hes by (repeat constructor).
  destruct (failure_policy_decisions cfg es Hes) as [H1 H2]. split; [exact H1|].
  apply (H2 (WorkerGroupError [])). discriminate.
Defined.

(** ** The retries left, while the controller runs *)

(** The counters a policy can have, and the retries it has granted. *)
Definition limits_finite (cfg : FailureConfig) : Prop :=
  max_failures cfg ≠ -1 ∧ controller_failure_limit cfg ≠ -1.

Definition counters_ok (p : t) : Prop := 0 ≤ _worker_group_failures p ∧ 0 ≤ _controller_failures p.

Definition granted (p : t) : Z :=
  Z.min (_worker_group_failures p) (Z.max 0 (max_failures (failure_config p))) +
  Z.min (_controller_failures p) (Z.max 0 (controller_failure_limit (failure_config p))).

Definition budget (cfg : FailureConfig) : Z :=
  Z.max 0 (max_failures cfg) + Z.max 0 (controller_failure_limit cfg).

Lemma granted_budget p : granted p ≤ budget (failure_config p).
Proof. unfold granted, budget. lia. Qed.

Lemma make_decision_granted e p : is_TrainingFailedError e = true → limits_finite (failure_config p) →
  counters_ok p → ∃ d p', make_decision e p = (Ret d, p') ∧ failure_config p' = failure_config p ∧
    counters_ok p' ∧ (d = RETRY ∧ granted p' = granted p + 1 ∨ d = RAISE ∧ granted p' = granted p).
Proof.
  intros He [Hm Hc] [H1 H2]. unfold make_decision, exceeds, retry_limit, _log_decision. rewrite He.
  apply Z.eqb_neq in Hm, Hc.
  destruct e as [| | | | | |wf|f]; try done; simpl; [|destruct (RETRYABLE_CONTROLLER_ERRORS f); simpl].
  - rewrite Hm. eexists _, _. split; [done|]. split; [done|]. unfold counters_ok, granted. simpl.
    split; [lia|]. destruct (_ <? _) eqn:E; [right|left]; (split; [done|]); lia.
  - rewrite Hc. eexists _, _. split; [done|]. split; [done|]. unfold counters_ok, granted. simpl.
    split; [lia|]. destruct (_ <? _) eqn:E; [right|left]; (split; [done|]); lia.
  - eexists _, _. split; [done|]. split; [done|]. split; [done|]. by right.
Qed.
End Budget.

(** ** Typed states and the state diagram *)
Section states.
Context {WG Selector P : Type} `{!FailurePolicy P} (env : Env WG Selector).
Implicit Types (c : TrainController.t WG P) (s : TrainControllerState).

(** What each state may carry. *)
Definition state_ok s : Prop :=
  match s with
  | SchedulingState d | ResizingState d => ∃ n rs, d = ResizeDecision n rs
  | ReschedulingState e | RestartingState e | ErroredState e => is_TrainingFailedError e = true
  | ShuttingDownState next =>
      next = FinishedState ∨ ∃ e, next = ErroredState e ∧ is_TrainingFailedError e = true
  | _ => True
  end.

(** The state diagram: where an iteration may lead. *)
Definition allowed (a b : TrainControllerStateType) : bool :=
  match a, b with
  | INITIALIZING, (INITIALIZING | SCHEDULING | RESCHEDULING | SHUTTING_DOWN | ERRORED) => true
  | SCHEDULING, (SCHEDULING | RUNNING | RESCHEDULING | RESTARTING | SHUTTING_DOWN | ERRORED) => true
  | RESCHEDULING, (RESCHEDULING | SCHEDULING | SHUTTING_DOWN | ERRORED) => true
  | RUNNING, (RUNNING | RESIZING | RESTARTING | SHUTTING_DOWN | ERRORED | ABORTED) => true
  | RESTARTING, (RESTARTING | SCHEDULING | RESCHEDULING | SHUTTING_DOWN | ERRORED) => true
  | RESIZING, (RESIZING | SCHEDULING | RESCHEDULING | SHUTTING_DOWN | ERRORED) => true
  | SHUTTING_DOWN, (FINISHED | ERRORED) => true
  | _, _ => false
  end.

(** The transitions of one step, and those of a failing callback after it. *)
Definition step_allowed (a b : TrainControllerStateType) : bool :=
  match a, b with
  | (INITIALIZING | RESTARTING | RESCHEDULING), SCHEDULING => true
  | SCHEDULING, RUNNING => true
  | RUNNING, (RESIZING | SHUTTING_DOWN) => true
  | RESIZING, SCHEDULING => true
  | SHUTTING_DOWN, (FINISHED | ERRORED) => true
  | (INITIALIZING | RESTARTING | RESCHEDULING | RUNNING), _ =>
      match a, b with
      | INITIALIZING, INITIALIZING | RESTARTING, RESTARTING | RESCHEDULING, RESCHEDULING
      | RUNNING, RUNNING => true
      | _, _ => false
      end
  | _, _ => false
  end.

Lemma failure_state_ok s s' : state_ok s → is_terminal s = false → failure_state s s' → state_ok s'.
Proof.
  intros Hs Ht. destruct 1 as [|e He|e He]; [done| |by right; exists e].
  destruct s; simpl; try done; by right; exists e.
Qed.

Lemma step_target_ok c s s' : state_ok s → step_target env c s s' → state_ok s'.
Proof.
  intros Hs. destruct 1; simpl; try done; eauto.
  destruct Hs as [->|(e & -> & He)]; simpl; auto.
Qed.

Lemma step_target_allowed c s s' : state_ok s → step_target env c s s' →
  step_allowed (_state_type s) (_state_type s') = true.
Proof.
  intros Hs. destruct 1 as [s now Hw _|s n rs Hw| | | | | |s|s f]; try done.
  - by destruct s.
  - by destruct s.
  - by destruct Hs as [->|(e & -> & _)].
Qed.

(** Where a failure leads, as types. *)
Definition failure_allowed (a b : TrainControllerStateType) : bool :=
  match b with
  | SHUTTING_DOWN => true
  | RESTARTING => match a with RUNNING | RESTARTING => true | _ => false end
  | RESCHEDULING => match a with SCHEDULING | RESCHEDULING => true | _ => false end
  | INITIALIZING => match a with INITIALIZING => true | _ => false end
  | SCHEDULING => match a with SCHEDULING => true | _ => false end
  | RUNNING => match a with RUNNING => true | _ => false end
  | RESIZING => match a with RESIZING => true | _ => false end
  | ERRORED | FINISHED | ABORTED => false
  end.

Lemma failure_state_allowed s s' : is_terminal s = false → failure_state s s' →
  failure_allowed (_state_type s) (_state_type s') = true.
Proof. intros Ht. destruct 1; destruct s; done. Qed.

Lemma moved_ok c n c2 : state_ok (_state c) → is_terminal (_state c) = false → moved env c n c2 →
  state_ok n ∧
  (step_allowed (_state_type (_state c)) (_state_type n) = true ∨
   is_shutting (_state c) = false ∧
   failure_allowed (_state_type (_state c)) (_state_type n) = true).
Proof.
  intros Hs Ht [Hm|(Hns & res & Hf & ->)].
  - split; [by eapply step_target_ok|]. left. by eapply step_target_allowed.
  - apply failed_state in Hf. split; [by eapply failure_state_ok|]. right. split; [done|].
    by apply failure_state_allowed.
Qed.

(** C36: Every iteration of the control loop, whatever the worker group, the
    scaling policy, the failure policy and the callbacks do, keeps the states
    typed: a scheduling or resizing state carries a resize decision, the
    states after a failure carry a training error, a controller that shuts
    down leads to the finished state or to an errored one.  It follows the
    state diagram, and the only exceptions that leave it are the exit of the
    actor and those of the failure policy itself: the assertions and the
    errors for unexpected states and decisions in a step are never the outcome. *)
Theorem iteration_follows_diagram c r c' :
  state_ok (_state c) → is_terminal (_state c) = false →
  _run_control_loop_iteration env c = (r, c') →
  state_ok (_state c') ∧
  (allowed (_state_type (_state c)) (_state_type (_state c')) = true ∨
   r = Exc AsyncioActorExit ∧ _state c' = _state c) ∧
  (r = Ret tt ∨ r = Exc AsyncioActorExit ∨ ∃ x, r = Exc x ∧ policy_raised (P := P) x).
Proof.
  intros Hs Ht H. apply iteration_ok in H; [|done].
  destruct H as [n c2 r c' Hl Hl2 Hm Hclk Hset Hr|c' Hl Hst|c' e x Hl He Hst Hx].
  - destruct (moved_ok c n c2 Hs Ht Hm) as [Hn Hal].
    destruct Hset as [Hset|(Hp & res & Hf & Hset)].
    + rewrite Hset. split; [done|]. split; [left|tauto].
      destruct (_state c), n; try done; destruct Hal as [?|[? ?]]; done.
    + rewrite Hset. apply failed_state in Hf.
      assert (is_terminal n = false) as Htn by (unfold preserved in Hp; by destruct (is_terminal n)).
      split; [by eapply failure_state_ok|]. split; [left|tauto].
      pose proof (failure_state_allowed _ _ Htn Hf) as Hal2.
      destruct (_state c), n; try done; destruct (next_state res); try done;
        destruct Hal as [?|[? ?]]; done.
  - destruct Hst as [Hst|[Hrun Hst]]; rewrite Hst.
    + split; [done|]. split; [by right|]. by right; left.
    + split; [done|]. rewrite Hrun. split; [by left|]. by right; left.
  - rewrite Hst. split; [done|]. split; [|by left].
    left. destruct (_state c); done.
Qed.
End states.

(** ** Shutting down *)
Section shutdown.
Context {WG Selector P : Type} `{!FailurePolicy P} (env : Env WG Selector).
Implicit Types (c : TrainController.t WG P) (s : TrainControllerState).

(** Nothing fails while the controller shuts down. *)
Definition shutdown_calm : Prop :=
  (∀ cb now, cb ∈ _controller_callbacks env → hook cb "before_controller_shutdown" now = Some None) ∧
  ∀ now wg, wg_shutdown env now wg = Ret tt.

Lemma invoke_calm h : (∀ cb now, cb ∈ _controller_callbacks env → hook cb h now = Some None) →
  ∀ c, ∃ c', invoke (P := P) env h c = (Ret tt, c').
Proof.
  intros Hh c. unfold invoke. generalize (clock c) at 1 as now.
  induction (_controller_callbacks env) as [|cb cbs IH]; intros now; simpl; [by eexists|].
  rewrite Hh by by left. apply IH. intros cb' t Hc. apply Hh. by right.
Qed.

Lemma shutdown_calm_result next c : shutdown_calm →
  ∃ c', _shutdown env next c = (Ret {| previous_state := _state c; next_state := next;
    training_failed_error := None |}, c').
Proof.
  intros [Hh Hw]. unfold _shutdown. unfold mbind at 1 2, M_bind at 1 2, get at 1 2. cbv beta iota.
  set (m := match _worker_group c with Some _ => _ | None => _ end).
  assert (∃ c1, m c = (Ret None, c1)) as [c1 E].
  { subst m. destruct (_worker_group c) as [wg|] eqn:Ew; [|by eexists].
    unfold catch, _shutdown_worker_group, mbind, M_bind, get. cbv beta iota. rewrite Ew.
    unfold call. cbv beta iota. rewrite Hw. by eexists. }
  unfold mbind at 1, M_bind at 1. rewrite E. unfold mbind at 1, M_bind at 1, catch at 1.
  unfold mbind at 1, M_bind at 1.
  destruct (invoke_calm "before_controller_shutdown" Hh c1) as [c2 ->]. by eexists.
Qed.

(** A worker group that fails to shut down. *)
Lemma shutdown_failed_result c wg x : _worker_group c = Some wg →
  wg_shutdown env (clock c) wg = Exc x →
  ∃ res c', _shutdown env FinishedState c = (Ret res, c') ∧
    next_state res = ErroredState (ControllerError x).
Proof.
  intros Ew Hw. unfold _shutdown. unfold mbind at 1 2, M_bind at 1 2, get at 1 2. cbv beta iota.
  rewrite Ew. unfold mbind at 1, M_bind at 1, catch at 1.
  unfold _shutdown_worker_group, mbind at 1, M_bind at 1, mbind at 1, M_bind at 1, get at 1.
  cbv beta iota. rewrite Ew. unfold mbind at 1, M_bind at 1, call at 1. cbv beta iota. rewrite Hw.
  cbv beta iota.
  match goal with |- context [mret _ ?c1] => set (c2 := c1) end.
  unfold mret at 1, M_ret at 1. cbv beta iota.
  unfold mbind at 1, M_bind at 1.
  destruct (catch_invoke_post (P := P) env "before_controller_shutdown" (Some (ControllerError x)) c2)
    as (o' & c3 & E & _ & _ & Ho); [intros e [= <-]; by eexists|].
  rewrite E. rewrite Ho by by eexists. by eexists _, c3.
Qed.
Lemma iteration_shutting c next res c1 : _state c = ShuttingDownState next →
  _shutdown env next c = (Ret res, c1) →
  _run_control_loop_iteration env c = _set_state env (next_state res) c1.
Proof.
  intros Hs H. unfold _run_control_loop_iteration. unfold mbind at 1, M_bind at 1, get at 1.
  cbv beta iota. rewrite Hs. cbn [is_terminal needs_new_run_attempt state_type_flags _state_type fst snd].
  unfold mbind at 1, M_bind at 1, mret at 1, M_ret at 1. cbv beta iota.
  unfold mbind at 1, M_bind at 1, catch at 1. unfold mbind at 1, M_bind at 1.
  unfold _step. unfold mbind at 1, M_bind at 1, get at 1. cbv beta iota. rewrite Hs, H. done.
Qed.

(** C38: Shutting down takes one iteration and keeps the outcome.  A controller
    that shuts down reaches a terminal state in that iteration.  After a
    training error it is the errored state with that very error, whatever
    fails meanwhile (the worker group, the callbacks, the callbacks of the
    state update, even the failure policy).  After a successful run it is the
    finished state when nothing fails; otherwise it may be errored, with the
    error of the worker group's shutdown where there is one. *)
Theorem shutdown_keeps_outcome c next r c' :
  _state c = ShuttingDownState next → state_ok (_state c) →
  _run_control_loop_iteration env c = (r, c') →
  is_terminal (_state c') = true ∧
  (∀ e, next = ErroredState e → _state c' = ErroredState e) ∧
  (next = FinishedState →
     (_state c' = FinishedState ∨ ∃ f, _state c' = ErroredState (ControllerError f)) ∧
     (shutdown_calm → _state c' = FinishedState) ∧
     (∀ wg x, _worker_group c = Some wg → wg_shutdown env (clock c) wg = Exc x →
        _state c' = ErroredState (ControllerError x))).
Proof.
  intros Hs Hok H. rewrite Hs in Hok. simpl in Hok.
  destruct (shutdown_post env next c) as (res & c1 & E & _ & Hn).
  rewrite (iteration_shutting c next res c1 Hs E) in H.
  assert (is_terminal (next_state res) = true) as Hterm.
  { destruct Hn as [->|(_ & f & ->)]; [|done]. by destruct Hok as [->|(e & -> & _)]. }
  assert (_state c' = next_state res) as ->.
  { apply set_state_post in H as (_ & _ & [Hc|(Hp & _)]); [done|].
    unfold preserved in Hp. by rewrite Hterm in Hp. }
  split; [done|]. split.
  - intros e ->. destruct Hn as [Hn|(Hne & _)]; [done|by destruct (Hne e)].
  - intros ->. split; [|split].
    + destruct Hn as [Hn|(_ & f & Hn)]; [by left|right; by exists f].
    + intros Hcalm. destruct (shutdown_calm_result FinishedState c Hcalm) as [c2 E2].
      rewrite E in E2. by injection E2 as -> _.
    + intros wg x Hw Hx. destruct (shutdown_failed_result c wg x Hw Hx) as (res2 & c2 & E2 & Hr).
      rewrite E in E2. by injection E2 as -> _.
Qed.
End shutdown.

(** ** Termination *)
Section termination.
Context {WG Selector : Type} (env : Env WG Selector) (cfg : FailureConfig).
Import DefaultFailurePolicy Budget.
Abbreviation controller := (TrainController.t WG DefaultFailurePolicy.t).
Implicit Types (c : controller) (s : TrainControllerState).

(** A policy as the controller may hold it. *)
Definition policy_ok (p : t) : Prop := failure_config p = cfg ∧ counters_ok p.

Lemma decided_granted p q : limits_finite cfg → policy_ok p → decided p q →
  policy_ok q ∧ granted p ≤ granted q.
Proof.
  intros Hl Hp. induction 1 as [p|p e q He Hd IH]; [done|]. destruct Hp as [Hc Hn].
  destruct (make_decision_granted e p He) as (d & p' & Hm & Hc' & Hn' & Hg); [by rewrite Hc|done|].
  unfold FailurePolicy.make_decision, DefaultFailurePolicy_policy in *. rewrite Hm in *. simpl in *.
  destruct IH as [Hq Hle]; [split; [congruence|done]|]. split; [done|].
  destruct Hg as [[_ ?]|[_ ?]]; lia.
Qed.

Lemma policy_never_raises x : policy_raised (P := t) x → False.
Proof.
  intros (e & p & He & Hm). unfold FailurePolicy.make_decision, DefaultFailurePolicy_policy in Hm.
  unfold DefaultFailurePolicy.make_decision, _log_decision in Hm. rewrite He in Hm.
  destruct e as [| | | | | |wf|f]; try done. simpl in Hm.
  by destruct (RETRYABLE_CONTROLLER_ERRORS f).
Qed.

(** A failure: a retry granted, or the shutdown. *)
Lemma failed_granted s c res c' : limits_finite cfg → policy_ok (_failure_policy c) →
  failed s c res c' → is_terminal s = false →
  policy_ok (_failure_policy c') ∧
  (granted (_failure_policy c) < granted (_failure_policy c') ∧
     (∃ e, next_state res = _get_retry_state s e) ∨
   granted (_failure_policy c) ≤ granted (_failure_policy c') ∧
     ∃ e, next_state res = ShuttingDownState (ErroredState e)).
Proof.
  intros Hl Hp (d & e & p & p' & He & Hd & Hm & Hd' & ->) Ht.
  destruct (decided_granted _ _ Hl Hp Hd) as [[Hc Hn] Hg].
  destruct (make_decision_granted e p He) as (d1 & p1 & Hm1 & Hc1 & Hn1 & Hdec); [by rewrite Hc|done|].
  unfold FailurePolicy.make_decision, DefaultFailurePolicy_policy in Hm. rewrite Hm1 in Hm.
  injection Hm as -> ->. assert (policy_ok p') as Hpo by (split; [congruence|done]).
  destruct (decided_granted _ _ Hl Hpo Hd') as [Hq Hg']. split; [done|].
  destruct Hdec as [[-> Hdec]|[-> Hdec]]; [left|right]; (split; [lia|]); by eexists.
Qed.

(** How far a state is from the end of a run attempt. *)
Definition rank s : nat :=
  match s with
  | InitializingState | ReschedulingState _ | RestartingState _ | ResizingState _ => 4
  | SchedulingState _ => 3
  | RunningState => 2
  | ShuttingDownState _ => 1
  | ErroredState _ | FinishedState | AbortedState => 0
  end.

Lemma rank_le s : (rank s ≤ 4)%nat.
Proof. destruct s; simpl; lia. Qed.

Lemma rank_terminal s : is_terminal s = false → (1 ≤ rank s)%nat.
Proof. destruct s; simpl; try done; lia. Qed.

(** From time [N] on, polls report an error or the end. *)
Definition polls_end (N : nat) : Prop := ∀ now wg st, (N ≤ now)%nat →
  wg_poll_status env now wg = Ret st → errors st ≠ [] ∨ finished st = true.

Definition always_schedules : Prop := ∀ now,
  make_decision_for_non_running_worker_group env now ≠ Ret NoopDecision.

Definition retries_left (p : t) : nat := Z.to_nat (budget cfg - granted p).

(** A bound on the iterations that remain. *)
Definition base (N : nat) c : nat := (5 * retries_left (_failure_policy c) + 5 * (N - clock c))%nat.
Definition measure (N : nat) c : nat := (base N c + rank (_state c))%nat.

Lemma left_le p q : granted p ≤ granted q → (retries_left q ≤ retries_left p)%nat.
Proof. unfold retries_left. intros Hg. lia. Qed.

Lemma left_lt p q : failure_config q = cfg → granted p < granted q → (retries_left q < retries_left p)%nat.
Proof. unfold retries_left. intros <- Hg. pose proof (granted_budget q). lia. Qed.
Lemma later_base N c c' : limits_finite cfg → policy_ok (_failure_policy c) → later c c' →
  policy_ok (_failure_policy c') ∧ (base N c' ≤ base N c)%nat.
Proof.
  intros Hl Hp [Hd Hc]. destruct (decided_granted _ _ Hl Hp Hd) as [Hq Hg]. split; [done|].
  apply left_le in Hg. unfold base. lia.
Qed.

Lemma failed_measure N s c res c' : limits_finite cfg → policy_ok (_failure_policy c) →
  failed s c res c' → is_terminal s = false → (clock c ≤ clock c')%nat →
  (base N c' + rank (next_state res) ≤ base N c + 1)%nat.
Proof.
  intros Hl Hp Hf Ht Hclk. apply failed_granted in Hf as [Hp' Hg]; [|done..]. unfold base.
  destruct Hg as [[Hg [e ->]]|[Hg [e ->]]].
  - apply left_lt in Hg; [|apply Hp']. pose proof (rank_le (_get_retry_state s e)). lia.
  - apply left_le in Hg. simpl. lia.
Qed.

(** A step without a failure comes closer to the end. *)
Lemma target_measure N c c2 n : limits_finite cfg → policy_ok (_failure_policy c) →
  polls_end N → always_schedules → state_ok (_state c) → later c c2 →
  (waiting (_state c) = true ∨ _state c = RunningState → clock c < clock c2)%nat →
  step_target env c (_state c) n → (base N c2 + rank n < measure N c)%nat.
Proof.
  intros Hl Hp HN Hsch Hok Hlat Hclk Ht.
  destruct (later_base N c c2 Hl Hp Hlat) as [_ Hb]. unfold measure.
  assert (∀ st, _state c = RunningState → polled env c st → errors st = [] → finished st = false →
    (base N c2 + 5 ≤ base N c)%nat) as Hrun.
  { intros st Hs (now & wg & Hnow & Hw) He Hf.
    destruct (le_lt_dec N now) as [Hle|Hlt].
    { destruct (HN now wg st Hle Hw) as [?|?]; congruence. }
    specialize (Hclk (or_intror Hs)). destruct Hlat as [Hd _].
    destruct (decided_granted _ _ Hl Hp Hd) as [_ Hg]. apply left_le in Hg. unfold base. lia. }
  remember (_state c) as s eqn:Es. destruct Ht as [s now Hw Hno|s n rs Hw|n rs|st Hst He Hf|st n rs Hst He Hf
    |st Hst He Hf|d|s|s f Hne].
  - by destruct (Hsch now).
  - destruct s; simpl in *; (done || lia).
  - simpl. lia.
  - specialize (Hrun st eq_refl Hst He Hf). simpl. lia.
  - specialize (Hrun st eq_refl Hst He Hf). simpl. lia.
  - simpl. lia.
  - simpl. lia.
  - destruct Hok as [->|(e & -> & _)]; simpl; lia.
  - simpl. lia.
Qed.

Lemma iteration_measure N c c' : limits_finite cfg → policy_ok (_failure_policy c) →
  polls_end N → always_schedules → state_ok (_state c) → is_terminal (_state c) = false →
  _run_control_loop_iteration env c = (Ret tt, c') →
  policy_ok (_failure_policy c') ∧ (measure N c' < measure N c)%nat.
Proof.
  intros Hl Hp HN Hsch Hok Ht H. apply iteration_ok in H; [|done].
  inversion H as [n c2 r d Hlat Hlat2 Hm Hclk Hset Hr|d Hlat Hst|d e x Hlat He Hst Hx]; subst.
  2: { by destruct (policy_never_raises x). }
  destruct (later_base N c c2 Hl Hp Hlat) as [Hp2 Hb].
  destruct (later_base N c2 c' Hl Hp2 Hlat2) as [Hp' Hb']. split; [done|].
  assert (base N c2 + rank n < measure N c)%nat as Hn.
  { destruct Hm as [Hm|(Hns & res & Hf & ->)]; [by eapply target_measure|].
    apply (failed_measure N) in Hf; [|done|done|done|by destruct Hlat].
    unfold measure. assert (2 ≤ rank (_state c))%nat; [|lia].
    destruct (_state c); simpl; (done || lia). }
  unfold measure at 1. destruct Hset as [->|(Hpr & res & Hf & ->)]; [lia|].
  unfold preserved in Hpr. apply orb_false_iff in Hpr as [Hpr _].
  apply (failed_measure N) in Hf; [|done|done|done|by destruct Hlat2].
  pose proof (rank_terminal n Hpr). lia.
Qed.

(** Iterations raise nothing but the exit of the actor. *)
Lemma iteration_raises c x c' : is_terminal (_state c) = false →
  _run_control_loop_iteration env c = (Exc x, c') → x = AsyncioActorExit.
Proof.
  intros Ht H. apply iteration_ok in H; [|done].
  inversion H as [n c2 r d _ _ _ _ _ Hr|d _ _|]; subst; [|done].
  destruct Hr as [?|(y & [= <-] & Hy)]; [done|]. by destruct (policy_never_raises x).
Qed.

Lemma run_loop_ends N fuel c : limits_finite cfg → policy_ok (_failure_policy c) →
  polls_end N → always_schedules → state_ok (_state c) → (measure N c ≤ fuel)%nat →
  ∃ r c', run_loop env fuel c = (r, c') ∧
    (r = Ret true ∧ is_terminal (_state c') = true ∧ state_ok (_state c') ∨
     r = Exc AsyncioActorExit).
Proof.
  intros Hl Hp HN Hsch. revert c Hp.
  induction fuel as [|fuel IH]; intros c Hp Hok Hm; simpl;
    unfold mbind at 1, M_bind at 1, get at 1; cbv beta iota;
    destruct (is_terminal (_state c)) eqn:Ht; try by (eexists _, c; split; [done|]; left).
  - apply rank_terminal in Ht. unfold measure in Hm. lia.
  - unfold mbind at 1, M_bind at 1.
    destruct (_run_control_loop_iteration env c) as [[[]|x] c1] eqn:E.
    + destruct (iteration_measure N c c1) as [Hp1 Hm1]; [done..|].
      destruct (iteration_follows_diagram env c _ c1 Hok Ht E) as [Hok1 _].
      apply IH; [done|done|lia].
    + apply iteration_raises in E; [|done]. subst x. eexists _, c1. split; [done|by right].
Qed.

(** The start, whose callback may already fail. *)
Lemma start_ok N : limits_finite cfg → ∃ c, _start env (initial (init cfg)) = (Ret tt, c) ∧
  policy_ok (_failure_policy c) ∧ state_ok (_state c) ∧
  (measure N c ≤ 5 * Z.to_nat (budget cfg) + 5 * N + 4)%nat.
Proof.
  intros Hl. set (c0 := initial (init cfg) : controller).
  assert (policy_ok (_failure_policy c0)) as Hp0 by (split_and!; done).
  assert (base N c0 = 5 * Z.to_nat (budget cfg) + 5 * N)%nat as Hb0.
  { assert (granted (init cfg) = 0) as Hg by (unfold granted; simpl; lia).
    unfold base, retries_left. cbn [_failure_policy c0 initial clock]. lia. }
  assert (∀ c, later c0 c → state_ok (_state c) → policy_ok (_failure_policy c) ∧
    state_ok (_state c) ∧ (measure N c ≤ 5 * Z.to_nat (budget cfg) + 5 * N + 4)%nat) as Hfin.
  { intros c Hlat Hok. destruct (later_base N c0 c Hl Hp0 Hlat) as [Hp Hb].
    split; [done|]. split; [done|]. unfold measure. pose proof (rank_le (_state c)). lia. }
  unfold _start. unfold mbind at 1, M_bind at 1.
  destruct (_generate_run_attempt_id c0) as [g c1] eqn:E1. pose proof (keeps_generate _ _ _ E1) as Hq1.
  injection E1 as <- _. unfold mbind at 1, M_bind at 1.
  destruct (_run_controller_hook env "after_controller_start" true c1) as [[[res|]|x] c2] eqn:E2;
    apply hook_post_any in E2 as [Hq2 Hh]; pose proof (quiet_trans _ _ _ Hq1 Hq2) as Hq;
    pose proof (quiet_later _ _ Hq) as Hlat.
  - destruct Hq1 as (Es1 & _). rewrite Es1 in Hh. apply failed_state in Hh.
    change (failure_state InitializingState (next_state res)) in Hh.
    assert (state_ok (next_state res)) as Hok by by apply (failure_state_ok InitializingState).
    assert (is_terminal (next_state res) = false) as Ht by (inversion Hh; done).
    destruct (_set_state env (next_state res) c2) as [r3 c3] eqn:E3.
    apply set_state_post in E3 as (Hlat3 & Hr3 & Hs3).
    destruct Hr3 as [->|(y & -> & Hy)]; [|by destruct (policy_never_raises y)].
    exists c3. split; [done|]. apply Hfin; [eapply later_trans; [exact Hlat|exact Hlat3]|].
    destruct Hs3 as [->|(_ & _ & d1 & d2 & res' & _ & _ & Hf & ->)]; [done|].
    apply failed_state in Hf. by eapply failure_state_ok.
  - exists c2. split; [done|]. apply Hfin; [done|]. by destruct Hq as (-> & _).
  - by destruct (policy_never_raises x).
Qed.

(** C15: A training run ends.  With finite retry limits, a scaling policy that
    schedules a worker group whenever none runs, and polls that from some time
    on report a failure or the end of training, starting and running the
    controller leaves the control loop after a bounded number of iterations:
    five for every retry the limits allow and for every poll before that time,
    and five more.  It does so whatever the callbacks and the worker groups do
    (unless the actor is asked to exit), in a terminal state. *)
Theorem run_terminates N fuel :
  limits_finite cfg → polls_end N → always_schedules →
  (5 * Z.to_nat (budget cfg) + 5 * N + 5 ≤ fuel)%nat →
  ∃ r c, (_ ← _start env; run env fuel) (initial (init cfg)) = (r, c) ∧
    (r = Ret true ∧ is_terminal (_state c) = true ∧ state_ok (_state c) ∨
     r = Exc AsyncioActorExit).
Proof.
  intros Hl HN Hsch Hf. destruct (start_ok N Hl) as (c0 & E0 & Hp & Hok & Hm).
  unfold mbind at 1, M_bind at 1. rewrite E0. unfold run. unfold mbind at 1, M_bind at 1.
  destruct (run_loop_ends N fuel c0 Hl Hp HN Hsch Hok) as (r & c & E & Hr); [lia|]. rewrite E.
  destruct Hr as [(-> & Ht & Hs)| ->]; [|by eexists _, c; split; [|right]].
  unfold mbind at 1, M_bind at 1.
  destruct (_run_controller_hook env "after_controller_finish" false c) as [[o|x] c1] eqn:Eh;
    apply hook_post_any in Eh as [(Es & _) Hh]; [|by destruct (policy_never_raises x)].
  eexists _, c1. split; [done|]. left. by rewrite Es.
Qed.
End termination.

(** ** Aborting *)
Section abort.
Context {WG Selector P : Type} `{!FailurePolicy P} (env : Env WG Selector).
Implicit Types (c : TrainController.t WG P).

Lemma best_effort_present h cbs now : (∀ cb t, cb ∈ cbs → hook cb h t ≠ None) →
  CallbackManager.invoke_best_effort h cbs now = (None, (now + length cbs)%nat).
Proof.
  revert now. induction cbs as [|cb cbs IH]; intros now Hp; simpl; [f_equal; lia|].
  destruct (hook cb h now) eqn:E; [|by destruct (Hp cb now ltac:(by left))].
  rewrite IH by (intros cb' t Hc; apply Hp; by right). f_equal. lia.
Qed.

Lemma best_effort_missing h cbs1 cb cbs2 now : (∀ cb t, cb ∈ cbs1 → hook cb h t ≠ None) →
  (∀ t, hook cb h t = None) →
  CallbackManager.invoke_best_effort h (cbs1 ++ cb :: cbs2) now =
    (Some (ControllerError (PyError AttributeError)), (now + length cbs1)%nat).
Proof.
  revert now. induction cbs1 as [|cb' cbs1 IH]; intros now Hp Hm; simpl.
  - rewrite Hm. f_equal. lia.
  - destruct (hook cb' h now) eqn:E; [|by destruct (Hp cb' now ltac:(by left))].
    rewrite IH; [f_equal; lia| |done]. intros cb0 t Hc. apply Hp. by right.
Qed.

(** Aborting is best effort, but for missing hooks.  On a terminal
    controller it does nothing.  Otherwise, where every callback has the abort
    hook, whatever these raise, the actor exits, the worker group having been
    aborted and the state being the aborted one unless the worker group's own
    abort raised, which leaves the state as it was.  But a callback without a
    callable hook stops the abort with a controller error: the callbacks after
    it are not called, the worker group is not aborted, the actor stays. *)
Theorem abort_outcome c r c' : abort env c = (r, c') →
  (is_terminal (_state c) = true → r = Ret tt ∧ c' = c) ∧
  (is_terminal (_state c) = false →
   (∀ cb t, cb ∈ _controller_callbacks env → hook cb "before_controller_abort" t ≠ None) →
   r = Exc AsyncioActorExit ∧
   let now := (clock c + length (_controller_callbacks env))%nat in
   _state c' =
     match _worker_group c with
     | Some wg => match wg_abort env now wg with Ret _ => AbortedState | Exc _ => _state c end
     | None => AbortedState
     end) ∧
  (∀ cbs1 cb cbs2, is_terminal (_state c) = false →
   _controller_callbacks env = cbs1 ++ cb :: cbs2 →
   (∀ cb t, cb ∈ cbs1 → hook cb "before_controller_abort" t ≠ None) →
   (∀ t, hook cb "before_controller_abort" t = None) →
   r = Exc (ControllerError (PyError AttributeError)) ∧ _state c' = _state c ∧
   _worker_group c' = _worker_group c ∧ clock c' = (clock c + length cbs1)%nat).
Proof.
  unfold abort. unfold mbind at 1, M_bind at 1, get at 1. cbv beta iota.
  destruct (is_terminal (_state c)) eqn:Ht.
  { intros [= <- <-]. by split_and!. }
  unfold mbind at 1, M_bind at 1. unfold invoke_best_effort at 1. intros H. split; [done|]. split.
  - intros _ Hp. rewrite (best_effort_present _ _ _ Hp) in H. cbv beta iota in H.
    set (c1 := {| _state := _; _worker_group := _; _failure_policy := _; _run_attempt_id := _;
                  _return_value := _; clock := _ |}) in H.
    unfold mbind at 1, M_bind at 1, catch at 1 in H.
    unfold mbind at 1, M_bind at 1, get at 1 in H. cbv beta iota in H. simpl (_worker_group c1) in H.
    destruct (_worker_group c) as [wg|].
    + unfold mbind at 1, M_bind at 1, call at 1 in H. cbv beta iota in H. simpl (clock c1) in H.
      destruct (wg_abort env _ wg) as [u|x] eqn:Ew.
      * destruct (_set_state env AbortedState _) as [o c2] eqn:Es.
        apply set_aborted_post in Es as [_ Es]. destruct o as [u'|x]; by injection H as <- <-.
      * by injection H as <- <-.
    + unfold mbind at 1, M_bind at 1, mret at 1, M_ret at 1 in H. cbv beta iota in H.
      destruct (_set_state env AbortedState _) as [o c2] eqn:Es.
      apply set_aborted_post in Es as [_ Es]. destruct o as [u'|x]; by injection H as <- <-.
  - intros cbs1 cb cbs2 _ Hcbs Hp Hm. rewrite Hcbs, (best_effort_missing _ _ _ _ _ Hp Hm) in H.
    by injection H as <- <-.
Qed.
End abort.

(** ** A run with one failing worker, then the end of training *)
Module TrainingRun.
Definition worker (run : bool) (e : option exc) : WorkerGroupPollStatus := {|
  worker_statuses := [(0, {| running := run; error := e; return_value := Some 42 |})];
  worker_rank_to_replica_group_rank := None |}.

(** Polls: running, an error at time 6, the end of training from time 14 on.
    A callback fails once; worker groups fail to shut down from time 50 on. *)
Definition env : Env nat nat := {|
  _controller_callbacks := [{| hook := λ h now, Some (if bool_decide (now = 11%nat)
    then Some WorkerGroupStartupTimeoutError else None) |}];
  on_controller_start_worker_group := λ _ _, Ret (Some 5%nat);
  scaling_label_selector := λ _, None;
  use_tpu := false;
  get_tpu_num_slices_for_workers := λ _ _, Ret 1;
  make_decision_for_non_running_worker_group :=
    λ _, FixedScalingPolicy.make_decision_for_non_running_worker_group 2 [];
  make_decision_for_running_worker_group :=
    λ _ _ _, FixedScalingPolicy.make_decision_for_running_worker_group;
  wg_create := λ now _, Ret now;
  wg_shutdown := λ now _, if (50 <=? now)%nat then Exc (UserError 3) else Ret tt;
  wg_abort := λ _ _, Ret tt;
  wg_poll_status := λ now _, Ret (if (now <? 6)%nat then worker true None
    else if (now <? 14)%nat then worker false (Some (UserError 1)) else worker false None);
  wg_get_latest_poll_status := λ _ _, Ret None;
  wg_num_workers := λ _ _, Ret 2;
  wg_replace_replica_group := λ _ _ _, Ret tt;
  _manages_replica_groups := false;
  aborted_while_sleeping := λ _, false
|}.

Definition cfg : FailureConfig := {| max_failures := 2; controller_failure_limit := 1 |}.

Definition start : TrainController.t nat DefaultFailurePolicy.t :=
  initial (DefaultFailurePolicy.init cfg).

Definition at_state (s : TrainControllerState) : TrainController.t nat DefaultFailurePolicy.t := {|
  _state := s; _worker_group := Some 1%nat; _failure_policy := DefaultFailurePolicy.init cfg;
  _run_attempt_id := 1; _return_value := None; clock := 60 |}.

Lemma polls : polls_end env 6.
Proof.
  intros now wg st Hn [= <-]. destruct (now <? 6)%nat eqn:E; [apply Nat.ltb_lt in E; lia|].
  destruct (now <? 14)%nat; [left|right]; done.
Qed.
End TrainingRun.

Lemma iteration_follows_diagram_witness :
  let c := TrainingRun.start in
  state_ok (_state c) ∧ is_terminal (_state c) = false ∧
  ∃ r c', _run_control_loop_iteration TrainingRun.env c = (r, c') ∧ state_ok (_state c') ∧
    (allowed (_state_type (_state c)) (_state_type (_state c')) = true ∨
     r = Exc AsyncioActorExit ∧ _state c' = _state c).
Proof.
  intros c. assert (state_ok (_state c)) as Hs by exact I.
  assert (is_terminal (_state c) = false) as Ht by reflexivity.
  split; [exact Hs|]. split; [exact Ht|].
  destruct (_run_control_loop_iteration TrainingRun.env c) as [r c'] eqn:E.
  exists r, c'. split; [reflexivity|].
  destruct (iteration_follows_diagram TrainingRun.env c r c' Hs Ht E) as (H1 & H2 & _).
  exact (conj H1 H2).
Defined.

Lemma shutdown_keeps_outcome_witness :
  let e := WorkerGroupError [(0, UserError 1)] in
  let c := TrainingRun.at_state (ShuttingDownState (ErroredState e)) in
  ∃ r c', _run_control_loop_iteration TrainingRun.env c = (r, c') ∧ _state c' = ErroredState e.
Proof.
  intros e c. destruct (_run_control_loop_iteration TrainingRun.env c) as [r c'] eqn:E.
  exists r, c'. split; [reflexivity|].
  assert (state_ok (_state c)) as Hs by (right; exists e; split; reflexivity).
  exact (proj1 (proj2 (shutdown_keeps_outcome TrainingRun.env c (ErroredState e) r c' eq_refl Hs E))
    e eq_refl).
Defined.

Lemma run_terminates_witness :
  ∃ r c, (_ ← _start TrainingRun.env; run TrainingRun.env 50) TrainingRun.start = (r, c) ∧
    (r = Ret true ∧ is_terminal (_state c) = true ∧ state_ok (_state c) ∨ r = Exc AsyncioActorExit).
Proof.
  apply (run_terminates TrainingRun.env TrainingRun.cfg 6 50).
  - split; discriminate.
  - exact TrainingRun.polls.
  - intros now. discriminate.
  - vm_compute. lia.
Defined.

Example run_finishes :
  (let '(r, c) := (_ ← _start TrainingRun.env; run TrainingRun.env 50) TrainingRun.start in
   (r, _state c, TrainController._return_value c)) = (Ret true, FinishedState, Some 42).
Proof. vm_compute. reflexivity. Qed.

Lemma abort_outcome_witness :
  let c := TrainingRun.at_state RunningState in
  ∃ r c', abort TrainingRun.env c = (r, c') ∧ r = Exc AsyncioActorExit ∧ _state c' = AbortedState.
Proof.
  intros c. destruct (abort TrainingRun.env c) as [r c'] eqn:E. exists r, c'. split; [reflexivity|].
  assert (∀ cb t, cb ∈ _controller_callbacks TrainingRun.env →
    hook cb "before_controller_abort" t ≠ None) as Hp.
  { intros cb t Hcb%list_elem_of_singleton. subst cb. discriminate. }
  exact (proj1 (proj2 (abort_outcome TrainingRun.env c r c' E)) eq_refl Hp).
Defined.
