(* ===== verification/TrainResult.v ===== *)
(** * The result of a training run

    [_build_result] and [get_result] of the controller, over its checkpoint
    manager. *)
From S2P Require Import Prelude PyDict PyFloat Checkpoints CheckpointOrder CheckpointFacts CheckpointUpdate CheckpointLoad CheckpointProps FailurePolicy Controller.
Import CheckpointManager.

(** [metrics_dataframe] is built from the metrics of the best checkpoints. *)
Record Result : Type := {
  metrics_of_latest : option metrics;
  latest : option Checkpoint;
  run_error : option exc;
  run_path : string;
  best_checkpoints : list (Checkpoint * metrics);
  metrics_dataframe : option (list metrics);
  run_return_value : option Z
}.

Section result.
Context {WG P Spec : Type}.
Implicit Types (c : TrainController.t WG P) (cm : CheckpointManager.t Spec).

Definition _build_result c cm : result Result :=
  latest_result ← match _latest_checkpoint_result cm with
    | Some r => tr ← deref cm r; Ok (Some tr) | None => Ok None end;
  best ← result_map (λ r, tr ← deref cm r; Ok (checkpoint tr, result_metrics tr))
    (best_checkpoint_results cm);
  Ok {| metrics_of_latest := result_metrics <$> latest_result;
        latest := checkpoint <$> latest_result;
        run_error := TrainController.get_training_failed_error c;
        run_path := _experiment_fs_path cm;
        best_checkpoints := best;
        metrics_dataframe := match best with [] => None | _ => Some (map snd best) end;
        run_return_value := TrainController._return_value c |}.

Definition get_result c cm : result Result :=
  if is_terminal (TrainController._state c) then _build_result c cm else Raise ValueError.

Lemma best_results_sub cm r : r ∈ best_checkpoint_results cm → r ∈ _checkpoint_results cm.
Proof.
  unfold best_checkpoint_results. destruct (num_to_keep _); [|done].
  intros Hr. by eapply subseteq_drop.
Qed.

(** The checkpoint and the metrics of a result. *)
Definition pair_of cm r : Checkpoint * metrics :=
  match heap cm !! r with
  | Some tr => (checkpoint tr, result_metrics tr)
  | None => ({| uuid := 0; path := "" |}, [])
  end.

Lemma deref_pair cm r : wf cm → r ∈ _checkpoint_results cm →
  (tr ← deref cm r; Ok (checkpoint tr, result_metrics tr)) = Ok (pair_of cm r).
Proof.
  intros Hw Hr. destruct (live_spec cm Hw r Hr) as (tr & Ht & _).
  unfold deref, pair_of. by rewrite Ht.
Qed.

(** A terminal controller over a well-formed checkpoint manager has a
    result, and a controller that still runs has none.  The result carries an
    error exactly when the controller is in the errored state, and that error;
    its checkpoint is the latest reported one, also when it scored badly; its
    best checkpoints are the [num_to_keep] with the highest scores, in
    ascending order, each with its metrics. *)
Theorem get_result_spec c cm : wf cm →
  (is_terminal (TrainController._state c) = false → get_result c cm = Raise ValueError) ∧
  (is_terminal (TrainController._state c) = true → ∃ res, get_result c cm = Ok res ∧
     (∀ e, run_error res = Some e ↔ TrainController._state c = ErroredState e) ∧
     (∀ r, _latest_checkpoint_result cm = Some r →
        (latest res, metrics_of_latest res) = (Some (pair_of cm r).1, Some (pair_of cm r).2)) ∧
     (_latest_checkpoint_result cm = None → latest res = None) ∧
     ∃ worse best, _checkpoint_results cm = worse ++ best ∧
       best_checkpoints res = map (pair_of cm) best ∧
       sorted_results cm best ∧
       (∀ b w, b ∈ best → w ∈ worse → before_ok (report_index cm) (kscore cm) w b) ∧
       length best = match num_to_keep (_checkpoint_config cm) with
         | Some k => (length (_checkpoint_results cm) `min` Z.to_nat k)%nat
         | None => length (_checkpoint_results cm)
         end).
Proof.
  intros Hw. unfold get_result. split; [by intros ->|]. intros ->. unfold _build_result.
  assert (∃ l, match _latest_checkpoint_result cm with
    | Some r => tr ← deref cm r; Ok (Some tr) | None => Ok None end = Ok l ∧
    match _latest_checkpoint_result cm with
    | Some r => (λ tr, (checkpoint tr, result_metrics tr)) <$> l = Some (pair_of cm r)
    | None => l = None end) as (l & -> & Hl).
  { destruct (_latest_checkpoint_result cm) as [r|] eqn:E; [|by eexists].
    destruct (live_spec cm Hw r (wf_latest cm Hw r E)) as (tr & Ht & _).
    exists (Some tr). unfold deref, pair_of. by rewrite Ht. }
  cbn [mbind result_bind].
  rewrite (result_map_ok_map _ (pair_of cm))
    by (intros r Hr; apply deref_pair; [done|by apply best_results_sub]).
  cbn [mbind result_bind]. eexists. split; [done|]. simpl. split_and!.
  - intros e. unfold TrainController.get_training_failed_error.
    destruct (TrainController._state c); split; congruence.
  - intros r E. rewrite E in Hl. destruct l as [tr|]; [|done]. injection Hl as Hl. by rewrite <-Hl.
  - intros E. rewrite E in Hl. by subst l.
  - set (n := match num_to_keep (_checkpoint_config cm) with
      | Some k => (length (_checkpoint_results cm) - Z.to_nat k)%nat | None => O end).
    assert (best_checkpoint_results cm = drop n (_checkpoint_results cm)) as Hb
      by (unfold best_checkpoint_results, n; by destruct (num_to_keep _)).
    exists (take n (_checkpoint_results cm)), (drop n (_checkpoint_results cm)).
    pose proof (wf_sorted cm Hw) as Hs. unfold sorted_results in *.
    rewrite <-(take_drop n (_checkpoint_results cm)) in Hs. apply StronglySorted_app in Hs as (Hlt & _ & Hs).
    split_and!; [by rewrite take_drop|by rewrite Hb|done| |].
    + intros b w Hbest Hworse. by apply Hlt.
    + rewrite length_drop. unfold n. destruct (num_to_keep _); lia.
Qed.
End result.

Lemma get_result_spec_witness :
  wf Run.state ∧
  let c : TrainController.t nat DefaultFailurePolicy.t := {|
    TrainController._state := FinishedState; TrainController._worker_group := None;
    TrainController._failure_policy := DefaultFailurePolicy.init
      {| max_failures := 0; controller_failure_limit := -1 |};
    TrainController._run_attempt_id := 1; TrainController._return_value := Some 42;
    TrainController.clock := 9 |} in
  ∃ res, get_result c Run.state = Ok res ∧
    ∀ e, run_error res = Some e ↔ TrainController._state c = ErroredState e.
Proof.
  split; [exact Run.state_wf|]. intros c.
  destruct (proj2 (get_result_spec c Run.state Run.state_wf) eq_refl) as (res & H & He & _).
  exists res. exact (conj H He).
Defined.
