(* ===== verification/TemporalSplit.v ===== *)
(** * [scripts/create_temporal_splits.py]: temporal train/val/test splits

    Rows are of any type with a date and a fraud flag; reading parquet batches,
    converting columns back and the directories are outside the model. *)
From S2P Require Import Prelude PyDict PyStr PyFloat.

(** The operations of pyarrow the script calls. *)
Class Arrow : Type := {
  (** [pc.cast(a, pa.string())], [pc.utf8_lpad(s, w, "0")], and
      [pc.binary_join_element_wise(a, b, c, "-")] *)
  cast_string : Z → string;
  utf8_lpad : nat → string → string;
  binary_join : string → string → string → string;
  (** [pc.value_counts(dates)], as pairs *)
  value_counts : list string → list (string * Z)
}.

Definition occurrences (d : string) (l : list string) : Z :=
  Z.of_nat (length (filter (.= d) l)).

(** Their documented behaviour. *)
Class ArrowLaws `{Arrow} : Prop := {
  cast_law z : cast_string z = pretty z;
  lpad_law w s : utf8_lpad w s = zeros (w - String.length s) +:+ s;
  join_law a b c : binary_join a b c = a +:+ "-" +:+ b +:+ "-" +:+ c;
  counts_NoDup l : NoDup (value_counts l).*1;
  counts_elem l d n : (d, n) ∈ value_counts l ↔ d ∈ l ∧ n = occurrences d l
}.

Inductive split_name : Type := train | val | test.
Definition SPLITS : list split_name := [train; val; test].

#[export] Instance split_name_eq_dec : EqDecision split_name.
Proof. solve_decision. Defined.

Section script.
Context `{Arrow} {R : Type} (Year Month Day : R → Z) (is_fraud : R → bool).

(** A row of [date_array]. *)
Definition date_of (r : R) : string :=
  binary_join (cast_string (Year r)) (utf8_lpad 2 (cast_string (Month r)))
    (utf8_lpad 2 (cast_string (Day r))).

Definition date_array (table : list R) : list string := map date_of table.

(** ** Cutoffs *)

(** [counts[value] += int(count); total += int(count)] *)
Definition count_value (st : dict string Z * Z) (vc : string * Z) : dict string Z * Z :=
  (dset st.1 vc.1 (default 0 (dget st.1 vc.1) + vc.2), st.2 + vc.2).

Definition count_batch (st : dict string Z * Z) (batch : list R) : dict string Z * Z :=
  foldl count_value st (value_counts (date_array batch)).

Definition compute_daily_counts (batches : list (list R)) : dict string Z * Z :=
  foldl count_batch ([], 0) batches.

Definition date_le (p q : string * Z) : Prop := (p.1 ≤ q.1)%string.

#[global] Instance date_le_dec : RelDecision date_le.
Proof. intros p q. unfold date_le. apply _. Defined.

(** [cumulative >= total * ratio] *)
Definition reached (total : Z) (ratio : float) (cumulative : Z) : bool :=
  f_le_int (f_mul (f_of_int total) ratio) cumulative.

Fixpoint cutoff_loop (total : Z) (train_ratio test_ratio : float) (cumulative : Z)
    (train_cut : option string) (items : list (string * Z)) : option string * option string :=
  match items with
  | [] => (train_cut, None)
  | (date, count) :: items =>
      let cumulative := cumulative + count in
      let train_cut := match train_cut with
        | None => if reached total train_ratio cumulative then Some date else None
        | Some _ => train_cut end in
      if reached total test_ratio cumulative then (train_cut, Some date)
      else cutoff_loop total train_ratio test_ratio cumulative train_cut items
  end.

Definition cutoffs_from_counts (counts : dict string Z) (total : Z)
    (train_ratio test_ratio : float) : result (string * string) :=
  match cutoff_loop total train_ratio test_ratio 0 None (merge_sort date_le counts) with
  | (Some train_cut, Some test_cut) => Ok (train_cut, test_cut)
  | _ => Raise RuntimeError
  end.

(** ** Writing *)

(** [a < b] on strings *)
Definition s_lt (a b : string) : bool := bool_decide ((a ≤ b)%string ∧ a ≠ b).

Definition mask (train_cut test_cut : string) (s : split_name) (d : string) : bool :=
  match s with
  | train => s_lt d train_cut
  | val => bool_decide (train_cut ≤ d)%string && s_lt d test_cut
  | test => bool_decide (test_cut ≤ d)%string
  end.

(** What has been written for a split, if its file was opened, and its
    statistics. *)
Record split_out : Type := { writer : option (list R); rows : Z; fraud : Z }.

Definition write_table (w : option (list R)) (table : list R) : option (list R) :=
  match table with
  | [] => w
  | _ => Some (default [] w ++ table)
  end.

Definition write_split (train_cut test_cut : string) (batch : list R) (s : split_name)
    (o : split_out) : split_out :=
  let m r := mask train_cut test_cut s (date_of r) in
  let split_table := filter (λ r, m r = true) batch in
  {| writer := write_table (writer o) split_table;
     rows := rows o + Z.of_nat (length split_table);
     fraud := fraud o + Z.of_nat (length (filter (λ r, m r && is_fraud r = true) batch)) |}.

Definition outputs : Type := split_name → split_out.

Definition write_splits (train_cut test_cut : string) (batches : list (list R)) : outputs :=
  foldl (λ st batch s, write_split train_cut test_cut batch s (st s))
    (λ _, {| writer := None; rows := 0; fraud := 0 |}) batches.

(** ** The script *)

(** [0 < train_ratio < test_ratio < 1] *)
Definition ratios_ok (train_ratio test_ratio : float) : bool :=
  f_gt_int train_ratio 0 && f_ltb train_ratio test_ratio && f_ltb test_ratio (f_of_int 1).

Definition validate_args (raw_exists : bool) (train_ratio test_ratio : float) : result unit :=
  if negb raw_exists then Raise FileNotFoundError
  else if negb (ratios_ok train_ratio test_ratio) then Raise ValueError
  else Ok tt.

Definition prepare_output_dir (split_dirs_ready overwrite : bool) : result unit :=
  if split_dirs_ready && negb overwrite then Raise FileExistsError else Ok tt.

Definition main (raw_exists : bool) (train_ratio test_ratio : float)
    (split_dirs_ready overwrite : bool) (batches : list (list R)) :
    result (string * string * outputs) :=
  _ ← validate_args raw_exists train_ratio test_ratio;
  let '(daily_counts, total) := compute_daily_counts batches in
  cuts ← cutoffs_from_counts daily_counts total train_ratio test_ratio;
  _ ← prepare_output_dir split_dirs_ready overwrite;
  Ok (cuts.1, cuts.2, write_splits cuts.1 cuts.2 batches).
End script.

(** ** The operations on strings and lists *)
#[global] Instance string_arrow : Arrow := {|
  cast_string z := pretty z;
  utf8_lpad w s := zeros (w - String.length s) +:+ s;
  binary_join a b c := a +:+ "-" +:+ b +:+ "-" +:+ c;
  value_counts l := map (λ d, (d, occurrences d l)) (remove_dups l)
|}.

#[global] Instance string_arrow_laws : ArrowLaws.
Proof.
  split; simpl; [done|done|done| |].
  - intros l. rewrite <-list_fmap_compose. simpl. rewrite list_fmap_id. apply NoDup_remove_dups.
  - intros l d n. rewrite list_elem_of_fmap. split.
    + intros (d' & Heq & Hd). rewrite elem_of_remove_dups in Hd. by simplify_eq.
    + intros [Hd ->]. exists d. split; [done|]. by apply elem_of_remove_dups.
Qed.
