(* ===== verification/TemporalSplitFacts.v ===== *)
(** * The temporal splits: daily counts and cutoffs

    The order on dates, the counts of the first pass, and the cutoffs as the
    first dates up to which the rows reach a share of all rows. *)
From S2P Require Import Prelude PyDict PyFloat TemporalSplit.

(** ** Dates in string order *)
Lemma s_lt_spec a b : s_lt a b = true ↔ (a ≤ b)%string ∧ a ≠ b.
Proof. unfold s_lt. apply bool_decide_eq_true. Qed.

Lemma s_lt_not_le a b : s_lt a b = true ↔ ¬ (b ≤ a)%string.
Proof.
  rewrite s_lt_spec. split.
  - intros [Hab Hne] Hba. apply Hne. by apply (anti_symm String.le).
  - intros Hba. destruct (total String.le a b); [|done]. split; [done|]. by intros ->.
Qed.

Lemma s_lt_le a b : s_lt a b = true → (a ≤ b)%string.
Proof. rewrite s_lt_spec. by intros []. Qed.

Lemma s_lt_le_trans a b c : s_lt a b = true → (b ≤ c)%string → s_lt a c = true.
Proof. rewrite !s_lt_not_le. intros Hab Hbc Hca. apply Hab. by transitivity c. Qed.

Lemma s_le_lt_trans a b c : (a ≤ b)%string → s_lt b c = true → s_lt a c = true.
Proof. rewrite !s_lt_not_le. intros Hab Hbc Hca. apply Hbc. by transitivity a. Qed.

Lemma s_lt_false a b : s_lt a b = false ↔ (b ≤ a)%string.
Proof.
  rewrite <-not_true_iff_false, s_lt_not_le. split; [apply dec_stable|]. by intros ? [].
Qed.

Lemma s_lt_irrefl a : s_lt a a = false.
Proof. apply not_true_is_false. rewrite s_lt_spec. by intros [_ []]. Qed.

#[export] Instance date_le_trans : Transitive date_le.
Proof. intros p q r. unfold date_le. apply transitivity. Qed.

#[export] Instance date_le_total : Total date_le.
Proof. intros p q. apply (total String.le). Qed.

(** ** The rows counted per date *)
Section counts.
Context `{ArrowLaws}.

Lemma occurrences_cons x l d :
  occurrences d (x :: l) = (if decide (x = d) then 1 else 0) + occurrences d l.
Proof.
  unfold occurrences. rewrite filter_cons. repeat case_decide; naive_solver lia.
Qed.

Lemma occurrences_app l k d : occurrences d (l ++ k) = occurrences d l + occurrences d k.
Proof. unfold occurrences. rewrite filter_app, length_app. lia. Qed.

Lemma occurrences_absent l d : d ∉ l → occurrences d l = 0.
Proof.
  induction l as [|x l IH]; [done|]. rewrite not_elem_of_cons, occurrences_cons.
  intros [Hx Hl]. rewrite decide_False, IH by done. done.
Qed.

Lemma sum_indicator (ks : list string) x : NoDup ks →
  sumZ (map (λ d, if decide (x = d) then 1 else 0) ks) = if decide (x ∈ ks) then 1 else 0.
Proof.
  induction 1 as [|k ks Hk Hks IH]; [done|]. cbn [map]. rewrite sumZ_cons, IH.
  destruct (decide (x = k)) as [->|Hne].
  - rewrite decide_False by done. rewrite decide_True; [done|left].
  - destruct (decide (x ∈ ks)) as [Hx|Hx].
    + rewrite decide_True; [done|by right].
    + rewrite decide_False; [done|]. rewrite elem_of_cons. naive_solver.
Qed.

(** Occurrences over distinct dates that cover the list add up to its
    length. *)
Lemma sum_occurrences (ks l : list string) : NoDup ks → (∀ d, d ∈ l → d ∈ ks) →
  sumZ (map (λ d, occurrences d l) ks) = Z.of_nat (length l).
Proof.
  intros Hks. induction l as [|x l IH]; intros Hl.
  - induction ks as [|k ks IH]; [done|]. cbn [map]. rewrite sumZ_cons.
    apply NoDup_cons in Hks as [_ Hks]. rewrite IH; [done|done|]. by intros d ?%elem_of_nil.
  - assert (sumZ (map (λ d, occurrences d (x :: l)) ks) =
      sumZ (map (λ d, if decide (x = d) then 1 else 0) ks) +
      sumZ (map (λ d, occurrences d l) ks)) as ->.
    { clear. induction ks as [|k ks IH]; [done|]. cbn [map].
      rewrite !sumZ_cons, IH, occurrences_cons. lia. }
    rewrite sum_indicator, IH by (try done; intros; apply Hl; by right).
    rewrite decide_True by (apply Hl; left). rewrite length_cons. lia.
Qed.

Lemma value_counts_map l :
  value_counts l = map (λ d, (d, occurrences d l)) (value_counts l).*1.
Proof.
  assert (∀ p, p ∈ value_counts l → p.2 = occurrences p.1 l) as Hv.
  { intros [d n] [_ Hd]%counts_elem. done. }
  induction (value_counts l) as [|[d n] v IH]; [done|].
  rewrite fmap_cons. cbn [map fst]. f_equal.
  - f_equal. apply (Hv (d, n)). left.
  - apply IH. intros p Hp. apply Hv. by right.
Qed.

Lemma value_counts_keys l d : d ∈ (value_counts l).*1 ↔ d ∈ l.
Proof.
  rewrite list_elem_of_fmap. split.
  - by intros ([d' n] & -> & [Hd _]%counts_elem).
  - intros Hd. exists (d, occurrences d l). split; [done|]. by apply counts_elem.
Qed.

Lemma value_counts_sum l : sumZ (value_counts l).*2 = Z.of_nat (length l).
Proof.
  rewrite value_counts_map. rewrite <-list_fmap_compose.
  apply sum_occurrences; [apply counts_NoDup|]. intros d. by rewrite value_counts_keys.
Qed.

(** What the first pass holds after the dates [l]. *)
Record counted (l : list string) (st : dict string Z * Z) : Prop := {
  counted_wf : dwf st.1;
  counted_total : st.2 = Z.of_nat (length l);
  counted_get d : dget st.1 d = if decide (d ∈ l) then Some (occurrences d l) else None
}.

Lemma count_values_get v st d : NoDup v.*1 →
  dget (foldl count_value st v).1 d =
    match dget v d with
    | Some n => Some (default 0 (dget st.1 d) + n)
    | None => dget st.1 d end.
Proof.
  revert st. induction v as [|[k n] v IH]; intros st; [done|].
  rewrite fmap_cons, NoDup_cons. cbn [foldl fst]. intros [Hk Hv].
  rewrite IH by done. unfold count_value at 1 2. cbn [fst snd]. rewrite !dget_dset.
  simpl. destruct (decide (d = k)) as [->|]; [|done].
  apply dget_None in Hk. by rewrite Hk.
Qed.

Lemma count_values_total v st : (foldl count_value st v).2 = st.2 + sumZ v.*2.
Proof.
  revert st. induction v as [|[k n] v IH]; intros st; cbn [foldl]; [simpl; lia|].
  rewrite IH, fmap_cons, sumZ_cons. unfold count_value. simpl. lia.
Qed.

Lemma count_values_wf v st : dwf st.1 → dwf (foldl count_value st v).1.
Proof.
  revert st. induction v as [|[k n] v IH]; intros st Hst; [done|].
  cbn [foldl]. apply IH. by apply dset_wf.
Qed.

Lemma counted_step l k st : counted l st → counted (l ++ k) (foldl count_value st (value_counts k)).
Proof.
  intros [Hwf Htot Hget]. split.
  - by apply count_values_wf.
  - rewrite count_values_total, Htot, value_counts_sum, length_app. lia.
  - intros d. rewrite count_values_get by apply counts_NoDup. rewrite Hget.
    destruct (decide (d ∈ k)) as [Hd|Hd].
    + assert (dget (value_counts k) d = Some (occurrences d k)) as ->.
      { apply dget_wf_elem; [apply counts_NoDup|]. by apply counts_elem. }
      rewrite (decide_True (P:=d ∈ l ++ k)) by (apply elem_of_app; by right).
      rewrite occurrences_app. case_decide as Hl; [done|].
      by rewrite (occurrences_absent l).
    + assert (dget (value_counts k) d = None) as ->.
      { apply dget_None. by rewrite value_counts_keys. }
      rewrite occurrences_app, (occurrences_absent k), Z.add_0_r by done.
      destruct (decide (d ∈ l)) as [Hl|Hl].
      * rewrite decide_True; [done|]. apply elem_of_app. by left.
      * rewrite decide_False; [done|]. rewrite elem_of_app. naive_solver.
Qed.
End counts.

(** ** The cutoffs *)
Section cutoffs.
Context `{ArrowLaws} {R : Type} (Year Month Day : R → Z).
Abbreviation date := (date_of Year Month Day).

(** Rows up to and including a date. *)
Definition upto (d : string) (rows : list R) : Z :=
  Z.of_nat (length (filter (λ r, (date r ≤ d)%string) rows)).

(** [cut] is the first date of the rows up to which they reach [ratio] of the
    total. *)
Definition first_reaching (ratio : float) (rows : list R) (cut : string) : Prop :=
  let total := Z.of_nat (length rows) in
  cut ∈ date_array Year Month Day rows ∧ reached total ratio (upto cut rows) = true ∧
  ∀ d, d ∈ date_array Year Month Day rows → s_lt d cut = true →
    reached total ratio (upto d rows) = false.

Lemma first_reaching_unique ratio rows a b :
  first_reaching ratio rows a → first_reaching ratio rows b → a = b.
Proof.
  intros (Ha & Hra & Hma) (Hb & Hrb & Hmb).
  destruct (s_lt a b) eqn:Hab; [by rewrite Hmb in Hra|].
  destruct (s_lt b a) eqn:Hba; [by rewrite Hma in Hrb|].
  apply s_lt_false in Hab, Hba. by apply (anti_symm String.le).
Qed.

Lemma count_batches_counted batches l st : counted l st →
  counted (l ++ date_array Year Month Day (concat batches))
    (foldl (count_batch Year Month Day) st batches).
Proof.
  revert st l. induction batches as [|b batches IH]; intros st l Hst.
  - by rewrite app_nil_r.
  - cbn [foldl concat]. unfold date_array. rewrite map_app, app_assoc.
    apply IH. by apply counted_step.
Qed.

Lemma compute_daily_counted batches :
  counted (date_array Year Month Day (concat batches))
    (compute_daily_counts Year Month Day batches).
Proof. apply (count_batches_counted batches []). by split; [constructor|..]. Qed.

(** The running totals of the loop. *)
Definition running_by (up : string → Z) (c : Z) (items : list (string * Z)) : Prop :=
  ∀ pre d n post, items = pre ++ (d, n) :: post → up d = c + sumZ (pre ++ [(d, n)]).*2.

Lemma running_by_cons up c d n items : running_by up c ((d, n) :: items) →
  up d = c + n ∧ running_by up (c + n) items.
Proof.
  intros Hr. split.
  - rewrite (Hr [] d n items); simpl; [lia|done].
  - intros pre e m post ->. rewrite (Hr ((d, n) :: pre) e m post) by done.
    rewrite <-app_comm_cons, fmap_cons, sumZ_cons. simpl. lia.
Qed.

Abbreviation first_date P l := (snd <$> list_find P l).

Lemma list_find_cons {A} (P : A → Prop) `{∀ x, Decision (P x)} x l :
  list_find P (x :: l) =
    if decide (P x) then Some (0%nat, x) else prod_map S id <$> list_find P l.
Proof. done. Qed.

Definition reaches (up : string → Z) (total : Z) (ratio : float) (d : string) : Prop :=
  reached total ratio (up d) = true.

#[local] Instance reaches_dec up total ratio d : Decision (reaches up total ratio d).
Proof. unfold reaches. apply _. Defined.

(** The loop finds, among the dates, the first that reaches the test ratio, and
    among those up to it the first that reaches the train ratio. *)
Lemma cutoff_loop_find up total tr te c tc items : running_by up c items →
  cutoff_loop total tr te c tc items =
    (match tc with
     | Some a => Some a
     | None => first_date (reaches up total tr)
         (match list_find (reaches up total te) items.*1 with
          | Some (i, _) => take (S i) items.*1 | None => items.*1 end) end,
     first_date (reaches up total te) items.*1).
Proof.
  revert c tc. induction items as [|[d n] items IH]; intros c tc Hr.
  { by destruct tc. }
  apply running_by_cons in Hr as [Hd Hr]. cbn [cutoff_loop]. rewrite <-Hd in *.
  rewrite fmap_cons, list_find_cons. cbn [fst].
  destruct (decide (reaches up total te d)) as [Hte|Hte]; unfold reaches in Hte.
  - rewrite Hte. cbn [fmap option_fmap option_map]. destruct tc; [done|].
    rewrite firstn_cons, list_find_cons. simpl take.
    destruct (decide (reaches up total tr d)) as [Htr|Htr]; unfold reaches in Htr.
    + by rewrite Htr.
    + by apply not_true_is_false in Htr as ->.
  - apply not_true_is_false in Hte. rewrite Hte, (IH (up d)) by done.
    destruct (list_find (reaches up total te) items.*1) as [[i b]|];
      cbn [fmap option_fmap option_map prod_map fst snd id];
      (destruct tc; [done|]); rewrite ?firstn_cons, list_find_cons;
      (destruct (decide (reaches up total tr d)) as [Htr|Htr]; unfold reaches in Htr;
       [by rewrite Htr|apply not_true_is_false in Htr as ->]);
      by destruct (list_find (reaches up total tr) _) as [[]|].
Qed.

(** *** The sorted counts *)
Record sorted_counts (l : list string) (items : list (string * Z)) : Prop := {
  sorted_items : StronglySorted date_le items;
  sorted_NoDup : NoDup items.*1;
  sorted_elem d n : (d, n) ∈ items ↔ d ∈ l ∧ n = occurrences d l
}.

Lemma sort_counted l st : counted l st → sorted_counts l (merge_sort date_le st.1).
Proof.
  intros [Hwf _ Hget]. split.
  - apply (StronglySorted_merge_sort date_le).
  - unfold dwf in Hwf. by rewrite (merge_sort_Permutation date_le).
  - intros d n. rewrite (merge_sort_Permutation date_le), <-dget_wf_elem, Hget by done.
    case_decide; naive_solver.
Qed.

Lemma sorted_keys l items d : sorted_counts l items → d ∈ items.*1 ↔ d ∈ l.
Proof.
  intros [_ _ Hel]. rewrite list_elem_of_fmap. split.
  - by intros ([e n] & -> & [He _]%Hel).
  - intros Hd. exists (d, occurrences d l). split; [done|]. by apply Hel.
Qed.

Lemma occurrences_filter_le l d e : (e ≤ d)%string →
  occurrences e (filter (λ x, (x ≤ d)%string) l) = occurrences e l.
Proof.
  intros He. induction l as [|x l IH]; [done|].
  rewrite filter_cons. case_decide as Hx; rewrite ?occurrences_cons, IH; [done|].
  rewrite decide_False; [done|]. by intros ->.
Qed.

Lemma sorted_before l pre p post q : sorted_counts l (pre ++ p :: post) → q ∈ pre → date_le q p.
Proof.
  intros [Hs _ _] Hq. eapply StronglySorted_app_1_elem_of; [done..|left].
Qed.

Lemma sorted_after l pre p post q : sorted_counts l (pre ++ p :: post) → q ∈ post →
  s_lt p.1 q.1 = true.
Proof.
  intros [Hs Hnd _] Hq. apply StronglySorted_app_1_r in Hs.
  apply StronglySorted_cons in Hs as [Hp _]. rewrite Forall_forall in Hp.
  apply s_lt_spec. split; [by apply Hp|]. intros Heq.
  rewrite fmap_app, fmap_cons in Hnd. apply NoDup_app in Hnd as (_ & _ & [Hn _]%NoDup_cons).
  apply Hn. rewrite Heq. apply list_elem_of_fmap. by exists q.
Qed.

Lemma upto_dates d rows :
  upto d rows = Z.of_nat (length (filter (λ x, (x ≤ d)%string) (date_array Year Month Day rows))).
Proof.
  unfold upto, date_array. f_equal. induction rows as [|r rows IH]; [done|].
  cbn [map]. rewrite !filter_cons. case_decide; simpl; by rewrite IH.
Qed.

Lemma sorted_running rows items : sorted_counts (date_array Year Month Day rows) items →
  running_by (λ d, upto d rows) 0 items.
Proof.
  intros Hs pre d n post ->. rewrite upto_dates. set (l := date_array _ _ _ _) in *.
  rewrite <-(sum_occurrences (pre ++ [(d, n)]).*1).
  - rewrite Z.add_0_l. f_equal. rewrite <-list_fmap_compose.
    apply list_fmap_ext. intros i [e m] He. simpl.
    apply list_elem_of_lookup_2 in He. rewrite occurrences_filter_le.
    + assert ((e, m) ∈ pre ++ (d, n) :: post) as [_ ->]%(sorted_elem _ _ Hs); [|done].
      apply elem_of_app in He. rewrite elem_of_app, elem_of_cons.
      rewrite list_elem_of_singleton in He. naive_solver.
    + apply elem_of_app in He as [He|He%list_elem_of_singleton]; [|by simplify_eq].
      apply (sorted_before _ _ _ _ _ Hs He).
  - pose proof (sorted_NoDup _ _ Hs) as Hnd. revert Hnd.
    change (pre ++ (d, n) :: post) with (pre ++ [(d, n)] ++ post).
    rewrite app_assoc, fmap_app. by intros [? _]%NoDup_app.
  - intros e. rewrite list_elem_of_filter. intros [Hle He]. apply (sorted_keys _ _ _ Hs) in He.
    apply list_elem_of_fmap in He as ([e' m] & -> & He). simpl in *.
    change (pre ++ (d, n) :: post) with (pre ++ [(d, n)] ++ post) in He.
    rewrite app_assoc in He. apply elem_of_app in He as [He|He].
    + apply list_elem_of_fmap. by exists (e', m).
    + apply (sorted_after _ _ _ _ _ Hs) in He. by apply s_lt_not_le in He.
Qed.

Lemma list_find_first {A} (P : A → Prop) `{∀ x, Decision (P x)} l x :
  first_date P l = Some x ↔ ∃ i, list_find P l = Some (i, x).
Proof.
  rewrite fmap_Some. split.
  - intros ([i y] & Hf & ->). by exists i.
  - intros [i Hf]. by exists (i, x).
Qed.

Lemma sorted_index l items i j a b : sorted_counts l items →
  items.*1 !! i = Some a → items.*1 !! j = Some b → s_lt a b = true ↔ (i < j)%nat.
Proof.
  intros Hs.
  assert (∀ i j a b, items.*1 !! i = Some a → items.*1 !! j = Some b →
    (i < j)%nat → s_lt a b = true) as Hlt.
  { clear i j a b. intros i j a b Ha Hb Hij.
    apply list_lookup_fmap_Some in Ha as ([a' n] & -> & Ha).
    apply list_lookup_fmap_Some in Hb as ([b' m] & -> & Hb).
    rewrite <-(take_drop_middle _ _ _ Ha) in Hs.
    apply (sorted_after _ _ _ _ (b', m) Hs).
    apply (list_elem_of_lookup_2 _ (j - S i)%nat). rewrite lookup_drop.
    by replace (S i + (j - S i))%nat with j by lia. }
  intros Ha Hb. split; [|by apply Hlt]. intros Hab. destruct (decide (i < j)%nat); [done|].
  apply s_lt_not_le in Hab. destruct Hab. destruct (decide (i = j)) as [->|].
  - by simplify_eq.
  - apply s_lt_le, (Hlt j i); [done|done|lia].
Qed.

Lemma first_reaching_find rows items ratio d :
  sorted_counts (date_array Year Month Day rows) items →
  first_date (reaches (λ d, upto d rows) (Z.of_nat (length rows)) ratio) items.*1 = Some d ↔
    first_reaching ratio rows d.
Proof.
  intros Hs. rewrite list_find_first. unfold first_reaching, reaches. split.
  - intros [i (Hi & Hd & Hmin)%list_find_Some]. split_and!.
    + rewrite <-sorted_keys by done. by eapply list_elem_of_lookup_2.
    + done.
    + intros e He Hlt. apply (sorted_keys _ _ _ Hs) in He.
      apply list_elem_of_lookup_1 in He as [j Hj].
      apply not_true_is_false, (Hmin j); [done|]. by apply (sorted_index _ _ _ _ _ _ Hs Hj Hi).
  - intros (Hd & Hr & Hmin). apply (sorted_keys _ _ _ Hs) in Hd.
    apply list_elem_of_lookup_1 in Hd as [i Hi]. exists i. apply list_find_Some.
    split_and!; [done..|]. intros j e Hj Hij. apply not_true_iff_false, Hmin.
    + rewrite <-sorted_keys by done. by eapply list_elem_of_lookup_2.
    + by apply (sorted_index _ _ _ _ _ _ Hs Hj Hi).
Qed.

Lemma list_find_take {A} (P : A → Prop) `{∀ x, Decision (P x)} l k i x :
  list_find P (take k l) = Some (i, x) ↔ list_find P l = Some (i, x) ∧ (i < k)%nat.
Proof.
  rewrite !list_find_Some, lookup_take_Some. split.
  - intros ((Hi & Hk) & Hx & Hmin). split_and!; [done..| |done].
    intros j y Hj Hij. apply (Hmin j y); [|done]. apply lookup_take_Some. split; [done|lia].
  - intros ((Hi & Hx & Hmin) & Hk). split_and!; [done..|].
    intros j y [Hj _]%lookup_take_Some Hij. by apply (Hmin j y).
Qed.

(** The cutoffs of counted rows: the first dates that reach the ratios, when
    the first comes no later than the second. *)
Lemma cutoffs_spec rows st tr te a b : counted (date_array Year Month Day rows) st →
  cutoffs_from_counts st.1 st.2 tr te = Ok (a, b) ↔
    first_reaching tr rows a ∧ first_reaching te rows b ∧ (a ≤ b)%string.
Proof.
  intros Hst. pose proof (sort_counted _ _ Hst) as Hs.
  rewrite (counted_total _ _ Hst). unfold date_array at 1. rewrite length_map.
  unfold cutoffs_from_counts.
  rewrite (cutoff_loop_find (λ d, upto d rows)) by by apply sorted_running.
  rewrite <-!(first_reaching_find _ _ _ _ Hs).
  set (items := merge_sort date_le st.1) in *. set (total := Z.of_nat (length rows)).
  destruct (list_find (reaches _ total te) items.*1) as [[j b']|] eqn:Hb.
  2: { cbn. split; [by destruct (first_date _ _)|]. by intros (_ & ? & _). }
  cbn [fmap option_fmap option_map snd].
  destruct (first_date (reaches _ total tr) (take _ _)) as [a'|] eqn:Ha.
  - apply list_find_first in Ha as [i [Ha Hij]%list_find_take].
    rewrite Ha. cbn. split.
    + intros [= -> ->]. split_and!; [done..|]. apply s_lt_false.
      apply not_true_iff_false. apply list_find_Some in Ha as [Ha _], Hb as [Hb _].
      rewrite (sorted_index _ _ _ _ _ _ Hs Hb Ha). lia.
    + by intros ([= ->] & [= ->] & _).
  - split; [done|]. intros (Hf & [= ->] & Hab). exfalso.
    apply list_find_first in Hf as [i Hi].
    assert (list_find (reaches (λ d, upto d rows) total tr) (take (S j) items.*1) = Some (i, a)) as Ht.
    { apply list_find_take. split; [done|]. apply s_lt_false in Hab.
      apply not_true_iff_false in Hab. apply list_find_Some in Hi as [Hi _], Hb as [Hb _].
      rewrite (sorted_index _ _ _ _ _ _ Hs Hb Hi) in Hab. lia. }
    by rewrite Ht in Ha.
Qed.
End cutoffs.
