(* ===== verification/TemporalSplitProps.v ===== *)
(** * The temporal split script

    What the script writes, when it raises, and that the string order of its
    dates is the order of the calendar. *)
From S2P Require Import Prelude PyDict PyStr PyFloat TemporalSplit TemporalSplitFacts.

Section script.
Context `{ArrowLaws} {R : Type} (Year Month Day : R → Z) (is_fraud : R → bool).
Abbreviation date := (date_of Year Month Day).
Abbreviation dates := (date_array Year Month Day).
Abbreviation first_at := (first_reaching Year Month Day).

(** The rows of a split, in the order of the input. *)
Definition rows_of (a b : string) (s : split_name) (rows : list R) : list R :=
  filter (λ r, mask a b s (date r) = true) rows.

(** An output that holds the rows [l]. *)
Definition holds (l : list R) (o : split_out (R:=R)) : Prop :=
  writer o = (match l with [] => None | _ => Some l end) ∧
  rows o = Z.of_nat (length l) ∧
  fraud o = Z.of_nat (length (filter (λ r, is_fraud r = true) l)).

Lemma rows_of_app a b s k l : rows_of a b s (k ++ l) = rows_of a b s k ++ rows_of a b s l.
Proof. apply filter_app. Qed.

Lemma write_split_holds a b k batch s o : holds k o →
  holds (k ++ rows_of a b s batch) (write_split Year Month Day is_fraud a b batch s o).
Proof.
  intros (Hw & Hr & Hf). unfold holds, write_split. cbn. fold (rows_of a b s batch). split_and!.
  - rewrite Hw. destruct (rows_of a b s batch) as [|r l]; [by rewrite app_nil_r|].
    by destruct k.
  - rewrite Hr, length_app. lia.
  - rewrite Hf, filter_app, length_app. unfold rows_of. rewrite list_filter_filter.
    rewrite Nat2Z.inj_add. f_equal. f_equal. f_equal. apply list_filter_iff.
    intros r. rewrite andb_true_iff. naive_solver.
Qed.

Lemma foldl_holds a b s batches st k : holds k (st s) →
  holds (k ++ rows_of a b s (concat batches))
    (foldl (λ st batch s, write_split Year Month Day is_fraud a b batch s (st s)) st batches s).
Proof.
  revert st k. induction batches as [|batch batches IH]; intros st k Hst; cbn [concat foldl].
  - by rewrite app_nil_r.
  - rewrite rows_of_app, app_assoc. apply IH. by apply write_split_holds.
Qed.

Lemma write_splits_holds a b batches s :
  holds (rows_of a b s (concat batches)) (write_splits Year Month Day is_fraud a b batches s).
Proof. by apply (foldl_holds a b s batches _ []). Qed.

(** *** The masks *)
Lemma mask_spec a b s d :
  mask a b s d = true ↔
    match s with
    | train => ¬ (a ≤ d)%string
    | val => (a ≤ d)%string ∧ ¬ (b ≤ d)%string
    | test => (b ≤ d)%string
    end.
Proof.
  destruct s; simpl.
  - apply s_lt_not_le.
  - by rewrite andb_true_iff, bool_decide_eq_true, s_lt_not_le.
  - by rewrite bool_decide_eq_true.
Qed.

Lemma mask_unique a b s s' d : (a ≤ b)%string →
  mask a b s d = true → mask a b s' d = true → s = s'.
Proof.
  intros Hab. rewrite !mask_spec. assert ((b ≤ d)%string → (a ≤ d)%string).
  { intros. by transitivity b. }
  destruct s, s'; naive_solver.
Qed.

Lemma mask_exists a b d : ∃ s, mask a b s d = true.
Proof.
  destruct (decide (b ≤ d)%string); [exists test; by apply mask_spec|].
  destruct (decide (a ≤ d)%string); [exists val|exists train]; by apply mask_spec.
Qed.

Lemma rows_of_cons a b s r l :
  rows_of a b s (r :: l) =
    if decide (mask a b s (date r) = true) then r :: rows_of a b s l else rows_of a b s l.
Proof. unfold rows_of. by rewrite filter_cons. Qed.

Lemma splits_partition a b l : (a ≤ b)%string →
  concat (map (λ s, rows_of a b s l) SPLITS) ≡ₚ l.
Proof.
  intros Hab. induction l as [|r l IH]; [done|]. cbn [SPLITS map concat] in *.
  rewrite !rows_of_cons. destruct (mask_exists a b (date r)) as [s Hs].
  assert (∀ s', s' ≠ s → ¬ mask a b s' (date r) = true) as Hn.
  { intros s' Hne Hs'. apply Hne. by apply (mask_unique a b _ _ (date r)). }
  destruct s.
  - rewrite decide_True, !decide_False by auto. by rewrite <-app_comm_cons, IH.
  - rewrite (decide_False (P:=mask a b train _ = _)), decide_True, decide_False by auto.
    by rewrite <-app_comm_cons, <-Permutation_middle, IH.
  - rewrite !decide_False, decide_True by auto.
    by rewrite <-app_comm_cons, <-!Permutation_middle, IH.
Qed.

(** Splits in calendar order never overlap. *)
Definition before (s s' : split_name) : Prop :=
  match s, s' with train, val | train, test | val, test => True | _, _ => False end.

Lemma splits_ordered a b s s' l r r' : (a ≤ b)%string → before s s' →
  r ∈ rows_of a b s l → r' ∈ rows_of a b s' l → s_lt (date r) (date r') = true.
Proof.
  intros Hab Hss [Hr _]%list_elem_of_filter [Hr' _]%list_elem_of_filter.
  rewrite mask_spec in Hr, Hr'. rewrite s_lt_not_le. intros Hle.
  assert ((a ≤ date r')%string → (a ≤ date r)%string) by (intros; by transitivity (date r')).
  assert ((b ≤ date r')%string → (b ≤ date r)%string) by (intros; by transitivity (date r')).
  assert ((b ≤ date r')%string → (a ≤ date r')%string) by (intros; by transitivity b).
  destruct s, s'; naive_solver.
Qed.


(** *** The whole script *)
Lemma cutoffs_error rows st tr te e : counted (dates rows) st →
  cutoffs_from_counts st.1 st.2 tr te = Raise e →
  e = RuntimeError ∧
  ¬ ∃ a b, first_at tr rows a ∧ first_at te rows b ∧ (a ≤ b)%string.
Proof.
  intros Hst He. split.
  - revert He. unfold cutoffs_from_counts. repeat case_match; congruence.
  - intros (a & b & Hab). apply (cutoffs_spec Year Month Day rows st tr te a b Hst) in Hab. congruence.
Qed.

Lemma last_date_rows a b rows : (∃ d, d ∈ dates rows ∧ d = b) → rows_of a b test rows ≠ [].
Proof.
  intros (d & Hd & ->). unfold date_array in Hd.
  apply list_elem_of_fmap in Hd as (r & -> & Hr). intros Hnil.
  assert (r ∈ rows_of a (date r) test rows) as Hin.
  { apply list_elem_of_filter. split; [|done]. by apply mask_spec. }
  rewrite Hnil in Hin. by apply not_elem_of_nil in Hin.
Qed.

(** C32: [main] splits the rows of the two passes in time.  When it returns,
    the train cutoff is the first date up to which the rows reach the train
    ratio of all rows, the test cutoff the first up to which they reach the test
    ratio, no earlier than the train cutoff; every split holds exactly the rows
    its mask selects, in the order of the input, with their number and the
    number of frauds, and no file is opened for a split without rows; the
    three splits are together the rows of the input; a row of an earlier split
    is strictly before a row of a later one; and the test split is not empty.  It
    raises on a missing file, on ratios out of order, on cutoffs that no
    dates reach (an empty file, or train reached only after test), and on an
    existing output without [overwrite], in that order. *)
Theorem temporal_split_spec raw_exists tr te ready overwrite batches :
  let rows := concat batches in
  let reachable := ∃ a b, first_at tr rows a ∧ first_at te rows b ∧ (a ≤ b)%string in
  let part a b s := rows_of a b s rows in
  match main Year Month Day is_fraud raw_exists tr te ready overwrite batches with
  | Ok (a, b, out) =>
      raw_exists = true ∧ ratios_ok tr te = true ∧ (ready = true → overwrite = true) ∧
      first_at tr rows a ∧ first_at te rows b ∧ (a ≤ b)%string ∧
      (∀ s, holds (part a b s) (out s)) ∧
      part a b train ++ part a b val ++ part a b test ≡ₚ rows ∧
      (∀ s s' r r', before s s' → r ∈ part a b s → r' ∈ part a b s' →
        s_lt (date r) (date r') = true) ∧
      part a b test ≠ []
  | Raise e =>
      (e = FileNotFoundError ∧ raw_exists = false) ∨
      (raw_exists = true ∧
       ((e = ValueError ∧ ratios_ok tr te = false) ∨
        (ratios_ok tr te = true ∧
         ((e = RuntimeError ∧ ¬ reachable) ∨
          (e = FileExistsError ∧ reachable ∧ ready = true ∧ overwrite = false)))))
  end.
Proof.
  intros rows reachable part. unfold main, validate_args.
  destruct raw_exists; [|by left]. destruct (ratios_ok tr te); [|by right; split; [|left]].
  pose proof (compute_daily_counted Year Month Day batches) as Hst. cbn [negb mbind result_bind].
  destruct (compute_daily_counts Year Month Day batches) as [counts total].
  destruct (cutoffs_from_counts counts total tr te) as [[a b]|e] eqn:Hc; cbn [mbind result_bind].
  - apply (cutoffs_spec Year Month Day rows (counts, total) tr te a b Hst) in Hc
      as (Ha & Hb & Hab).
    unfold prepare_output_dir. destruct (ready && negb overwrite) eqn:Hr; cbn.
    + apply andb_true_iff in Hr as [-> ->%negb_true_iff].
      right. split; [done|]. right. split; [done|]. right. split_and!; [done| |done..].
      by exists a, b.
    + split_and!; [done|done| |done|done|done| | | |].
      * intros ->. by destruct overwrite.
      * intros s. apply write_splits_holds.
      * pose proof (splits_partition a b rows Hab) as Hp. cbn in Hp.
        by rewrite app_nil_r in Hp.
      * intros s s' r r'. by apply splits_ordered.
      * destruct Hb as [Hb _]. apply last_date_rows. by exists b.
  - apply (cutoffs_error rows (counts, total) tr te e Hst) in Hc as [-> Hc].
    right. split; [done|]. right. split; [done|]. left. by split.
Qed.
End script.

(** ** Dates as strings and as days of the calendar *)
Section chronology.
Context `{ArrowLaws}.

(** A number of at most two digits, as the dates write it. *)
Definition two (n : Z) : string := zeros (2 - String.length (pretty n)) +:+ pretty n.

Lemma compare_app s1 s2 t1 t2 : String.length s1 = String.length s2 →
  String.compare (s1 +:+ t1) (s2 +:+ t2) =
    match String.compare s1 s2 with Eq => String.compare t1 t2 | c => c end.
Proof.
  revert s2. induction s1 as [|x s1 IH]; intros [|y s2]; try done.
  intros [= Hl]. change (String x s1 +:+ t1) with (String x (s1 +:+ t1)).
  change (String y s2 +:+ t2) with (String y (s2 +:+ t2)). simpl.
  destruct (Ascii.compare x y); [by apply IH|done|done].
Qed.

Lemma two_table :
  forallb (λ m, forallb (λ n,
    bool_decide (String.compare (two m) (two n) = Z.compare m n)) (seqZ 0 100)) (seqZ 0 100)
  && forallb (λ m, bool_decide (String.length (two m) = 2%nat)) (seqZ 0 100) = true.
Proof. vm_compute. reflexivity. Qed.

Lemma year_table :
  forallb (λ y, bool_decide (pretty y = two (y / 100) +:+ two (y `mod` 100))) (seqZ 1000 9000)
    = true.
Proof. vm_compute. reflexivity. Qed.

Lemma forallb_seqZ (f : Z → bool) m n : forallb f (seqZ m n) = true →
  ∀ x, m ≤ x < m + n → f x = true.
Proof.
  intros Hf x Hx. rewrite forallb_forall in Hf. apply Hf. apply list_elem_of_In.
  by apply elem_of_seqZ.
Qed.

Lemma two_compare m n : 0 ≤ m < 100 → 0 ≤ n < 100 →
  String.compare (two m) (two n) = Z.compare m n.
Proof.
  intros Hm Hn. pose proof two_table as [Ht _]%andb_true_iff.
  apply (forallb_seqZ _ _ _ Ht) in Hm. apply (forallb_seqZ _ _ _ Hm) in Hn.
  by apply bool_decide_eq_true in Hn.
Qed.

Lemma two_length m : 0 ≤ m < 100 → String.length (two m) = 2%nat.
Proof.
  intros Hm. pose proof two_table as [_ Ht]%andb_true_iff.
  apply (forallb_seqZ _ _ _ Ht) in Hm. by apply bool_decide_eq_true in Hm.
Qed.

Lemma year_two y : 1000 ≤ y < 10000 → pretty y = two (y / 100) +:+ two (y `mod` 100).
Proof.
  intros Hy. pose proof (forallb_seqZ _ _ _ year_table y Hy) as Ht.
  by apply bool_decide_eq_true in Ht.
Qed.

Lemma compare_two m n s t : 0 ≤ m < 100 → 0 ≤ n < 100 →
  String.compare (two m +:+ s) (two n +:+ t) =
    match Z.compare m n with Eq => String.compare s t | c => c end.
Proof. intros Hm Hn. by rewrite compare_app, two_compare by by rewrite ?two_length. Qed.

Lemma compare_dash s t : String.compare ("-" +:+ s) ("-" +:+ t) = String.compare s t.
Proof. done. Qed.

Definition calendar_le (y m d y' m' d' : Z) : Prop :=
  y < y' ∨ y = y' ∧ (m < m' ∨ m = m' ∧ d ≤ d').

(** For four-digit years and months and days of at most two digits, the
    strings the script compares are ordered as the dates of the calendar. *)
Theorem date_strings_chronological {R} (Year Month Day : R → Z) r r' :
  (∀ x, x = r ∨ x = r' → 1000 ≤ Year x < 10000 ∧ 0 ≤ Month x < 100 ∧ 0 ≤ Day x < 100) →
  (date_of Year Month Day r ≤ date_of Year Month Day r')%string ↔
    calendar_le (Year r) (Month r) (Day r) (Year r') (Month r') (Day r').
Proof.
  intros Hx. destruct (Hx r) as (Hy & Hm & Hd); [by left|].
  destruct (Hx r') as (Hy' & Hm' & Hd'); [by right|].
  unfold String.le, String.leb, date_of. rewrite !join_law, !lpad_law, !cast_law.
  fold (two (Month r)) (two (Month r')) (two (Day r)) (two (Day r')).
  rewrite !year_two, !sapp_assoc by done.
  pose proof (Z.div_mod (Year r) 100) as Hq. pose proof (Z.div_mod (Year r') 100) as Hq'.
  pose proof (Z.mod_pos_bound (Year r) 100) as Hb. pose proof (Z.mod_pos_bound (Year r') 100) as Hb'.
  rewrite !compare_two, !compare_dash, !compare_two by lia.
  rewrite compare_dash, two_compare by done. unfold calendar_le.
  repeat match goal with |- context [Z.compare ?x ?y] => destruct (Z.compare_spec x y) end;
    cbn; split; intros; try done; lia.
Qed.
End chronology.

(** ** A run *)
Module SplitRun.
(** A row of the run: its year, month and day, and its flag. *)
Record txn : Type := { y : Z; mo : Z; d : Z; bad : bool }.

#[global] Instance txn_eq_dec : EqDecision txn.
Proof. solve_decision. Defined.

Definition batches : list (list txn) :=
  [[{| y := 2019; mo := 11; d := 30; bad := false |}; {| y := 2019; mo := 2; d := 9; bad := true |};
    {| y := 2018; mo := 12; d := 31; bad := false |}];
   [{| y := 2019; mo := 2; d := 10; bad := true |}; {| y := 2019; mo := 2; d := 9; bad := false |}]].

(** The doubles 0.5 and 0.8. *)
Definition half : float := S754_finite false 4503599627370496 (-53).
Definition f08 : float := S754_finite false 7205759403792794 (-53).

Definition run : result (string * string * outputs) :=
  main y mo d bad true half f08 true true batches.

Lemma run_result :
  match run with
  | Ok (a, b, out) =>
      a = "2019-02-09" ∧ b = "2019-02-10" ∧ rows (out train) = 1 ∧
      map d (default [] (writer (out val))) = [9; 9] ∧ fraud (out test) = 1
  | Raise _ => False
  end.
Proof. vm_compute. done. Qed.

Lemma temporal_split_spec_witness :
  match run with
  | Ok (a, b, out) => rows_of y mo d a b test (concat batches) ≠ []
  | Raise _ => False
  end.
Proof.
  pose proof (temporal_split_spec y mo d bad true half f08 true true batches) as Hs.
  pose proof run_result as Hr. unfold run in *. cbv zeta in Hs.
  destruct (main y mo d bad true half f08 true true batches) as [[[a b] out]|]; [|done].
  by destruct Hs as (_ & _ & _ & _ & _ & _ & _ & _ & _ & Hs).
Defined.

Definition jan : txn := {| y := 2019; mo := 1; d := 31; bad := false |}.
Definition oct : txn := {| y := 2019; mo := 10; d := 2; bad := false |}.

Lemma date_strings_chronological_witness : (date_of y mo d jan ≤ date_of y mo d oct)%string.
Proof.
  apply (date_strings_chronological y mo d jan oct).
  - intros x [-> | ->]; vm_compute; split_and!; congruence.
  - right. split; [done|]. left. done.
Defined.

(** Years of fewer digits are not ordered. *)
Example short_years :
  let r := {| y := 999; mo := 1; d := 1; bad := false |} in
  bool_decide (date_of y mo d r ≤ date_of y mo d jan)%string = false.
Proof. vm_compute. reflexivity. Qed.
End SplitRun.
