(* ===== verification/Sequences.v ===== *)
(** * [src/ray_tokenize.py], [src/ray_common.py]: training sequences

    [build_sequences] turns the tokenized transactions of one (user, card) into
    rows of a fixed number of token ids; the constants are those of the
    tokenization and training jobs.  [np.argsort] is a parameter with its
    documented behaviour; token ids are in range of int64 as they come. *)
From S2P Require Import Prelude PyDict PyStr Cudf BaseTok Tokenizers Pipeline Financial FinancialFacts.
Open Scope Z_scope.

Definition MERCHANT_HASH_SIZE : Z := 2000.
Definition SEQ_LENGTH : Z := 4096.
Definition SEQ_CHUNK_SIZE : Z := 315.
Definition PAD_TOKEN_ID : Z := 0.
Definition BOS_TOKEN_ID : Z := 1.
Definition EOS_TOKEN_ID : Z := 2.
Definition SEP_TOKEN_ID : Z := 3.
Definition UNK_TOKEN_ID : Z := 4.
(** [MODEL_CONFIG["vocab_size"]] and [MODEL_CONFIG["max_position_embeddings"]] *)
Definition MODEL_VOCAB_SIZE : Z := 6251.
Definition MODEL_MAX_POSITIONS : Z := 8192.

(** [user * 100 + card] *)
Definition uc_key (user card : Z) : Z := user * 100 + card.

(** [np.argsort(ts, kind="stable")] *)
Class ArgSort : Type := argsort : list Z → list nat.

(** The order of indices by time, ties by position. *)
Definition time_lt (ts : list Z) (i j : nat) : Prop :=
  ∃ s t, ts !! i = Some s ∧ ts !! j = Some t ∧ (s < t ∨ s = t ∧ (i < j)%nat).

Class ArgSortLaws `{ArgSort} : Prop := {
  argsort_perm ts : argsort ts ≡ₚ seq 0 (length ts);
  argsort_stable ts : StronglySorted (time_lt ts) (argsort ts)
}.

(** [range(0, stop, step)] for a positive step. *)
Definition range_step (stop step : Z) : list Z :=
  map (λ k, k * step) (seqZ 0 ((stop + step - 1) / step)).

(** The loop over the rows of a chunk. *)
Fixpoint chunk_rows (chunk : list (list Z)) : list Z :=
  match chunk with
  | [] => []
  | [row] => row
  | row :: chunk => row ++ SEP_TOKEN_ID :: chunk_rows chunk
  end.

Definition chunk_seq (chunk : list (list Z)) : list Z :=
  BOS_TOKEN_ID :: chunk_rows chunk ++ [EOS_TOKEN_ID].

(** [arr = np.full(seq_length, PAD); arr[:len(seq)] = seq] *)
Definition fill_pad (seq_length : nat) (seq : list Z) : list Z :=
  seq ++ replicate (seq_length - length seq) PAD_TOKEN_ID.

Section build.
Context `{ArgSort}.

(** The arrays [input_ids], as rows. *)
Definition build_sequences (ts : list Z) (token_ids : list (list Z))
    (seq_length chunk_size : Z) : result (list (list Z)) :=
  tok ← result_map (λ i, or_raise IndexError (token_ids !! i)) (argsort ts);
  if chunk_size =? 0 then Raise ValueError
  else if seq_length <? 0 then Raise ValueError
  else
    let n := Z.to_nat seq_length in
    let starts := if chunk_size <? 0 then [] else range_step (Z.of_nat (length tok)) chunk_size in
    Ok (map (λ start, fill_pad n (take n (chunk_seq
      (take (Z.to_nat chunk_size) (drop (Z.to_nat start) tok))))) starts).
End build.

(** ** Chunks *)
Definition chunks_of (c q : nat) (rows : list (list Z)) : list (list (list Z)) :=
  map (λ k, take c (drop (k * c)%nat rows)) (seq 0 q).

Lemma concat_chunks_of c q rows : concat (chunks_of c q rows) = take (q * c)%nat rows.
Proof.
  induction q as [|q IH]; [done|].
  unfold chunks_of in *. rewrite seq_S, map_app, concat_app, IH. cbn. rewrite app_nil_r.
  rewrite take_take_drop. f_equal. lia.
Qed.

(** How many chunks the range has. *)
Definition chunk_count (n c : nat) : nat := Z.to_nat ((Z.of_nat n + Z.of_nat c - 1) / Z.of_nat c).

Lemma chunk_count_bound n c : (0 < c)%nat →
  (n ≤ chunk_count n c * c)%nat ∧ (chunk_count n c * c < n + c)%nat.
Proof.
  intros Hc. unfold chunk_count. set (a := Z.of_nat n + Z.of_nat c - 1).
  pose proof (Z.div_mod a (Z.of_nat c)) as Hd.
  pose proof (Z.mod_pos_bound a (Z.of_nat c)) as Hm.
  assert (0 ≤ a / Z.of_nat c) by (apply Z.div_pos; lia). nia.
Qed.

Lemma range_chunks rows c (f : list (list Z) → list Z) : 0 < c →
  map (λ start, f (take (Z.to_nat c) (drop (Z.to_nat start) rows)))
    (range_step (Z.of_nat (length rows)) c) =
  map f (chunks_of (Z.to_nat c) (chunk_count (length rows) (Z.to_nat c)) rows).
Proof.
  intros Hc. unfold range_step, chunks_of, chunk_count, seqZ. rewrite Z2Nat.id by lia.
  change ((λ i : nat, Z.of_nat i + 0) <$> ?l) with (map (λ i : nat, Z.of_nat i + 0) l).
  rewrite !map_map. apply map_ext. intros k.
  do 3 f_equal. lia.
Qed.

Lemma chunks_of_lookup c rows k chunk : (0 < c)%nat →
  chunks_of c (chunk_count (length rows) c) rows !! k = Some chunk →
  (0 < length chunk ≤ c)%nat ∧
  ((S k < chunk_count (length rows) c)%nat → length chunk = c).
Proof.
  intros Hc Hk. unfold chunks_of in Hk. apply list_lookup_fmap_Some in Hk as (i & -> & Hi).
  apply lookup_seq in Hi as [-> Hi]. rewrite length_take, length_drop.
  destruct (chunk_count_bound (length rows) c Hc). split; nia.
Qed.

(** ** The layout of a chunk *)
Section layout.
Context (w : nat).

Lemma chunk_rows_cons row chunk : chunk ≠ [] →
  chunk_rows (row :: chunk) = row ++ SEP_TOKEN_ID :: chunk_rows chunk.
Proof. by destruct chunk. Qed.

(** Row [i] of the chunk, and what follows it. *)
Definition slot (i : nat) : nat := 1 + i * (w + 1).

Lemma length_chunk_seq chunk : chunk ≠ [] → Forall (λ r, length r = w) chunk →
  length (chunk_seq chunk) = slot (length chunk).
Proof.
  intros Hne Hw. unfold chunk_seq, slot. rewrite length_cons, length_app. cbn [length].
  enough (length (chunk_rows chunk) + 1 = length chunk * (w + 1))%nat by lia.
  induction chunk as [|row chunk IH]; [done|]. apply Forall_cons in Hw as [Hr Hw].
  destruct chunk as [|r chunk]; [simpl; lia|]. rewrite chunk_rows_cons by done.
  rewrite length_app, (length_cons (SEP_TOKEN_ID)).
  assert (r :: chunk ≠ []) as Hn by done. specialize (IH Hn Hw). rewrite (length_cons row). lia.
Qed.

Lemma chunk_rows_lookup chunk i row rest : Forall (λ r, length r = w) chunk →
  chunk !! i = Some row →
  ∃ post, drop (i * (w + 1)) (chunk_rows chunk ++ EOS_TOKEN_ID :: rest) =
    row ++ (if decide (S i = length chunk) then EOS_TOKEN_ID else SEP_TOKEN_ID) :: post.
Proof.
  revert i. induction chunk as [|r chunk IH]; intros i Hw Hi; [done|].
  apply Forall_cons in Hw as [Hr Hw]. destruct chunk as [|r' chunk].
  - destruct i; [|done]. simplify_eq/=. eexists. reflexivity.
  - rewrite chunk_rows_cons by done. destruct i as [|i].
    + simplify_eq/=. rewrite <-app_assoc. eexists. reflexivity.
    + simpl in Hi. destruct (IH i Hw Hi) as [post Hp]. exists post.
      rewrite <-app_assoc, <-app_comm_cons.
      replace (S i * (w + 1))%nat with (length r + S (i * (w + 1)))%nat by lia.
      rewrite drop_app_add'; [|done]. cbn [drop]. rewrite Hp. cbn [length].
      repeat case_decide; done || lia.
Qed.
End layout.

(** ** Sequences *)
Section sequences.
Context `{ArgSortLaws}.

Lemma length_fill_pad n l : (length l ≤ n)%nat → length (fill_pad n l) = n.
Proof. intros Hl. unfold fill_pad. rewrite length_app, length_replicate. lia. Qed.

Lemma gather_rows ts (tok : list (list Z)) : length ts = length tok →
  ∃ rows, result_map (λ i, or_raise IndexError (tok !! i)) (argsort ts) = Ok rows ∧
    Forall2 (λ i r, tok !! i = Some r) (argsort ts) rows.
Proof.
  intros Hl. assert (Forall (λ i, (i < length tok)%nat) (argsort ts)) as Hlt.
  { rewrite argsort_perm. apply Forall_forall. intros i Hi. apply elem_of_seq in Hi. lia. }
  exists (map (λ i, nth i tok []) (argsort ts)).
  assert (∀ i, i ∈ argsort ts → tok !! i = Some (nth i tok [])) as Hn.
  { intros i Hi. rewrite Forall_forall in Hlt. specialize (Hlt i Hi).
    destruct (lookup_lt_is_Some_2 tok i Hlt) as [r Hr].
    rewrite (nth_lookup_Some _ _ _ _ Hr). done. }
  split.
  - apply result_map_ok_map. intros i Hi. by rewrite Hn.
  - clear Hlt. induction (argsort ts) as [|i l IH]; constructor.
    + apply Hn. left.
    + apply IH. intros j Hj. apply Hn. by right.
Qed.

(** Where [chunk] lies in a sequence of rows of [w] ids. *)
Record laid_out (w : nat) (chunk : list (list Z)) (seq : list Z) : Prop := {
  laid_bos : seq !! 0%nat = Some BOS_TOKEN_ID;
  laid_row i row : chunk !! i = Some row → ∃ post,
    drop (slot w i) seq =
      row ++ (if decide (S i = length chunk) then EOS_TOKEN_ID else SEP_TOKEN_ID) :: post;
  laid_pad : Forall (.= PAD_TOKEN_ID) (drop (slot w (length chunk)) seq)
}.

Lemma fill_laid_out w n chunk : chunk ≠ [] → Forall (λ r, length r = w) chunk →
  (slot w (length chunk) ≤ n)%nat →
  laid_out w chunk (fill_pad n (take n (chunk_seq chunk))).
Proof.
  intros Hne Hw Hn. rewrite <-(length_chunk_seq w chunk) in Hn by done.
  rewrite take_ge by done. unfold fill_pad. split.
  - done.
  - intros i row Hi. unfold slot, chunk_seq.
    rewrite <-app_comm_cons, <-app_assoc. cbn [drop app Nat.add].
    by apply chunk_rows_lookup.
  - rewrite <-(length_chunk_seq w chunk) by done. rewrite drop_app_length.
    by apply Forall_replicate.
Qed.

(** C40: [build_sequences] cuts the transactions of one (user, card), in stable
    time order, into consecutive chunks of at most [chunk_size], all but the
    last full, and returns one row of exactly [seq_length] ids per chunk.  When
    rows of [w] ids leave room for a full chunk, nothing is truncated: a row
    of the result starts with <bos>, holds transaction [i] at offset
    [1 + i * (w + 1)] followed by <sep>, or <eos> after the last, and is <pad>
    from there on. *)
Theorem build_sequences_spec ts tok seq_length chunk_size :
  length ts = length tok → 0 < chunk_size → 0 ≤ seq_length →
  ∃ order rows chunks seqs,
    order ≡ₚ seq 0 (length ts) ∧ StronglySorted (time_lt ts) order ∧
    Forall2 (λ i r, tok !! i = Some r) order rows ∧
    concat chunks = rows ∧
    (∀ k chunk, chunks !! k = Some chunk →
      0 < Z.of_nat (length chunk) ≤ chunk_size ∧
      ((S k < length chunks)%nat → Z.of_nat (length chunk) = chunk_size)) ∧
    build_sequences ts tok seq_length chunk_size = Ok seqs ∧
    length seqs = length chunks ∧
    Forall (λ s, Z.of_nat (length s) = seq_length) seqs ∧
    ∀ w, Forall (λ r, length r = w) tok →
      1 + chunk_size * (Z.of_nat w + 1) ≤ seq_length → Forall2 (laid_out w) chunks seqs.
Proof.
  intros Hl Hc Hs. destruct (gather_rows ts tok Hl) as (rows & Hg & Hrows).
  set (c := Z.to_nat chunk_size). set (n := Z.to_nat seq_length).
  set (chunks := chunks_of c (chunk_count (length rows) c) rows).
  exists (argsort ts), rows, chunks, (map (λ ch, fill_pad n (take n (chunk_seq ch))) chunks).
  assert (∀ k ch, chunks !! k = Some ch → (0 < length ch ≤ c)%nat ∧
    ((S k < chunk_count (length rows) c)%nat → length ch = c)) as Hch.
  { intros k ch. apply chunks_of_lookup. lia. }
  assert (length chunks = chunk_count (length rows) c) as Hlen.
  { unfold chunks, chunks_of. by rewrite length_map, length_seq. }
  split; [apply argsort_perm|]. split; [apply argsort_stable|]. split; [done|]. split.
  { unfold chunks. rewrite concat_chunks_of, take_ge; [done|].
    apply chunk_count_bound. lia. }
  split.
  { intros k ch Hk. rewrite Hlen. destruct (Hch k ch Hk). lia. }
  split.
  { unfold build_sequences. rewrite Hg. cbn [mbind result_bind].
    rewrite (proj2 (Z.eqb_neq chunk_size 0)), (proj2 (Z.ltb_ge seq_length 0)),
      (proj2 (Z.ltb_ge chunk_size 0)) by lia.
    f_equal. apply (range_chunks rows chunk_size (λ ch, fill_pad n (take n (chunk_seq ch)))). lia. }
  split; [by rewrite length_map|]. split.
  { apply Forall_map, Forall_forall. intros ch _. rewrite length_fill_pad; [lia|].
    rewrite length_take. lia. }
  intros w Hw Hfit. apply Forall2_same_length_lookup. split; [by rewrite length_map|].
  intros k ch s Hk Hks. apply list_lookup_fmap_Some in Hks as (ch' & -> & Hk').
  simplify_eq. destruct (Hch k ch Hk) as [Hb _]. apply fill_laid_out.
  - intros ->. simpl in Hb. lia.
  - assert (Forall (λ r, length r = w) rows) as Hwr.
    { apply Forall_forall. intros r [i Hr]%list_elem_of_lookup_1.
      destruct (Forall2_lookup_r _ _ _ _ _ Hrows Hr) as (j & _ & Hj).
      rewrite Forall_forall in Hw. apply Hw. by eapply list_elem_of_lookup_2. }
    unfold chunks, chunks_of in Hk. apply list_lookup_fmap_Some in Hk as (i & -> & _).
    by apply Forall_take, Forall_drop.
  - unfold slot. nia.
Qed.

(** What it raises: an index beyond the rows, a zero step, a negative length;
    a negative step gives no rows. *)
Lemma build_sequences_errors ts tok seq_length chunk_size : length ts = length tok →
  chunk_size ≤ 0 ∨ seq_length < 0 →
  build_sequences ts tok seq_length chunk_size =
    if bool_decide (chunk_size < 0 ∧ 0 ≤ seq_length) then Ok [] else Raise ValueError.
Proof.
  intros Hl Hb. destruct (gather_rows ts tok Hl) as (rows & Hg & _).
  unfold build_sequences. rewrite Hg. cbn [mbind result_bind].
  destruct (Z.eqb_spec chunk_size 0), (Z.ltb_spec seq_length 0), (Z.ltb_spec chunk_size 0);
    case_bool_decide; try done; lia.
Qed.
End sequences.

(** ** The constants of the jobs *)
Section constants.
Context `{Cudf}.
Import FinancialTabularTokenizer.

(** The constants of the jobs agree with the tokenizer of their hash
    size: its vocabulary has exactly the ids of the model's embedding, the
    special tokens have the ids the sequences are built with, and a full chunk
    of the rows its steps produce fills a sequence exactly, within the model's
    positions. *)
Theorem sequence_constants hier bins temporal :
  ∃ x, init MERCHANT_HASH_SIZE hier bins temporal "fixed" false = Ok x ∧
    vocab_size x = MODEL_VOCAB_SIZE ∧
    (∀ tok g, dget (vocab x) tok = Some g → 0 ≤ g < MODEL_VOCAB_SIZE) ∧
    dget (vocab x) "<pad>" = Some PAD_TOKEN_ID ∧ dget (vocab x) "<bos>" = Some BOS_TOKEN_ID ∧
    dget (vocab x) "<eos>" = Some EOS_TOKEN_ID ∧ dget (vocab x) "<sep>" = Some SEP_TOKEN_ID ∧
    unk_token_id x = UNK_TOKEN_ID ∧
    let w := length (FinancialTokenizerPipeline.configured MERCHANT_HASH_SIZE "fixed" 10 false 32) in
    Z.of_nat (slot w (Z.to_nat SEQ_CHUNK_SIZE)) = SEQ_LENGTH ∧ SEQ_LENGTH ≤ MODEL_MAX_POSITIONS.
Proof.
  assert (0 ≤ MERCHANT_HASH_SIZE) as Hh by done.
  pose proof (init_built (Z.to_nat MERCHANT_HASH_SIZE) hier bins temporal "fixed" false) as Hi.
  rewrite Z2Nat.id in Hi by exact Hh. destruct Hi as (x & Hx & [Hv Hs _ Hu _]).
  exists x. destruct (special_ids MERCHANT_HASH_SIZE "fixed" false) as (Hp & Hb & He & Hsep & _).
  assert (vocab_size x = MODEL_VOCAB_SIZE) as Hsz.
  { rewrite Hs. unfold total_size, month_end.
    by rewrite (parts_size_before _ _ Hh), parts_size_after. }
  split; [exact Hx|]. split; [exact Hsz|]. split.
  { intros tok g. rewrite Hv, <-Hsz, Hs. intros Hl. by apply vocab_get_elem in Hl as [? _]. }
  rewrite Hv. split; [exact Hp|]. split; [exact Hb|]. split; [exact He|].
  split; [exact Hsep|]. split; [exact Hu|]. split; [|done]. vm_compute. reflexivity.
Qed.
End constants.

(** Groups of distinct pairs have distinct keys while cards stay below 100. *)
Lemma uc_key_inj u c u' c' : 0 ≤ c < 100 → 0 ≤ c' < 100 →
  uc_key u c = uc_key u' c' → u = u' ∧ c = c'.
Proof. unfold uc_key. lia. Qed.

(** ** A concrete stable argsort *)
Module SeqRun.
Definition key_le (p q : Z * nat) : Prop := p.1 < q.1 ∨ p.1 = q.1 ∧ (p.2 ≤ q.2)%nat.

#[global] Instance key_le_dec : RelDecision key_le.
Proof. intros p q. unfold key_le. apply _. Defined.

#[global] Instance key_le_total : Total key_le.
Proof. intros [s i] [t j]. unfold key_le. simpl. lia. Qed.

#[global] Instance key_le_trans : Transitive key_le.
Proof. intros [s i] [t j] [u k]. unfold key_le. simpl. lia. Qed.

Definition keys (ts : list Z) : list (Z * nat) := zip ts (seq 0 (length ts)).

#[global] Instance sort_keys : ArgSort := λ ts, (merge_sort key_le (keys ts)).*2.

Lemma keys_elem ts t i : (t, i) ∈ keys ts → ts !! i = Some t.
Proof.
  intros [k Hk]%list_elem_of_lookup_1. unfold keys in Hk.
  apply lookup_zip_Some in Hk as [Ht [-> _]%lookup_seq]. done.
Qed.

#[global] Instance sort_keys_laws : ArgSortLaws.
Proof.
  assert (∀ ts, (keys ts).*2 = seq 0 (length ts)) as Hk.
  { intros ts. unfold keys. apply snd_zip. by rewrite length_seq. }
  split; intros ts; unfold argsort, sort_keys.
  - by rewrite (merge_sort_Permutation key_le), Hk.
  - pose proof (StronglySorted_merge_sort key_le (keys ts)) as Hs.
    assert (∀ t i, (t, i) ∈ merge_sort key_le (keys ts) → ts !! i = Some t) as Hel.
    { intros t i. rewrite (merge_sort_Permutation key_le). apply keys_elem. }
    assert (NoDup (merge_sort key_le (keys ts)).*2) as Hnd.
    { rewrite (merge_sort_Permutation key_le), Hk. apply NoDup_seq. }
    induction Hs as [|[t i] l Hl IH Hi]; [constructor|].
    rewrite fmap_cons in Hnd. apply NoDup_cons in Hnd as [Hni Hnd]. simpl. constructor.
    + apply IH; [intros; apply Hel; by right|done].
    + apply Forall_fmap. rewrite Forall_forall in *. intros [u j] Hj. simpl in *.
      exists t, u. split; [apply Hel; left|]. split; [apply Hel; by right|].
      destruct (Hi (u, j) Hj) as [?|[? ?]]; simpl in *; [by left|right]. split; [done|].
      assert (i ≠ j) by (intros ->; apply Hni, list_elem_of_fmap; by exists (u, j)). lia.
Qed.

Definition ts : list Z := [20; 10; 20].
Definition tok : list (list Z) := [[7; 8]; [5; 6]; [9; 10]].

Lemma run : build_sequences ts tok 8 2 =
  Ok [[1; 5; 6; 3; 7; 8; 2; 0]; [1; 9; 10; 2; 0; 0; 0; 0]].
Proof. vm_compute. reflexivity. Qed.

Lemma build_sequences_spec_witness :
  ∃ chunks seqs, build_sequences ts tok 8 2 = Ok seqs ∧
    length chunks = 2%nat ∧ Forall2 (laid_out 2) chunks seqs.
Proof.
  destruct (build_sequences_spec ts tok 8 2) as
    (order & rows & chunks & seqs & _ & _ & _ & _ & _ & Hb & Hlen & _ & Hw); [done|done|done|].
  exists chunks, seqs. split; [done|]. split.
  - rewrite <-Hlen. rewrite run in Hb. by apply Ok_inj in Hb as <-.
  - apply Hw; [repeat constructor|done].
Defined.
End SeqRun.
