(* ===== verification/SchedNode.v ===== *)
(** * [autoscaler/v2/scheduler.py]: requests, nodes and placing requests on a node

    The messages of [autoscaler.proto] the scheduler reads, the in-place resize
    state of [schema.py], [SchedulingNode] with its scores, and the two caches.
    A [dict] or protobuf map of resources or labels is a finite map; the order
    in which Python would iterate over it shows only in sums of floats. *)
From S2P Require Import Prelude PyDict PyStr PyFloat InstanceUtil.

(** What depends on the platform: the C library's [pow] behind [util**3],
    the built-in [sum] of floats (compensated since CPython 3.12), and the
    environment's AUTOSCALER_CONSERVE_GPU_NODES. *)
Class Platform : Type := {
  f_cube : float → float;
  f_sum : list float → float;
  conserve_gpu_nodes : bool
}.

(** [IMPLICIT_RESOURCE_PREFIX] *)
Definition IMPLICIT_RESOURCE_PREFIX : string := "node:__internal_implicit_resource_".

Abbreviation resources := (gmap string float).
Abbreviation label_map := (gmap string string).

(** ** Requests *)

(** [AntiAffinityConstraint], [AffinityConstraint]: a label name and value. *)
Record PlacementConstraint : Type := {
  anti_affinity : option (string * string);
  affinity : option (string * string)
}.

Inductive LabelSelectorOperator : Type :=
  | LABEL_OPERATOR_UNSPECIFIED | LABEL_OPERATOR_IN | LABEL_OPERATOR_NOT_IN.

Record LabelSelectorConstraint : Type := {
  label_key : string;
  operator : LabelSelectorOperator;
  label_values : list string
}.

Record ResourceRequest : Type := {
  resources_bundle : resources;
  placement_constraints : list PlacementConstraint;
  label_selectors : list (list LabelSelectorConstraint)
}.

#[export] Instance PlacementConstraint_eq_dec : EqDecision PlacementConstraint.
Proof. solve_decision. Defined.
#[export] Instance LabelSelectorOperator_eq_dec : EqDecision LabelSelectorOperator.
Proof. solve_decision. Defined.
#[export] Instance LabelSelectorConstraint_eq_dec : EqDecision LabelSelectorConstraint.
Proof. solve_decision. Defined.
#[export] Instance ResourceRequest_eq_dec : EqDecision ResourceRequest.
Proof. solve_decision. Defined.

Inductive ResourceRequestSource : Type := PENDING_DEMAND | CLUSTER_RESOURCE_CONSTRAINT.

(** A dictionary with one entry per source. *)
Record per_source (A : Type) : Type := { for_demand : A; for_constraint : A }.
Arguments for_demand {A} _.
Arguments for_constraint {A} _.

Definition at_source {A} (s : ResourceRequestSource) (p : per_source A) : A :=
  match s with PENDING_DEMAND => for_demand p | CLUSTER_RESOURCE_CONSTRAINT => for_constraint p end.

Definition update_source {A} (s : ResourceRequestSource) (f : A → A) (p : per_source A) :
    per_source A :=
  match s with
  | PENDING_DEMAND => {| for_demand := f (for_demand p); for_constraint := for_constraint p |}
  | CLUSTER_RESOURCE_CONSTRAINT =>
      {| for_demand := for_demand p; for_constraint := f (for_constraint p) |}
  end.

(** ** [schema.py]: in-place resizing *)
Record IPPRGroupSpec : Type := { spec_max_cpu : float; spec_max_memory : Z }.

Module IPPRStatus.
Record t : Type := {
  cloud_instance_id : string;
  spec : IPPRGroupSpec;
  current_cpu : float; current_memory : Z;
  desired_cpu : float; desired_memory : Z;
  resizing_at : option Z;
  k8s_resize_status : option string;
  suggested_max_cpu : option float; suggested_max_memory : option Z;
  last_failed_at : option Z;
  raylet_id : option string
}.

Definition max_cpu (x : t) : float := default (spec_max_cpu (spec x)) (suggested_max_cpu x).
Definition max_memory (x : t) : Z := default (spec_max_memory (spec x)) (suggested_max_memory x).

Definition has_resize_request_to_send (x : t) : bool :=
  bool_decide (raylet_id x ≠ None) && bool_decide (k8s_resize_status x = Some "new").

Definition is_in_progress (x : t) : bool :=
  bool_decide (resizing_at x ≠ None) || has_resize_request_to_send x.

Definition is_k8s_resize_finished (x : t) : bool := bool_decide (k8s_resize_status x = None).
Definition is_raylet_synced (x : t) : bool := bool_decide (resizing_at x = None).

Definition can_resize_up (x : t) : bool :=
  bool_decide (last_failed_at x = None) && is_k8s_resize_finished x && is_raylet_synced x &&
  (f_ltb (current_cpu x) (max_cpu x) || (current_memory x <? max_memory x)).

(** [queue_resize_request] with both arguments. *)
Definition queue_resize_request (cpu : float) (memory : Z) (x : t) : t :=
  let updated := negb (f_eqb cpu (desired_cpu x)) || negb (memory =? desired_memory x) in
  {| cloud_instance_id := cloud_instance_id x; spec := spec x;
     current_cpu := current_cpu x; current_memory := current_memory x;
     desired_cpu := if f_eqb cpu (desired_cpu x) then desired_cpu x else cpu;
     desired_memory := memory;
     resizing_at := if updated then None else resizing_at x;
     k8s_resize_status := if updated then Some "new" else k8s_resize_status x;
     suggested_max_cpu := suggested_max_cpu x; suggested_max_memory := suggested_max_memory x;
     last_failed_at := last_failed_at x; raylet_id := raylet_id x |}.

Definition set_raylet_id (id : string) (x : t) : t :=
  {| cloud_instance_id := cloud_instance_id x; spec := spec x;
     current_cpu := current_cpu x; current_memory := current_memory x;
     desired_cpu := desired_cpu x; desired_memory := desired_memory x;
     resizing_at := resizing_at x; k8s_resize_status := k8s_resize_status x;
     suggested_max_cpu := suggested_max_cpu x; suggested_max_memory := suggested_max_memory x;
     last_failed_at := last_failed_at x; raylet_id := Some id |}.
End IPPRStatus.

Inductive SchedulingNodeStatus : Type := TO_LAUNCH | SCHEDULABLE | TO_TERMINATE.

#[export] Instance SchedulingNodeStatus_eq_dec : EqDecision SchedulingNodeStatus.
Proof. solve_decision. Defined.

(** ** [_fits], [_inplace_subtract] *)
Definition is_implicit (k : string) : bool := String.prefix IMPLICIT_RESOURCE_PREFIX k.

Definition implicit_default (k : string) : float :=
  if is_implicit k then f_one else f_zero.

Definition _fits (node request : resources) : bool :=
  forallb (λ kv : string * float,
    negb (f_ltb (default (implicit_default kv.1) (node !! kv.1)) kv.2)) (map_to_list request).

Definition subtract_one (node : resources) (kv : string * float) : result resources :=
  let '(k, v) := kv in
  if f_eqb v f_zero then Ok node
  else
    have ← (match node !! k with
            | Some have => Ok have
            | None => _ ← py_assert (is_implicit k); Ok f_one end);
    let rest := f_sub have v in
    _ ← py_assert (f_ge_int rest 0);
    Ok (<[k := rest]> node).

Definition _inplace_subtract (node request : resources) : result resources :=
  result_fold subtract_one node (map_to_list request).

Module SchedulingNode.
Record t : Type := {
  node_type : string;
  status : SchedulingNodeStatus;
  sched_requests : per_source (list ResourceRequest);
  available_resources_for_sched : per_source resources;
  total_resources : resources;
  ippr_status : option IPPRStatus.t;
  labels : label_map;
  termination_request : option TerminationRequest;
  im_instance_id : option string;
  im_instance_status : option InstanceStatus;
  ray_node_id : string;
  idle_duration_ms : Z;
  launch_config_hash : string;
  node_kind : NodeKind;
  priority : Z
}.

(** The assignments of the source, one attribute group at a time. *)
Definition set_capacity (av : per_source resources) (total : resources) (x : t) : t := {|
  node_type := node_type x; status := status x; sched_requests := sched_requests x;
  available_resources_for_sched := av; total_resources := total;
  ippr_status := ippr_status x; labels := labels x;
  termination_request := termination_request x; im_instance_id := im_instance_id x;
  im_instance_status := im_instance_status x; ray_node_id := ray_node_id x;
  idle_duration_ms := idle_duration_ms x; launch_config_hash := launch_config_hash x;
  node_kind := node_kind x; priority := priority x |}.

Definition set_requests (rs : per_source (list ResourceRequest)) (x : t) : t := {|
  node_type := node_type x; status := status x; sched_requests := rs;
  available_resources_for_sched := available_resources_for_sched x;
  total_resources := total_resources x; ippr_status := ippr_status x; labels := labels x;
  termination_request := termination_request x; im_instance_id := im_instance_id x;
  im_instance_status := im_instance_status x; ray_node_id := ray_node_id x;
  idle_duration_ms := idle_duration_ms x; launch_config_hash := launch_config_hash x;
  node_kind := node_kind x; priority := priority x |}.

Definition set_labels (l : label_map) (x : t) : t := {|
  node_type := node_type x; status := status x; sched_requests := sched_requests x;
  available_resources_for_sched := available_resources_for_sched x;
  total_resources := total_resources x; ippr_status := ippr_status x; labels := l;
  termination_request := termination_request x; im_instance_id := im_instance_id x;
  im_instance_status := im_instance_status x; ray_node_id := ray_node_id x;
  idle_duration_ms := idle_duration_ms x; launch_config_hash := launch_config_hash x;
  node_kind := node_kind x; priority := priority x |}.

Definition set_ippr (i : option IPPRStatus.t) (x : t) : t := {|
  node_type := node_type x; status := status x; sched_requests := sched_requests x;
  available_resources_for_sched := available_resources_for_sched x;
  total_resources := total_resources x; ippr_status := i; labels := labels x;
  termination_request := termination_request x; im_instance_id := im_instance_id x;
  im_instance_status := im_instance_status x; ray_node_id := ray_node_id x;
  idle_duration_ms := idle_duration_ms x; launch_config_hash := launch_config_hash x;
  node_kind := node_kind x; priority := priority x |}.

(** [status = TO_TERMINATE] with the request for [cause]. *)
Definition terminate (cause : Cause) (x : t) : t := {|
  node_type := node_type x; status := TO_TERMINATE; sched_requests := sched_requests x;
  available_resources_for_sched := available_resources_for_sched x;
  total_resources := total_resources x; ippr_status := ippr_status x; labels := labels x;
  termination_request := Some {|
    tr_instance_id := im_instance_id x; tr_ray_node_id := ray_node_id x;
    tr_instance_type := node_type x; tr_instance_status := im_instance_status x;
    tr_cause := cause |};
  im_instance_id := im_instance_id x;
  im_instance_status := im_instance_status x; ray_node_id := ray_node_id x;
  idle_duration_ms := idle_duration_ms x; launch_config_hash := launch_config_hash x;
  node_kind := node_kind x; priority := priority x |}.

Definition get_available_resources (s : ResourceRequestSource) (x : t) : resources :=
  at_source s (available_resources_for_sched x).

Definition get_sched_requests (s : ResourceRequestSource) (x : t) : list ResourceRequest :=
  at_source s (sched_requests x).

(** One entry of [update_total_resources]. *)
Definition update_total (kv : string * float) (x : t) : t :=
  let '(k, new_total) := kv in
  let delta := f_sub new_total (default f_zero (total_resources x !! k)) in
  let bump av := <[k := f_max0 (f_add (default f_zero (av !! k)) delta)]> av in
  let av := available_resources_for_sched x in
  set_capacity {| for_demand := bump (for_demand av); for_constraint := bump (for_constraint av) |}
    (<[k := f_max0 new_total]> (total_resources x)) x.

Definition update_total_resources (l : list (string * float)) (x : t) : t :=
  foldl (λ x kv, update_total kv x) x l.

(** ** Scheduling requests *)

(** [self._satisfies_label_constraints] for one constraint. *)
Definition constraint_passes (x : t) (c : LabelSelectorConstraint) : bool :=
  let in_values := match labels x !! label_key c with
    | Some v => bool_decide (v ∈ label_values c) | None => false end in
  match operator c with
  | LABEL_OPERATOR_IN => in_values
  | LABEL_OPERATOR_NOT_IN => negb in_values
  | LABEL_OPERATOR_UNSPECIFIED => false
  end.

(** The selectors from index [i] of [num_selectors]. *)
Fixpoint first_selector (x : t) (num_selectors i : Z)
    (selectors : list (list LabelSelectorConstraint)) : option Z :=
  match selectors with
  | [] => None
  | s :: selectors =>
      if forallb (constraint_passes x) s then Some (num_selectors - i)
      else first_selector x num_selectors (i + 1) selectors
  end.

Fixpoint _satisfies_label_constraints (x : t) (sched_requests : list ResourceRequest) : Z :=
  match sched_requests with
  | [] => 0
  | req :: rest =>
      match first_selector x (Z.of_nat (length (label_selectors req))) 0 (label_selectors req) with
      | Some score => score
      | None => _satisfies_label_constraints x rest
      end
  end.

Definition add_sched_request (r : ResourceRequest) (s : ResourceRequestSource) (x : t) : t :=
  set_requests (update_source s (λ l, l ++ [r]) (sched_requests x)) x.

Definition _add_label (x : t) (nv : string * string) : result t :=
  _ ← py_assert (match labels x !! nv.1 with Some v => bool_decide (v = nv.2) | None => true end);
  Ok (set_labels (<[nv.1 := nv.2]> (labels x)) x).

(** A label the constraint forbids is on the node. *)
Definition conflicts (x : t) (c : PlacementConstraint) : bool :=
  match anti_affinity c with
  | Some (name, value) => bool_decide (labels x !! name = Some value)
  | None => false
  end.

(** [_try_schedule_one]: the changed node, or [None] where it returns
    [False]. *)
Definition _try_schedule_one (request : ResourceRequest) (s : ResourceRequestSource) (x : t) :
    result (option t) :=
  let available := get_available_resources s x in
  if bool_decide (label_selectors request ≠ []) && (_satisfies_label_constraints x [request] =? 0)
  then Ok None
  else if existsb (conflicts x) (placement_constraints request) then Ok None
  else if negb (_fits available (resources_bundle request)) then Ok None
  else
    rest ← _inplace_subtract available (resources_bundle request);
    let x := set_capacity (update_source s (λ _, rest) (available_resources_for_sched x))
      (total_resources x) x in
    let x := add_sched_request request s x in
    x ← result_fold _add_label x (omap anti_affinity (placement_constraints request));
    Ok (Some x).

(** The loop of [try_schedule]: [cache] holds the shapes of
    [UnschedulableRequestCache]. *)
Fixpoint schedule_loop (s : ResourceRequestSource) (x : t) (cache : list ResourceRequest)
    (requests : list ResourceRequest) : result (t * list ResourceRequest) :=
  match requests with
  | [] => Ok (x, [])
  | r :: requests =>
      if bool_decide (r ∈ cache) then
        p ← schedule_loop s x cache requests; Ok (p.1, r :: p.2)
      else
        o ← _try_schedule_one r s x;
        match o with
        | None => p ← schedule_loop s x (r :: cache) requests; Ok (p.1, r :: p.2)
        | Some x' =>
            let cache := if (size (labels x) <? size (labels x'))%nat then [] else cache in
            schedule_loop s x' cache requests
        end
  end.

(** ** Scores *)
Section score.
Context `{Platform}.

(** [min(l)]: the first of the least elements. *)
Definition f_min (l : list float) : float :=
  match l with [] => f_zero | x :: l => foldl (λ m y, if f_ltb y m then y else m) x l end.

Definition f_mean (l : list float) : float :=
  match l with [] => f_zero | _ => f_div (f_sum l) (f_of_int (Z.of_nat (length l))) end.

(** The weighted utilizations of the resources. *)
Definition utils (total available : resources) : result (list float) :=
  result_map (λ kva : string * float * float,
      let v := kva.1.2 in
      let util := f_div (f_sub v kva.2) v in
      _ ← py_assert (f_leb f_zero util && f_leb util f_one);
      Ok (f_mul v (f_cube util)))
    (omap (λ kv : string * float, if f_eqb kv.2 f_zero then None
       else (λ a, (kv, a)) <$> available !! kv.1) (map_to_list total)).

(** The resource types requested in a positive amount. *)
Definition positive_types (requests : list ResourceRequest) : gset string :=
  ⋃ map (λ r, dom (filter (λ kv : string * float, f_ltb f_zero kv.2 = true) (resources_bundle r)))
    requests.

Record score : Type := {
  matches_labels : Z;
  gpu_ok : bool;
  num_matching_resource_types : Z;
  min_util : float;
  mean_util : float
}.

Definition _compute_score (s : ResourceRequestSource) (x : t) : result score :=
  let requests := get_sched_requests s x in
  us ← utils (total_resources x) (get_available_resources s x);
  let is_gpu_node := f_gt_int (default f_zero (total_resources x !! "GPU")) 0 in
  let any_gpu := existsb (λ r, bool_decide ("GPU" ∈ dom (resources_bundle r))) requests in
  Ok {| matches_labels := _satisfies_label_constraints x requests;
        gpu_ok := negb (conserve_gpu_nodes && is_gpu_node && negb any_gpu);
        num_matching_resource_types :=
          Z.of_nat (size (positive_types requests ∩ dom (total_resources x)));
        min_util := f_min us; mean_util := f_mean us |}.

Definition try_schedule (requests : list ResourceRequest) (s : ResourceRequestSource) (x : t) :
    result (t * list ResourceRequest * score) :=
  p ← schedule_loop s x [] requests;
  sc ← _compute_score s p.1;
  Ok (p.1, p.2, sc).
End score.
End SchedulingNode.
