(* ===== verification/Scheduler.v ===== *)
(** * [autoscaler/v2/scheduler.py]: the resource demand scheduler

    [ScheduleContext] and the steps of [ResourceDemandScheduler.schedule], with
    the helpers of [ResourceRequestUtil].  A node is an object: the context
    holds a list in which the same object may occur several times (the
    nodes [_enforce_min_workers_per_type] adds), [copy.deepcopy] of the whole
    list keeps that sharing, and a mutation reaches every occurrence. *)
From S2P Require Import Prelude PyDict PyStr PyFloat InstanceUtil SchedNode.

(** ** Comparing keys as Python compares tuples, and [sorted] *)
Section lexicographic.
(** [a < b] for pairs whose first components compare with [lt] and [eq]. *)
Definition tuple_lt {A B} (eq lt : A → A → bool) (lt' : B → B → bool) (x y : A * B) : bool :=
  if eq x.1 y.1 then lt' x.2 y.2 else lt x.1 y.1.

Definition tuple_eq {A B} (eq : A → A → bool) (eq' : B → B → bool) (x y : A * B) : bool :=
  eq x.1 y.1 && eq' x.2 y.2.

Fixpoint list_lt {A} (eq lt : A → A → bool) (l k : list A) : bool :=
  match l, k with
  | [], _ :: _ => true
  | x :: l, y :: k => if eq x y then list_lt eq lt l k else lt x y
  | _, [] => false
  end.

Fixpoint list_eq {A} (eq : A → A → bool) (l k : list A) : bool :=
  match l, k with
  | [], [] => true
  | x :: l, y :: k => eq x y && list_eq eq l k
  | _, _ => false
  end.

Definition bool_lt (a b : bool) : bool := negb a && b.
Definition str_lt (a b : string) : bool := bool_decide ((a ≤ b)%string ∧ a ≠ b).
End lexicographic.

(** ** Messages of one scheduling request *)
Record NodeTypeConfig : Type := {
  name : string;
  min_worker_nodes : Z;
  max_worker_nodes : Z;
  config_idle_timeout_s : option float;
  config_priority : Z;
  config_resources : resources;
  config_labels : label_map;
  config_launch_hash : string
}.

Record NodeState : Type := {
  ns_total_resources : resources;
  ns_available_resources : resources;
  ns_labels : label_map;
  ns_dynamic_labels : label_map;
  ns_idle_duration_ms : Z
}.

Record AutoscalerInstance : Type := {
  ai_cloud_instance_id : option string;
  ray_node : option NodeState;
  im_instance : option InstanceMsg
}.

Record GangResourceRequest : Type := {
  gang_requests : list ResourceRequest;
  bundle_selectors : list (list ResourceRequest)
}.

Abbreviation by_count := (list (ResourceRequest * Z)).

Record SchedulingRequest : Type := {
  disable_launch_config_check : bool;
  node_type_configs : dict string NodeTypeConfig;
  max_num_nodes : option Z;
  idle_timeout_s : option float;
  resource_requests : by_count;
  gang_resource_requests : list GangResourceRequest;
  cluster_resource_constraints : list by_count;
  current_instances : list AutoscalerInstance;
  cloud_resource_availabilities : dict string float;
  recoverable_resource_availabilities : dict string float;
  ippr_specs : option (dict string IPPRGroupSpec);
  ippr_statuses : dict string IPPRStatus.t
}.

Record SchedulingReply : Type := {
  to_launch : list (string * Z);
  to_ippr : list IPPRStatus.t;
  to_terminate : list TerminationRequest;
  reply_cluster_resources : resources;
  infeasible_resource_requests : list ResourceRequest;
  infeasible_gang_resource_requests : list GangResourceRequest;
  infeasible_cluster_resource_constraints : list by_count
}.

(** ** [ResourceRequestUtil] *)
Module ResourceRequestUtil.

Definition ungroup_by_count (l : by_count) : list ResourceRequest :=
  concat (map (λ rc, replicate (Z.to_nat rc.2) rc.1) l).

(** [_label_selector_key]: the values of each constraint sorted. *)
Definition _label_selector_key (l : list (list LabelSelectorConstraint)) :
    list (list (string * LabelSelectorOperator * list string)) :=
  map (map (λ c, (label_key c, operator c, py_sorted (label_values c)))) l.

Definition affinity_key : Type :=
  string * string * list (list (string * LabelSelectorOperator * list string)).

(** The resource bundles of a group added up. *)
Definition merge_bundles (rs : list ResourceRequest) : resources :=
  foldl (λ m r, foldl (λ m kv, <[kv.1 := f_add (default f_zero (m !! kv.1)) kv.2]> m) m
    (map_to_list (resources_bundle r))) ∅ rs.

Definition combined_request (e : affinity_key * list ResourceRequest) : ResourceRequest := {|
  resources_bundle := merge_bundles e.2;
  placement_constraints := [{| anti_affinity := None; affinity := Some (e.1.1) |}];
  label_selectors := match e.2 with r :: _ => label_selectors r | [] => [] end |}.

(** The loop over the requests: those kept as they are, and the groups. *)
Definition combine_step (st : list ResourceRequest * dict affinity_key (list ResourceRequest))
    (r : ResourceRequest) :
    result (list ResourceRequest * dict affinity_key (list ResourceRequest)) :=
  match placement_constraints r with
  | [] => Ok (st.1 ++ [r], st.2)
  | [c] =>
      match affinity c with
      | Some nv =>
          let key := (nv, _label_selector_key (label_selectors r)) in
          Ok (st.1, dset st.2 key (default [] (dget st.2 key) ++ [r]))
      | None =>
          match anti_affinity c with
          | Some _ => Ok (st.1 ++ [r], st.2)
          | None => Ok st
          end
      end
  | _ => Raise AssertionError
  end.

Definition combine_requests_with_affinity (l : list ResourceRequest) :
    result (list ResourceRequest) :=
  st ← result_fold combine_step ([], []) l;
  Ok (st.1 ++ map combined_request st.2).
End ResourceRequestUtil.

(** ** Nodes of one request *)

(** [SchedulingNode(...)] with the arguments the callers pass; the others have
    their defaults. *)
Definition make_node (ty : string) (total available : resources) (l : label_map)
    (st : SchedulingNodeStatus) (id : option string) (im_status : option InstanceStatus)
    (ray_id : string) (idle : Z) (hash : string) (kind : NodeKind)
    (term : option TerminationRequest) (prio : Z) : SchedulingNode.t := {|
  SchedulingNode.node_type := ty;
  SchedulingNode.status := st;
  SchedulingNode.sched_requests := {| for_demand := []; for_constraint := [] |};
  SchedulingNode.available_resources_for_sched :=
    {| for_demand := available; for_constraint := total |};
  SchedulingNode.total_resources := total;
  SchedulingNode.ippr_status := None;
  SchedulingNode.labels := l;
  SchedulingNode.termination_request := term;
  SchedulingNode.im_instance_id := id;
  SchedulingNode.im_instance_status := im_status;
  SchedulingNode.ray_node_id := ray_id;
  SchedulingNode.idle_duration_ms := idle;
  SchedulingNode.launch_config_hash := hash;
  SchedulingNode.node_kind := kind;
  SchedulingNode.priority := prio |}.

Definition from_node_config (c : NodeTypeConfig) (st : SchedulingNodeStatus) (kind : NodeKind)
    (id : option string) (im_status : option InstanceStatus) : SchedulingNode.t :=
  make_node (name c) (config_resources c) (config_resources c) (config_labels c) st id im_status
    "" 0 "" kind None (config_priority c).

Definition is_schedulable (instance : AutoscalerInstance) : bool :=
  match im_instance instance with
  | None => false
  | Some im => InstanceUtil.is_ray_running_reachable (status im)
  end.

(** [SchedulingNode.new] for an instance with the record [im]. *)
Definition new_from (instance : AutoscalerInstance) (im : InstanceMsg)
    (configs : dict string NodeTypeConfig) (disable_launch_config_check : bool) :
    option SchedulingNode.t :=
  let node_config := dget configs (instance_type im) in
  if bool_decide (status im = RAY_RUNNING) then
    match ray_node instance with
    | None => None
    | Some rn => Some (make_node (instance_type im) (ns_total_resources rn)
        (ns_available_resources rn) (ns_dynamic_labels rn ∪ ns_labels rn) SCHEDULABLE
        (Some (instance_id im)) (Some (status im)) (node_id im) (ns_idle_duration_ms rn)
        (launch_config_hash im) (node_kind im) None
        (match node_config with Some c => config_priority c | None => 0 end))
    end
  else
    match node_config with
    | None =>
        if disable_launch_config_check then None
        else Some (make_node (instance_type im) ∅ ∅ ∅ TO_TERMINATE (Some (instance_id im))
          (Some (status im)) "" 0 "" WORKER
          (Some {| tr_instance_id := Some (instance_id im); tr_ray_node_id := "";
                   tr_instance_type := instance_type im;
                   tr_instance_status := Some (status im); tr_cause := OUTDATED |}) 0)
    | Some c => Some (from_node_config c SCHEDULABLE (node_kind im) (Some (instance_id im))
        (Some (status im)))
    end.

Definition new (instance : AutoscalerInstance) (configs : dict string NodeTypeConfig)
    (disable_launch_config_check : bool) : option SchedulingNode.t :=
  if is_schedulable instance then
    im ← im_instance instance; new_from instance im configs disable_launch_config_check
  else None.

(** A node object: its identity and its fields. *)
Abbreviation obj := (nat * SchedulingNode.t)%type.

(** ** [ScheduleContext] *)
Module ScheduleContext.
Record t : Type := {
  _node_type_configs : dict string NodeTypeConfig;
  _disable_launch_config_check : bool;
  _max_num_nodes : option Z;
  _idle_timeout_s : option float;
  _nodes : list obj;
  _node_type_available : dict string Z;
  _ippr_specs : option (dict string IPPRGroupSpec);
  _cloud_resource_availabilities : dict string float;
  _recoverable_resource_availabilities : dict string float;
  (** The next identity. *)
  next_id : nat
}.

Definition count_type (ty : string) (nodes : list obj) : Z :=
  Z.of_nat (length (filter (λ o, SchedulingNode.node_type o.2 = ty) nodes)).

Definition _compute_available_node_types (nodes : list obj)
    (configs : dict string NodeTypeConfig) : dict string Z :=
  map (λ c, (c.1, max_worker_nodes c.2 - count_type c.1 nodes)) configs.

(** [get_nodes] is [_nodes]: a deep copy keeps the sharing. *)
Definition get_nodes (x : t) : list obj := _nodes x.

Definition update (nodes : list obj) (next : nat) (x : t) : t := {|
  _node_type_configs := _node_type_configs x;
  _disable_launch_config_check := _disable_launch_config_check x;
  _max_num_nodes := _max_num_nodes x; _idle_timeout_s := _idle_timeout_s x;
  _nodes := nodes;
  _node_type_available := _compute_available_node_types nodes (_node_type_configs x);
  _ippr_specs := _ippr_specs x;
  _cloud_resource_availabilities := _cloud_resource_availabilities x;
  _recoverable_resource_availabilities := _recoverable_resource_availabilities x;
  next_id := next |}.

(** The in-place resize state of an instance, attached to its node. *)
Definition attach_ippr (req : SchedulingRequest) (instance : AutoscalerInstance)
    (n : SchedulingNode.t) : SchedulingNode.t :=
  match ai_cloud_instance_id instance, ippr_specs req with
  | Some id, Some groups =>
      match dget (ippr_statuses req) id, dget groups (SchedulingNode.node_type n) with
      | Some st, Some _ =>
          let st := if bool_decide (SchedulingNode.ray_node_id n = "") then st
                    else IPPRStatus.set_raylet_id (SchedulingNode.ray_node_id n) st in
          SchedulingNode.set_ippr (Some st) n
      | _, _ => n
      end
  | _, _ => n
  end.

Definition from_schedule_request (req : SchedulingRequest) : t :=
  let nodes := omap (λ i, attach_ippr req i <$>
      new i (node_type_configs req) (disable_launch_config_check req)) (current_instances req) in
  let nodes := imap pair nodes in {|
  _node_type_configs := node_type_configs req;
  _disable_launch_config_check := disable_launch_config_check req;
  _max_num_nodes := max_num_nodes req; _idle_timeout_s := idle_timeout_s req;
  _nodes := nodes;
  _node_type_available := _compute_available_node_types nodes (node_type_configs req);
  _ippr_specs := ippr_specs req;
  _cloud_resource_availabilities := cloud_resource_availabilities req;
  _recoverable_resource_availabilities := recoverable_resource_availabilities req;
  next_id := length nodes |}.

Definition active (o : obj) : Prop := SchedulingNode.status o.2 ≠ TO_TERMINATE.

#[global] Instance active_dec o : Decision (active o).
Proof. unfold active. apply _. Defined.

(** [get_cluster_shape().get(ty, 0)] *)
Definition get_cluster_shape (x : t) (ty : string) : Z := count_type ty (filter active (_nodes x)).

Definition get_cluster_resources (x : t) : resources :=
  foldl (λ m o, foldl (λ m kv, <[kv.1 := f_add (default f_zero (m !! kv.1)) kv.2]> m) m
    (map_to_list (SchedulingNode.total_resources o.2))) ∅ (filter active (_nodes x)).

Definition get_ippr_requests (x : t) : list IPPRStatus.t :=
  omap (λ o, st ← SchedulingNode.ippr_status o.2;
    if IPPRStatus.has_resize_request_to_send st then Some st else None) (_nodes x).

(** Types and counts; ids and times are not modelled. *)
Definition get_launch_requests (x : t) : list (string * Z) :=
  foldl (λ d o, if bool_decide (SchedulingNode.status o.2 = TO_LAUNCH)
      then dset d (SchedulingNode.node_type o.2)
        (default 0 (dget d (SchedulingNode.node_type o.2)) + 1)
      else d) [] (_nodes x).

Definition get_terminate_requests (x : t) : list TerminationRequest :=
  omap (λ o, SchedulingNode.termination_request o.2) (_nodes x).
End ScheduleContext.

(** ** [_sched_best_node] *)
Section best.
Context `{Platform}.

Definition is_zero (x : float) : bool := f_eqb x f_zero.

(** The signature of [NodeStateCache]; equal floats hash equally, so the zeros
    are one key. *)
Definition canonical (m : resources) : resources := (λ x, if is_zero x then f_zero else x) <$> m.

Definition state_key : Type := string * NodeKind * resources * resources * label_map.

Definition state_key_of (s : ResourceRequestSource) (n : SchedulingNode.t) : state_key :=
  (SchedulingNode.node_type n, SchedulingNode.node_kind n,
   canonical (SchedulingNode.total_resources n),
   canonical (SchedulingNode.get_available_resources s n), SchedulingNode.labels n).

(** [was_seen_or_mark]: whether it was seen, and the cache. *)
Definition was_seen_or_mark (s : ResourceRequestSource) (n : SchedulingNode.t)
    (seen : list state_key) : bool * list state_key :=
  if bool_decide (SchedulingNode.im_instance_status n = Some RAY_RUNNING) then (false, seen)
  else
    let k := state_key_of s n in
    if bool_decide (k ∈ seen) then (true, seen) else (false, k :: seen).

Record ScheduleResult : Type := {
  sr_node : SchedulingNode.t;
  infeasible_requests : list ResourceRequest;
  idx : nat;
  sr_score : SchedulingNode.score
}.

(** The loop over the candidates, from index [i]. *)
Fixpoint candidates (s : ResourceRequestSource) (requests : list ResourceRequest)
    (seen : list state_key) (i : nat) (nodes : list SchedulingNode.t) :
    result (list ScheduleResult) :=
  match nodes with
  | [] => Ok []
  | n :: nodes =>
      let '(known, seen) := was_seen_or_mark s n seen in
      if known : bool then candidates s requests seen (S i) nodes
      else
        r ← SchedulingNode.try_schedule requests s n;
        rest ← candidates s requests seen (S i) nodes;
        let '(n', remaining, sc) := r in
        if Nat.eqb (length remaining) (length requests) then Ok rest
        else Ok ({| sr_node := n'; infeasible_requests := remaining; idx := i;
                    sr_score := sc |} :: rest)
  end.

(** The sort key: score, recoverable availability, priority, availability. *)
Definition rank : Type := Z * (bool * (Z * (float * (float * (float * (Z * float)))))).

Definition rank_of (cloud recoverable : dict string float) (r : ScheduleResult) : rank :=
  let sc := sr_score r in
  let ty := SchedulingNode.node_type (sr_node r) in
  (SchedulingNode.matches_labels sc, (SchedulingNode.gpu_ok sc,
   (SchedulingNode.num_matching_resource_types sc, (SchedulingNode.min_util sc,
    (SchedulingNode.mean_util sc, (default f_one (dget recoverable ty),
     (SchedulingNode.priority (sr_node r), default f_one (dget cloud ty)))))))).

Definition rank_lt : rank → rank → bool :=
  tuple_lt Z.eqb Z.ltb (tuple_lt Bool.eqb bool_lt (tuple_lt Z.eqb Z.ltb (tuple_lt f_eqb f_ltb
    (tuple_lt f_eqb f_ltb (tuple_lt f_eqb f_ltb (tuple_lt Z.eqb Z.ltb f_ltb)))))).

(** The best node after placing requests on it, the requests that remain,
    and the position of the node. *)
Definition _sched_best_node (requests : list ResourceRequest) (nodes : list SchedulingNode.t)
    (s : ResourceRequestSource) (cloud recoverable : dict string float) :
    result (option (SchedulingNode.t * list ResourceRequest * nat)) :=
  results ← candidates s requests [] 0 nodes;
  match sort_by (λ a b, rank_lt (rank_of cloud recoverable b) (rank_of cloud recoverable a)) results with
  | [] => Ok None
  | best :: _ => Ok (Some (sr_node best, infeasible_requests best, idx best))
  end.

(** [nodes.pop(i)] *)
Definition pop {A} (i : nat) (l : list A) : list A := take i l ++ drop (S i) l.
End best.

(** ** [_try_schedule] *)
Section try_schedule.
Context `{Platform}.
Import ScheduleContext.

Definition request_key : Type := Z * (Z * (Z * (float * list (string * float)))).

Definition request_key_of (r : ResourceRequest) : request_key :=
  (Z.of_nat (length (placement_constraints r)),
   (match label_selectors r with sel :: _ => Z.of_nat (length sel) | [] => 0 end,
    (Z.of_nat (size (resources_bundle r)),
     (f_sum (map_to_list (resources_bundle r)).*2,
      sort_by (tuple_lt String.eqb str_lt f_ltb) (map_to_list (resources_bundle r)))))).

Definition request_lt (a b : ResourceRequest) : bool :=
  tuple_lt Z.eqb Z.ltb (tuple_lt Z.eqb Z.ltb (tuple_lt Z.eqb Z.ltb (tuple_lt f_eqb f_ltb
    (list_lt (tuple_eq String.eqb f_eqb) (tuple_lt String.eqb str_lt f_ltb)))))
    (request_key_of a) (request_key_of b).

(** Applies [f] to the object [id], wherever it occurs. *)
Definition mutate (id : nat) (f : SchedulingNode.t → SchedulingNode.t) (l : list obj) : list obj :=
  map (λ o, if decide (o.1 = id) then (o.1, f o.2) else o) l.

Definition resize_to (cpu : float) (memory : Z) : SchedulingNode.t → SchedulingNode.t :=
  SchedulingNode.update_total_resources [("CPU", cpu); ("memory", f_of_int memory)].

(** While a resize is in progress, the desired values are the capacity. *)
Definition expose_desired (l : list obj) : list obj :=
  foldl (λ l (o : obj), match SchedulingNode.ippr_status o.2 with
    | Some st => if IPPRStatus.is_in_progress st
                 then mutate o.1 (resize_to (IPPRStatus.desired_cpu st) (IPPRStatus.desired_memory st)) l
                 else l
    | None => l end) l l.

(** The loop over existing nodes; each iteration removes one, so their number
    bounds it.  Returns the chosen nodes, the remaining requests, the nodes
    left and the next identity. *)
Fixpoint existing_loop (fuel : nat) (x : t) (s : ResourceRequestSource)
    (requests : list ResourceRequest) (existing : list obj) (next : nat) :
    result (list obj * list ResourceRequest * list obj * nat) :=
  match fuel with
  | O => Ok ([], requests, existing, next)
  | S fuel =>
      if Nat.eqb (length requests) 0 || Nat.eqb (length existing) 0
      then Ok ([], requests, existing, next)
      else
        b ← _sched_best_node requests existing.*2 s (_cloud_resource_availabilities x)
              (_recoverable_resource_availabilities x);
        match b with
        | None => Ok ([], requests, existing, next)
        | Some (best, remaining, i) =>
            r ← existing_loop fuel x s remaining (pop i existing) (S next);
            let '(chosen, requests, existing, next') := r in
            Ok ((next, best) :: chosen, requests, existing, next')
        end
  end.

Definition resizable (o : obj) : bool :=
  match SchedulingNode.ippr_status o.2 with
  | Some st => IPPRStatus.can_resize_up st | None => false end.

Definition cloud_id (o : obj) : string :=
  match SchedulingNode.ippr_status o.2 with
  | Some st => IPPRStatus.cloud_instance_id st | None => "" end.

(** The capacity of a candidate at its maximum. *)
Definition expose_max (n : SchedulingNode.t) : SchedulingNode.t :=
  match SchedulingNode.ippr_status n with
  | Some st => resize_to (IPPRStatus.max_cpu st) (IPPRStatus.max_memory st) n
  | None => n end.

Definition queue_max (n : SchedulingNode.t) : SchedulingNode.t :=
  SchedulingNode.set_ippr ((λ st, IPPRStatus.queue_resize_request (IPPRStatus.max_cpu st)
    (IPPRStatus.max_memory st) st) <$> SchedulingNode.ippr_status n) n.

(** The loop over the resizable nodes: the chosen nodes, the remaining
    requests, the originals of the nodes not chosen. *)
Fixpoint ippr_loop (fuel : nat) (x : t) (s : ResourceRequestSource)
    (requests : list ResourceRequest) (cands : list obj) (originals : dict string obj) (next : nat) :
    result (list obj * list ResourceRequest * dict string obj * nat) :=
  match fuel with
  | O => Ok ([], requests, originals, next)
  | S fuel =>
      if Nat.eqb (length requests) 0 || Nat.eqb (length cands) 0
      then Ok ([], requests, originals, next)
      else
        b ← _sched_best_node requests cands.*2 s (_cloud_resource_availabilities x)
              (_recoverable_resource_availabilities x);
        match b with
        | None => Ok ([], requests, originals, next)
        | Some (best, remaining, i) =>
            let best := (next, queue_max best) in
            r ← ippr_loop fuel x s remaining (pop i cands) (ddel originals (cloud_id best)) (S next);
            let '(chosen, requests, originals, next') := r in
            Ok (best :: chosen, requests, originals, next')
        end
  end.

(** [max(a, b)] of Python floats. *)
Definition f_max (a b : float) : float := if f_ltb a b then b else a.

Definition _to_launch_node_with_ippr_caps (x : t) (ty : string) : result SchedulingNode.t :=
  c ← or_raise KeyError (dget (_node_type_configs x) ty);
  let n := from_node_config c TO_LAUNCH WORKER None None in
  match groups ← _ippr_specs x; dget groups ty with
  | Some g => Ok (SchedulingNode.update_total_resources
      [("CPU", f_max (spec_max_cpu g) (default f_zero (SchedulingNode.total_resources n !! "CPU")));
       ("memory", f_max (f_of_int (spec_max_memory g))
         (default f_zero (SchedulingNode.total_resources n !! "memory")))] n)
  | None => Ok n
  end.

(** [max_num_nodes is not None and len(target_nodes) >= max_num_nodes] *)
Definition max_reached (x : t) (targets : nat) : bool :=
  match _max_num_nodes x with Some m => m <=? Z.of_nat targets | None => false end.

(** The loop over new nodes: each iteration launches one, so what the pool may
    launch bounds it.  [targets] is the number of target nodes so far. *)
Fixpoint launch_loop (fuel : nat) (x : t) (s : ResourceRequestSource)
    (requests : list ResourceRequest) (pools : list SchedulingNode.t)
    (available : dict string Z) (targets next : nat) :
    result (option (list obj * list ResourceRequest * nat)) :=
  match fuel with
  | O => Ok None
  | S fuel =>
      if Nat.eqb (length requests) 0 || Nat.eqb (length pools) 0 || max_reached x targets
      then Ok (Some ([], requests, next))
      else
        b ← _sched_best_node requests pools s (_cloud_resource_availabilities x)
              (_recoverable_resource_availabilities x);
        match b with
        | None => Ok (Some ([], requests, next))
        | Some (best, remaining, i) =>
            let ty := SchedulingNode.node_type best in
            let left := default 0 (dget available ty) - 1 in
            let pools := pop i pools in
            pools ← (if 0 <? left
                     then n ← _to_launch_node_with_ippr_caps x ty; Ok (pools ++ [n])
                     else Ok pools);
            o ← launch_loop fuel x s remaining pools (dset available ty left) (S targets) (S next);
            match o with
            | None => Ok None
            | Some (launched, requests, next') => Ok (Some ((next, best) :: launched, requests, next'))
            end
        end
  end.

(** The number of nodes that the availabilities allow. *)
Definition launchable (available : dict string Z) : nat :=
  sum_list (map (λ kv, Z.to_nat kv.2) available).

(** [_try_schedule]: the target nodes, the requests that remain, and the next
    identity; [None] never occurs. *)
Definition _try_schedule (x : t) (requests : list ResourceRequest) (s : ResourceRequestSource) :
    result (option (list obj * list ResourceRequest * nat)) :=
  let requests := sort_by (λ a b, request_lt b a) requests in
  let existing := expose_desired (get_nodes x) in
  r ← existing_loop (length existing) x s requests existing (next_id x);
  let '(chosen, requests, existing, next) := r in
  let existing := chosen ++ existing in
  let targets := filter (λ o, resizable o = false) existing in
  let cands := filter (λ o, resizable o = true) existing in
  let originals := dict_of (map (λ o, (cloud_id o, o)) cands) in
  r ← ippr_loop (length cands) x s requests (map (λ o, (o.1, expose_max o.2)) cands) originals next;
  let '(resized, requests, originals, next) := r in
  let targets := targets ++ resized ++ originals.*2 in
  let available := _node_type_available x in
  pools ← result_map (λ kv, _to_launch_node_with_ippr_caps x kv.1)
    (filter (λ kv : string * Z, 0 < kv.2) available);
  o ← launch_loop (S (length pools + launchable available)) x s requests pools available
        (length targets) next;
  Ok (match o with
      | None => None
      | Some (launched, requests, next) => Some (targets ++ launched, requests, next)
      end).
End try_schedule.

(** ** [ResourceDemandScheduler] *)
Module ResourceDemandScheduler.
Section scheduler.
Context `{Platform}.
Import ScheduleContext.
Implicit Types (x : t).

Definition is_outdated (x : t) (n : SchedulingNode.t) : bool :=
  match dget (_node_type_configs x) (SchedulingNode.node_type n) with
  | None => true
  | Some c => bool_decide (config_launch_hash c ≠ "") &&
              bool_decide (config_launch_hash c ≠ SchedulingNode.launch_config_hash n)
  end.

Definition _terminate_outdated_nodes (x : t) : t :=
  if _disable_launch_config_check x then x
  else
    let nodes := map (λ o : obj,
      let n := o.2 in
      if bool_decide (SchedulingNode.status n = SCHEDULABLE) &&
         negb (bool_decide (SchedulingNode.node_kind n = HEAD)) && is_outdated x n
      then (o.1, SchedulingNode.terminate OUTDATED n) else o) (get_nodes x) in
    update nodes (next_id x) x.

(** [[node] * k]: one object, [k] times. *)
Fixpoint min_nodes (x : t) (configs : dict string NodeTypeConfig) (next : nat) : list obj * nat :=
  match configs with
  | [] => ([], next)
  | (ty, c) :: configs =>
      let cur_count := get_cluster_shape x ty in
      let '(rest, next') := min_nodes x configs (S next) in
      (replicate (Z.to_nat (min_worker_nodes c - cur_count))
         (next, from_node_config c TO_LAUNCH WORKER None None) ++ rest, next')
  end.

Definition _enforce_min_workers_per_type (x : t) : t :=
  let '(new_nodes, next) := min_nodes x (_node_type_configs x) (next_id x) in
  update (new_nodes ++ get_nodes x) next x.

(** *** Selecting nodes to terminate *)
Definition termination_key (n : SchedulingNode.t) : bool * (Z * float) :=
  let available := SchedulingNode.get_available_resources PENDING_DEMAND n in
  let utils := omap (λ kv : string * float,
      if f_ltb f_zero kv.2
      then Some (f_div (f_sub kv.2 (default f_zero (available !! kv.1))) kv.2) else None)
    (map_to_list (SchedulingNode.total_resources n)) in
  (bool_decide (SchedulingNode.ray_node_id n ≠ ""),
   (-1 * SchedulingNode.idle_duration_ms n, SchedulingNode.f_mean utils)).

Definition termination_lt (a b : obj) : bool :=
  tuple_lt Bool.eqb bool_lt (tuple_lt Z.eqb Z.ltb f_ltb) (termination_key a.2) (termination_key b.2).

(** The first head node, and the list without it. *)
Fixpoint pop_head (l : list obj) : option obj * list obj :=
  match l with
  | [] => (None, [])
  | o :: l =>
      if bool_decide (SchedulingNode.node_kind o.2 = HEAD) then (Some o, l)
      else let '(h, l) := pop_head l in (h, o :: l)
  end.

(** The nodes terminated and the nodes that remain; the mutation reaches
    every occurrence of a terminated object. *)
Definition _select_nodes_to_terminate (nodes : list obj) (num_to_terminate : Z) (cause : Cause) :
    list obj * list obj :=
  let '(head, nodes) := pop_head (sort_by termination_lt nodes) in
  let terminated := take (Z.to_nat num_to_terminate) nodes in
  let remained := drop (Z.to_nat num_to_terminate) nodes ++ option_list head in
  let marks := map (λ o : obj, if bool_decide (o.1 ∈ terminated.*1)
                               then (o.1, SchedulingNode.terminate cause o.2) else o) in
  (marks terminated, marks remained).

Definition terminating (o : obj) : Prop := SchedulingNode.status o.2 = TO_TERMINATE.

#[global] Instance terminating_dec o : Decision (terminating o).
Proof. unfold terminating. apply _. Defined.

(** The groups of [non_terminating_nodes_by_type], in order. *)
Definition group_by_type (l : list obj) : dict string (list obj) :=
  foldl (λ d o, dset d (SchedulingNode.node_type o.2)
    (default [] (dget d (SchedulingNode.node_type o.2)) ++ [o])) [] l.

(** The loop over the types: the nodes it terminates, and those it keeps. *)
Fixpoint max_per_type (x : t) (groups : dict string (list obj)) :
    result (list obj * list obj) :=
  match groups with
  | [] => Ok ([], [])
  | (ty, nodes) :: groups =>
      c ← or_raise KeyError (dget (_node_type_configs x) ty);
      let extra := Z.of_nat (length nodes) - max_worker_nodes c in
      let '(term, kept) := if extra <=? 0 then ([], nodes)
        else _select_nodes_to_terminate nodes extra MAX_NUM_NODE_PER_TYPE in
      rest ← max_per_type x groups;
      Ok (term ++ rest.1, kept ++ rest.2)
  end.

Definition _enforce_max_workers_per_type (x : t) : result t :=
  let all_nodes := get_nodes x in
  let terminating_nodes := filter terminating all_nodes in
  r ← max_per_type x (group_by_type (filter active all_nodes));
  let nodes := (terminating_nodes ++ r.1) ++ r.2 in
  _ ← py_assert (Nat.eqb (length all_nodes) (length nodes));
  Ok (update nodes (next_id x) x).

Definition _enforce_max_workers_global (x : t) : result t :=
  let all_nodes := get_nodes x in
  let terminating_nodes := filter terminating all_nodes in
  let non_terminating_nodes := filter active all_nodes in
  let num_to_terminate := match _max_num_nodes x with
    | Some m => if m =? 0 then 0 else Z.max (Z.of_nat (length non_terminating_nodes) - m) 0
    | None => 0 end in
  if num_to_terminate <=? 0 then Ok x
  else
    let '(term, kept) :=
      _select_nodes_to_terminate non_terminating_nodes num_to_terminate MAX_NUM_NODES in
    _ ← py_assert (Z.of_nat (length term) =? num_to_terminate);
    let nodes := (terminating_nodes ++ term) ++ kept in
    _ ← py_assert (Nat.eqb (length all_nodes) (length nodes));
    Ok (update nodes (next_id x) x).

(** *** Placing requests *)

(** Updating the context with what [_try_schedule] returns. *)
Definition place (x : t) (requests : list ResourceRequest) (s : ResourceRequestSource) :
    result (option (t * list ResourceRequest)) :=
  o ← _try_schedule x requests s;
  Ok (match o with
      | None => None
      | Some (nodes, infeasible, next) => Some (update nodes next x, infeasible) end).

Definition _enforce_resource_constraints (x : t) (constraints : list by_count) :
    result (option (t * list by_count)) :=
  _ ← py_assert (Nat.leb (length constraints) 1);
  match constraints with
  | [] => Ok (Some (x, []))
  | constraint :: _ =>
      o ← place x (ResourceRequestUtil.ungroup_by_count constraint) CLUSTER_RESOURCE_CONSTRAINT;
      Ok (match o with
          | None => None
          | Some (x', []) => Some (x', [])
          | Some (_, _ :: _) => Some (x, [constraint])
          end)
  end.

Definition _sched_resource_requests (x : t) (requests : list ResourceRequest) :
    result (option (t * list ResourceRequest)) :=
  place x requests PENDING_DEMAND.

Definition gang_key (g : GangResourceRequest) : Z * Z :=
  (sumZ (map (λ r, Z.of_nat (length (placement_constraints r))) (gang_requests g)),
   Z.of_nat (length (gang_requests g))).

Definition gang_lt (a b : GangResourceRequest) : bool :=
  tuple_lt Z.eqb Z.ltb Z.ltb (gang_key a) (gang_key b).

(** The requests of a gang, those with one affinity combined. *)
Definition gang_bundle (g : GangResourceRequest) : result (list ResourceRequest) :=
  ResourceRequestUtil.combine_requests_with_affinity
    (match bundle_selectors g with b :: _ => b | [] => gang_requests g end).

Fixpoint gang_loop (x : t) (gangs : list GangResourceRequest) :
    result (option (t * list GangResourceRequest)) :=
  match gangs with
  | [] => Ok (Some (x, []))
  | g :: gangs =>
      requests ← gang_bundle g;
      o ← place x requests PENDING_DEMAND;
      match o with
      | None => Ok None
      | Some (x', []) => gang_loop x' gangs
      | Some (_, _ :: _) =>
          r ← gang_loop x gangs;
          Ok (option_map (λ r, (r.1, g :: r.2)) r)
      end
  end.

Definition _sched_gang_resource_requests (x : t) (gangs : list GangResourceRequest) :
    result (option (t * list GangResourceRequest)) :=
  gang_loop x (sort_by (λ a b, gang_lt b a) gangs).

(** *** Idle nodes *)

(** The idle timeout of a node, that of its type first. *)
Definition idle_timeout_of (x : t) (ty : string) : option float :=
  match c ← dget (_node_type_configs x) ty; config_idle_timeout_s c with
  | Some s => Some s
  | None => _idle_timeout_s x end.

(** Whether the node has been idle too long and nothing was placed on it. *)
Definition idle_too_long (x : t) (n : SchedulingNode.t) : bool :=
  bool_decide (SchedulingNode.status n = SCHEDULABLE) &&
  negb (bool_decide (SchedulingNode.node_kind n = HEAD)) &&
  match idle_timeout_of x (SchedulingNode.node_type n) with
  | None => false
  | Some timeout => negb (f_ge_int (f_mul timeout (f_of_int 1000)) (SchedulingNode.idle_duration_ms n))
  end &&
  bool_decide (SchedulingNode.get_sched_requests PENDING_DEMAND n = []) &&
  bool_decide (SchedulingNode.get_sched_requests CLUSTER_RESOURCE_CONSTRAINT n = []).

Definition min_count_of (x : t) (ty : string) : Z :=
  match dget (_node_type_configs x) ty with Some c => min_worker_nodes c | None => 0 end.

(** The loop; [terminated] counts the nodes terminated per type. *)
Fixpoint idle_loop (x : t) (terminated : string → Z) (nodes : list obj) : list obj :=
  match nodes with
  | [] => []
  | o :: nodes =>
      let ty := SchedulingNode.node_type o.2 in
      if idle_too_long x o.2 && negb (get_cluster_shape x ty - terminated ty <=? min_count_of x ty)
      then (o.1, SchedulingNode.terminate IDLE o.2) ::
             idle_loop x (λ ty', terminated ty' + (if decide (ty' = ty) then 1 else 0)) nodes
      else o :: idle_loop x terminated nodes
  end.

Definition _enforce_idle_termination (x : t) : t :=
  update (idle_loop x (λ _, 0) (get_nodes x)) (next_id x) x.

(** *** [schedule]; the event logger is not modelled. *)
Definition schedule (request : SchedulingRequest) : result (option (t * SchedulingReply)) :=
  let x := from_schedule_request request in
  let x := _terminate_outdated_nodes x in
  let x := _enforce_min_workers_per_type x in
  x ← _enforce_max_workers_per_type x;
  x ← _enforce_max_workers_global x;
  o ← _enforce_resource_constraints x (cluster_resource_constraints request);
  match o with
  | None => Ok None
  | Some (x, infeasible_constraints) =>
      o ← _sched_gang_resource_requests x (gang_resource_requests request);
      match o with
      | None => Ok None
      | Some (x, infeasible_gangs) =>
          o ← _sched_resource_requests x
                (ResourceRequestUtil.ungroup_by_count (resource_requests request));
          match o with
          | None => Ok None
          | Some (x, infeasible) =>
              let x := _enforce_idle_termination x in
              Ok (Some (x, {|
                to_launch := get_launch_requests x; to_ippr := get_ippr_requests x;
                to_terminate := get_terminate_requests x;
                reply_cluster_resources := get_cluster_resources x;
                infeasible_resource_requests := infeasible;
                infeasible_gang_resource_requests := infeasible_gangs;
                infeasible_cluster_resource_constraints := infeasible_constraints |}))
          end
      end
  end.
End scheduler.
End ResourceDemandScheduler.
