(* ===== verification/SchedNodeFacts.v ===== *)
(** * Placing requests on one node

    What [try_schedule] leaves of a node and of the requests: nothing is lost,
    nothing is placed beyond what the node has, and two requests that exclude
    each other never share a node. *)
From S2P Require Import Prelude PyDict PyStr PyFloat InstanceUtil SchedNode.

Import SchedulingNode.

(** What identifies a node through a scheduling round. *)
Record core : Type := {
  c_type : string; c_status : SchedulingNodeStatus; c_kind : NodeKind;
  c_termination : option TerminationRequest; c_instance : option string;
  c_cloud : option string
}.

Definition core_of (x : t) : core := {|
  c_type := node_type x; c_status := status x; c_kind := node_kind x;
  c_termination := termination_request x; c_instance := im_instance_id x;
  c_cloud := IPPRStatus.cloud_instance_id <$> ippr_status x |}.

Definition other (s : ResourceRequestSource) : ResourceRequestSource :=
  match s with
  | PENDING_DEMAND => CLUSTER_RESOURCE_CONSTRAINT
  | CLUSTER_RESOURCE_CONSTRAINT => PENDING_DEMAND end.

(** The labels a request puts on its node. *)
Definition anti_pairs (r : ResourceRequest) : list (string * string) :=
  omap anti_affinity (placement_constraints r).

Definition nonneg (m : resources) : Prop := map_Forall (λ _ v, f_ge_int v 0 = true) m.

(** [x'] is [x] with [added] placed on it from the source [s]. *)
Record placed_on (s : ResourceRequestSource) (x x' : t) (added : list ResourceRequest) : Prop := {
  po_core : core_of x' = core_of x;
  po_ippr : ippr_status x' = ippr_status x;
  po_total : total_resources x' = total_resources x;
  po_requests : get_sched_requests s x' = get_sched_requests s x ++ added;
  po_other : get_sched_requests (other s) x' = get_sched_requests (other s) x;
  po_other_av : get_available_resources (other s) x' = get_available_resources (other s) x;
  po_nonneg : nonneg (get_available_resources s x) → nonneg (get_available_resources s x');
  po_labels : labels x ⊆ labels x';
  po_anti r nv : r ∈ added → nv ∈ anti_pairs r → labels x' !! nv.1 = Some nv.2
}.

Lemma placed_on_refl s x : placed_on s x x [].
Proof. split; try done; [by rewrite app_nil_r|]. by intros r nv ?%elem_of_nil. Qed.

Lemma placed_on_trans s x y z a b : placed_on s x y a → placed_on s y z b →
  placed_on s x z (a ++ b).
Proof.
  intros [] []. split; try congruence.
  - rewrite po_requests1, po_requests0. by rewrite app_assoc.
  - auto.
  - by transitivity (labels y).
  - intros r nv [Hr|Hr]%elem_of_app Hnv; [|by eapply po_anti1].
    eapply lookup_weaken; [|done]. by eapply po_anti0.
Qed.

Lemma subtract_one_nonneg m kv m' : nonneg m → subtract_one m kv = Ok m' → nonneg m'.
Proof.
  destruct kv as [k v]. unfold subtract_one. intros Hm. destruct (f_eqb v f_zero); [by intros [= <-]|].
  intros H. inv_ok. by apply map_Forall_insert_2.
Qed.

Lemma subtract_nonneg m r m' : nonneg m → _inplace_subtract m r = Ok m' → nonneg m'.
Proof.
  intros Hm H. eapply (result_fold_inv nonneg); [|exact Hm|exact H].
  intros. by eapply subtract_one_nonneg.
Qed.

(** Adding the labels of a request changes the labels only. *)
Lemma add_labels_ok pairs x x' : result_fold _add_label x pairs = Ok x' →
  x' = set_labels (labels x') x ∧ labels x ⊆ labels x' ∧
  ∀ nv, nv ∈ pairs → labels x' !! nv.1 = Some nv.2.
Proof.
  revert x. induction pairs as [|[n v] pairs IH]; intros x H; simpl in H.
  - injection H as <-. split; [by destruct x|]. split; [done|]. by intros ? ?%elem_of_nil.
  - inv_ok. unfold _add_label in Hr. apply bind_ok in Hr as ([] & Hr & Hy).
    apply py_assert_ok in Hr. apply Ok_inj in Hy as <-. simpl in Hr.
    apply IH in H as (Hx & Hsub & Hp).
    assert (labels x ⊆ <[n:=v]> (labels x)) as Hins.
    { apply map_subseteq_spec. intros k w Hk. destruct (decide (k = n)) as [->|].
      - rewrite Hk in Hr. apply bool_decide_eq_true in Hr. rewrite lookup_insert_eq. by subst.
      - by rewrite lookup_insert_ne. }
    simpl in Hsub. split; [rewrite Hx; by destruct x|]. split; [by transitivity (<[n:=v]> (labels x))|].
    intros nv [->|Hnv]%elem_of_cons; [|by apply Hp].
    eapply lookup_weaken; [|exact Hsub]. apply lookup_insert_eq.
Qed.

Lemma at_update_source {A} s (f : A → A) p : at_source s (update_source s f p) = f (at_source s p).
Proof. by destruct s. Qed.

Lemma at_update_other {A} s (f : A → A) p :
  at_source (other s) (update_source s f p) = at_source (other s) p.
Proof. by destruct s. Qed.

Lemma try_one_ok r s x x' : _try_schedule_one r s x = Ok (Some x') →
  placed_on s x x' [r] ∧ existsb (conflicts x) (placement_constraints r) = false.
Proof.
  unfold _try_schedule_one. destruct (_ && _); [done|].
  destruct (existsb _ _) eqn:Hc; [done|]. destruct (negb _); [done|].
  intros H. inv_ok. injection H as <-. rename r0 into rest, Hr into Hsub, r1 into y, Hr0 into Hl.
  apply add_labels_ok in Hl as (Hy & Hsubl & Hp). simpl in Hsubl, Hp. split; [|done].
  rewrite Hy. split; try done; simpl.
  - unfold get_sched_requests. simpl. by rewrite at_update_source.
  - unfold get_sched_requests. simpl. by rewrite at_update_other.
  - unfold get_available_resources. simpl. by rewrite at_update_other.
  - unfold get_available_resources. simpl. rewrite at_update_source. intros Hn.
    by eapply subtract_nonneg.
  - intros r' nv ->%list_elem_of_singleton. apply Hp.
Qed.

(** Requests that may share a node, and lists of them. *)
Definition compatible (r1 r2 : ResourceRequest) : Prop :=
  ∀ nv, nv ∈ anti_pairs r1 → nv ∉ anti_pairs r2.

Definition spread (l : list ResourceRequest) : Prop := StronglySorted compatible l.

Lemma existsb_false {A} (f : A → bool) l : existsb f l = false ↔ ∀ x, x ∈ l → f x = false.
Proof.
  induction l as [|y l IH]; simpl; [split; [by intros _ x ?%elem_of_nil|done]|].
  rewrite orb_false_iff, IH. split.
  - intros [Hy Hl] x [->|Hx]%elem_of_cons; auto.
  - intros Hf. split; [apply Hf; left|]. intros x Hx. apply Hf. by right.
Qed.

Lemma no_conflict x r nv : existsb (conflicts x) (placement_constraints r) = false →
  nv ∈ anti_pairs r → labels x !! nv.1 ≠ Some nv.2.
Proof.
  rewrite existsb_false. intros Hc (c & Hc' & Ha)%list_elem_of_omap Hl.
  specialize (Hc c Hc'). unfold conflicts in Hc. rewrite Ha in Hc. destruct nv as [n v].
  by apply bool_decide_eq_false in Hc.
Qed.

(** The loop of [try_schedule]. *)
Lemma schedule_loop_ok s x cache rs x' un : schedule_loop s x cache rs = Ok (x', un) →
  ∃ added, placed_on s x x' added ∧ rs ≡ₚ un ++ added ∧ spread added ∧
    (∀ r nv, r ∈ added → nv ∈ anti_pairs r → labels x !! nv.1 ≠ Some nv.2).
Proof.
  revert x cache un. induction rs as [|r rs IH]; intros x cache un; simpl.
  { intros [= <- <-]. exists []. split; [apply placed_on_refl|]. split; [done|].
    split; [constructor|]. by intros r nv ?%elem_of_nil. }
  case_bool_decide.
  { intros H'. apply bind_ok in H' as ([y u] & Hl & [= <- <-]).
    apply IH in Hl as (added & Hp & Hperm & Hs & Ha). exists added.
    split; [done|]. split; [by rewrite Hperm|done]. }
  intros H'. apply bind_ok in H' as ([y|] & Ho & Hl).
  - apply IH in Hl as (added & Hp & Hperm & Hs & Ha). apply try_one_ok in Ho as [Hy Hc].
    exists (r :: added). split; [by apply (placed_on_trans _ _ _ _ [r] _ Hy)|].
    split; [by rewrite Hperm, <-Permutation_middle|]. split.
    + constructor; [done|]. apply Forall_forall. intros r2 Hr2 nv H1 H2.
      apply (Ha r2 nv Hr2 H2). eapply (po_anti _ _ _ _ Hy); [left|done].
    + intros r' nv [->|Hr']%elem_of_cons Hnv; [by apply (no_conflict x r)|].
      intros Hx. apply (Ha r' nv Hr' Hnv). eapply lookup_weaken; [done|].
      apply (po_labels _ _ _ _ Hy).
  - apply bind_ok in Hl as ([y u] & Hl & [= <- <-]).
    apply IH in Hl as (added & Hp & Hperm & Hs & Ha). exists added.
    split; [done|]. split; [by rewrite Hperm|done].
Qed.
