(* ===== verification/SchedulerFacts.v ===== *)
(** * The scheduler: placing requests on the nodes of the cluster

    [_try_schedule] neither loses nor invents a request or a node, launches no
    more than the availabilities and the maximum allow, and always ends. *)
From S2P Require Import Prelude PyDict PyStr PyFloat InstanceUtil SchedNode SchedNodeFacts Scheduler.

Import ScheduleContext.

(** ** Sorting *)
Lemma pop_perm {A} i (l : list A) x : l !! i = Some x → l ≡ₚ x :: pop i l.
Proof.
  intros Hi. unfold pop. rewrite <-(take_drop_middle l i x Hi) at 1.
  by rewrite Permutation_middle.
Qed.

Lemma length_pop {A} i (l : list A) x : l !! i = Some x → length l = S (length (pop i l)).
Proof. intros Hi. apply (Permutation_length (pop_perm i l x Hi)). Qed.

Lemma pop_map {A B} (f : A → B) i l : pop i (map f l) = map f (pop i l).
Proof. unfold pop. by rewrite map_app, firstn_map, skipn_map. Qed.

(** ** Requests placed on nodes, and the nodes themselves *)
Definition placed (s : ResourceRequestSource) (l : list SchedulingNode.t) : list ResourceRequest :=
  concat (map (SchedulingNode.get_sched_requests s) l).

Definition cores (l : list SchedulingNode.t) : list core := map core_of l.

Lemma placed_cons s n l : placed s (n :: l) = SchedulingNode.get_sched_requests s n ++ placed s l.
Proof. done. Qed.

Lemma placed_app s k l : placed s (k ++ l) = placed s k ++ placed s l.
Proof. unfold placed. by rewrite map_app, concat_app. Qed.

#[export] Instance placed_proper s : Proper ((≡ₚ) ==> (≡ₚ)) (placed s).
Proof. intros k l Hkl. unfold placed. by rewrite Hkl. Qed.

#[export] Instance cores_proper : Proper ((≡ₚ) ==> (≡ₚ)) cores.
Proof. intros k l Hkl. unfold cores. by rewrite Hkl. Qed.

(** [ns'] is [ns] with the requests [reqs] less [reqs'] placed from [s]: the
    same nodes, and nothing lost. *)
Record moved (s : ResourceRequestSource) (ns ns' : list SchedulingNode.t)
    (reqs reqs' : list ResourceRequest) : Prop := {
  mv_cores : cores ns' ≡ₚ cores ns;
  mv_placed : placed s ns ++ reqs ≡ₚ placed s ns' ++ reqs';
  mv_other : placed (other s) ns' ≡ₚ placed (other s) ns
}.

Lemma moved_refl s ns reqs : moved s ns ns reqs reqs.
Proof. done. Qed.

Lemma moved_trans s a b c r1 r2 r3 : moved s a b r1 r2 → moved s b c r2 r3 → moved s a c r1 r3.
Proof.
  intros [] []. split.
  - by rewrite mv_cores1.
  - by rewrite mv_placed0.
  - by rewrite mv_other1.
Qed.

Lemma moved_app s a a' k r1 r2 : moved s a a' r1 r2 → moved s (a ++ k) (a' ++ k) r1 r2.
Proof.
  intros [Hc Hp Ho]. split.
  - unfold cores in *. by rewrite !map_app, Hc.
  - rewrite !placed_app, <-!app_assoc.
    rewrite (Permutation_app_comm (placed s k) r1), (Permutation_app_comm (placed s k) r2).
    by rewrite !app_assoc, Hp.
  - by rewrite !placed_app, Ho.
Qed.

Lemma moved_perm s a a' b b' r1 r2 : a ≡ₚ b → a' ≡ₚ b' → moved s b b' r1 r2 → moved s a a' r1 r2.
Proof. intros Ha Ha' []. split; [by rewrite Ha, Ha'|by rewrite Ha, Ha'|by rewrite Ha, Ha']. Qed.

Lemma moved_one s n n' added reqs reqs' : placed_on s n n' added → reqs ≡ₚ reqs' ++ added →
  moved s [n] [n'] reqs reqs'.
Proof.
  intros Hp Hr. split.
  - unfold cores. simpl. by rewrite (po_core _ _ _ _ Hp).
  - unfold placed. simpl. rewrite !app_nil_r, (po_requests _ _ _ _ Hp), Hr.
    rewrite <-app_assoc. apply Permutation_app_head, Permutation_app_comm.
  - unfold placed. simpl. by rewrite (po_other _ _ _ _ Hp).
Qed.

(** ** The best node *)
Section best.
Context `{Platform}.
Implicit Types (n : SchedulingNode.t) (requests : list ResourceRequest).

Lemma try_schedule_ok requests s n n' un sc :
  SchedulingNode.try_schedule requests s n = Ok (n', un, sc) →
  ∃ added, placed_on s n n' added ∧ requests ≡ₚ un ++ added ∧ spread added ∧
    ∀ r nv, r ∈ added → nv ∈ anti_pairs r → SchedulingNode.labels n !! nv.1 ≠ Some nv.2.
Proof.
  unfold SchedulingNode.try_schedule. intros Ht. apply bind_ok in Ht as ([y u] & Hl & Ht).
  apply bind_ok in Ht as (sc' & _ & [= <- <- _]). by apply schedule_loop_ok in Hl.
Qed.

Lemma candidates_ok s requests seen i nodes rs : candidates s requests seen i nodes = Ok rs →
  ∀ r, r ∈ rs → ∃ n added, nodes !! (idx r - i)%nat = Some n ∧ (i ≤ idx r)%nat ∧
    placed_on s n (sr_node r) added ∧ requests ≡ₚ infeasible_requests r ++ added ∧ added ≠ [].
Proof.
  revert seen i rs. induction nodes as [|n nodes IH]; intros seen i rs; simpl.
  { intros [= <-] r ?%elem_of_nil. done. }
  destruct (was_seen_or_mark s n seen) as [[] seen'].
  - intros Hc r Hr. destruct (IH _ _ _ Hc r Hr) as (m & added & Hm & Hi & Hrest).
    exists m, added. split; [|split; [lia|done]].
    by replace (idx r - i)%nat with (S (idx r - S i)) by lia.
  - intros Hc. apply bind_ok in Hc as ([[n' un] sc] & Ht & Hc).
    apply bind_ok in Hc as (rest & Hrest & Hc).
    assert (∀ r, r ∈ rest → ∃ m added, (n :: nodes) !! (idx r - i)%nat = Some m ∧ (i ≤ idx r)%nat ∧
      placed_on s m (sr_node r) added ∧ requests ≡ₚ infeasible_requests r ++ added ∧ added ≠ []) as Hin.
    { intros r Hr. destruct (IH _ _ _ Hrest r Hr) as (m & added & Hm & Hi & Hx).
      exists m, added. split; [|split; [lia|done]].
      by replace (idx r - i)%nat with (S (idx r - S i)) by lia. }
    destruct (Nat.eqb_spec (length un) (length requests)) as [|Hne]; injection Hc as <-; [done|].
    intros r [->|Hr]%elem_of_cons; [|by apply Hin].
    apply try_schedule_ok in Ht as (added & Hp & Hperm & _). exists n, added. simpl.
    rewrite Nat.sub_diag. split_and!; [done|lia|done|done|].
    intros ->. apply Hne. by rewrite Hperm, app_nil_r.
Qed.

Lemma best_node_ok requests nodes s cloud rec best remaining i :
  _sched_best_node requests nodes s cloud rec = Ok (Some (best, remaining, i)) →
  ∃ n added, nodes !! i = Some n ∧ placed_on s n best added ∧
    requests ≡ₚ remaining ++ added ∧ added ≠ [].
Proof.
  unfold _sched_best_node. intros Hb. apply bind_ok in Hb as (rs & Hc & Hb).
  destruct (sort_by _ rs) as [|r l] eqn:Hs; [done|]. injection Hb as <- <- <-.
  destruct (candidates_ok _ _ _ _ _ _ Hc r) as (n & added & Hn & _ & Hp).
  { set (lt := λ a b, rank_lt _ _) in Hs. pose proof (sort_by_perm lt rs) as Hp.
    rewrite Hs in Hp. rewrite <-Hp. left. }
  exists n, added. by rewrite Nat.sub_0_r in Hn.
Qed.

Lemma best_moved requests nodes s cloud rec best remaining i :
  _sched_best_node requests nodes s cloud rec = Ok (Some (best, remaining, i)) →
  ∃ n, nodes !! i = Some n ∧ moved s [n] [best] requests remaining ∧
    core_of best = core_of n ∧ SchedulingNode.ippr_status best = SchedulingNode.ippr_status n.
Proof.
  intros (n & added & Hn & Hp & Hr & _)%best_node_ok. exists n. split; [done|].
  split; [by eapply moved_one|]. split; [apply Hp|apply Hp].
Qed.
End best.

(** ** The loops of [_try_schedule] *)
Section loops.
Context `{Platform}.
Implicit Types (x : ScheduleContext.t) (o : obj).

(** A node whose capacity or resize state was changed. *)
Definition same_node (n n' : SchedulingNode.t) : Prop :=
  core_of n' = core_of n ∧
  ∀ s, SchedulingNode.get_sched_requests s n' = SchedulingNode.get_sched_requests s n.

#[local] Instance same_node_refl : Reflexive same_node.
Proof. intros n. by split. Qed.

Lemma same_moved s ns ns' reqs : Forall2 same_node ns ns' → moved s ns ns' reqs reqs.
Proof.
  intros Hs. assert (cores ns' = cores ns ∧ ∀ s, placed s ns' = placed s ns) as [Hc Hp].
  { induction Hs as [|n n' l l' [Hc Hr] Hl [IHc IHp]]; [done|]. unfold cores in *.
    split; [simpl; by rewrite Hc, IHc|]. intros t. by rewrite !placed_cons, Hr, IHp. }
  split; [by rewrite Hc|by rewrite Hp|by rewrite Hp].
Qed.

Lemma same_moved_one s n n' reqs : same_node n n' → moved s [n] [n'] reqs reqs.
Proof. intros Hn. apply same_moved. by constructor. Qed.

Lemma update_totals_same l n : same_node n (SchedulingNode.update_total_resources l n).
Proof.
  unfold SchedulingNode.update_total_resources. revert n.
  induction l as [|[k v] l IH]; intros n; [done|]. cbn [foldl].
  destruct (IH (SchedulingNode.update_total (k, v) n)) as [Hc Hr].
  split; [rewrite Hc; done|]. intros s. by rewrite Hr.
Qed.

Lemma mutate_same id f l : (∀ n, same_node n (f n)) → Forall2 same_node l.*2 (mutate id f l).*2.
Proof.
  intros Hf. induction l as [|[j n] l IH]; simpl; [constructor|].
  constructor; [|done]. case_decide; [apply Hf|done].
Qed.

Lemma same_node_trans l1 l2 l3 : Forall2 same_node l1 l2 → Forall2 same_node l2 l3 →
  Forall2 same_node l1 l3.
Proof.
  intros H1. revert l3. induction H1 as [|a b l1 l2 [Ha Ha'] _ IH]; intros l3 H2.
  - by inversion H2.
  - inversion H2 as [|? c ? l3' [Hb Hb'] Hl]; subst. constructor; [|by apply IH].
    split; [congruence|]. intros s. by rewrite Hb', Ha'.
Qed.

Lemma expose_desired_same l : Forall2 same_node l.*2 (expose_desired l).*2.
Proof.
  unfold expose_desired. generalize l at 3. intros k. revert l.
  induction k as [|[j n] k IH]; intros l; simpl; [reflexivity|].
  eapply same_node_trans; [|apply IH].
  destruct (SchedulingNode.ippr_status n); [|reflexivity]. case_match; [|reflexivity].
  apply mutate_same. intros m. apply update_totals_same.
Qed.

Lemma existing_loop_ok fuel x s reqs existing next chosen reqs' left next' :
  existing_loop fuel x s reqs existing next = Ok (chosen, reqs', left, next') →
  moved s existing.*2 (chosen ++ left).*2 reqs reqs'.
Proof.
  revert reqs existing next chosen. induction fuel as [|fuel IH];
    intros reqs existing next chosen; simpl; [by intros [= <- <- <- _]|].
  destruct (_ || _); [by intros [= <- <- <- _]|].
  intros Hl. apply bind_ok in Hl as ([[[best rem] i]|] & Hb & Hl); [|by injection Hl as <- <- <- _].
  apply bind_ok in Hl as ([[[ch rq] lf] nx] & Hl & [= <- <- <- <-]).
  apply best_moved in Hb as (n & Hn & Hm & _ & _).
  apply list_lookup_fmap_Some in Hn as (o & -> & Ho).
  apply IH in Hl. rewrite <-app_comm_cons, fmap_cons. cbn [snd].
  eapply moved_trans.
  - eapply moved_perm; [|reflexivity|exact (moved_app _ [o.2] [best] (pop i existing).*2 _ _ Hm)].
    by rewrite (pop_perm i existing o Ho) at 1.
  - eapply (moved_perm _ _ _ ((pop i existing).*2 ++ [best]) ((ch ++ lf).*2 ++ [best]));
      [apply Permutation_cons_append|apply Permutation_cons_append|by apply moved_app].
Qed.

(** *** Resizing *)
Definition exposed (l : list obj) : list obj := map (λ o, (o.1, expose_max o.2)) l.
Definition by_cloud (l : list obj) : dict string obj := map (λ o, (cloud_id o, o)) l.

Lemma expose_max_same n : same_node n (expose_max n).
Proof. unfold expose_max. destruct (SchedulingNode.ippr_status n); [apply update_totals_same|done]. Qed.

Lemma exposed_same l : Forall2 same_node l.*2 (exposed l).*2.
Proof. induction l as [|o l IH]; constructor; [apply expose_max_same|done]. Qed.

Lemma queue_max_same n : same_node n (queue_max n).
Proof.
  unfold queue_max, same_node, core_of. simpl.
  split; [|done]. by destruct (SchedulingNode.ippr_status n).
Qed.

Lemma ddel_pop {V} (d : dict string V) i k v : NoDup d.*1 → d !! i = Some (k, v) → ddel d k = pop i d.
Proof.
  revert i. induction d as [|[j w] d IH]; intros i Hnd Hi; [done|].
  apply NoDup_cons in Hnd as [Hj Hnd]. destruct i as [|i]; simplify_eq/=; [by rewrite decide_True|].
  rewrite decide_False, (IH i Hnd Hi); [done|]. intros ->.
  apply Hj, list_elem_of_fmap. exists (j, v). split; [done|]. by eapply list_elem_of_lookup_2.
Qed.

Lemma core_cloud o o' : core_of o.2 = core_of o'.2 → cloud_id o = cloud_id o'.
Proof.
  intros Hc. apply (f_equal c_cloud) in Hc. unfold core_of, cloud_id in *. simpl in Hc.
  destruct (SchedulingNode.ippr_status o.2), (SchedulingNode.ippr_status o'.2); by simplify_eq/=.
Qed.

Lemma ippr_loop_ok fuel x s reqs os next chosen reqs' originals next' : NoDup (map cloud_id os) →
  ippr_loop fuel x s reqs (exposed os) (by_cloud os) next = Ok (chosen, reqs', originals, next') →
  ∃ rest, originals = by_cloud rest ∧ moved s os.*2 (chosen.*2 ++ rest.*2) reqs reqs'.
Proof.
  revert reqs os next chosen. induction fuel as [|fuel IH];
    intros reqs os next chosen Hnd; simpl; [intros [= <- <- <- _]; by exists os|].
  destruct (_ || _); [intros [= <- <- <- _]; by exists os|].
  intros Hl. apply bind_ok in Hl as ([[[best rem] i]|] & Hb & Hl);
    [|injection Hl as <- <- <- _; by exists os].
  apply bind_ok in Hl as ([[[ch rq] og] nx] & Hl & [= <- <- <- <-]).
  apply best_moved in Hb as (n & Hn & Hm & Hc & _).
  apply list_lookup_fmap_Some in Hn as (e & -> & He).
  apply list_lookup_fmap_Some in He as (o & -> & Ho). simpl in Hm, Hc.
  destruct (expose_max_same o.2) as [Hce _]. destruct (queue_max_same best) as [Hcq _].
  rewrite (core_cloud (next, queue_max best) o) in Hl by (simpl; congruence).
  assert (NoDup (by_cloud os).*1) as Hnd'.
  { unfold by_cloud. by rewrite <-list_fmap_compose. }
  rewrite (ddel_pop _ i (cloud_id o) o) in Hl; [|done|].
  2: { unfold by_cloud. apply list_lookup_fmap_Some. by exists o. }
  unfold by_cloud, exposed in Hl. rewrite !pop_map in Hl.
  apply IH in Hl as (rest & -> & Hrest).
  2: { rewrite (Permutation_map cloud_id (pop_perm i os o Ho)) in Hnd. by apply NoDup_cons in Hnd as [_ ?]. }
  exists rest. split; [done|]. rewrite fmap_cons. cbn [snd].
  eapply moved_trans.
  - eapply moved_perm; [|reflexivity|apply (moved_app _ [o.2] [queue_max best] (pop i os).*2)].
    { by rewrite (pop_perm i os o Ho) at 1. }
    eapply moved_trans; [|eapply moved_trans; [exact Hm|]]; apply same_moved_one;
      [apply expose_max_same|apply queue_max_same].
  - eapply (moved_perm _ _ _ ((pop i os).*2 ++ [queue_max best])
      ((ch.*2 ++ rest.*2) ++ [queue_max best]));
      [apply Permutation_cons_append|apply Permutation_cons_append|by apply moved_app].
Qed.
End loops.

(** ** Launching nodes *)
Section launching.
Context `{Platform}.
Implicit Types (x : ScheduleContext.t) (n : SchedulingNode.t).

(** Configurations as the autoscaling config makes them. *)
Definition configs_ok (configs : dict string NodeTypeConfig) : Prop :=
  dwf configs ∧ ∀ k c, dget configs k = Some c → name c = k.

(** A node to launch, before anything is placed on it or after. *)
Definition launch_core (n : SchedulingNode.t) : Prop :=
  core_of n = {| c_type := SchedulingNode.node_type n; c_status := TO_LAUNCH; c_kind := WORKER;
    c_termination := None; c_instance := None; c_cloud := None |}.

Definition fresh_node n : Prop :=
  launch_core n ∧ ∀ s, SchedulingNode.get_sched_requests s n = [].

Lemma to_launch_fresh x ty n : configs_ok (_node_type_configs x) →
  _to_launch_node_with_ippr_caps x ty = Ok n → fresh_node n ∧ SchedulingNode.node_type n = ty.
Proof.
  intros [_ Hname] Hn. apply bind_ok in Hn as (c & Hc%or_raise_ok & Hn).
  apply Hname in Hc. set (m := from_node_config c TO_LAUNCH WORKER None None) in *.
  assert (fresh_node m ∧ SchedulingNode.node_type m = ty) as [[Hm Hr] Ht].
  { split; [|done]. split; [done|]. by intros []. }
  destruct (groups ← _ippr_specs x; dget groups ty) as [g|]; apply Ok_inj in Hn as <-; [|done].
  match goal with |- context [SchedulingNode.update_total_resources ?l m] => generalize l end.
  intros l. destruct (update_totals_same l m) as [Hc' Hr'].
  pose proof (f_equal c_type Hc') as Hty.
  change (SchedulingNode.node_type (SchedulingNode.update_total_resources l m)
    = SchedulingNode.node_type m) in Hty.
  split; [split|by rewrite Hty].
  - unfold launch_core in *. by rewrite Hc', Hm, Hty.
  - intros s. by rewrite Hr'.
Qed.

(** What the pool holds: one node per type that may still be launched. *)
Record pool_ok (pools : list SchedulingNode.t) (available : dict string Z) : Prop := {
  pool_fresh : Forall fresh_node pools;
  pool_types : NoDup (map SchedulingNode.node_type pools);
  pool_available n : n ∈ pools → 0 < default 0 (dget available (SchedulingNode.node_type n))
}.

Lemma launchable_dset d k v :
  (launchable (dset d k v) + Z.to_nat (default 0%Z (dget d k)) = launchable d + Z.to_nat v)%nat.
Proof.
  unfold launchable. induction d as [|[j w] d IH]; simpl; [lia|].
  case_decide; simpl; [lia|]. lia.
Qed.

(** The pool after one launch of the node at [i]. *)
Lemma pool_step x pools available i n pools' : configs_ok (_node_type_configs x) →
  pool_ok pools available → pools !! i = Some n →
  let ty := SchedulingNode.node_type n in
  let left := default 0 (dget available ty) - 1 in
  (if 0 <? left then n ← _to_launch_node_with_ippr_caps x ty; Ok (pop i pools ++ [n])
   else Ok (pop i pools)) = Ok pools' →
  pool_ok pools' (dset available ty left) ∧
  (length pools' + launchable (dset available ty left) < length pools + launchable available)%nat.
Proof.
  intros Hc [Hf Ht Ha] Hi ty left Hp. pose proof (pop_perm _ _ _ Hi) as Hperm.
  assert (0 < default 0 (dget available ty)) as Hpos.
  { apply Ha. by eapply list_elem_of_lookup_2. }
  pose proof (launchable_dset available ty left) as Hl.
  rewrite Hperm in Hf. apply Forall_cons in Hf as [_ Hf].
  pose proof (Permutation_map SchedulingNode.node_type Hperm) as Hperm'.
  rewrite Hperm' in Ht. apply NoDup_cons in Ht as [Hni Ht].
  assert (∀ m, m ∈ pop i pools → 0 < default 0 (dget (dset available ty left) (SchedulingNode.node_type m))) as Ha'.
  { intros m Hm. rewrite dget_dset_ne.
    - apply Ha. rewrite Hperm. by right.
    - intros Heq. apply Hni. apply list_elem_of_fmap. exists m. split; [exact Heq|done]. }
  destruct (Z.ltb_spec 0 left).
  - apply bind_ok in Hp as (m & Hm & [= <-]).
    destruct (to_launch_fresh _ _ _ Hc Hm) as [Hfm Htm]. split; [split|].
    + apply Forall_app. split; [done|by constructor].
    + rewrite map_app. simpl. rewrite Htm, Permutation_app_comm. by constructor.
    + intros m'. rewrite elem_of_app, list_elem_of_singleton. intros [Hm'| ->]; [by apply Ha'|].
      by rewrite Htm, dget_dset_eq.
    + rewrite length_app. simpl. rewrite (length_pop _ _ _ Hi). lia.
  - injection Hp as <-. split; [by split|]. rewrite (length_pop _ _ _ Hi). lia.
Qed.

Lemma count_type_cons ty i n (l : list obj) :
  count_type ty ((i, n) :: l) =
    (if decide (SchedulingNode.node_type n = ty) then 1 else 0) + count_type ty l.
Proof. unfold count_type. rewrite filter_cons. simpl. case_decide; simpl; lia. Qed.

(** What a launch loop with [targets] nodes before it returns. *)
Record launched_ok x (s : ResourceRequestSource) (available : dict string Z) (targets : nat)
    (reqs : list ResourceRequest) (launched : list obj) (reqs' : list ResourceRequest) : Prop := {
  la_core : Forall launch_core launched.*2;
  la_placed : reqs ≡ₚ placed s launched.*2 ++ reqs';
  la_other : placed (other s) launched.*2 = [];
  la_count ty : count_type ty launched ≤ Z.max 0 (default 0 (dget available ty));
  la_max m : launched ≠ [] → _max_num_nodes x = Some m →
    Z.of_nat targets + Z.of_nat (length launched) ≤ m
}.

Lemma launched_none x s available targets reqs : launched_ok x s available targets reqs [] reqs.
Proof. split; [constructor|done|done| |done]. intros ty. unfold count_type. simpl. lia. Qed.

Lemma launch_loop_ok fuel x s reqs pools available targets next o : configs_ok (_node_type_configs x) →
  pool_ok pools available → (length pools + launchable available < fuel)%nat →
  launch_loop fuel x s reqs pools available targets next = Ok o →
  ∃ launched reqs' next', o = Some (launched, reqs', next') ∧
    launched_ok x s available targets reqs launched reqs'.
Proof.
  intros Hc. revert reqs pools available targets next o.
  induction fuel as [|fuel IH]; intros reqs pools available targets next o Hp Hf; [lia|]. simpl.
  destruct (_ || max_reached x targets) eqn:Hstop.
  { intros [= <-]. exists [], reqs, next. split; [done|]. apply launched_none. }
  apply orb_false_iff in Hstop as [_ Hmax]. intros Hl.
  apply bind_ok in Hl as ([[[best rem] i]|] & Hb & Hl);
    [|injection Hl as <-; exists [], reqs, next; split; [done|apply launched_none]].
  apply best_node_ok in Hb as (n & added & Hn & Hpo & Hr & _).
  assert (SchedulingNode.node_type best = SchedulingNode.node_type n) as Hty.
  { apply (f_equal c_type (po_core _ _ _ _ Hpo)). }
  rewrite Hty in Hl. apply bind_ok in Hl as (pools' & Hp' & Hl).
  destruct (pool_step _ _ _ _ _ _ Hc Hp Hn Hp') as [Hok Hless].
  assert (fresh_node n) as [Hcore Hnone].
  { apply (Forall_lookup_1 _ _ _ _ (pool_fresh _ _ Hp) Hn). }
  assert (0 < default 0 (dget available (SchedulingNode.node_type n))) as Hpos.
  { apply (pool_available _ _ Hp). by eapply list_elem_of_lookup_2. }
  apply bind_ok in Hl as (r & Hr' & Hl).
  destruct (IH _ _ _ _ _ _ Hok ltac:(lia) Hr') as (launched & reqs' & next' & -> & [Lc Lp Lo Lt Lm]).
  injection Hl as <-. exists ((next, best) :: launched), reqs', next'. split; [done|]. split.
  - constructor; [|done]. unfold launch_core in *. simpl. by rewrite (po_core _ _ _ _ Hpo), Hcore, Hty.
  - rewrite fmap_cons, placed_cons. cbn [snd].
    rewrite (po_requests _ _ _ _ Hpo), Hnone, Hr, Lp. simpl.
    by rewrite Permutation_app_comm, <-app_assoc.
  - rewrite fmap_cons, placed_cons. cbn [snd]. by rewrite (po_other _ _ _ _ Hpo), Hnone, Lo.
  - intros ty. specialize (Lt ty). rewrite count_type_cons, Hty. rewrite dget_dset in Lt.
    destruct (decide (ty = SchedulingNode.node_type n)) as [->|Hne].
    + rewrite decide_True by done. simpl in Lt. lia.
    + rewrite decide_False by done. lia.
  - intros m _ Hm. unfold max_reached in Hmax. rewrite Hm in Hmax.
    apply Z.leb_gt in Hmax. rewrite length_cons. destruct launched as [|p launched].
    + simpl. lia.
    + specialize (Lm m ltac:(done) Hm). lia.
Qed.
End launching.

(** ** [_try_schedule] *)
Section try_schedule.
Context `{Platform}.
Implicit Types (x : ScheduleContext.t).

(** The cloud ids of the nodes with resize state. *)
Definition clouds (l : list SchedulingNode.t) : list string := omap c_cloud (cores l).

Record ctx_ok x : Prop := {
  ctx_configs : configs_ok (_node_type_configs x);
  ctx_available : _node_type_available x =
    _compute_available_node_types (_nodes x) (_node_type_configs x);
  ctx_clouds : NoDup (clouds (_nodes x).*2)
}.

Lemma filter_split {A} (f : A → bool) l :
  filter (λ a, f a = false) l ++ filter (λ a, f a = true) l ≡ₚ l.
Proof.
  induction l as [|a l IH]; [done|]. rewrite !filter_cons. destruct (f a) eqn:E.
  - rewrite decide_False, decide_True by done. by rewrite <-Permutation_middle, IH.
  - rewrite decide_True, decide_False by done. by rewrite <-app_comm_cons, IH.
Qed.

Lemma available_get nodes configs ty :
  dget (_compute_available_node_types nodes configs) ty =
    (λ c, max_worker_nodes c - count_type ty nodes) <$> dget configs ty.
Proof.
  induction configs as [|[k c] configs IH]; [done|]. simpl. case_decide as E; [by subst|done].
Qed.

Lemma available_keys nodes configs : (_compute_available_node_types nodes configs).*1 = configs.*1.
Proof. unfold _compute_available_node_types. rewrite <-list_fmap_compose. by apply list_fmap_ext. Qed.

Lemma initial_pools x (available : dict string Z) pools : configs_ok (_node_type_configs x) → dwf available →
  result_map (λ kv, _to_launch_node_with_ippr_caps x kv.1)
    (filter (λ kv : string * Z, 0 < kv.2) available) = Ok pools →
  pool_ok pools available.
Proof.
  intros Hc Hwf Hp. apply result_map_ok in Hp.
  assert (map SchedulingNode.node_type pools = (filter (λ kv : string * Z, 0 < kv.2) available).*1
    ∧ Forall fresh_node pools) as [Ht Hf].
  { induction Hp as [|kv n l ns Hn _ [IH1 IH2]]; [done|].
    destruct (to_launch_fresh _ _ _ Hc Hn) as [Hfr Hty]. split; [|by constructor].
    simpl. by rewrite Hty, IH1. }
  assert (NoDup (filter (λ kv : string * Z, 0 < kv.2) available).*1) as Hnd.
  { unfold dwf in Hwf. eapply sublist_NoDup; [exact Hwf|]. apply fmap_sublist, sublist_filter. }
  split; [done|by rewrite Ht|].
  intros n Hn. apply (list_elem_of_fmap_2 SchedulingNode.node_type) in Hn.
  change (SchedulingNode.node_type <$> pools) with (map SchedulingNode.node_type pools) in Hn.
  rewrite Ht in Hn. apply list_elem_of_fmap in Hn as ([k v] & Hk & Hin).
  apply list_elem_of_filter in Hin as [Hv Hin]. simpl in *.
  rewrite Hk, (proj2 (dget_wf_elem available k v Hwf) Hin). done.
Qed.

(** What [_try_schedule] leaves of the nodes [ns] and the requests. *)
Record scheduled x (s : ResourceRequestSource) (reqs : list ResourceRequest)
    (targets : list obj) (reqs' : list ResourceRequest) (launched : list obj) : Prop := {
  sd_placed : placed s (_nodes x).*2 ++ reqs ≡ₚ placed s targets.*2 ++ reqs';
  sd_other : placed (other s) targets.*2 ≡ₚ placed (other s) (_nodes x).*2;
  sd_cores : cores targets.*2 ≡ₚ cores (_nodes x).*2 ++ cores launched.*2;
  sd_launched : Forall launch_core launched.*2;
  sd_count ty : count_type ty launched ≤ Z.max 0 (default 0 (dget (_node_type_available x) ty));
  sd_max m : launched ≠ [] → _max_num_nodes x = Some m → Z.of_nat (length targets) ≤ m
}.

Lemma clouds_cands l : NoDup (clouds l.*2) →
  NoDup (map cloud_id (filter (λ o, resizable o = true) l)).
Proof.
  intros Hnd. eapply sublist_NoDup; [exact Hnd|]. clear Hnd.
  induction l as [|o l IH]; [done|]. rewrite filter_cons. unfold clouds, cores in *. simpl.
  unfold core_of at 1. simpl.
  destruct (decide (resizable o = true)) as [Hr|Hr].
  - unfold resizable in Hr. simpl. unfold cloud_id at 1.
    destruct (SchedulingNode.ippr_status o.2); [|done]. simpl. by constructor.
  - destruct (SchedulingNode.ippr_status o.2); simpl; [by constructor|done].
Qed.

Lemma clouds_perm k l : cores k ≡ₚ cores l → NoDup (clouds l) → NoDup (clouds k).
Proof. unfold clouds. intros Hp Hn. by rewrite Hp. Qed.

Lemma try_schedule_spec x reqs s r : ctx_ok x → _try_schedule x reqs s = Ok r →
  ∃ targets reqs' next' launched, r = Some (targets, reqs', next') ∧
    scheduled x s reqs targets reqs' launched.
Proof.
  intros [Hc Hav Hcl] Ht. unfold _try_schedule in Ht.
  apply bind_ok in Ht as ([[[chosen reqs1] left] next1] & He & Ht).
  apply existing_loop_ok in He.
  pose proof (same_moved s _ _ (sort_by (λ a b, request_lt b a) reqs)
    (expose_desired_same (get_nodes x))) as Hd.
  pose proof (moved_trans _ _ _ _ _ _ _ Hd He) as M1. clear Hd He.
  set (existing := chosen ++ left) in *.
  apply bind_ok in Ht as ([[[resized reqs2] originals] next2] & Hi & Ht).
  assert (NoDup (map cloud_id (filter (λ o, resizable o = true) existing))) as Hnd.
  { apply clouds_cands. apply (clouds_perm _ _ (mv_cores _ _ _ _ _ M1) Hcl). }
  rewrite dict_of_NoDup in Hi by (rewrite <-list_fmap_compose; exact Hnd).
  apply (ippr_loop_ok _ _ _ _ _ _ _ _ _ _ Hnd) in Hi as (rest & -> & Hm).
  set (low := filter (λ o, resizable o = false) existing) in *.
  set (cands := filter (λ o, resizable o = true) existing) in *.
  assert (moved s existing.*2 (low ++ resized ++ rest).*2 reqs1 reqs2) as M2.
  { eapply (moved_perm _ _ _ (cands.*2 ++ low.*2) ((resized.*2 ++ rest.*2) ++ low.*2));
      [|by rewrite !fmap_app, Permutation_app_comm|by apply moved_app].
    rewrite <-fmap_app, (Permutation_app_comm cands). apply (fmap_Permutation snd).
    symmetry. apply filter_split. }
  pose proof (moved_trans _ _ _ _ _ _ _ M1 M2) as M. clear M1 M2 Hm.
  assert ((by_cloud rest).*2 = rest) as Hrest.
  { unfold by_cloud. rewrite <-list_fmap_compose. apply list_fmap_id. }
  rewrite Hrest in Ht. set (targets := low ++ resized ++ rest) in *.
  apply bind_ok in Ht as (pools & Hp & Ht). apply bind_ok in Ht as (o & Hl & [= <-]).
  assert (dwf (_node_type_available x)) as Hwf.
  { unfold dwf. rewrite Hav, available_keys. apply Hc. }
  apply (initial_pools _ _ _ Hc Hwf) in Hp.
  apply launch_loop_ok in Hl as (launched & reqs' & next' & -> & [Lc Lp Lo Lt Lm]); [|done|done|lia].
  exists (targets ++ launched), reqs', next', launched. split; [done|].
  destruct M as [Mc Mp Mo].
  assert (length targets = length (_nodes x)) as Hlen.
  { apply Permutation_length in Mc. unfold cores in Mc. by rewrite !length_map in Mc. }
  split; try done.
  - rewrite fmap_app, placed_app, <-app_assoc, <-Lp, <-Mp. by rewrite sort_by_perm.
  - by rewrite fmap_app, placed_app, Lo, app_nil_r.
  - rewrite fmap_app. unfold cores in *. by rewrite map_app, Mc.
  - intros m Hne Hm. rewrite length_app. specialize (Lm m Hne Hm). lia.
Qed.
End try_schedule.
