(* ===== verification/SchedulerInv.v ===== *)
(** * The scheduler: which nodes it terminates

    The steps that terminate nodes mark objects, and every occurrence of an
    object is marked with it ([kill]); none of them marks a head node. *)
From S2P Require Import Prelude PyDict PyStr PyFloat InstanceUtil SchedNode SchedNodeFacts.
From S2P Require Import Scheduler SchedulerFacts.

Import ScheduleContext ResourceDemandScheduler.

(** ** Objects *)

(** Occurrences of one object agree, and the next identity is new. *)
Record objects_ok (next : nat) (l : list obj) : Prop := {
  ob_alias o o' : o ∈ l → o' ∈ l → o.1 = o'.1 → o = o';
  ob_fresh o : o ∈ l → (o.1 < next)%nat
}.

Lemma objects_sub next k l : (∀ o, o ∈ k → o ∈ l) → objects_ok next l → objects_ok next k.
Proof. intros Hs [Ha Hf]. split.
  - intros o o' Ho Ho'. apply Ha; by apply Hs.
  - intros o Ho. by apply Hf, Hs. Qed.

Lemma objects_map next (f : obj → SchedulingNode.t) l :
  objects_ok next l → objects_ok next (map (λ o, (o.1, f o)) l).
Proof.
  intros [Ha Hf]. split.
  - intros o o' (p & -> & Hp)%list_elem_of_fmap (p' & -> & Hp')%list_elem_of_fmap Hid.
    simpl in *. by rewrite (Ha p p' Hp Hp' Hid).
  - intros o (p & -> & Hp)%list_elem_of_fmap. by apply (Hf p).
Qed.

(** Terminating the objects [T]. *)
Definition kill (T : list nat) (cause : Cause) (l : list obj) : list obj :=
  map (λ o : obj, if bool_decide (o.1 ∈ T) then (o.1, SchedulingNode.terminate cause o.2) else o) l.

#[export] Instance kill_proper T cause : Proper ((≡ₚ) ==> (≡ₚ)) (kill T cause).
Proof. intros k l Hkl. unfold kill. by rewrite Hkl. Qed.

Lemma kill_app T cause k l : kill T cause (k ++ l) = kill T cause k ++ kill T cause l.
Proof. apply map_app. Qed.

Lemma kill_nil cause l : kill [] cause l = l.
Proof.
  unfold kill. rewrite <-(map_id l) at 2. apply map_ext. intros o.
  by rewrite bool_decide_eq_false_2 by apply not_elem_of_nil.
Qed.

(** Only the identities that occur matter. *)
Lemma kill_ext S T cause l : (∀ o, o ∈ l → o.1 ∈ S ↔ o.1 ∈ T) → kill S cause l = kill T cause l.
Proof.
  intros Hst. unfold kill. apply map_ext_in. intros o Ho%list_elem_of_In.
  by rewrite (bool_decide_ext _ _ (Hst o Ho)).
Qed.

Lemma kill_objects next T cause l : objects_ok next l → objects_ok next (kill T cause l).
Proof.
  intros Ho. unfold kill.
  assert (∀ o : obj, (if bool_decide (o.1 ∈ T) then (o.1, SchedulingNode.terminate cause o.2) else o)
    = (o.1, if bool_decide (o.1 ∈ T) then SchedulingNode.terminate cause o.2 else o.2)) as He.
  { intros [i n]. simpl. by case_bool_decide. }
  rewrite (map_ext _ _ He). by apply (objects_map next (λ o, if bool_decide (o.1 ∈ T) then _ else _)).
Qed.

(** ** Cores *)
Definition k_active (k : core) : Prop := c_status k ≠ TO_TERMINATE.
Definition k_head (k : core) : Prop := c_kind k = HEAD.

#[export] Instance k_active_dec k : Decision (k_active k).
Proof. unfold k_active. apply _. Defined.
#[export] Instance k_head_dec k : Decision (k_head k).
Proof. unfold k_head. apply _. Defined.

Definition heads (K : list core) : nat := length (filter k_head K).
Definition heads_of (ty : string) (K : list core) : nat :=
  length (filter (λ k, c_type k = ty) (filter k_head K)).
Definition active_total (K : list core) : nat := length (filter k_active K).
Definition active_of (ty : string) (K : list core) : nat :=
  length (filter (λ k, c_type k = ty) (filter k_active K)).

#[export] Instance heads_proper : Proper ((≡ₚ) ==> (=)) heads.
Proof. intros k l Hkl. unfold heads. by rewrite Hkl. Qed.
#[export] Instance heads_of_proper ty : Proper ((≡ₚ) ==> (=)) (heads_of ty).
Proof. intros k l Hkl. unfold heads_of. by rewrite Hkl. Qed.
#[export] Instance active_total_proper : Proper ((≡ₚ) ==> (=)) active_total.
Proof. intros k l Hkl. unfold active_total. by rewrite Hkl. Qed.
#[export] Instance active_of_proper ty : Proper ((≡ₚ) ==> (=)) (active_of ty).
Proof. intros k l Hkl. unfold active_of. by rewrite Hkl. Qed.

(** A head is not terminated, and a node is terminated when it has a
    termination request. *)
Definition core_fine (k : core) : Prop :=
  (k_head k → k_active k) ∧ (k_active k ↔ c_termination k = None).

Definition safe (K : list core) : Prop := (heads K ≤ 1)%nat ∧ Forall core_fine K.

#[export] Instance safe_proper : Proper ((≡ₚ) ==> iff) safe.
Proof. intros k l Hkl. unfold safe. by rewrite Hkl. Qed.

(** A node that was kept or, not being a head, terminated. *)
Definition killed (k k' : core) : Prop :=
  k' = k ∨ (¬ k_head k ∧ c_type k' = c_type k ∧ c_kind k' = c_kind k ∧ c_cloud k' = c_cloud k ∧
            ¬ k_active k' ∧ c_termination k' ≠ None).

Lemma killed_heads K K' : Forall2 killed K K' → heads K' = heads K ∧ ∀ ty, heads_of ty K' = heads_of ty K.
Proof.
  unfold heads, heads_of.
  induction 1 as [|k k' K K' [->|(Hh & Ht & Hk & _)] _ [IH1 IH2]]; [done| |].
  - rewrite !filter_cons. case_decide; simpl; [|by split].
    split; [by rewrite IH1|]. intros ty. rewrite !filter_cons. case_decide; simpl; by rewrite IH2.
  - assert (¬ k_head k') by (unfold k_head in *; by rewrite Hk).
    rewrite !filter_cons, !(decide_False (P:=k_head _)) by done. by split.
Qed.

Lemma killed_safe K K' : Forall2 killed K K' → safe K → safe K'.
Proof.
  intros Hk [Hh Hf]. split; [by rewrite (proj1 (killed_heads _ _ Hk))|].
  clear Hh. induction Hk as [|k k' K K' Hkk _ IH]; [done|].
  apply Forall_cons in Hf as [Hfk Hf]. constructor; [|by apply IH].
  destruct Hkk as [->|(Hh & _ & Hkd & _ & Ha & Ht)]; [done|].
  split; [|naive_solver]. unfold k_head in *. by rewrite Hkd.
Qed.

Lemma killed_active K K' : Forall2 killed K K' →
  (active_total K' ≤ active_total K)%nat ∧ ∀ ty, (active_of ty K' ≤ active_of ty K)%nat.
Proof.
  unfold active_total, active_of.
  induction 1 as [|k k' K K' [->|(_ & _ & _ & _ & Ha & _)] _ [IH1 IH2]]; [done| |].
  - rewrite !filter_cons. case_decide; simpl; [|by split]. split; [lia|].
    intros ty. specialize (IH2 ty). rewrite !filter_cons. case_decide; simpl; lia.
  - rewrite (filter_cons _ k'), (decide_False (P:=k_active k')) by done.
    rewrite !filter_cons. case_decide; simpl; [|by split]. split; [lia|].
    intros ty. specialize (IH2 ty). rewrite !filter_cons. case_decide; simpl; lia.
Qed.

Lemma killed_clouds K K' : Forall2 killed K K' → omap c_cloud K' = omap c_cloud K.
Proof.
  induction 1 as [|k k' K K' Hk _ IH]; [done|]. simpl.
  assert (c_cloud k' = c_cloud k) as -> by (destruct Hk as [->|(_ & _ & _ & Hc & _)]; done).
  destruct (c_cloud k); [by f_equal|done].
Qed.

Lemma terminate_killed cause n : SchedulingNode.node_kind n ≠ HEAD →
  killed (core_of n) (core_of (SchedulingNode.terminate cause n)).
Proof. intros Hk. right. unfold k_head, k_active. simpl. by split_and!; try naive_solver. Qed.

Lemma kill_killed T cause l :
  (∀ o, o ∈ l → o.1 ∈ T → SchedulingNode.node_kind o.2 ≠ HEAD) →
  Forall2 killed (cores l.*2) (cores (kill T cause l).*2).
Proof.
  induction l as [|o l IH]; intros Hh; [constructor|]. unfold cores, kill in *. simpl.
  constructor; [|apply IH; intros; apply Hh; [by right|done]].
  case_bool_decide; [|by left]. simpl. apply terminate_killed, Hh; [left|done].
Qed.

(** ** Selecting nodes *)
Definition is_head (o : obj) : Prop := SchedulingNode.node_kind o.2 = HEAD.

Lemma heads_cons o l : heads (cores (o :: l).*2) =
  ((if decide (is_head o) then 1 else 0) + heads (cores l.*2))%nat.
Proof.
  unfold heads, cores. simpl. rewrite filter_cons.
  destruct (decide (is_head o)) as [Hh|Hh]; [by rewrite decide_True|by rewrite decide_False].
Qed.

Lemma no_heads l : heads (cores l.*2) = 0%nat ↔ ∀ o, o ∈ l → ¬ is_head o.
Proof.
  induction l as [|o l IH]; [split; [by intros _ o ?%elem_of_nil|done]|].
  rewrite heads_cons. split.
  - intros Hs p Hp. case_decide; [lia|]. apply elem_of_cons in Hp as [->|Hp]; [done|].
    by apply IH.
  - intros Hn. rewrite decide_False by (apply Hn; left). apply IH. intros p Hp. apply Hn. by right.
Qed.

Lemma pop_head_ok l h l' : pop_head l = (h, l') →
  l ≡ₚ option_list h ++ l' ∧ (heads (cores l.*2) ≤ 1 → heads (cores l'.*2) = 0)%nat ∧
  length l' = (length l - if h is Some _ then 1 else 0)%nat ∧
  (if h is Some _ then 1 ≤ heads (cores l.*2) else heads (cores l.*2) = 0)%nat.
Proof.
  revert h l'. induction l as [|o l IH]; intros h l'; cbn [pop_head]; [by intros [= <- <-]|].
  case_bool_decide as Hh.
  - intros [= <- <-]. rewrite heads_cons, decide_True by done. simpl. split; [done|]. lia.
  - destruct (pop_head l) as [h1 l1]. intros [= <- <-].
    destruct (IH h1 l1 eq_refl) as (Hp & Hd & Hlen & Hs).
    rewrite !heads_cons, !decide_False by done. simpl. split.
    + by rewrite Hp, Permutation_middle at 1.
    + split; [done|]. split; [|done]. destruct h1; [|lia].
      pose proof (Permutation_length Hp) as Hl. simpl in Hl. lia.
Qed.

Lemma kill_elem T cause l o : o ∈ kill T cause l → o.1 ∈ T → terminating o.
Proof.
  intros (p & -> & Hp)%list_elem_of_fmap. case_bool_decide; [done|]. done.
Qed.

Lemma length_kill T cause l : length (kill T cause l) = length l.
Proof. apply length_map. Qed.

Lemma kill_ids T cause l : (kill T cause l).*1 = l.*1.
Proof.
  unfold kill. rewrite <-list_fmap_compose. apply list_fmap_ext. intros i o _. simpl.
  by case_bool_decide.
Qed.

Section scheduler.
Context `{Platform}.
Implicit Types (x : ScheduleContext.t).

Lemma select_ok next nodes k cause term kept :
  objects_ok next nodes → (heads (cores nodes.*2) ≤ 1)%nat →
  _select_nodes_to_terminate nodes k cause = (term, kept) →
  ∃ T, term ++ kept ≡ₚ kill T cause nodes ∧ Forall terminating term ∧
    length term = (Z.to_nat k `min` (length nodes - heads (cores nodes.*2)))%nat ∧
    (∀ o, o ∈ nodes → o.1 ∈ T → ¬ is_head o) ∧ (∀ i, i ∈ T → i ∈ nodes.*1).
Proof.
  intros Hob Hh Hs. unfold _select_nodes_to_terminate in Hs.
  pose proof (sort_by_perm termination_lt nodes) as Hsort.
  destruct (pop_head (sort_by termination_lt nodes)) as [h l] eqn:Hpop.
  apply pop_head_ok in Hpop as (Hp & Hd & Hlen & Hhd).
  assert (heads (cores (sort_by termination_lt nodes).*2) = heads (cores nodes.*2)) as Eh
    by by rewrite Hsort.
  rewrite Hsort in Hp. rewrite Eh in Hd, Hhd. rewrite (Permutation_length Hsort) in Hlen.
  specialize (Hd Hh). injection Hs as <- <-. set (T := (take (Z.to_nat k) l).*1).
  assert (∀ p, p ∈ take (Z.to_nat k) l → p ∈ l) as Htk.
  { intros p (i & Hi & _)%elem_of_take. by eapply list_elem_of_lookup_2. }
  exists T. change (map (λ o : obj, if bool_decide (o.1 ∈ T)
    then (o.1, SchedulingNode.terminate cause o.2) else o) ?r) with (kill T cause r). split_and!.
  - rewrite <-kill_app, app_assoc, take_drop. apply kill_proper.
    by rewrite Hp, Permutation_app_comm.
  - apply Forall_forall. intros o Ho. apply (kill_elem _ _ _ _ Ho).
    unfold T. rewrite <-(kill_ids T cause). by apply list_elem_of_fmap_2.
  - rewrite length_kill, length_take, Hlen. destruct h; lia.
  - intros o Ho (p & Hid & Hp')%list_elem_of_fmap.
    assert (p ∈ l) as Hpl by by apply Htk.
    assert (o = p) as ->.
    { apply (ob_alias _ _ Hob); [done| |done]. rewrite Hp. apply elem_of_app. by right. }
    by apply (proj1 (no_heads l) Hd).
  - intros i (p & -> & Hp')%list_elem_of_fmap. apply list_elem_of_fmap_2. rewrite Hp.
    apply elem_of_app. right. by apply Htk.
Qed.
End scheduler.

(** ** The limit per type *)
Lemma active_of_app ty k l : active_of ty (k ++ l) = (active_of ty k + active_of ty l)%nat.
Proof. unfold active_of. by rewrite !filter_app, length_app. Qed.

Lemma heads_of_app ty k l : heads_of ty (k ++ l) = (heads_of ty k + heads_of ty l)%nat.
Proof. unfold heads_of. by rewrite !filter_app, length_app. Qed.

Lemma heads_app k l : heads (k ++ l) = (heads k + heads l)%nat.
Proof. unfold heads. by rewrite filter_app, length_app. Qed.

Lemma cores_app k l : cores (k ++ l) = cores k ++ cores l.
Proof. apply map_app. Qed.

Definition typed (ty : string) (l : list obj) : Prop :=
  Forall (λ o, SchedulingNode.node_type o.2 = ty) l.

Lemma typed_cores ty l : typed ty l → Forall (λ k, c_type k = ty) (cores l.*2).
Proof. intros Ht. unfold cores. by apply Forall_map, Forall_fmap. Qed.

Lemma Forall_sub_filter {A} (P Q : A → Prop) `{∀ a, Decision (Q a)} l :
  Forall P l → Forall P (filter Q l).
Proof. rewrite !Forall_forall. intros Hl a [_ Ha]%list_elem_of_filter. by apply Hl. Qed.

Lemma filter_all {A} (P : A → Prop) `{∀ a, Decision (P a)} l : Forall P l → filter P l = l.
Proof. induction 1 as [|a l Ha _ IH]; [done|]. by rewrite filter_cons_True, IH. Qed.

Lemma filter_none {A} (P : A → Prop) `{∀ a, Decision (P a)} l : Forall (λ a, ¬ P a) l → filter P l = [].
Proof. induction 1 as [|a l Ha _ IH]; [done|]. by rewrite filter_cons_False, IH. Qed.

Lemma active_of_typed ty t l : typed ty l →
  active_of t (cores l.*2) = if decide (t = ty) then active_total (cores l.*2) else 0%nat.
Proof.
  intros Ht%typed_cores. unfold active_of, active_total.
  assert (Forall (λ k, c_type k = ty) (filter k_active (cores l.*2))) as Hf by by apply Forall_sub_filter.
  destruct (decide (t = ty)) as [->|Hne]; [by rewrite filter_all|].
  rewrite filter_none; [done|]. eapply Forall_impl; [exact Hf|]. naive_solver.
Qed.

Lemma heads_of_typed ty l : typed ty l → heads_of ty (cores l.*2) = heads (cores l.*2).
Proof.
  intros Ht%typed_cores. unfold heads_of, heads. rewrite filter_all; [done|].
  by apply Forall_sub_filter.
Qed.

Lemma typed_kill ty T cause l : typed ty l → typed ty (kill T cause l).
Proof.
  unfold typed, kill. intros Hl. apply Forall_map. eapply Forall_impl; [exact Hl|].
  intros o Ho. simpl. by case_bool_decide.
Qed.

Lemma active_terminating l : Forall terminating l → active_total (cores l.*2) = 0%nat.
Proof.
  unfold active_total. induction 1 as [|o l Ho _ IH]; [done|]. unfold cores in *. simpl.
  rewrite filter_cons, decide_False; [done|]. unfold k_active. simpl. by intros [].
Qed.

Lemma active_length (l : list obj) : (active_total (cores l.*2) ≤ length l)%nat.
Proof.
  unfold active_total. etransitivity; [apply length_filter|]. unfold cores. by rewrite !length_map.
Qed.

Lemma active_total_app k l : active_total (k ++ l) = (active_total k + active_total l)%nat.
Proof. unfold active_total. by rewrite filter_app, length_app. Qed.

(** The grouping by type. *)
Record groups_ok (l : list obj) (d : dict string (list obj)) : Prop := {
  gr_wf : dwf d;
  gr_perm : concat d.*2 ≡ₚ l;
  gr_typed ty g : (ty, g) ∈ d → typed ty g
}.

Lemma concat_dset (d : dict string (list obj)) k o :
  concat (dset d k (default [] (dget d k) ++ [o])).*2 ≡ₚ concat d.*2 ++ [o].
Proof.
  induction d as [|[j w] d IH]; simpl; [done|]. case_decide; simpl.
  - rewrite <-!app_assoc. apply Permutation_app_head, Permutation_app_comm.
  - by rewrite IH, app_assoc.
Qed.

Lemma group_by_type_ok l : groups_ok l (group_by_type l).
Proof.
  unfold group_by_type. assert (∀ k d, groups_ok k d → groups_ok (k ++ l) (foldl (λ d o,
    dset d (SchedulingNode.node_type o.2)
      (default [] (dget d (SchedulingNode.node_type o.2)) ++ [o])) d l)) as Hg.
  2: { apply (Hg []). split; [constructor|done|]. by intros ty g ?%elem_of_nil. }
  induction l as [|o l IH]; intros k d [Hw Hp Ht]; [by rewrite app_nil_r|].
  cbn [foldl]. rewrite (app_assoc k [o] l : k ++ o :: l = (k ++ [o]) ++ l). apply IH. split.
  - by apply dset_wf.
  - by rewrite concat_dset, Hp.
  - intros ty g Hin. apply dget_wf_elem in Hin; [|by apply dset_wf].
    rewrite dget_dset in Hin. case_decide as Hty.
    + injection Hin as <-. apply Forall_app. split; [|by constructor].
      destruct (dget d _) as [g'|] eqn:Hg'; [|constructor]. apply dget_elem in Hg'.
      rewrite <-Hty in *. by apply Ht.
    + apply dget_elem in Hin. by apply Ht.
Qed.

Section limits.
Context `{Platform}.
Implicit Types (x : ScheduleContext.t).

(** One group: what it terminates, and what stays active. *)
Lemma group_limit next ty nodes max term kept : objects_ok next nodes → typed ty nodes →
  (heads (cores nodes.*2) ≤ 1)%nat →
  (if Z.of_nat (length nodes) - max <=? 0 then ([], nodes)
   else _select_nodes_to_terminate nodes (Z.of_nat (length nodes) - max) MAX_NUM_NODE_PER_TYPE)
    = (term, kept) →
  ∃ T, term ++ kept ≡ₚ kill T MAX_NUM_NODE_PER_TYPE nodes ∧
    (∀ o, o ∈ nodes → o.1 ∈ T → ¬ is_head o) ∧ (∀ i, i ∈ T → i ∈ nodes.*1) ∧
    Z.of_nat (active_of ty (cores (term ++ kept).*2))
      ≤ Z.max max (Z.of_nat (heads_of ty (cores nodes.*2))).
Proof.
  intros Hob Hty Hh. destruct (Z.leb_spec (Z.of_nat (length nodes) - max) 0).
  - intros [= <- <-]. exists []. rewrite kill_nil. split; [done|].
    split; [by intros o _ ?%elem_of_nil|]. split; [by intros i ?%elem_of_nil|].
    rewrite (active_of_typed ty) by done. rewrite decide_True by done.
    pose proof (active_length nodes). cbn [app]. lia.
  - intros Hs. destruct (select_ok _ _ _ _ _ _ Hob Hh Hs) as (T & Hp & Ht & Hlen & Hhd & Hid).
    exists T. split_and!; [done..|].
    assert (cores (term ++ kept).*2 ≡ₚ cores (kill T MAX_NUM_NODE_PER_TYPE nodes).*2) as Hc
      by by rewrite Hp.
    rewrite Hc, (active_of_typed ty) by by apply typed_kill. rewrite decide_True by done.
    rewrite <-Hc, fmap_app, cores_app, active_total_app, (active_terminating term Ht).
    pose proof (active_length kept). apply Permutation_length in Hp.
    rewrite length_kill, length_app in Hp. rewrite heads_of_typed by done. lia.
Qed.

Definition type_limits (configs : dict string NodeTypeConfig) (K : list core) : Prop :=
  ∀ ty c, dget configs ty = Some c →
    Z.of_nat (active_of ty K) ≤ Z.max (max_worker_nodes c) (Z.of_nat (heads_of ty K)).

Lemma groups_sub (d : dict string (list obj)) ty g o : (ty, g) ∈ d → o ∈ g → o ∈ concat d.*2.
Proof.
  intros Hd Ho. apply list_elem_of_In, in_concat. exists g.
  split; [|by apply list_elem_of_In]. apply list_elem_of_In, list_elem_of_fmap. by exists (ty, g).
Qed.

(** What a set of groups terminates, and the limits it keeps. *)
Record trimmed x (nodes : list obj) (T : list nat) (r : list obj * list obj) : Prop := {
  tr_nodes : r.1 ++ r.2 ≡ₚ kill T MAX_NUM_NODE_PER_TYPE nodes;
  tr_heads o : o ∈ nodes → o.1 ∈ T → ¬ is_head o;
  tr_ids i : i ∈ T → i ∈ nodes.*1;
  tr_limit ty c : dget (_node_type_configs x) ty = Some c →
    Z.of_nat (active_of ty (cores (r.1 ++ r.2).*2))
      ≤ Z.max (max_worker_nodes c) (Z.of_nat (heads_of ty (cores nodes.*2)))
}.

Lemma active_of_absent ty T cause l : (∀ o, o ∈ l → SchedulingNode.node_type o.2 ≠ ty) →
  active_of ty (cores (kill T cause l).*2) = 0%nat.
Proof.
  intros Hl. unfold active_of. rewrite filter_none; [done|].
  apply Forall_sub_filter. unfold cores. apply Forall_map, Forall_fmap, Forall_forall.
  intros p (q & -> & Hq)%list_elem_of_fmap Heq. apply (Hl q Hq). simpl in Heq.
  by case_bool_decide.
Qed.

(** Trimming two lists without a common object. *)
Lemma trimmed_app x ty k l T1 T2 r1 r2 :
  typed ty k → (∀ o, o ∈ l → SchedulingNode.node_type o.2 ≠ ty) →
  (∀ o p, o ∈ k → p ∈ l → o.1 ≠ p.1) →
  trimmed x k T1 r1 → trimmed x l T2 r2 → trimmed x (k ++ l) (T1 ++ T2) (r1.1 ++ r2.1, r1.2 ++ r2.2).
Proof.
  intros Hk Hl Hdis [Hp1 Hh1 Hi1 Hl1] [Hp2 Hh2 Hi2 Hl2].
  assert (∀ o, o ∈ k → o.1 ∉ T2) as H12.
  { intros o Ho (p & Heq & Hp)%Hi2%list_elem_of_fmap. by apply (Hdis o p). }
  assert (∀ o, o ∈ l → o.1 ∉ T1) as H21.
  { intros o Ho (p & Heq & Hp)%Hi1%list_elem_of_fmap. by apply (Hdis p o). }
  assert ((r1.1 ++ r2.1) ++ r1.2 ++ r2.2 ≡ₚ (r1.1 ++ r1.2) ++ r2.1 ++ r2.2) as Hperm.
  { rewrite <-!app_assoc. apply Permutation_app_head. rewrite !app_assoc.
    apply Permutation_app_tail, Permutation_app_comm. }
  split; cbn [fst snd].
  - rewrite Hperm, kill_app, Hp1, Hp2.
    rewrite (kill_ext (T1 ++ T2) T1 _ k), (kill_ext (T1 ++ T2) T2); [done| |];
      intros o Ho; rewrite elem_of_app; naive_solver.
  - intros o. rewrite !elem_of_app. intros [Ho|Ho] [HT|HT]; naive_solver.
  - intros i. rewrite fmap_app, !elem_of_app. naive_solver.
  - intros t c Hc. rewrite Hperm, (fmap_app snd (r1.1 ++ r1.2)), cores_app, active_of_app.
    rewrite (fmap_app snd k), (cores_app k.*2), heads_of_app.
    specialize (Hl1 t c Hc). specialize (Hl2 t c Hc).
    destruct (decide (t = ty)) as [->|Hne].
    + rewrite Hp2, active_of_absent by done. lia.
    + rewrite Hp1, active_of_absent; [lia|]. unfold typed in Hk. rewrite Forall_forall in Hk.
      intros o Ho. rewrite (Hk o Ho). congruence.
Qed.

Lemma group_trimmed next x ty nodes c r : objects_ok next nodes → typed ty nodes →
  (heads (cores nodes.*2) ≤ 1)%nat → dget (_node_type_configs x) ty = Some c →
  (if Z.of_nat (length nodes) - max_worker_nodes c <=? 0 then ([], nodes)
   else _select_nodes_to_terminate nodes (Z.of_nat (length nodes) - max_worker_nodes c)
     MAX_NUM_NODE_PER_TYPE) = r →
  ∃ T, trimmed x nodes T r.
Proof.
  intros Hob Hty Hh Hc Hr. destruct r as [term kept].
  destruct (group_limit next ty nodes (max_worker_nodes c) term kept) as (T & Hp & Hhd & Hi & Hl);
    [done..|].
  exists T. split; [done..|]. intros t c' Hc'. cbn [fst snd] in *.
  destruct (decide (t = ty)) as [->|Hne]; [by simplify_eq|].
  rewrite Hp, active_of_absent; [lia|]. unfold typed in Hty. rewrite Forall_forall in Hty.
  intros o Ho. rewrite (Hty o Ho). congruence.
Qed.

Lemma groups_typed (d : dict string (list obj)) o :
  (∀ ty g, (ty, g) ∈ d → typed ty g) → o ∈ concat d.*2 → SchedulingNode.node_type o.2 ∈ d.*1.
Proof.
  intros Hty Ho. apply list_elem_of_In, in_concat in Ho as (g & Hg & Ho).
  apply list_elem_of_In, list_elem_of_fmap in Hg as ([t g'] & -> & Hin).
  assert (typed t g') as Ht by by apply Hty. unfold typed in Ht. rewrite Forall_forall in Ht.
  apply list_elem_of_In in Ho. apply list_elem_of_fmap. exists (t, g').
  split; [by apply Ht|done].
Qed.

(** All groups. *)
Lemma max_per_type_ok next x groups r : dwf groups → (∀ ty g, (ty, g) ∈ groups → typed ty g) →
  objects_ok next (concat groups.*2) → (heads (cores (concat groups.*2).*2) ≤ 1)%nat →
  max_per_type x groups = Ok r → ∃ T, trimmed x (concat groups.*2) T r.
Proof.
  revert r. induction groups as [|[ty nodes] groups IH]; intros r Hw Hty Hob Hh Hm; cbn [max_per_type] in Hm.
  { injection Hm as <-. exists []. split; [done|by intros ? ?%elem_of_nil|by intros ? ?%elem_of_nil|].
    intros ty c _. unfold active_of. simpl. lia. }
  apply bind_ok in Hm as (c & Hc%or_raise_ok & Hm).
  rewrite fmap_cons in Hob, Hh |- *. cbn [concat snd] in *.
  rewrite fmap_app, cores_app, heads_app in Hh.
  destruct (if _ <=? 0 then _ else _) as [term kept] eqn:Hg. apply bind_ok in Hm as (rest & Hrest & [= <-]).
  unfold dwf in Hw. rewrite fmap_cons in Hw. apply NoDup_cons in Hw as [Hni Hw]. cbn [fst] in Hni.
  assert (∀ t g, (t, g) ∈ groups → typed t g) as Htg by (intros t g Hin; apply Hty; by right).
  assert (∀ o, o ∈ concat groups.*2 → SchedulingNode.node_type o.2 ≠ ty) as Hother.
  { intros o Ho Heq. apply Hni. rewrite <-Heq. by apply groups_typed. }
  assert (typed ty nodes) as Htn by (apply Hty; left).
  destruct (group_trimmed next x ty nodes c (term, kept)) as [T1 Ht1]; [|done|lia|done|done|].
  { eapply objects_sub; [|exact Hob]. intros o Ho. apply elem_of_app. by left. }
  destruct (IH rest) as [T2 Ht2]; [done|done| |lia|done|].
  { eapply objects_sub; [|exact Hob]. intros o Ho. apply elem_of_app. by right. }
  exists (T1 ++ T2). apply (trimmed_app x ty nodes _ T1 T2 (term, kept) rest); try done.
  intros o p Ho Hp Heq. apply (Hother p Hp).
  assert (o = p) as <-.
  { apply (ob_alias _ _ Hob); [apply elem_of_app; by left|apply elem_of_app; by right|done]. }
  unfold typed in Htn. rewrite Forall_forall in Htn. by apply Htn.
Qed.
End limits.
