(* ===== verification/SchedulerSteps.v ===== *)
(** * The scheduler: the invariant of its steps

    [ready] holds until requests are placed, [limited] from the limits on. *)
From S2P Require Import Prelude PyDict PyStr PyFloat InstanceUtil SchedNode SchedNodeFacts.
From S2P Require Import Scheduler SchedulerFacts SchedulerInv.

Import ScheduleContext ResourceDemandScheduler.

Section steps.
Context `{Platform}.
Implicit Types (x : ScheduleContext.t).

Abbreviation ctx_cores x := (cores (_nodes x).*2).

Record ready x : Prop := {
  rd_ctx : ctx_ok x;
  rd_safe : safe (ctx_cores x);
  rd_objects : objects_ok (next_id x) (_nodes x)
}.

Definition global_limit x : Prop :=
  ∀ m, _max_num_nodes x = Some m → m ≠ 0 → Z.of_nat (active_total (ctx_cores x)) ≤ m.

Record limited x : Prop := {
  lm_ctx : ctx_ok x;
  lm_safe : safe (ctx_cores x);
  lm_types : type_limits (_node_type_configs x) (ctx_cores x);
  lm_global : global_limit x
}.

Lemma update_ctx_ok nodes next x : ctx_ok x → NoDup (clouds nodes.*2) → ctx_ok (update nodes next x).
Proof. intros [Hc _ _] Hn. by split. Qed.

(** ** Before the limits *)
Lemma killed_ctx nodes next x : ctx_ok x → Forall2 killed (ctx_cores x) (cores nodes.*2) →
  ctx_ok (update nodes next x).
Proof.
  intros Hx Hk. apply update_ctx_ok; [done|]. unfold clouds.
  rewrite (killed_clouds _ _ Hk). apply (ctx_clouds _ Hx).
Qed.

Lemma ready_killed nodes x : ready x → Forall2 killed (ctx_cores x) (cores nodes.*2) →
  objects_ok (next_id x) nodes → ready (update nodes (next_id x) x).
Proof.
  intros [Hx Hs _] Hk Ho. split; [by apply killed_ctx|by apply (killed_safe _ _ Hk)|done].
Qed.

Lemma outdated_ready x : ready x → ready (_terminate_outdated_nodes x).
Proof.
  intros Hx. unfold _terminate_outdated_nodes. destruct (_disable_launch_config_check x); [done|].
  apply ready_killed; [done| |].
  - unfold get_nodes, cores. generalize (_nodes x). intros l.
    induction l as [|o l IH]; [constructor|]. simpl. constructor; [|done].
    destruct (_ && _ && _) eqn:E; [|by left]. simpl. apply terminate_killed.
    apply andb_true_iff in E as [[_ E]%andb_true_iff _].
    by apply negb_true_iff, bool_decide_eq_false in E.
  - destruct Hx as [_ _ Ho].
    set (f := λ o : obj, let n := o.2 in if bool_decide (SchedulingNode.status n = SCHEDULABLE) &&
         negb (bool_decide (SchedulingNode.node_kind n = HEAD)) && is_outdated x n
      then SchedulingNode.terminate OUTDATED n else n).
    rewrite (map_ext _ (λ o : obj, (o.1, f o))); [by apply objects_map|].
    intros [i n]. unfold f. simpl. by destruct (_ && _ && _).
Qed.

(** The nodes launched for the minimum of each type. *)
Record min_nodes_ok (next : nat) (r : list obj * nat) : Prop := {
  mn_core : Forall (λ o, launch_core o.2) r.1;
  mn_alias o o' : o ∈ r.1 → o' ∈ r.1 → o.1 = o'.1 → o = o';
  mn_range o : o ∈ r.1 → (next ≤ o.1 < r.2)%nat;
  mn_next : (next ≤ r.2)%nat
}.

Lemma min_nodes_spec x configs next : min_nodes_ok next (min_nodes x configs next).
Proof.
  revert next. induction configs as [|[ty c] configs IH]; intros next; cbn [min_nodes].
  { split; simpl; [done|by intros ? ? ?%elem_of_nil|by intros ? ?%elem_of_nil|lia]. }
  destruct (IH (S next)) as [Hc Ha Hr Hn]. destruct (min_nodes x configs (S next)) as [rest next'].
  cbn [fst snd] in *. set (n := from_node_config c TO_LAUNCH WORKER None None).
  assert (∀ o, o ∈ replicate (Z.to_nat (min_worker_nodes c - get_cluster_shape x ty)) (next, n) →
    o = (next, n)) as Hrep by by intros o [-> _]%elem_of_replicate.
  split; cbn [fst snd].
  - apply Forall_app. split; [|done]. apply Forall_forall. by intros o ->%Hrep.
  - intros o o' [Ho%Hrep|Ho]%elem_of_app [Ho'%Hrep|Ho']%elem_of_app Hid; subst; simpl in *.
    + done.
    + specialize (Hr o' Ho'). lia.
    + specialize (Hr o Ho). lia.
    + by apply Ha.
  - intros o [->%Hrep|Ho]%elem_of_app; simpl; [lia|]. specialize (Hr o Ho). lia.
  - lia.
Qed.

Lemma launch_cores_safe (l : list obj) K : Forall launch_core l.*2 → safe K → safe (cores l.*2 ++ K).
Proof.
  intros Hl [Hh Hf]. split.
  - rewrite heads_app. assert (heads (cores l.*2) = 0%nat) as ->; [|done]. apply no_heads.
    rewrite Forall_forall in Hl. intros o Ho.
    assert (launch_core o.2) as Hc by by apply Hl, list_elem_of_fmap_2.
    apply (f_equal c_kind) in Hc. unfold is_head. simpl in Hc. by rewrite Hc.
  - apply Forall_app. split; [|done]. unfold cores. apply Forall_map.
    eapply Forall_impl; [exact Hl|]. intros n Hn. simpl. rewrite Hn. split; done.
Qed.

Lemma launch_cores_clouds (l : list obj) : Forall launch_core l.*2 → clouds l.*2 = [].
Proof.
  unfold clouds, cores. induction l as [|o l IH]; [done|]. rewrite fmap_cons.
  intros [Ho Hl]%Forall_cons. simpl. apply (f_equal c_cloud) in Ho. simpl in Ho. rewrite Ho.
  by apply IH.
Qed.

Lemma clouds_app k l : clouds (k ++ l) = clouds k ++ clouds l.
Proof. unfold clouds. by rewrite cores_app, omap_app. Qed.

Lemma min_ready x : ready x → ready (_enforce_min_workers_per_type x).
Proof.
  intros [Hx Hs [Ha Hf]]. unfold _enforce_min_workers_per_type.
  destruct (min_nodes_spec x (_node_type_configs x) (next_id x)) as [Hc Hal Hr Hn].
  destruct (min_nodes x _ _) as [new next]. cbn [fst snd] in *.
  assert (Forall launch_core new.*2) as Hl by by apply Forall_fmap.
  split.
  - apply update_ctx_ok; [done|]. rewrite fmap_app, clouds_app, launch_cores_clouds by done.
    apply (ctx_clouds _ Hx).
  - simpl. rewrite fmap_app, cores_app. by apply launch_cores_safe.
  - simpl. split.
    + intros o o' [Ho|Ho]%elem_of_app [Ho'|Ho']%elem_of_app Hid; [by apply Hal| | |by apply Ha].
      * specialize (Hr o Ho). specialize (Hf o' Ho'). lia.
      * specialize (Hr o' Ho'). specialize (Hf o Ho). lia.
    + intros o [Ho|Ho]%elem_of_app; [by apply Hr|]. specialize (Hf o Ho). lia.
Qed.

(** ** The limits *)
Lemma active_split (l : list obj) : filter terminating l ++ filter active l ≡ₚ l.
Proof.
  induction l as [|o l IH]; [done|]. rewrite !filter_cons. unfold terminating, active in *.
  destruct (decide (SchedulingNode.status o.2 = TO_TERMINATE)) as [E|E].
  - rewrite decide_False by naive_solver. simpl. by rewrite IH.
  - rewrite decide_True by done. by rewrite <-Permutation_middle, IH.
Qed.

(** Terminating objects among the active nodes. *)
Lemma trim_nodes next nodes rest T cause : objects_ok next nodes →
  rest ≡ₚ kill T cause (filter active nodes) → (∀ i, i ∈ T → i ∈ (filter active nodes).*1) →
  filter terminating nodes ++ rest ≡ₚ kill T cause nodes.
Proof.
  intros Hob Hr Hi. rewrite <-(active_split nodes) at 2. rewrite kill_app, Hr.
  rewrite (kill_ext T [] cause (filter terminating nodes)), kill_nil; [done|].
  intros o [Ht Ho]%list_elem_of_filter. split; [|by intros ?%elem_of_nil].
  intros HT. apply Hi, list_elem_of_fmap in HT as (p & Heq & [Hp Hin]%list_elem_of_filter).
  assert (o = p) as <- by by apply (ob_alias _ _ Hob). by destruct Hp.
Qed.

Lemma ready_trim x nodes T cause : ready x → nodes ≡ₚ kill T cause (_nodes x) →
  (∀ o, o ∈ filter active (_nodes x) → o.1 ∈ T → ¬ is_head o) →
  (∀ i, i ∈ T → i ∈ (filter active (_nodes x)).*1) →
  ready (update nodes (next_id x) x) ∧ heads (cores nodes.*2) = heads (ctx_cores x) ∧
  ∀ ty, heads_of ty (cores nodes.*2) = heads_of ty (ctx_cores x) ∧
    (active_of ty (cores nodes.*2) ≤ active_of ty (ctx_cores x))%nat.
Proof.
  intros [Hx Hs Ho] Hp Hh Hi.
  assert (Forall2 killed (ctx_cores x) (cores (kill T cause (_nodes x)).*2)) as Hk.
  { apply kill_killed. intros o Hin HT. destruct (decide (active o)) as [Ha|Ha].
    - apply (Hh o); [by apply list_elem_of_filter|done].
    - apply Hi, list_elem_of_fmap in HT as (p & Heq & [Hpa Hpi]%list_elem_of_filter).
      assert (o = p) as <- by by apply (ob_alias _ _ Ho). done. }
  assert (cores nodes.*2 ≡ₚ cores (kill T cause (_nodes x)).*2) as Hc by by rewrite Hp.
  destruct (killed_heads _ _ Hk) as [E1 E2]. split; [|split; [by rewrite Hc|]].
  2: { intros ty. rewrite !Hc. split; [done|apply (killed_active _ _ Hk)]. }
  split.
  - apply update_ctx_ok; [done|]. unfold clouds. rewrite Hc, (killed_clouds _ _ Hk). apply (ctx_clouds _ Hx).
  - simpl. rewrite Hc. by apply (killed_safe _ _ Hk).
  - simpl. apply (objects_sub _ _ (kill T cause (_nodes x))); [|by apply kill_objects].
    intros o. by rewrite Hp.
Qed.

Lemma filter_objects next l : objects_ok next l → objects_ok next (filter active l).
Proof. apply objects_sub. by intros o [_ ?]%list_elem_of_filter. Qed.

Lemma filter_heads (l : list obj) :
  (heads (cores (filter active l).*2) ≤ heads (cores l.*2))%nat ∧
  ∀ ty, (heads_of ty (cores (filter active l).*2) ≤ heads_of ty (cores l.*2))%nat.
Proof.
  assert (cores l.*2 ≡ₚ cores (filter terminating l).*2 ++ cores (filter active l).*2) as Hp.
  { by rewrite <-cores_app, <-fmap_app, active_split. }
  split; [|intros ty]; rewrite Hp, ?heads_app, ?heads_of_app; lia.
Qed.

Lemma active_of_terminating ty (l : list obj) : active_of ty (cores (filter terminating l).*2) = 0%nat.
Proof.
  assert (active_total (cores (filter terminating l).*2) = 0%nat) as Ha.
  { apply active_terminating, Forall_forall. by intros o [? _]%list_elem_of_filter. }
  unfold active_of, active_total in *. apply length_zero_iff_nil in Ha. by rewrite Ha.
Qed.

Lemma active_total_filter (l : list obj) : active_total (cores l.*2) = length (filter active l).
Proof.
  induction l as [|o l IH]; [done|]. change (cores (o :: l).*2) with (cores [o.2] ++ cores l.*2).
  rewrite active_total_app, IH, filter_cons. unfold active_total, cores. simpl.
  rewrite filter_cons. destruct (decide (active o)) as [Ha|Ha].
  - by rewrite decide_True.
  - by rewrite decide_False.
Qed.

(** [x'] is [x] with the objects of a list terminated. *)
Record trimmed_from x x' : Prop := {
  tf_nodes : ∃ T cause, _nodes x' ≡ₚ kill T cause (_nodes x);
  tf_configs : _node_type_configs x' = _node_type_configs x;
  tf_max : _max_num_nodes x' = _max_num_nodes x
}.

Lemma max_types_ready x x' : ready x → _enforce_max_workers_per_type x = Ok x' →
  ready x' ∧ type_limits (_node_type_configs x') (ctx_cores x') ∧ trimmed_from x x'.
Proof.
  intros Hx He. unfold _enforce_max_workers_per_type, get_nodes in He.
  apply bind_ok in He as (r & Hr & He). apply bind_ok in He as (u & _ & [= <-]).
  destruct (group_by_type_ok (filter active (_nodes x))) as [Hw Hp Ht].
  destruct (filter_heads (_nodes x)) as [Hle Hles]. pose proof (rd_safe _ Hx) as [Hh1 _].
  assert (heads (cores (concat (group_by_type (filter active (_nodes x))).*2).*2) ≤ 1)%nat as Hgh
    by (rewrite Hp; lia).
  destruct (max_per_type_ok (next_id x) x _ r Hw Ht) as [T [Hn Hh Hi Hl]]; [|done|done|].
  { apply (objects_sub _ _ (filter active (_nodes x))); [intros o; by rewrite Hp|].
    apply filter_objects, Hx. }
  rewrite Hp in Hn. setoid_rewrite Hp in Hh. setoid_rewrite Hp in Hi.
  pose proof (trim_nodes _ _ _ _ _ (rd_objects _ Hx) Hn Hi) as Hk. rewrite app_assoc in Hk.
  destruct (ready_trim x _ T _ Hx Hk Hh Hi) as (Hready & _ & Hheads). split; [done|].
  split; [|by split; [eexists _, _|..]]. intros ty c Hc. simpl in Hc |- *. specialize (Hl ty c Hc).
  rewrite (proj1 (Hheads ty)). rewrite <-(app_assoc (filter terminating (_nodes x))), (fmap_app snd (filter terminating (_nodes x))).
  rewrite cores_app, active_of_app, active_of_terminating.
  assert (heads_of ty (cores (concat (group_by_type (filter active (_nodes x))).*2).*2)
    ≤ heads_of ty (ctx_cores x))%nat by (rewrite Hp; apply Hles).
  lia.
Qed.

Lemma max_global_limited x x' : ready x → type_limits (_node_type_configs x) (ctx_cores x) →
  _enforce_max_workers_global x = Ok x' →
  limited x' ∧ trimmed_from x x'.
Proof.
  intros Hx Ht He. unfold _enforce_max_workers_global, get_nodes in He.
  set (num := match _max_num_nodes x with Some m => _ | None => 0 end) in He.
  destruct (Z.leb_spec num 0) as [Hn|Hn].
  - injection He as <-. split; [|split; [exists [], MAX_NUM_NODES; by rewrite kill_nil|done|done]].
    split; [apply Hx|apply Hx|done|].
    intros m Hm Hm0. unfold num in Hn. rewrite Hm, (proj2 (Z.eqb_neq _ _) Hm0) in Hn.
    rewrite active_total_filter. lia.
  - destruct (_select_nodes_to_terminate _ _ _) as [term kept] eqn:Hs.
    apply bind_ok in He as (u & Hlen%py_assert_ok & He). apply bind_ok in He as (u' & _ & [= <-]).
    apply Z.eqb_eq in Hlen. destruct (filter_heads (_nodes x)) as [Hle _].
    pose proof (rd_safe _ Hx) as [Hh1 _].
    destruct (select_ok (next_id x) _ _ _ _ _ (filter_objects _ _ (rd_objects _ Hx)) ltac:(lia) Hs)
      as (T & Hp & Hterm & _ & Hh & Hi).
    pose proof (trim_nodes _ _ _ _ _ (rd_objects _ Hx) Hp Hi) as Hk. rewrite app_assoc in Hk.
    destruct (ready_trim x _ T _ Hx Hk Hh Hi) as (Hready & _ & Hheads).
    split; [|by split; [eexists _, _|..]]. split; [apply Hready|apply Hready| |].
    + intros ty c Hc. simpl in Hc |- *. destruct (Hheads ty) as [-> Ha]. specialize (Ht ty c Hc). lia.
    + intros m Hm Hm0. simpl in Hm |- *. unfold num in Hlen. rewrite Hm, (proj2 (Z.eqb_neq _ _) Hm0) in Hlen.
      rewrite <-app_assoc, !fmap_app, !cores_app, !active_total_app.
      rewrite (active_terminating term Hterm), (active_terminating (filter terminating _)).
      2: { apply Forall_forall. by intros o [? _]%list_elem_of_filter. }
      pose proof (active_length kept). apply Permutation_length in Hp.
      rewrite length_kill, length_app in Hp. lia.
Qed.
End steps.
