(* ===== verification/SchedulerProps.v ===== *)
(** * The resource demand scheduler: what one round guarantees *)
From S2P Require Import Prelude PyDict PyStr PyFloat InstanceUtil SchedNode SchedNodeFacts.
From S2P Require Import Scheduler SchedulerFacts SchedulerInv SchedulerSteps.

Import ScheduleContext ResourceDemandScheduler.

Section rounds.
Context `{Platform}.
Implicit Types (x : ScheduleContext.t).

Abbreviation ctx_nodes x := ((_nodes x).*2).
Abbreviation ctx_cores x := (cores (_nodes x).*2).

(** ** Placing requests *)

(** Moving from [x] to [x'] by placing [reqs] of the source [s] but [rest]. *)
Record step (s : ResourceRequestSource) x (reqs : list ResourceRequest) x' (rest : list ResourceRequest) :
    Prop := {
  st_limited : limited x';
  st_placed : placed s (ctx_nodes x) ++ reqs ≡ₚ placed s (ctx_nodes x') ++ rest;
  st_other : placed (other s) (ctx_nodes x') ≡ₚ placed (other s) (ctx_nodes x);
  st_launched : ∃ launched : list obj, ctx_cores x' ≡ₚ ctx_cores x ++ cores launched.*2 ∧
    Forall launch_core launched.*2;
  st_configs : _node_type_configs x' = _node_type_configs x;
  st_max : _max_num_nodes x' = _max_num_nodes x;
  st_idle : _idle_timeout_s x' = _idle_timeout_s x
}.

Lemma step_refl s x : limited x → step s x [] x [].
Proof. intros Hx. split; try done. exists []. by rewrite app_nil_r. Qed.

Lemma step_trans s x r1 y z r2 : step s x r1 y [] → step s y r2 z [] → step s x (r1 ++ r2) z [].
Proof.
  intros [] [Hl Hp Ho (l2 & Hl2 & Hf2) Hc Hm Hi]. destruct st_launched0 as (l1 & Hl1 & Hf1).
  split; [done| | | |congruence|congruence|congruence].
  - by rewrite app_assoc, st_placed0, app_nil_r, Hp.
  - by rewrite Ho.
  - exists (l1 ++ l2). split; [|rewrite fmap_app; by apply Forall_app].
    by rewrite Hl2, Hl1, fmap_app, cores_app, app_assoc.
Qed.

Lemma count_type_cores ty (l : list obj) :
  count_type ty l = Z.of_nat (length (filter (λ k, c_type k = ty) (cores l.*2))).
Proof.
  unfold count_type, cores. f_equal. induction l as [|o l IH]; [done|]. simpl.
  rewrite !filter_cons. simpl. case_decide; simpl; by rewrite IH.
Qed.

Lemma active_of_le ty K : (active_of ty K ≤ length (filter (λ k, c_type k = ty) K))%nat.
Proof.
  unfold active_of. induction K as [|k K IH]; [done|]. rewrite !filter_cons.
  repeat case_decide; simpl; try rewrite !filter_cons; repeat case_decide; simpl; try done; lia.
Qed.

Lemma place_step x reqs s r : limited x → place x reqs s = Ok r →
  ∃ x' rest, r = Some (x', rest) ∧ step s x reqs x' rest.
Proof.
  intros [Hx Hs Ht Hg] Hp. unfold place in Hp. apply bind_ok in Hp as (o & Ho & [= <-]).
  destruct (try_schedule_spec _ _ _ _ Hx Ho) as (targets & rest & next & launched & -> & [Hpl Hot Hc Hl Hn Hm]).
  eexists _, rest. split; [done|]. split; try done.
  - split.
    + apply update_ctx_ok; [done|]. unfold clouds. rewrite Hc, omap_app.
      change (omap c_cloud (cores launched.*2)) with (clouds launched.*2).
      rewrite launch_cores_clouds, app_nil_r by done. apply (ctx_clouds _ Hx).
    + simpl. rewrite Hc, Permutation_app_comm. by apply launch_cores_safe.
    + intros ty c Hty. simpl in Hty |- *. rewrite Hc, active_of_app, heads_of_app.
      specialize (Ht ty c Hty). specialize (Hn ty).
      rewrite (ctx_available _ Hx), available_get, Hty in Hn. simpl in Hn.
      rewrite !count_type_cores in Hn.
      pose proof (active_of_le ty (ctx_cores x)). pose proof (active_of_le ty (cores launched.*2)). lia.
    + intros m Hmax Hm0. simpl in Hmax |- *. specialize (Hg m Hmax Hm0).
      destruct (decide (launched = [])) as [->|Hne].
      * rewrite Hc. by rewrite app_nil_r.
      * specialize (Hm m Hne Hmax). pose proof (active_length targets). lia.
  - by exists launched.
Qed.

Lemma gang_loop_step x gangs r : limited x → gang_loop x gangs = Ok r →
  ∃ x' bad good bundles, r = Some (x', bad) ∧ gangs ≡ₚ good ++ bad ∧
    Forall2 (λ g b, gang_bundle g = Ok b) good bundles ∧
    step PENDING_DEMAND x (concat bundles) x' [].
Proof.
  revert x r. induction gangs as [|g gangs IH]; intros x r Hx Hg; simpl in Hg.
  { injection Hg as <-. exists x, [], [], []. split; [done|]. split; [done|]. split; [constructor|].
    by apply step_refl. }
  apply bind_ok in Hg as (b & Hb & Hg). apply bind_ok in Hg as (o & Ho & Hg).
  destruct (place_step _ _ _ _ Hx Ho) as (y & [|q rest] & -> & Hy).
  - destruct (IH y r (st_limited _ _ _ _ _ Hy) Hg) as (x' & bad & good & bundles & -> & Hp & Hf & Hst).
    exists x', bad, (g :: good), (b :: bundles). split; [done|]. split; [by rewrite Hp|].
    split; [by constructor|]. by apply (step_trans _ _ b y).
  - apply bind_ok in Hg as (r' & Hr' & [= <-]).
    destruct (IH x r' Hx Hr') as (x' & bad & good & bundles & -> & Hp & Hf & Hst).
    exists x', (g :: bad), good, bundles. split; [done|].
    split; [by rewrite Hp, Permutation_middle|]. by split.
Qed.

Lemma constraints_step x cs r : limited x → _enforce_resource_constraints x cs = Ok r →
  ∃ x' bad, r = Some (x', bad) ∧
    step CLUSTER_RESOURCE_CONSTRAINT x
      (match bad with [] => concat (map ResourceRequestUtil.ungroup_by_count cs) | _ => [] end) x' [] ∧
    (bad = [] ∨ bad = cs).
Proof.
  intros Hx Hr. unfold _enforce_resource_constraints in Hr.
  apply bind_ok in Hr as (u & Hlen%py_assert_ok & Hr). destruct cs as [|c cs].
  { injection Hr as <-. exists x, []. split; [done|]. split; [by apply step_refl|by left]. }
  destruct cs; [|done]. apply bind_ok in Hr as (o & Ho & [= <-]).
  destruct (place_step _ _ _ _ Hx Ho) as (y & [|q rest] & -> & Hy).
  - exists y, []. split; [done|]. simpl. rewrite app_nil_r. split; [done|by left].
  - exists x, [c]. split; [done|]. split; [by apply step_refl|by right].
Qed.

(** ** The request *)
Definition head_instance (i : AutoscalerInstance) : bool :=
  match im_instance i with Some im => bool_decide (node_kind im = HEAD) | None => false end.

(** A request as the reconciler makes it: distinct node types under their own
    names, at most one head, and resize statuses under their cloud ids. *)
Record request_ok (req : SchedulingRequest) : Prop := {
  ro_configs : configs_ok (node_type_configs req);
  ro_heads : (length (filter (λ i, head_instance i = true) (current_instances req)) ≤ 1)%nat;
  ro_ids : NoDup (omap ai_cloud_instance_id (current_instances req));
  ro_statuses id st : dget (ippr_statuses req) id = Some st → IPPRStatus.cloud_instance_id st = id
}.

Definition initial_node (req : SchedulingRequest) (i : AutoscalerInstance) : option SchedulingNode.t :=
  attach_ippr req i <$> new i (node_type_configs req) (disable_launch_config_check req).

Lemma new_spec i configs dis n : new i configs dis = Some n →
  core_fine (core_of n) ∧ (SchedulingNode.node_kind n = HEAD → head_instance i = true) ∧
  SchedulingNode.ippr_status n = None.
Proof.
  unfold new, is_schedulable, head_instance, core_fine, k_head, k_active, new_from.
  destruct (im_instance i) as [im|]; [|done]. rewrite bool_decide_eq_true.
  destruct (InstanceUtil.is_ray_running_reachable (status im)); [|done]. simpl.
  case_bool_decide.
  - destruct (ray_node i) as [rn|]; [|done]. intros [= <-]. by split_and!.
  - destruct (dget configs (instance_type im)) as [c|]; [intros [= <-]; by split_and!|].
    destruct dis; [done|]. intros [= <-]. simpl. split_and!; try done; by intros [].
Qed.

Lemma attach_spec req i n : request_ok req → SchedulingNode.ippr_status n = None →
  let n' := attach_ippr req i n in
  c_type (core_of n') = c_type (core_of n) ∧ c_status (core_of n') = c_status (core_of n) ∧
  c_kind (core_of n') = c_kind (core_of n) ∧ c_termination (core_of n') = c_termination (core_of n) ∧
  (c_cloud (core_of n') = None ∨ c_cloud (core_of n') = ai_cloud_instance_id i).
Proof.
  intros [_ _ _ Hst] Hn n'. unfold n', attach_ippr.
  destruct (ai_cloud_instance_id i) as [id|]; [|simpl; rewrite Hn; naive_solver].
  destruct (ippr_specs req) as [groups|]; [|simpl; rewrite Hn; naive_solver].
  destruct (dget (ippr_statuses req) id) as [st|] eqn:Hid; [|simpl; rewrite Hn; naive_solver].
  destruct (dget groups _); [|simpl; rewrite Hn; naive_solver].
  apply Hst in Hid. simpl. split_and!; try done. right. case_bool_decide; simpl; by rewrite Hid.
Qed.

Lemma heads_cons_core k K : heads (k :: K) = ((if decide (k_head k) then 1 else 0) + heads K)%nat.
Proof. unfold heads. rewrite filter_cons. by case_decide. Qed.

Lemma clouds_cons n l : clouds (n :: l) =
  match c_cloud (core_of n) with Some c => c :: clouds l | None => clouds l end.
Proof. done. Qed.

Lemma initial_nodes_spec req l : request_ok req →
  let ns := omap (initial_node req) l in
  Forall core_fine (cores ns) ∧
  (heads (cores ns) ≤ length (filter (λ i, head_instance i = true) l))%nat ∧
  clouds ns `sublist_of` omap ai_cloud_instance_id l.
Proof.
  intros Hr ns. unfold ns. clear ns. induction l as [|i l (IH1 & IH2 & IH3)]; [done|].
  change (omap (initial_node req) (i :: l)) with (match initial_node req i with
    | Some n => n :: omap (initial_node req) l | None => omap (initial_node req) l end).
  change (omap ai_cloud_instance_id (i :: l)) with (match ai_cloud_instance_id i with
    | Some c => c :: omap ai_cloud_instance_id l | None => omap ai_cloud_instance_id l end).
  destruct (initial_node req i) as [n'|] eqn:Hn'.
  - apply fmap_Some in Hn' as (n & Hn & Heq).
    destruct (new_spec _ _ _ _ Hn) as (Hf & Hh & Hi).
    destruct (attach_spec req i n Hr Hi) as (Ht & Hs & Hk & Htr & Hc). rewrite <-Heq in *.
    change (cores (n' :: ?l)) with (core_of n' :: cores l). split_and!.
    + constructor; [|done]. unfold core_fine, k_head, k_active in *. by rewrite Hs, Hk, Htr.
    + rewrite heads_cons_core, filter_cons.
      destruct (decide (k_head (core_of n'))) as [Hkh|_]; [|case_decide; simpl; lia].
      rewrite decide_True; [simpl; lia|]. apply Hh. unfold k_head in Hkh. by rewrite Hk in Hkh.
    + rewrite clouds_cons. destruct Hc as [-> | ->].
      * destruct (ai_cloud_instance_id i); [by constructor|done].
      * destruct (ai_cloud_instance_id i); [by constructor|done].
  - split_and!; [done| |].
    + rewrite filter_cons. case_decide; simpl; lia.
    + destruct (ai_cloud_instance_id i); [by constructor|done].
Qed.

Lemma imap_pair_snd {A} (l : list A) : (imap pair l).*2 = l.
Proof. rewrite fmap_imap. unfold compose. etransitivity; [exact (imap_const id l)|apply list_fmap_id]. Qed.

Lemma request_ready req : request_ok req → ready (from_schedule_request req).
Proof.
  intros Hr. destruct (initial_nodes_spec req (current_instances req) Hr) as (Hf & Hh & Hc).
  set (ns := omap (initial_node req) (current_instances req)) in *.
  assert (ctx_nodes (from_schedule_request req) = ns) as Hns by apply imap_pair_snd.
  split.
  - split; [apply Hr|done|]. rewrite Hns. eapply sublist_NoDup; [apply (ro_ids _ Hr)|exact Hc].
  - rewrite Hns. split; [|done]. pose proof (ro_heads _ Hr). lia.
  - assert (∀ o, o ∈ _nodes (from_schedule_request req) → ns !! o.1 = Some o.2) as Ho.
    { intros o (i & n & -> & Hi)%elem_of_lookup_imap. done. }
    split.
    + intros [i n] [j m] Hi Hj Heq. apply Ho in Hi, Hj. simpl in *. congruence.
    + intros o Hi%Ho%lookup_lt_Some. simpl. by rewrite length_imap.
Qed.

(** ** Idle nodes *)
Definition idled x (o o' : obj) : Prop :=
  o' = o ∨ idle_too_long x o.2 = true ∧ o' = (o.1, SchedulingNode.terminate IDLE o.2).

Lemma idle_schedulable x n : idle_too_long x n = true →
  SchedulingNode.status n = SCHEDULABLE ∧ SchedulingNode.node_kind n ≠ HEAD ∧
  SchedulingNode.get_sched_requests PENDING_DEMAND n = [] ∧
  SchedulingNode.get_sched_requests CLUSTER_RESOURCE_CONSTRAINT n = [].
Proof.
  unfold idle_too_long. rewrite !andb_true_iff, !bool_decide_eq_true, negb_true_iff, bool_decide_eq_false.
  naive_solver.
Qed.

Lemma active_of_obj ty o (l : list obj) : active_of ty (cores (o :: l).*2) =
  ((if decide (active o ∧ SchedulingNode.node_type o.2 = ty) then 1 else 0)
   + active_of ty (cores l.*2))%nat.
Proof.
  change (cores (o :: l).*2) with (core_of o.2 :: cores l.*2). unfold active_of.
  rewrite filter_cons. destruct (decide (active o)) as [Ha|Ha].
  - rewrite (decide_True (P:=k_active _)), filter_cons by done.
    destruct (decide (SchedulingNode.node_type o.2 = ty)) as [Ht|Ht].
    + by rewrite !decide_True by done.
    + rewrite !decide_False; [done|by intros []|done].
  - rewrite !decide_False; [done|by intros []|done].
Qed.

(** The loop terminates [t] nodes of a type, never past its minimum, and keeps
    an idle node only at the minimum. *)
Lemma idle_loop_ok x terminated l : let r := idle_loop x terminated l in
  Forall2 (idled x) l r ∧
  ∀ ty, ∃ t : Z, 0 ≤ t ∧
    Z.of_nat (active_of ty (cores r.*2)) + t = Z.of_nat (active_of ty (cores l.*2)) ∧
    (t = 0 ∨ min_count_of x ty ≤ get_cluster_shape x ty - terminated ty - t) ∧
    ((∃ o, o ∈ r ∧ idle_too_long x o.2 = true ∧ SchedulingNode.node_type o.2 = ty) →
      get_cluster_shape x ty - terminated ty - t ≤ min_count_of x ty).
Proof.
  revert terminated. induction l as [|o l IH]; intros terminated r; unfold r; cbn [idle_loop].
  { split; [constructor|]. intros ty. exists 0. split_and!; [done|done|by left|].
    intros (o & ?%elem_of_nil & _). done. }
  set (oty := SchedulingNode.node_type o.2).
  destruct (idle_too_long x o.2) eqn:Hidle; cbn [andb].
  2: { destruct (IH terminated) as [Hf Ht]. split; [constructor; [by left|done]|].
    intros ty. destruct (Ht ty) as (t & H0 & Ha & Hm & Hk). exists t.
    rewrite !active_of_obj. split_and!; [done|lia|done|].
    intros (p & [->|Hp]%elem_of_cons & Hi & Hty); [congruence|]. apply Hk. by exists p. }
  destruct (Z.leb_spec (get_cluster_shape x oty - terminated oty) (min_count_of x oty)) as [Hle|Hgt];
    cbn [negb].
  - destruct (IH terminated) as [Hf Ht]. split; [constructor; [by left|done]|].
    intros ty. destruct (Ht ty) as (t & H0 & Ha & Hm & Hk). exists t.
    rewrite !active_of_obj. split_and!; [done|lia|done|].
    intros (p & [->|Hp]%elem_of_cons & Hi & Hty).
    + fold oty in Hty. subst ty. lia.
    + apply Hk. by exists p.
  - destruct (idle_schedulable _ _ Hidle) as (Hst & _).
    destruct (IH (λ ty', terminated ty' + (if decide (ty' = oty) then 1 else 0))) as [Hf Ht].
    split; [constructor; [by right|done]|].
    intros ty. destruct (Ht ty) as (t & H0 & Ha & Hm & Hk). rewrite !active_of_obj.
    rewrite (decide_False (P:=active (o.1, _) ∧ _)) by by intros [[] _].
    exists (t + if decide (ty = oty) then 1 else 0).
    assert (active o) as Hact by (unfold active; by rewrite Hst).
    assert ((∃ p, p ∈ (o.1, SchedulingNode.terminate IDLE o.2) :: idle_loop x
        (λ ty', terminated ty' + (if decide (ty' = oty) then 1 else 0)) l ∧
        idle_too_long x p.2 = true ∧ SchedulingNode.node_type p.2 = ty) →
      get_cluster_shape x ty - (terminated ty + (if decide (ty = oty) then 1 else 0)) - t
        ≤ min_count_of x ty) as Hk'.
    { intros (p & [->|Hp]%elem_of_cons & Hi & Hty).
      - by apply idle_schedulable in Hi as [? _].
      - apply Hk. by exists p. }
    destruct (decide (ty = oty)) as [->|Hne].
    + rewrite decide_True by done. split_and!; [lia|lia|right; lia|]. intros Hp%Hk'. lia.
    + rewrite decide_False by (intros [_ Heq]; by apply Hne). split_and!; [lia|lia| |intros Hp%Hk'; lia].
      destruct Hm as [->|Hm]; [by left|right; lia].
Qed.

Lemma cluster_shape_active x ty : get_cluster_shape x ty = Z.of_nat (active_of ty (ctx_cores x)).
Proof.
  unfold get_cluster_shape, count_type. f_equal. induction (_nodes x) as [|o l IH]; [done|].
  rewrite active_of_obj, <-IH, filter_cons. destruct (decide (active o)) as [Ha|Ha].
  - rewrite filter_cons. destruct (decide (SchedulingNode.node_type o.2 = ty)) as [Ht|Ht].
    + by rewrite decide_True.
    + rewrite decide_False; [done|by intros []].
  - rewrite decide_False; [done|by intros []].
Qed.

Lemma idled_killed x (l l' : list obj) : Forall2 (idled x) l l' → Forall2 killed (cores l.*2) (cores l'.*2).
Proof.
  unfold cores. induction 1 as [|o o' l l' [->|[Hi ->]] _ IH]; [constructor|constructor; [by left|done]|].
  simpl. constructor; [|done]. apply terminate_killed. by apply idle_schedulable in Hi as (_ & ? & _).
Qed.

Lemma idle_limited x : limited x → limited (_enforce_idle_termination x).
Proof.
  intros [Hx Hs Ht Hg]. unfold _enforce_idle_termination, get_nodes.
  destruct (idle_loop_ok x (λ _, 0) (_nodes x)) as [Hf%idled_killed _].
  destruct (killed_heads _ _ Hf) as [_ Hh]. destruct (killed_active _ _ Hf) as [Ha Haty]. split.
  - by apply killed_ctx.
  - by apply (killed_safe _ _ Hf).
  - intros ty c Hc. simpl in Hc |- *. rewrite Hh. specialize (Ht ty c Hc). specialize (Haty ty). lia.
  - intros m Hm Hm0. simpl in Hm |- *. specialize (Hg m Hm Hm0). lia.
Qed.

Lemma idle_placed x s : placed s (ctx_nodes (_enforce_idle_termination x)) = placed s (ctx_nodes x).
Proof.
  unfold _enforce_idle_termination, get_nodes. simpl.
  destruct (idle_loop_ok x (λ _, 0) (_nodes x)) as [Hf _]. revert Hf.
  generalize (idle_loop x (λ _, 0) (_nodes x)). generalize (_nodes x).
  induction 1 as [|o o' l l' [->|[_ ->]] _ IH]; [done| |]; rewrite !fmap_cons, !placed_cons, IH; done.
Qed.
End rounds.
