(* ===== verification/SchedulerSpec.v ===== *)
(** * The resource demand scheduler: the theorems about a whole round

    [schedule] composed from its steps: the limits hold at the end of a round,
    and every request is placed on a node or reported infeasible; concrete
    rounds, with the one that shows what sharing one node object among the
    nodes to launch does. *)
From S2P Require Import Prelude PyDict PyStr PyFloat InstanceUtil SchedNode SchedNodeFacts.
From S2P Require Import Scheduler SchedulerFacts SchedulerInv SchedulerSteps SchedulerProps.

Import ScheduleContext ResourceDemandScheduler.

(** ** Nothing is placed before the limits hold *)
Definition unplaced (o : obj) : Prop := ∀ s, SchedulingNode.get_sched_requests s o.2 = [].

Section unplaced.
Context `{Platform}.
Implicit Types (x : ScheduleContext.t).

Lemma unplaced_placed s (l : list obj) : Forall unplaced l → placed s l.*2 = [].
Proof. induction 1 as [|o l Ho _ IH]; [done|]. by rewrite fmap_cons, placed_cons, Ho, IH. Qed.

(** What survives the termination of some of the nodes. *)
Lemma forall_terminated (P : obj → Prop) (b : obj → bool) cause l :
  (∀ o, P o → P (o.1, SchedulingNode.terminate cause o.2)) → Forall P l →
  Forall P (map (λ o : obj, if b o then (o.1, SchedulingNode.terminate cause o.2) else o) l).
Proof.
  intros Hp Hl. apply Forall_map. eapply Forall_impl; [exact Hl|]. intros o Ho.
  simpl. destruct (b o); auto.
Qed.

Lemma trimmed_unplaced x x' : trimmed_from x x' → Forall unplaced (_nodes x) → Forall unplaced (_nodes x').
Proof.
  intros [(T & cause & Hp) _ _] Hx. rewrite Hp.
  by apply (forall_terminated _ (λ o, bool_decide (o.1 ∈ T))).
Qed.

Lemma outdated_forall (P : obj → Prop) x : (∀ o, P o → P (o.1, SchedulingNode.terminate OUTDATED o.2)) →
  Forall P (_nodes x) → Forall P (_nodes (_terminate_outdated_nodes x)).
Proof.
  intros Hp Hx. unfold _terminate_outdated_nodes. destruct (_disable_launch_config_check x); [done|].
  by apply (forall_terminated P (λ o, bool_decide (SchedulingNode.status o.2 = SCHEDULABLE) &&
         negb (bool_decide (SchedulingNode.node_kind o.2 = HEAD)) && is_outdated x o.2)).
Qed.

Lemma min_nodes_unplaced x configs next : Forall unplaced (min_nodes x configs next).1.
Proof.
  revert next. induction configs as [|[ty c] configs IH]; intros next; cbn [min_nodes]; [constructor|].
  specialize (IH (S next)). destruct (min_nodes x configs (S next)) as [rest next']. simpl in *.
  apply Forall_app. split; [|done]. apply Forall_replicate. by intros [].
Qed.

Lemma min_unplaced x : Forall unplaced (_nodes x) → Forall unplaced (_nodes (_enforce_min_workers_per_type x)).
Proof.
  intros Hx. unfold _enforce_min_workers_per_type.
  pose proof (min_nodes_unplaced x (_node_type_configs x) (next_id x)) as Hm.
  destruct (min_nodes _ _ _) as [new next]. by apply Forall_app.
Qed.

(** A node not launched in this round, with nothing placed on it. *)
Definition existing (o : obj) : Prop := unplaced o ∧ SchedulingNode.status o.2 ≠ TO_LAUNCH.

Lemma initial_existing req : Forall existing (_nodes (from_schedule_request req)).
Proof.
  apply Forall_forall. intros o (i & n & -> & Hi)%elem_of_lookup_imap.
  apply list_elem_of_lookup_2, list_elem_of_omap in Hi as (inst & _ & Hn). simpl in Hn |- *.
  apply fmap_Some in Hn as (m & Hm & ->). unfold existing, unplaced. cbn [snd].
  assert (SchedulingNode.sched_requests (attach_ippr req inst m) = SchedulingNode.sched_requests m ∧
    SchedulingNode.status (attach_ippr req inst m) = SchedulingNode.status m) as [Hr Hs].
  { unfold attach_ippr. by repeat case_match. }
  unfold SchedulingNode.get_sched_requests. rewrite Hr, Hs.
  unfold new, new_from in Hm. destruct (is_schedulable inst); [|done].
  destruct (im_instance inst) as [im|]; [|done]. simpl in Hm.
  by repeat case_match; simplify_eq; (split; [intros []|]).
Qed.

Lemma outdated_existing req : Forall existing (_nodes (_terminate_outdated_nodes (from_schedule_request req))).
Proof. apply outdated_forall; [|apply initial_existing]. intros o [Ho _]. by split. Qed.
End unplaced.

(** ** A round *)
Section round.
Context `{Platform}.
Implicit Types (x : ScheduleContext.t).

Abbreviation ctx_nodes x := ((_nodes x).*2).

(** The context after the limits are enforced. *)
Definition enforced (req : SchedulingRequest) : result t :=
  x ← _enforce_max_workers_per_type
        (_enforce_min_workers_per_type (_terminate_outdated_nodes (from_schedule_request req)));
  _enforce_max_workers_global x.

Lemma outdated_same x : _node_type_configs (_terminate_outdated_nodes x) = _node_type_configs x ∧
  _max_num_nodes (_terminate_outdated_nodes x) = _max_num_nodes x.
Proof. unfold _terminate_outdated_nodes. by destruct (_disable_launch_config_check x). Qed.

Lemma min_same x : _node_type_configs (_enforce_min_workers_per_type x) = _node_type_configs x ∧
  _max_num_nodes (_enforce_min_workers_per_type x) = _max_num_nodes x.
Proof. unfold _enforce_min_workers_per_type. by destruct (min_nodes _ _ _). Qed.

(** The nodes of [enforced] are those before the limits, some terminated. *)
Lemma enforced_trimmed req x : request_ok req → enforced req = Ok x →
  let x1 := _enforce_min_workers_per_type (_terminate_outdated_nodes (from_schedule_request req)) in
  limited x ∧ ∃ y, trimmed_from x1 y ∧ trimmed_from y x.
Proof.
  intros Hr He x1. unfold enforced in He. apply bind_ok in He as (y & Hy & He).
  destruct (max_types_ready _ y (min_ready _ (outdated_ready _ (request_ready req Hr))) Hy)
    as (Hready & Hlim & Ht).
  destruct (max_global_limited y x Hready Hlim He) as [Hl Hg]. split; [done|by exists y].
Qed.

Lemma enforced_ok req x : request_ok req → enforced req = Ok x →
  limited x ∧ Forall unplaced (_nodes x) ∧
  _node_type_configs x = node_type_configs req ∧ _max_num_nodes x = max_num_nodes req.
Proof.
  intros Hr He. destruct (enforced_trimmed req x Hr He) as (Hl & y & Hy & Hx).
  set (x0 := from_schedule_request req) in *.
  destruct (min_same (_terminate_outdated_nodes x0)) as [Ec Em].
  destruct (outdated_same x0) as [Ec' Em'].
  split; [done|]. split.
  - do 2 (eapply trimmed_unplaced; [eassumption|]).
    apply min_unplaced. eapply Forall_impl; [apply outdated_existing|]. by intros o [].
  - split.
    + by rewrite (tf_configs _ _ Hx), (tf_configs _ _ Hy), Ec, Ec'.
    + by rewrite (tf_max _ _ Hx), (tf_max _ _ Hy), Em, Em'.
Qed.

(** What a round leaves. *)
Record round (req : SchedulingRequest) x (reply : SchedulingReply) : Prop := {
  rn_limited : limited x;
  rn_configs : _node_type_configs x = node_type_configs req;
  rn_max : _max_num_nodes x = max_num_nodes req;
  rn_pending : ∃ feasible bundles,
    gang_resource_requests req ≡ₚ feasible ++ infeasible_gang_resource_requests reply ∧
    Forall2 (λ g b, gang_bundle g = Ok b) feasible bundles ∧
    placed PENDING_DEMAND (ctx_nodes x) ++ infeasible_resource_requests reply
      ≡ₚ concat bundles ++ ResourceRequestUtil.ungroup_by_count (resource_requests req);
  rn_constraints : placed CLUSTER_RESOURCE_CONSTRAINT (ctx_nodes x)
      ≡ₚ match infeasible_cluster_resource_constraints reply with
         | [] => concat (map ResourceRequestUtil.ungroup_by_count (cluster_resource_constraints req))
         | _ => [] end ∧
    (infeasible_cluster_resource_constraints reply = [] ∨
     infeasible_cluster_resource_constraints reply = cluster_resource_constraints req);
  rn_launch : to_launch reply = get_launch_requests x;
  rn_terminate : to_terminate reply = get_terminate_requests x
}.

Lemma schedule_round req r : request_ok req → schedule req = Ok r →
  ∃ x reply, r = Some (x, reply) ∧ round req x reply.
Proof.
  intros Hr Hs. unfold schedule in Hs.
  apply bind_ok in Hs as (y & Hy & Hs). apply bind_ok in Hs as (x0 & Hx0 & Hs).
  assert (enforced req = Ok x0) as He by (unfold enforced; by rewrite Hy).
  destruct (enforced_ok req x0 Hr He) as (Hl & Hu & Hc & Hm).
  apply bind_ok in Hs as (o & Ho & Hs).
  destruct (constraints_step x0 _ _ Hl Ho) as (x1 & badc & -> & S1 & Hbad).
  apply bind_ok in Hs as (o & Ho' & Hs). unfold _sched_gang_resource_requests in Ho'.
  destruct (gang_loop_step x1 _ _ (st_limited _ _ _ _ _ S1) Ho')
    as (x2 & badg & good & bundles & -> & Hg & Hf & S2).
  rewrite sort_by_perm in Hg. apply bind_ok in Hs as (o & Ho2 & Hs).
  destruct (place_step x2 _ _ _ (st_limited _ _ _ _ _ S2) Ho2) as (x3 & bad & -> & S3).
  injection Hs as <-. eexists _, _. split; [done|].
  destruct S1 as [L1 P1 O1 _ C1 M1 _], S2 as [L2 P2 O2 _ C2 M2 _], S3 as [L3 P3 O3 _ C3 M3 _].
  cbn [other] in *.
  assert (∀ s, placed s (ctx_nodes x0) = []) as Hnil by (intros s; by apply unplaced_placed).
  rewrite Hnil in P1, O1. rewrite !app_nil_r in *. cbn [app] in P1. split; cbn -[_enforce_idle_termination].
  - by apply idle_limited.
  - unfold _enforce_idle_termination. simpl. congruence.
  - unfold _enforce_idle_termination. simpl. congruence.
  - exists good, bundles. split; [done|]. split; [done|].
    by rewrite idle_placed, <-P3, <-P2, O1.
  - rewrite idle_placed, O3, O2, <-P1. by split.
  - done.
  - done.
Qed.
End round.

(** ** The nodes launched for the minimum of a type *)
Section minimum.
Context `{Platform}.
Implicit Types (x : ScheduleContext.t).

Definition to_be_launched (o : obj) : Prop := SchedulingNode.status o.2 = TO_LAUNCH.

#[export] Instance to_be_launched_dec o : Decision (to_be_launched o).
Proof. unfold to_be_launched. apply _. Defined.

(** The nodes of a type that are to be launched. *)
Definition launch_of (ty : string) (l : list obj) : list obj :=
  filter (λ o, SchedulingNode.node_type o.2 = ty) (filter to_be_launched l).

#[local] Instance launch_of_proper ty : Proper ((≡ₚ) ==> (≡ₚ)) (launch_of ty).
Proof. intros k l Hkl. unfold launch_of. by rewrite Hkl. Qed.

Lemma launch_of_kill ty T cause l :
  launch_of ty (kill T cause l) = filter (λ o, o.1 ∉ T) (launch_of ty l).
Proof.
  unfold launch_of, kill. induction l as [|o l IH]; [done|]. simpl. case_bool_decide as HT.
  - rewrite filter_cons_False by done. rewrite IH, (filter_cons _ o).
    case_decide; [|done]. rewrite filter_cons. case_decide; [|done].
    rewrite filter_cons_False; [done|]. by intros [].
  - rewrite !(filter_cons _ o). case_decide; [|done]. rewrite !filter_cons.
    case_decide; [|done]. rewrite filter_cons_True by done. by rewrite IH.
Qed.

Lemma filter_replicate {A} (P : A → Prop) `{∀ a, Decision (P a)} n a :
  filter P (replicate n a) = replicate n a ∨ filter P (replicate n a) = [].
Proof.
  destruct (decide (P a)); [left; apply filter_all|right; apply filter_none]; by apply Forall_replicate.
Qed.

Lemma min_nodes_other x configs next ty : ty ∉ configs.*1 → (∀ k c, (k, c) ∈ configs → name c = k) →
  launch_of ty (min_nodes x configs next).1 = [].
Proof.
  revert next. induction configs as [|[k c] configs IH]; intros next Hty Hn; cbn [min_nodes]; [done|].
  rewrite fmap_cons, not_elem_of_cons in Hty. destruct Hty as [Hk Hty]. cbn [fst] in Hk.
  specialize (IH (S next) Hty ltac:(intros; apply Hn; by right)).
  destruct (min_nodes x configs (S next)) as [rest next']. cbn [fst] in *.
  unfold launch_of in *. rewrite !filter_app, IH, app_nil_r. apply filter_none, Forall_sub_filter.
  apply Forall_replicate. simpl. rewrite (Hn k c) by left. congruence.
Qed.

(** They are one object, as often as the minimum asks. *)
Lemma min_nodes_shared x configs next ty c : dwf configs → (∀ k c, (k, c) ∈ configs → name c = k) →
  dget configs ty = Some c →
  ∃ o, launch_of ty (min_nodes x configs next).1 =
    replicate (Z.to_nat (min_worker_nodes c - get_cluster_shape x ty)) o.
Proof.
  revert next. induction configs as [|[k d] configs IH]; intros next Hw Hn Hc; cbn [min_nodes]; [done|].
  unfold dwf in Hw. rewrite fmap_cons in Hw. apply NoDup_cons in Hw as [Hk Hw]. cbn [fst] in Hk.
  assert (∀ k c, (k, c) ∈ configs → name c = k) as Hn' by (intros; apply Hn; by right).
  simpl in Hc. case_decide as E.
  - subst k. injection Hc as ->.
    pose proof (min_nodes_other x configs (S next) ty Hk Hn') as Ho.
    destruct (min_nodes x configs (S next)) as [rest next']. cbn [fst] in *. eexists.
    unfold launch_of in *. rewrite !filter_app, Ho, app_nil_r.
    rewrite (filter_all to_be_launched) by by apply Forall_replicate.
    apply filter_all, Forall_replicate. simpl. apply Hn. left.
  - destruct (IH (S next) Hw Hn' Hc) as [o Ho].
    destruct (min_nodes x configs (S next)) as [rest next']. cbn [fst] in *. exists o.
    rewrite <-Ho. unfold launch_of. rewrite !filter_app, filter_none; [done|].
    apply Forall_sub_filter, Forall_replicate. simpl. rewrite (Hn k d) by left. congruence.
Qed.

(** The nodes added for the minimum of a type are one object, so the limits
    launch all of them or none: after the limits the nodes to launch of a type
    are either as many as its [min_worker_nodes] lacks or zero. *)
Theorem minimum_all_or_none req x ty c : request_ok req → enforced req = Ok x →
  dget (node_type_configs req) ty = Some c →
  let before := _terminate_outdated_nodes (from_schedule_request req) in
  let launches := length (launch_of ty (_nodes x)) in
  Z.of_nat launches = Z.max 0 (min_worker_nodes c - get_cluster_shape before ty) ∨ launches = 0%nat.
Proof.
  intros Hr He Hc before launches.
  destruct (enforced_trimmed req x Hr He) as (_ & y & [(T1 & c1 & Hy) _ _] & [(T2 & c2 & Hx) _ _]).
  assert (∃ o, launch_of ty (_nodes (_enforce_min_workers_per_type before)) =
    replicate (Z.to_nat (min_worker_nodes c - get_cluster_shape before ty)) o) as [o Ho].
  { destruct (ro_configs _ Hr) as [Hw Hn].
    destruct (min_nodes_shared before (node_type_configs req) (next_id before) ty c) as [o Ho]; [done| |done|].
    { intros k d Hk. by apply Hn, dget_wf_elem. }
    exists o. unfold _enforce_min_workers_per_type.
    assert (_node_type_configs before = node_type_configs req) as ->.
    { unfold before. by rewrite (proj1 (outdated_same _)). }
    destruct (min_nodes _ _ _) as [new next]. simpl in *.
    unfold launch_of in *. rewrite !filter_app, Ho, (filter_none to_be_launched (get_nodes _)).
    - by rewrite app_nil_r.
    - eapply Forall_impl; [apply outdated_existing|]. by intros p []. }
  unfold launches. rewrite Hx, launch_of_kill, Hy, launch_of_kill. fold before. rewrite Ho.
  set (k := Z.to_nat _). destruct (filter_replicate (λ o, o.1 ∉ T1) k o) as [-> | ->]; [|by right].
  destruct (filter_replicate (λ o, o.1 ∉ T2) k o) as [-> | ->]; [|by right].
  left. rewrite length_replicate. lia.
Qed.
End minimum.

(** ** A type without a configuration *)
Section missing.
Context `{Platform}.
Implicit Types (x : ScheduleContext.t).

Lemma group_by_type_keys l ty : ty ∈ (group_by_type l).*1 ↔ ∃ o, o ∈ l ∧ SchedulingNode.node_type o.2 = ty.
Proof.
  unfold group_by_type. set (f := λ (d : dict string (list obj)) (o : obj), _).
  assert (∀ l d, ty ∈ (foldl f d l).*1 ↔
    ty ∈ d.*1 ∨ ∃ o, o ∈ l ∧ SchedulingNode.node_type o.2 = ty) as Hf.
  2: { rewrite (Hf l []). split; [by intros [?%elem_of_nil|]|by right]. }
  clear l. induction l as [|o l IH]; intros d; cbn [foldl].
  - split; [by left|]. intros [|(o & ?%elem_of_nil & _)]; done.
  - rewrite IH. unfold f at 1. rewrite dset_keys_elem. split.
    + intros [[->|Hd]|(p & Hp & Ht)]; [right; exists o; by split; [left|]|by left|].
      right. exists p. by split; [right|].
    + intros [Hd|(p & [->|Hp]%elem_of_cons & Ht)]; [by left; right|by left; left|].
      right. by exists p.
Qed.

Definition configured x (ty : string) : Prop := dget (_node_type_configs x) ty ≠ None.

Lemma max_per_type_raises x groups : match max_per_type x groups with
  | Ok _ => ∀ ty, ty ∈ groups.*1 → configured x ty
  | Raise e => e = KeyError ∧ ∃ ty, ty ∈ groups.*1 ∧ ¬ configured x ty
  end.
Proof.
  induction groups as [|[ty nodes] groups IH]; cbn [max_per_type]; [by intros ty ?%elem_of_nil|].
  rewrite fmap_cons. cbn [fst].
  unfold configured in *. destruct (dget (_node_type_configs x) ty) as [c|] eqn:E; simpl.
  - destruct (if _ <=? 0 then _ else _) as [term kept].
    destruct (max_per_type x groups) as [rest|e]; simpl.
    + intros t [->|Ht]%elem_of_cons; [congruence|auto].
    + destruct IH as (-> & t & Ht & Hc). split; [done|]. exists t. by split; [right|].
  - split; [done|]. exists ty. split; [by left|]. intros Hc. by apply Hc.
Qed.

(** Enforcing the maximum per type raises [KeyError] exactly when a node
    that is not being terminated has a type without a configuration, and raises
    nothing else. *)
Theorem max_types_errors x : ready x → match _enforce_max_workers_per_type x with
  | Ok _ => ∀ o, o ∈ _nodes x → active o → dget (_node_type_configs x) (SchedulingNode.node_type o.2) ≠ None
  | Raise e => e = KeyError ∧ ∃ o, o ∈ _nodes x ∧ active o ∧
      dget (_node_type_configs x) (SchedulingNode.node_type o.2) = None
  end.
Proof.
  intros Hx. unfold _enforce_max_workers_per_type, get_nodes.
  pose proof (max_per_type_raises x (group_by_type (filter active (_nodes x)))) as Hm.
  destruct (max_per_type x _) as [r|e] eqn:Hr; cbn [mbind result_bind] in Hm |- *.
  2: { destruct Hm as (-> & ty & (o & [Ha Ho]%list_elem_of_filter & Hty)%group_by_type_keys & Hc). split; [done|]. exists o.
    split; [done|]. split; [done|]. rewrite Hty. unfold configured in Hc.
    destruct (dget _ ty); [by destruct Hc|done]. }
  destruct (group_by_type_ok (filter active (_nodes x))) as [Hw Hp Ht].
  destruct (filter_heads (_nodes x)) as [Hle _]. pose proof (rd_safe _ Hx) as [Hh1 _].
  destruct (max_per_type_ok (next_id x) x _ r Hw Ht) as [T [Hn _ _ _]]; [| |done|].
  { apply (objects_sub _ _ (filter active (_nodes x))); [intros o; by rewrite Hp|].
    apply filter_objects, Hx. }
  { rewrite Hp. lia. }
  apply Permutation_length in Hn. rewrite length_kill, Hp, length_app in Hn.
  pose proof (Permutation_length (active_split (_nodes x))) as Hl. rewrite length_app in Hl.
  rewrite (proj2 (Nat.eqb_eq _ _)) by (rewrite !length_app; lia). simpl.
  intros o Ho Ha. apply (Hm (SchedulingNode.node_type o.2)), group_by_type_keys.
  exists o. split; [by apply list_elem_of_filter|done].
Qed.
End missing.

(** ** The theorems *)
Section theorems.
Context `{Platform}.
Implicit Types (x : ScheduleContext.t).

#[local] Instance is_head_dec o : Decision (is_head o).
Proof. unfold is_head. apply _. Defined.

Lemma launch_requests_count x ty : default 0 (dget (get_launch_requests x) ty) =
  count_type ty (filter to_be_launched (_nodes x)).
Proof.
  unfold get_launch_requests. set (f := λ (d : dict string Z) (o : obj), _).
  assert (∀ l d, default 0 (dget (foldl f d l) ty) =
    default 0 (dget d ty) + count_type ty (filter to_be_launched l)) as Hf; [|apply (Hf _ [])].
  induction l as [|o l IH]; intros d; cbn [foldl]; [unfold count_type; simpl; lia|].
  rewrite IH, filter_cons. unfold f, to_be_launched. case_bool_decide as Hs; case_decide; try done.
  destruct o as [i n]. simpl in *. rewrite count_type_cons, dget_dset.
  destruct (decide (ty = SchedulingNode.node_type n)) as [->|Hne].
  - rewrite decide_True by done. simpl. lia.
  - rewrite (decide_False (P:=_ = ty)) by congruence. lia.
Qed.

Lemma count_type_heads ty (l : list obj) : count_type ty (filter is_head l) = Z.of_nat (heads_of ty (cores l.*2)).
Proof.
  unfold count_type, heads_of. f_equal. induction l as [|o l IH]; [done|].
  change (cores (o :: l).*2) with (core_of o.2 :: cores l.*2). rewrite !filter_cons.
  destruct (decide (is_head o)) as [Hh|Hh].
  - rewrite (decide_True (P:=k_head _)), !filter_cons by done. simpl. case_decide; simpl; by rewrite IH.
  - by rewrite (decide_False (P:=k_head _)) by done.
Qed.

Lemma terminate_requests_length x : Forall core_fine (cores (_nodes x).*2) →
  length (get_terminate_requests x) = length (filter terminating (_nodes x)).
Proof.
  unfold get_terminate_requests. generalize (_nodes x). induction l as [|o l IH]; [done|].
  change (cores (o :: l).*2) with (core_of o.2 :: cores l.*2).
  change (omap ?f (o :: l)) with (match f o with Some q => q :: omap f l | None => omap f l end).
  intros [[_ Hf] Hl]%Forall_cons. rewrite filter_cons.
  unfold terminating, k_active in *. simpl in Hf.
  destruct (SchedulingNode.termination_request o.2) as [q|].
  - rewrite decide_True; [simpl; by rewrite IH|]. destruct (decide (SchedulingNode.status o.2 = TO_TERMINATE)); [done|].
    by apply Hf in n.
  - rewrite decide_False by by apply Hf. by apply IH.
Qed.

(** C6: A round that raises nothing always yields a reply, and in the nodes it
    leaves no head node is terminated, a node has a termination request
    exactly when it is to be terminated, the nodes of a type that are not
    terminated stay within its [max_worker_nodes] (or are the head of that
    type), those of the cluster within [max_num_nodes], and the reply's launch
    counts and termination requests are those of the nodes. *)
Theorem schedule_limits req r : request_ok req → schedule req = Ok r →
  ∃ x reply, r = Some (x, reply) ∧
    (∀ o, o ∈ _nodes x → SchedulingNode.node_kind o.2 = HEAD → SchedulingNode.status o.2 ≠ TO_TERMINATE) ∧
    (∀ o, o ∈ _nodes x → SchedulingNode.status o.2 = TO_TERMINATE ↔
                          SchedulingNode.termination_request o.2 ≠ None) ∧
    (∀ ty c, dget (node_type_configs req) ty = Some c →
      get_cluster_shape x ty ≤ Z.max (max_worker_nodes c) (count_type ty (filter is_head (_nodes x)))) ∧
    (∀ m, max_num_nodes req = Some m → m ≠ 0 → Z.of_nat (length (filter active (_nodes x))) ≤ m) ∧
    (∀ ty, default 0 (dget (to_launch reply) ty) = count_type ty (filter to_be_launched (_nodes x))) ∧
    to_terminate reply = omap (λ o, SchedulingNode.termination_request o.2) (_nodes x) ∧
    length (to_terminate reply) = length (filter terminating (_nodes x)).
Proof.
  intros Hr Hs. destruct (schedule_round req r Hr Hs) as (x & reply & -> & R).
  destruct (rn_limited _ _ _ R) as [_ [_ Hf] Ht Hg]. exists x, reply. split; [done|].
  pose proof Hf as Hfo. unfold cores in Hfo. rewrite Forall_map, Forall_fmap, Forall_forall in Hfo.
  rewrite (rn_launch _ _ _ R), (rn_terminate _ _ _ R).
  rewrite (rn_configs _ _ _ R) in Ht. unfold global_limit in Hg. rewrite (rn_max _ _ _ R) in Hg.
  split_and!.
  - intros o Ho Hh. exact (proj1 (Hfo o Ho) Hh).
  - intros o Ho. destruct (Hfo o Ho) as [_ Ha]. unfold compose, k_active in Ha. simpl in Ha.
    destruct (decide (SchedulingNode.status o.2 = TO_TERMINATE)) as [E|E]; [|naive_solver].
    split; [|done]. intros _ Hn. by apply Ha in Hn.
  - intros ty c Hc. rewrite cluster_shape_active, count_type_heads. by apply Ht.
  - intros m Hm Hm0. rewrite <-active_total_filter. by apply Hg.
  - apply launch_requests_count.
  - done.
  - by apply terminate_requests_length.
Qed.

(** C3: Nothing is lost in a round: the pending requests placed on nodes and
    those reported infeasible are, as multisets, the requests and the bundles of
    the feasible gangs, each gang placed as a whole or reported; the cluster
    constraint is placed as a whole, or reported with nothing placed for it. *)
Theorem schedule_conserves req r : request_ok req → schedule req = Ok r →
  ∃ x reply feasible bundles, r = Some (x, reply) ∧
    gang_resource_requests req ≡ₚ feasible ++ infeasible_gang_resource_requests reply ∧
    Forall2 (λ g b, gang_bundle g = Ok b) feasible bundles ∧
    placed PENDING_DEMAND (_nodes x).*2 ++ infeasible_resource_requests reply
      ≡ₚ concat bundles ++ ResourceRequestUtil.ungroup_by_count (resource_requests req) ∧
    ((infeasible_cluster_resource_constraints reply = [] ∧
      placed CLUSTER_RESOURCE_CONSTRAINT (_nodes x).*2
        ≡ₚ concat (map ResourceRequestUtil.ungroup_by_count (cluster_resource_constraints req))) ∨
     (infeasible_cluster_resource_constraints reply = cluster_resource_constraints req ∧
      placed CLUSTER_RESOURCE_CONSTRAINT (_nodes x).*2 = [])).
Proof.
  intros Hr Hs. destruct (schedule_round req r Hr Hs) as (x & reply & -> & R).
  destruct (rn_pending _ _ _ R) as (good & bundles & Hg & Hf & Hp).
  destruct (rn_constraints _ _ _ R) as [Hc Hor]. exists x, reply, good, bundles.
  do 4 (split; [done|]). destruct (infeasible_cluster_resource_constraints reply) as [|c l]; [by left|].
  right. destruct Hor as [|Hor]; [done|]. split; [done|].
  by apply Permutation_nil_r in Hc.
Qed.

(** Idle termination terminates only nodes that have been idle for longer
    than their timeout with nothing placed on them, never brings a type below
    its [min_worker_nodes], and keeps an idle node only when its type is down
    to that minimum. *)
Theorem idle_termination_spec x : let x' := _enforce_idle_termination x in
  Forall2 (idled x) (_nodes x) (_nodes x') ∧
  ∀ ty, get_cluster_shape x' ty ≤ get_cluster_shape x ty ∧
    (get_cluster_shape x' ty = get_cluster_shape x ty ∨ min_count_of x ty ≤ get_cluster_shape x' ty) ∧
    ((∃ o, o ∈ _nodes x' ∧ idle_too_long x o.2 = true ∧ SchedulingNode.node_type o.2 = ty) →
      get_cluster_shape x' ty ≤ min_count_of x ty).
Proof.
  intros x'. destruct (idle_loop_ok x (λ _, 0) (_nodes x)) as [Hf Ht]. split; [done|].
  intros ty. destruct (Ht ty) as (t & H0 & Ha & Hm & Hk).
  change (idle_loop x (λ _, 0) (_nodes x)) with (_nodes x') in *.
  rewrite <-!cluster_shape_active in Ha. split_and!; [lia| |].
  - destruct Hm as [->|Hm]; [left; lia|right; lia].
  - intros He%Hk. lia.
Qed.

(** When the loop places nothing, no request could be placed. *)
Lemma schedule_loop_none s n cache rs n' un :
  (∀ r, r ∈ cache → SchedulingNode._try_schedule_one r s n = Ok None) →
  SchedulingNode.schedule_loop s n cache rs = Ok (n', un) → length un = length rs →
  ∀ r, r ∈ rs → SchedulingNode._try_schedule_one r s n = Ok None.
Proof.
  revert cache un. induction rs as [|r rs IH]; intros cache un Hc Hl Hlen q Hq; [by apply elem_of_nil in Hq|].
  simpl in Hl. case_bool_decide as Hr.
  - apply bind_ok in Hl as ([y u] & Hl & [= <- <-]). apply elem_of_cons in Hq as [->|Hq]; [by apply Hc|].
    apply (IH cache u); auto.
  - apply bind_ok in Hl as ([y|] & Ho & Hl).
    + apply schedule_loop_ok in Hl as (added & _ & Hp & _). apply Permutation_length in Hp.
      rewrite length_app in Hp. simpl in Hlen. lia.
    + apply bind_ok in Hl as ([y u] & Hl & [= <- <-]).
      apply elem_of_cons in Hq as [->|Hq]; [done|]. apply (IH (r :: cache) u); auto.
      intros r' [->|Hr']%elem_of_cons; auto.
Qed.

(** Placing requests on one node places and leaves what it was given,
    changes neither the node's identity and total resources nor what the other
    source placed, takes no resource below zero, and never puts two requests
    with the same anti-affinity label on the node; when it places nothing,
    none of the requests could be placed. *)
Theorem node_try_schedule_spec requests s n n' un sc :
  SchedulingNode.try_schedule requests s n = Ok (n', un, sc) →
  ∃ added, requests ≡ₚ un ++ added ∧ placed_on s n n' added ∧
    StronglySorted compatible added ∧
    (∀ r nv, r ∈ added → nv ∈ anti_pairs r → SchedulingNode.labels n !! nv.1 ≠ Some nv.2) ∧
    (added = [] → ∀ r, r ∈ requests → SchedulingNode._try_schedule_one r s n = Ok None).
Proof.
  intros Ht. pose proof Ht as (added & Hp & Hr & Hs & Ha)%try_schedule_ok. exists added.
  split_and!; [done..|]. intros ->. apply Permutation_length in Hr. rewrite app_nil_r in Hr.
  apply bind_ok in Ht as ([y u] & Hl & Ht). apply bind_ok in Ht as (sc' & _ & [= <- <- _]).
  apply (schedule_loop_none s n [] requests y u); [by intros r ?%elem_of_nil|done|done].
Qed.
End theorems.

(** ** At concrete inputs *)
Module SchedRun.
(** Cubes and sums rounded step by step. *)
#[global] Instance platform : Platform := {|
  f_cube x := f_mul x (f_mul x x);
  f_sum l := foldl f_add f_zero l;
  conserve_gpu_nodes := true
|}.

Definition cpus (n : Z) : resources := {[ "CPU" := f_of_int n ]}.

Definition config (ty : string) (min max cpu : Z) : string * NodeTypeConfig :=
  (ty, {| name := ty; min_worker_nodes := min; max_worker_nodes := max;
          config_idle_timeout_s := None; config_priority := 0; config_resources := cpus cpu;
          config_labels := ∅; config_launch_hash := "" |}).

(** A running instance of [cpu] CPUs, idle for [idle] ms. *)
Definition running (id ty : string) (kind : NodeKind) (cpu idle : Z) : AutoscalerInstance := {|
  ai_cloud_instance_id := Some ("cloud-" ++ id)%string;
  ray_node := Some {| ns_total_resources := cpus cpu; ns_available_resources := cpus cpu;
    ns_labels := ∅; ns_dynamic_labels := ∅; ns_idle_duration_ms := idle |};
  im_instance := Some {|
    instance_id := id; cloud_instance_id := ("cloud-" ++ id)%string;
    node_id := ("ray-" ++ id)%string; status := RAY_RUNNING; instance_type := ty;
    total_resources := []; internal_ip := ""; external_ip := ""; version := 1;
    status_history := []; launch_request_id := ""; exit_details := "";
    launch_config_hash := ""; node_kind := kind |} |}.

Definition cpu_request (n : Z) (pcs : list PlacementConstraint) : ResourceRequest := {|
  resources_bundle := cpus n; placement_constraints := pcs; label_selectors := [] |}.

Definition apart : list PlacementConstraint :=
  [{| anti_affinity := Some ("group", "g"); affinity := None |}].

Definition request configs max idle demands gangs instances : SchedulingRequest := {|
  disable_launch_config_check := false;
  node_type_configs := configs; max_num_nodes := max; idle_timeout_s := idle;
  resource_requests := demands; gang_resource_requests := gangs; cluster_resource_constraints := [];
  current_instances := instances; cloud_resource_availabilities := [];
  recoverable_resource_availabilities := []; ippr_specs := None; ippr_statuses := [] |}.

(** A head, three types, a gang to spread over two nodes and one too large. *)
Definition pair_gang : GangResourceRequest := {|
  gang_requests := [cpu_request 2 apart; cpu_request 2 apart]; bundle_selectors := [] |}.
Definition large_gang : GangResourceRequest := {|
  gang_requests := [cpu_request 100 []]; bundle_selectors := [] |}.

Definition req1 : SchedulingRequest := request
  [config "head" 0 1 4; config "A" 0 3 2; config "B" 1 2 1] (Some 5) (Some (f_of_int 60))
  [(cpu_request 1 [], 1); (cpu_request 50 [], 1)] [pair_gang; large_gang]
  [running "h" "head" HEAD 1 0; running "a1" "A" WORKER 2 100000; running "a2" "A" WORKER 2 200000;
   running "a3" "A" WORKER 2 100000].

(** What is compared of a round: the launches, the terminations, the number of
    infeasible requests and gangs, and the requests placed per node. *)
Definition outcome (r : result (option (t * SchedulingReply))) :
    option (dict string Z * list (option string * Cause) * (nat * nat) * list (string * nat)) :=
  match r with
  | Ok (Some (x, reply)) =>
      Some (to_launch reply, map (λ q, (tr_instance_id q, tr_cause q)) (to_terminate reply),
        (length (infeasible_resource_requests reply), length (infeasible_gang_resource_requests reply)),
        map (λ o, (SchedulingNode.node_type o.2,
                   length (SchedulingNode.get_sched_requests PENDING_DEMAND o.2))) (_nodes x))
  | _ => None
  end.

(** The gang is spread over two nodes, the third is idle and terminated. *)
Example req1_outcome : outcome (schedule req1) =
  Some ([("B", 1)], [(Some "a3", IDLE)], (1%nat, 1%nat),
    [("B", 1%nat); ("A", 1%nat); ("A", 1%nat); ("head", 0%nat); ("A", 0%nat)]).
Proof. vm_compute. reflexivity. Qed.

(** The hypotheses of the theorems, decided. *)
Definition request_okb (req : SchedulingRequest) : bool :=
  bool_decide (NoDup (node_type_configs req).*1) &&
  forallb (λ kc : string * NodeTypeConfig, bool_decide (name kc.2 = kc.1)) (node_type_configs req) &&
  (length (filter (λ i, head_instance i = true) (current_instances req)) <=? 1)%nat &&
  bool_decide (NoDup (omap ai_cloud_instance_id (current_instances req))) &&
  forallb (λ kst : string * IPPRStatus.t, bool_decide (IPPRStatus.cloud_instance_id kst.2 = kst.1))
    (ippr_statuses req).

Lemma request_okb_ok req : request_okb req = true → request_ok req.
Proof.
  unfold request_okb. rewrite !andb_true_iff, !bool_decide_eq_true, !forallb_forall, Nat.leb_le.
  intros ((((Hn & Hc) & Hh) & Hi) & Hs). split; [split; [done|]|done|done|].
  - intros k c Hk%dget_elem%list_elem_of_In%Hc. by apply bool_decide_eq_true in Hk.
  - intros id st Hk%dget_elem%list_elem_of_In%Hs. by apply bool_decide_eq_true in Hk.
Qed.

Lemma req1_ok : request_ok req1.
Proof. apply request_okb_ok. vm_compute. reflexivity. Qed.

Lemma req1_runs : match schedule req1 with Ok _ => True | Raise _ => False end.
Proof. vm_compute. exact I. Qed.

Lemma schedule_limits_witness : match schedule req1 with
  | Ok (Some (x, reply)) =>
      Z.of_nat (length (filter active (_nodes x))) ≤ 5 ∧
      length (to_terminate reply) = length (filter terminating (_nodes x))
  | _ => False end.
Proof.
  pose proof req1_runs as Hr. destruct (schedule req1) as [r|] eqn:Hs; [|done].
  destruct (schedule_limits req1 r req1_ok Hs) as (x & reply & -> & _ & _ & _ & Hg & _ & _ & Ht).
  split; [by apply Hg|exact Ht].
Defined.

Lemma schedule_conserves_witness : match schedule req1 with
  | Ok (Some (x, reply)) => ∃ feasible,
      [pair_gang; large_gang] ≡ₚ feasible ++ infeasible_gang_resource_requests reply
  | _ => False end.
Proof.
  pose proof req1_runs as Hr. destruct (schedule req1) as [r|] eqn:Hs; [|done].
  destruct (schedule_conserves req1 r req1_ok Hs) as (x & reply & feasible & bundles & -> & Hg & _).
  by exists feasible.
Defined.

(** Two requests that exclude each other, on one node. *)
Definition node : SchedulingNode.t :=
  from_node_config (config "A" 0 3 2).2 TO_LAUNCH WORKER None None.

Lemma node_try_schedule_spec_witness :
  match SchedulingNode.try_schedule [cpu_request 1 apart; cpu_request 1 apart] PENDING_DEMAND node with
  | Ok (n', un, _) => ∃ added, length added = 1%nat ∧ placed_on PENDING_DEMAND node n' added ∧
      [cpu_request 1 apart; cpu_request 1 apart] ≡ₚ un ++ added
  | Raise _ => False end.
Proof.
  assert (match SchedulingNode.try_schedule [cpu_request 1 apart; cpu_request 1 apart] PENDING_DEMAND node with
    | Ok (_, un, _) => length un = 1%nat | Raise _ => False end) as Hr by (vm_compute; reflexivity).
  destruct (SchedulingNode.try_schedule _ _ _) as [[[n' un] sc]|] eqn:Hs; [|done].
  destruct (node_try_schedule_spec _ _ _ _ _ _ Hs) as (added & Hp & Ho & _). exists added.
  split; [|by split]. apply Permutation_length in Hp. rewrite length_app, Hr in Hp. simpl in Hp. lia.
Defined.

(** ** One object for the nodes of a minimum

    Three nodes run, two more are needed for the minimum of "B", and the
    maximum is four: one of the two would fit, none is launched, and two
    nodes that never existed are terminated. *)
Definition req2 : SchedulingRequest := request
  [config "A" 0 3 2; config "B" 2 2 1] (Some 4) None [] []
  [running "a1" "A" WORKER 2 0; running "a2" "A" WORKER 2 0; running "a3" "A" WORKER 2 0].

Example req2_outcome : outcome (schedule req2) =
  Some ([], [(None, MAX_NUM_NODES); (None, MAX_NUM_NODES)], (0%nat, 0%nat),
    [("B", 0%nat); ("B", 0%nat); ("A", 0%nat); ("A", 0%nat); ("A", 0%nat)]).
Proof. vm_compute. reflexivity. Qed.

Lemma req2_ok : request_ok req2.
Proof. apply request_okb_ok. vm_compute. reflexivity. Qed.

Lemma minimum_all_or_none_witness : match enforced req2 with
  | Ok x => length (launch_of "B" (_nodes x)) = 0%nat
  | Raise _ => False end.
Proof.
  assert (match enforced req2 with Ok x => length (launch_of "B" (_nodes x)) ≠ 2%nat
    | Raise _ => False end) as Hr by (vm_compute; congruence).
  destruct (enforced req2) as [x|] eqn:Hs; [|done].
  destruct (minimum_all_or_none req2 x "B" (config "B" 2 2 1).2 req2_ok Hs eq_refl) as [H2|]; [|done].
  destruct Hr. vm_compute (Z.max _ _) in H2. lia.
Defined.

(** ** Requests on a node that is being terminated

    The one node is outdated and marked, and still takes the request: nothing
    is launched for it in this round. *)
Definition outdated_config : string * NodeTypeConfig :=
  ("A", {| name := "A"; min_worker_nodes := 0; max_worker_nodes := 3;
           config_idle_timeout_s := None; config_priority := 0; config_resources := cpus 2;
           config_labels := ∅; config_launch_hash := "v2" |}).

Example req3_outcome :
  outcome (schedule (request [outdated_config] None None [(cpu_request 1 [], 1)] []
    [running "a1" "A" WORKER 2 0])) =
  Some ([], [(Some "a1", OUTDATED)], (0%nat, 0%nat), [("A", 1%nat)]).
Proof. vm_compute. reflexivity. Qed.

(** ** A running node of a type that was removed

    The launch configurations are not compared, so the node stays, and the
    round raises. *)
Definition req4 : SchedulingRequest := {|
  disable_launch_config_check := true;
  node_type_configs := []; max_num_nodes := None; idle_timeout_s := None;
  resource_requests := []; gang_resource_requests := []; cluster_resource_constraints := [];
  current_instances := [running "a1" "A" WORKER 2 0]; cloud_resource_availabilities := [];
  recoverable_resource_availabilities := []; ippr_specs := None; ippr_statuses := [] |}.

Example req4_outcome : schedule req4 = Raise KeyError.
Proof. vm_compute. reflexivity. Qed.

Lemma max_types_errors_witness :
  _enforce_max_workers_per_type (from_schedule_request req4) = Raise KeyError.
Proof.
  assert (ready (from_schedule_request req4)) as Hr
    by (apply request_ready, request_okb_ok; vm_compute; reflexivity).
  pose proof (max_types_errors _ Hr) as He.
  destruct (_enforce_max_workers_per_type (from_schedule_request req4)) as [y|e].
  - destruct (He (0%nat, default node (head (_nodes (from_schedule_request req4)).*2))); [left|done|done].
  - by destruct He as [-> _].
Defined.
End SchedRun.
