(* ===== verification/Reconciler.v ===== *)
(** * [autoscaler/v2/instance_manager/reconciler.py]

    One reconciliation brings the instance manager's records in line with the
    cloud provider and the Ray cluster ([_sync_from]) and then takes the next
    steps ([_step_next]).  Every handler reads the records, computes its
    updates, and sends them to the instance manager as one request at the
    version it read.  The instance manager drops the details of an update to
    an existing record, so only those of created records are modelled; log
    messages and metrics are not. *)
From Stdlib Require Import Strings.Byte Strings.Ascii.
From S2P Require Import Prelude PyDict PyStr PyFloat InstanceUtil Storage InstanceManager SchedNode Scheduler.

(** ** What the reconciler is told *)
Module NodeStatus.
Inductive t : Type := UNSPECIFIED | RUNNING | DEAD | IDLE | DRAINING.
#[global] Instance eq_dec : EqDecision t.
Proof. solve_decision. Defined.
End NodeStatus.

(** [binary_to_hex] *)
Definition hex_digit (n : N) : Ascii.ascii := default "0"%char (String.get (N.to_nat n) "0123456789abcdef").

Definition binary_to_hex (identifier : list byte) : string :=
  foldr (λ b s, String (hex_digit (Byte.to_N b / 16)) (String (hex_digit (Byte.to_N b mod 16)) s))
    "" identifier.

(** A [NodeState] of the cluster's state: a Ray node. *)
Record RayNode : Type := {
  rn_node_id : list byte;
  rn_instance_id : string;
  rn_node_type_name : string;
  rn_status : NodeStatus.t;
  rn_state : NodeState
}.

Definition hex_id (n : RayNode) : string := binary_to_hex (rn_node_id n).

Definition is_head_node (n : RayNode) : bool :=
  bool_decide (is_Some (ns_total_resources (rn_state n) !! "node:__internal_head__")).

Record CloudInstance : Type := {
  ci_cloud_instance_id : string;
  ci_node_type : string;
  ci_node_kind : NodeKind;
  ci_is_running : bool
}.

Inductive CloudInstanceProviderError : Type :=
  | LaunchNodeError (node_type : string) (request_id : string)
  | TerminateNodeError (cloud_instance_id : string)
  | OtherProviderError.

Record RayInstallError : Type := { rie_im_instance_id : string }.
Record RayStopError : Type := { rse_im_instance_id : string }.

Record InstanceReconcileConfig : Type := {
  request_status_timeout_s : Z;
  allocate_status_timeout_s : Z;
  ray_install_status_timeout_s : Z;
  terminating_status_timeout_s : Z;
  ray_stop_requested_status_timeout_s : Z;
  max_num_retry_request_to_allocate : Z
}.

Module Provider.
Inductive t : Type := UNKNOWN | ALIYUN | AWS | AZURE | GCP | KUBERAY | LOCAL | READ_ONLY.
#[global] Instance eq_dec : EqDecision t.
Proof. solve_decision. Defined.
End Provider.

(** What is read of the [AutoscalingConfig]. *)
Record AutoscalingConfig : Type := {
  provider : Provider.t;
  ac_node_type_configs : dict string NodeTypeConfig;
  ac_max_num_nodes : option Z;
  ac_idle_timeout_s : option float;
  ac_disable_launch_config_check : bool;
  upscaling_speed : float;
  max_concurrent_launches : Z;
  disable_node_updaters : bool;
  reconcile_config : InstanceReconcileConfig;
  get_provider_instance_type : string → result string
}.

Record ClusterResourceState : Type := {
  node_states : list RayNode;
  pending_resource_requests : by_count;
  pending_gang_resource_requests : list GangResourceRequest;
  ray_cluster_resource_constraints : list by_count;
  cluster_resource_state_version : Z
}.

(** The specifications and statuses of a [KubeRayProvider]; [None] for any
    other provider. *)
Abbreviation ippr_state := (option (option (dict string IPPRGroupSpec) * dict string IPPRStatus.t)).

Record PendingInstanceRequest : Type := {
  pir_instance_type_name : string; pir_ray_node_type_name : string; pir_count : Z; pir_request_ts : Z
}.
Record PendingInstance : Type := {
  pi_instance_id : string; pi_instance_type_name : string; pi_ray_node_type_name : string; pi_details : string
}.
Record FailedInstanceRequest : Type := {
  fir_instance_type_name : string; fir_ray_node_type_name : string; fir_start_ts : Z; fir_failed_ts : Z;
  fir_reason : string; fir_count : Z
}.

Record AutoscalingState : Type := {
  last_seen_cluster_resource_state_version : Z;
  autoscaler_state_version : Z;
  pending_instance_requests : list PendingInstanceRequest;
  pending_instances : list PendingInstance;
  failed_instance_requests : list FailedInstanceRequest;
  as_infeasible_resource_requests : list ResourceRequest;
  as_infeasible_gang_resource_requests : list GangResourceRequest;
  as_infeasible_cluster_resource_constraints : list by_count
}.

(** An update of a record, with its optional cloud instance id, Ray node id
    and instance type. *)
Definition update_event (id : string) (s : InstanceStatus) (ty cloud node : string) : InstanceUpdateEvent := {|
  upd_instance_id := id; new_instance_status := s; upd_details := ""; upsert := false;
  upd_instance_type := ty; upd_cloud_instance_id := cloud; upd_node_kind := UNMANAGED;
  upd_ray_node_id := node; upd_launch_request_id := ""; upd_termination_request := None |}.

Abbreviation truthy := InstanceManager.truthy.
Abbreviation updates_t := (dict string InstanceUpdateEvent).

(** ** The updates each handler computes *)
Module Reconciler.

(** A record that holds a cloud instance: [cloud_instance_id] is set and the
    status is neither [TERMINATED] nor [ALLOCATION_FAILED]. *)
Definition holds_cloud (i : InstanceMsg) : bool :=
  truthy (cloud_instance_id i) && negb (bool_decide (status i ∈ [TERMINATED; ALLOCATION_FAILED])).

(** *** [_handle_cloud_instance_allocation] *)
Definition unassigned_cloud_instances_by_type (instances : list InstanceMsg)
    (cloud : dict string CloudInstance) : dict string (list CloudInstance) :=
  let assigned := map cloud_instance_id (filter holds_cloud instances) in
  foldl (λ d c, if bool_decide (c.1 ∈ assigned) then d
    else dset d (ci_node_type c.2) (default [] (dget d (ci_node_type c.2)) ++ [c.2])) [] cloud.

Definition launch_errors (errors : list CloudInstanceProviderError) : dict string string :=
  dict_of (omap (λ e, match e with LaunchNodeError ty req => Some (req, ty) | _ => None end) errors).

(** The update, and the cloud instances still unassigned after [pop]. *)
Definition _try_resolve_pending_allocation (i : InstanceMsg)
    (unassigned : dict string (list CloudInstance)) (errors : dict string string) :
    option InstanceUpdateEvent * dict string (list CloudInstance) :=
  let of_type := default [] (dget unassigned (instance_type i)) in
  match last of_type with
  | Some c =>
      (Some {| upd_instance_id := instance_id i; new_instance_status := ALLOCATED; upd_details := "";
               upsert := false; upd_instance_type := ci_node_type c;
               upd_cloud_instance_id := ci_cloud_instance_id c; upd_node_kind := ci_node_kind c;
               upd_ray_node_id := ""; upd_launch_request_id := ""; upd_termination_request := None |},
       dset unassigned (instance_type i) (take (length of_type - 1) of_type))
  | None =>
      match dget errors (launch_request_id i) with
      | Some ty =>
          if bool_decide (ty = instance_type i)
          then (Some (update_event (instance_id i) ALLOCATION_FAILED "" "" ""), unassigned)
          else (None, unassigned)
      | None => (None, unassigned)
      end
  end.

(** The sort key: the times of the requests, compared as lists. *)
Definition earlier_requested (a b : InstanceMsg) : bool :=
  list_lt Z.eqb Z.ltb (InstanceUtil.get_status_transition_times_ns a (Some REQUESTED))
    (InstanceUtil.get_status_transition_times_ns b (Some REQUESTED)).

Fixpoint allocation_loop (errors : dict string string) (unassigned : dict string (list CloudInstance))
    (updates : updates_t) (instances : list InstanceMsg) : updates_t :=
  match instances with
  | [] => updates
  | i :: instances =>
      let '(u, unassigned) := _try_resolve_pending_allocation i unassigned errors in
      allocation_loop errors unassigned
        (match u with Some u => dset updates (instance_id i) u | None => updates end) instances
  end.

Definition allocation_updates (cloud : dict string CloudInstance)
    (errors : list CloudInstanceProviderError) (instances : list InstanceMsg) : result updates_t :=
  let requested := filter (λ i, status i = REQUESTED) instances in
  _ ← py_assert (forallb (λ i, truthy (launch_request_id i)) requested);
  Ok (allocation_loop (launch_errors errors) (unassigned_cloud_instances_by_type instances cloud) []
    (sort_by earlier_requested requested)).

(** *** [_handle_cloud_instance_terminated] *)
Definition terminated_updates (cloud : dict string CloudInstance) (instances : list InstanceMsg) :
    result updates_t :=
  let assigned := dict_of (map (λ i, (cloud_instance_id i, i))
    (filter (λ i, truthy (cloud_instance_id i) ∧ status i ≠ TERMINATED) instances)) in
  Ok (foldl (λ d p, if dmem cloud p.1 then d
    else dset d (instance_id p.2) (update_event (instance_id p.2) TERMINATED "" p.1 "")) [] assigned).

(** *** [_handle_cloud_instance_termination_errors] *)
Definition termination_error_updates (errors : list CloudInstanceProviderError)
    (instances : list InstanceMsg) : result updates_t :=
  let failed := (dict_of (omap (λ e, match e with TerminateNodeError c => Some (c, tt) | _ => None end) errors)).*1 in
  let terminating := dict_of (map (λ i, (cloud_instance_id i, i))
    (filter (λ i, status i = TERMINATING) instances)) in
  Ok (foldl (λ d c, match dget terminating c with
    | Some i => dset d (instance_id i) (update_event (instance_id i) TERMINATION_FAILED "" "" "")
    | None => d end) [] failed).

(** *** [_handle_ray_status_transition] *)
Definition _reconciled_im_status_from_ray_status (ray : NodeStatus.t) (cur : InstanceStatus) :
    result InstanceStatus :=
  reconciled ← match ray with
    | NodeStatus.RUNNING | NodeStatus.IDLE => Ok RAY_RUNNING
    | NodeStatus.DEAD => Ok RAY_STOPPED
    | NodeStatus.DRAINING => Ok RAY_STOPPING
    | NodeStatus.UNSPECIFIED => Raise ValueError
    end;
  if bool_decide (cur = reconciled) || bool_decide (cur ∈ InstanceUtil.get_reachable_statuses reconciled)
  then Ok cur else Ok reconciled.

(** The record of a Ray node; [None] for a node that is not managed. *)
Definition instance_of_ray_node (p : Provider.t) (by_cloud by_ray : dict string InstanceMsg) (n : RayNode) :
    result (option InstanceMsg) :=
  match dget by_ray (hex_id n) with
  | Some i => Ok (Some i)
  | None =>
      if bool_decide (p = Provider.READ_ONLY) then
        i ← or_raise KeyError (dget by_cloud (hex_id n)); Ok (Some i)
      else if truthy (rn_instance_id n) then
        i ← or_raise KeyError (dget by_cloud (rn_instance_id n)); Ok (Some i)
      else Ok None
  end.

Definition ray_status_updates (p : Provider.t) (ray_nodes : list RayNode) (instances : list InstanceMsg) :
    result updates_t :=
  let by_cloud := dict_of (map (λ i, (cloud_instance_id i, i)) (filter holds_cloud instances)) in
  let by_ray := dict_of (map (λ i, (node_id i, i)) (filter (λ i, truthy (node_id i)) instances)) in
  result_fold (λ d n,
    o ← instance_of_ray_node p by_cloud by_ray n;
    match o with
    | None => Ok d
    | Some i =>
        s ← _reconciled_im_status_from_ray_status (rn_status n) (status i);
        Ok (if bool_decide (s = status i) then d
            else dset d (hex_id n) (update_event (instance_id i) s (instance_type i) "" (hex_id n)))
    end) [] ray_nodes.

(** *** [_handle_ray_install_failed] *)
Definition install_failed_updates (errors : list RayInstallError) (instances : list InstanceMsg) :
    result updates_t :=
  let installing := dict_of (map (λ i, (instance_id i, i)) (filter (λ i, status i = RAY_INSTALLING) instances)) in
  Ok (foldl (λ d p, if bool_decide (p.1 ∈ map rie_im_instance_id errors)
    then dset d p.1 (update_event p.1 RAY_INSTALL_FAILED "" "" "") else d) [] installing).

(** *** [_handle_ray_stop_failed] *)
Definition stop_failed_updates (errors : list RayStopError) (ray_nodes : list RayNode)
    (instances : list InstanceMsg) : result updates_t :=
  let nodes := dict_of (map (λ n, (hex_id n, n)) ray_nodes) in
  let requested := dict_of (map (λ i, (instance_id i, i)) (filter (λ i, status i = RAY_STOP_REQUESTED) instances)) in
  result_fold (λ d p,
    if bool_decide (p.1 ∈ map rse_im_instance_id errors) then
      _ ← py_assert (truthy (node_id p.2));
      _ ← py_assert (match dget nodes (node_id p.2) with
        | Some n => bool_decide (rn_status n ∈ [NodeStatus.RUNNING; NodeStatus.IDLE]) | None => false end);
      Ok (dset d p.1 (update_event p.1 RAY_RUNNING "" "" (node_id p.2)))
    else Ok d) [] requested.

(** *** [_handle_missing_ray_nodes] *)
Definition missing_updates (ray_nodes : list RayNode) (instances : list InstanceMsg) : result updates_t :=
  let candidates := filter (λ i, status i ∈ [RAY_RUNNING; RAY_STOP_REQUESTED; RAY_STOPPING] ∧
    node_kind i ≠ HEAD ∧ truthy (node_id i)) instances in
  Ok (foldl (λ d i, if bool_decide (node_id i ∈ map hex_id ray_nodes) then d
    else dset d (instance_id i)
      (update_event (instance_id i) RAY_STOPPED (instance_type i) "" (node_id i))) [] candidates).

(** *** [_terminate_instances] *)
Definition statuses_to_terminate : list InstanceStatus :=
  [RAY_STOPPED; ALLOCATION_TIMEOUT; RAY_INSTALL_FAILED; TERMINATION_FAILED].

Definition inactive_statuses : list InstanceStatus := statuses_to_terminate ++ [TERMINATED; ALLOCATION_FAILED].

Definition terminate_updates (instances : list InstanceMsg) : result updates_t :=
  let active := map cloud_instance_id
    (filter (λ i, truthy (cloud_instance_id i) ∧ status i ∉ inactive_statuses) instances) in
  Ok (foldl (λ d i,
    if bool_decide (status i ∉ statuses_to_terminate) then d
    else if bool_decide (status i = RAY_STOPPED) && bool_decide (cloud_instance_id i ∈ active)
    then dset d (instance_id i) (update_event (instance_id i) TERMINATED "" "" "")
    else dset d (instance_id i) (update_event (instance_id i) TERMINATING "" (cloud_instance_id i) ""))
    [] instances).

(** *** [_install_ray] *)
Definition install_updates (cloud : dict string CloudInstance) (instances : list InstanceMsg) :
    result updates_t :=
  result_fold (λ d i,
    if bool_decide (status i ≠ ALLOCATED) then Ok d
    else if bool_decide (node_kind i = HEAD) then Ok d
    else
      c ← or_raise AssertionError (dget cloud (cloud_instance_id i));
      Ok (if ci_is_running c
          then dset d (instance_id i) (update_event (instance_id i) RAY_INSTALLING "" "" "") else d))
    [] instances.

(** *** [_compute_to_launch] *)
Definition _group_by_type (instances : list InstanceMsg) : dict string (list InstanceMsg) :=
  foldl (λ d i, dset d (instance_type i) (default [] (dget d (instance_type i)) ++ [i])) [] instances.

Definition queue_times (i : InstanceMsg) : list Z :=
  merge_sort Z.le (InstanceUtil.get_status_transition_times_ns i (Some QUEUED)).

Definition earlier_queued (a b : InstanceMsg) : bool := list_lt Z.eqb Z.ltb (queue_times a) (queue_times b).

(** How many instances of a type to launch, [requested] being launched. *)
Definition num_to_launch (speed : float) (max_launches requested : Z) (running queued : list InstanceMsg) :
    result Z :=
  desired ← f_ceil (f_mul speed (f_of_int (Z.max (Z.of_nat (length running)) 1)));
  Ok (Z.min (Z.of_nat (length queued)) (Z.max 0 (Z.min (max_launches - requested) (Z.max 1 desired)))).

Fixpoint to_launch_loop (speed : float) (max_launches requested : Z) (running : dict string (list InstanceMsg))
    (queued : dict string (list InstanceMsg)) : result (dict string (list InstanceMsg)) :=
  match queued with
  | [] => Ok []
  | (ty, instances) :: queued =>
      n ← num_to_launch speed max_launches requested (default [] (dget running ty)) instances;
      rest ← to_launch_loop speed max_launches (requested + n) running queued;
      Ok ((ty, take (Z.to_nat n) (sort_by earlier_queued instances)) :: rest)
  end.

Definition _compute_to_launch (queued requested running : list InstanceMsg) (speed : float)
    (max_launches : Z) : result (dict string (list InstanceMsg)) :=
  to_launch_loop speed max_launches (Z.of_nat (length requested)) (_group_by_type running)
    (_group_by_type queued).

(** The request of a queued record; [fresh] is the new launch request id. *)
Definition launch_event (fresh ty : string) (i : InstanceMsg) : InstanceUpdateEvent := {|
  upd_instance_id := instance_id i; new_instance_status := REQUESTED; upd_details := ""; upsert := false;
  upd_instance_type := ty; upd_cloud_instance_id := ""; upd_node_kind := UNMANAGED; upd_ray_node_id := "";
  upd_launch_request_id := if bool_decide (launch_request_id i = "") then fresh else launch_request_id i;
  upd_termination_request := None |}.

Definition launch_updates (fresh : string) (to_launch : dict string (list InstanceMsg)) : updates_t :=
  foldl (λ d p, foldl (λ d i, dset d (instance_id i) (launch_event fresh p.1 i)) d p.2) [] to_launch.

(** *** [_scale_cluster] *)
Definition autoscaler_instances (ray_nodes : list RayNode) (instances : list InstanceMsg) :
    list AutoscalerInstance :=
  let nodes := dict_of (map (λ n, (hex_id n, n)) ray_nodes) in
  map (λ i, {| ai_cloud_instance_id := if truthy (cloud_instance_id i) then Some (cloud_instance_id i) else None;
               ray_node := rn_state <$> dget nodes (node_id i); im_instance := Some i |}) instances.

Definition scheduling_request (cfg : AutoscalingConfig) (ray : ClusterResourceState) (kuberay : ippr_state)
    (availabilities recoverable : dict string float) (instances : list InstanceMsg) : SchedulingRequest := {|
  disable_launch_config_check := ac_disable_launch_config_check cfg;
  node_type_configs := ac_node_type_configs cfg;
  max_num_nodes := ac_max_num_nodes cfg;
  idle_timeout_s := ac_idle_timeout_s cfg;
  resource_requests := pending_resource_requests ray;
  gang_resource_requests := pending_gang_resource_requests ray;
  cluster_resource_constraints := ray_cluster_resource_constraints ray;
  current_instances := autoscaler_instances (node_states ray) instances;
  cloud_resource_availabilities := availabilities;
  recoverable_resource_availabilities := recoverable;
  ippr_specs := match kuberay with Some k => k.1 | None => None end;
  ippr_statuses := match kuberay with Some k => k.2 | None => [] end |}.

(** The update for a termination request; its unset instance id and status
    read as the empty string and [UNKNOWN]. *)
Definition terminate_event (by_id : dict string InstanceMsg) (r : TerminationRequest) :
    result InstanceUpdateEvent :=
  let id := default "" (tr_instance_id r) in
  let mk s cloud := {|
    upd_instance_id := id; new_instance_status := s; upd_details := ""; upsert := false;
    upd_instance_type := ""; upd_cloud_instance_id := cloud; upd_node_kind := UNMANAGED;
    upd_ray_node_id := ""; upd_launch_request_id := ""; upd_termination_request := Some r |} in
  match default UNKNOWN (tr_instance_status r) with
  | QUEUED => Ok (mk TERMINATED "")
  | ALLOCATED | RAY_INSTALLING =>
      i ← or_raise KeyError (dget by_id id); Ok (mk TERMINATING (cloud_instance_id i))
  | _ => Ok (mk RAY_STOP_REQUESTED "")
  end.

Definition terminate_requests_updates (instances : list InstanceMsg) (rs : list TerminationRequest) :
    result updates_t :=
  let by_id := dict_of (map (λ i, (instance_id i, i)) (filter (λ i, truthy (instance_id i)) instances)) in
  result_fold (λ d r, u ← terminate_event by_id r; Ok (dset d (default "" (tr_instance_id r)) u)) [] rs.

Definition queue_new_event (id ty : string) : InstanceUpdateEvent := {|
  upd_instance_id := id; new_instance_status := QUEUED;
  upd_details := "queuing new instance of " +:+ ty +:+ " from scheduler"; upsert := true;
  upd_instance_type := ty; upd_cloud_instance_id := ""; upd_node_kind := UNMANAGED; upd_ray_node_id := "";
  upd_launch_request_id := ""; upd_termination_request := None |}.

(** *** [_fill_autoscaling_state] *)
Definition of_status (s : InstanceStatus) (instances : list InstanceMsg) : list InstanceMsg :=
  filter (λ i, status i = s) instances.

(** The requests of one launch request id, by type. *)
Definition pending_requests_of (ty_name : string → result string) (instances : list InstanceMsg) :
    result (list PendingInstanceRequest) :=
  let counts := foldl (λ d i, dset d (instance_type i) (default 0 (dget d (instance_type i)) + 1)) [] instances in
  first ← or_raise IndexError (head instances);
  let time := match InstanceUtil.get_last_status_transition first (Some REQUESTED) with
    | Some h => timestamp_ns h | None => 0 end in
  result_map (λ p : string * Z,
    n ← ty_name p.1;
    Ok {| pir_instance_type_name := n; pir_ray_node_type_name := p.1; pir_count := p.2;
          pir_request_ts := seconds_of_ns time |}) counts.

(** [sorted(history, key=timestamp, reverse=True)[0]]: the first of the latest. *)
Definition latest_details (i : InstanceMsg) : result string :=
  h ← or_raise IndexError (foldl (λ o h, match o with
    | Some k => if timestamp_ns k <? timestamp_ns h then Some h else o | None => Some h end) None
    (status_history i));
  Ok (details h).

Definition pending_of (ty_name : string → result string) (i : InstanceMsg) : result PendingInstance :=
  n ← ty_name (instance_type i);
  d ← latest_details i;
  Ok {| pi_instance_id := instance_id i; pi_instance_type_name := n;
        pi_ray_node_type_name := instance_type i; pi_details := d |}.

Definition failed_of (ty_name : string → result string) (i : InstanceMsg) : result FailedInstanceRequest :=
  let request := InstanceUtil.get_last_status_transition i (Some REQUESTED) in
  let failed := InstanceUtil.get_last_status_transition i (Some ALLOCATION_FAILED) in
  n ← ty_name (instance_type i);
  f ← or_raise AttributeError failed;
  Ok {| fir_instance_type_name := n; fir_ray_node_type_name := instance_type i;
        fir_start_ts := seconds_of_ns (from_option timestamp_ns 0 request);
        fir_failed_ts := seconds_of_ns (timestamp_ns f); fir_reason := details f; fir_count := 1 |}.

Definition by_launch_request (instances : list InstanceMsg) : dict string (list InstanceMsg) :=
  foldl (λ d i, dset d (launch_request_id i) (default [] (dget d (launch_request_id i)) ++ [i])) []
    (filter (λ i, truthy (launch_request_id i)) (of_status REQUESTED instances ++ of_status QUEUED instances)).

(** The state with the scheduler's [reply] and the version of [ray]. *)
Definition fill (ty_name : string → result string) (instances : list InstanceMsg) (version ray_version : Z)
    (reply : SchedulingReply) : result AutoscalingState :=
  requests ← result_map (λ p : string * list InstanceMsg, pending_requests_of ty_name p.2)
    (by_launch_request instances);
  pending ← result_map (pending_of ty_name) (of_status ALLOCATED instances ++ of_status RAY_INSTALLING instances);
  failed ← result_map (failed_of ty_name) (of_status ALLOCATION_FAILED instances);
  Ok {| last_seen_cluster_resource_state_version := ray_version; autoscaler_state_version := version;
        pending_instance_requests := concat requests; pending_instances := pending;
        failed_instance_requests := failed;
        as_infeasible_resource_requests := infeasible_resource_requests reply;
        as_infeasible_gang_resource_requests := infeasible_gang_resource_requests reply;
        as_infeasible_cluster_resource_constraints := infeasible_cluster_resource_constraints reply |}.

(** ** The handlers *)
Section reconciler.
Context {St V Sub : Type} `{!Storage St V, !InstanceCodec V}.
(** The instance manager, the readings of the clock, and the random ids. *)
Variables (im : InstanceManager.t Sub) (clock : nat → Z) (random_id : nat → string).

(** The storage, how often the clock was read and an id was drawn, and the
    calls of the subscribers and of [do_ippr_requests]. *)
Record world : Type := {
  w_storage : St;
  w_tick : nat;
  w_ids : nat;
  w_notified : list (Sub * list InstanceUpdateEvent);
  w_ippr : list (list IPPRStatus.t)
}.

Definition M (A : Type) : Type := world → result A * world.
#[global] Instance M_ret : MRet M := λ A a w, (Ok a, w).
#[global] Instance M_bind : MBind M := λ A B f m w,
  match m w with (Ok a, w) => f a w | (Raise e, w) => (Raise e, w) end.

Definition lift {A} (r : result A) : M A := λ w, (r, w).

Definition read_clock : M Z := λ w, (Ok (clock (w_tick w)),
  {| w_storage := w_storage w; w_tick := S (w_tick w); w_ids := w_ids w; w_notified := w_notified w;
     w_ippr := w_ippr w |}).

(** [random_instance_id] and [str(uuid.uuid4())] *)
Definition new_id : M string := λ w, (Ok (random_id (w_ids w)),
  {| w_storage := w_storage w; w_tick := w_tick w; w_ids := S (w_ids w); w_notified := w_notified w;
     w_ippr := w_ippr w |}).

Definition do_ippr_requests (l : list IPPRStatus.t) : M unit := λ w, (Ok tt,
  {| w_storage := w_storage w; w_tick := w_tick w; w_ids := w_ids w; w_notified := w_notified w;
     w_ippr := w_ippr w ++ [l] |}).

Fixpoint M_fold {A B} (f : B → A → M B) (b : B) (l : list A) : M B :=
  match l with
  | [] => mret b
  | a :: l => b' ← f b a; M_fold f b' l
  end.

Definition _get_im_instances : M (list InstanceMsg * Z) := λ w,
  (Ok (InstanceManager.get_instance_manager_state im (w_storage w)), w).

Definition _update_instance_manager (version : Z) (updates : updates_t) : M unit :=
  match updates with
  | [] => mret tt
  | _ => λ w,
      let '(reply, st, notified) := InstanceManager.update_instance_manager_state im
        (λ k, clock (w_tick w + k)) {| expected_version := version; updates := updates.*2 |} (w_storage w) in
      let w := {| w_storage := st; w_tick := w_tick w + length updates; w_ids := w_ids w;
                  w_notified := w_notified w ++ notified; w_ippr := w_ippr w |} in
      match reply with
      | Raise e => (Raise e, w)
      | Ok r => (py_assert (match reply_code r with OK => true | _ => false end), w)
      end
  end.

(** A handler whose updates depend on the records only. *)
Definition handle (updates : list InstanceMsg → result updates_t) : M unit :=
  p ← _get_im_instances;
  u ← lift (updates p.1);
  _update_instance_manager p.2 u.

Definition _handle_cloud_instance_allocation cloud errors : M unit := handle (allocation_updates cloud errors).
Definition _handle_cloud_instance_terminated cloud : M unit := handle (terminated_updates cloud).
Definition _handle_cloud_instance_termination_errors errors : M unit := handle (termination_error_updates errors).
Definition _handle_ray_status_transition ray_nodes cfg : M unit := handle (ray_status_updates (provider cfg) ray_nodes).
Definition _handle_ray_install_failed errors : M unit := handle (install_failed_updates errors).
Definition _handle_ray_stop_failed errors ray_nodes : M unit := handle (stop_failed_updates errors ray_nodes).
Definition _handle_missing_ray_nodes ray_nodes : M unit := handle (missing_updates ray_nodes).
Definition _terminate_instances : M unit := handle terminate_updates.
Definition _install_ray cloud : M unit := handle (install_updates cloud).

(** *** [_handle_extra_cloud_instances] *)
Definition created_event (id cloud node ty details : string) (kind : NodeKind) : InstanceUpdateEvent := {|
  upd_instance_id := id; new_instance_status := ALLOCATED; upd_details := details; upsert := true;
  upd_instance_type := ty; upd_cloud_instance_id := cloud; upd_node_kind := kind; upd_ray_node_id := node;
  upd_launch_request_id := ""; upd_termination_request := None |}.

Definition _handle_extra_cloud_instances_from_ray_nodes (ray_nodes : list RayNode) : M unit :=
  p ← _get_im_instances;
  let managed_cloud := map cloud_instance_id
    (filter (λ i, holds_cloud i ∧ node_id i = "") p.1) in
  let managed_ray := map node_id (filter (λ i, truthy (node_id i)) p.1) in
  u ← M_fold (λ d n,
    if negb (truthy (rn_instance_id n)) then mret d
    else if bool_decide (hex_id n ∈ managed_ray) then mret d
    else if bool_decide (rn_instance_id n ∈ managed_cloud) then mret d
    else
      id ← new_id;
      mret (dset d (hex_id n) (created_event id (rn_instance_id n) (hex_id n) (rn_node_type_name n)
        ("allocated unmanaged worker cloud instance from ray node: " +:+ hex_id n)
        (if is_head_node n then HEAD else WORKER)))) [] ray_nodes;
  _update_instance_manager p.2 u.

(** [NodeKind.Name] *)
Definition NodeKind_Name (k : NodeKind) : string :=
  match k with UNMANAGED => "UNMANAGED" | HEAD => "HEAD" | WORKER => "WORKER" end.

Definition _handle_extra_cloud_instances_from_cloud_provider (cloud : dict string CloudInstance) : M unit :=
  p ← _get_im_instances;
  let managed := map cloud_instance_id (filter holds_cloud p.1) in
  u ← M_fold (λ d c,
    if bool_decide (c.1 ∈ managed) then mret d
    else
      id ← new_id;
      mret (dset d c.1 (created_event id c.1 "" (ci_node_type c.2)
        ("allocated unmanaged cloud instance :" +:+ ci_cloud_instance_id c.2 +:+ " (" +:+
         NodeKind_Name (ci_node_kind c.2) +:+ ") from cloud provider") (ci_node_kind c.2)))) [] cloud;
  _update_instance_manager p.2 u.

Definition _handle_extra_cloud_instances cloud ray_nodes : M unit :=
  _ ← _handle_extra_cloud_instances_from_ray_nodes ray_nodes;
  _handle_extra_cloud_instances_from_cloud_provider cloud.

(** *** [_handle_stuck_instances] *)
Definition _handle_stuck_requested_instance (i : InstanceMsg) (timeout_s max_retry : Z) :
    M (option InstanceUpdateEvent) :=
  now ← read_clock;
  late ← lift (InstanceUtil.has_timeout now i timeout_s);
  if negb late then mret None
  else
    let attempts := Z.of_nat (length (InstanceUtil.get_status_transition_times_ns i (Some REQUESTED))) in
    mret (Some (update_event (instance_id i) (if max_retry <? attempts then ALLOCATION_FAILED else QUEUED) "" "" "")).

Definition _handle_stuck_instance (i : InstanceMsg) (timeout_s : Z) (s : InstanceStatus)
    (ty cloud node : string) : M (option InstanceUpdateEvent) :=
  now ← read_clock;
  late ← lift (InstanceUtil.has_timeout now i timeout_s);
  mret (if negb late then None else Some (update_event (instance_id i) s ty cloud node)).

(** The loop over the records of one status. *)
Definition stuck_loop (s : InstanceStatus) (f : InstanceMsg → M (option InstanceUpdateEvent))
    (instances : list InstanceMsg) (updates : updates_t) : M updates_t :=
  M_fold (λ d i,
    u ← f i;
    mret (match u with Some u => dset d (instance_id i) u | None => d end)) updates
    (filter (λ i, status i = s) instances).

(** Only the assertion and the reading of the clock matter. *)
Definition _warn_stuck_instances (s : InstanceStatus) (instances : list InstanceMsg) : M unit :=
  M_fold (λ _ i,
    _ ← lift (py_assert (1 <=? Z.of_nat (length (InstanceUtil.get_status_transition_times_ns i (Some s)))));
    _ ← read_clock; mret tt) tt (filter (λ i, status i = s) instances).

Definition _handle_stuck_instances (cfg : InstanceReconcileConfig) : M unit :=
  p ← _get_im_instances;
  let instances := p.1 in
  u ← stuck_loop REQUESTED (λ i, _handle_stuck_requested_instance i (request_status_timeout_s cfg)
         (max_num_retry_request_to_allocate cfg)) instances [];
  u ← stuck_loop ALLOCATED (λ i,
         _ ← lift (py_assert (truthy (cloud_instance_id i)));
         _handle_stuck_instance i (allocate_status_timeout_s cfg) ALLOCATION_TIMEOUT (instance_type i)
           (cloud_instance_id i) "") instances u;
  u ← stuck_loop RAY_INSTALLING (λ i,
         _handle_stuck_instance i (ray_install_status_timeout_s cfg) RAY_INSTALL_FAILED "" "" "") instances u;
  u ← stuck_loop TERMINATING (λ i,
         _handle_stuck_instance i (terminating_status_timeout_s cfg) TERMINATION_FAILED "" "" "") instances u;
  u ← stuck_loop RAY_STOP_REQUESTED (λ i,
         _handle_stuck_instance i (ray_stop_requested_status_timeout_s cfg) RAY_RUNNING "" "" (node_id i)) instances u;
  _ ← M_fold (λ _ s, _warn_stuck_instances s instances) tt
        [RAY_STOPPING; RAY_INSTALL_FAILED; RAY_STOPPED; TERMINATION_FAILED; QUEUED];
  _update_instance_manager p.2 u.

(** *** [_handle_instances_launch] *)
Definition _handle_instances_launch (cfg : AutoscalingConfig) : M unit :=
  p ← _get_im_instances;
  let queued := filter (λ i, status i = QUEUED) p.1 in
  match queued with
  | [] => mret tt
  | _ =>
      to_launch ← lift (_compute_to_launch queued (filter (λ i, status i = REQUESTED) p.1)
        (filter (λ i, status i = RAY_RUNNING) p.1) (upscaling_speed cfg) (max_concurrent_launches cfg));
      fresh ← new_id;
      _update_instance_manager p.2 (launch_updates fresh to_launch)
  end.

(** *** [_scale_cluster] *)
Definition _is_head_node_running : M bool :=
  p ← _get_im_instances;
  mret (existsb (λ i, bool_decide (node_kind i = HEAD) && bool_decide (status i = RAY_RUNNING)) p.1).

Definition queue_new (d : updates_t) (to_launch : list (string * Z)) : M updates_t :=
  M_fold (λ d p, M_fold (λ d _, id ← new_id; mret (dset d id (queue_new_event id p.1))) d
    (seq 0 (Z.to_nat p.2))) d to_launch.

(** The scheduler, any [IResourceScheduler], and the scores of the cloud
    resource monitor, which is told the updates. *)
Variable schedule : SchedulingRequest → result SchedulingReply.
Variable monitor : world → result (dict string float * dict string float).

(** The reply is returned for the autoscaling state. *)
Definition _scale_cluster (cfg : AutoscalingConfig) (ray : ClusterResourceState) (kuberay : ippr_state) :
    M SchedulingReply :=
  p ← _get_im_instances;
  scores ← (λ w, (monitor w, w));
  reply ← lift (schedule (scheduling_request cfg ray kuberay scores.1 scores.2 p.1));
  head_running ← _is_head_node_running;
  if negb head_running then mret reply
  else if bool_decide (provider cfg = Provider.READ_ONLY) then mret reply
  else
    u ← lift (terminate_requests_updates p.1 (to_terminate reply));
    u ← queue_new u (to_launch reply);
    _ ← (match kuberay with Some _ => do_ippr_requests (to_ippr reply) | None => mret tt end);
    _ ← _update_instance_manager p.2 u;
    mret reply.

(** *** One reconciliation *)
Definition _sync_from (ray_nodes : list RayNode) (cloud : dict string CloudInstance)
    (provider_errors : list CloudInstanceProviderError) (install_errors : list RayInstallError)
    (stop_errors : list RayStopError) (cfg : AutoscalingConfig) : M unit :=
  _ ← _handle_cloud_instance_allocation cloud provider_errors;
  _ ← _handle_cloud_instance_terminated cloud;
  _ ← _handle_cloud_instance_termination_errors provider_errors;
  _ ← _handle_extra_cloud_instances cloud ray_nodes;
  _ ← _handle_ray_status_transition ray_nodes cfg;
  _ ← _handle_ray_install_failed install_errors;
  _handle_ray_stop_failed stop_errors ray_nodes.

Definition _fill_autoscaling_state (cfg : AutoscalingConfig) (ray : ClusterResourceState)
    (reply : SchedulingReply) : M AutoscalingState :=
  p ← _get_im_instances;
  lift (fill (get_provider_instance_type cfg) p.1 p.2 (cluster_resource_state_version ray) reply).

Definition _step_next (ray : ClusterResourceState) (cloud : dict string CloudInstance) (kuberay : ippr_state)
    (cfg : AutoscalingConfig) : M AutoscalingState :=
  _ ← _handle_missing_ray_nodes (node_states ray);
  _ ← _handle_stuck_instances (reconcile_config cfg);
  reply ← _scale_cluster cfg ray kuberay;
  _ ← _handle_instances_launch cfg;
  _ ← _terminate_instances;
  _ ← (if disable_node_updaters cfg then mret tt else _install_ray cloud);
  _fill_autoscaling_state cfg ray reply.

(** [reconcile], less the reporting of metrics. *)
Definition reconcile (ray : ClusterResourceState) (cloud : dict string CloudInstance) (kuberay : ippr_state)
    (cfg : AutoscalingConfig) (provider_errors : list CloudInstanceProviderError) (install_errors : list RayInstallError)
    (stop_errors : list RayStopError) : M AutoscalingState :=
  _ ← _sync_from (node_states ray) cloud provider_errors install_errors stop_errors cfg;
  _step_next ray cloud kuberay cfg.
End reconciler.
End Reconciler.
