(* ===== verification/ReconcilerFacts.v ===== *)
(** * The reconciler: what a record satisfies, and what a request does

    [row_ok] types a record by its status; [event_ok] is what makes an update
    acceptable; [request_fine] says that a request of acceptable updates is
    applied and keeps the invariant. *)
From S2P Require Import Prelude PyDict PyFloat InstanceUtil InstanceUtilFacts Storage StorageFacts.
From S2P Require Import InstanceManager InstanceManagerFacts SchedNode Scheduler Reconciler.
Import Reconciler.

(** ** Records *)

(** How often an instance was requested from the cloud provider. *)
Definition attempts (i : InstanceMsg) : Z :=
  Z.of_nat (length (InstanceUtil.get_status_transition_times_ns i (Some REQUESTED))).

(** What a record of each status holds; [max] is the number of retries of a
    launch. *)
Definition row_ok (max : Z) (i : InstanceMsg) : Prop :=
  let cloud := cloud_instance_id i ≠ "" in
  let unallocated := cloud_instance_id i = "" ∧ node_id i = "" in
  match status i with
  | UNKNOWN => False
  | QUEUED => instance_type i ≠ "" ∧ unallocated ∧ attempts i ≤ max
  | REQUESTED => instance_type i ≠ "" ∧ launch_request_id i ≠ "" ∧ unallocated ∧ attempts i ≤ max + 1
  | ALLOCATION_FAILED => unallocated ∧ attempts i ≤ max + 1
  | TERMINATED => attempts i ≤ max + 1
  | RAY_RUNNING | RAY_STOP_REQUESTED => cloud ∧ node_id i ≠ "" ∧ attempts i ≤ max + 1
  | _ => cloud ∧ attempts i ≤ max + 1
  end.

(** What [_apply_update] asserts of an update to the status [s]. *)
Definition carries (u : InstanceUpdateEvent) : Prop :=
  match new_instance_status u with
  | ALLOCATED => upd_cloud_instance_id u ≠ "" ∧ upd_node_kind u ∈ [WORKER; HEAD] ∧ upd_instance_type u ≠ ""
  | RAY_RUNNING => upd_ray_node_id u ≠ ""
  | REQUESTED => upd_launch_request_id u ≠ "" ∧ upd_instance_type u ≠ ""
  | TERMINATING => upd_cloud_instance_id u ≠ ""
  | _ => True
  end.

(** An acceptable update of a record. *)
Definition update_ok (max : Z) (i : InstanceMsg) (u : InstanceUpdateEvent) : Prop :=
  upd_instance_id u = instance_id i ∧ new_instance_status u ∈ InstanceUtil.get_valid_transitions (status i) ∧
  carries u ∧ (new_instance_status u = QUEUED → attempts i ≤ max).

(** An acceptable creation. *)
Definition create_ok (u : InstanceUpdateEvent) : Prop :=
  upsert u = true ∧ carries u ∧
  (new_instance_status u = ALLOCATED ∨ new_instance_status u = QUEUED ∧ upd_instance_type u ≠ "").

Lemma truthy_ne (s : string) : truthy s = true ↔ s ≠ "".
Proof. unfold truthy, InstanceManager.truthy. apply bool_decide_eq_true. Qed.

(** An update that carries what its status needs is applied. *)
Lemma apply_ok i u : carries u → ∃ j, InstanceManager._apply_update i u = Ok j ∧
  status j = status i ∧ status_history j = status_history i ∧ instance_id j = instance_id i ∧
  match new_instance_status u with
  | ALLOCATED => cloud_instance_id j = upd_cloud_instance_id u ∧ node_id j = upd_ray_node_id u
  | RAY_RUNNING => cloud_instance_id j = cloud_instance_id i ∧ node_id j = upd_ray_node_id u
  | REQUESTED => instance_type j = upd_instance_type u ∧ launch_request_id j = upd_launch_request_id u ∧
      cloud_instance_id j = cloud_instance_id i ∧ node_id j = node_id i
  | _ => j = i
  end.
Proof.
  unfold carries, InstanceManager._apply_update.
  destruct (new_instance_status u); try (intros _; by exists i).
  - intros [H1 H2]. rewrite (proj2 (truthy_ne _) H1), (proj2 (truthy_ne _) H2). by eexists.
  - intros (H1 & H2 & H3). rewrite (proj2 (truthy_ne _) H1), (proj2 (truthy_ne _) H3).
    rewrite bool_decide_eq_true_2 by done. by eexists.
  - intros H1. rewrite (proj2 (truthy_ne _) H1). by eexists.
  - intros H1. rewrite (proj2 (truthy_ne _) H1). by eexists.
Qed.

Lemma attempts_snoc s t d (i j : InstanceMsg) :
  status_history j = status_history i ++ [{| instance_status := s; timestamp_ns := t; details := d |}] →
  attempts j = attempts i + (if bool_decide (s = REQUESTED) then 1 else 0).
Proof.
  intros Hj. unfold attempts, InstanceUtil.get_status_transition_times_ns, InstanceUtil.get_status_transitions.
  rewrite Hj, filter_app, map_app, length_app. simpl. rewrite filter_cons, filter_nil. simpl.
  rewrite (bool_decide_decide (s = REQUESTED)). destruct (decide (s = REQUESTED)); simpl; lia.
Qed.

Lemma update_row max now i u : row_ok max i → update_ok max i u →
  ∃ j, apply_event now (Some i) u = Ok j ∧ row_ok max j.
Proof.
  intros Hi (_ & Ht & Hc & Hq). simpl. unfold InstanceManager._update_instance, InstanceUtil.set_status.
  rewrite bool_decide_eq_true_2 by done. cbn [or_raise mbind result_bind].
  set (k := InstanceUtil._record_status_transition _ _ _ _).
  destruct (apply_ok k u Hc) as (j & -> & Hs & Hh & _ & Hf). exists j. split; [done|].
  pose proof (attempts_snoc (new_instance_status u) now "" i j Hh) as Ha.
  change (status j = new_instance_status u) in Hs. unfold row_ok in Hi |- *. rewrite Hs, Ha.
  assert (cloud_instance_id k = cloud_instance_id i ∧ node_id k = node_id i ∧ instance_type k = instance_type i ∧
    launch_request_id k = launch_request_id i) as (Hk1 & Hk2 & Hk3 & Hk4) by done.
  clearbody k. clear Hs Hh Ha. unfold carries in Hc.
  destruct (status i); simpl in Ht; set_unfold in Ht; destruct_or?; try done;
    (match goal with E : new_instance_status u = _ |- _ => rewrite E in * end);
    try (specialize (Hq eq_refl)); simpl in *; try subst j;
    repeat match goal with H : _ ∧ _ |- _ => destruct H end; split_and?; (congruence || lia).
Qed.

Lemma create_row max now u : 0 ≤ max → create_ok u →
  ∃ j, apply_event now None u = Ok j ∧ row_ok max j.
Proof.
  intros Hm (Hu & Hc & Hs). simpl. unfold InstanceManager._create_instance. rewrite Hu.
  cbn [py_assert mbind result_bind]. rewrite bool_decide_eq_true_2 by (destruct Hs as [->|[-> _]]; set_solver).
  cbn [py_assert mbind result_bind]. set (k := InstanceUtil.new_instance _ _ _ _ _).
  destruct (apply_ok k u Hc) as (j & -> & Hst & Hh & _ & Hf). exists j. split; [done|].
  change (status k) with (new_instance_status u) in Hst.
  assert (attempts j = attempts k) as Ha by (unfold attempts, InstanceUtil.get_status_transition_times_ns,
    InstanceUtil.get_status_transitions; by rewrite Hh).
  assert (attempts k = 0) as Hz.
  { unfold attempts, k. unfold InstanceUtil.get_status_transition_times_ns. simpl. by destruct Hs as [->|[-> _]]. }
  unfold row_ok. rewrite Hst, Ha, Hz. unfold carries in Hc. clear Ha Hz.
  destruct Hs as [E|[E Ht]]; rewrite E in Hc, Hf |- *.
  - destruct Hf as [-> _]. split; [apply Hc|lia].
  - subst j. split; [exact Ht|]. by split.
Qed.

(** What an update that was applied carried. *)
Lemma applied_carries i u j : InstanceManager._apply_update i u = Ok j → carries u.
Proof.
  unfold InstanceManager._apply_update, carries. destruct (new_instance_status u); intros H; try done; inv_ok;
    repeat match goal with
    | H : truthy _ = true |- _ => apply truthy_ne in H
    | H : bool_decide _ = true |- _ => apply bool_decide_eq_true in H
    end; done.
Qed.

Lemma updated_row max now i u j : row_ok max i → (new_instance_status u = QUEUED → attempts i ≤ max) →
  apply_event now (Some i) u = Ok j → row_ok max j.
Proof.
  intros Hi Hq Hj. destruct (apply_event_status _ _ _ _ Hj) as (_ & _ & Ht).
  destruct (update_row max now i {| upd_instance_id := instance_id i; new_instance_status := new_instance_status u;
      upd_details := upd_details u; upsert := upsert u; upd_instance_type := upd_instance_type u;
      upd_cloud_instance_id := upd_cloud_instance_id u; upd_node_kind := upd_node_kind u;
      upd_ray_node_id := upd_ray_node_id u; upd_launch_request_id := upd_launch_request_id u;
      upd_termination_request := upd_termination_request u |} Hi) as (j' & Hj' & Hok).
  - split; [done|]. split; [exact Ht|]. split; [|exact Hq]. simpl in Hj. unfold InstanceManager._update_instance in Hj.
    inv_ok. apply applied_carries in Hj. exact Hj.
  - change (apply_event now (Some i) u = Ok j') in Hj'. congruence.
Qed.

Lemma created_row max now u j : 0 ≤ max →
  (upsert u = true → new_instance_status u = ALLOCATED ∨ new_instance_status u = QUEUED ∧ upd_instance_type u ≠ "") →
  apply_event now None u = Ok j → row_ok max j.
Proof.
  intros Hm Hs Hj. destruct (apply_event_status _ _ _ _ Hj) as (_ & _ & Hu & _).
  destruct (create_row max now u Hm) as (j' & Hj' & Hok); [|congruence].
  split; [done|]. split; [|by apply Hs]. simpl in Hj. unfold InstanceManager._create_instance in Hj. inv_ok.
  by eapply applied_carries.
Qed.

Lemma row_ok_version max v i : row_ok max (InstanceUtil.set_version v i) = row_ok max i.
Proof. done. Qed.

(** ** Requests *)
Section world.
Context {St V Sub : Type} `{!Storage St V, !InstanceCodec V}.
Context `{!StorageLaws (St:=St) (V:=V), !InstanceCodecLaws V}.
Variables (im : InstanceManager.t Sub) (clock : nat → Z) (random_id : nat → string) (max : Z).
Context `{!Inj eq eq random_id}.
Implicit Types (w : world (St:=St) (Sub:=Sub)) (i : InstanceMsg) (id : string) (ups : updates_t).

(** The record of an id. *)
Definition row w id : option InstanceMsg := view (table_name im) (w_storage w) id.

(** The ids drawn from now on are new. *)
Definition fresh w : Prop := ∀ n, (w_ids w ≤ n)%nat → random_id n ≠ "" ∧ row w (random_id n) = None.

Record inv w : Prop := {
  inv_manager : manager_inv im (w_storage w);
  inv_rows id i : row w id = Some i → row_ok max i ∧ id ≠ "";
  inv_fresh : fresh w
}.

(** The records a handler reads. *)
Definition rows w : list InstanceMsg := (InstanceManager.get_instance_manager_state im (w_storage w)).1.

Lemma rows_spec w i : inv w → i ∈ rows w ↔ row w (instance_id i) = Some i.
Proof.
  intros [Hm _ _]. unfold rows, InstanceManager.get_instance_manager_state, row.
  destruct (get_instances_view (InstanceManager._instance_storage im) [] (w_storage w) (proj1 Hm))
    as (_ & Hwf & Hget).
  destruct (InstanceStorage.get_instances _ _ _ _) as [d v]. cbn [fst snd] in Hwf, Hget |- *.
  setoid_rewrite decide_True in Hget; [|by left..]. split.
  - intros ([id j] & Hj & Hin)%list_elem_of_fmap. simpl in Hj. subst j.
    apply dget_wf_elem in Hin; [|done]. rewrite Hget in Hin. destruct (proj2 Hm id i Hin) as (-> & _). exact Hin.
  - intros Hr. unfold table_name in Hr. rewrite <-(Hget (instance_id i)) in Hr. apply dget_elem in Hr.
    by apply (list_elem_of_fmap_2 snd) in Hr.
Qed.

Lemma rows_version w : inv w →
  InstanceManager.get_instance_manager_state im (w_storage w) = (rows w, storage_get_version (w_storage w)).
Proof.
  intros [Hm _ _]. unfold rows, InstanceManager.get_instance_manager_state.
  destruct (get_instances_view (InstanceManager._instance_storage im) [] (w_storage w) (proj1 Hm)) as (Hv & _ & _).
  destruct (InstanceStorage.get_instances _ _ _ _) as [d v]. simpl in Hv. by subst.
Qed.

Lemma rows_NoDup w : inv w → NoDup (map instance_id (rows w)).
Proof.
  intros [Hm _ _]. unfold rows, InstanceManager.get_instance_manager_state.
  destruct (get_instances_view (InstanceManager._instance_storage im) [] (w_storage w) (proj1 Hm))
    as (_ & Hwf & Hget).
  destruct (InstanceStorage.get_instances _ _ _ _) as [d v]. cbn [fst snd] in Hwf, Hget |- *.
  setoid_rewrite decide_True in Hget; [|by left..].
  assert (map instance_id d.*2 = d.*1) as ->; [|exact Hwf].
  change (map instance_id d.*2) with (instance_id <$> d.*2). rewrite <-list_fmap_compose.
  apply list_fmap_ext. intros n [id i] Hn. simpl. apply list_elem_of_lookup_2 in Hn.
  apply dget_wf_elem in Hn; [|done]. rewrite Hget in Hn. by destruct (proj2 Hm id i Hn) as (-> & _).
Qed.

(** What an accepted request does to the record of [id]: the update [u] of the
    request, or nothing. *)
Definition moved w w' ups id : Prop :=
  (∃ u n v j, u ∈ ups.*2 ∧ upd_instance_id u = id ∧ apply_event (clock n) (row w id) u = Ok j ∧
     row w' id = Some (InstanceUtil.set_version v j)) ∨
  ((∀ u, u ∈ ups.*2 → upd_instance_id u ≠ id) ∧ row w' id = row w id).

(** The updates [ups] are acceptable in [w]. *)
Definition request_ok w ups : Prop :=
  ∀ u, u ∈ ups.*2 →
    (∃ i, i ∈ rows w ∧ update_ok max i u) ∨
    (create_ok u ∧ row w (upd_instance_id u) = None ∧
       ∃ n, (n < w_ids w)%nat ∧ upd_instance_id u = random_id n ∧ random_id n ≠ "").

(** Requests that keep the invariant if they are applied: they queue a record
    again only if it may be requested once more, and create only fresh ids. *)
Definition sane w ups : Prop :=
  ∀ u, u ∈ ups.*2 →
    match row w (upd_instance_id u) with
    | Some i => new_instance_status u = QUEUED → attempts i ≤ max
    | None => upsert u = true →
        (new_instance_status u = ALLOCATED ∨ new_instance_status u = QUEUED ∧ upd_instance_type u ≠ "") ∧
        ∃ n, (n < w_ids w)%nat ∧ upd_instance_id u = random_id n ∧ random_id n ≠ ""
    end.

Lemma request_sane w ups : inv w → request_ok w ups → sane w ups.
Proof.
  intros Hw Hr u Hu. destruct (Hr u Hu) as [(i & Hi & Hid & _ & _ & Hq)|((_ & _ & Hc) & Hn & Hd)].
  - apply rows_spec in Hi; [|done]. by rewrite Hid, Hi.
  - by rewrite Hn.
Qed.

(** The world after an applied request. *)
Lemma applied_inv w w1 ups : inv w → 0 ≤ max → sane w ups → manager_inv im (w_storage w1) →
  w_ids w1 = w_ids w → (∀ id, moved w w1 ups id) → inv w1.
Proof.
  intros Hw Hm Hs Hman Hids Hmoved. split; [done| |].
  - intros id j Hj. destruct (Hmoved id) as [(u & n & v & k & Hu & Hid & Hk & Hrow)|[_ Hrow]].
    + rewrite Hrow in Hj. injection Hj as <-. specialize (Hs u Hu). rewrite Hid in Hs.
      destruct (row w id) as [i|] eqn:Hi.
      * destruct (inv_rows w Hw _ _ Hi) as [Hok Hne]. split; [|done]. rewrite row_ok_version. by eapply updated_row.
      * destruct (apply_event_status _ _ _ _ Hk) as (_ & _ & Hup & _).
        destruct (Hs Hup) as (Hc & k' & _ & Hidk & Hne). split; [|by rewrite Hidk]. rewrite row_ok_version. by eapply created_row.
    + rewrite Hrow in Hj. by apply (inv_rows w Hw).
  - intros n Hn. rewrite Hids in Hn. destruct (inv_fresh w Hw n Hn) as [Hne Hfr]. split; [done|].
    destruct (Hmoved (random_id n)) as [(u & m & _ & j & Hu & Hid & Hj & _)|[_ Hrow]]; [|by rewrite Hrow].
    specialize (Hs u Hu). rewrite Hid, Hfr in *. destruct (apply_event_status _ _ _ _ Hj) as (_ & _ & Hup & _).
    destruct (Hs Hup) as (_ & k & Hk & Hidk & _). apply (inj random_id) in Hidk. lia.
Qed.

Lemma request_event w ups u now : inv w → 0 ≤ max → request_ok w ups → u ∈ ups.*2 →
  upd_instance_id u ≠ "" ∧ ∃ j, apply_event now (row w (upd_instance_id u)) u = Ok j ∧ row_ok max j.
Proof.
  intros Hw Hm Hr Hu. destruct (Hr u Hu) as [(i & Hi & Hok)|(Hc & Hn & n & _ & Hid & Hne)].
  - apply rows_spec in Hi; [|done]. destruct (inv_rows w Hw _ _ Hi) as [Hrow Hne].
    destruct Hok as [Hid Hok]. rewrite Hid, Hi. split; [done|]. by apply update_row.
  - rewrite Hn, Hid. split; [done|]. by apply create_row.
Qed.

Lemma effective_in v ups id u : effective {| expected_version := v; updates := ups.*2 |} id = Some u →
  u ∈ ups.*2 ∧ upd_instance_id u = id.
Proof.
  unfold effective. intros H. apply dget_elem in H. rewrite elem_of_reverse in H.
  apply list_elem_of_fmap in H as (u' & [= -> ->] & Hin). done.
Qed.

Lemma effective_none v ups id u : effective {| expected_version := v; updates := ups.*2 |} id = None →
  u ∈ ups.*2 → upd_instance_id u ≠ id.
Proof.
  unfold effective. intros Hn Hu <-. apply dget_None in Hn. apply Hn.
  rewrite fmap_reverse. apply elem_of_reverse, list_elem_of_fmap. exists (upd_instance_id u, u). split; [done|].
  apply list_elem_of_fmap. by exists u.
Qed.

(** A request is applied, or it raises and the records are as before. *)
Lemma update_cases v w ups : inv w →
  let res := _update_instance_manager im clock v ups w in
  w_ids res.2 = w_ids w ∧
  ((res.1 = Ok tt ∧ manager_inv im (w_storage res.2) ∧ ∀ id, moved w res.2 ups id) ∨
   ((∃ e, res.1 = Raise e) ∧ w_storage res.2 = w_storage w ∧
    (v = storage_get_version (w_storage w) → ∃ u n e, u ∈ ups.*2 ∧
       apply_event (clock n) (row w (upd_instance_id u)) u = Raise e))).
Proof.
  intros Hw res. destruct (decide (ups = [])) as [->|Hne].
  { split; [done|]. left. split; [done|]. split; [apply Hw|]. intros id. right. split; [|done].
    by intros u ?%elem_of_nil. }
  assert (res = let '(reply, st, notified) := InstanceManager.update_instance_manager_state im (λ k, clock (w_tick w + k)%nat)
        {| expected_version := v; updates := ups.*2 |} (w_storage w) in
    let w := {| w_storage := st; w_tick := w_tick w + length ups; w_ids := w_ids w;
                w_notified := w_notified w ++ notified; w_ippr := w_ippr w |} in
    match reply with
    | Raise e => (Raise e, w)
    | Ok r => (py_assert (match reply_code r with OK => true | _ => false end), w)
    end) as -> by by destruct ups.
  destruct (update_outcome im (λ k, clock (w_tick w + k)%nat)
    {| expected_version := v; updates := ups.*2 |} (w_storage w) (inv_manager w Hw)) as [Hst Hout].
  pose proof (outcome_inv _ _ _ _ _ (inv_manager w Hw) Hst Hout) as Hinv.
  destruct (InstanceManager.update_instance_manager_state _ _ _ _) as [[reply st] notified]. simpl in Hst, Hinv.
  destruct Hout as [(st' & [= -> -> ->] & _ & Hview)|[([= -> -> ->] & _ & Hv)|(e & id & u & n & [= -> -> ->] & Heff & He)]].
  - split; [done|]. left. split; [done|]. split; [done|]. intros id. specialize (Hview id).
    destruct (effective _ id) as [u|] eqn:Heff.
    + apply effective_in in Heff as [Hu Hid]. destruct Hview as (n & j & Hj & Hrow).
      left. by exists u, (w_tick w + n)%nat, (storage_get_version (w_storage w) + 1), j.
    + right. split; [|exact Hview]. intros u. by apply (effective_none v).
  - split; [done|]. right. split; [by eexists|]. split; [done|]. intros ->. by destruct Hv.
  - split; [done|]. right. split; [by eexists|]. split; [done|]. intros _.
    apply effective_in in Heff as [Hu <-]. by exists u, (w_tick w + n)%nat, e.
Qed.

(** A sane request keeps the invariant. *)
Lemma update_keeps v w ups : inv w → 0 ≤ max → sane w ups →
  inv (_update_instance_manager im clock v ups w).2.
Proof.
  intros Hw Hm Hs. destruct (update_cases v w ups Hw) as (Hids & [(_ & Hman & Hmoved)|(_ & Hst & _)]).
  - by eapply applied_inv.
  - destruct Hw as [H1 H2 H3]. split; unfold row, fresh, row; by rewrite ?Hst, ?Hids.
Qed.

(** A request of acceptable updates is applied. *)
Lemma request_fine w ups : inv w → 0 ≤ max → request_ok w ups →
  ∃ w', _update_instance_manager im clock (storage_get_version (w_storage w)) ups w = (Ok tt, w') ∧
    inv w' ∧ w_ids w' = w_ids w ∧ ∀ id, moved w w' ups id.
Proof.
  intros Hw Hm Hr. pose proof (request_sane w ups Hw Hr) as Hs.
  pose proof (update_keeps (storage_get_version (w_storage w)) w ups Hw Hm Hs) as Hinv.
  destruct (update_cases (storage_get_version (w_storage w)) w ups Hw) as (Hids & [(Hok & _ & Hmoved)|(_ & _ & Hbad)]).
  - destruct (_update_instance_manager _ _ _ _ w) as [r w']. simpl in *. subst r. by exists w'.
  - destruct (Hbad eq_refl) as (u & n & e & Hu & He).
    destruct (request_event w ups u (clock n) Hw Hm Hr Hu) as (_ & j & Hj & _). congruence.
Qed.

(** A handler whose updates depend on the records only. *)
Lemma handle_fine f w ups : inv w → 0 ≤ max → f (rows w) = Ok ups →
  (∀ u, u ∈ ups.*2 → ∃ i, i ∈ rows w ∧ update_ok max i u) →
  ∃ w', handle im clock f w = (Ok tt, w') ∧ inv w' ∧ w_ids w' = w_ids w ∧ ∀ id, moved w w' ups id.
Proof.
  intros Hw Hm Hf Hu. destruct (request_fine w ups Hw Hm) as (w' & Hw' & Hrest).
  { intros u H. left. by apply Hu. }
  exists w'. split; [|done]. unfold handle, _get_im_instances. unfold mbind, M_bind.
  rewrite (rows_version w Hw). unfold lift. cbn [fst snd]. by rewrite Hf.
Qed.

Lemma rows_ok w i : inv w → i ∈ rows w → row_ok max i ∧ instance_id i ≠ "".
Proof. intros Hw Hi. apply rows_spec in Hi; [|done]. by apply (inv_rows w Hw). Qed.

(** The record after a request: unchanged, or updated or created with the
    status of an update. *)
Lemma moved_row w w' ups id j : inv w → moved w w' ups id → row w' id = Some j →
  row w id = Some j ∨ ∃ u, u ∈ ups.*2 ∧ upd_instance_id u = id ∧ status j = new_instance_status u.
Proof.
  intros Hw [(u & n & v & k & Hu & Hid & Hk & Hrow)|[_ Hrow]] Hj.
  - rewrite Hrow in Hj. injection Hj as <-. right. exists u. split; [done|]. split; [done|].
    exact (proj1 (apply_event_status _ _ _ _ Hk)).
  - left. by rewrite <-Hrow.
Qed.
End world.
