(* ===== verification/ReconcilerUpdates.v ===== *)
(** * The reconciler: the updates each handler computes are acceptable *)
From S2P Require Import Prelude PyDict PyFloat InstanceUtil InstanceUtilFacts Storage StorageFacts.
From S2P Require Import InstanceManager InstanceManagerFacts SchedNode Scheduler Reconciler ReconcilerFacts.
Import Reconciler.

(** ** The values of a dictionary built by a loop *)
Definition values {A} (Q : A → Prop) (d : dict string A) : Prop := ∀ u, u ∈ d.*2 → Q u.

Lemma values_nil {A} (Q : A → Prop) : values Q [].
Proof. by intros u ?%elem_of_nil. Qed.

Lemma values_dset {A} (Q : A → Prop) d k u : values Q d → Q u → values Q (dset d k u).
Proof.
  intros Hd Hu. induction d as [|[j v] d IH]; simpl.
  { by intros w ->%list_elem_of_singleton. }
  assert (values Q d) as Hd' by (intros w Hw; apply Hd; by right).
  case_decide; intros w Hw; apply elem_of_cons in Hw as [->|Hw]; simpl in *.
  - done.
  - by apply Hd'.
  - apply Hd. left.
  - by apply IH.
Qed.

Lemma values_foldl {A B} (Q : A → Prop) (f : dict string A → B → dict string A) l d :
  (∀ d b, b ∈ l → values Q d → values Q (f d b)) → values Q d → values Q (foldl f d l).
Proof.
  revert d. induction l as [|b l IH]; intros d Hf Hd; [done|]. simpl. apply IH.
  - intros d' b' Hb. apply Hf. by right.
  - apply Hf; [left|done].
Qed.

Lemma values_result_fold {A B} (Q : A → Prop) (f : dict string A → B → result (dict string A)) l d :
  (∀ d b, b ∈ l → values Q d → ∃ d', f d b = Ok d' ∧ values Q d') → values Q d →
  ∃ d', result_fold f d l = Ok d' ∧ values Q d'.
Proof.
  revert d. induction l as [|b l IH]; intros d Hf Hd; [by exists d|]. cbn [result_fold].
  destruct (Hf d b) as (d' & -> & Hd'); [left|done|]. cbn [mbind result_bind].
  apply IH; [|done]. intros d0 b0 Hb. apply Hf. by right.
Qed.

Lemma is_truthy s : Is_true (truthy s) ↔ s ≠ "".
Proof. rewrite Is_true_true. apply truthy_ne. Qed.

(** An element of a dictionary of filtered records. *)
Lemma dict_filter_elem {K} `{EqDecision K} (key : InstanceMsg → K) (P : InstanceMsg → Prop) `{!∀ i, Decision (P i)}
    (l : list InstanceMsg) k i :
  (k, i) ∈ dict_of (map (λ i, (key i, i)) (filter P l)) → k = key i ∧ P i ∧ i ∈ l.
Proof.
  intros Hk%dict_of_elem. apply list_elem_of_fmap in Hk as (j & [= -> ->] & Hj).
  by apply list_elem_of_filter in Hj.
Qed.

(** ** Grouping by a key, as a [defaultdict(list)] *)
Section group.
Context {A : Type} (key : A → string).

Definition group_of (l : list A) : dict string (list A) :=
  foldl (λ d a, dset d (key a) (default [] (dget d (key a)) ++ [a])) [] l.

(** Each group is the elements of its key, in order. *)
Lemma group_of_spec l : dwf (group_of l) ∧
  (∀ k, default [] (dget (group_of l) k) = filter (λ a, key a = k) l) ∧
  ∀ k, k ∈ (group_of l).*1 ↔ k ∈ map key l.
Proof.
  unfold group_of. induction l as [|a l IH] using rev_ind.
  { split; [apply NoDup_nil_2|]. split; [done|]. intros k. done. }
  destruct IH as (Hw & Hg & Hk). rewrite foldl_snoc. cbn [foldl]. set (d := foldl _ [] l) in *.
  split; [by apply dset_wf|]. split; intros k.
  - rewrite dget_dset, filter_app, filter_cons, filter_nil, Hg.
    destruct (decide (k = key a)) as [->|Hne].
    + rewrite decide_True by done. done.
    + rewrite decide_False by congruence. by rewrite app_nil_r, Hg.
  - rewrite dset_keys_elem, map_app, elem_of_app, Hk. simpl. rewrite list_elem_of_singleton. tauto.
Qed.

Lemma group_of_elem l k la : (k, la) ∈ group_of l → la = filter (λ a, key a = k) l ∧ la ≠ [].
Proof.
  intros Hin. destruct (group_of_spec l) as (Hw & Hg & Hk).
  assert (dget (group_of l) k = Some la) as E by by apply dget_wf_elem.
  specialize (Hg k). rewrite E in Hg. simpl in Hg. split; [done|]. intros ->.
  apply (list_elem_of_fmap_2 fst) in Hin. simpl in Hin. apply Hk, list_elem_of_fmap in Hin as (a & -> & Ha).
  assert (a ∈ filter (λ b, key b = key a) l) as Hf by by apply list_elem_of_filter.
  rewrite <-Hg in Hf. by apply elem_of_nil in Hf.
Qed.
End group.

Lemma reconciled_status r cur s : _reconciled_im_status_from_ray_status r cur = Ok s → s ≠ cur →
  s ∈ [RAY_RUNNING; RAY_STOPPED; RAY_STOPPING].
Proof.
  unfold _reconciled_im_status_from_ray_status. destruct r; cbn [mbind result_bind]; try done;
    destruct (_ || _); intros [= <-]; done || set_solver.
Qed.

(** Updates that carry nothing. *)
Lemma plain_update_ok max i s ty cloud node :
  s ∈ InstanceUtil.get_valid_transitions (status i) → s ∉ [ALLOCATED; RAY_RUNNING; REQUESTED; TERMINATING; QUEUED] →
  update_ok max i (update_event (instance_id i) s ty cloud node).
Proof.
  intros Ht Hs. split; [done|]. split; [done|]. split.
  - unfold carries. simpl. destruct s; try done; by destruct Hs; set_solver.
  - simpl. intros ->. destruct Hs. set_solver.
Qed.

Section updates.
Variables (max : Z) (l : list InstanceMsg).
Hypothesis (Hl : ∀ i, i ∈ l → row_ok max i).

(** An update of a record of [l], from one of [from] to one of [to]. *)
Definition moves (from to : list InstanceStatus) (u : InstanceUpdateEvent) : Prop :=
  ∃ i, i ∈ l ∧ update_ok max i u ∧ status i ∈ from ∧ new_instance_status u ∈ to.

Lemma terminated_updates_ok cloud : ∃ ups, terminated_updates cloud l = Ok ups ∧
  values (λ u, ∃ i, i ∈ l ∧ update_ok max i u ∧ new_instance_status u = TERMINATED ∧
    dmem cloud (cloud_instance_id i) = false) ups.
Proof.
  eexists. split; [done|]. apply values_foldl; [|apply values_nil].
  intros d [k i] Hi Hd. apply dict_filter_elem in Hi as (-> & [Hc Hs] & Hi). cbn [fst snd].
  destruct (dmem cloud (cloud_instance_id i)) eqn:E; [done|]. apply values_dset; [done|].
  exists i. split; [done|]. split; [|done]. apply plain_update_ok; [|set_solver].
  apply is_truthy in Hc. specialize (Hl i Hi). unfold row_ok in Hl.
  destruct (status i); try set_solver; tauto.
Qed.

Lemma termination_error_updates_ok errors : ∃ ups, termination_error_updates errors l = Ok ups ∧
  values (moves [TERMINATING] [TERMINATION_FAILED]) ups.
Proof.
  clear Hl. eexists. split; [done|]. apply values_foldl; [|apply values_nil]. intros d c _ Hd.
  destruct (dget _ c) as [i|] eqn:E; [|done]. apply dget_elem, dict_filter_elem in E as (-> & Hs & Hi).
  apply values_dset; [done|]. exists i. split; [done|]. split; [|split; set_solver].
  apply plain_update_ok; [rewrite Hs|]; set_solver.
Qed.

Lemma install_failed_updates_ok errors : ∃ ups, install_failed_updates errors l = Ok ups ∧
  values (moves [RAY_INSTALLING] [RAY_INSTALL_FAILED]) ups.
Proof.
  clear Hl. eexists. split; [done|]. apply values_foldl; [|apply values_nil].
  intros d [k i] Hi Hd. apply dict_filter_elem in Hi as (-> & Hs & Hi). cbn [fst snd].
  case_bool_decide; [|done]. apply values_dset; [done|]. exists i. split; [done|]. split; [|split; set_solver].
  apply plain_update_ok; [rewrite Hs|]; set_solver.
Qed.

Lemma missing_updates_ok ray_nodes : ∃ ups, missing_updates ray_nodes l = Ok ups ∧
  values (moves [RAY_RUNNING; RAY_STOP_REQUESTED; RAY_STOPPING] [RAY_STOPPED]) ups.
Proof.
  clear Hl. eexists. split; [done|]. apply values_foldl; [|apply values_nil].
  intros d i ([Hs _] & Hi)%list_elem_of_filter Hd.
  case_bool_decide; [done|]. apply values_dset; [done|]. exists i. split; [done|]. split; [|split; set_solver].
  apply plain_update_ok; [|set_solver]. destruct (status i); set_solver.
Qed.

Lemma terminate_updates_ok : ∃ ups, terminate_updates l = Ok ups ∧
  values (moves statuses_to_terminate [TERMINATED; TERMINATING]) ups.
Proof.
  eexists. split; [done|]. apply values_foldl; [|apply values_nil].
  intros d i Hi Hd. case_bool_decide as Hs; [done|].
  destruct (bool_decide (status i = RAY_STOPPED) && _) eqn:E; (apply values_dset; [done|]); exists i;
    (split; [done|]); (split; [|split; set_solver]).
  - apply plain_update_ok; [|set_solver]. unfold statuses_to_terminate in Hs. destruct (status i); set_solver.
  - specialize (Hl i Hi). unfold row_ok in Hl. unfold statuses_to_terminate in Hs.
    split; [done|]. simpl. split; [destruct (status i); set_solver|]. split; [|done].
    unfold carries. simpl. destruct (status i); set_solver.
Qed.

(** The Ray node of an id, the last one in the list. *)
Definition node_of (ray_nodes : list RayNode) (id : string) : option RayNode :=
  dget (dict_of (map (λ n, (hex_id n, n)) ray_nodes)) id.

Definition alive (n : RayNode) : Prop := rn_status n ∈ [NodeStatus.RUNNING; NodeStatus.IDLE].

Lemma stop_failed_updates_ok errors ray_nodes :
  (∀ i, i ∈ l → status i = RAY_STOP_REQUESTED → instance_id i ∈ map rse_im_instance_id errors →
     ∃ n, node_of ray_nodes (node_id i) = Some n ∧ alive n) →
  ∃ ups, stop_failed_updates errors ray_nodes l = Ok ups ∧
    values (moves [RAY_STOP_REQUESTED] [RAY_RUNNING]) ups.
Proof.
  intros Hn. apply values_result_fold; [|apply values_nil].
  intros d [k i] Hi Hd. apply dict_filter_elem in Hi as (-> & Hs & Hi). cbn [fst snd].
  case_bool_decide as He; [|by exists d].
  specialize (Hl i Hi). unfold row_ok in Hl. rewrite Hs in Hl. destruct Hl as (_ & Hne & _).
  rewrite (proj2 (truthy_ne _) Hne). destruct (Hn i Hi Hs He) as (n & Hnode & Ha).
  unfold node_of in Hnode. cbn [py_assert mbind result_bind]. rewrite Hnode, bool_decide_eq_true_2 by done.
  cbn [py_assert mbind result_bind]. eexists. split; [done|]. apply values_dset; [done|].
  exists i. split; [done|]. split; [|split; set_solver].
  split; [done|]. split; [simpl; rewrite Hs; set_solver|]. split; [done|]. done.
Qed.

(** A Ray node's status and a record's status that do not fit together. *)
Definition ray_conflict (r : NodeStatus.t) (cur : InstanceStatus) : Prop :=
  match _reconciled_im_status_from_ray_status r cur with
  | Ok s => s ≠ cur ∧ s ∉ InstanceUtil.get_valid_transitions cur
  | Raise _ => True
  end.

Definition by_cloud : dict string InstanceMsg :=
  dict_of (map (λ i, (cloud_instance_id i, i)) (filter holds_cloud l)).
Definition by_ray : dict string InstanceMsg :=
  dict_of (map (λ i, (node_id i, i)) (filter (λ i, truthy (node_id i)) l)).

Lemma instance_of_ray_node_in p n i : instance_of_ray_node p by_cloud by_ray n = Ok (Some i) → i ∈ l.
Proof.
  clear Hl. unfold instance_of_ray_node. destruct (dget by_ray (hex_id n)) as [j|] eqn:E.
  - intros [= ->]. apply dget_elem, dict_filter_elem in E. tauto.
  - destruct (bool_decide _).
    + destruct (dget by_cloud (hex_id n)) as [j|] eqn:E'; [|done]. intros [= ->].
      apply dget_elem, dict_filter_elem in E'. tauto.
    + destruct (truthy _); [|done]. destruct (dget by_cloud _) as [j|] eqn:E'; [|done]. intros [= ->].
      apply dget_elem, dict_filter_elem in E'. tauto.
Qed.

Lemma ray_status_updates_ok p ray_nodes :
  (∀ n, n ∈ ray_nodes → hex_id n ≠ "" ∧ ∃ o, instance_of_ray_node p by_cloud by_ray n = Ok o ∧
     ∀ i, o = Some i → ¬ ray_conflict (rn_status n) (status i)) →
  ∃ ups, ray_status_updates p ray_nodes l = Ok ups ∧
    values (λ u, ∃ i, i ∈ l ∧ update_ok max i u ∧
      new_instance_status u ∈ [RAY_RUNNING; RAY_STOPPED; RAY_STOPPING]) ups.
Proof.
  intros Hn. apply values_result_fold; [|apply values_nil]. intros d n Hin Hd.
  destruct (Hn n Hin) as (Hhex & o & Ho & Hc). unfold by_cloud, by_ray in Ho. rewrite Ho. cbn [mbind result_bind].
  destruct o as [i|]; [|by exists d]. specialize (Hc i eq_refl). unfold ray_conflict in Hc.
  destruct (_reconciled_im_status_from_ray_status _ _) as [s|] eqn:Hs; [|done].
  cbn [mbind result_bind]. eexists. split; [done|]. case_bool_decide as Hne; [done|]. apply values_dset; [done|].
  exists i. split; [by eapply instance_of_ray_node_in|]. pose proof (reconciled_status _ _ _ Hs Hne) as Hto.
  split; [|done]. split; [done|]. simpl.
  destruct (decide (s ∈ InstanceUtil.get_valid_transitions (status i))) as [Ht|Ht]; [|by destruct Hc].
  split; [done|]. split; [unfold carries; simpl; set_unfold in Hto; destruct_or?; by subst|].
  intros ->. set_solver.
Qed.

Lemma install_updates_ok cloud :
  (∀ i, i ∈ l → status i = ALLOCATED → node_kind i ≠ HEAD → dget cloud (cloud_instance_id i) ≠ None) →
  ∃ ups, install_updates cloud l = Ok ups ∧ values (moves [ALLOCATED] [RAY_INSTALLING]) ups.
Proof.
  clear Hl. intros Hc. apply values_result_fold; [|apply values_nil]. intros d i Hi Hd.
  case_bool_decide as Hs; [by exists d|].
  case_bool_decide as Hk; [by exists d|].
  destruct (dget cloud (cloud_instance_id i)) as [c|] eqn:E; [|by destruct (Hc i)].
  cbn [or_raise mbind result_bind]. eexists. split; [done|]. destruct (ci_is_running c); [|done].
  apply values_dset; [done|]. exists i. split; [done|]. split; [|split; set_solver].
  apply plain_update_ok; [rewrite Hs|]; set_solver.
Qed.
End updates.
