(* ===== verification/ReconcilerInv.v ===== *)
(** * The reconciler: what every reconciliation keeps, whatever it is told

    [wp] is the weakest precondition of a handler for the records' invariant:
    it holds afterwards in any case, [Q] of a result, and [E] of the world in
    which an exception escapes ([never] for a handler that does not raise). *)
From S2P Require Import Prelude PyDict PyFloat InstanceUtil InstanceUtilFacts Storage StorageFacts.
From S2P Require Import InstanceManager InstanceManagerFacts SchedNode Scheduler Reconciler ReconcilerFacts.
From S2P Require Import ReconcilerUpdates.
Import Reconciler.

(** ** Updates that never queue or create a record *)
Definition plain (u : InstanceUpdateEvent) : Prop := new_instance_status u ≠ QUEUED ∧ upsert u = false.

(** ... nor request an instance from the cloud. *)
Definition quiet (u : InstanceUpdateEvent) : Prop := plain u ∧ new_instance_status u ≠ REQUESTED.

Lemma quiet_plain d : values quiet d → values plain d.
Proof. intros Hd u Hu. by apply Hd. Qed.

(** Closes [values quiet d] for a loop whose body sets such updates. *)
Ltac plain_body :=
  repeat first
    [ done
    | apply values_dset
    | match goal with |- values _ (if ?b then _ else _) => destruct b end
    | match goal with |- values _ (match ?o with Some _ => _ | None => _ end) => destruct o end ].

Lemma values_fold_inv {A B} (Q : A → Prop) (f : dict string A → B → result (dict string A)) l d d' :
  (∀ d b d', values Q d → f d b = Ok d' → values Q d') → values Q d → result_fold f d l = Ok d' → values Q d'.
Proof. intros Hf. apply result_fold_inv. intros ? ? ? _. apply Hf. Qed.

Lemma allocation_loop_quiet errors un ups l : values quiet ups → values quiet (allocation_loop errors un ups l).
Proof.
  revert un ups. induction l as [|i l IH]; intros un ups Hu; [done|]. cbn [allocation_loop].
  destruct (_try_resolve_pending_allocation i un errors) as [u un'] eqn:E. apply IH.
  destruct u as [u|]; [|done]. apply values_dset; [done|]. unfold _try_resolve_pending_allocation in E.
  destruct (last _); [by injection E as <- _|]. destruct (dget errors _); [|done].
  destruct (bool_decide _); [by injection E as <- _|done].
Qed.

Lemma allocation_quiet cloud errors l ups : allocation_updates cloud errors l = Ok ups → values quiet ups.
Proof. unfold allocation_updates. intros H. inv_ok. apply allocation_loop_quiet, values_nil. Qed.

Lemma terminated_quiet cloud l ups : terminated_updates cloud l = Ok ups → values quiet ups.
Proof. intros [= <-]. apply values_foldl; [|apply values_nil]. intros. plain_body. Qed.

Lemma termination_error_quiet errors l ups : termination_error_updates errors l = Ok ups → values quiet ups.
Proof. intros [= <-]. apply values_foldl; [|apply values_nil]. intros. plain_body. Qed.

Lemma install_failed_quiet errors l ups : install_failed_updates errors l = Ok ups → values quiet ups.
Proof. intros [= <-]. apply values_foldl; [|apply values_nil]. intros. plain_body. Qed.

Lemma missing_quiet ray_nodes l ups : missing_updates ray_nodes l = Ok ups → values quiet ups.
Proof. intros [= <-]. apply values_foldl; [|apply values_nil]. intros. plain_body. Qed.

Lemma terminate_quiet l ups : terminate_updates l = Ok ups → values quiet ups.
Proof. intros [= <-]. apply values_foldl; [|apply values_nil]. intros. plain_body. Qed.

Lemma stop_failed_quiet errors ray_nodes l ups : stop_failed_updates errors ray_nodes l = Ok ups → values quiet ups.
Proof.
  apply values_fold_inv; [|apply values_nil]. intros d b d' Hd H.
  destruct (bool_decide _); [|by inv_ok]. inv_ok. plain_body.
Qed.

Lemma install_quiet cloud l ups : install_updates cloud l = Ok ups → values quiet ups.
Proof.
  apply values_fold_inv; [|apply values_nil]. intros d b d' Hd H.
  repeat (destruct (bool_decide _); [by inv_ok|]). inv_ok. plain_body.
Qed.

Lemma ray_status_quiet p ray_nodes l ups : ray_status_updates p ray_nodes l = Ok ups → values quiet ups.
Proof.
  apply values_fold_inv; [|apply values_nil]. intros d n d' Hd H. inv_ok.
  destruct r as [i|]; [|by inv_ok]. inv_ok. case_bool_decide as Hs; [done|]. apply values_dset; [done|].
  pose proof (reconciled_status _ _ _ Hr0 Hs) as Hto.
  split; [split; [|done]|]; cbn [new_instance_status update_event]; intros E; rewrite E in Hto; set_solver.
Qed.

Lemma launch_plain fresh d : values plain (launch_updates fresh d).
Proof.
  apply values_foldl; [|apply values_nil]. intros d' p _ Hd. apply values_foldl; [|done].
  intros. plain_body.
Qed.

Lemma terminate_requests_quiet l rs ups : terminate_requests_updates l rs = Ok ups → values quiet ups.
Proof.
  apply values_fold_inv; [|apply values_nil]. intros d r d' Hd H. inv_ok. apply values_dset; [done|].
  unfold terminate_event in Hr. destruct (default UNKNOWN _); inv_ok; done.
Qed.

(** ** Handlers *)
Section world.
Context {St V Sub : Type} `{!Storage St V, !InstanceCodec V}.
Context `{!StorageLaws (St:=St) (V:=V), !InstanceCodecLaws V}.
Variables (im : InstanceManager.t Sub) (clock : nat → Z) (random_id : nat → string) (max : Z).
Context `{!Inj eq eq random_id}.
Hypothesis (Hmax : 0 ≤ max).
Implicit Types (w : world (St:=St) (Sub:=Sub)) (i : InstanceMsg) (id : string) (ups : updates_t).

Abbreviation inv := (inv im random_id max).
Abbreviation row := (row im).
Abbreviation rows := (rows im).
Abbreviation M := (M (St:=St) (Sub:=Sub)).
Abbreviation world := (world (St:=St) (Sub:=Sub)).
Implicit Types (E : world → Prop).

Definition never : world → Prop := λ _, False.
Definition always : world → Prop := λ _, True.

Definition wp {A} E (m : M A) w (Q : A → world → Prop) : Prop :=
  inv (m w).2 ∧ match (m w).1 with Ok a => Q a (m w).2 | Raise _ => E (m w).2 end.

Lemma wp_ret {A} E (a : A) w (Q : A → world → Prop) : inv w → Q a w → wp E (mret a) w Q.
Proof. done. Qed.

Lemma wp_bind {A B} E (m : M A) (f : A → M B) w (Q : A → world → Prop) (R : B → world → Prop) :
  wp E m w Q → (∀ a w', inv w' → Q a w' → wp E (f a) w' R) → wp E (m ≫= f) w R.
Proof.
  unfold wp. intros [Hi Hq] Hf. unfold mbind, M_bind. destruct (m w) as [[a|e] w']; simpl in *; [by apply Hf|done].
Qed.

Lemma wp_mono {A} E E' (m : M A) w (Q R : A → world → Prop) :
  wp E m w Q → (∀ w', E w' → E' w') → (∀ a w', inv w' → Q a w' → R a w') → wp E' m w R.
Proof. unfold wp. intros [Hi Hq] HE HQ. split; [done|]. destruct (m w).1; auto. Qed.

Lemma wp_lift {A} E (r : result A) w (Q : A → world → Prop) :
  inv w → (∀ a, r = Ok a → Q a w) → (∀ e, r = Raise e → E w) → wp E (lift r) w Q.
Proof. intros Hw HQ HE. split; [done|]. unfold lift. simpl. destruct r; [by apply HQ|by eapply HE]. Qed.

(** A loop, its invariant also about the elements done so far. *)
Lemma wp_fold_prefix {A B} E (I : list A → B → world → Prop) (f : B → A → M B) b l w :
  inv w → I [] b w →
  (∀ done b a w, a ∈ l → inv w → I done b w → wp E (f b a) w (I (done ++ [a]))) → wp E (M_fold f b l) w (I l).
Proof.
  intros Hw Hb Hf. assert (∀ l' pre b w, pre ++ l' = l → inv w → I pre b w → wp E (M_fold f b l') w (I l)) as H.
  { induction l' as [|a l' IH]; intros pre b' w' Hl Hw' Hb'; cbn [M_fold].
    - apply wp_ret; [done|]. by rewrite <-Hl, app_nil_r.
    - eapply wp_bind; [apply (Hf pre); [|done|done]|].
      + rewrite <-Hl. apply elem_of_app. right. left.
      + intros b2 w2 Hw2 Hb2. apply (IH (pre ++ [a])); [|done|done]. by rewrite <-app_assoc. }
  by apply (H l [] b w).
Qed.

Lemma wp_fold {A B} E (I : B → world → Prop) (f : B → A → M B) b l w :
  inv w → I b w → (∀ b a w, a ∈ l → inv w → I b w → wp E (f b a) w I) → wp E (M_fold f b l) w I.
Proof. intros Hw Hb Hf. apply (wp_fold_prefix E (λ _, I)); [done|done|]. intros _ b' a w' Ha. by apply Hf. Qed.

(** Reading the records. *)
Lemma wp_get E w Q : inv w → Q (rows w, storage_get_version (w_storage w)) w → wp E (_get_im_instances im) w Q.
Proof.
  intros Hw HQ. split; [done|]. unfold _get_im_instances. simpl. by rewrite (rows_version im random_id max w Hw).
Qed.

(** Drawing an id and reading the clock keep the records. *)
Definition later (w w' : world) : Prop := w_storage w' = w_storage w ∧ (w_ids w ≤ w_ids w')%nat.

Lemma later_self w : later w w.
Proof. by split. Qed.

Lemma later_then w1 w2 w3 : later w1 w2 → later w2 w3 → later w1 w3.
Proof. intros [H1 H2] [H3 H4]. split; [congruence|lia]. Qed.

Lemma later_row w w' id : later w w' → row w' id = row w id.
Proof. intros [H _]. unfold ReconcilerFacts.row. by rewrite H. Qed.

Lemma later_rows w w' : later w w' → rows w' = rows w.
Proof. intros [H _]. unfold ReconcilerFacts.rows. by rewrite H. Qed.

Lemma later_inv w w' : later w w' → inv w → inv w'.
Proof.
  intros Hl [H1 H2 H3]. pose proof Hl as [Hs Hids]. split; [by rewrite Hs| |].
  - intros id i. rewrite (later_row w w' id Hl). apply H2.
  - intros n Hn. rewrite (later_row w w' _ Hl). apply H3. lia.
Qed.

Lemma wp_clock E w (Q : Z → world → Prop) : inv w → (∀ t w', later w w' → Q t w') → wp E (read_clock clock) w Q.
Proof.
  intros Hw HQ. assert (later w (read_clock clock w).2) as Hl by by split. split; [by eapply later_inv|].
  simpl. by apply HQ.
Qed.

Lemma wp_new_id E w : inv w →
  wp E (new_id random_id) w (λ id w', later w w' ∧ w_ids w' = S (w_ids w) ∧ id = random_id (w_ids w)).
Proof.
  intros Hw. assert (later w (new_id random_id w).2) as Hl by (split; [done|simpl; lia]).
  split; [by eapply later_inv|]. by split.
Qed.

(** The updates [d], in part created with ids drawn since [w0]. *)
Definition drawn (Q C : InstanceUpdateEvent → Prop) (w0 : world) (d : updates_t) (w : world) : Prop :=
  later w0 w ∧ values (λ u, Q u ∨ C u ∧
    ∃ n, (w_ids w0 ≤ n < w_ids w)%nat ∧ upd_instance_id u = random_id n) d.

Lemma drawn_start (Q C : InstanceUpdateEvent → Prop) w d : values Q d → drawn Q C w d w.
Proof. intros Hd. split; [apply later_self|]. intros u Hu. left. by apply Hd. Qed.

Lemma drawn_later Q C w0 d w w' : drawn Q C w0 d w → later w w' → drawn Q C w0 d w'.
Proof.
  intros [Hl Hd] Hl'. split; [by eapply later_then|]. intros u Hu. destruct (Hd u Hu) as [|(Hc & n & Hn & Hid)]; [by left|].
  right. split; [done|]. exists n. destruct Hl'. split; [lia|done].
Qed.

Lemma drawn_dset (Q C : InstanceUpdateEvent → Prop) w0 d w w' k (u : InstanceUpdateEvent) : drawn Q C w0 d w → later w w' →
  w_ids w' = S (w_ids w) → C u → upd_instance_id u = random_id (w_ids w) → drawn Q C w0 (dset d k u) w'.
Proof.
  intros Hd Hl Hids Hc Hu. destruct (drawn_later _ _ _ _ _ _ Hd Hl) as [Hl' Hd']. split; [done|].
  apply values_dset; [done|]. right. split; [done|]. exists (w_ids w). destruct Hd as [[_ ?] _]. by split; [lia|].
Qed.

(** ** Stuck instances *)
Lemma rows_legal w i : inv w → i ∈ rows w → legal_history i.
Proof.
  intros Hw Hi. apply (rows_spec im random_id max) in Hi; [|done].
  by destruct (proj2 (inv_manager _ _ _ _ Hw) _ _ Hi) as (_ & ? & _).
Qed.

(** The history of a status mentions it. *)
Lemma legal_transitions i : legal_history i →
  0 < Z.of_nat (length (InstanceUtil.get_status_transition_times_ns i (Some (status i)))).
Proof.
  intros Hi. destruct (has_timeout_spec 0 0 i Hi) as (m & _ & _ & H). unfold InstanceUtil.has_timeout in H. inv_ok.
  apply Z.leb_le in Hr. lia.
Qed.

(** What a stuck instance yields: nothing, or an acceptable update. *)
Definition stuck_outcome (w0 : world) i (to : list InstanceStatus) (o : option InstanceUpdateEvent) w : Prop :=
  later w0 w ∧ ∀ u, o = Some u → update_ok max i u ∧ new_instance_status u ∈ to.

Lemma stuck_requested_wp w0 w i timeout : inv w → later w0 w → legal_history i → status i = REQUESTED →
  wp never (_handle_stuck_requested_instance clock i timeout max) w (stuck_outcome w0 i [QUEUED; ALLOCATION_FAILED]).
Proof.
  intros Hw Hl Hi Hs. unfold _handle_stuck_requested_instance.
  eapply wp_bind; [apply wp_clock; [done|]; intros t w' Hw'; exact (later_then _ _ _ Hl Hw')|].
  intros now w1 Hw1 Hl1. cbv beta in Hl1. destruct (has_timeout_spec now timeout i Hi) as (m & _ & _ & H).
  eapply (wp_bind _ _ _ _ (λ _ w', later w0 w')); [apply wp_lift; [done|done|intros e; by rewrite H]|].
  intros late w2 Hw2 Hl2. destruct late; cbn [negb]; (apply wp_ret; [done|]); [|by split].
  split; [done|]. intros u [= <-]. fold (attempts i). destruct (Z.ltb_spec max (attempts i)) as [Hlt|Hge]; (split; [|set_solver]);
    (split; [done|]); cbn [new_instance_status update_event]; rewrite Hs; (split; [set_solver|]); by split.
Qed.

Lemma stuck_instance_wp w0 w i timeout s ty cloud node : inv w → later w0 w → legal_history i →
  update_ok max i (update_event (instance_id i) s ty cloud node) →
  wp never (_handle_stuck_instance clock i timeout s ty cloud node) w (stuck_outcome w0 i [s]).
Proof.
  intros Hw Hl Hi Hu. unfold _handle_stuck_instance.
  eapply wp_bind; [apply wp_clock; [done|]; intros t w' Hw'; exact (later_then _ _ _ Hl Hw')|].
  intros now w1 Hw1 Hl1. cbv beta in Hl1. destruct (has_timeout_spec now timeout i Hi) as (m & _ & _ & H).
  eapply (wp_bind _ _ _ _ (λ _ w', later w0 w')); [apply wp_lift; [done|done|intros e; by rewrite H]|].
  intros late w2 Hw2 Hl2. apply wp_ret; [done|]. split; [done|]. intros u. destruct late; [|done].
  intros [= <-]. split; [done|]. cbn [new_instance_status update_event]. set_solver.
Qed.

(** The updates so far, all of records of [w0]. *)
Definition stuck_updates (w0 : world) (to : list InstanceStatus) (d : updates_t) w : Prop :=
  later w0 w ∧ values (λ u, ∃ i, i ∈ rows w0 ∧ update_ok max i u ∧ new_instance_status u ∈ to) d.

Lemma stuck_loop_wp w0 w s f d to to' : inv w → stuck_updates w0 to d w → to' ⊆ to →
  (∀ i w, i ∈ rows w0 → status i = s → inv w → later w0 w → wp never (f i) w (stuck_outcome w0 i to')) →
  wp never (stuck_loop s f (rows w0) d) w (stuck_updates w0 to).
Proof.
  intros Hw Hd Hto Hf. unfold stuck_loop. apply wp_fold; [done|done|].
  intros d' i w' [Hs Hi]%list_elem_of_filter Hw' [Hl Hv]. eapply wp_bind; [by apply Hf|].
  intros o w2 Hw2 [Hl2 Ho]. apply wp_ret; [done|]. split; [done|]. destruct o as [u|]; [|done].
  destruct (Ho u eq_refl) as [Hu Hin]. apply values_dset; [done|]. exists i. split; [done|]. split; [done|]. by apply Hto.
Qed.

Lemma warn_stuck_wp w0 w s : inv w0 → inv w → later w0 w →
  wp never (_warn_stuck_instances clock s (rows w0)) w (λ _, later w0).
Proof.
  intros Hw0 Hw Hl. apply wp_fold; [done|done|]. intros [] i w' [<- Hi]%list_elem_of_filter Hw' Hl'.
  assert ((1 <=? Z.of_nat (length (InstanceUtil.get_status_transition_times_ns i (Some (status i))))) = true) as ->.
  { apply Z.leb_le. pose proof (legal_transitions i (rows_legal _ _ Hw0 Hi)). lia. }
  eapply (wp_bind _ _ _ _ (λ _, later w0)); [by apply wp_lift|]. intros _ w1 Hw1 Hl1.
  eapply (wp_bind _ _ _ _ (λ _, later w0)); [apply wp_clock; [done|]; intros t w2 Hw2; exact (later_then _ _ _ Hl1 Hw2)|].
  intros _ w2 Hw2 Hl2. by apply wp_ret.
Qed.

(** The statuses a stuck instance may get. *)
Definition stuck_statuses : list InstanceStatus :=
  [QUEUED; ALLOCATION_FAILED; ALLOCATION_TIMEOUT; RAY_INSTALL_FAILED; TERMINATION_FAILED; RAY_RUNNING].

(** ** Requests at the version read *)

(** The records that changed between [w] and [w'] have one of the statuses [to]. *)
Definition only_to (to : list InstanceStatus) w w' : Prop :=
  ∀ id j, row w' id = Some j → row w id = Some j ∨ status j ∈ to.

Lemma moved_later w0 w w' ups id : later w0 w → moved im clock w w' ups id → moved im clock w0 w' ups id.
Proof. intros Hl. unfold moved. rewrite (later_row w0 w id Hl). done. Qed.

Lemma drawn_request_ok w0 w ups : inv w0 → inv w →
  drawn (λ u, ∃ i, i ∈ rows w0 ∧ update_ok max i u) create_ok w0 ups w → request_ok im random_id max w ups.
Proof.
  intros Hw0 Hw [Hl Hv] u Hu. destruct (Hv u Hu) as [(i & Hi & Hok)|(Hc & n & Hn & Hid)].
  - left. exists i. by rewrite (later_rows w0 w Hl).
  - right. destruct (inv_fresh _ _ _ _ Hw0 n) as [Hne Hfr]; [lia|].
    rewrite Hid, (later_row w0 w _ Hl). split_and!; [done|exact Hfr|]. exists n. by split; [lia|].
Qed.

Lemma update_wp w0 w ups : inv w0 → inv w →
  drawn (λ u, ∃ i, i ∈ rows w0 ∧ update_ok max i u) create_ok w0 ups w →
  wp never (_update_instance_manager im clock (storage_get_version (w_storage w0)) ups) w
    (λ _ w', ∀ id, moved im clock w0 w' ups id).
Proof.
  intros Hw0 Hw Hd. destruct (request_fine im clock random_id max w ups Hw Hmax) as (w' & Hw' & Hinv & _ & Hm).
  { by apply (drawn_request_ok w0). }
  destruct Hd as [Hl _]. destruct Hl as [Hs Hids]. rewrite Hs in Hw'. unfold wp. rewrite Hw'. split; [done|].
  intros id. by apply (moved_later w0 w).
Qed.

Lemma moved_only_to w w' ups to : inv w → (∀ id, moved im clock w w' ups id) →
  values (λ u, new_instance_status u ∈ to) ups → only_to to w w'.
Proof.
  intros Hw Hm Hv id j Hj. destruct (moved_row im clock random_id max w w' ups id j Hw (Hm id) Hj) as [|(u & Hu & _ & Hs)].
  - by left.
  - right. rewrite Hs. by apply Hv.
Qed.

(** A stuck instance never makes the reconciliation raise. *)
Lemma handle_stuck_wp w cfg : inv w → max_num_retry_request_to_allocate cfg = max →
  wp never (_handle_stuck_instances im clock cfg) w (λ _, only_to stuck_statuses w).
Proof.
  intros Hw Hcfg. unfold _handle_stuck_instances.
  eapply (wp_bind _ _ _ _ (λ p w', p = (rows w, storage_get_version (w_storage w)) ∧ later w w')).
  { apply wp_get; [done|]. split; [done|apply later_self]. }
  intros p w0 Hw0 [-> Hl0]. cbn [fst snd]. rewrite Hcfg.
  assert (∀ i, i ∈ rows w → row_ok max i) as Hrow by (intros i Hi; by apply (rows_ok im random_id max w i Hw)).
  assert (∀ i, i ∈ rows w → legal_history i) as Hleg by (intros i; by apply rows_legal).
  unfold row_ok in Hrow.
  eapply (wp_bind _ _ _ _ (stuck_updates w stuck_statuses)).
  { apply (stuck_loop_wp _ _ _ _ _ _ [QUEUED; ALLOCATION_FAILED]); [done|split; [done|apply values_nil]|set_solver|].
    intros i w1 Hi Hs Hw1 Hl1. apply stuck_requested_wp; auto. }
  intros d1 w1 Hw1 Hd1. eapply (wp_bind _ _ _ _ (stuck_updates w stuck_statuses)).
  { apply (stuck_loop_wp _ _ _ _ _ _ [ALLOCATION_TIMEOUT]); [done|done|set_solver|].
    intros i w2 Hi Hs Hw2 Hl2. specialize (Hrow i Hi). rewrite Hs in Hrow. rewrite (proj2 (truthy_ne _) (proj1 Hrow)).
    eapply (wp_bind _ _ _ _ (λ _, later w)); [by apply wp_lift|]. intros _ w3 Hw3 Hl3.
    apply stuck_instance_wp; [done|done|by auto|]. apply plain_update_ok; [rewrite Hs|]; set_solver. }
  intros d2 w2 Hw2 Hd2. eapply (wp_bind _ _ _ _ (stuck_updates w stuck_statuses)).
  { apply (stuck_loop_wp _ _ _ _ _ _ [RAY_INSTALL_FAILED]); [done|done|set_solver|].
    intros i w3 Hi Hs Hw3 Hl3.
    apply stuck_instance_wp; [done|done|by auto|]. apply plain_update_ok; [rewrite Hs|]; set_solver. }
  intros d3 w3 Hw3 Hd3. eapply (wp_bind _ _ _ _ (stuck_updates w stuck_statuses)).
  { apply (stuck_loop_wp _ _ _ _ _ _ [TERMINATION_FAILED]); [done|done|set_solver|].
    intros i w4 Hi Hs Hw4 Hl4.
    apply stuck_instance_wp; [done|done|by auto|]. apply plain_update_ok; [rewrite Hs|]; set_solver. }
  intros d4 w4 Hw4 Hd4. eapply (wp_bind _ _ _ _ (stuck_updates w stuck_statuses)).
  { apply (stuck_loop_wp _ _ _ _ _ _ [RAY_RUNNING]); [done|done|set_solver|].
    intros i w5 Hi Hs Hw5 Hl5. specialize (Hrow i Hi). rewrite Hs in Hrow.
    apply stuck_instance_wp; [done|done|by auto|]. split; [done|]. cbn [new_instance_status update_event]. rewrite Hs.
    split; [set_solver|]. split; [by apply Hrow|done]. }
  intros d5 w5 Hw5 [Hl5 Hd5]. eapply (wp_bind _ _ _ _ (λ _, later w)).
  { apply wp_fold; [done|done|]. intros _ s w6 _ Hw6 Hl6. by apply warn_stuck_wp. }
  intros _ w6 Hw6 Hl6. eapply wp_mono; [apply (update_wp w w6 d5)|done|]; [done|done| |].
  - split; [done|]. intros u Hu. left. destruct (Hd5 u Hu) as (i & Hi & Hok & _). eauto.
  - intros ? w' _ Hm. eapply moved_only_to; [done|exact Hm|]. intros u Hu. by destruct (Hd5 u Hu) as (_ & _ & _ & ?).
Qed.
End world.
