(* ===== verification/ReconcilerRounds.v ===== *)
(** * The reconciler: any sequence of reconciliations

    Whatever the cloud provider, the Ray cluster and the scheduler report, and
    wherever an exception stops a reconciliation, the records keep their
    invariant. *)
From S2P Require Import Prelude PyDict PyFloat InstanceUtil InstanceUtilFacts Storage StorageFacts.
From S2P Require Import InstanceManager InstanceManagerFacts SchedNode Scheduler Reconciler ReconcilerFacts.
From S2P Require Import ReconcilerUpdates ReconcilerInv.
Import Reconciler.

Section world.
Context {St V Sub : Type} `{!Storage St V, !InstanceCodec V}.
Context `{!StorageLaws (St:=St) (V:=V), !InstanceCodecLaws V}.
Variables (im : InstanceManager.t Sub) (clock : nat → Z) (random_id : nat → string) (max : Z).
Context `{!Inj eq eq random_id}.
Hypothesis (Hmax : 0 ≤ max).
Implicit Types (w : world (St:=St) (Sub:=Sub)) (i : InstanceMsg) (id : string) (ups : updates_t).

Abbreviation inv := (inv im random_id max).
Abbreviation row := (row im).
Abbreviation rows := (rows im).
Abbreviation M := (M (St:=St) (Sub:=Sub)).
Abbreviation world := (world (St:=St) (Sub:=Sub)).
Abbreviation wp := (wp im random_id max).

(** The invariant holds after [m], whether it returns or raises. *)
Definition keeps {A} (m : M A) : Prop := ∀ w, inv w → wp always m w (λ _ _, True).

Lemma keep_ret {A} (a : A) : keeps (mret a).
Proof. intros w Hw. by apply wp_ret. Qed.

Lemma keep_bind {A B} (m : M A) (f : A → M B) : keeps m → (∀ a, keeps (f a)) → keeps (m ≫= f).
Proof. intros Hm Hf w Hw. eapply wp_bind; [by apply Hm|]. intros a w' Hw' _. by apply Hf. Qed.

Lemma keeps_lift {A} (r : result A) : keeps (lift r).
Proof. intros w Hw. by apply wp_lift. Qed.

Lemma keep_get : keeps (_get_im_instances im).
Proof. intros w Hw. by apply wp_get. Qed.

(** The updates [d], some created since [w0], form a sane request. *)
Lemma drawn_sane w0 w d : inv w0 → drawn random_id plain
    (λ u, new_instance_status u = ALLOCATED ∨ new_instance_status u = QUEUED ∧ upd_instance_type u ≠ "") w0 d w →
  sane im random_id max w d.
Proof.
  intros Hw0 [Hl Hv] u Hu. rewrite (later_row im w0 w _ Hl). destruct (Hv u Hu) as [[Hq Hup]|(Hc & n & Hn & Hid)].
  - destruct (row w0 _); [done|]. by rewrite Hup.
  - destruct (inv_fresh _ _ _ _ Hw0 n) as [Hne Hfr]; [lia|]. rewrite Hid.
    change (row w0 (random_id n) = None) in Hfr. rewrite Hfr. intros _. split; [done|]. exists n. split_and!; [lia|done|done].
Qed.

Lemma keeps_request v w0 w d : inv w0 → inv w → drawn random_id plain
    (λ u, new_instance_status u = ALLOCATED ∨ new_instance_status u = QUEUED ∧ upd_instance_type u ≠ "") w0 d w →
  wp always (_update_instance_manager im clock v d) w (λ _ _, True).
Proof.
  intros Hw0 Hw Hd. split; [|by destruct (_ : result unit * world).1].
  apply update_keeps; try done. by apply (drawn_sane w0).
Qed.

Lemma keeps_handle f : (∀ l ups, f l = Ok ups → values quiet ups) → keeps (handle im clock f).
Proof.
  intros Hf w Hw. unfold handle. eapply (wp_bind _ _ _ _ _ _ _ (λ _ w', w' = w)); [by apply wp_get|].
  intros p w0 _ ->. eapply (wp_bind _ _ _ _ _ _ _ (λ u w', w' = w ∧ values plain u)).
  { apply wp_lift; [done| |done]. intros u Hu. split; [done|by eapply quiet_plain, Hf]. }
  intros u w0 _ [-> Hu]. apply (keeps_request _ w); [done..|]. by apply drawn_start.
Qed.

Lemma keeps_extra_ray ray_nodes : keeps (_handle_extra_cloud_instances_from_ray_nodes im clock random_id ray_nodes).
Proof.
  intros w Hw. unfold _handle_extra_cloud_instances_from_ray_nodes.
  eapply (wp_bind _ _ _ _ _ _ _ (λ _ w', w' = w)); [by apply wp_get|]. intros p w0 _ ->.
  eapply wp_bind; [|intros d w1 Hw1 Hd; apply (keeps_request _ w); [done|done|exact Hd]].
  apply wp_fold; [done|by apply drawn_start, values_nil|]. intros d n w1 _ Hw1 Hd.
  destruct (negb _); [done|]. do 2 (destruct (bool_decide _); [done|]).
  eapply wp_bind; [by apply wp_new_id|]. intros id w2 Hw2 (Hl & Hids & ->). apply wp_ret; [done|].
  apply (drawn_dset _ _ _ _ _ w1); try done. by left.
Qed.

Lemma keeps_extra_cloud cloud : keeps (_handle_extra_cloud_instances_from_cloud_provider im clock random_id cloud).
Proof.
  intros w Hw. unfold _handle_extra_cloud_instances_from_cloud_provider.
  eapply (wp_bind _ _ _ _ _ _ _ (λ _ w', w' = w)); [by apply wp_get|]. intros p w0 _ ->.
  eapply wp_bind; [|intros d w1 Hw1 Hd; apply (keeps_request _ w); [done|done|exact Hd]].
  apply wp_fold; [done|by apply drawn_start, values_nil|]. intros d c w1 _ Hw1 Hd.
  destruct (bool_decide _); [done|].
  eapply wp_bind; [by apply wp_new_id|]. intros id w2 Hw2 (Hl & Hids & ->). apply wp_ret; [done|].
  apply (drawn_dset _ _ _ _ _ w1); try done. by left.
Qed.

Lemma keeps_launch cfg : keeps (_handle_instances_launch im clock random_id cfg).
Proof.
  intros w Hw. unfold _handle_instances_launch.
  eapply (wp_bind _ _ _ _ _ _ _ (λ _ w', w' = w)); [by apply wp_get|]. intros p w0 _ ->.
  destruct (filter _ p.1); [by apply wp_ret|].
  eapply (wp_bind _ _ _ _ _ _ _ (λ _ w', w' = w)); [by apply wp_lift|]. intros d w0 _ ->.
  eapply wp_bind; [by apply wp_new_id|]. intros id w2 Hw2 (Hl & _ & _).
  apply (keeps_request _ w); [done|done|]. apply (drawn_later _ _ _ _ _ w); [|done]. apply drawn_start, launch_plain.
Qed.

(** New records of the types the scheduler asks for. *)
Lemma queue_new_wp E Q w0 w d to_launch : inv w → drawn random_id Q
    (λ u, ∃ id p, p ∈ to_launch ∧ u = queue_new_event id p.1) w0 d w →
  wp E (queue_new random_id d to_launch) w (drawn random_id Q (λ u, ∃ id p, p ∈ to_launch ∧ u = queue_new_event id p.1) w0).
Proof.
  intros Hw Hd. apply wp_fold; [done|done|]. intros d1 p w1 Hp Hw1 Hd1. apply wp_fold; [done|done|].
  intros d2 n w2 _ Hw2 Hd2. eapply wp_bind; [by apply wp_new_id|]. intros id w3 Hw3 (Hl & Hids & ->).
  apply wp_ret; [done|]. apply (drawn_dset _ _ _ _ _ w2); try done. by exists (random_id (w_ids w2)), p.
Qed.

(** A scheduler names the types it launches. *)
Definition names_types (schedule : SchedulingRequest → result SchedulingReply) : Prop :=
  ∀ req reply p, schedule req = Ok reply → p ∈ to_launch reply → p.1 ≠ "".

Lemma keeps_scale schedule monitor cfg ray kuberay : names_types schedule →
  keeps (_scale_cluster im clock random_id schedule monitor cfg ray kuberay).
Proof.
  intros Hn w Hw. unfold _scale_cluster.
  eapply (wp_bind _ _ _ _ _ _ _ (λ _ w', w' = w)); [by apply wp_get|]. intros p w0 _ ->.
  eapply (wp_bind _ _ _ _ _ _ _ (λ _ w', w' = w)); [split; [done|]; simpl; by destruct (monitor w)|]. intros scores w0 _ ->.
  eapply (wp_bind _ _ _ _ _ _ _ (λ r w', w' = w ∧ ∀ p, p ∈ to_launch r → p.1 ≠ "")).
  { apply wp_lift; [done| |done]. intros r Hr. split; [done|]. intros q. by eapply Hn. }
  intros reply w0 _ [-> Hty].
  eapply (wp_bind _ _ _ _ _ _ _ (λ _ w', w' = w)).
  { eapply (wp_bind _ _ _ _ _ _ _ (λ _ w', w' = w)); [by apply wp_get|]. intros q w0 _ ->. by apply wp_ret. }
  intros head w0 _ ->. destruct (negb head); [by apply wp_ret|]. destruct (bool_decide _); [by apply wp_ret|].
  eapply (wp_bind _ _ _ _ _ _ _ (λ u w', w' = w ∧ values plain u)).
  { apply wp_lift; [done| |done]. intros u Hu. split; [done|by eapply quiet_plain, terminate_requests_quiet]. }
  intros u w0 _ [-> Hu].
  eapply wp_bind; [apply (queue_new_wp _ plain w); [done|by apply drawn_start]|]. intros d w1 Hw1 Hd.
  eapply (wp_bind _ _ _ _ _ _ _ (λ _ w', later w1 w')).
  { destruct kuberay; [|split; [done|apply later_self]]. split; [|by split]. eapply later_inv; [|exact Hw1]. by split. }
  intros _ w2 Hw2 Hl2. eapply wp_bind; [apply (keeps_request _ w); [done|done|]|by intros; apply wp_ret].
  apply (drawn_later _ _ _ _ _ w1 w2) in Hd; [|done]. destruct Hd as [Hl Hv]. split; [done|].
  intros v Hv'. destruct (Hv v Hv') as [|((k & q & Hq & ->) & n & Hn' & Hid)]; [by left|]. right.
  split; [|by exists n]. right. split; [done|]. by apply Hty.
Qed.

Lemma keeps_stuck cfg : max_num_retry_request_to_allocate cfg = max → keeps (_handle_stuck_instances im clock cfg).
Proof. intros Hc w Hw. eapply wp_mono; [by apply (handle_stuck_wp im clock random_id max Hmax w cfg)|done|done]. Qed.

Lemma keeps_sync ray_nodes cloud provider_errors install_errors stop_errors cfg :
  keeps (_sync_from im clock random_id ray_nodes cloud provider_errors install_errors stop_errors cfg).
Proof.
  apply keep_bind; [apply keeps_handle; intros; by eapply allocation_quiet|intros _].
  apply keep_bind; [apply keeps_handle; intros; by eapply terminated_quiet|intros _].
  apply keep_bind; [apply keeps_handle; intros; by eapply termination_error_quiet|intros _].
  apply keep_bind; [apply keep_bind; [apply keeps_extra_ray|intros _; apply keeps_extra_cloud]|intros _].
  apply keep_bind; [apply keeps_handle; intros; by eapply ray_status_quiet|intros _].
  apply keep_bind; [apply keeps_handle; intros; by eapply install_failed_quiet|intros _].
  apply keeps_handle. intros. by eapply stop_failed_quiet.
Qed.

Lemma keeps_step schedule monitor ray cloud kuberay cfg : names_types schedule →
  max_num_retry_request_to_allocate (reconcile_config cfg) = max →
  keeps (_step_next im clock random_id schedule monitor ray cloud kuberay cfg).
Proof.
  intros Hn Hc. apply keep_bind; [apply keeps_handle; intros; by eapply missing_quiet|intros _].
  apply keep_bind; [by apply keeps_stuck|intros _]. apply keep_bind; [by apply keeps_scale|intros reply].
  apply keep_bind; [apply keeps_launch|intros _].
  apply keep_bind; [apply keeps_handle; intros; by eapply terminate_quiet|intros _].
  apply keep_bind; [|intros _; apply keep_bind; [apply keep_get|intros; apply keeps_lift]].
  destruct (disable_node_updaters cfg); [apply keep_ret|]. apply keeps_handle. intros. by eapply install_quiet.
Qed.

Lemma keeps_reconcile schedule monitor ray cloud kuberay cfg provider_errors install_errors stop_errors :
  names_types schedule → max_num_retry_request_to_allocate (reconcile_config cfg) = max →
  keeps (reconcile im clock random_id schedule monitor ray cloud kuberay cfg provider_errors install_errors stop_errors).
Proof. intros Hn Hc. apply keep_bind; [apply keeps_sync|intros _; by apply keeps_step]. Qed.

(** ** Rounds *)

(** What one reconciliation is given: the reports, the configuration, the
    scheduler and the scores of the resource monitor. *)
Record round : Type := {
  rd_ray : ClusterResourceState;
  rd_cloud : dict string CloudInstance;
  rd_kuberay : ippr_state;
  rd_cfg : AutoscalingConfig;
  rd_provider_errors : list CloudInstanceProviderError;
  rd_install_errors : list RayInstallError;
  rd_stop_errors : list RayStopError;
  rd_schedule : SchedulingRequest → result SchedulingReply;
  rd_monitor : world → result (dict string float * dict string float)
}.

Definition run_round (r : round) : M AutoscalingState :=
  reconcile im clock random_id (rd_schedule r) (rd_monitor r) (rd_ray r) (rd_cloud r) (rd_kuberay r) (rd_cfg r)
    (rd_provider_errors r) (rd_install_errors r) (rd_stop_errors r).

(** Rounds in sequence, whether they return or raise. *)
Definition run_rounds (rs : list round) w : world := foldl (λ w r, (run_round r w).2) w rs.

(** Every round allows as many retries, and its scheduler names types. *)
Definition fair (r : round) : Prop :=
  names_types (rd_schedule r) ∧ max_num_retry_request_to_allocate (reconcile_config (rd_cfg r)) = max.

Lemma run_rounds_inv rs w : inv w → (∀ r, r ∈ rs → fair r) → inv (run_rounds rs w).
Proof.
  unfold run_rounds. revert w. induction rs as [|r rs IH]; intros w Hw Hr; [done|]. cbn [foldl]. apply IH.
  - destruct (Hr r) as [Hn Hm]; [left|]. by apply keeps_reconcile.
  - intros r' Hr'. apply Hr. by right.
Qed.
End world.
