(* ===== verification/ReconcilerAlloc.v ===== *)
(** * The reconciler: which cloud instance a requested instance gets, and how
    many instances are launched at once *)
From S2P Require Import Prelude PyDict PyFloat InstanceUtil InstanceUtilFacts Storage StorageFacts.
From S2P Require Import InstanceManager InstanceManagerFacts SchedNode Scheduler SchedulerFacts Reconciler.
From S2P Require Import ReconcilerFacts ReconcilerUpdates.
Import Reconciler.

(** ** Allocation *)
Section allocation.
Variables (errors : dict string string).
Implicit Types (un : dict string (list CloudInstance)) (i : InstanceMsg) (rs : list InstanceMsg).

Abbreviation pool un ty := (default [] (dget un ty)).

Definition alloc_event i (c : CloudInstance) : InstanceUpdateEvent := {|
  upd_instance_id := instance_id i; new_instance_status := ALLOCATED; upd_details := "";
  upsert := false; upd_instance_type := ci_node_type c;
  upd_cloud_instance_id := ci_cloud_instance_id c; upd_node_kind := ci_node_kind c;
  upd_ray_node_id := ""; upd_launch_request_id := ""; upd_termination_request := None |}.

(** Instances of the type of [i] in [before]. *)
Definition rank_in (before : list InstanceMsg) i : nat :=
  length (filter (λ j, instance_type j = instance_type i) before).

(** The update of [i] when [before] come before it: the k-th instance of a
    type gets the k-th unassigned cloud instance of the type, from the end;
    when none is left, a launch error of its request and type fails it. *)
Definition resolution un (before : list InstanceMsg) i : option InstanceUpdateEvent :=
  match reverse (pool un (instance_type i)) !! rank_in before i with
  | Some c => Some (alloc_event i c)
  | None =>
      if bool_decide (dget errors (launch_request_id i) = Some (instance_type i))
      then Some (update_event (instance_id i) ALLOCATION_FAILED "" "" "") else None
  end.

Lemma resolve_head un i : (_try_resolve_pending_allocation i un errors).1 = resolution un [] i.
Proof.
  unfold _try_resolve_pending_allocation, resolution, rank_in. rewrite filter_nil. cbn [length].
  rewrite <-head_lookup, head_reverse. destruct (last _) as [c|]; [done|].
  destruct (dget errors _) as [ty|].
  - destruct (decide (ty = instance_type i)) as [->|Hne].
    + by rewrite !bool_decide_eq_true_2.
    + rewrite !bool_decide_eq_false_2; [done|congruence|done].
  - by rewrite bool_decide_eq_false_2.
Qed.

(** The pools after the first instance. *)
Lemma resolve_pool un i ty : let un' := (_try_resolve_pending_allocation i un errors).2 in
  reverse (pool un' ty) = if decide (ty = instance_type i) then tail (reverse (pool un ty)) else reverse (pool un ty).
Proof.
  unfold _try_resolve_pending_allocation. set (l := pool un (instance_type i)).
  destruct (last l) as [c|] eqn:Hl.
  - cbn [snd]. rewrite dget_dset. case_decide as E; [|done]. subst ty. simpl. fold l.
    apply last_Some in Hl as [k ->]. rewrite length_app. simpl.
    replace (length k + 1 - 1)%nat with (length k) by lia. by rewrite take_app_length, reverse_app.
  - apply last_None in Hl.
    assert ((match dget errors (launch_request_id i) with
      | Some ty => if bool_decide (ty = instance_type i)
          then (Some (update_event (instance_id i) ALLOCATION_FAILED "" "" ""), un) else (None, un)
      | None => (None, un) end).2 = un) as ->.
    { destruct (dget errors _); [|done]. by destruct (bool_decide _). }
    case_decide as E; [|done]. subst ty. fold l. by rewrite Hl.
Qed.

Lemma resolution_tail un i0 before i :
  resolution (_try_resolve_pending_allocation i0 un errors).2 before i = resolution un (i0 :: before) i.
Proof.
  unfold resolution. rewrite resolve_pool. unfold rank_in. rewrite filter_cons.
  destruct (decide (instance_type i = instance_type i0)) as [E|E].
  - rewrite decide_True by done. simpl. by destruct (reverse (pool un (instance_type i))).
  - by rewrite decide_False.
Qed.

Lemma loop_other un ups rs id : id ∉ map instance_id rs →
  dget (allocation_loop errors un ups rs) id = dget ups id.
Proof.
  revert un ups. induction rs as [|i rs IH]; intros un ups Hid; [done|]. simpl in Hid.
  cbn [allocation_loop]. destruct (_try_resolve_pending_allocation i un errors) as [[u|] un'].
  - rewrite IH by set_solver. by rewrite dget_dset_ne by set_solver.
  - apply IH. set_solver.
Qed.

Lemma loop_spec un ups before i after : NoDup (map instance_id (before ++ i :: after)) →
  (∀ j, j ∈ before ++ i :: after → instance_id j ∉ ups.*1) →
  dget (allocation_loop errors un ups (before ++ i :: after)) (instance_id i) = resolution un before i.
Proof.
  revert un ups. induction before as [|i0 before IH]; intros un ups Hnd Hups; cbn [app allocation_loop map] in *.
  - apply NoDup_cons in Hnd as [Hni _]. pose proof (resolve_head un i) as Hr.
    destruct (_try_resolve_pending_allocation i un errors) as [u un']. cbn [fst] in Hr. rewrite loop_other by done.
    rewrite <-Hr. destruct u as [u|]; [apply dget_dset_eq|]. apply dget_None. apply Hups. left.
  - apply NoDup_cons in Hnd as [Hni Hnd]. pose proof (resolution_tail un i0 before i) as Hr.
    destruct (_try_resolve_pending_allocation i0 un errors) as [u un']. cbn [snd] in Hr. rewrite <-Hr.
    apply IH; [done|]. intros j Hj. assert (instance_id j ∉ ups.*1) as Hju by (apply Hups; by right).
    destruct u as [u|]; [|done]. intros [E|]%dset_keys_elem; [|done]. apply Hni. rewrite <-E.
    apply list_elem_of_fmap. by exists j.
Qed.

Lemma loop_keys un ups rs id : id ∈ (allocation_loop errors un ups rs).*1 → id ∈ ups.*1 ∨ id ∈ map instance_id rs.
Proof.
  revert un ups. induction rs as [|i rs IH]; intros un ups; [by left|]. cbn [allocation_loop].
  destruct (_try_resolve_pending_allocation i un errors) as [u un']. intros [Hid|Hid]%IH; [|right; by right].
  destruct u as [u|]; [|by left]. apply dset_keys_elem in Hid as [->|Hid]; [right; left|by left].
Qed.

Lemma loop_wf un ups rs : dwf ups → dwf (allocation_loop errors un ups rs).
Proof.
  revert un ups. induction rs as [|i rs IH]; intros un ups Hw; [done|]. cbn [allocation_loop].
  destruct (_try_resolve_pending_allocation i un errors) as [[u|] un']; apply IH; [by apply dset_wf|done].
Qed.
End allocation.

(** The cloud instances no record holds, in order. *)
Definition unassigned (instances : list InstanceMsg) (cloud : dict string CloudInstance) : list CloudInstance :=
  (filter (λ c : string * CloudInstance, c.1 ∉ map cloud_instance_id (filter holds_cloud instances)) cloud).*2.

Lemma unassigned_pool instances cloud ty :
  default [] (dget (unassigned_cloud_instances_by_type instances cloud) ty) =
    filter (λ c, ci_node_type c = ty) (unassigned instances cloud).
Proof.
  assert (unassigned_cloud_instances_by_type instances cloud = group_of ci_node_type (unassigned instances cloud)) as ->.
  { unfold unassigned_cloud_instances_by_type, unassigned, group_of. generalize (@nil (string * list CloudInstance)).
    induction cloud as [|c cloud IH]; intros d; [done|]. cbn [foldl]. rewrite filter_cons.
    case_bool_decide as Hc; [rewrite decide_False by tauto; apply IH|]. rewrite decide_True by done. apply IH. }
  apply group_of_spec.
Qed.

(** ** Sorting by lists of times *)
Definition times_le (a b : list Z) : Prop := list_lt Z.eqb Z.ltb b a = false.

Lemma times_le_trans a b c : times_le a b → times_le b c → times_le a c.
Proof.
  unfold times_le. revert b c. induction a as [|x a IH]; intros [|y b] [|z c]; simpl; try done.
  destruct (Z.eqb_spec y x) as [->|Hyx].
  - destruct (Z.eqb_spec z x) as [->|]; [apply IH|done].
  - intros Hy%Z.ltb_ge Hz. assert (x < z) as Hxz.
    { destruct (Z.eqb_spec z y) as [->|]; [lia|]. apply Z.ltb_ge in Hz. lia. }
    rewrite (proj2 (Z.eqb_neq z x)) by lia. apply Z.ltb_ge. lia.
Qed.

Lemma times_le_total a b : times_le a b ∨ times_le b a.
Proof.
  unfold times_le. revert b. induction a as [|x a IH]; intros [|y b]; simpl; [by left|by left|by right|].
  destruct (Z.eqb_spec y x) as [->|Hne].
  - rewrite Z.eqb_refl. apply IH.
  - rewrite (proj2 (Z.eqb_neq x y)) by congruence. rewrite !Z.ltb_ge. lia.
Qed.

Lemma sort_by_times {A} (key : A → list Z) l :
  StronglySorted (λ a b, times_le (key a) (key b))
    (sort_by (λ a b, list_lt Z.eqb Z.ltb (key a) (key b)) l).
Proof.
  apply (sort_by_sorted (λ _, True) (λ a b, list_lt Z.eqb Z.ltb (key a) (key b))); [| |by apply Forall_true].
  - intros a b _ _ E. destruct (times_le_total (key a) (key b)) as [H|H]; [done|]. unfold times_le in H. congruence.
  - intros a b c _ _ _. apply times_le_trans.
Qed.

(** ** [_handle_cloud_instance_allocation] *)
Definition request_times (i : InstanceMsg) : list Z :=
  InstanceUtil.get_status_transition_times_ns i (Some REQUESTED).

(** The cloud provider lists its instances by their ids. *)
Definition cloud_ids_ok (cloud : dict string CloudInstance) : Prop :=
  dwf cloud ∧ ∀ k c, (k, c) ∈ cloud → ci_cloud_instance_id c = k.

Lemma rank_lt (order before before' : list InstanceMsg) i j after after' :
  order = before ++ i :: after → order = before' ++ j :: after' →
  instance_type i = instance_type j → (length before < length before')%nat →
  (rank_in before i < rank_in before' j)%nat.
Proof.
  intros H1 H2 Ht Hl. assert (∃ k, before' = before ++ i :: k) as [k ->].
  { exists (drop (length before + 1) before'). rewrite H1 in H2.
    assert (take (length before + 1) before' = before ++ [i]) as E.
    { rewrite <-(take_app_le before' (j :: after')) by lia. rewrite <-H2.
      replace (length before + 1)%nat with (length (before ++ [i])) by (rewrite length_app; simpl; lia).
      rewrite (cons_middle i before after), app_assoc. apply take_app_length. }
    rewrite cons_middle, app_assoc, <-E. symmetry. apply take_drop. }
  unfold rank_in. rewrite filter_app, filter_cons, decide_True, length_app by done. rewrite Ht. simpl. lia.
Qed.

Lemma unassigned_NoDup instances cloud : cloud_ids_ok cloud →
  NoDup (map ci_cloud_instance_id (unassigned instances cloud)).
Proof.
  intros [Hw Hid]. unfold unassigned.
  assert (∀ d : dict string CloudInstance, (∀ k c, (k, c) ∈ d → ci_cloud_instance_id c = k) →
    map ci_cloud_instance_id d.*2 = d.*1) as Hm.
  { induction d as [|[k c] d IH]; intros Hd; [done|]. simpl. f_equal; [apply Hd; left|].
    apply IH. intros. apply Hd. by right. }
  rewrite Hm.
  - unfold dwf in Hw. revert Hw. clear. induction cloud as [|c cloud IH]; intros Hw; [constructor|].
    rewrite fmap_cons in Hw. apply NoDup_cons in Hw as [Hn Hw]. rewrite filter_cons. case_decide; [|by apply IH].
    rewrite fmap_cons. constructor; [|by apply IH]. intros ([k d] & E & Hin%list_elem_of_filter)%list_elem_of_fmap.
    apply Hn. apply list_elem_of_fmap. exists (k, d). split; [exact E|exact (proj2 Hin)].
  - intros k c [_ Hin]%list_elem_of_filter. by apply Hid.
Qed.

(** A cloud instance is given once. *)
Lemma pool_distinct instances cloud (order : list InstanceMsg) before i after before' j after' c c' :
  cloud_ids_ok cloud → order = before ++ i :: after → order = before' ++ j :: after' →
  reverse (filter (λ c, ci_node_type c = instance_type i) (unassigned instances cloud)) !! rank_in before i = Some c →
  reverse (filter (λ c, ci_node_type c = instance_type j) (unassigned instances cloud)) !! rank_in before' j = Some c' →
  ci_cloud_instance_id c = ci_cloud_instance_id c' → i = j.
Proof.
  intros Hc Hi Hj Hlc Hlc' Hid. pose proof (unassigned_NoDup instances cloud Hc) as Hnd.
  set (l := unassigned instances cloud) in *.
  assert (∀ ty k d, reverse (filter (λ c, ci_node_type c = ty) l) !! k = Some d → ci_node_type d = ty ∧ d ∈ l) as Hin.
  { intros ty k d Hk%list_elem_of_lookup_2. rewrite elem_of_reverse in Hk. by apply list_elem_of_filter in Hk. }
  destruct (Hin _ _ _ Hlc) as [Ht Hl], (Hin _ _ _ Hlc') as [Ht' Hl'].
  assert (c = c') as <-.
  { apply list_elem_of_lookup in Hl as [n Hn], Hl' as [n' Hn'].
    assert (n = n') as ->; [|congruence].
    eapply (NoDup_lookup _ n n' _ Hnd); change (map ?f ?l) with (f <$> l); rewrite list_lookup_fmap.
    - rewrite Hn. reflexivity.
    - rewrite Hn'. simpl. by f_equal. }
  rewrite Ht in Ht'. rewrite <-Ht' in Hlc'.
  assert (rank_in before i = rank_in before' j) as Hr.
  { eapply (NoDup_lookup _ _ _ c); [|exact Hlc|exact Hlc']. rewrite reverse_Permutation. apply NoDup_filter. by eapply NoDup_fmap_1. }
  destruct (Nat.lt_trichotomy (length before) (length before')) as [Hlt|[He|Hlt]].
  - pose proof (rank_lt order before before' i j after after' Hi Hj Ht' Hlt). lia.
  - rewrite Hi in Hj. apply app_inj_1 in Hj as [_ Hj]; [|done]. by injection Hj.
  - pose proof (rank_lt order before' before j i after' after Hj Hi (eq_sym Ht') Hlt). lia.
Qed.

(** C21: Requested instances are matched with the cloud instances that no record
    holds by their type only: in the order of their request times, the k-th
    instance of a type gets the k-th unassigned cloud instance of the type (from
    the end of the provider's list), no cloud instance is given to two of them,
    and one that gets none fails exactly when a launch error names its request
    and its type. *)
Theorem allocation_spec (cloud : dict string CloudInstance) (errors : list CloudInstanceProviderError)
    (instances : list InstanceMsg) :
  NoDup (map instance_id instances) →
  (∀ i, i ∈ instances → status i = REQUESTED → launch_request_id i ≠ "") →
  ∃ ups order, allocation_updates cloud errors instances = Ok ups ∧
    order ≡ₚ filter (λ i, status i = REQUESTED) instances ∧
    StronglySorted (λ i j, times_le (request_times i) (request_times j)) order ∧
    ups.*1 ⊆ map instance_id order ∧
    (∀ before i after, order = before ++ i :: after →
       dget ups (instance_id i) =
         match reverse (filter (λ c, ci_node_type c = instance_type i) (unassigned instances cloud)) !! rank_in before i with
         | Some c => Some (alloc_event i c)
         | None => if bool_decide (dget (launch_errors errors) (launch_request_id i) = Some (instance_type i))
                   then Some (update_event (instance_id i) ALLOCATION_FAILED "" "" "") else None
         end) ∧
    (cloud_ids_ok cloud → ∀ id id' u u', dget ups id = Some u → dget ups id' = Some u' →
       new_instance_status u = ALLOCATED → new_instance_status u' = ALLOCATED →
       upd_cloud_instance_id u = upd_cloud_instance_id u' → id = id').
Proof.
  intros Hnd Hreq. unfold allocation_updates. set (requested := filter _ instances).
  assert (forallb (λ i, truthy (launch_request_id i)) requested = true) as ->.
  { apply forallb_forall. intros i Hi. apply list_elem_of_In, list_elem_of_filter in Hi as [Hs Hi].
    apply truthy_ne. by apply Hreq. }
  cbn [py_assert mbind result_bind]. set (order := sort_by earlier_requested requested).
  assert (order ≡ₚ requested) as Hp by apply sort_by_perm.
  assert (NoDup (map instance_id order)) as Hno.
  { change (NoDup (instance_id <$> order)). rewrite Hp.
    apply (sublist_NoDup _ (instance_id <$> instances)); [exact Hnd|apply fmap_sublist, sublist_filter]. }
  assert (∀ before i after, order = before ++ i :: after →
    dget (allocation_loop (launch_errors errors) (unassigned_cloud_instances_by_type instances cloud) [] order)
      (instance_id i) = resolution (launch_errors errors) (unassigned_cloud_instances_by_type instances cloud) before i) as Hres.
  { intros before i after E. rewrite E in Hno |- *. apply loop_spec; [done|]. by intros j _ ?%elem_of_nil. }
  unfold resolution in Hres. eexists _, order. split; [done|]. split; [done|].
  split; [apply (sort_by_times request_times)|]. split.
  { intros id [Hid|Hid]%loop_keys; [by apply elem_of_nil in Hid|done]. }
  split; [intros before i after E; by rewrite (Hres before i after E), unassigned_pool|].
  intros Hc id id' u u' Hu Hu' Hs Hs' Hcl.
  assert (∀ id u, dget (allocation_loop (launch_errors errors) (unassigned_cloud_instances_by_type instances cloud) [] order)
    id = Some u → new_instance_status u = ALLOCATED → ∃ before i after c, order = before ++ i :: after ∧ id = instance_id i ∧
    reverse (filter (λ c, ci_node_type c = instance_type i) (unassigned instances cloud)) !! rank_in before i = Some c ∧
    upd_cloud_instance_id u = ci_cloud_instance_id c) as Hpos.
  { clear id id' u u' Hu Hu' Hs Hs' Hcl. intros id u Hu Hs.
    pose proof (dget_elem _ _ _ Hu) as Hk. apply (list_elem_of_fmap_2 fst) in Hk. simpl in Hk.
    apply loop_keys in Hk as [Hk|Hk]; [by apply elem_of_nil in Hk|].
    apply list_elem_of_fmap in Hk as (i & -> & Hi). apply list_elem_of_split in Hi as (before & after & E).
    rewrite (Hres _ _ _ E), unassigned_pool in Hu. destruct (_ !! _) as [c|] eqn:Hl.
    - injection Hu as <-. by exists before, i, after, c.
    - destruct (bool_decide _); [|done]. by injection Hu as <-. }
  destruct (Hpos _ _ Hu Hs) as (b & i & a & c & E & -> & Hl & Hcc).
  destruct (Hpos _ _ Hu' Hs') as (b' & j & a' & c' & E' & -> & Hl' & Hcc').
  f_equal. eapply (pool_distinct instances cloud order b i a b' j a' c c'); try done. congruence.
Qed.

(** ** [_compute_to_launch] *)
Section launch.
Variables (speed : float) (max_launches : Z) (running : dict string (list InstanceMsg)).

(** The limit of a type: at least one, else in proportion to the running. *)
Definition type_limit (ty : string) : result Z :=
  z ← f_ceil (f_mul speed (f_of_int (Z.max (Z.of_nat (length (default [] (dget running ty)))) 1)));
  Ok (Z.max 1 z).

Definition launched_total (d : dict string (list InstanceMsg)) : Z := Z.of_nat (length (concat d.*2)).

(** What is launched of one type, given its queue. *)
Definition launches_of (g e : string * list InstanceMsg) : Prop :=
  e.1 = g.1 ∧ ∃ limit n, type_limit g.1 = Ok limit ∧ e.2 = take n (sort_by earlier_queued g.2) ∧
    (n ≤ length g.2)%nat ∧ Z.of_nat n ≤ limit.

(** A type of which fewer are launched than its limit and queue allow. *)
Definition held_back (g e : string * list InstanceMsg) : Prop :=
  ∃ limit, type_limit g.1 = Ok limit ∧ Z.of_nat (length e.2) < Z.min (Z.of_nat (length g.2)) limit.

Lemma total_cons ty l d : launched_total ((ty, l) :: d) = Z.of_nat (length l) + launched_total d.
Proof. unfold launched_total. cbn [fmap list_fmap snd concat]. rewrite length_app. lia. Qed.

Lemma to_launch_ok requested queued d : to_launch_loop speed max_launches requested running queued = Ok d →
  Forall2 launches_of queued d ∧ requested + launched_total d ≤ Z.max requested max_launches ∧
  (∀ n g e, queued !! n = Some g → d !! n = Some e → held_back g e → max_launches ≤ requested + launched_total d) ∧
  (requested < max_launches → (∃ g, g ∈ queued ∧ g.2 ≠ []) → 0 < launched_total d).
Proof.
  revert requested d. induction queued as [|[ty l] queued IH]; intros requested d H; cbn [to_launch_loop] in H.
  { injection H as <-. split; [constructor|]. unfold launched_total. simpl. split; [lia|]. split; [done|].
    by intros _ (g & ?%elem_of_nil & _). }
  unfold num_to_launch in H.
  destruct (f_ceil _) as [z|] eqn:Hz; [|done]. cbn [mbind result_bind] in H.
  set (n := Z.min _ _) in H.
  destruct (to_launch_loop _ _ (requested + n) _ _) as [rest|] eqn:Hrest; [|done]. injection H as <-.
  destruct (IH _ _ Hrest) as (Hf & Ht & Hh & Hp).
  assert (0 ≤ n ≤ Z.of_nat (length l)) as Hn by lia.
  assert (Z.of_nat (length (take (Z.to_nat n) (sort_by earlier_queued l))) = n) as Hlen.
  { rewrite length_take, (Permutation_length (sort_by_perm earlier_queued l)). lia. }
  assert (type_limit ty = Ok (Z.max 1 z)) as Hlim by (unfold type_limit; by rewrite Hz).
  pose proof (total_cons ty (take (Z.to_nat n) (sort_by earlier_queued l)) rest) as Htot. rewrite Hlen in Htot.
  assert (0 ≤ launched_total rest) as Hpos by (unfold launched_total; lia).
  rewrite Htot. split; [|split; [|split]].
  - constructor; [|done]. split; [done|]. exists (Z.max 1 z), (Z.to_nat n). split; [done|]. split; [done|]. simpl. lia.
  - lia.
  - intros [|k] g e; cbn [lookup list_lookup].
    + intros [= <-] [= <-] (lim & Hlim' & Hlt). cbn [fst snd] in Hlim', Hlt. rewrite Hlim in Hlim'.
      injection Hlim' as <-. rewrite Hlen in Hlt. lia.
    + intros Hg He Hb. specialize (Hh k g e Hg He Hb). lia.
  - intros Hlt (g & [->|Hg]%elem_of_cons & Hne); [destruct l; [done|simpl in *; lia]|].
    destruct (decide (0 < n)); [lia|]. assert (n = 0) as E by lia. rewrite E in *.
    rewrite Z.add_0_r in *. assert (0 < launched_total rest) by (apply Hp; [lia|by exists g]). lia.
Qed.
End launch.

(** C22: How many queued instances are requested from the cloud at once.  With
    those already requested they stay within [max_concurrent_launches] (if
    those alone do); of each type at most [upscaling_speed] times the running
    instances of the type, rounded up, and at least one may be; the earliest
    queued go first; a type gets fewer than its queue and its limit allow only
    when the global limit is reached; and some are launched unless it was
    reached before. *)
Theorem launch_limits (queued requested running : list InstanceMsg) (speed : float) (max_launches : Z)
    (d : dict string (list InstanceMsg)) :
  _compute_to_launch queued requested running speed max_launches = Ok d →
  let limit := type_limit speed (group_of instance_type running) in
  let total := Z.of_nat (length requested) + launched_total d in
  dwf d ∧ (∀ ty, ty ∈ d.*1 ↔ ty ∈ map instance_type queued) ∧
  total ≤ Z.max (Z.of_nat (length requested)) max_launches ∧
  (∀ ty l, dget d ty = Some l → ∃ rest lim, l ++ rest ≡ₚ filter (λ i, instance_type i = ty) queued ∧
     StronglySorted (λ i j, times_le (queue_times i) (queue_times j)) (l ++ rest) ∧
     limit ty = Ok lim ∧ Z.of_nat (length l) ≤ lim ∧
     (rest ≠ [] → Z.of_nat (length l) < lim → max_launches ≤ total)) ∧
  (queued ≠ [] → Z.of_nat (length requested) < max_launches → 0 < launched_total d).
Proof.
  intros H limit total. destruct (to_launch_ok _ _ _ _ _ _ H) as (Hf & Ht & Hh & Hp).
  change (_group_by_type ?l) with (group_of instance_type l) in *.
  destruct (group_of_spec instance_type queued) as (Hw & _ & Hk).
  assert (d.*1 = (group_of instance_type queued).*1) as Hkeys.
  { clear -Hf. induction Hf as [|g e gs es [Hge _] _ IH]; [done|]. rewrite !fmap_cons. by rewrite Hge, IH. }
  split; [unfold dwf; by rewrite Hkeys|]. split; [by rewrite Hkeys|]. split; [exact Ht|]. split.
  - intros ty l Hl. apply dget_elem, list_elem_of_lookup in Hl as [n Hn].
    destruct (Forall2_lookup_r _ _ _ _ _ Hf Hn) as ([ty' k] & Hg & Hty & lim & m & Hlim & Htake & Hm & Hle).
    cbn [fst snd] in *. subst ty' l.
    destruct (group_of_elem instance_type queued ty k) as [-> _]; [by eapply list_elem_of_lookup_2|].
    set (k := filter _ queued) in *. exists (drop m (sort_by earlier_queued k)), lim.
    rewrite take_drop. split; [apply sort_by_perm|]. split; [apply (sort_by_times queue_times)|].
    split; [done|]. pose proof (Permutation_length (sort_by_perm earlier_queued k)) as Hlen.
    rewrite length_take. split; [lia|]. intros Hr Hlt. apply (Hh n _ _ Hg Hn). exists lim. split; [done|].
    cbn [fst snd]. rewrite length_take.
    destruct (decide (length k ≤ m)%nat) as [Hge|]; [destruct Hr; apply drop_ge; lia|lia].
  - intros Hne Hlt. apply Hp; [done|]. destruct queued as [|i q]; [done|].
    assert (instance_type i ∈ (group_of instance_type (i :: q)).*1) as ([ty k] & _ & Hin)%list_elem_of_fmap
      by (apply Hk; left).
    exists (ty, k). split; [done|]. by destruct (group_of_elem _ _ _ _ Hin).
Qed.
