(* ===== verification/ReconcilerSync.v ===== *)
(** * The reconciler: syncing the records never raises

    What the cloud provider and the Ray cluster report is fit ([cloud_ok],
    [nodes_ok]); each handler of [_sync_from] then returns, and its updates
    lead to the statuses listed with it. *)
From S2P Require Import Prelude PyDict PyFloat InstanceUtil InstanceUtilFacts Storage StorageFacts.
From S2P Require Import InstanceManager InstanceManagerFacts SchedNode Scheduler SchedulerFacts Reconciler ReconcilerFacts.
From S2P Require Import ReconcilerUpdates ReconcilerInv ReconcilerAlloc.
Import Reconciler.

(** ** What is reported *)

(** Cloud instances listed by their ids, each with a type and a kind. *)
Definition good_instance (c : CloudInstance) : Prop :=
  ci_cloud_instance_id c ≠ "" ∧ ci_node_kind c ∈ [WORKER; HEAD] ∧ ci_node_type c ≠ "".

Definition cloud_ok (cloud : dict string CloudInstance) : Prop :=
  cloud_ids_ok cloud ∧ ∀ k c, (k, c) ∈ cloud → good_instance c.

(** Ray nodes with an id and a status; a node of a cloud instance has a type. *)
Definition node_ok (n : RayNode) : Prop :=
  hex_id n ≠ "" ∧ rn_status n ≠ NodeStatus.UNSPECIFIED ∧
  (rn_instance_id n ≠ "" → rn_node_type_name n ≠ "").

(** ** Which status a Ray node gives its record *)

(** The statuses of a record that a Ray node's status may meet. *)
Definition joined_statuses : list InstanceStatus :=
  [ALLOCATED; RAY_RUNNING; RAY_STOP_REQUESTED; RAY_STOPPING; RAY_STOPPED; TERMINATING; TERMINATED; TERMINATION_FAILED].

Lemma ray_fits r cur : r ≠ NodeStatus.UNSPECIFIED → cur ∈ joined_statuses → ¬ ray_conflict r cur.
Proof.
  intros Hr Hc. unfold joined_statuses in Hc.
  assert (∃ s, _reconciled_im_status_from_ray_status r cur = Ok s ∧
    bool_decide (s = cur ∨ s ∈ InstanceUtil.get_valid_transitions cur) = true) as (s & Hs & Hok%bool_decide_eq_true).
  { destruct r; [done|..]; set_unfold in Hc; destruct_or?; subst; eexists; (split; [vm_compute; reflexivity|reflexivity]). }
  unfold ray_conflict. rewrite Hs. tauto.
Qed.

(** ** Allocation *)
Lemma resolve_ok max i un errors l : (∀ ty c, c ∈ default [] (dget un ty) → good_instance c) →
  i ∈ l → status i = REQUESTED →
  let r := _try_resolve_pending_allocation i un errors in
  (∀ u, r.1 = Some u → moves max l [REQUESTED] [ALLOCATED; ALLOCATION_FAILED] u) ∧
  ∀ ty c, c ∈ default [] (dget r.2 ty) → good_instance c.
Proof.
  intros Hun Hi Hs. unfold _try_resolve_pending_allocation. destruct (last _) as [c|] eqn:Hl.
  - cbn [fst snd]. split.
    + intros u [= <-]. apply last_Some_elem_of, Hun in Hl as (H1 & H2 & H3). exists i. split; [done|].
      split; [|split; set_solver]. split; [done|]. cbn [new_instance_status]. rewrite Hs. split; [set_solver|]. by split.
    + intros ty d. rewrite dget_dset. case_decide as E; [|apply Hun]. simpl. intros Hd%elem_of_take.
      destruct Hd as (k & Hd & _). apply list_elem_of_lookup_2 in Hd. by eapply Hun.
  - assert (∀ o : option InstanceUpdateEvent, (∀ u, o = Some u → u = update_event (instance_id i) ALLOCATION_FAILED "" "" "") →
      (∀ u, o = Some u → moves max l [REQUESTED] [ALLOCATED; ALLOCATION_FAILED] u)) as Ho.
    { intros o H u ->%H. exists i. split; [done|]. split; [|split; set_solver].
      apply plain_update_ok; [rewrite Hs|]; set_solver. }
    destruct (dget errors _); [destruct (bool_decide _)|]; (split; [apply Ho; cbn [fst]; by intros u [= <-]|exact Hun]).
Qed.

Lemma allocation_loop_ok max errors un ups l l' : (∀ ty c, c ∈ default [] (dget un ty) → good_instance c) →
  (∀ i, i ∈ l' → i ∈ l ∧ status i = REQUESTED) →
  values (moves max l [REQUESTED] [ALLOCATED; ALLOCATION_FAILED]) ups →
  values (moves max l [REQUESTED] [ALLOCATED; ALLOCATION_FAILED]) (allocation_loop errors un ups l').
Proof.
  revert un ups. induction l' as [|i l' IH]; intros un ups Hun Hl' Hu; [done|]. cbn [allocation_loop].
  destruct (Hl' i) as [Hi Hs]; [left|]. destruct (resolve_ok max i un errors l Hun Hi Hs) as [H1 H2].
  destruct (_try_resolve_pending_allocation i un errors) as [u un']. cbn [fst snd] in *.
  apply IH; [done|intros j Hj; apply Hl'; by right|]. destruct u as [u|]; [|done]. apply values_dset; [done|by apply H1].
Qed.

Lemma allocation_updates_ok max l cloud errors : (∀ i, i ∈ l → row_ok max i) → cloud_ok cloud →
  ∃ ups, allocation_updates cloud errors l = Ok ups ∧
    values (moves max l [REQUESTED] [ALLOCATED; ALLOCATION_FAILED]) ups.
Proof.
  intros Hl [_ Hc]. unfold allocation_updates. set (requested := filter _ l).
  assert (∀ i, i ∈ requested → i ∈ l ∧ status i = REQUESTED) as Hin by by intros i [? ?]%list_elem_of_filter.
  assert (forallb (λ i, truthy (launch_request_id i)) requested = true) as ->.
  { apply forallb_forall. intros i [Hi Hs]%list_elem_of_In%Hin. apply truthy_ne. specialize (Hl i Hi).
    unfold row_ok in Hl. rewrite Hs in Hl. tauto. }
  eexists. split; [done|]. apply allocation_loop_ok; [|intros i; rewrite sort_by_perm; apply Hin|apply values_nil].
  intros ty c. rewrite unassigned_pool. intros [_ Hu]%list_elem_of_filter.
  apply list_elem_of_fmap in Hu as ([k d] & -> & [_ Hd]%list_elem_of_filter). by eapply Hc.
Qed.

(** ** Handlers *)
Section world.
Context {St V Sub : Type} `{!Storage St V, !InstanceCodec V}.
Context `{!StorageLaws (St:=St) (V:=V), !InstanceCodecLaws V}.
Variables (im : InstanceManager.t Sub) (clock : nat → Z) (random_id : nat → string) (max : Z).
Context `{!Inj eq eq random_id}.
Hypothesis (Hmax : 0 ≤ max).
Implicit Types (w : world (St:=St) (Sub:=Sub)) (i : InstanceMsg) (id : string) (ups : updates_t).

Abbreviation inv := (inv im random_id max).
Abbreviation row := (row im).
Abbreviation rows := (rows im).
Abbreviation world := (world (St:=St) (Sub:=Sub)).
Abbreviation wp := (wp im random_id max).
Abbreviation only_to := (only_to im).

(** All records satisfy [P]. *)
Definition all_rows (P : InstanceMsg → Prop) w : Prop := ∀ id i, row w id = Some i → P i.

Lemma all_rows_only_to P to w w' : all_rows P w → only_to to w w' → (∀ i, status i ∈ to → P i) → all_rows P w'.
Proof. intros Hw Ho Hto id i Hi. destruct (Ho id i Hi) as [Hold|Hs]; [by eapply Hw|by apply Hto]. Qed.

Lemma all_rows_in P w i : inv w → all_rows P w → i ∈ rows w → P i.
Proof. intros Hw Hp Hi. apply (rows_spec im random_id max) in Hi; [|done]. by eapply Hp. Qed.

Lemma row_of w i : inv w → i ∈ rows w → row_ok max i.
Proof. intros Hw Hi. by apply (rows_ok im random_id max w). Qed.

(** A handler whose updates are acceptable and lead to [to]. *)
Lemma handle_wp f w to : inv w →
  (∃ ups, f (rows w) = Ok ups ∧ values (λ u, ∃ i, i ∈ rows w ∧ update_ok max i u ∧ new_instance_status u ∈ to) ups) →
  wp never (handle im clock f) w (λ _, only_to to w).
Proof.
  intros Hw (ups & Hf & Hv). destruct (handle_fine im clock random_id max f w ups Hw Hmax Hf) as (w' & Hw' & Hinv & _ & Hm).
  { intros u Hu. destruct (Hv u Hu) as (i & Hi & Hok & _). eauto. }
  unfold ReconcilerInv.wp. rewrite Hw'. split; [done|]. eapply moved_only_to; [exact Hw|exact Hm|].
  intros u Hu. by destruct (Hv u Hu) as (_ & _ & _ & ?).
Qed.

(** The same for updates from given statuses. *)
Lemma handle_moves_wp f w from to : inv w →
  (∃ ups, f (rows w) = Ok ups ∧ values (moves max (rows w) from to) ups) →
  wp never (handle im clock f) w (λ _, only_to to w).
Proof.
  intros Hw (ups & Hf & Hv). apply handle_wp; [done|]. exists ups. split; [done|].
  intros u Hu. destruct (Hv u Hu) as (i & Hi & Hok & _ & Hto). eauto.
Qed.

(** Every record stays as it is. *)
Definition extends w w' : Prop := ∀ id i, row w id = Some i → row w' id = Some i.

(** A request that creates records and no more. *)
Lemma create_wp w0 w ups : inv w0 → inv w → drawn random_id (λ _, False) create_ok w0 ups w →
  values (λ u, new_instance_status u = ALLOCATED) ups →
  wp never (_update_instance_manager im clock (storage_get_version (w_storage w0)) ups) w
    (λ _ w', only_to [ALLOCATED] w0 w' ∧ extends w0 w' ∧ ∀ id, moved im clock w0 w' ups id).
Proof.
  intros Hw0 Hw [Hl Hd] Hs. eapply wp_mono; [apply (update_wp im clock random_id max Hmax w0 w ups Hw0 Hw)|done|].
  - split; [done|]. intros u Hu. destruct (Hd u Hu) as [[]|]. by right.
  - intros ? w' _ Hm. split; [|split; [|done]].
    + eapply moved_only_to; [done|exact Hm|]. intros u Hu. rewrite (Hs u Hu). set_solver.
    + intros id i Hi. destruct (Hm id) as [(u & n & v & j & Hu & Hid & _)|[_ ->]]; [|done].
      destruct (Hd u Hu) as [[]|(_ & k & Hk & Hidk)]. rewrite Hid in Hidk.
      destruct (inv_fresh _ _ _ _ Hw0 k) as [_ Hfr]; [lia|]. rewrite <-Hidk in Hfr.
      change (row w0 id = None) in Hfr. congruence.
Qed.

(** *** Extra cloud instances *)

(** The record of the Ray node [n] can be found. *)
Definition known w (n : RayNode) : Prop :=
  ∃ i, i ∈ rows w ∧ (node_id i = hex_id n ∨ holds_cloud i = true ∧ cloud_instance_id i = rn_instance_id n).

Lemma extends_rows w w' i : inv w → inv w' → extends w w' → i ∈ rows w → i ∈ rows w'.
Proof.
  intros Hw Hw' He Hi. apply (rows_spec im random_id max) in Hi; [|done].
  apply (rows_spec im random_id max); [done|]. by apply He.
Qed.

Lemma known_extends w w' n : inv w → inv w' → extends w w' → known w n → known w' n.
Proof. intros Hw Hw' He (i & Hi & Hn). exists i. split; [by apply (extends_rows w)|done]. Qed.

(** The creations for the Ray nodes [done]: each has its own id. *)
Definition extra_ray w0 (nodes : list RayNode) (d : updates_t) w : Prop :=
  drawn random_id (λ _, False) create_ok w0 d w ∧
  (∀ k u, (k, u) ∈ d → new_instance_status u = ALLOCATED ∧ upd_ray_node_id u = k) ∧
  (∀ u v, u ∈ d.*2 → v ∈ d.*2 → upd_instance_id u = upd_instance_id v → u = v) ∧
  ∀ n, n ∈ nodes → rn_instance_id n ≠ "" → known w0 n ∨ hex_id n ∈ d.*1.

Lemma extra_ray_new w0 nodes d w w' n : inv w0 → extra_ray w0 nodes d w → node_ok n → rn_instance_id n ≠ "" →
  later w w' → w_ids w' = S (w_ids w) →
  extra_ray w0 (nodes ++ [n]) (dset d (hex_id n) (created_event (random_id (w_ids w)) (rn_instance_id n) (hex_id n)
    (rn_node_type_name n) ("allocated unmanaged worker cloud instance from ray node: " +:+ hex_id n)
    (if is_head_node n then HEAD else WORKER))) w'.
Proof.
  intros Hw0 (Hd & Hk & Hinj & Hdone) (Hhex & _ & Hty) Hne Hl Hids. set (u := created_event _ _ _ _ _ _).
  assert (∀ v, v ∈ d.*2 → upd_instance_id v ≠ upd_instance_id u) as Hnew.
  { intros v Hv E. destruct Hd as [_ Hd]. destruct (Hd v Hv) as [[]|(_ & m & Hm & Hid)]. rewrite E in Hid.
    cbn [upd_instance_id created_event u] in Hid. apply (inj random_id) in Hid. lia. }
  split; [|split; [|split]].
  - apply (drawn_dset _ _ _ _ _ w); try done. split; [done|]. split; [|by left]. cbn. split; [done|].
    split; [destruct (is_head_node n); set_solver|by apply Hty].
  - intros k v [[-> ->]|Hin]%dset_elem; [done|by apply Hk].
  - assert (∀ v, v ∈ (dset d (hex_id n) u).*2 → v = u ∨ v ∈ d.*2) as Hcase.
    { intros v ([k x] & -> & [[_ ->]|Hin]%dset_elem)%list_elem_of_fmap; [by left|right].
      by apply (list_elem_of_fmap_2 snd) in Hin. }
    intros v v' [->|Hv]%Hcase [->|Hv']%Hcase E; [done| | |by apply Hinj].
    + by destruct (Hnew v' Hv').
    + by destruct (Hnew v Hv).
  - intros n' [Hn'|Hn'%list_elem_of_singleton]%elem_of_app Hne'.
    + destruct (Hdone n' Hn' Hne') as [|Hin]; [by left|]. right. apply dset_keys_elem. by right.
    + subst n'. right. apply dset_keys_elem. by left.
Qed.

Lemma extra_ray_skip w0 nodes d w n : extra_ray w0 nodes d w → (rn_instance_id n ≠ "" → known w0 n) →
  extra_ray w0 (nodes ++ [n]) d w.
Proof.
  intros (Hd & Hk & Hinj & Hdone) Hn. split_and!; [done..|].
  intros n' [Hn'|Hn'%list_elem_of_singleton]%elem_of_app Hne; [by apply Hdone|]. subst n'. left. by apply Hn.
Qed.

(** The record created for a Ray node is found again. *)
Lemma extra_ray_known w0 nodes d w w' n : inv w0 → inv w' → extra_ray w0 nodes d w → extends w0 w' →
  (∀ id, moved im clock w0 w' d id) → n ∈ nodes → rn_instance_id n ≠ "" → known w' n.
Proof.
  intros Hw0 Hw' ((Hl & Hd) & Hk & Hinj & Hdone) He Hm Hn Hne.
  destruct (Hdone n Hn Hne) as [|([k u] & E & Hin)%list_elem_of_fmap]; [by apply (known_extends w0)|].
  simpl in E. subst k. destruct (Hk _ _ Hin) as [Hs Hray].
  assert (u ∈ d.*2) as Hu by by apply (list_elem_of_fmap_2 snd) in Hin.
  destruct (Hm (upd_instance_id u)) as [(u' & t & v & j & Hu' & Hid & Hj & Hrow)|[Hno _]]; [|by destruct (Hno u Hu)].
  apply Hinj in Hid as ->; [|done|done]. destruct (Hd u Hu) as [[]|(_ & m & Hm' & Hidu)].
  destruct (inv_fresh _ _ _ _ Hw0 m) as [_ Hfr]; [lia|]. rewrite <-Hidu in Hfr. rewrite Hfr in Hj.
  simpl in Hj. unfold InstanceManager._create_instance in Hj. inv_ok. pose proof (applied_carries _ _ _ Hj) as Hc.
  destruct (apply_ok (InstanceUtil.new_instance (clock t) (upd_instance_id u) (upd_instance_type u)
    (new_instance_status u) (upd_details u)) u Hc) as (j' & Hj' & _ & _ & Hij & Hf). rewrite Hj in Hj'. injection Hj' as <-.
  rewrite Hs in Hf. destruct Hf as [_ Hf]. exists (InstanceUtil.set_version v j). split.
  - apply (rows_spec im random_id max); [done|]. change (row w' (instance_id j) = Some (InstanceUtil.set_version v j)).
    by rewrite Hij.
  - left. change (node_id j = hex_id n). congruence.
Qed.

Lemma extra_ray_wp ray_nodes w : inv w → (∀ n, n ∈ ray_nodes → node_ok n) →
  wp never (_handle_extra_cloud_instances_from_ray_nodes im clock random_id ray_nodes) w
    (λ _ w', only_to [ALLOCATED] w w' ∧ ∀ n, n ∈ ray_nodes → rn_instance_id n ≠ "" → known w' n).
Proof.
  intros Hw Hn. unfold _handle_extra_cloud_instances_from_ray_nodes.
  eapply (wp_bind _ _ _ _ _ _ _ (λ p w', p = (rows w, storage_get_version (w_storage w)) ∧ w' = w)); [by apply wp_get|].
  intros p w0 _ [-> ->]. cbn [fst snd]. eapply (wp_bind _ _ _ _ _ _ _ (λ d w', extra_ray w ray_nodes d w')).
  - apply (wp_fold_prefix _ _ _ _ (extra_ray w)); [done| |].
    { split; [by apply drawn_start, values_nil|]. split; [by intros ? ? ?%elem_of_nil|].
      split; [by intros ? ? ?%elem_of_nil|by intros ? ?%elem_of_nil]. }
    intros nodes d n w1 Hin Hw1 Hd. destruct (truthy (rn_instance_id n)) eqn:Ht; cbn [negb].
    2: { apply wp_ret; [done|]. apply extra_ray_skip; [done|]. intros Hne%truthy_ne. congruence. }
    apply truthy_ne in Ht. case_bool_decide as Hray; [|case_bool_decide as Hcl].
    + apply wp_ret; [done|]. apply extra_ray_skip; [done|]. intros _.
      apply list_elem_of_fmap in Hray as (i & E & [_ Hi]%list_elem_of_filter). exists i. split; [done|by left].
    + apply wp_ret; [done|]. apply extra_ray_skip; [done|]. intros _.
      apply list_elem_of_fmap in Hcl as (i & E & [[Hh _] Hi]%list_elem_of_filter). exists i. split; [done|].
      right. split; [by apply Is_true_true|done].
    + eapply wp_bind; [by apply wp_new_id|]. intros id w2 Hw2 (Hl & Hids & ->). apply wp_ret; [done|].
      apply (extra_ray_new w nodes d w1); try done. by apply Hn.
  - intros d w1 Hw1 Hd. eapply wp_mono; [apply (create_wp w w1 d); [done|done|apply Hd|]|done|].
    + intros u ([k v] & -> & Hin)%list_elem_of_fmap. by apply Hd in Hin as [? _].
    + intros ? w' Hw' (Ho & He & Hm). split; [done|]. intros n Hin Hne. by eapply (extra_ray_known w ray_nodes d w1).
Qed.

Lemma extra_cloud_wp cloud w : inv w → cloud_ok cloud →
  wp never (_handle_extra_cloud_instances_from_cloud_provider im clock random_id cloud) w
    (λ _ w', only_to [ALLOCATED] w w' ∧ extends w w').
Proof.
  intros Hw [[_ Hkey] Hc]. unfold _handle_extra_cloud_instances_from_cloud_provider.
  eapply (wp_bind _ _ _ _ _ _ _ (λ p w', p = (rows w, storage_get_version (w_storage w)) ∧ w' = w)); [by apply wp_get|].
  intros p w0 _ [-> ->]. cbn [fst snd].
  eapply (wp_bind _ _ _ _ _ _ _ (λ d w', drawn random_id (λ _, False) create_ok w d w' ∧
    values (λ u, new_instance_status u = ALLOCATED) d)).
  - apply wp_fold; [done|split; [by apply drawn_start, values_nil|apply values_nil]|].
    intros d [k c] w1 Hin Hw1 [Hd Hs]. cbn [fst snd]. case_bool_decide; [by apply wp_ret|].
    eapply wp_bind; [by apply wp_new_id|]. intros id w2 Hw2 (Hl & Hids & ->). apply wp_ret; [done|].
    destruct (Hc k c Hin) as (H1 & H2 & H3). split; [|by apply values_dset].
    apply (drawn_dset _ _ _ _ _ w1); try done. split; [done|]. split; [|by left]. cbn.
    by rewrite <-(Hkey k c Hin).
  - intros d w1 Hw1 [Hd Hs]. eapply wp_mono; [by apply (create_wp w w1 d)|done|]. intros ? w' _ (Ho & He & _). done.
Qed.

(** *** Ray nodes *)

(** A record that no Ray node's status conflicts with. *)
Definition settled i : Prop := status i ∉ [RAY_INSTALLING; ALLOCATION_TIMEOUT; RAY_INSTALL_FAILED].

Lemma settled_joined i : row_ok max i → settled i → node_id i ≠ "" ∨ holds_cloud i = true → status i ∈ joined_statuses.
Proof.
  unfold row_ok, settled, joined_statuses, holds_cloud. rewrite andb_true_iff, truthy_ne.
  intros Hr Hs Hn. destruct (status i); set_solver.
Qed.

Lemma known_found w p n : inv w → p ≠ Provider.READ_ONLY → hex_id n ≠ "" → (rn_instance_id n ≠ "" → known w n) →
  ∃ o, instance_of_ray_node p (by_cloud (rows w)) (by_ray (rows w)) n = Ok o ∧
    ∀ i, o = Some i → i ∈ rows w ∧ (node_id i ≠ "" ∨ holds_cloud i = true).
Proof.
  intros Hw Hp Hhex Hk. unfold instance_of_ray_node. destruct (dget (by_ray (rows w)) (hex_id n)) as [i|] eqn:Er.
  { eexists. split; [done|]. intros ? [= <-]. apply dget_elem, dict_filter_elem in Er as (E & _ & Hi).
    split; [done|]. left. congruence. }
  rewrite bool_decide_eq_false_2 by done. destruct (truthy (rn_instance_id n)) eqn:Ht; [|by eexists].
  apply truthy_ne in Ht. destruct (Hk Ht) as (i & Hi & Hn).
  destruct (dget (by_cloud (rows w)) (rn_instance_id n)) as [j|] eqn:Ec.
  { eexists. split; [done|]. intros ? [= <-]. apply dget_elem, dict_filter_elem in Ec as (E & Hh & Hj).
    split; [done|]. right. by apply Is_true_true. }
  exfalso. destruct Hn as [Hn|[Hh Hn]].
  - apply dget_None in Er. apply Er, dict_of_keys_elem, list_elem_of_fmap. exists (hex_id n, i). split; [done|].
    apply list_elem_of_fmap. exists i. rewrite Hn. split; [done|]. apply list_elem_of_filter.
    split; [|done]. apply is_truthy. by rewrite Hn.
  - apply dget_None in Ec. apply Ec, dict_of_keys_elem, list_elem_of_fmap. exists (rn_instance_id n, i). split; [done|].
    apply list_elem_of_fmap. exists i. rewrite Hn. split; [done|]. apply list_elem_of_filter. by rewrite Hh.
Qed.

Lemma ray_status_wp ray_nodes cfg w : inv w → provider cfg ≠ Provider.READ_ONLY →
  (∀ n, n ∈ ray_nodes → node_ok n) → (∀ n, n ∈ ray_nodes → rn_instance_id n ≠ "" → known w n) → all_rows settled w →
  wp never (_handle_ray_status_transition im clock ray_nodes cfg) w (λ _, only_to [RAY_RUNNING; RAY_STOPPED; RAY_STOPPING] w).
Proof.
  intros Hw Hp Hn Hk Hs. apply handle_wp; [done|]. apply ray_status_updates_ok; [intros i; by apply row_of|].
  intros n Hin. destruct (Hn n Hin) as (Hhex & Hst & _). split; [done|].
  destruct (known_found w (provider cfg) n Hw Hp Hhex (Hk n Hin)) as (o & Ho & Hf). exists o. split; [done|].
  intros i Hi. destruct (Hf i Hi) as [Hr Hj]. apply ray_fits; [done|].
  apply settled_joined; [by apply (row_of w)|by apply (all_rows_in settled w)|done].
Qed.

(** *** [_sync_from] *)

(** A Ray node that failed to stop is alive. *)
Definition stop_error_ok (errors : list RayStopError) (ray_nodes : list RayNode) i : Prop :=
  status i = RAY_STOP_REQUESTED → instance_id i ∈ map rse_im_instance_id errors →
  ∃ n, node_of ray_nodes (node_id i) = Some n ∧ alive n.

Lemma stop_failed_wp errors ray_nodes w : inv w → all_rows (stop_error_ok errors ray_nodes) w →
  wp never (_handle_ray_stop_failed im clock errors ray_nodes) w (λ _, only_to [RAY_RUNNING] w).
Proof.
  intros Hw Hs. eapply handle_moves_wp; [done|]. apply stop_failed_updates_ok; [intros i; by apply row_of|].
  intros i Hi. by apply (all_rows_in (stop_error_ok errors ray_nodes) w).
Qed.

Lemma terminated_wp cloud w : inv w → wp never (_handle_cloud_instance_terminated im clock cloud) w (λ _, only_to [TERMINATED] w).
Proof.
  intros Hw. apply handle_wp; [done|].
  destruct (terminated_updates_ok max (rows w) ltac:(intros i; by apply row_of) cloud) as (ups & Hf & Hv).
  exists ups. split; [done|]. intros u Hu. destruct (Hv u Hu) as (i & Hi & Hok & Hs & _). exists i. rewrite Hs. set_solver.
Qed.

Lemma wp_never {A} E (m : M (St:=St) (Sub:=Sub) A) w Q : wp never m w Q → wp E m w Q.
Proof. intros Hm. eapply wp_mono; [exact Hm|by intros ? []|done]. Qed.

(** A handler in a sequence: its updates lead to statuses that satisfy [P]. *)
Lemma wp_seq {A B} E (P : InstanceMsg → Prop) to (m : M (St:=St) (Sub:=Sub) A) (f : A → M (St:=St) (Sub:=Sub) B) w R :
  wp E m w (λ _, only_to to w) → all_rows P w → (∀ i, status i ∈ to → P i) →
  (∀ a w', inv w' → all_rows P w' → wp E (f a) w' R) → wp E (m ≫= f) w R.
Proof.
  intros Hm Hp Hto Hf. eapply wp_bind; [exact Hm|]. intros a w' Hw' Ho. apply Hf; [done|].
  by apply (all_rows_only_to P to w).
Qed.

(** What every handler before the install errors keeps. *)
Definition steady errors ray_nodes i : Prop := settled i ∧ stop_error_ok errors ray_nodes i.

Lemma steady_to errors ray_nodes (to : list InstanceStatus) i : RAY_STOP_REQUESTED ∉ to → RAY_INSTALLING ∉ to →
  ALLOCATION_TIMEOUT ∉ to → RAY_INSTALL_FAILED ∉ to → status i ∈ to → steady errors ray_nodes i.
Proof.
  intros ? ? ? ? Hi. split; [unfold settled; set_unfold; intros ?; destruct_or?; congruence|].
  intros Hr. congruence.
Qed.

Lemma extra_wp ray_nodes cloud w : inv w → cloud_ok cloud → (∀ n, n ∈ ray_nodes → node_ok n) →
  wp never (_handle_extra_cloud_instances im clock random_id cloud ray_nodes) w
    (λ _ w', only_to [ALLOCATED] w w' ∧ ∀ n, n ∈ ray_nodes → rn_instance_id n ≠ "" → known w' n).
Proof.
  intros Hw Hc Hn. eapply wp_bind; [by apply extra_ray_wp|]. intros _ w1 Hw1 [Ho1 Hk1].
  eapply wp_mono; [by apply extra_cloud_wp|done|]. intros ? w2 Hw2 [Ho2 He2]. split.
  - intros id j Hj. destruct (Ho2 id j Hj) as [Hold|]; [by apply Ho1|by right].
  - intros n Hin Hne. apply (known_extends w1); auto.
Qed.

Lemma sync_wp ray_nodes cloud provider_errors install_errors stop_errors cfg w : inv w →
  cloud_ok cloud → (∀ n, n ∈ ray_nodes → node_ok n) → provider cfg ≠ Provider.READ_ONLY →
  all_rows (steady stop_errors ray_nodes) w →
  wp never (_sync_from im clock random_id ray_nodes cloud provider_errors install_errors stop_errors cfg) w
    (λ _, all_rows (λ i, status i ≠ RAY_INSTALLING)).
Proof.
  intros Hw Hc Hn Hp HP. unfold _sync_from.
  apply (wp_seq never (steady stop_errors ray_nodes) [ALLOCATED; ALLOCATION_FAILED]); [|done|intros i; apply steady_to; set_solver|].
  { eapply handle_moves_wp; [done|]. apply allocation_updates_ok; [intros i; by apply row_of|done]. }
  clear w Hw HP. intros _ w Hw HP.
  apply (wp_seq never (steady stop_errors ray_nodes) [TERMINATED]); [by apply terminated_wp|done|intros i; apply steady_to; set_solver|].
  clear w Hw HP. intros _ w Hw HP.
  apply (wp_seq never (steady stop_errors ray_nodes) [TERMINATION_FAILED]); [|done|intros i; apply steady_to; set_solver|].
  { eapply handle_moves_wp; [done|]. apply termination_error_updates_ok. }
  clear w Hw HP. intros _ w Hw HP. eapply wp_bind; [by apply extra_wp|]. intros _ w1 Hw1 [Ho1 Hk1].
  eapply all_rows_only_to in Ho1; [|exact HP|intros i; apply steady_to; set_solver]. clear w Hw HP.
  apply (wp_seq never (steady stop_errors ray_nodes) [RAY_RUNNING; RAY_STOPPED; RAY_STOPPING]); [|done|intros i; apply steady_to; set_solver|].
  { apply ray_status_wp; try done. intros id i Hi. by eapply Ho1. }
  clear w1 Hw1 Hk1 Ho1. intros _ w Hw HP.
  apply (wp_seq never (λ i, status i ≠ RAY_INSTALLING ∧ stop_error_ok stop_errors ray_nodes i) [RAY_INSTALL_FAILED]).
  { eapply handle_moves_wp; [done|]. apply install_failed_updates_ok. }
  { intros id i Hi. destruct (HP id i Hi) as [Hs Ht]. split; [unfold settled in Hs; set_solver|done]. }
  { intros i Hi%list_elem_of_singleton. rewrite Hi. split; [done|]. intros ?. congruence. }
  clear w Hw HP. intros _ w Hw HP. eapply wp_mono; [apply stop_failed_wp; [done|]|done|].
  - intros id i Hi. by eapply HP.
  - intros ? w' _ Ho. apply (all_rows_only_to _ [RAY_RUNNING] w); [|done|].
    + intros id i Hi. by eapply HP.
    + intros i Hi%list_elem_of_singleton. by rewrite Hi.
Qed.
End world.
