(* ===== verification/ReconcilerStep.v ===== *)
(** * The reconciler: taking the next steps never raises

    The scheduler's replies are fit ([reply_ok]); each handler of [_step_next]
    then returns, but for a launch rate that is no finite number. *)
From S2P Require Import Prelude PyDict PyFloat InstanceUtil InstanceUtilFacts Storage StorageFacts.
From S2P Require Import InstanceManager InstanceManagerFacts SchedNode Scheduler SchedulerFacts SchedulerInv Reconciler ReconcilerFacts.
From S2P Require Import ReconcilerUpdates ReconcilerInv ReconcilerRounds ReconcilerAlloc ReconcilerSync.
Import Reconciler.

(** ** Terminating *)

(** The cloud instances of the active records. *)
Definition active_cloud (l : list InstanceMsg) : list string :=
  map cloud_instance_id (filter (λ i, truthy (cloud_instance_id i) ∧ status i ∉ inactive_statuses) l).

(** The update of one record. *)
Definition termination (l : list InstanceMsg) (i : InstanceMsg) : option InstanceUpdateEvent :=
  if bool_decide (status i ∉ statuses_to_terminate) then None
  else if bool_decide (status i = RAY_STOPPED) && bool_decide (cloud_instance_id i ∈ active_cloud l)
  then Some (update_event (instance_id i) TERMINATED "" "" "")
  else Some (update_event (instance_id i) TERMINATING "" (cloud_instance_id i) "").

Section by_id.
Variables (g : InstanceMsg → option InstanceUpdateEvent).

Definition set_by_id (d : updates_t) (i : InstanceMsg) : updates_t :=
  match g i with Some u => dset d (instance_id i) u | None => d end.

Lemma dget_by_id l d i : NoDup (map instance_id l) → i ∈ l →
  dget (foldl set_by_id d l) (instance_id i) = match g i with Some u => Some u | None => dget d (instance_id i) end.
Proof.
  assert (∀ l d id, id ∉ map instance_id l → dget (foldl set_by_id d l) id = dget d id) as Hother.
  { clear. induction l as [|j l IH]; intros d id Hid; [done|]. simpl in Hid. cbn [foldl]. rewrite IH by set_solver.
    unfold set_by_id. destruct (g j); [|done]. apply dget_dset_ne. set_solver. }
  revert d. induction l as [|j l IH]; intros d Hnd Hi; [by apply elem_of_nil in Hi|].
  cbn [map] in Hnd. apply NoDup_cons in Hnd as [Hj Hnd]. cbn [foldl]. apply elem_of_cons in Hi as [->|Hi].
  - rewrite Hother by done. unfold set_by_id. destruct (g j); [apply dget_dset_eq|done].
  - rewrite IH by done. destruct (g i); [done|]. unfold set_by_id. destruct (g j); [|done]. apply dget_dset_ne.
    intros E. apply Hj. rewrite E. apply list_elem_of_fmap. by exists i.
Qed.
End by_id.

Lemma terminate_updates_by_id l : terminate_updates l = Ok (foldl (set_by_id (termination l)) [] l).
Proof.
  unfold terminate_updates. f_equal. generalize (@nil (string * InstanceUpdateEvent)) as d.
  assert (∀ k d, foldl (λ d i,
    if bool_decide (status i ∉ statuses_to_terminate) then d
    else if bool_decide (status i = RAY_STOPPED) && bool_decide (cloud_instance_id i ∈ active_cloud l)
    then dset d (instance_id i) (update_event (instance_id i) TERMINATED "" "" "")
    else dset d (instance_id i) (update_event (instance_id i) TERMINATING "" (cloud_instance_id i) "")) d k
    = foldl (set_by_id (termination l)) d k) as H; [|apply H].
  induction k as [|i k IH]; intros d; [done|]. cbn [foldl]. rewrite <-IH. f_equal. unfold set_by_id, termination.
  destruct (bool_decide _); [done|]. by destruct (_ && _).
Qed.

(** ** Launching *)
Lemma to_launch_raises speed max_launches running requested queued e :
  to_launch_loop speed max_launches requested running queued = Raise e →
  ∃ ty, f_ceil (f_mul speed (f_of_int (Z.max (Z.of_nat (length (default [] (dget running ty)))) 1))) = Raise e.
Proof.
  revert requested. induction queued as [|[ty l] queued IH]; intros requested; cbn [to_launch_loop]; [done|].
  unfold num_to_launch. destruct (f_ceil _) as [z|e'] eqn:E; cbn [mbind result_bind].
  - destruct (to_launch_loop _ _ _ _ _) as [d|e'] eqn:Hd; [done|]. cbn [mbind result_bind]. intros [= <-].
    by eapply IH.
  - intros [= <-]. by exists ty.
Qed.

Lemma launch_updates_ok max l fresh queued requested running speed max_launches d :
  (∀ i, i ∈ l → row_ok max i) → fresh ≠ "" → (∀ i, i ∈ queued → i ∈ l ∧ status i = QUEUED) →
  _compute_to_launch queued requested running speed max_launches = Ok d →
  values (moves max l [QUEUED] [REQUESTED]) (launch_updates fresh d).
Proof.
  intros Hl Hf Hq Hd. destruct (to_launch_ok _ _ _ _ _ _ Hd) as (Hall & _).
  apply values_foldl; [|apply values_nil]. intros d1 [ty k] Hin Hd1. apply values_foldl; [|done].
  intros d2 i Hi Hd2. apply values_dset; [done|]. cbn [fst snd] in *.
  apply list_elem_of_lookup in Hin as [n Hn].
  destruct (Forall2_lookup_r _ _ _ _ _ Hall Hn) as ([ty' q] & Hg & Hty & lim & m & _ & Htake & _).
  cbn [fst snd] in *. subst ty' k. apply elem_of_take in Hi as (x & Hi & _). apply list_elem_of_lookup_2 in Hi.
  rewrite sort_by_perm in Hi. apply list_elem_of_lookup_2, (group_of_elem instance_type) in Hg as [-> _].
  apply list_elem_of_filter in Hi as [Ht Hi]. destruct (Hq i Hi) as [Hil Hs]. exists i. split; [done|].
  split; [|split; set_solver]. specialize (Hl i Hil). unfold row_ok in Hl. rewrite Hs in Hl.
  split; [done|]. cbn [new_instance_status launch_event]. rewrite Hs. split; [set_solver|]. split; [|done].
  unfold carries. cbn. split; [case_bool_decide; congruence|]. rewrite <-Ht. apply Hl.
Qed.

(** ** Scaling *)

(** What the reconciler expects of the scheduler: it terminates records by
    their id and status, and none in a status it cannot terminate. *)
Definition reply_ok (l : list InstanceMsg) (reply : SchedulingReply) : Prop :=
  (∀ r, r ∈ to_terminate reply → ∃ i, i ∈ l ∧ tr_instance_id r = Some (instance_id i) ∧
     tr_instance_status r = Some (status i) ∧ status i ∈ [QUEUED; ALLOCATED; RAY_INSTALLING; RAY_RUNNING]) ∧
  ∀ p, p ∈ to_launch reply → p.1 ≠ "".

Lemma terminate_requests_ok max l rs : (∀ i, i ∈ l → row_ok max i ∧ instance_id i ≠ "") → NoDup (map instance_id l) →
  (∀ r, r ∈ rs → ∃ i, i ∈ l ∧ tr_instance_id r = Some (instance_id i) ∧
     tr_instance_status r = Some (status i) ∧ status i ∈ [QUEUED; ALLOCATED; RAY_INSTALLING; RAY_RUNNING]) →
  ∃ ups, terminate_requests_updates l rs = Ok ups ∧
    values (moves max l [QUEUED; ALLOCATED; RAY_INSTALLING; RAY_RUNNING] [TERMINATED; TERMINATING; RAY_STOP_REQUESTED]) ups.
Proof.
  intros Hl Hnd Hr. apply values_result_fold; [|apply values_nil]. intros d r Hin Hd.
  destruct (Hr r Hin) as (i & Hi & Hid & Hst & Hs). destruct (Hl i Hi) as [Hrow Hne]. unfold row_ok in Hrow.
  set (by_id := dict_of _).
  assert (dget by_id (instance_id i) = Some i) as Hget.
  { unfold by_id. rewrite filter_all by (apply Forall_forall; intros j Hj; apply is_truthy; by apply Hl).
    rewrite dict_of_NoDup.
    - apply dget_wf_elem; [|by apply (list_elem_of_fmap_2 (λ i, (instance_id i, i)))].
      unfold dwf. rewrite <-list_fmap_compose. exact Hnd.
    - rewrite <-list_fmap_compose. exact Hnd. }
  unfold terminate_event. rewrite Hid, Hst. cbn [default from_option id].
  rewrite Hget. unfold moves, update_ok, carries.
  set_unfold in Hs. destruct_or!; rewrite Hs in Hrow |- *; cbn [or_raise mbind result_bind]; eexists; (split; [done|]);
    (apply values_dset; [done|]); exists i; rewrite Hs; cbn; (split; [done|]); (split; [|set_solver]);
    (split; [done|]); (split; [set_solver|]); (split; [|done]); try done; apply Hrow.
Qed.

(** ** The autoscaling state *)
Lemma sort_by_time_nil l : InstanceUtil.sort_by_time l = [] → l = [].
Proof.
  destruct l as [|h l]; [done|]. change (InstanceUtil.sort_by_time (h :: l))
    with (InstanceUtil.insert_by_time h (InstanceUtil.sort_by_time l)).
  destruct (InstanceUtil.sort_by_time l); simpl; [done|]. by case_match.
Qed.

Lemma last_transition_some i : legal_history i →
  ∃ h, InstanceUtil.get_last_status_transition i (Some (status i)) = Some h.
Proof.
  intros Hi. pose proof (legal_transitions i Hi) as Hl. unfold InstanceUtil.get_status_transition_times_ns in Hl.
  rewrite length_map in Hl. unfold InstanceUtil.get_last_status_transition.
  destruct (last _) as [h|] eqn:E; [by exists h|]. apply last_None, sort_by_time_nil in E. rewrite E in Hl. simpl in Hl. lia.
Qed.

Lemma latest_details_some i : legal_history i → ∃ d, latest_details i = Ok d.
Proof.
  intros (s0 & rest & Hh & _). unfold latest_details.
  assert (∀ l o, is_Some o → is_Some (foldl (λ o h, match o with
    | Some k => if timestamp_ns k <? timestamp_ns h then Some h else o | None => Some h end) o l)) as Hf.
  { induction l as [|h l IH]; intros o Ho; [done|]. cbn [foldl]. apply IH. destruct o; [|done]. by destruct (_ <? _). }
  destruct (status_history i) as [|h l]; [done|]. cbn [foldl]. destruct (Hf l (Some h)) as [k ->]; [done|]. by eexists.
Qed.

Lemma fill_ok ty_name l v ray_version reply : (∀ ty, ∃ n, ty_name ty = Ok n) → (∀ i, i ∈ l → legal_history i) →
  ∃ st, fill ty_name l v ray_version reply = Ok st.
Proof.
  intros Hty Hl. unfold fill.
  destruct (result_map_total (λ p : string * list InstanceMsg, pending_requests_of ty_name p.2) (by_launch_request l)) as [k1 ->].
  { intros [k g] Hg. apply (group_of_elem launch_request_id) in Hg as [_ Hne]. cbn [snd]. unfold pending_requests_of.
    destruct g as [|i g]; [done|]. cbn [head or_raise mbind result_bind]. apply result_map_total. intros [ty n] _.
    cbn [fst snd]. destruct (Hty ty) as [m ->]. by eexists. }
  cbn [mbind result_bind]. edestruct (result_map_total (pending_of ty_name)) as [k2 ->].
  { intros i Hi. unfold pending_of. destruct (Hty (instance_type i)) as [n ->].
    destruct (latest_details_some i) as [d ->]; [|by eexists]. apply Hl.
    apply elem_of_app in Hi as [[_ Hi]%list_elem_of_filter|[_ Hi]%list_elem_of_filter]; exact Hi. }
  cbn [mbind result_bind]. edestruct (result_map_total (failed_of ty_name)) as [k3 ->]; [|by eexists].
  intros i [Hs Hi]%list_elem_of_filter. unfold failed_of. destruct (Hty (instance_type i)) as [n ->].
  destruct (last_transition_some i (Hl i Hi)) as [h Hh]. rewrite Hs in Hh. rewrite Hh. by eexists.
Qed.

(** ** Handlers *)
Section world.
Context {St V Sub : Type} `{!Storage St V, !InstanceCodec V}.
Context `{!StorageLaws (St:=St) (V:=V), !InstanceCodecLaws V}.
Variables (im : InstanceManager.t Sub) (clock : nat → Z) (random_id : nat → string) (max : Z).
Context `{!Inj eq eq random_id}.
Hypothesis (Hmax : 0 ≤ max).
Implicit Types (w : world (St:=St) (Sub:=Sub)) (i : InstanceMsg) (id : string) (ups : updates_t).

Abbreviation inv := (inv im random_id max).
Abbreviation row := (row im).
Abbreviation rows := (rows im).
Abbreviation world := (world (St:=St) (Sub:=Sub)).
Abbreviation wp := (wp im random_id max).
Abbreviation only_to := (only_to im).
Abbreviation all_rows := (all_rows im).

Lemma missing_wp ray_nodes w : inv w → wp never (_handle_missing_ray_nodes im clock ray_nodes) w (λ _, only_to [RAY_STOPPED] w).
Proof. intros Hw. eapply (handle_moves_wp im clock random_id max Hmax); [done|]. apply missing_updates_ok. Qed.

(** A status in two lists that share none. *)
Ltac clash H H' :=
  exfalso; revert H H'; unfold statuses_to_terminate; clear; set_unfold; intros; destruct_or?; congruence.

(** No record is left in a status to terminate. *)
Lemma terminate_wp w : inv w → wp never (_terminate_instances im clock) w
  (λ _ w', only_to [TERMINATED; TERMINATING] w w' ∧ all_rows (λ i, status i ∉ statuses_to_terminate) w').
Proof.
  intros Hw. destruct (terminate_updates_ok max (rows w)) as (ups & Hf & Hv); [intros i; by apply (row_of im random_id max w)|].
  destruct (handle_fine im clock random_id max terminate_updates w ups Hw Hmax Hf) as (w' & Hw' & Hinv & _ & Hm).
  { intros u Hu. destruct (Hv u Hu) as (i & Hi & Hok & _). eauto. }
  unfold ReconcilerInv.wp, _terminate_instances. rewrite Hw'. cbn [fst snd]. split; [done|].
  assert (only_to [TERMINATED; TERMINATING] w w') as Ho.
  { eapply moved_only_to; [exact Hw|exact Hm|]. intros u Hu. by destruct (Hv u Hu) as (_ & _ & _ & _ & ?). }
  split; [done|]. intros id j Hj Hs. destruct (Ho id j Hj) as [Hold|Hto]; [|clash Hs Hto].
  pose proof (proj2 (inv_manager _ _ _ _ Hw) _ _ Hold) as (Hid & _). subst id.
  assert (j ∈ rows w) as Hin by by apply (rows_spec im random_id max).
  rewrite terminate_updates_by_id in Hf. injection Hf as <-.
  assert (∃ u, termination (rows w) j = Some u) as [u Hu].
  { unfold termination. rewrite bool_decide_eq_false_2 by tauto. destruct (_ && _); by eexists. }
  pose proof (dget_by_id (termination (rows w)) (rows w) [] j (rows_NoDup im random_id max w Hw) Hin) as Hget.
  rewrite Hu in Hget. apply dget_elem, (list_elem_of_fmap_2 snd) in Hget. cbn [snd] in Hget.
  destruct (Hm (instance_id j)) as [(u' & n & v & k & Hu' & _ & Hk & Hrow)|[Hno _]].
  - destruct (apply_event_status _ _ _ _ Hk) as (Hst & _). rewrite Hrow in Hj. injection Hj as <-.
    change (status k ∈ statuses_to_terminate) in Hs. rewrite Hst in Hs.
    destruct (Hv u' Hu') as (_ & _ & _ & _ & Hto). clash Hs Hto.
  - apply (Hno u Hget). unfold termination in Hu. destruct (bool_decide _); [done|].
    by destruct (_ && _); injection Hu as <-.
Qed.

(** A launch rate that is no number: the upscaling speed times a number of
    instances of at most the number of records. *)
Definition no_rate (speed : float) w : Prop :=
  ∃ n e, 1 ≤ n ≤ Z.max 1 (Z.of_nat (length (rows w))) ∧ f_ceil (f_mul speed (f_of_int n)) = Raise e.

Lemma launch_wp cfg w : inv w →
  wp (no_rate (upscaling_speed cfg)) (_handle_instances_launch im clock random_id cfg) w (λ _, only_to [REQUESTED] w).
Proof.
  intros Hw. unfold _handle_instances_launch.
  eapply (wp_bind _ _ _ _ _ _ _ (λ p w', p = (rows w, storage_get_version (w_storage w)) ∧ w' = w)); [by apply wp_get|].
  intros p w0 _ [-> ->]. cbn [fst snd]. set (queued := filter _ _).
  assert (∀ i, i ∈ queued → i ∈ rows w ∧ status i = QUEUED) as Hq by by intros i [? ?]%list_elem_of_filter.
  destruct queued as [|q queued]; [apply wp_ret; [done|]; intros id j; by left|]. set (requested := filter (λ i, status i = REQUESTED) _).
  set (running := filter (λ i, status i = RAY_RUNNING) _).
  eapply (wp_bind _ _ _ _ _ _ _ (λ d w', w' = w ∧ _compute_to_launch (q :: queued) requested running
    (upscaling_speed cfg) (max_concurrent_launches cfg) = Ok d)).
  { apply wp_lift; [done|intros d Hd; split; [done|exact Hd]|]. intros e He.
    apply to_launch_raises in He as [ty He]. eexists _, e. split; [|exact He].
    assert (length (default [] (dget (_group_by_type running) ty)) ≤ length (rows w))%nat; [|lia].
    change (_group_by_type running) with (group_of instance_type running).
    destruct (group_of_spec instance_type running) as (_ & -> & _).
    etransitivity; [apply length_filter|apply length_filter]. }
  intros d w0 _ [-> Hd]. eapply wp_bind; [by apply wp_new_id|]. intros fresh w1 Hw1 (Hl & Hids & ->).
  destruct (inv_fresh _ _ _ _ Hw (w_ids w)) as [Hne _]; [lia|].
  pose proof (launch_updates_ok max (rows w) _ _ _ _ _ _ d ltac:(intros i; by apply (row_of im random_id max w)) Hne Hq Hd) as Hv.
  eapply wp_mono; [apply (update_wp im clock random_id max Hmax w w1 _ Hw Hw1)|by intros ? []|].
  - split; [done|]. intros u Hu. left. destruct (Hv u Hu) as (i & Hi & Hok & _). eauto.
  - intros ? w' _ Hm. eapply moved_only_to; [exact Hw|exact Hm|]. intros u Hu. by destruct (Hv u Hu) as (_ & _ & _ & _ & ?).
Qed.

(** The scheduler's replies to the reconciler's requests are fit. *)
Definition scheduler_ok (schedule : SchedulingRequest → result SchedulingReply) cfg ray kuberay : Prop :=
  ∀ a b l, (∀ i, i ∈ l → row_ok max i) →
    ∃ reply, schedule (scheduling_request cfg ray kuberay a b l) = Ok reply ∧ reply_ok l reply.

Lemma scale_wp schedule monitor cfg ray kuberay w : inv w → (∀ w, ∃ scores, monitor w = Ok scores) → scheduler_ok schedule cfg ray kuberay →
  wp never (_scale_cluster im clock random_id schedule monitor cfg ray kuberay) w
    (λ _, only_to [TERMINATED; TERMINATING; RAY_STOP_REQUESTED; QUEUED] w).
Proof.
  intros Hw Hmon Hsch. unfold _scale_cluster.
  eapply (wp_bind _ _ _ _ _ _ _ (λ p w', p = (rows w, storage_get_version (w_storage w)) ∧ w' = w)); [by apply wp_get|].
  intros p w0 _ [-> ->]. cbn [fst snd].
  eapply (wp_bind _ _ _ _ _ _ _ (λ _ w', w' = w)); [split; [done|]; by destruct (Hmon w) as [? Hs]; simpl; rewrite Hs|].
  intros scores w0 _ ->.
  assert (∀ i, i ∈ rows w → row_ok max i) as Hrow by (intros i; by apply (row_of im random_id max w)).
  destruct (Hsch scores.1 scores.2 (rows w) Hrow) as (reply & Hr & Ht & Hty). rewrite Hr.
  eapply (wp_bind _ _ _ _ _ _ _ (λ r w', r = reply ∧ w' = w)).
  { apply wp_lift; [done| |done]. by intros ? [= <-]. }
  intros ? w0 _ [-> ->]. eapply (wp_bind _ _ _ _ _ _ _ (λ _ w', w' = w)).
  { eapply (wp_bind _ _ _ _ _ _ _ (λ _ w', w' = w)); [by apply wp_get|]. intros q w0 _ ->. by apply wp_ret. }
  intros running w0 _ ->. assert (∀ to, only_to to w w) as Hsame by (intros to id j; by left).
  destruct (negb running); [by apply wp_ret|]. destruct (bool_decide _); [by apply wp_ret|].
  destruct (terminate_requests_ok max (rows w) (to_terminate reply)) as (u & Hu & Hv);
    [intros i; by apply (rows_ok im random_id max w)|by apply (rows_NoDup im random_id max)|done|].
  eapply (wp_bind _ _ _ _ _ _ _ (λ d w', d = u ∧ w' = w)).
  { apply wp_lift; [done| |]; rewrite Hu; [by intros ? [= <-]|done]. }
  match type of Hv with values ?q _ => set (Q := q) in Hv end.
  intros ? w0 _ [-> ->]. eapply wp_bind; [apply (queue_new_wp im random_id max never Q w w u); [done|apply drawn_start; exact Hv]|].
  intros d w1 Hw1 Hd. eapply (wp_bind _ _ _ _ _ _ _ (λ _ w', later w1 w')).
  { destruct kuberay; [|split; [done|apply later_self]]. split; [|by split]. eapply later_inv; [|exact Hw1]. by split. }
  intros _ w2 Hw2 Hl2. apply (drawn_later _ _ _ _ _ w1 w2) in Hd; [|done]. destruct Hd as [Hl Hd].
  eapply wp_bind; [apply (update_wp im clock random_id max Hmax w w2 d Hw Hw2)|].
  - split; [done|]. intros v Hin. destruct (Hd v Hin) as [(i & Hi & Hok & _)|((k & q & Hq & ->) & n)]; [left; eauto|].
    right. split; [|done]. split; [done|]. split; [done|]. right. split; [done|by apply Hty].
  - intros ? w' Hw' Hm. apply wp_ret; [done|]. eapply moved_only_to; [exact Hw|exact Hm|].
    intros v Hin. destruct (Hd v Hin) as [(_ & _ & _ & _ & Hto)|((k & q & _ & ->) & _)]; set_solver.
Qed.

(** ** One reconciliation *)

(** What a reconciliation is told, fit for it to return. *)
Record round_ok (r : round (St:=St) (Sub:=Sub)) : Prop := {
  ro_cloud : cloud_ok (rd_cloud r);
  ro_nodes n : n ∈ node_states (rd_ray r) → node_ok n;
  ro_provider : provider (rd_cfg r) ≠ Provider.READ_ONLY;
  ro_updaters : disable_node_updaters (rd_cfg r) = true;
  ro_retries : max_num_retry_request_to_allocate (reconcile_config (rd_cfg r)) = max;
  ro_types ty : ∃ n, get_provider_instance_type (rd_cfg r) ty = Ok n;
  ro_monitor w : ∃ scores, rd_monitor r w = Ok scores;
  ro_scheduler : scheduler_ok (rd_schedule r) (rd_cfg r) (rd_ray r) (rd_kuberay r)
}.

(** A record between two reconciliations: there is nothing to terminate. *)
Definition resting i : Prop := status i ∉ RAY_INSTALLING :: statuses_to_terminate.

Lemma step_wp schedule monitor ray cloud kuberay cfg w : inv w → disable_node_updaters cfg = true →
  max_num_retry_request_to_allocate (reconcile_config cfg) = max →
  (∀ ty, ∃ n, get_provider_instance_type cfg ty = Ok n) → (∀ w, ∃ scores, monitor w = Ok scores) →
  scheduler_ok schedule cfg ray kuberay → all_rows (λ i, status i ≠ RAY_INSTALLING) w →
  wp (no_rate (upscaling_speed cfg)) (_step_next im clock random_id schedule monitor ray cloud kuberay cfg) w
    (λ _, all_rows resting).
Proof.
  intros Hw Hdis Hret Hty Hmon Hsch HP. unfold _step_next. set (P i := status i ≠ RAY_INSTALLING).
  assert (∀ (to : list InstanceStatus) i, RAY_INSTALLING ∉ to → status i ∈ to → P i) as Hto by (intros to i Hn Hi E; by rewrite E in Hi).
  apply (wp_seq im random_id max _ P [RAY_STOPPED]); [by apply wp_never, missing_wp|done|intros i; apply Hto; set_solver|].
  clear w Hw HP. intros _ w Hw HP.
  apply (wp_seq im random_id max _ P stuck_statuses);
    [by apply wp_never, (handle_stuck_wp im clock random_id max)|done|intros i; apply Hto; unfold stuck_statuses; set_solver|].
  clear w Hw HP. intros _ w Hw HP.
  apply (wp_seq im random_id max _ P [TERMINATED; TERMINATING; RAY_STOP_REQUESTED; QUEUED]);
    [by apply wp_never, scale_wp|done|intros i; apply Hto; set_solver|].
  clear w Hw HP. intros reply w Hw HP.
  apply (wp_seq im random_id max _ P [REQUESTED]); [by apply launch_wp|done|intros i; apply Hto; set_solver|].
  clear w Hw HP. intros _ w Hw HP.
  eapply (wp_bind _ _ _ _ _ _ _ (λ _, all_rows resting)).
  { apply wp_never. eapply wp_mono; [by apply terminate_wp|done|]. intros ? w' Hw' [Ho Hend] id i Hi.
    unfold resting. rewrite not_elem_of_cons. split; [|by eapply Hend].
    assert (all_rows P w') as HP' by (eapply all_rows_only_to; [exact HP|exact Ho|intros j; apply Hto; set_solver]).
    by eapply HP'. }
  intros _ w1 Hw1 HP1. rewrite Hdis. eapply (wp_bind _ _ _ _ _ _ _ (λ _, all_rows resting)); [by apply wp_ret|].
  intros _ w2 Hw2 HP2. unfold _fill_autoscaling_state.
  eapply (wp_bind _ _ _ _ _ _ _ (λ p w', p.1 = rows w2 ∧ w' = w2)); [by apply wp_get|]. intros p w3 _ [Hp ->].
  destruct (fill_ok (get_provider_instance_type cfg) p.1 p.2 (cluster_resource_state_version ray) reply Hty) as [st Hst].
  { rewrite Hp. intros i. by apply (rows_legal im random_id max). }
  apply wp_lift; [done|done|]. intros e. by rewrite Hst.
Qed.

Lemma round_wp r w : inv w → round_ok r → all_rows (steady (rd_stop_errors r) (node_states (rd_ray r))) w →
  wp (no_rate (upscaling_speed (rd_cfg r))) (run_round im clock random_id r) w (λ _, all_rows resting).
Proof.
  intros Hw [] Hs. unfold run_round, reconcile. eapply wp_bind; [by apply wp_never, sync_wp|].
  intros ? w' Hw' HP. by apply step_wp.
Qed.
End world.
