(* ===== verification/ReconcilerProps.v ===== *)
(** * The reconciler: its properties *)
From S2P Require Import Prelude PyDict PyFloat InstanceUtil InstanceUtilFacts Storage StorageFacts.
From S2P Require Import InstanceManager InstanceManagerFacts SchedNode Scheduler Reconciler ReconcilerFacts.
From S2P Require Import ReconcilerUpdates ReconcilerInv ReconcilerRounds ReconcilerAlloc ReconcilerSync ReconcilerStep.
Import Reconciler.

(** ** Terminating *)

(** A stopped record whose cloud instance an active record holds by now. *)
Definition stale (l : list InstanceMsg) (i : InstanceMsg) : Prop :=
  status i = RAY_STOPPED ∧ ∃ j, j ∈ l ∧ (status j ∉ inactive_statuses) ∧
    cloud_instance_id j ≠ "" ∧ cloud_instance_id j = cloud_instance_id i.

Lemma active_cloud_elem l c : c ∈ active_cloud l ↔
  ∃ j, j ∈ l ∧ (status j ∉ inactive_statuses) ∧ cloud_instance_id j ≠ "" ∧ cloud_instance_id j = c.
Proof.
  unfold active_cloud. rewrite list_elem_of_fmap. setoid_rewrite list_elem_of_filter. setoid_rewrite is_truthy.
  naive_solver.
Qed.

(** [_terminate_instances] updates exactly the records in [RAY_STOPPED],
    [ALLOCATION_TIMEOUT], [RAY_INSTALL_FAILED] and [TERMINATION_FAILED], one
    update each: [TERMINATING] with the record's cloud instance, or [TERMINATED]
    for a stale [RAY_STOPPED] record, one whose cloud instance an active record
    holds by now; a stale record never terminates that cloud instance. *)
Theorem terminate_instances_spec (l : list InstanceMsg) : NoDup (map instance_id l) →
  ∃ ups, terminate_updates l = Ok ups ∧ (∀ id, id ∈ ups.*1 → id ∈ map instance_id l) ∧
    ∀ i, i ∈ l → match dget ups (instance_id i) with
      | None => status i ∉ statuses_to_terminate
      | Some u => status i ∈ statuses_to_terminate ∧
          (stale l i ∧ u = update_event (instance_id i) TERMINATED "" "" "" ∨
           ¬ stale l i ∧ u = update_event (instance_id i) TERMINATING "" (cloud_instance_id i) "")
      end.
Proof.
  intros Hnd. eexists. split; [apply terminate_updates_by_id|]. split.
  - intros id. assert (∀ k d, id ∈ (foldl (set_by_id (termination l)) d k).*1 → id ∈ d.*1 ∨ id ∈ map instance_id k) as H.
    { induction k as [|i k IH]; intros d; [by left|]. cbn [foldl]. intros [Hid|Hid]%IH; [|right; by right].
      unfold set_by_id in Hid. destruct (termination l i); [|by left].
      apply dset_keys_elem in Hid as [->|Hid]; [right; left|by left]. }
    intros [Hid|]%H; [by apply elem_of_nil in Hid|done].
  - intros i Hi. rewrite dget_by_id by done. unfold termination. case_bool_decide as Hs; [done|].
    assert (status i ∈ statuses_to_terminate) as Hin by (destruct (decide (status i ∈ statuses_to_terminate)); tauto).
    assert (bool_decide (status i = RAY_STOPPED) && bool_decide (cloud_instance_id i ∈ active_cloud l) = true ↔ stale l i) as Hst.
    { by rewrite andb_true_iff, !bool_decide_eq_true, active_cloud_elem. }
    destruct (_ && _); (split; [done|]); [left|right]; (split; [|done]); [by apply Hst|]. intros H%Hst. done.
Qed.

(** ** Ray nodes *)

(** The status a Ray node gives its record is the record's own, when it is
    already as far, or one a transition leads to - except for a record that is
    not allocated yet, or was given up, or of a draining node while Ray is being
    installed: there the update would be illegal. *)
Theorem ray_status_table (r : NodeStatus.t) (cur : InstanceStatus) : r ≠ NodeStatus.UNSPECIFIED →
  ∃ s, _reconciled_im_status_from_ray_status r cur = Ok s ∧
    (s = cur ∨ s ∈ [RAY_RUNNING; RAY_STOPPED; RAY_STOPPING]) ∧
    ((s = cur ∨ s ∈ InstanceUtil.get_valid_transitions cur) ↔
       (cur ∉ [UNKNOWN; QUEUED; REQUESTED; ALLOCATION_FAILED; RAY_INSTALL_FAILED; ALLOCATION_TIMEOUT]) ∧
       ¬ (cur = RAY_INSTALLING ∧ r = NodeStatus.DRAINING)).
Proof.
  intros Hr. assert (∃ s, _reconciled_im_status_from_ray_status r cur = Ok s ∧
    bool_decide (s = cur ∨ s ∈ [RAY_RUNNING; RAY_STOPPED; RAY_STOPPING]) = true ∧
    bool_decide (s = cur ∨ s ∈ InstanceUtil.get_valid_transitions cur) =
    bool_decide ((cur ∉ [UNKNOWN; QUEUED; REQUESTED; ALLOCATION_FAILED; RAY_INSTALL_FAILED; ALLOCATION_TIMEOUT]) ∧
      ¬ (cur = RAY_INSTALLING ∧ r = NodeStatus.DRAINING))) as (s & Hs & H1 & H2).
  { destruct r; [done|..]; destruct cur; eexists; (split; [vm_compute; reflexivity|by split]). }
  exists s. split; [done|]. split; [by apply bool_decide_eq_true in H1|].
  split; intros H; apply (bool_decide_eq_true_1 _); [rewrite <-H2|rewrite H2]; by apply bool_decide_eq_true_2.
Qed.

(** ** Whole reconciliations *)
Section world.
Context {St V Sub : Type} `{!Storage St V, !InstanceCodec V}.
Context `{!StorageLaws (St:=St) (V:=V), !InstanceCodecLaws V}.
Variables (im : InstanceManager.t Sub) (clock : nat → Z) (random_id : nat → string) (max : Z).
Context `{!Inj eq eq random_id}.
Hypothesis (Hmax : 0 ≤ max).
Implicit Types (w : world (St:=St) (Sub:=Sub)) (i : InstanceMsg) (id : string) (r : round (St:=St) (Sub:=Sub)).

(** *** What the scheduler may not ask for *)

Definition request_id (q : TerminationRequest) : string := default "" (tr_instance_id q).

Lemma terminate_requests_elem l rs ups : terminate_requests_updates l rs = Ok ups →
  (∀ k u, (k, u) ∈ ups → ∃ q by_id, q ∈ rs ∧ k = request_id q ∧ terminate_event by_id q = Ok u) ∧
  ∀ q, q ∈ rs → request_id q ∈ ups.*1.
Proof.
  unfold terminate_requests_updates. set (by_id := dict_of _). intros H.
  assert (∀ (rs : list TerminationRequest) (d d' : updates_t),
    result_fold (λ d q, u ← terminate_event by_id q; Ok (dset d (default "" (tr_instance_id q)) u)) d rs = Ok d' →
    (∀ k u, (k, u) ∈ d' → (k, u) ∈ d ∨ ∃ q, q ∈ rs ∧ k = request_id q ∧ terminate_event by_id q = Ok u) ∧
    (∀ k, k ∈ d.*1 ∨ (∃ q, q ∈ rs ∧ k = request_id q) → k ∈ d'.*1)) as Hf.
  { clear. induction rs as [|q rs IH]; intros d d'; cbn [result_fold].
    - intros [= <-]. split; [by left|]. by intros k [|(q & ?%elem_of_nil & _)].
    - intros H. inv_ok. destruct (IH _ _ H) as [H1 H2]. split.
      + intros k u [[[-> ->]|Hin]%dset_elem|(q' & Hq & Hrest)]%H1; [|by left|].
        * right. exists q. split; [left|done].
        * right. exists q'. split; [by right|done].
      + intros k Hk. apply H2. setoid_rewrite dset_keys_elem. destruct Hk as [Hk|(q' & [->|Hq]%elem_of_cons & ->)].
        * left. by right.
        * left. by left.
        * right. by exists q'. }
  destruct (Hf rs [] ups H) as [H1 H2]. split.
  - intros k u [Hin%elem_of_nil|(q & ? & ? & ?)]%H1; [done|]. by exists q, by_id.
  - intros q Hq. apply H2. right. by exists q.
Qed.

Lemma terminate_event_status by_id q u : terminate_event by_id q = Ok u →
  upsert u = false ∧ upd_instance_id u = request_id q ∧
  (default UNKNOWN (tr_instance_status q) ∉ [QUEUED; ALLOCATED; RAY_INSTALLING] → new_instance_status u = RAY_STOP_REQUESTED).
Proof.
  unfold terminate_event. destruct (default UNKNOWN (tr_instance_status q)); intros H; inv_ok;
    (split; [done|]); (split; [done|]); try done; set_solver.
Qed.

(** A termination request that no update can serve: of a node without a
    record, or of a record in a status Ray cannot be stopped in. *)
Definition unservable w (q : TerminationRequest) : Prop :=
  tr_instance_id q = None ∨
  ∃ i, i ∈ rows im w ∧ tr_instance_id q = Some (instance_id i) ∧
    status i ∉ [QUEUED; ALLOCATED; RAY_INSTALLING; RAY_RUNNING].

(** The requests tell the status of their records. *)
Definition told_status w (qs : list TerminationRequest) : Prop :=
  ∀ q i, q ∈ qs → row im w (request_id q) = Some i → tr_instance_status q = Some (status i).

(** The updates [d] hold one of the request [q], and their only updates of its
    id are of requests. *)
Definition asks w (qs : list TerminationRequest) (q : TerminationRequest) (d : updates_t) : Prop :=
  (∃ u, dget d (request_id q) = Some u ∧ upd_instance_id u = request_id q) ∧
  ∀ u, u ∈ d.*2 → upd_instance_id u = request_id q →
    ∃ q' by_id, q' ∈ qs ∧ request_id q' = request_id q ∧ terminate_event by_id q' = Ok u.

Lemma unservable_refused w w1 w' qs q d : inv im random_id max w → told_status w qs → unservable w q →
  asks w qs q d → later w w1 → (∀ id, moved im clock w1 w' d id) → False.
Proof.
  intros Hw Ht Hq ((u & Hget & Hid) & Hall) Hl Hm. apply dget_elem, (list_elem_of_fmap_2 snd) in Hget. cbn [snd] in Hget.
  destruct (Hm (request_id q)) as [(v & n & k & j & Hv & Hvid & Hj & _)|[Hno _]]; [|by apply (Hno u)].
  destruct (Hall v Hv Hvid) as (q' & by_id & Hq' & Hqid & Hev).
  destruct (terminate_event_status _ _ _ Hev) as (Hup & _ & Hst). rewrite (later_row im w w1 _ Hl) in Hj.
  destruct (apply_event_status _ _ _ _ Hj) as (_ & _ & Hok).
  destruct (row im w (request_id q)) as [i|] eqn:Hrow; [|by destruct Hok; congruence].
  destruct Hq as [Hn|(i' & Hi' & Hid' & Hbad)].
  - unfold request_id in Hrow. rewrite Hn in Hrow. by destruct (inv_rows _ _ _ _ Hw _ _ Hrow) as [_ []].
  - apply (rows_spec im random_id max) in Hi'; [|done]. unfold request_id in Hrow. rewrite Hid' in Hrow. cbn [default from_option id] in Hrow.
    rewrite Hrow in Hi'. injection Hi' as <-. rewrite (Ht q' i Hq') in Hst.
    + cbn [default from_option id] in Hst. rewrite Hst in Hok by set_solver.
      clear -Hok Hbad. revert Hok. unfold transition, edge. destruct (status i); simpl; set_solver.
    + rewrite Hqid. unfold request_id. by rewrite Hid'.
Qed.

(** New records do not interfere: their ids are fresh. *)
Lemma queue_new_asks E w qs q d to_launch : inv im random_id max w → unservable w q → asks w qs q d →
  wp im random_id max E (queue_new random_id d to_launch) w (λ d w', asks w qs q d ∧ later w w').
Proof.
  intros Hw Hq Hd. assert (∀ n, (w_ids w ≤ n)%nat → random_id n ≠ request_id q) as Hfr.
  { intros n Hn Heq. destruct (inv_fresh _ _ _ _ Hw n Hn) as [Hne Hfr]. unfold request_id in Heq.
    destruct Hq as [E'|(i & Hi & E' & _)]; rewrite E' in Heq; [done|]. cbn [default from_option id] in Heq.
    apply (rows_spec im random_id max) in Hi; [|done]. rewrite Heq in Hfr. congruence. }
  apply wp_fold; [done|split; [done|apply later_self]|]. intros d1 p w1 _ Hw1 H1. apply wp_fold; [done|done|].
  intros d2 n w2 _ Hw2 [[(u & Hu & Hid) Hall] Hl2]. eapply wp_bind; [by apply wp_new_id|].
  intros id w3 Hw3 (Hl3 & _ & ->). apply wp_ret; [done|]. split; [|exact (later_then _ _ _ Hl2 Hl3)].
  destruct Hl2 as [_ Hids]. specialize (Hfr (w_ids w2) Hids). split.
  - exists u. split; [|done]. by rewrite dget_dset_ne.
  - intros v ([k x] & -> & [[_ ->]|Hin]%dset_elem)%list_elem_of_fmap Hv; [done|]. apply Hall; [|done].
    by apply (list_elem_of_fmap_2 snd) in Hin.
Qed.

(** A reply that asks to terminate a node without a record, or a record
    whose Ray cannot be stopped in its status ([REQUESTED] and
    [RAY_STOP_REQUESTED] among them), makes [_scale_cluster] raise, and with it
    everything else the scheduler asked for is dropped: nothing is written. *)
Theorem scale_refuses_unservable schedule monitor cfg ray kuberay w scores reply q : inv im random_id max w →
  (∃ h, h ∈ rows im w ∧ node_kind h = HEAD ∧ status h = RAY_RUNNING) → provider cfg ≠ Provider.READ_ONLY →
  monitor w = Ok scores → schedule (scheduling_request cfg ray kuberay scores.1 scores.2 (rows im w)) = Ok reply →
  told_status w (to_terminate reply) → q ∈ to_terminate reply → unservable w q →
  ∃ e w', _scale_cluster im clock random_id schedule monitor cfg ray kuberay w = (Raise e, w') ∧
    w_storage w' = w_storage w.
Proof.
  intros Hw (h & Hh & Hkind & Hrun) Hp Hm Hr Ht Hq Hbad.
  cut (wp im random_id max (λ w', w_storage w' = w_storage w)
    (_scale_cluster im clock random_id schedule monitor cfg ray kuberay) w (λ _ _, False)).
  { unfold wp. destruct (_scale_cluster _ _ _ _ _ _ _ _ w) as [[a|e] w']; [by intros [_ []]|]. intros [_ Hs]. by exists e, w'. }
  unfold _scale_cluster.
  eapply (wp_bind _ _ _ _ _ _ _ (λ p w', p = (rows im w, storage_get_version (w_storage w)) ∧ w' = w)); [by apply wp_get|].
  intros p w0 _ [-> ->]. cbn [fst snd].
  eapply (wp_bind _ _ _ _ _ _ _ (λ s w', s = scores ∧ w' = w)); [by split; [|simpl; rewrite Hm]|]. intros ? w0 _ [-> ->]. rewrite Hr.
  eapply (wp_bind _ _ _ _ _ _ _ (λ x w', x = reply ∧ w' = w)); [apply wp_lift; [done|by intros ? [= <-]|done]|].
  intros ? w0 _ [-> ->]. eapply (wp_bind _ _ _ _ _ _ _ (λ b w', b = true ∧ w' = w)).
  { eapply (wp_bind _ _ _ _ _ _ _ (λ p w', p.1 = rows im w ∧ w' = w)); [by apply wp_get|]. intros p w0 _ [-> ->].
    apply wp_ret; [done|]. split; [|done]. apply existsb_exists. exists h. split; [by apply list_elem_of_In|].
    by rewrite !bool_decide_eq_true_2. }
  intros ? w0 _ [-> ->]. cbn [negb]. rewrite bool_decide_eq_false_2 by done.
  eapply (wp_bind _ _ _ _ _ _ _ (λ d w', asks w (to_terminate reply) q d ∧ w' = w)).
  { apply wp_lift; [done| |done]. intros d Hd. split; [|done].
    apply terminate_requests_elem in Hd as [He Hk]. split.
    - specialize (Hk q Hq). destruct (dget d (request_id q)) as [u|] eqn:Hu; [|by apply dget_None in Hu].
      exists u. split; [done|]. apply dget_elem, He in Hu as (q' & by_id & _ & -> & Hev). by apply terminate_event_status in Hev as (_ & ? & _).
    - intros u ([k v] & -> & Hin)%list_elem_of_fmap Hid. apply He in Hin as (q' & by_id & Hq' & -> & Hev).
      exists q', by_id. cbn [snd] in *. apply terminate_event_status in Hev as Hev'. split_and!; [done| |done]. destruct Hev' as (_ & <- & _). done. }
  intros d w0 _ [Hd ->].
  eapply (wp_bind _ _ _ _ _ _ _ (λ d w', asks w (to_terminate reply) q d ∧ later w w')); [by apply queue_new_asks|].
  intros d' w1 Hw1 [Hd' Hl1]. eapply (wp_bind _ _ _ _ _ _ _ (λ _ w', later w w')).
  { destruct kuberay; [|done]. split; [|exact (later_then _ w1 _ Hl1 (later_self w1))].
    eapply later_inv; [|exact Hw1]. by split. }
  intros _ w2 Hw2 Hl2. eapply (wp_bind _ _ _ _ _ _ _ (λ _ _, False)); [|by intros ? ? ? []].
  destruct (update_cases im clock random_id max (storage_get_version (w_storage w)) w2 d' Hw2)
    as (Hids & [(_ & _ & Hmv)|([e He] & Hst & _)]).
  - destruct (unservable_refused w w2 _ _ _ _ Hw Ht Hbad Hd' Hl2 Hmv).
  - unfold wp. rewrite He. split; [|by rewrite Hst; destruct Hl2].
    eapply later_inv; [|exact Hw2]. split; [done|lia].
Qed.

(** *** One reconciliation returns *)

(** C1: A reconciliation over fit reports returns and leaves no record to
    terminate: told of well-formed cloud instances and Ray nodes, with a
    scheduler that launches named types and terminates records by their id and
    status in [QUEUED], [ALLOCATED], [RAY_INSTALLING] or [RAY_RUNNING], a resource
    monitor that answers, with node updaters disabled, from records without one that is installing Ray, failed to
    or timed out, and with every node that failed to stop alive, no assertion of
    a handler fails and no lookup misses; only a launch rate that is no finite
    number (at a count of at most the records) may stop it.  The records'
    invariant holds in either case. *)
Theorem reconcile_returns w r : inv im random_id max w → round_ok max r →
  (∀ i, i ∈ rows im w → steady (rd_stop_errors r) (node_states (rd_ray r)) i) →
  let res := run_round im clock random_id r w in
  inv im random_id max res.2 ∧
  match res.1 with
  | Ok _ => ∀ i, i ∈ rows im res.2 → status i ∉ RAY_INSTALLING :: statuses_to_terminate
  | Raise _ => no_rate im (upscaling_speed (rd_cfg r)) res.2
  end.
Proof.
  intros Hw Hr Hs. destruct (round_wp im clock random_id max Hmax r w Hw Hr) as [Hinv Hend].
  { intros id i Hi. apply Hs. apply (rows_spec im random_id max); [done|].
    by destruct (proj2 (inv_manager _ _ _ _ Hw) _ _ Hi) as (-> & _). }
  split; [exact Hinv|]. destruct (run_round im clock random_id r w).1; [|exact Hend].
  intros i Hi. by apply (all_rows_in im random_id max resting (run_round im clock random_id r w).2).
Qed.

(** *** Any reconciliations *)

Lemma inv_empty w : manager_inv im (w_storage w) → (∀ id, row im w id = None) → (∀ n, random_id n ≠ "") →
  inv im random_id max w.
Proof.
  intros Hm Hempty Hids. split; [done| |].
  - intros id' j Hj. by rewrite Hempty in Hj.
  - intros n _. split; [done|apply Hempty].
Qed.

(** C4: Whatever the cloud provider, the Ray cluster and the scheduler report,
    in any number of reconciliations from an empty table and wherever
    exceptions stop them: every record keeps its id and a legal history, an
    instance that was allocated has its cloud instance, one that runs Ray (or is
    to stop it) also its Ray node, one that is requested its launch request and
    type, one that is queued or requested no cloud instance yet; and no
    instance is requested from the cloud more often than the retries allow. *)
Theorem reconciled_records w (rs : list round) id i :
  manager_inv im (w_storage w) → (∀ id, row im w id = None) → (∀ n, random_id n ≠ "") →
  (∀ r, r ∈ rs → names_types (rd_schedule r) ∧ max_num_retry_request_to_allocate (reconcile_config (rd_cfg r)) = max) →
  row im (run_rounds im clock random_id rs w) id = Some i →
  instance_id i = id ∧ legal_history i ∧ attempts i ≤ max + 1 ∧ row_ok max i.
Proof.
  intros Hm Hempty Hids Hr Hi.
  pose proof (inv_empty w Hm Hempty Hids) as Hw. assert (inv im random_id max (run_rounds im clock random_id rs w)) as Hw' by by apply run_rounds_inv.
  destruct (proj2 (inv_manager _ _ _ _ Hw') _ _ Hi) as (Hid & Hleg & _).
  destruct (inv_rows _ _ _ _ Hw' _ _ Hi) as [Hok _]. split_and!; [done|done| |done].
  unfold row_ok in Hok. destruct (status i); try tauto; lia.
Qed.
End world.
