(* ===== verification/ReconcilerRun.v ===== *)
(** * The reconciler: runs

    A cluster of a head and a worker, the instances of the theorems at it, and
    a reconciliation that the scheduler's reply makes raise. *)
From Stdlib Require Import Strings.Byte.
From S2P Require Import SchedulerSpec.
From S2P Require Import Prelude PyDict PyFloat InstanceUtil InstanceUtilFacts Storage StorageFacts.
From S2P Require Import InstanceManager InstanceManagerFacts SchedNode Scheduler Reconciler ReconcilerFacts.
From S2P Require Import ReconcilerInv ReconcilerRounds ReconcilerAlloc ReconcilerSync ReconcilerStep ReconcilerProps.
Import Reconciler.

Module RecRun.

(** A message is serialized as itself. *)
#[local] Instance id_codec : InstanceCodec InstanceMsg :=
  {| SerializeToString i := i; ParseFromString i := i |}.
#[local] Instance id_codec_laws : InstanceCodecLaws InstanceMsg.
Proof. split. done. Qed.

Definition im : InstanceManager.t nat := {|
  InstanceManager._instance_storage := InstanceStorage.init "c";
  InstanceManager._status_update_subscribers := [] |}.

(** One second between two readings of the clock. *)
Definition clock (n : nat) : Z := Z.of_nat n * 10 ^ 9.
Definition random_id (n : nat) : string := "i-" +:+ pretty n.

#[local] Instance random_id_inj : Inj eq eq random_id.
Proof. intros a b H. by apply (inj pretty), (inj (String.append "i-")). Qed.

Abbreviation world := (world (St:=InMemoryStorage.t InstanceMsg) (Sub:=nat)).
Abbreviation round := (round (St:=InMemoryStorage.t InstanceMsg) (Sub:=nat)).

Definition start : world := {|
  w_storage := InMemoryStorage.init; w_tick := 0; w_ids := 0; w_notified := []; w_ippr := [] |}.

Definition reconcile_cfg : InstanceReconcileConfig := {|
  request_status_timeout_s := 600; allocate_status_timeout_s := 300; ray_install_status_timeout_s := 1800;
  terminating_status_timeout_s := 300; ray_stop_requested_status_timeout_s := 300;
  max_num_retry_request_to_allocate := 3 |}.

Definition cfg (types : dict string NodeTypeConfig) (max : option Z) : AutoscalingConfig := {|
  provider := Provider.KUBERAY; ac_node_type_configs := types; ac_max_num_nodes := max; ac_idle_timeout_s := None;
  ac_disable_launch_config_check := false; upscaling_speed := f_of_int 1; max_concurrent_launches := 10;
  disable_node_updaters := true; reconcile_config := reconcile_cfg; get_provider_instance_type := λ ty, Ok ty |}.

Definition cloud_of (id ty : string) (kind : NodeKind) : string * CloudInstance :=
  (id, {| ci_cloud_instance_id := id; ci_node_type := ty; ci_node_kind := kind; ci_is_running := true |}).

Definition node_of (id : byte) (cloud ty : string) (s : NodeStatus.t) (res : resources) : RayNode := {|
  rn_node_id := [id]; rn_instance_id := cloud; rn_node_type_name := ty; rn_status := s;
  rn_state := {| ns_total_resources := res; ns_available_resources := res; ns_labels := ∅;
                 ns_dynamic_labels := ∅; ns_idle_duration_ms := 0 |} |}.

Definition head_node : RayNode :=
  node_of "001"%byte "c-head" "head" NodeStatus.RUNNING (<["node:__internal_head__" := f_of_int 1]> (SchedRun.cpus 4)).
Definition worker_node (id : byte) (cloud : string) : RayNode :=
  node_of id cloud "cpu" NodeStatus.IDLE (SchedRun.cpus 2).

Definition ray_of (nodes : list RayNode) : ClusterResourceState := {|
  node_states := nodes; pending_resource_requests := []; pending_gang_resource_requests := [];
  ray_cluster_resource_constraints := []; cluster_resource_state_version := 7 |}.

(** A scheduler that asks for one more worker each time. *)
Definition one_more (_ : SchedulingRequest) : result SchedulingReply := Ok {|
  to_launch := [("cpu", 1)]; to_ippr := []; to_terminate := []; reply_cluster_resources := ∅;
  infeasible_resource_requests := []; infeasible_gang_resource_requests := [];
  infeasible_cluster_resource_constraints := [] |}.

Definition round_of schedule (c : AutoscalingConfig) cloud nodes errors : round := {|
  rd_ray := ray_of nodes; rd_cloud := cloud; rd_kuberay := None; rd_cfg := c; rd_provider_errors := errors;
  rd_install_errors := []; rd_stop_errors := []; rd_schedule := schedule; rd_monitor := λ _, Ok ([], []) |}.

(** The head comes up; a worker is allocated; it runs Ray. *)
Definition round1 : round := round_of one_more (cfg [] None) [cloud_of "c-head" "head" HEAD] [head_node] [].
Definition round2 : round := round_of one_more (cfg [] None)
  [cloud_of "c-head" "head" HEAD; cloud_of "c-1" "cpu" WORKER] [head_node] [].
Definition round3 : round := round_of one_more (cfg [] None)
  [cloud_of "c-head" "head" HEAD; cloud_of "c-1" "cpu" WORKER] [head_node; worker_node "002" "c-1"] [].

Definition after (rs : list round) : world := run_rounds im clock random_id rs start.
Definition summary (w : world) : list (string * InstanceStatus * string * string) :=
  map (λ i, (instance_id i, status i, cloud_instance_id i, node_id i)) (rows im w).

(** The modelled scheduler. *)
Definition demand_scheduler (request : SchedulingRequest) : result SchedulingReply :=
  match ResourceDemandScheduler.schedule request with
  | Ok (Some (_, reply)) => Ok reply
  | Ok None => Raise RuntimeError
  | Raise e => Raise e
  end.

Definition types (max_b : Z) : dict string NodeTypeConfig :=
  [SchedRun.config "head" 0 1 4; SchedRun.config "cpu" 0 3 2; SchedRun.config "B" max_b 2 1].

Definition full_round : round := round_of demand_scheduler (cfg (types 2) (Some 4))
  [cloud_of "c-head" "head" HEAD; cloud_of "c-1" "cpu" WORKER; cloud_of "c-2" "cpu" WORKER]
  [head_node; worker_node "002" "c-1"; worker_node "003" "c-2"] [].
Definition shrunk_round : round := round_of demand_scheduler (cfg (types 0) (Some 1))
  [cloud_of "c-head" "head" HEAD] [head_node] [].

(** Three rounds: the head runs Ray at once; the worker is requested in the
    first, allocated in the second and runs Ray in the third. *)
Example three_rounds : summary (after [round1; round2; round3]) =
  [("i-0", RAY_RUNNING, "c-head", "01"); ("i-1", RAY_RUNNING, "c-1", "02"); ("i-3", REQUESTED, "", "");
   ("i-5", REQUESTED, "", "")].
Proof. vm_compute. reflexivity. Qed.

(** A minimum that does not fit: the scheduler terminates nodes it never
    launched (their shared object is one of [SchedRun.req2]'s), and the
    reconciliation raises; in every later one it raises again. *)
Theorem minimum_stops_reconciling :
  (run_round im clock random_id full_round start).1 = Raise AssertionError ∧
  (run_round im clock random_id full_round (run_round im clock random_id full_round start).2).1 = Raise AssertionError.
Proof. vm_compute. done. Qed.

(** A lower limit of nodes while one is being requested: the scheduler
    terminates the requested record, and the reconciliation raises. *)
Theorem shrinking_stops_reconciling :
  (run_round im clock random_id shrunk_round (after [round1])).1 = Raise AssertionError ∧
  summary (run_round im clock random_id shrunk_round (after [round1])).2 =
    [("i-0", RAY_RUNNING, "c-head", "01"); ("i-1", REQUESTED, "", "")].
Proof. vm_compute. done. Qed.

(** ** Instances of the theorems *)
Lemma start_empty : manager_inv im (w_storage start) ∧ ∀ id, row im start id = None.
Proof. split; [|done]. split; [apply init_ok|done]. Qed.

Lemma random_id_ne n : random_id n ≠ "".
Proof. done. Qed.

Lemma one_more_names : names_types one_more.
Proof. intros req reply p [= <-]. cbn. by intros ->%list_elem_of_singleton. Qed.

Lemma three_rounds_fair r : r ∈ [round1; round2; round3] →
  names_types (rd_schedule r) ∧ max_num_retry_request_to_allocate (reconcile_config (rd_cfg r)) = 3.
Proof. rewrite !elem_of_cons, elem_of_nil. by intros [->|[->|[->|[]]]]; (split; [apply one_more_names|]). Qed.

Lemma reconciled_records_witness : ∃ i,
  row im (after [round1; round2; round3]) "i-1" = Some i ∧ status i = RAY_RUNNING ∧ legal_history i ∧ row_ok 3 i.
Proof.
  destruct (row im (after [round1; round2; round3]) "i-1") as [i|] eqn:Hi; [|by vm_compute in Hi].
  exists i. split; [done|]. destruct start_empty as [Hm Hempty].
  destruct (reconciled_records im clock random_id 3 ltac:(lia) start [round1; round2; round3] "i-1" i
    Hm Hempty random_id_ne three_rounds_fair Hi) as (_ & Hleg & _ & Hok).
  split; [|by split]. clear -Hi. vm_compute in Hi. by injection Hi as <-.
Defined.

Lemma inv_after rs : (∀ r, r ∈ rs → r ∈ [round1; round2; round3]) → inv im random_id 3 (after rs).
Proof.
  intros Hr. destruct start_empty as [Hm Hempty]. apply (run_rounds_inv im clock random_id 3); [lia|by apply inv_empty; [..|apply random_id_ne]|].
  intros r Hin. by apply three_rounds_fair, Hr.
Qed.

Lemma round3_ok : round_ok 3 round3.
Proof.
  split; [| |done|done|done|intros ty; by exists ty|intros w; by exists ([], [])|].
  - split; [split; [by apply (bool_decide_unpack _)|]|]; intros k c Hin;
      (apply elem_of_cons in Hin as [Hin|Hin%list_elem_of_singleton]; injection Hin as -> ->); [done..| |];
      (split; [done|]); (split; [set_solver|done]).
  - intros n Hin. apply elem_of_cons in Hin as [Hin|Hin%list_elem_of_singleton]; by subst n.
  - intros a b l _. eexists. split; [done|]. split; [by intros q ?%elem_of_nil|].
    cbn. by intros p ->%list_elem_of_singleton.
Qed.

Lemma reconcile_returns_witness :
  let res := run_round im clock random_id round3 (after [round1; round2]) in
  inv im random_id 3 res.2 ∧
  match res.1 with
  | Ok _ => ∀ i, i ∈ rows im res.2 → status i ∉ RAY_INSTALLING :: statuses_to_terminate
  | Raise _ => no_rate im (upscaling_speed (rd_cfg round3)) res.2
  end.
Proof.
  apply (reconcile_returns im clock random_id 3 ltac:(lia)).
  - apply inv_after. set_solver.
  - exact round3_ok.
  - assert (forallb (λ i, bool_decide (status i ∉ [RAY_INSTALLING; ALLOCATION_TIMEOUT; RAY_INSTALL_FAILED]))
      (rows im (after [round1; round2])) = true) as H by (vm_compute; reflexivity).
    rewrite forallb_forall in H. intros i Hi. apply list_elem_of_In, H, bool_decide_eq_true in Hi.
    split; [exact Hi|]. intros _ Hin. by apply elem_of_nil in Hin.
Defined.

(** A scheduler that terminates a record in [REQUESTED]. *)
Definition requested : TerminationRequest := {|
  tr_instance_id := Some "i-1"; tr_ray_node_id := ""; tr_instance_type := "cpu";
  tr_instance_status := Some REQUESTED; tr_cause := MAX_NUM_NODES |}.
Definition one_less (_ : SchedulingRequest) : result SchedulingReply := Ok {|
  to_launch := [("cpu", 1)]; to_ippr := []; to_terminate := [requested]; reply_cluster_resources := ∅;
  infeasible_resource_requests := []; infeasible_gang_resource_requests := [];
  infeasible_cluster_resource_constraints := [] |}.

Lemma scale_refuses_unservable_witness : ∃ e w',
  _scale_cluster im clock random_id one_less (λ _, Ok ([], [])) (rd_cfg round1) (rd_ray round1) None (after [round1])
    = (Raise e, w') ∧ w_storage w' = w_storage (after [round1]).
Proof.
  assert (inv im random_id 3 (after [round1])) as Hw by (apply inv_after; set_solver).
  assert (∀ i, i ∈ rows im (after [round1]) ↔ row im (after [round1]) (instance_id i) = Some i) as Hrow
    by (intros i; by apply (rows_spec im random_id 3)).
  eapply (scale_refuses_unservable im clock random_id 3 ltac:(lia) one_less (λ _, Ok ([], [])) (rd_cfg round1) (rd_ray round1) None
    (after [round1]) ([], []) _ requested Hw).
  - destruct (rows im (after [round1])) as [|h l] eqn:E; [by vm_compute in E|]. exists h.
    clear -E. vm_compute in E. injection E as <- _. split; [left|split; reflexivity].
  - done.
  - reflexivity.
  - reflexivity.
  - intros q i ->%list_elem_of_singleton Hi. clear -Hi. vm_compute in Hi. by injection Hi as <-.
  - left.
  - right. destruct (row im (after [round1]) "i-1") as [i|] eqn:Hi; [|by vm_compute in Hi]. exists i.
    assert (instance_id i = "i-1" ∧ status i = REQUESTED) as [Hid Hs] by (clear -Hi; vm_compute in Hi; by injection Hi as <-).
    rewrite Hrow, Hid, Hs. split; [exact Hi|]. split; [reflexivity|]. clear. set_solver.
Defined.

(** Records that were requested or queued at a time, or stopped. *)
Definition record_of (id ty cloud req : string) (s : InstanceStatus) (t : Z) : InstanceMsg := {|
  instance_id := id; cloud_instance_id := cloud; node_id := ""; status := s; instance_type := ty;
  total_resources := []; internal_ip := ""; external_ip := ""; version := 1;
  status_history := [{| instance_status := s; timestamp_ns := t; details := "" |}];
  launch_request_id := req; exit_details := ""; launch_config_hash := ""; node_kind := WORKER |}.

Definition requested_records : list InstanceMsg :=
  [record_of "a" "cpu" "" "r-1" REQUESTED 20; record_of "b" "cpu" "" "r-1" REQUESTED 10;
   record_of "g" "gpu" "" "r-2" REQUESTED 10; record_of "w" "cpu" "c-0" "" RAY_RUNNING 5].
Definition three_workers : dict string CloudInstance :=
  [cloud_of "c-0" "cpu" WORKER; cloud_of "c-1" "cpu" WORKER; cloud_of "c-2" "cpu" WORKER].

(** The earliest request gets the last instance of its type. *)
Example allocated_updates : (λ ups, map (λ p : string * InstanceUpdateEvent,
    (p.1, new_instance_status p.2, upd_cloud_instance_id p.2)) ups)
      <$> allocation_updates three_workers [LaunchNodeError "gpu" "r-2"] requested_records =
  Ok [("b", ALLOCATED, "c-2"); ("g", ALLOCATION_FAILED, ""); ("a", ALLOCATED, "c-1")].
Proof. vm_compute. reflexivity. Qed.

Lemma allocation_spec_witness : ∃ ups,
  allocation_updates three_workers [LaunchNodeError "gpu" "r-2"] requested_records = Ok ups ∧
  ∀ id id' u u', dget ups id = Some u → dget ups id' = Some u' → new_instance_status u = ALLOCATED →
    new_instance_status u' = ALLOCATED → upd_cloud_instance_id u = upd_cloud_instance_id u' → id = id'.
Proof.
  destruct (allocation_spec three_workers [LaunchNodeError "gpu" "r-2"] requested_records)
    as (ups & order & Hups & _ & _ & _ & _ & Hinj).
  - by apply (bool_decide_unpack _).
  - intros i Hi. revert Hi. unfold requested_records. rewrite !elem_of_cons, elem_of_nil.
    by intros [->|[->|[->|[->|[]]]]].
  - exists ups. split; [exact Hups|]. apply Hinj. split; [by apply (bool_decide_unpack _)|].
    intros k c. unfold three_workers. rewrite !elem_of_cons, elem_of_nil. by intros [[= -> ->]|[[= -> ->]|[[= -> ->]|[]]]].
Defined.

Definition queued_records : list InstanceMsg :=
  [record_of "a" "cpu" "" "" QUEUED 20; record_of "b" "cpu" "" "" QUEUED 10; record_of "g" "gpu" "" "" QUEUED 10].

(** Two more may be launched, of each type one. *)
Lemma launch_limits_witness :
  match _compute_to_launch queued_records [] [] (f_of_int 1) 2 with
  | Ok d => dwf d ∧ map (λ p : string * list InstanceMsg, (p.1, map instance_id p.2)) d = [("cpu", ["b"]); ("gpu", ["g"])] ∧
      launched_total d ≤ 2 ∧ 0 < launched_total d
  | Raise _ => False
  end.
Proof.
  destruct (_compute_to_launch queued_records [] [] (f_of_int 1) 2) as [d|] eqn:Hd; [|by vm_compute in Hd].
  destruct (launch_limits _ _ _ _ _ _ Hd) as (Hw & _ & Ht & _ & Hp). split; [exact Hw|]. split.
  - clear -Hd. vm_compute in Hd. by injection Hd as <-.
  - split; [exact Ht|]. apply Hp; done.
Defined.

(** The worker of the stopped record runs again under another record. *)
Definition stopped_records : list InstanceMsg :=
  [record_of "a" "cpu" "c-1" "" RAY_STOPPED 10; record_of "b" "cpu" "c-1" "" RAY_RUNNING 20;
   record_of "d" "cpu" "c-2" "" RAY_STOPPED 10].

Lemma terminate_instances_spec_witness : ∃ ups, terminate_updates stopped_records = Ok ups ∧
  new_instance_status <$> dget ups "a" = Some TERMINATED ∧ new_instance_status <$> dget ups "d" = Some TERMINATING ∧
  dget ups "b" = None.
Proof.
  destruct (terminate_instances_spec stopped_records) as (ups & Hups & _ & _); [by apply (bool_decide_unpack _)|].
  exists ups. split; [exact Hups|]. vm_compute in Hups. injection Hups as <-. by split_and!.
Defined.

Lemma ray_status_table_witness :
  ∃ s, _reconciled_im_status_from_ray_status NodeStatus.IDLE ALLOCATED = Ok s ∧ s ∈ InstanceUtil.get_valid_transitions ALLOCATED.
Proof.
  destruct (ray_status_table NodeStatus.IDLE ALLOCATED) as (s & Hs & _ & Hok); [done|].
  exists s. split; [exact Hs|]. vm_compute in Hs. injection Hs as <-. set_solver.
Defined.
End RecRun.
