(* ===== verification/Subscribers.v ===== *)
(** * [autoscaler/v2/instance_manager/subscribers]

    The subscribers of the instance manager are told the updates of every
    applied request: [CloudInstanceUpdater] asks the cloud provider to launch
    and to terminate, [RayStopper] asks GCS to stop Ray, and
    [CloudResourceMonitor] keeps the node types that were not available.  The
    calls they make are lists; log messages are not modelled. *)
From Stdlib Require Import Strings.Byte Strings.Ascii Floats.SpecFloat.
From S2P Require Import Prelude PyDict PyFloat InstanceUtil InstanceManager SchedNode Reconciler.

(** ** [CloudInstanceUpdater] *)
Module CloudInstanceUpdater.

(** The calls of the cloud provider and of the metrics reporter. *)
Inductive call : Type :=
  | launch (shape : dict string Z) (request_id : string)
  | terminate (ids : list string) (request_id : string)
  | inc_stopped_nodes (n : Z).

Definition request_shape (events : list InstanceUpdateEvent) : dict string Z :=
  foldl (λ d e, dset d (upd_instance_type e) (default 0 (dget d (upd_instance_type e)) + 1)) [] events.

(** The loop over the events, whose assertion comes before any launch. *)
Definition by_launch_request (events : list InstanceUpdateEvent) :
    result (dict string (list InstanceUpdateEvent)) :=
  result_fold (λ d e,
    _ ← py_assert (truthy (upd_launch_request_id e));
    Ok (dset d (upd_launch_request_id e) (default [] (dget d (upd_launch_request_id e)) ++ [e]))) [] events.

Definition _launch_new_instances (events : list InstanceUpdateEvent) : result (list call) :=
  d ← by_launch_request events;
  Ok (map (λ p : string * list InstanceUpdateEvent, launch (request_shape p.2) p.1) d).

(** [request_id] is the fresh [uuid.uuid4()]. *)
Definition _terminate_instances (request_id : string) (events : list InstanceUpdateEvent) : list call :=
  match events with [] => [] | _ => [terminate (map upd_cloud_instance_id events) request_id] end.

Definition _count_stopped_instances (metrics : bool) (events : list InstanceUpdateEvent) : list call :=
  match events with [] => [] | _ => if metrics then [inc_stopped_nodes (Z.of_nat (length events))] else [] end.

Definition notify (metrics : bool) (request_id : string) (events : list InstanceUpdateEvent) : result (list call) :=
  launches ← _launch_new_instances (filter (λ e, new_instance_status e = REQUESTED) events);
  Ok (launches ++
    _terminate_instances request_id (filter (λ e, new_instance_status e = TERMINATING) events) ++
    _count_stopped_instances metrics
      (filter (λ e, new_instance_status e = TERMINATED ∧ truthy (upd_cloud_instance_id e)) events)).
End CloudInstanceUpdater.

(** ** [RayStopper] *)

(** [hex_to_binary] *)
Definition hex_value (c : ascii) : option N :=
  let n := N_of_ascii c in
  if (48 <=? n)%N && (n <=? 57)%N then Some (n - 48)%N
  else if (97 <=? n)%N && (n <=? 102)%N then Some (n - 87)%N
  else if (65 <=? n)%N && (n <=? 70)%N then Some (n - 55)%N
  else None.

Fixpoint hex_to_binary (s : string) : result (list byte) :=
  match s with
  | "" => Ok []
  | String a (String b s) =>
      v ← or_raise ValueError (hex_value a);
      w ← or_raise ValueError (hex_value b);
      c ← or_raise ValueError (Byte.of_N (16 * v + w));
      rest ← hex_to_binary s;
      Ok (c :: rest)
  | String _ "" => Raise ValueError
  end%string.

Module RayStopper.
Section stopper.
(** The replies of GCS: whether a drain is accepted, and the nodes drained. *)
Variables (drain_node : string → result bool) (drain_nodes : list (list byte) → result (list (list byte))).

(** The calls of GCS; a drain is for idle termination. *)
Inductive call : Type :=
  | DrainNode (ray_node_id : string)
  | DrainNodes (node_ids : list (list byte)).

Definition stop_error (e : InstanceUpdateEvent) : RayStopError := {| rse_im_instance_id := upd_instance_id e |}.

Definition _drain_ray_node (ray_node_id : string) (e : InstanceUpdateEvent) : list call * list RayStopError :=
  ([DrainNode ray_node_id],
   match drain_node ray_node_id with Ok true => [] | Ok false | Raise _ => [stop_error e] end).

Definition _stop_ray_node (ray_node_id : string) (e : InstanceUpdateEvent) : list call * list RayStopError :=
  match hex_to_binary ray_node_id with
  | Raise _ => ([], [stop_error e])
  | Ok id =>
      ([DrainNodes [id]],
       match drain_nodes [id] with
       | Ok drained => if (0 <? length drained)%nat then [] else [stop_error e]
       | Raise _ => [stop_error e]
       end)
  end.

(** The calls made and the errors put on the queue. *)
Definition _stop_or_drain_ray (e : InstanceUpdateEvent) : result (list call * list RayStopError) :=
  r ← or_raise AssertionError (upd_termination_request e);
  Ok (if bool_decide (tr_cause r = IDLE) then _drain_ray_node (tr_ray_node_id r) e
      else _stop_ray_node (tr_ray_node_id r) e).

(** The tasks run in order on the one thread of the executor; what a task
    raises is logged. *)
Definition notify (events : list InstanceUpdateEvent) : list call * list RayStopError :=
  foldl (λ p e, match _stop_or_drain_ray e with
    | Ok q => (p.1 ++ q.1, p.2 ++ q.2) | Raise _ => p end) ([], [])
    (filter (λ e, new_instance_status e = RAY_STOP_REQUESTED) events).
End stopper.
End RayStopper.

(** ** [CloudResourceMonitor] *)
Module CloudResourceMonitor.

(** [_last_unavailable_timestamp] *)
Definition t : Type := dict string float.
Definition init : t := [].

Definition allocation_timeout (now : float) (e : InstanceUpdateEvent) (x : t) : t :=
  dset x (upd_instance_type e) now.

Definition allocation_succeeded (e : InstanceUpdateEvent) (x : t) : t := ddel x (upd_instance_type e).

(** [clock k] is the reading of the clock for the k-th event. *)
Fixpoint notify (clock : nat → float) (events : list InstanceUpdateEvent) (x : t) : t :=
  match events with
  | [] => x
  | e :: events =>
      notify (λ k, clock (S k)) events
        (if bool_decide (new_instance_status e = ALLOCATION_TIMEOUT) then allocation_timeout (clock O) e x
         else if bool_decide (new_instance_status e = RAY_RUNNING) && truthy (upd_instance_type e)
         then allocation_succeeded e x else x)
  end.

(** [x / y] *)
Definition f_divide (x y : float) : result float :=
  if f_eqb y f_zero then Raise ZeroDivisionError else Ok (f_div x y).

(** [0.1] *)
Definition f_tenth : float := S754_finite false 7205759403792794 (-56).

(** [max] of a non-empty list of floats. *)
Definition max_of (l : list float) : option float :=
  match l with [] => None | x :: l => Some (foldl (λ m y, if f_ltb m y then y else m) x l) end.

Definition get_resource_availabilities (x : t) : result (dict string float) :=
  match max_of x.*2 with
  | None => Ok []
  | Some max_ts =>
      result_map (λ p : string * float,
        q ← f_divide p.2 max_ts;
        Ok (p.1, f_sub (f_of_int 1) q)) x
  end.

(** [recovery_s] is [RAY_AUTOSCALER_AVAILABILITY_RECOVERY_S]. *)
Definition safety_floor (recovery_s : Z) : float :=
  let x := f_mul (f_of_int recovery_s) f_tenth in
  if f_ltb x (f_of_int 10) then x else f_of_int 10.

Definition recovery_score (recovery_s : Z) (current_time last_ts : float) : result float :=
  let diff := f_sub current_time last_ts in
  if f_ltb diff (safety_floor recovery_s) then Ok f_zero
  else
    q ← f_divide diff (f_of_int recovery_s);
    Ok (if f_ltb q (f_of_int 1) then q else f_of_int 1).

Definition get_recoverable_resource_availabilities (recovery_s : Z) (current_time : float) (x : t) :
    result (dict string float) :=
  _ ← py_assert (0 <? recovery_s);
  result_map (λ p : string * float, s ← recovery_score recovery_s current_time p.2; Ok (p.1, s)) x.
End CloudResourceMonitor.
