(* ===== verification/SubscribersFacts.v ===== *)
(** * The subscribers: what the cloud provider and GCS are asked for *)
From Stdlib Require Import Strings.Byte Strings.Ascii.
From S2P Require Import Prelude PyDict PyFloat InstanceUtil InstanceUtilFacts Storage StorageFacts.
From S2P Require Import InstanceManager InstanceManagerFacts SchedNode Reconciler ReconcilerFacts ReconcilerUpdates.
From S2P Require Import Subscribers.

(** ** Launches *)
Import CloudInstanceUpdater.

(** The instances one call asks for: their launch request and type. *)
Definition asked (c : call) : list (string * string) :=
  match c with
  | launch shape req => concat (map (λ p : string * Z, replicate (Z.to_nat p.2) (req, p.1)) shape)
  | _ => []
  end.

Definition counted (d : dict string Z) : list string := concat (map (λ p : string * Z, replicate (Z.to_nat p.2) p.1) d).

Lemma count_one d k : (∀ p, p ∈ d → 0 ≤ p.2) →
  counted (dset d k (default 0 (dget d k) + 1)) ≡ₚ k :: counted d ∧ ∀ p, p ∈ dset d k (default 0 (dget d k) + 1) → 0 ≤ p.2.
Proof.
  unfold counted. induction d as [|[j n] d IH]; intros Hd.
  { split; [done|]. intros p ->%list_elem_of_singleton. simpl. lia. }
  assert (0 ≤ n) as Hn by (apply (Hd (j, n)); left). cbn [dset dget]. case_decide as E.
  - subst k. cbn [default from_option id map concat fst snd]. split.
    + replace (Z.to_nat (n + 1)) with (S (Z.to_nat n)) by lia. done.
    + intros p [->|Hp]%elem_of_cons; [simpl; lia|]. apply Hd. by right.
  - destruct IH as [IH1 IH2]; [intros p Hp; apply Hd; by right|]. cbn [map concat fst snd]. split.
    + rewrite IH1. symmetry. apply Permutation_middle.
    + intros p [->|Hp]%elem_of_cons; [done|by apply IH2].
Qed.

Lemma request_shape_counted events : counted (request_shape events) ≡ₚ map upd_instance_type events.
Proof.
  unfold request_shape. assert (∀ d : dict string Z, (∀ p, p ∈ d → 0 ≤ p.2) →
    counted (foldl (λ d e, dset d (upd_instance_type e) (default 0 (dget d (upd_instance_type e)) + 1)) d events)
      ≡ₚ counted d ++ map upd_instance_type events) as H.
  { induction events as [|e events IH]; intros d Hd; cbn [foldl map]; [by rewrite app_nil_r|].
    destruct (count_one d (upd_instance_type e) Hd) as [H1 H2]. rewrite IH by done. rewrite H1. apply Permutation_middle. }
  rewrite H; [done|]. by intros p ?%elem_of_nil.
Qed.

Lemma asked_launch req events :
  asked (launch (request_shape events) req) ≡ₚ map (λ e, (req, upd_instance_type e)) events.
Proof.
  assert (∀ d : dict string Z, asked (launch d req) = map (pair req) (counted d)) as ->.
  { intros d. unfold asked, counted. rewrite concat_map, map_map. f_equal. apply map_ext. intros [ty n].
    symmetry. apply (fmap_replicate (pair req)). }
  change (map (pair req) ?l) with (pair req <$> l). rewrite request_shape_counted.
  change (pair req <$> map ?f ?l) with (pair req <$> (f <$> l)). by rewrite <-list_fmap_compose.
Qed.

(** The groups of a list are its elements. *)
Lemma group_of_perm {A} (key : A → string) (l : list A) : concat (group_of key l).*2 ≡ₚ l.
Proof.
  assert (∀ (d : dict string (list A)) k a,
    concat (dset d k (default [] (dget d k) ++ [a])).*2 ≡ₚ concat d.*2 ++ [a]) as Hset.
  { intros d k a. induction d as [|[j la] d IH]; [done|]. cbn [dset dget]. case_decide.
    - simpl. rewrite <-!app_assoc. apply Permutation_app_head, Permutation_app_comm.
    - simpl. rewrite IH. by rewrite app_assoc. }
  unfold group_of. induction l as [|a l IH] using rev_ind; [done|]. rewrite foldl_snoc, Hset. by rewrite IH.
Qed.

Lemma by_launch_request_ok events : (∀ e, e ∈ events → upd_launch_request_id e ≠ "") →
  by_launch_request events = Ok (group_of upd_launch_request_id events).
Proof.
  unfold by_launch_request, group_of. generalize (@nil (string * list InstanceUpdateEvent)) as d.
  induction events as [|e events IH]; intros d He; [done|]. cbn [result_fold foldl].
  rewrite (proj2 (truthy_ne _)) by (apply He; left). cbn [py_assert mbind result_bind]. apply IH.
  intros e' He'. apply He. by right.
Qed.

(** The launch request ids, and the ids to terminate, of some calls. *)
Definition launch_ids : list call → list string :=
  omap (λ c, match c with launch _ req => Some req | _ => None end).
Definition terminate_ids : list call → list (list string) :=
  omap (λ c, match c with terminate ids _ => Some ids | _ => None end).

Lemma launches_asked events : (∀ e, e ∈ events → upd_launch_request_id e ≠ "") →
  ∃ calls, _launch_new_instances events = Ok calls ∧
    concat (map asked calls) ≡ₚ map (λ e, (upd_launch_request_id e, upd_instance_type e)) events ∧
    (∀ c, c ∈ calls → ∃ shape req, c = launch shape req) ∧
    NoDup (launch_ids calls).
Proof.
  intros He. unfold _launch_new_instances. rewrite by_launch_request_ok by done. eexists. split; [done|].
  assert (∀ k g, (k, g) ∈ group_of upd_launch_request_id events → ∀ e, e ∈ g → upd_launch_request_id e = k) as Hk.
  { intros k g [-> _]%group_of_elem e. by intros [? _]%list_elem_of_filter. }
  destruct (group_of_spec upd_launch_request_id events) as (Hw & _). split; [|split].
  - rewrite <-(group_of_perm upd_launch_request_id events) at 2. revert Hk. generalize (group_of upd_launch_request_id events) as d.
    clear. induction d as [|[k g] d IH]; intros Hk; [done|]. cbn [map concat fmap list_fmap fst snd].
    rewrite asked_launch, IH, map_app; [|intros k' g' Hin; apply Hk; by right].
    apply Permutation_app_tail. apply reflexive_eq, map_ext_in. intros e Hin%list_elem_of_In.
    by rewrite (Hk k g ltac:(left) e Hin).
  - intros c ([k g] & -> & _)%list_elem_of_fmap. by eexists _, _.
  - unfold dwf in Hw. revert Hw. generalize (group_of upd_launch_request_id events) as d. clear.
    induction d as [|[k g] d IH]; intros Hw; [constructor|]. cbn in *. apply NoDup_cons in Hw as [Hn Hw].
    constructor; [|by apply IH]. intros (c & ([k' g'] & -> & Hin)%list_elem_of_fmap & [= ->])%list_elem_of_omap.
    apply Hn, list_elem_of_fmap. by exists (k, g').
Qed.

Lemma count_calls metrics l : let calls := _count_stopped_instances metrics l in
  concat (map asked calls) = [] ∧ launch_ids calls = [] ∧ terminate_ids calls = [].
Proof. by destruct l, metrics. Qed.

(** The calls for any events whose requests have launch request ids. *)
Lemma notify_calls metrics request_id events :
  let requests := filter (λ e, new_instance_status e = REQUESTED) events in
  let terminating := filter (λ e, new_instance_status e = TERMINATING) events in
  (∀ e, e ∈ requests → upd_launch_request_id e ≠ "") →
  ∃ calls, notify metrics request_id events = Ok calls ∧
    concat (map asked calls) ≡ₚ map (λ e, (upd_launch_request_id e, upd_instance_type e)) requests ∧
    NoDup (launch_ids calls) ∧
    terminate_ids calls = if decide (terminating = []) then [] else [map upd_cloud_instance_id terminating].
Proof.
  intros requests terminating He. unfold notify. fold requests terminating.
  destruct (launches_asked requests He) as (calls & -> & Hasked & Hlaunch & Hids).
  cbn [mbind result_bind]. eexists. split; [done|]. set (counts := _count_stopped_instances _ _).
  destruct (count_calls metrics (filter (λ e, new_instance_status e = TERMINATED ∧ truthy (upd_cloud_instance_id e)) events))
    as (Hc & Hcl & Hct). fold counts in Hc, Hcl, Hct.
  assert (terminate_ids calls = []) as Hlt.
  { clear -Hlaunch. induction calls as [|c calls IH]; [done|]. destruct (Hlaunch c) as (sh & req & ->); [left|].
    apply IH. intros c' Hc'. apply Hlaunch. by right. }
  unfold launch_ids, terminate_ids in *. rewrite !map_app, !concat_app, !omap_app, Hcl, Hct, Hlt, Hasked.
  rewrite Hc. by destruct terminating; cbn; rewrite !app_nil_r.
Qed.

(** ** An applied request *)

Lemma event_carries now old u j : apply_event now old u = Ok j → carries u.
Proof.
  destruct old as [i|]; simpl; [unfold InstanceManager._update_instance|unfold InstanceManager._create_instance];
    intros H; inv_ok; by eapply applied_carries.
Qed.

(** The record of an applied launch request is the request's. *)
Lemma event_requested now old u j : apply_event now old u = Ok j → new_instance_status u = REQUESTED →
  status j = REQUESTED ∧ launch_request_id j = upd_launch_request_id u ∧ instance_type j = upd_instance_type u.
Proof.
  intros Hj Hu. destruct (apply_event_status _ _ _ _ Hj) as (Hs & _ & Hold). split; [congruence|].
  destruct old as [i|]; [|destruct Hold as [_ Hold]; rewrite Hu in Hold; unfold creation_statuses in Hold; set_solver].
  pose proof (event_carries _ _ _ _ Hj) as Hc. simpl in Hj. unfold InstanceManager._update_instance in Hj. inv_ok.
  destruct (apply_ok r u Hc) as (j' & Hj' & _ & _ & _ & Hf). rewrite Hj in Hj'. injection Hj' as <-.
  rewrite Hu in Hf. tauto.
Qed.

(** When the updates have distinct ids, each one counts. *)
Lemma effective_distinct request u : NoDup (map upd_instance_id (updates request)) → u ∈ updates request →
  effective request (upd_instance_id u) = Some u.
Proof.
  intros Hnd Hu. unfold effective. rewrite dget_reverse.
  - apply dget_wf_elem; [|by apply (list_elem_of_fmap_2 (λ u, (upd_instance_id u, u)))].
    unfold dwf. by rewrite <-list_fmap_compose.
  - unfold dwf. by rewrite <-list_fmap_compose.
Qed.

Section manager.
Context {St V Sub : Type} `{!Storage St V, !InstanceCodec V}.
Context `{!StorageLaws (St:=St) (V:=V), !InstanceCodecLaws V}.
Implicit Types (x : InstanceManager.t Sub).

(** Each update of an applied request and its record. *)
Lemma applied_request x clock request st v st' notified : manager_inv x st →
  NoDup (map upd_instance_id (updates request)) →
  InstanceManager.update_instance_manager_state x clock request st =
    (Ok {| reply_code := OK; reply_version := v |}, st', notified) →
  ∀ u, u ∈ updates request → ∃ n j, apply_event (clock n) (view (table_name x) st (upd_instance_id u)) u = Ok j ∧
    view (table_name x) st' (upd_instance_id u) = Some (InstanceUtil.set_version v j).
Proof.
  intros Hinv Hnd Hreq u Hu. destruct (update_outcome x clock request st Hinv) as [_ Hout]. rewrite Hreq in Hout.
  destruct Hout as [(st1 & [= -> -> ->] & _ & Hview)|[[[= _ _ _] _]|(e & id & w & n & [=] & _)]].
  specialize (Hview (upd_instance_id u)). rewrite effective_distinct in Hview by done. exact Hview.
Qed.

(** The records of launch requests, in order. *)
Lemma applied_launches x st' reqs :
  (∀ u, u ∈ reqs → ∃ j, view (table_name x) st' (upd_instance_id u) = Some j ∧ status j = REQUESTED ∧
     launch_request_id j = upd_launch_request_id u ∧ instance_type j = upd_instance_type u) →
  ∃ launched, Forall2 (λ u j, view (table_name x) st' (upd_instance_id u) = Some j ∧ status j = REQUESTED) reqs launched ∧
    map (λ e, (upd_launch_request_id e, upd_instance_type e)) reqs =
    map (λ j, (launch_request_id j, instance_type j)) launched.
Proof.
  induction reqs as [|u reqs IH]; intros H; [by exists []|].
  destruct IH as (launched & H1 & H2); [intros w Hw; apply H; by right|].
  destruct (H u) as (j & Hv & Hs & Hl & Ht); [left|]. exists (j :: launched). split; [by constructor|].
  cbn [map]. by rewrite H2, Hl, Ht.
Qed.

(** What the cloud provider is asked to launch is what the records say.
    After a request with one update per record was applied, the updater's
    assertion holds, and it launches each instance that became [REQUESTED] once,
    under the launch request id and the type of its record, one call per launch
    request id; and it terminates the cloud instances of the [TERMINATING]
    updates in one call, none of them unset. *)
Theorem launches_match_records x clock request st v st' notified (metrics : bool) (request_id : string) :
  manager_inv x st → NoDup (map upd_instance_id (updates request)) →
  InstanceManager.update_instance_manager_state x clock request st =
    (Ok {| reply_code := OK; reply_version := v |}, st', notified) →
  ∃ calls launched, CloudInstanceUpdater.notify metrics request_id (updates request) = Ok calls ∧
    Forall2 (λ u j, view (table_name x) st' (upd_instance_id u) = Some j ∧ status j = REQUESTED)
      (filter (λ u, new_instance_status u = REQUESTED) (updates request)) launched ∧
    concat (map asked calls) ≡ₚ map (λ j, (launch_request_id j, instance_type j)) launched ∧
    NoDup (launch_ids calls) ∧
    let terminating := filter (λ u, new_instance_status u = TERMINATING) (updates request) in
    terminate_ids calls = (if decide (terminating = []) then [] else [map upd_cloud_instance_id terminating]) ∧
    Forall (λ u, upd_cloud_instance_id u ≠ "") terminating.
Proof.
  intros Hinv Hnd Hreq. pose proof (applied_request x clock request st v st' notified Hinv Hnd Hreq) as Happ.
  set (reqs := filter (λ u, new_instance_status u = REQUESTED) _).
  assert (∀ u, u ∈ reqs → u ∈ updates request ∧ new_instance_status u = REQUESTED) as Hin
    by by intros u [? ?]%list_elem_of_filter.
  destruct (notify_calls metrics request_id (updates request)) as (calls & -> & Hasked & Hids & Hterm).
  { intros u [Hu Hs]%Hin. destruct (Happ u Hu) as (n & j & Hj & _). apply event_carries in Hj.
    unfold carries in Hj. rewrite Hs in Hj. apply Hj. }
  destruct (applied_launches x st' reqs) as (launched & Hrec & Hmap).
  { intros u [Hu Hs]%Hin. destruct (Happ u Hu) as (n & j & Hj & Hv).
    destruct (event_requested _ _ _ _ Hj Hs) as (Hst & Hl & Ht). by exists (InstanceUtil.set_version v j). }
  exists calls, launched. rewrite <-Hmap. split_and!; [done..|]. split; [exact Hterm|].
  apply Forall_forall. intros u [Hs Hu]%list_elem_of_filter. destruct (Happ u Hu) as (n & j & Hj & _).
  apply event_carries in Hj. unfold carries in Hj. by rewrite Hs in Hj.
Qed.
End manager.

(** ** Stopping Ray *)
Lemma hex_byte b s : hex_to_binary (binary_to_hex [b] +:+ s) = (rest ← hex_to_binary s; Ok (b :: rest)).
Proof. destruct b; reflexivity. Qed.

Lemma hex_roundtrip l : hex_to_binary (binary_to_hex l) = Ok l.
Proof.
  induction l as [|b l IH]; [done|]. change (binary_to_hex (b :: l)) with (binary_to_hex [b] +:+ binary_to_hex l).
  by rewrite hex_byte, IH.
Qed.

Section stopper.
Variables (drain_node : string → result bool) (drain_nodes : list (list byte) → result (list (list byte))).

(** A request to stop the node of the bytes [b]. *)
Definition stops (e : InstanceUpdateEvent) (b : list byte) : Prop :=
  ∃ r, upd_termination_request e = Some r ∧ tr_ray_node_id r = binary_to_hex b.

Definition for_idle (e : InstanceUpdateEvent) : bool :=
  match upd_termination_request e with Some r => bool_decide (tr_cause r = IDLE) | None => false end.

(** GCS does not stop the node. *)
Definition refused (e : InstanceUpdateEvent) (b : list byte) : bool :=
  if for_idle e then match drain_node (binary_to_hex b) with Ok true => false | _ => true end
  else match drain_nodes [b] with Ok (_ :: _) => false | _ => true end.

Lemma stop_one e b : stops e b → RayStopper._stop_or_drain_ray drain_node drain_nodes e =
  Ok ([if for_idle e then RayStopper.DrainNode (binary_to_hex b) else RayStopper.DrainNodes [b]],
      if refused e b then [{| rse_im_instance_id := upd_instance_id e |}] else []).
Proof.
  intros (r & Hr & Hid). unfold RayStopper._stop_or_drain_ray, refused, for_idle. rewrite Hr. cbn [or_raise mbind result_bind].
  f_equal. case_bool_decide.
  - unfold RayStopper._drain_ray_node. rewrite Hid. f_equal. by destruct (drain_node _) as [[]|].
  - unfold RayStopper._stop_ray_node. rewrite Hid, hex_roundtrip. f_equal. by destruct (drain_nodes _) as [[]|].
Qed.

(** C37: The stopper asks GCS for each record that is to stop Ray exactly once,
    in order: to drain its Ray node when it is idle, else to stop the node whose
    bytes the hexadecimal id stands for; and the errors it hands back to the
    reconciler are exactly the records whose node GCS refused to stop, or for
    which the call failed. *)
Theorem ray_stopper_spec (events : list InstanceUpdateEvent) (nodes : list (list byte)) :
  Forall2 stops (filter (λ e, new_instance_status e = RAY_STOP_REQUESTED) events) nodes →
  RayStopper.notify drain_node drain_nodes events =
    let targets := zip (filter (λ e, new_instance_status e = RAY_STOP_REQUESTED) events) nodes in
    (map (λ p : InstanceUpdateEvent * list byte,
       if for_idle p.1 then RayStopper.DrainNode (binary_to_hex p.2) else RayStopper.DrainNodes [p.2]) targets,
     map (λ p : InstanceUpdateEvent * list byte, {| rse_im_instance_id := upd_instance_id p.1 |})
       (filter (λ p : InstanceUpdateEvent * list byte, refused p.1 p.2 = true) targets)).
Proof.
  unfold RayStopper.notify. set (es := filter _ events). clearbody es. intros Hs.
  assert (∀ acc, foldl (λ p e, match RayStopper._stop_or_drain_ray drain_node drain_nodes e with
      | Ok q => (p.1 ++ q.1, p.2 ++ q.2) | Raise _ => p end) acc es =
    (acc.1 ++ map (λ p : InstanceUpdateEvent * list byte,
       if for_idle p.1 then RayStopper.DrainNode (binary_to_hex p.2) else RayStopper.DrainNodes [p.2]) (zip es nodes),
     acc.2 ++ map (λ p : InstanceUpdateEvent * list byte, {| rse_im_instance_id := upd_instance_id p.1 |})
       (filter (λ p : InstanceUpdateEvent * list byte, refused p.1 p.2 = true) (zip es nodes)))) as H; [|by rewrite H].
  induction Hs as [|e b es nodes He _ IH]; intros [calls errors].
  { cbn. by rewrite !app_nil_r. }
  cbn [foldl]. rewrite (stop_one e b He), IH. cbn [fst snd zip zip_with map]. rewrite filter_cons. cbn [fst snd].
  rewrite <-!app_assoc. f_equal. destruct (refused e b).
  - by rewrite decide_True.
  - by rewrite decide_False.
Qed.
End stopper.

(** ** Availability *)

(** What an event says of the availability of a type, if anything. *)
Definition verdict (e : InstanceUpdateEvent) : option (string * bool) :=
  match new_instance_status e with
  | ALLOCATION_TIMEOUT => Some (upd_instance_type e, false)
  | RAY_RUNNING => if bool_decide (upd_instance_type e = "") then None else Some (upd_instance_type e, true)
  | _ => None
  end.

(** The events about a type, with the times they were told at. *)
Fixpoint about (clock : nat → float) (events : list InstanceUpdateEvent) (ty : string) : list (float * bool) :=
  match events with
  | [] => []
  | e :: events =>
      match verdict e with
      | Some (t, b) => if bool_decide (t = ty) then [(clock O, b)] else []
      | None => []
      end ++ about (λ k, clock (S k)) events ty
  end.

Lemma notify_about clock events x : dwf x →
  dwf (CloudResourceMonitor.notify clock events x) ∧
  ∀ ty, dget (CloudResourceMonitor.notify clock events x) ty =
    match last (about clock events ty) with
    | Some (ts, false) => Some ts | Some (_, true) => None | None => dget x ty end.
Proof.
  revert clock x. induction events as [|e events IH]; intros clock x Hx; [done|].
  cbn [CloudResourceMonitor.notify about]. set (x' := if bool_decide _ then _ else _).
  assert (dwf x' ∧ ∀ ty, dget x' ty = match verdict e with
    | Some (t, b) => if bool_decide (t = ty) then (if b then None else Some (clock O)) else dget x ty
    | None => dget x ty end) as [Hx' Hstep].
  { unfold x', verdict, CloudResourceMonitor.allocation_timeout, CloudResourceMonitor.allocation_succeeded.
    destruct (new_instance_status e); try done.
    - rewrite (bool_decide_eq_false_2 (RAY_RUNNING = _)), (bool_decide_eq_true_2 (RAY_RUNNING = _)) by done. cbn [andb].
      unfold truthy, InstanceManager.truthy. destruct (decide (upd_instance_type e = "")) as [E|E].
      { by rewrite bool_decide_eq_false_2, bool_decide_eq_true_2 by tauto. }
      rewrite bool_decide_eq_true_2, bool_decide_eq_false_2 by done. split; [by apply ddel_wf|].
      intros ty. case_bool_decide as Et; [subst ty; by apply dget_ddel_eq|by apply dget_ddel_ne].
    - rewrite bool_decide_eq_true_2 by done. split; [by apply dset_wf|]. intros ty. rewrite dget_dset.
      case_bool_decide; [by rewrite decide_True|by rewrite decide_False by congruence]. }
  destruct (IH (λ k, clock (S k)) x' Hx') as [Hw Hget]. split; [done|]. intros ty. rewrite Hget, last_app, Hstep.
  destruct (last (about _ _ _)) as [[]|]; [done|]. destruct (verdict e) as [[t b]|]; [|done].
  case_bool_decide; [by destruct b|done].
Qed.

(** ** Recovery scores *)
Lemma recovery_score_ok recovery_s now ts : f_eqb (f_of_int recovery_s) f_zero = false →
  ∃ s, CloudResourceMonitor.recovery_score recovery_s now ts = Ok s ∧
    (f_ltb (f_sub now ts) (CloudResourceMonitor.safety_floor recovery_s) = true → s = f_zero) ∧
    f_ltb (f_of_int 1) s = false.
Proof.
  intros Hr. unfold CloudResourceMonitor.recovery_score, CloudResourceMonitor.f_divide.
  destruct (f_ltb (f_sub now ts) _); [by exists f_zero|]. rewrite Hr. cbn [mbind result_bind].
  eexists. split; [done|]. split; [done|]. set (q := f_div _ _).
  destruct (f_ltb q (f_of_int 1)) eqn:Hq; [|done].
  assert (f_is_nan q = false) as Hn by (clearbody q; by destruct q).
  apply (f_ltb_rank q (f_of_int 1) Hn eq_refl) in Hq. destruct (f_ltb (f_of_int 1) q) eqn:Hq'; [|done].
  apply (f_ltb_rank (f_of_int 1) q eq_refl Hn) in Hq'. unfold lt3 in *. lia.
Qed.

(** A type counts as unavailable exactly when the last event about it was
    an allocation that timed out, since the time of that event; a node of the
    type that runs Ray makes it available again.  The recovery scores are for
    exactly the unavailable types, zero within the safety floor and never above
    one. *)
Theorem monitor_spec (clock : nat → float) (events : list InstanceUpdateEvent) :
  let x := CloudResourceMonitor.notify clock events CloudResourceMonitor.init in
  (∀ ty, dget x ty = match last (about clock events ty) with Some (ts, false) => Some ts | _ => None end) ∧
  ∀ recovery_s now, 0 < recovery_s → f_eqb (f_of_int recovery_s) f_zero = false →
    ∃ scores, CloudResourceMonitor.get_recoverable_resource_availabilities recovery_s now x = Ok scores ∧
      scores.*1 = x.*1 ∧
      ∀ ty s, (ty, s) ∈ scores → ∃ ts, dget x ty = Some ts ∧ f_ltb (f_of_int 1) s = false ∧
        (f_ltb (f_sub now ts) (CloudResourceMonitor.safety_floor recovery_s) = true → s = f_zero).
Proof.
  intros x. destruct (notify_about clock events CloudResourceMonitor.init) as [Hw Hget]; [apply NoDup_nil_2|].
  fold x in Hw, Hget. split.
  { intros ty. rewrite Hget. by destruct (last _) as [[? []]|]. }
  intros recovery_s now Hpos Hr. unfold CloudResourceMonitor.get_recoverable_resource_availabilities.
  rewrite (proj2 (Z.ltb_lt 0 recovery_s)) by done. cbn [py_assert mbind result_bind].
  destruct (result_map_total (λ p : string * float,
    s ← CloudResourceMonitor.recovery_score recovery_s now p.2; Ok (p.1, s)) x) as [scores Hs].
  { intros [ty ts] _. destruct (recovery_score_ok recovery_s now ts Hr) as (s & Hs & _). cbn [fst snd]. rewrite Hs. by eexists. }
  exists scores. split; [done|]. apply result_map_ok in Hs. split.
  - clear -Hs. induction Hs as [|p q x scores Hp _ IH]; [done|]. inv_ok. cbn. by rewrite IH.
  - intros ty s Hin. apply list_elem_of_lookup in Hin as [n Hn]. destruct (Forall2_lookup_r _ _ _ _ _ Hs Hn) as ([ty' ts] & Hl & Hp).
    destruct (recovery_score_ok recovery_s now ts Hr) as (s' & Hs' & Hz & H1). cbn [fst snd] in Hp. rewrite Hs' in Hp.
    injection Hp as -> ->. exists ts. split; [|done]. apply dget_wf_elem; [done|]. by eapply list_elem_of_lookup_2.
Qed.

(** ** At concrete inputs

    A round in which one instance is launched, a stop that GCS refuses, and a
    node type that times out and recovers. *)
Module SubRun.

#[local] Instance id_codec : InstanceCodec InstanceMsg :=
  {| SerializeToString i := i; ParseFromString i := i |}.
#[local] Instance id_codec_laws : InstanceCodecLaws InstanceMsg.
Proof. split. done. Qed.

Definition event (id : string) (s : InstanceStatus) (ty launch : string) : InstanceUpdateEvent := {|
  upd_instance_id := id; new_instance_status := s; upd_details := ""; upsert := bool_decide (s = QUEUED);
  upd_instance_type := ty; upd_cloud_instance_id := ""; upd_node_kind := UNMANAGED;
  upd_ray_node_id := ""; upd_launch_request_id := launch; upd_termination_request := None |}.

(** ** Two instances queued, then launched in one request *)
Definition launch_ab : UpdateRequest :=
  {| expected_version := 1; updates := [event "a" REQUESTED "cpu" "l-1"; event "b" REQUESTED "cpu" "l-1"] |}.

Definition queued_state : InMemoryStorage.t InstanceMsg :=
  run_requests demo_manager
    [(Z.of_nat, {| expected_version := 0; updates := [event "a" QUEUED "cpu" ""; event "b" QUEUED "cpu" ""] |})]
    InMemoryStorage.init.

Definition launched_state : InMemoryStorage.t InstanceMsg :=
  (InstanceManager.update_instance_manager_state demo_manager Z.of_nat launch_ab queued_state).1.2.

Example launches_once :
  CloudInstanceUpdater.notify true "t-1" (updates launch_ab) = Ok [CloudInstanceUpdater.launch [("cpu", 2)] "l-1"].
Proof. vm_compute. reflexivity. Qed.

Lemma launches_match_records_witness :
  ∃ calls launched, CloudInstanceUpdater.notify true "t-1" (updates launch_ab) = Ok calls ∧
    length launched = 2%nat ∧ concat (map asked calls) ≡ₚ map (λ j, (launch_request_id j, instance_type j)) launched.
Proof.
  assert (manager_inv (V:=InstanceMsg) demo_manager queued_state) as Hinv.
  { apply run_requests_inv. split; [apply init_ok|done]. }
  assert (NoDup (map upd_instance_id (updates launch_ab))) as Hnd.
  { vm_compute. repeat constructor; set_solver. }
  destruct (launches_match_records (V:=InstanceMsg) demo_manager Z.of_nat launch_ab queued_state 2 launched_state
    _ true "t-1" Hinv Hnd eq_refl) as (calls & launched & Hcalls & Hrec & Hasked & _).
  exists calls, launched. split; [exact Hcalls|]. split; [|exact Hasked].
  apply Forall2_length in Hrec. rewrite <-Hrec. reflexivity.
Defined.

(** ** GCS refuses to stop the node of the second record *)
Definition stop_event (id : string) (node : list byte) (c : Cause) : InstanceUpdateEvent := {|
  upd_instance_id := id; new_instance_status := RAY_STOP_REQUESTED; upd_details := ""; upsert := false;
  upd_instance_type := ""; upd_cloud_instance_id := ""; upd_node_kind := UNMANAGED;
  upd_ray_node_id := ""; upd_launch_request_id := "";
  upd_termination_request := Some {| tr_instance_id := None; tr_ray_node_id := binary_to_hex node;
    tr_instance_type := "cpu"; tr_instance_status := None; tr_cause := c |} |}.

Definition no_drain (_ : list (list byte)) : result (list (list byte)) := Ok [].

Lemma ray_stopper_spec_witness :
  RayStopper.notify (λ _, Ok true) no_drain [stop_event "a" [x0a; xff] IDLE; stop_event "b" [x10] MAX_NUM_NODES] =
  ([RayStopper.DrainNode "0aff"; RayStopper.DrainNodes [[x10]]], [{| rse_im_instance_id := "b" |}]).
Proof.
  rewrite (ray_stopper_spec (λ _, Ok true) no_drain
    [stop_event "a" [x0a; xff] IDLE; stop_event "b" [x10] MAX_NUM_NODES] [[x0a; xff]; [x10]]).
  - reflexivity.
  - repeat constructor; eexists; split; reflexivity.
Defined.

(** ** A type that timed out twice and one that recovered *)
Definition timeouts : list InstanceUpdateEvent :=
  [event "a" ALLOCATION_TIMEOUT "cpu" ""; event "b" ALLOCATION_TIMEOUT "gpu" "";
   event "c" ALLOCATION_TIMEOUT "cpu" ""; event "d" RAY_RUNNING "gpu" ""].
Definition clock (n : nat) : float := f_of_int (Z.of_nat n * 100 + 100).

Example unavailable_types :
  CloudResourceMonitor.notify clock timeouts CloudResourceMonitor.init = [("cpu", f_of_int 300)].
Proof. vm_compute. reflexivity. Qed.

Lemma monitor_spec_witness :
  (0 < 600 ∧ f_eqb (f_of_int 600) f_zero = false) ∧
  ∃ scores, CloudResourceMonitor.get_recoverable_resource_availabilities 600 (f_of_int 305)
      (CloudResourceMonitor.notify clock timeouts CloudResourceMonitor.init) = Ok scores ∧
    scores.*1 = ["cpu"] ∧ ∀ ty s, (ty, s) ∈ scores → s = f_zero.
Proof.
  split; [split; [lia|vm_compute; reflexivity]|].
  destruct (monitor_spec clock timeouts) as [_ Hscores].
  destruct (Hscores 600 (f_of_int 305)) as (scores & Hs & Hkeys & Hin); [lia|vm_compute; reflexivity|].
  exists scores. split; [exact Hs|]. split; [rewrite Hkeys; vm_compute; reflexivity|].
  intros ty s H. destruct (Hin ty s H) as (ts & Hts & _ & Hz). apply Hz.
  assert (ty = "cpu" ∧ ts = f_of_int 300) as [_ ->]; [|vm_compute; reflexivity].
  change (CloudResourceMonitor.notify clock timeouts CloudResourceMonitor.init) with (CloudResourceMonitor.notify clock timeouts []) in Hts.
  apply dget_elem in Hts. vm_compute in Hts. apply list_elem_of_singleton in Hts. injection Hts as -> ->. done.
Defined.
End SubRun.
