(* ===== verification/Autoscaler.v ===== *)
(** * [autoscaler/v2/autoscaler.py] and the loop of [monitor.py]

    The autoscaler connects the components: it makes the instance manager with
    its subscribers, and each update drains the errors of the subscribers,
    reads the reports and reconciles.  What it reads, with the failures to read
    it, is an [Env]; the subscribers' state is what follows from the updates
    they were told. *)
From Stdlib Require Import Strings.Byte.
From S2P Require Import Prelude PyDict PyFloat InstanceUtil Storage InstanceManager SchedNode Scheduler Reconciler.
From S2P Require Import Subscribers.

Module Autoscaler.
Import Reconciler.

Inductive subscriber : Type := cloud_instance_updater | ray_stopper | ray_installer | cloud_resource_monitor.
#[global] Instance subscriber_eq_dec : EqDecision subscriber.
Proof. solve_decision. Defined.

(** [_init_instance_manager]; [installer] when node updaters are enabled and
    the provider adapts one of the first version. *)
Definition _init_instance_manager (session_name : string) (installer : bool) : InstanceManager.t subscriber := {|
  InstanceManager._instance_storage := InstanceStorage.init session_name;
  InstanceManager._status_update_subscribers :=
    [cloud_instance_updater; ray_stopper] ++ (if installer then [ray_installer] else []) ++ [cloud_resource_monitor] |}.

Section autoscaler.
Context {St V : Type} `{!Storage St V, !InstanceCodec V}.
Variables (im : InstanceManager.t subscriber) (clock : nat → Z) (random_id : nat → string).
Abbreviation world := (world (St:=St) (Sub:=subscriber)).

(** The updates a subscriber was told, a list for each applied request. *)
Definition told (s : subscriber) (w : world) : list (list InstanceUpdateEvent) :=
  omap (λ p : subscriber * list InstanceUpdateEvent, if decide (p.1 = s) then Some p.2 else None) (w_notified w).

(** *** [CloudInstanceUpdater]: [uuid k] is the id of its k-th terminations. *)
Definition provider_calls (metrics : bool) (uuid : nat → string) (w : world) :
    result (list CloudInstanceUpdater.call) :=
  calls ← result_map (λ p : nat * list InstanceUpdateEvent, CloudInstanceUpdater.notify metrics (uuid p.1) p.2)
    (imap pair (told cloud_instance_updater w));
  Ok (concat calls).

(** *** [RayStopper]: its tasks in the order of the one thread, and what GCS
    answers to the k-th. *)
Definition stop_tasks (w : world) : list InstanceUpdateEvent :=
  filter (λ e, new_instance_status e = RAY_STOP_REQUESTED) (concat (told ray_stopper w)).

Record Gcs : Type := {
  drain_node : nat → string → result bool;
  drain_nodes : nat → list (list byte) → result (list (list byte))
}.

Definition task_errors (g : Gcs) (k : nat) (e : InstanceUpdateEvent) : list RayStopError :=
  match RayStopper._stop_or_drain_ray (drain_node g k) (drain_nodes g k) e with Ok p => p.2 | Raise _ => [] end.

(** The errors put on the queue by the tasks from the first to before the second. *)
Definition stop_errors_between (g : Gcs) (first last : nat) (w : world) : list RayStopError :=
  concat (drop first (take last (imap (task_errors g) (stop_tasks w)))).

(** *** [CloudResourceMonitor]: [stamp k] is the clock at its k-th event. *)
Definition availabilities (stamp : nat → float) (w : world) : CloudResourceMonitor.t :=
  CloudResourceMonitor.notify stamp (concat (told cloud_resource_monitor w)) CloudResourceMonitor.init.

Definition monitor_scores (stamp : nat → float) (recovery_s : Z) (current_time : float) (w : world) :
    result (dict string float * dict string float) :=
  cloud ← CloudResourceMonitor.get_resource_availabilities (availabilities stamp w);
  recoverable ← CloudResourceMonitor.get_recoverable_resource_availabilities recovery_s current_time
    (availabilities stamp w);
  Ok (cloud, recoverable).

(** *** One update *)

(** What an update meets: the replies of GCS, the configuration and the cloud
    provider, the number of stop tasks done, the errors of the installer, the
    time and the scheduler. *)
Record Env : Type := {
  tasks_done : nat;
  install_errors : list RayInstallError;
  get_cluster_resource_state : result ClusterResourceState;
  get_cached_autoscaling_config : result AutoscalingConfig;
  get_non_terminated : result (dict string CloudInstance);
  poll_errors : result (list CloudInstanceProviderError);
  kuberay : ippr_state;
  current_time : float;
  schedule : SchedulingRequest → result SchedulingReply
}.

(** The reconciled world, and the number of stop tasks whose errors were taken
    off the queue. *)
Record t : Type := { reconciled : world; drained : nat }.

Variables (g : Gcs) (stamp : nat → float) (recovery_s : Z).

(** The body of the [try], from the reading of the cluster's state. *)
Definition reconcile_with (env : Env) (stop_errors : list RayStopError) : M AutoscalingState :=
  ray ← lift (get_cluster_resource_state env);
  cfg ← lift (get_cached_autoscaling_config env);
  cloud ← lift (get_non_terminated env);
  errors ← lift (poll_errors env);
  reconcile im clock random_id (schedule env) (monitor_scores stamp recovery_s (current_time env))
    ray cloud (kuberay env) cfg errors (install_errors env) stop_errors.

Definition update_autoscaling_state (env : Env) (x : t) : result (option AutoscalingState) * t :=
  let finished := Nat.max (drained x) (tasks_done env) in
  let stop_errors := stop_errors_between g (drained x) finished (reconciled x) in
  let '(r, w) := reconcile_with env stop_errors (reconciled x) in
  (match r with
   | Ok state => Ok (Some state)
   | Raise AuthenticationError => Raise AuthenticationError
   | Raise _ => Ok None
   end, {| reconciled := w; drained := finished |}).

(** [AutoscalerMonitor._run], as long as there are environments: the states
    reported and whether an exception ended the loop. *)
Fixpoint _run (envs : list Env) (x : t) : list AutoscalingState * option exn * t :=
  match envs with
  | [] => ([], None, x)
  | env :: envs =>
      match update_autoscaling_state env x with
      | (Raise e, x) => ([], Some e, x)
      | (Ok state, x) =>
          let '(states, e, x) := _run envs x in
          (match state with Some s => s :: states | None => states end, e, x)
      end
  end.
End autoscaler.
End Autoscaler.
