(* ===== verification/AutoscalerFacts.v ===== *)
(** * The autoscaler: what the cloud provider is asked for over all updates

    [ledger] relates the launch orders the updater was told to the records:
    each instance was ordered as often as its record was requested.  Every
    handler of a reconciliation keeps it, whether it returns or raises. *)
From S2P Require Import Prelude PyDict PyFloat InstanceUtil InstanceUtilFacts Storage StorageFacts.
From S2P Require Import InstanceManager InstanceManagerFacts SchedNode Scheduler Reconciler ReconcilerFacts.
From S2P Require Import ReconcilerUpdates ReconcilerInv ReconcilerRounds Subscribers SubscribersFacts Autoscaler.
Import Reconciler Autoscaler.

(** ** Single updates *)
Definition requested_times (o : option InstanceMsg) : Z := match o with Some i => attempts i | None => 0 end.

Lemma apply_event_attempts now old u j : apply_event now old u = Ok j →
  attempts j = requested_times old + (if bool_decide (new_instance_status u = REQUESTED) then 1 else 0).
Proof.
  intros Hj. destruct (apply_event_status _ _ _ _ Hj) as (_ & [d Hh] & _). destruct old as [i|].
  - by apply (attempts_snoc _ now d).
  - rewrite (attempts_snoc (new_instance_status u) now d Instance_default j Hh). done.
Qed.

(** How often a list of updates orders an instance. *)
Definition orders_of (id : string) (l : list InstanceUpdateEvent) : Z :=
  Z.of_nat (length (filter (λ u, upd_instance_id u = id ∧ new_instance_status u = REQUESTED) l)).

Lemma orders_app id l k : orders_of id (l ++ k) = orders_of id l + orders_of id k.
Proof. unfold orders_of. rewrite filter_app, length_app. lia. Qed.

Lemma orders_none id l : (∀ u, u ∈ l → upd_instance_id u = id → new_instance_status u ≠ REQUESTED) → orders_of id l = 0.
Proof.
  intros H. unfold orders_of. induction l as [|u l IH]; [done|]. rewrite filter_cons_False.
  - apply IH. intros v Hv. apply H. by right.
  - intros [Hid Hs]. by apply (H u); [left|..].
Qed.

(** Updates of distinct records, or none that orders anything. *)
Definition orderly (ups : updates_t) : Prop :=
  values (λ u, new_instance_status u ≠ REQUESTED) ups ∨ NoDup (map upd_instance_id ups.*2).

Lemma orders_effective v (ups : updates_t) id : orderly ups →
  orders_of id ups.*2 = match effective {| expected_version := v; updates := ups.*2 |} id with
    | Some u => if bool_decide (new_instance_status u = REQUESTED) then 1 else 0 | None => 0 end.
Proof.
  intros Ho. destruct (effective _ id) as [u|] eqn:He.
  - apply effective_in in He as [Hu <-]. destruct Ho as [Hq|Hnd].
    { rewrite orders_none; [by rewrite bool_decide_eq_false_2 by by apply Hq|]. intros w Hw _. by apply Hq. }
    apply list_elem_of_split in Hu as (l1 & l2 & E). rewrite E in Hnd |- *. rewrite map_app in Hnd.
    apply NoDup_app in Hnd as (_ & H1 & Hnd). cbn [map] in *. apply NoDup_cons in Hnd as [H2 _].
    rewrite orders_app. rewrite orders_none.
    2:{ intros w Hw Hid. destruct (H1 (upd_instance_id u)); [|left]. rewrite <-Hid. by apply (list_elem_of_fmap_2 upd_instance_id). }
    unfold orders_of. rewrite filter_cons. pose proof (orders_none (upd_instance_id u) l2) as Hl. unfold orders_of in Hl.
    assert (∀ w, w ∈ l2 → upd_instance_id w = upd_instance_id u → new_instance_status w ≠ REQUESTED) as Hl2.
    { intros w Hw Hid. destruct H2. rewrite <-Hid. by apply (list_elem_of_fmap_2 upd_instance_id). }
    specialize (Hl Hl2). destruct (decide (new_instance_status u = REQUESTED)).
    + rewrite bool_decide_eq_true_2, decide_True by done. cbn [length]. lia.
    + rewrite bool_decide_eq_false_2, decide_False by tauto. lia.
  - apply orders_none. intros u Hu Hid. by destruct (effective_none v ups id u He Hu).
Qed.

(** Updates keyed by their record. *)
Definition by_record (ups : updates_t) : Prop := dwf ups ∧ ∀ k u, (k, u) ∈ ups → upd_instance_id u = k.

Lemma by_record_nil : by_record [].
Proof. split; [apply NoDup_nil_2|]. by intros k u ?%elem_of_nil. Qed.

Lemma by_record_dset ups (u : InstanceUpdateEvent) : by_record ups → by_record (dset ups (upd_instance_id u) u).
Proof.
  intros [Hw Hk]. split; [by apply dset_wf|]. intros k v [[-> ->]|Hin]%dset_elem; [done|by apply Hk].
Qed.

Lemma by_record_orderly ups : by_record ups → orderly ups.
Proof.
  intros [Hw Hk]. right. unfold dwf in Hw. replace (map upd_instance_id ups.*2) with ups.*1; [done|].
  clear Hw. induction ups as [|[k u] ups IH]; [done|]. cbn. rewrite (Hk k u) by left.
  f_equal. apply IH. intros k' u' Hin. apply Hk. by right.
Qed.

Lemma launch_orderly fresh d : orderly (launch_updates fresh d).
Proof.
  apply by_record_orderly. unfold launch_updates.
  assert (∀ e : updates_t, by_record e → by_record (foldl (λ d p, foldl (λ d i,
    dset d (instance_id i) (launch_event fresh p.1 i)) d p.2) e d)) as H; [|by apply H, by_record_nil].
  induction d as [|[ty l] d IH]; intros e He; [done|]. cbn [foldl fst snd]. apply IH. clear IH.
  revert e He. induction l as [|i l IH]; intros e He; [done|]. cbn [foldl]. apply IH.
  by apply (by_record_dset e (launch_event fresh ty i)).
Qed.

(** ** The ledger *)
Section autoscaler.
Context {St V : Type} `{!Storage St V, !InstanceCodec V}.
Context `{!StorageLaws (St:=St) (V:=V), !InstanceCodecLaws V}.
Variables (im : InstanceManager.t subscriber) (clock : nat → Z) (random_id : nat → string).
(** The updater is among the subscribers, once. *)
Hypothesis (Hsub : filter (λ s, s = cloud_instance_updater) (InstanceManager._status_update_subscribers im)
  = [cloud_instance_updater]).
Abbreviation world := (world (St:=St) (Sub:=subscriber)).
Abbreviation M := (M (St:=St) (Sub:=subscriber)).
Abbreviation row := (row im).
Implicit Types (w : world) (ups : updates_t).

(** The launch orders the updater was told. *)
Definition launch_orders w : list InstanceUpdateEvent :=
  filter (λ u, new_instance_status u = REQUESTED) (concat (told cloud_instance_updater w)).

Record ledger w : Prop := {
  ld_manager : manager_inv im (w_storage w);
  ld_ids u : u ∈ launch_orders w → upd_launch_request_id u ≠ "";
  ld_count id : orders_of id (concat (told cloud_instance_updater w)) = requested_times (row w id)
}.

Lemma ledger_same w w' : w_storage w' = w_storage w → w_notified w' = w_notified w → ledger w → ledger w'.
Proof.
  intros Hs Hn [H1 H2 H3]. split; unfold launch_orders, told, ReconcilerFacts.row in *; rewrite ?Hs, ?Hn; done.
Qed.

Lemma told_request s (n : list (subscriber * list InstanceUpdateEvent)) l :
  omap (λ p : subscriber * list InstanceUpdateEvent, if decide (p.1 = s) then Some p.2 else None)
    (n ++ map (λ s, (s, l)) (InstanceManager._status_update_subscribers im)) =
  omap (λ p : subscriber * list InstanceUpdateEvent, if decide (p.1 = s) then Some p.2 else None) n ++
  map (λ _, l) (filter (λ s', s' = s) (InstanceManager._status_update_subscribers im)).
Proof.
  rewrite omap_app. f_equal. clear Hsub. induction (InstanceManager._status_update_subscribers im) as [|s' ss IH]; [done|].
  rewrite filter_cons. cbn. destruct (decide (s' = s)); [cbn; f_equal; exact IH|exact IH].
Qed.

(** An applied request adds its launch orders and their records' requests. *)
Lemma ledger_applied w w' ups v : ledger w → orderly ups → manager_inv im (w_storage w') →
  w_notified w' = w_notified w ++ map (λ s, (s, ups.*2)) (InstanceManager._status_update_subscribers im) →
  (∀ id, match effective {| expected_version := v; updates := ups.*2 |} id with
     | None => row w' id = row w id
     | Some u => ∃ n x j, apply_event n (row w id) u = Ok j ∧ row w' id = Some (InstanceUtil.set_version x j)
     end) → ledger w'.
Proof.
  intros [H1 H2 H3] Ho Hm Hn Hrow.
  assert (told cloud_instance_updater w' = told cloud_instance_updater w ++ [ups.*2]) as Ht.
  { unfold told. by rewrite Hn, told_request, Hsub. }
  split; [done| |].
  - intros u. unfold launch_orders. rewrite Ht, concat_app, filter_app, elem_of_app. intros [Hu|[Hs Hu]%list_elem_of_filter]; [by apply H2|].
    cbn in Hu. rewrite app_nil_r in Hu. destruct Ho as [Hq|Hnd]; [by destruct (Hq u Hu)|].
    specialize (Hrow (upd_instance_id u)). rewrite effective_distinct in Hrow by done.
    destruct Hrow as (n & x & j & Hj & _). apply event_carries in Hj. unfold carries in Hj. rewrite Hs in Hj. apply Hj.
  - intros id. rewrite Ht, concat_app, orders_app, H3. cbn [concat]. rewrite app_nil_r, (orders_effective v ups id Ho).
    specialize (Hrow id). destruct (effective _ id) as [u|].
    + destruct Hrow as (n & x & j & Hj & ->). change (requested_times (Some (InstanceUtil.set_version x j))) with (attempts j).
      by rewrite (apply_event_attempts _ _ _ _ Hj).
    + rewrite Hrow. lia.
Qed.

Lemma ledger_update v w ups : ledger w → orderly ups → ledger (_update_instance_manager im clock v ups w).2.
Proof.
  intros Hw Ho. destruct ups as [|p ups']; [done|]. set (ups := p :: ups') in *. unfold _update_instance_manager.
  fold ups. change (match ups with [] => ?a | _ => ?b end) with b.
  destruct (update_outcome im (λ k, clock (w_tick w + k)%nat)
    {| expected_version := v; updates := ups.*2 |} (w_storage w) (ld_manager w Hw)) as [Hst Hout].
  pose proof (outcome_inv _ _ _ _ _ (ld_manager w Hw) Hst Hout) as Hinv.
  destruct (InstanceManager.update_instance_manager_state _ _ _ _) as [[reply st] notified]. simpl in Hst, Hinv.
  destruct Hout as [(st' & [= -> -> ->] & _ & Hview)|[([= -> -> ->] & _)|(e & id & u & n & [= -> -> ->] & _)]];
    [|by apply (ledger_same w); [|cbn; rewrite app_nil_r|]..].
  apply (ledger_applied w _ ups v); [done..|]. intros id. specialize (Hview id). destruct (effective _ id); [|exact Hview].
  destruct Hview as (n & j & Hj & Hr). by eexists _, _, j.
Qed.

(** ** Handlers *)

(** [m] keeps the ledger, and its result satisfies [Q]. *)
Definition books {A} (m : M A) (Q : A → Prop) : Prop :=
  ∀ w, ledger w → ledger (m w).2 ∧ match (m w).1 with Ok a => Q a | Raise _ => True end.

Lemma books_ret {A} (a : A) (Q : A → Prop) : Q a → books (mret a) Q.
Proof. intros HQ w Hw. done. Qed.

Lemma books_bind {A B} (m : M A) (f : A → M B) Q R : books m Q → (∀ a, Q a → books (f a) R) → books (m ≫= f) R.
Proof.
  intros Hm Hf w Hw. destruct (Hm w Hw) as [Hw' HQ]. unfold mbind, M_bind. destruct (m w) as [[a|e] w']; [by apply Hf|done].
Qed.

Lemma books_then {A B} (m : M A) (f : A → M B) Q R : books m Q → (∀ a, books (f a) R) → books (m ≫= f) R.
Proof. intros Hm Hf. eapply books_bind; [exact Hm|]. intros a _. apply Hf. Qed.

Lemma books_pure {A} (r : result A) (Q : A → Prop) : (∀ a, r = Ok a → Q a) → books (lift r) Q.
Proof. intros HQ w Hw. split; [done|]. simpl. destruct r; [by apply HQ|done]. Qed.

Lemma books_any {A} (m : M A) : (∀ w, w_storage (m w).2 = w_storage w ∧ w_notified (m w).2 = w_notified w) → books m (λ _, True).
Proof. intros Hm w Hw. destruct (Hm w). split; [by eapply ledger_same|]. by destruct (m w).1. Qed.

Lemma books_fold {A B} (Q : B → Prop) (f : B → A → M B) b l : Q b → (∀ b a, Q b → books (f b a) Q) → books (M_fold f b l) Q.
Proof.
  intros Hb Hf. revert b Hb. induction l as [|a l IH]; intros b Hb; [by apply books_ret|].
  eapply books_bind; [by apply Hf|]. intros b' Hb'. by apply IH.
Qed.

Lemma books_update v ups : orderly ups → books (_update_instance_manager im clock v ups) (λ _, True).
Proof. intros Ho w Hw. split; [by apply ledger_update|]. by destruct (_ : result unit * world).1. Qed.

Abbreviation silent := (values (λ u, new_instance_status u ≠ REQUESTED)).

Lemma quiet_silent ups : values quiet ups → silent ups.
Proof. intros H u Hu. by apply H. Qed.

Lemma books_silent v ups : silent ups → books (_update_instance_manager im clock v ups) (λ _, True).
Proof. intros Hs. apply books_update. by left. Qed.

Lemma books_get : books (_get_im_instances im) (λ _, True).
Proof. by apply books_any. Qed.
Lemma books_id : books (new_id random_id) (λ _, True).
Proof. by apply books_any. Qed.
Lemma books_clock : books (read_clock clock) (λ _, True).
Proof. by apply books_any. Qed.

Lemma books_handle f : (∀ l ups, f l = Ok ups → values quiet ups) → books (handle im clock f) (λ _, True).
Proof.
  intros Hf. eapply books_then; [apply books_get|]. intros p. eapply books_bind; [apply (books_pure _ silent)|by intros; apply books_silent].
  intros ups Hu. by eapply quiet_silent, Hf.
Qed.

Lemma values_silent (d : updates_t) k (u : InstanceUpdateEvent) : silent d → new_instance_status u ≠ REQUESTED → silent (dset d k u).
Proof. intros. by apply values_dset. Qed.

Lemma books_extra_ray ray_nodes : books (_handle_extra_cloud_instances_from_ray_nodes im clock random_id ray_nodes) (λ _, True).
Proof.
  eapply books_then; [apply books_get|]. intros p. eapply books_bind; [apply (books_fold silent); [apply values_nil|]|by intros; apply books_silent].
  intros d n Hd. destruct (negb _); [by apply books_ret|]. do 2 (destruct (bool_decide _); [by apply books_ret|]).
  eapply books_then; [apply books_id|]. intros id. by apply books_ret, values_silent.
Qed.

Lemma books_extra_cloud cloud : books (_handle_extra_cloud_instances_from_cloud_provider im clock random_id cloud) (λ _, True).
Proof.
  eapply books_then; [apply books_get|]. intros p. eapply books_bind; [apply (books_fold silent); [apply values_nil|]|by intros; apply books_silent].
  intros d n Hd. destruct (bool_decide _); [by apply books_ret|].
  eapply books_then; [apply books_id|]. intros id. by apply books_ret, values_silent.
Qed.

Lemma books_stuck_loop s f l d : silent d →
  (∀ i, books (f i) (λ o : option InstanceUpdateEvent, ∀ u, o = Some u → new_instance_status u ≠ REQUESTED)) →
  books (stuck_loop s f l d) silent.
Proof.
  intros Hd Hf. apply books_fold; [done|]. intros d' i Hd'. eapply books_bind; [apply Hf|]. intros [u|] Hu; apply books_ret; [|done].
  apply values_silent; [done|by apply Hu].
Qed.

Lemma books_stuck_instance i timeout s ty cloud node : s ≠ REQUESTED →
  books (_handle_stuck_instance clock i timeout s ty cloud node)
    (λ o : option InstanceUpdateEvent, ∀ u, o = Some u → new_instance_status u ≠ REQUESTED).
Proof.
  intros Hs. eapply books_then; [apply books_clock|]. intros now. eapply (books_bind _ _ (λ _, True)); [by apply books_pure|].
  intros late _. apply books_ret. intros u. by destruct late; intros [= <-].
Qed.

Lemma books_stuck cfg : books (_handle_stuck_instances im clock cfg) (λ _, True).
Proof.
  eapply books_then; [apply books_get|]. intros p.
  eapply books_bind; [apply books_stuck_loop; [apply values_nil|]|].
  { intros i. eapply books_then; [apply books_clock|]. intros now. eapply (books_bind _ _ (λ _, True)); [by apply books_pure|].
    intros late _. destruct (negb late); apply books_ret; [done|]. intros u [= <-]. cbn. by destruct (_ <? _). }
  intros d1 Hd1. eapply books_bind; [apply books_stuck_loop; [exact Hd1|]|].
  { intros i. eapply (books_bind _ _ (λ _, True)); [by apply books_pure|]. intros _ _. by apply books_stuck_instance. }
  intros d2 Hd2. do 3 (eapply books_bind; [eapply books_stuck_loop; [eassumption|intros i; by apply books_stuck_instance]|];
    intros ? ?). eapply (books_bind _ _ (λ _, True)); [|by intros; apply books_silent].
  apply books_fold; [done|]. intros _ s _. apply books_fold; [done|]. intros _ i _.
  eapply (books_bind _ _ (λ _, True)); [by apply books_pure|]. intros _ _. eapply books_then; [apply books_clock|].
  intros _. by apply books_ret.
Qed.

Lemma books_launch cfg : books (_handle_instances_launch im clock random_id cfg) (λ _, True).
Proof.
  eapply books_then; [apply books_get|]. intros p. destruct (filter _ p.1); [by apply books_ret|].
  eapply (books_bind _ _ (λ _, True)); [by apply books_pure|]. intros d _. eapply books_then; [apply books_id|]. intros id.
  apply books_update, launch_orderly.
Qed.

Lemma books_queue_new to_launch d : silent d → books (queue_new random_id d to_launch) silent.
Proof.
  intros Hd. apply books_fold; [done|]. intros d' p Hd'. apply books_fold; [done|]. intros d2 n Hd2.
  eapply books_then; [apply books_id|]. intros id. by apply books_ret, values_silent.
Qed.

Lemma books_scale sched monitor cfg ray kuberay :
  books (_scale_cluster im clock random_id sched monitor cfg ray kuberay) (λ _, True).
Proof.
  eapply books_then; [apply books_get|]. intros p. eapply (books_bind _ _ (λ _, True)); [by apply books_any|]. intros scores _.
  eapply (books_bind _ _ (λ _, True)); [by apply books_pure|]. intros reply _. eapply (books_bind _ _ (λ _, True)).
  { eapply books_then; [apply books_get|]. intros q. by apply books_ret. }
  intros head _. destruct (negb head); [by apply books_ret|]. destruct (bool_decide _); [by apply books_ret|].
  eapply (books_bind _ _ silent). { apply books_pure. intros u Hu. by eapply quiet_silent, terminate_requests_quiet. }
  intros u Hu. eapply books_bind; [by apply books_queue_new|]. intros d Hd. eapply (books_bind _ _ (λ _, True)).
  { destruct kuberay; [by apply books_any|by apply books_ret]. }
  intros _ _. eapply books_then; [by apply books_silent|]. intros _. by apply books_ret.
Qed.

Lemma books_sync ray_nodes cloud provider_errors install_errors stop_errors cfg :
  books (_sync_from im clock random_id ray_nodes cloud provider_errors install_errors stop_errors cfg) (λ _, True).
Proof.
  eapply books_then; [apply books_handle; intros; by eapply allocation_quiet|intros _].
  eapply books_then; [apply books_handle; intros; by eapply terminated_quiet|intros _].
  eapply books_then; [apply books_handle; intros; by eapply termination_error_quiet|intros _].
  eapply books_then; [eapply books_then; [apply books_extra_ray|intros _; apply books_extra_cloud]|intros _].
  eapply books_then; [apply books_handle; intros; by eapply ray_status_quiet|intros _].
  eapply books_then; [apply books_handle; intros; by eapply install_failed_quiet|intros _].
  apply books_handle. intros. by eapply stop_failed_quiet.
Qed.

Lemma books_step sched monitor ray cloud kuberay cfg :
  books (_step_next im clock random_id sched monitor ray cloud kuberay cfg) (λ _, True).
Proof.
  eapply books_then; [apply books_handle; intros; by eapply missing_quiet|intros _].
  eapply books_then; [apply books_stuck|intros _]. eapply books_then; [apply books_scale|intros reply].
  eapply books_then; [apply books_launch|intros _].
  eapply books_then; [apply books_handle; intros; by eapply terminate_quiet|intros _].
  eapply (books_bind _ _ (λ _, True)); [|intros _ _; eapply books_then; [apply books_get|intros; by apply books_pure]].
  destruct (disable_node_updaters cfg); [by apply books_ret|]. apply books_handle. intros. by eapply install_quiet.
Qed.
End autoscaler.
