(* ===== verification/AutoscalerProps.v ===== *)
(** * The autoscaler: the launches of a whole run

    The instance manager, the reconciler and the updater together: what the
    cloud provider is asked to launch in a run is what the records say. *)
From S2P Require Import Prelude PyDict PyFloat InstanceUtil InstanceUtilFacts Storage StorageFacts.
From S2P Require Import InstanceManager InstanceManagerFacts SchedNode Scheduler Reconciler ReconcilerFacts.
From S2P Require Import ReconcilerInv ReconcilerRounds ReconcilerProps ReconcilerRun Subscribers SubscribersFacts.
From S2P Require Import Autoscaler AutoscalerFacts.
Import Reconciler Autoscaler.

(** ** Counting *)
Lemma orders_requested id l : orders_of id (filter (λ u, new_instance_status u = REQUESTED) l) = orders_of id l.
Proof.
  induction l as [|u l IH]; [done|]. unfold orders_of in *. rewrite filter_cons. destruct (decide (new_instance_status u = REQUESTED)).
  - rewrite !filter_cons. destruct (decide (_ ∧ _)); cbn [length]; lia.
  - rewrite (filter_cons_False _ u l); [exact IH|tauto].
Qed.

(** Orders of the instances [ids], each at most [k] times. *)
Lemma orders_bound k ids l : (∀ u, u ∈ l → upd_instance_id u ∈ ids ∧ new_instance_status u = REQUESTED) →
  (∀ id, orders_of id l ≤ k) → Z.of_nat (length l) ≤ k * Z.of_nat (length ids).
Proof.
  revert l. induction ids as [|a ids IH]; intros l Hl Hk.
  { destruct l as [|u l]; [cbn; lia|]. by destruct (Hl u ltac:(left)) as [?%elem_of_nil _]. }
  set (rest := filter (λ u, upd_instance_id u ≠ a) l).
  assert (Z.of_nat (length l) = orders_of a l + Z.of_nat (length rest)) as ->.
  { clear IH Hk. unfold rest, orders_of. induction l as [|u l IH]; [done|]. rewrite !filter_cons.
    destruct (Hl u ltac:(left)) as [_ Hs]. assert (∀ u, u ∈ l → upd_instance_id u ∈ a :: ids ∧ new_instance_status u = REQUESTED)
      as Hl' by (intros v Hv; apply Hl; by right). specialize (IH Hl'). cbv zeta in IH.
    destruct (decide (upd_instance_id u = a)).
    - rewrite decide_True, decide_False by tauto. cbn [length]. lia.
    - rewrite decide_False, decide_True by tauto. cbn [length]. lia. }
  assert (Z.of_nat (length rest) ≤ k * Z.of_nat (length ids)) as Hr.
  { apply IH.
    - intros u [Hne Hu]%list_elem_of_filter. destruct (Hl u Hu) as [[E|Hin]%elem_of_cons Hs]; [by destruct Hne|by split].
    - intros id. specialize (Hk id). unfold orders_of, rest in *. clear -Hk.
      assert (length (filter (λ u, upd_instance_id u = id ∧ new_instance_status u = REQUESTED)
          (filter (λ u, upd_instance_id u ≠ a) l)) ≤
        length (filter (λ u, upd_instance_id u = id ∧ new_instance_status u = REQUESTED) l))%nat; [|lia].
      clear Hk. induction l as [|u l IH]; [done|]. rewrite !filter_cons. destruct (decide (upd_instance_id u ≠ a)).
      + rewrite filter_cons. destruct (decide (_ ∧ _)); cbn [length]; lia.
      + destruct (decide (_ ∧ _)); cbn [length]; lia. }
  specialize (Hk a). cbn [length]. lia.
Qed.

(** ** The calls of the cloud provider *)
Section run.
Context {St V : Type} `{!Storage St V, !InstanceCodec V}.
Context `{!StorageLaws (St:=St) (V:=V), !InstanceCodecLaws V}.
Variables (im : InstanceManager.t subscriber) (clock : nat → Z) (random_id : nat → string) (max : Z).
Variables (g : Gcs) (stamp : nat → float) (recovery_s : Z).
Context `{!Inj eq eq random_id}.
Hypotheses (Hmax : 0 ≤ max)
  (Hsub : filter (λ s, s = cloud_instance_updater) (InstanceManager._status_update_subscribers im) = [cloud_instance_updater]).
Abbreviation world := (world (St:=St) (Sub:=subscriber)).
Implicit Types (w : world).

(** The updater raises for none of the requests it was told. *)
Lemma calls_of_orders metrics uuid w : (∀ u, u ∈ launch_orders w → upd_launch_request_id u ≠ "") →
  ∃ calls, provider_calls metrics uuid w = Ok calls ∧
    concat (map asked calls) ≡ₚ map (λ u, (upd_launch_request_id u, upd_instance_type u)) (launch_orders w).
Proof.
  unfold provider_calls, launch_orders. generalize (told cloud_instance_updater w) as batches. intros batches.
  assert (∀ l : list (nat * list InstanceUpdateEvent),
    (∀ u, u ∈ filter (λ u, new_instance_status u = REQUESTED) (concat l.*2) → upd_launch_request_id u ≠ "") →
    ∃ cs, result_map (λ p : nat * list InstanceUpdateEvent, CloudInstanceUpdater.notify metrics (uuid p.1) p.2) l = Ok cs ∧
      concat (map asked (concat cs)) ≡ₚ map (λ u, (upd_launch_request_id u, upd_instance_type u))
        (filter (λ u, new_instance_status u = REQUESTED) (concat l.*2))) as H.
  { induction l as [|[n b] l IH]; intros Hl; [by exists []|]. cbn [fmap list_fmap snd concat] in Hl |- *. rewrite filter_app in Hl |- *.
    destruct (notify_calls metrics (uuid n) b) as (c & Hc & Hasked & _).
    { intros e He. apply Hl. apply elem_of_app. by left. }
    destruct IH as (cs & Hcs & Hp). { intros u Hu. apply Hl. apply elem_of_app. by right. }
    exists (c :: cs). cbn [result_map fst snd]. rewrite Hc, Hcs. split; [done|].
    cbn [concat]. rewrite map_app, concat_app, map_app, Hasked. by apply Permutation_app_head. }
  assert ((imap pair batches).*2 = batches) as E.
  { rewrite fmap_imap. clear H. transitivity (imap (λ _ b, b) batches); [by apply imap_ext|].
    clear. induction batches as [|b l IH]; [done|]. cbn. f_equal. exact IH. }
  intros Hids. destruct (H (imap pair batches)) as (cs & Hcs & Hp); rewrite E in *; [exact Hids|].
  exists (concat cs). by rewrite Hcs.
Qed.

(** ** One update *)

(** The scheduler names the types it launches, and the configuration allows
    [max] retries of a launch. *)
Definition fair_env (env : Env) : Prop :=
  names_types (schedule env) ∧
  ∀ cfg, get_cached_autoscaling_config env = Ok cfg → max_num_retry_request_to_allocate (reconcile_config cfg) = max.

Lemma reconcile_with_keeps env errors w : fair_env env → inv im random_id max w → ledger im w →
  inv im random_id max (reconcile_with im clock random_id stamp recovery_s env errors w).2 ∧
  ledger im (reconcile_with im clock random_id stamp recovery_s env errors w).2.
Proof.
  intros [Hn Hc] Hw Hl. unfold reconcile_with. unfold mbind, M_bind, lift.
  destruct (get_cluster_resource_state env) as [ray|]; [|done].
  destruct (get_cached_autoscaling_config env) as [cfg|]; [|done].
  destruct (get_non_terminated env) as [cloud|]; [|done]. destruct (poll_errors env) as [perrors|]; [|done].
  split; [by apply keeps_reconcile; [..|apply Hc|]|].
  unfold reconcile. eapply (books_then im _ _ (λ _, True) (λ _, True)); [by apply books_sync|intros _; by apply books_step|done].
Qed.

Lemma run_keeps envs x : (∀ env, env ∈ envs → fair_env env) →
  inv im random_id max (reconciled x) → ledger im (reconciled x) →
  let res := _run im clock random_id g stamp recovery_s envs x in
  inv im random_id max (reconciled res.2) ∧ ledger im (reconciled res.2) ∧
  (res.1.2 = None ∨ res.1.2 = Some AuthenticationError).
Proof.
  revert x. induction envs as [|env envs IH]; intros x He Hw Hl; [by split_and!; [..|left]|]. cbn [_run]. unfold update_autoscaling_state.
  set (errors := stop_errors_between _ _ _ _).
  destruct (reconcile_with_keeps env errors (reconciled x)) as [Hw' Hl']; [apply He; left|done..|].
  destruct (reconcile_with _ _ _ _ _ _ _ _) as [r w']. cbn [snd] in Hw', Hl'. set (x' := {| reconciled := w' |}).
  assert (∀ env, env ∈ envs → fair_env env) as He' by (intros e H; apply He; by right). specialize (IH x' He' Hw' Hl').
  destruct r as [state|e].
  - destruct (_run _ _ _ _ _ _ envs x') as [[states e'] y]. exact IH.
  - destruct e; (destruct (_run _ _ _ _ _ _ envs x') as [[states e'] y]; exact IH) || (split_and!; [done..|by right]).
Qed.

(** C5: Over any number of updates from an empty table, whatever is reported and
    wherever a reconciliation raises: only an authentication error ends the
    monitor's loop; the updater never raises; the launches the cloud provider
    was asked for are exactly the launch orders of applied requests, under
    their launch request ids and types; each instance was ordered as often as
    its record was requested, which is at most once more than the retries
    allow; so the launches are bounded by the number of records. *)
Theorem launches_accounted (metrics : bool) (uuid : nat → string) (envs : list Env) (x : Autoscaler.t) :
  manager_inv im (w_storage (reconciled x)) → (∀ id, row im (reconciled x) id = None) → w_notified (reconciled x) = [] →
  (∀ n, random_id n ≠ "") → (∀ env, env ∈ envs → fair_env env) →
  let res := _run im clock random_id g stamp recovery_s envs x in
  let w := reconciled res.2 in
  (res.1.2 = None ∨ res.1.2 = Some AuthenticationError) ∧
  ∃ calls, provider_calls metrics uuid w = Ok calls ∧
    concat (map asked calls) ≡ₚ map (λ u, (upd_launch_request_id u, upd_instance_type u)) (launch_orders w) ∧
    (∀ id, orders_of id (launch_orders w) = requested_times (row im w id) ∧ orders_of id (launch_orders w) ≤ max + 1) ∧
    Z.of_nat (length (concat (map asked calls))) ≤ (max + 1) * Z.of_nat (length (rows im w)).
Proof.
  intros Hm Hempty Hnone Hids He res w. pose proof (inv_empty im random_id max _ Hm Hempty Hids) as Hw0.
  assert (ledger im (reconciled x)) as Hl0.
  { split; [done| |]; unfold launch_orders, told; rewrite Hnone; [by intros u ?%elem_of_nil|]. intros id. by rewrite Hempty. }
  destruct (run_keeps envs x He Hw0 Hl0) as (Hw & Hl & Hend). split; [exact Hend|]. fold res w in Hw, Hl.
  destruct (calls_of_orders metrics uuid w (ld_ids im w Hl)) as (calls & Hcalls & Hasked). exists calls. split; [done|]. split; [done|].
  assert (∀ id, orders_of id (launch_orders w) = requested_times (row im w id)) as Hcount.
  { intros id. unfold launch_orders. by rewrite orders_requested, (ld_count im w Hl). }
  assert (∀ id, orders_of id (launch_orders w) ≤ max + 1) as Hle.
  { intros id. rewrite Hcount. destruct (row im w id) as [i|] eqn:Hi; [|cbn; lia]. cbn.
    destruct (inv_rows _ _ _ _ Hw _ _ Hi) as [Hok _]. unfold row_ok in Hok. destruct (status i); try tauto; lia. }
  split; [done|]. rewrite Hasked, length_map. rewrite <-(length_map instance_id (rows im w)). apply orders_bound; [|done].
  intros u Hu. pose proof Hu as [Hs _]%list_elem_of_filter. split; [|done].
  specialize (Hcount (upd_instance_id u)). destruct (row im w (upd_instance_id u)) as [i|] eqn:Hi.
  - destruct (proj2 (inv_manager _ _ _ _ Hw) _ _ Hi) as (Hid & _). rewrite <-Hid.
    apply (list_elem_of_fmap_2 instance_id), (rows_spec im random_id max); [done|]. by rewrite Hid.
  - cbn in Hcount. exfalso. unfold orders_of in Hcount.
    assert (u ∈ filter (λ v, upd_instance_id v = upd_instance_id u ∧ new_instance_status v = REQUESTED) (launch_orders w)) as Hin
      by by apply list_elem_of_filter.
    apply (Nat2Z.inj _ 0), nil_length_inv in Hcount. rewrite Hcount in Hin. by apply elem_of_nil in Hin.
Qed.
End run.

(** ** At concrete inputs

    Four updates, one of which cannot read the cluster's state. *)
Module AutoRun.

#[local] Instance id_codec : InstanceCodec InstanceMsg :=
  {| SerializeToString i := i; ParseFromString i := i |}.
#[local] Instance id_codec_laws : InstanceCodecLaws InstanceMsg.
Proof. split. done. Qed.

Definition im : InstanceManager.t subscriber := _init_instance_manager "c" false.

Definition start : Autoscaler.t (St:=InMemoryStorage.t InstanceMsg) := {|
  reconciled := {| w_storage := InMemoryStorage.init; w_tick := 0; w_ids := 0; w_notified := []; w_ippr := [] |};
  drained := 0 |}.

(** GCS drains no node. *)
Definition gcs : Gcs := {| drain_node := λ _ _, Ok false; drain_nodes := λ _ _, Ok [] |}.

Definition env_of (nodes : result (list RayNode)) (cloud : dict string CloudInstance) : Env := {|
  tasks_done := 0; install_errors := [];
  get_cluster_resource_state := nodes ← nodes; Ok (RecRun.ray_of nodes);
  get_cached_autoscaling_config := Ok (RecRun.cfg [] None);
  get_non_terminated := Ok cloud; poll_errors := Ok []; kuberay := None; current_time := f_of_int 100;
  schedule := RecRun.one_more |}.

(** The head comes up; GCS cannot be read; a worker is allocated and runs Ray. *)
Definition envs : list Env :=
  [env_of (Ok [RecRun.head_node]) [RecRun.cloud_of "c-head" "head" HEAD];
   env_of (Raise RuntimeError) [];
   env_of (Ok [RecRun.head_node]) [RecRun.cloud_of "c-head" "head" HEAD; RecRun.cloud_of "c-1" "cpu" WORKER];
   env_of (Ok [RecRun.head_node; RecRun.worker_node "002" "c-1"])
     [RecRun.cloud_of "c-head" "head" HEAD; RecRun.cloud_of "c-1" "cpu" WORKER]].

Definition stamp (n : nat) : float := f_of_int (Z.of_nat n).
Definition uuid (n : nat) : string := "t-" +:+ pretty n.
Definition after := _run im RecRun.clock RecRun.random_id gcs stamp 600 envs start.

(** One worker is launched in each update that reconciles; the second reports
    no state. *)
Example one_launch_each :
  (length after.1.1, after.1.2, provider_calls false uuid (reconciled after.2)) =
  (3%nat, None, Ok [CloudInstanceUpdater.launch [("cpu", 1)] "i-2"; CloudInstanceUpdater.launch [("cpu", 1)] "i-4";
     CloudInstanceUpdater.launch [("cpu", 1)] "i-6"]).
Proof. vm_compute. reflexivity. Qed.

Lemma launches_accounted_witness :
  ∃ calls, provider_calls false uuid (reconciled after.2) = Ok calls ∧
    concat (map asked calls) ≡ₚ
      map (λ u, (upd_launch_request_id u, upd_instance_type u)) (launch_orders (reconciled after.2)) ∧
    orders_of "i-1" (launch_orders (reconciled after.2)) ≤ 4.
Proof.
  destruct (launches_accounted im RecRun.clock RecRun.random_id 3 gcs stamp 600 ltac:(lia) eq_refl false uuid envs start)
    as (_ & calls & Hcalls & Hasked & Hcount & _).
  - split; [apply init_ok|done].
  - done.
  - done.
  - apply RecRun.random_id_ne.
  - intros env Henv. assert (schedule env = RecRun.one_more ∧
      get_cached_autoscaling_config env = Ok (RecRun.cfg [] None)) as [Hs Hc].
    { revert Henv. unfold envs. rewrite !elem_of_cons, elem_of_nil. by intros [->|[->|[->|[->|[]]]]]. }
    split; [rewrite Hs; apply RecRun.one_more_names|]. rewrite Hc. by intros cfg [= <-].
  - exists calls. split; [exact Hcalls|]. split; [exact Hasked|]. apply Hcount.
Defined.
End AutoRun.
