(* ===== verification/Coordinator.v ===== *)
(** * [ray/data/_internal/cluster_autoscaler/default_autoscaling_coordinator.py]

    The autoscaling coordinator merges the resource requests of several
    components for the autoscaler and allocates the resources of the cluster to
    them.  Each operation holds the actor's lock, so it is a function on the
    state; [clock k] is the k-th reading of the clock in an operation, and
    [send] what sending the merged request returns. *)
From S2P Require Import Prelude PyDict PyFloat.

Abbreviation ResourceDict := (gmap string float).
Abbreviation selector := (gmap string string).

Definition HEAD_NODE_RESOURCE_LABEL : string := "node:__internal_head__".
Definition SUBCLUSTER_LABEL_KEY : string := "ray-subcluster".
Definition DEFAULT_SUBCLUSTER : option string := None.

(** [==] of dictionaries of numbers, and of lists of them. *)
Definition resources_eqb (a b : ResourceDict) : bool :=
  bool_decide (dom a = dom b) &&
  forallb (λ kv : string * float, match b !! kv.1 with Some v => f_eqb kv.2 v | None => false end) (map_to_list a).

Fixpoint bundles_eqb (l k : list ResourceDict) : bool :=
  match l, k with
  | [], [] => true
  | a :: l, b :: k => resources_eqb a b && bundles_eqb l k
  | _, _ => false
  end.

Inductive ResourceRequestPriority : Type := LOW | MEDIUM | HIGH.
Definition priority_value (p : ResourceRequestPriority) : Z :=
  match p with LOW => -10 | MEDIUM => 0 | HIGH => 10 end.

Module OngoingRequest.
Record t : Type := {
  first_request_time : float;
  requested_resources : list ResourceDict;
  expiration_time : float;
  request_remaining : bool;
  priority : Z;
  allocated_resources : list ResourceDict;
  requested_label_selectors : list selector
}.

(** [__lt__] *)
Definition lt (a b : t) : bool :=
  if negb (priority a =? priority b) then priority b <? priority a
  else f_ltb (first_request_time a) (first_request_time b).

Definition set_allocated (l : list ResourceDict) (r : t) : t := {|
  first_request_time := first_request_time r; requested_resources := requested_resources r;
  expiration_time := expiration_time r; request_remaining := request_remaining r; priority := priority r;
  allocated_resources := l; requested_label_selectors := requested_label_selectors r |}.

(** The request with the resources, selectors and expiration of a later call. *)
Definition renew (l : list ResourceDict) (s : list selector) (expires : float) (r : t) : t := {|
  first_request_time := first_request_time r; requested_resources := l;
  expiration_time := expires; request_remaining := request_remaining r; priority := priority r;
  allocated_resources := allocated_resources r; requested_label_selectors := s |}.
End OngoingRequest.

(** A node as [ray.nodes] reports it. *)
Record Node : Type := {
  Alive : bool;
  Resources : ResourceDict;
  Labels : option selector;
  NodeID : option string
}.

Module AutoscalingCoordinator.
Import OngoingRequest.

Abbreviation cluster := (dict (option string) (list ResourceDict)).

Record t : Type := {
  _ongoing_reqs : dict string OngoingRequest.t;
  _subcluster_selectors : dict string (option selector);
  _cluster_node_resources : cluster;
  (* the calls of [_send_resources_request] *)
  sent : list (list ResourceDict * option (list selector))
}.

Definition set_reqs (l : dict string OngoingRequest.t) (x : t) : t := {|
  _ongoing_reqs := l; _subcluster_selectors := _subcluster_selectors x;
  _cluster_node_resources := _cluster_node_resources x; sent := sent x |}.
Definition set_selectors (l : dict string (option selector)) (x : t) : t := {|
  _ongoing_reqs := _ongoing_reqs x; _subcluster_selectors := l;
  _cluster_node_resources := _cluster_node_resources x; sent := sent x |}.
Definition set_cluster (l : cluster) (x : t) : t := {|
  _ongoing_reqs := _ongoing_reqs x; _subcluster_selectors := _subcluster_selectors x;
  _cluster_node_resources := l; sent := sent x |}.
Definition add_sent s (x : t) : t := {|
  _ongoing_reqs := _ongoing_reqs x; _subcluster_selectors := _subcluster_selectors x;
  _cluster_node_resources := _cluster_node_resources x; sent := sent x ++ [s] |}.

(** ** Sending *)
Definition _purge_expired_requests (now : float) (x : t) : t :=
  let live := filter (λ p : string * OngoingRequest.t, f_ltb now (expiration_time p.2)) (_ongoing_reqs x) in
  let expired := filter (λ id, id ∉ live.*1) (_ongoing_reqs x).*1 in
  set_reqs live (set_selectors (foldl ddel (_subcluster_selectors x) expired) x).

(** The requester's selector; an absent one is empty. *)
Definition subcluster_selector_of (x : t) (id : string) : selector :=
  default ∅ (default None (dget (_subcluster_selectors x) id)).

Definition merged_req (x : t) : list ResourceDict :=
  concat (map (λ p : string * OngoingRequest.t, requested_resources p.2) (_ongoing_reqs x)).

(** [{**per_bundle, **subcluster_selector}] for each bundle. *)
Definition merged_selectors (x : t) : list selector :=
  concat (map (λ p : string * OngoingRequest.t,
    map (λ s : selector, subcluster_selector_of x p.1 ∪ s) (requested_label_selectors p.2)) (_ongoing_reqs x)).

Section coordinator.
Variable send : list ResourceDict → option (list selector) → result unit.

Definition _merge_and_send_requests (now : float) (x : t) : result unit * t :=
  let x := _purge_expired_requests now x in
  let s := if existsb (λ s : selector, bool_decide (s ≠ ∅)) (merged_selectors x)
           then Some (merged_selectors x) else None in
  (send (merged_req x) s, add_sent (merged_req x, s) x).

(** ** Allocating *)

(** [res1] less [res2] when it fits. *)
Definition _maybe_subtract_resources (res1 res2 : ResourceDict) : option ResourceDict :=
  if existsb (λ kv : string * float, f_ltb (default f_zero (res1 !! kv.1)) kv.2) (map_to_list res2) then None
  else Some (map_imap (λ k v, Some (match res2 !! k with Some w => f_sub v w | None => v end)) res1).

(** The first node a bundle fits. *)
Fixpoint place (bundle : ResourceDict) (nodes : list ResourceDict) : option (list ResourceDict) :=
  match nodes with
  | [] => None
  | n :: nodes =>
      match _maybe_subtract_resources n bundle with
      | Some n => Some (n :: nodes)
      | None => cons n <$> place bundle nodes
      end
  end.

(** The bundles placed, and what is left of the nodes. *)
Fixpoint place_all (bundles : list ResourceDict) (nodes : list ResourceDict) :
    list ResourceDict * list ResourceDict :=
  match bundles with
  | [] => ([], nodes)
  | b :: bundles =>
      match place b nodes with
      | Some nodes => let r := place_all bundles nodes in (b :: r.1, r.2)
      | None => place_all bundles nodes
      end
  end.

Definition _subcluster_of (x : t) (id : string) : option string :=
  match subcluster_selector_of x id !! SUBCLUSTER_LABEL_KEY with
  | Some s => Some s | None => DEFAULT_SUBCLUSTER end.

Definition live_items (now : float) (x : t) : list (string * OngoingRequest.t) :=
  sort_by (λ a b : string * OngoingRequest.t, OngoingRequest.lt a.2 b.2)
    (filter (λ p : string * OngoingRequest.t, f_leb now (expiration_time p.2)) (_ongoing_reqs x)).

(** The allocation of one live request. *)
Definition allocate_one (x : t) (p : dict string OngoingRequest.t * cluster) (item : string * OngoingRequest.t) :
    dict string OngoingRequest.t * cluster :=
  let sub := _subcluster_of x item.1 in
  match dget p.2 sub with
  | None => (dset p.1 item.1 (set_allocated [] item.2), p.2)
  | Some nodes =>
      let r := place_all (requested_resources item.2) nodes in
      (dset p.1 item.1 (set_allocated r.1 item.2), dset p.2 sub r.2)
  end.

(** The remaining resources of a node, divided among [n] requesters. *)
Definition divided (n : nat) (node : ResourceDict) : ResourceDict :=
  (λ v, f_floordiv v (f_of_int (Z.of_nat n))) <$> node.
Definition worth (d : ResourceDict) : bool := existsb (λ kv : string * float, f_ltb f_zero kv.2) (map_to_list d).

(** What each of [n] requesters gets of the nodes of a subcluster. *)
Definition shares (n : nat) (nodes : list ResourceDict) : list ResourceDict :=
  filter (λ d, worth d = true) (map (divided n) nodes).

Definition append_allocated (l : list ResourceDict) (reqs : dict string OngoingRequest.t) (id : string) :
    dict string OngoingRequest.t :=
  match dget reqs id with
  | Some r => dset reqs id (set_allocated (allocated_resources r ++ l) r)
  | None => reqs
  end.

Definition share_one (x : t) (remaining : list string) (reqs : dict string OngoingRequest.t)
    (b : option string * list ResourceDict) : dict string OngoingRequest.t :=
  let eligible := filter (λ id, _subcluster_of x id = b.1) remaining in
  match eligible with
  | [] => reqs
  | _ => foldl (append_allocated (shares (length eligible) b.2)) reqs eligible
  end.

Definition _reallocate_resources (now : float) (x : t) : t :=
  let live := live_items now x in
  let p := foldl (allocate_one x) (_ongoing_reqs x, _cluster_node_resources x) live in
  let remaining := (filter (λ p : string * OngoingRequest.t, request_remaining p.2 = true) live).*1 in
  set_reqs (foldl (share_one x remaining) p.1 p.2) x.

(** ** The nodes of the cluster *)
Definition _is_node_eligible (n : Node) : bool :=
  Alive n &&
  negb (bool_decide (HEAD_NODE_RESOURCE_LABEL ∈ dom (Resources n)) &&
        f_eqb (default f_zero (Resources n !! "CPU")) f_zero &&
        f_eqb (default f_zero (Resources n !! "GPU")) f_zero).

Definition id_lt (a b : Node) : bool :=
  let i := default "" (NodeID a) in let j := default "" (NodeID b) in
  bool_decide ((i ≤ j)%string ∧ i ≠ j).

Definition subcluster_of_node (n : Node) : option string :=
  match default ∅ (Labels n) !! SUBCLUSTER_LABEL_KEY with Some s => Some s | None => DEFAULT_SUBCLUSTER end.

Definition buckets (nodes : list Node) : cluster :=
  foldl (λ d n, dset d (subcluster_of_node n) (default [] (dget d (subcluster_of_node n)) ++ [Resources n])) []
    (sort_by id_lt (filter (λ n, _is_node_eligible n = true) nodes)).

Definition cluster_eqb (a b : cluster) : bool :=
  bool_decide (length a = length b) &&
  forallb (λ p : option string * list ResourceDict,
    match dget b p.1 with Some l => bundles_eqb p.2 l | None => false end) a.

Definition _update_cluster_node_resources (nodes : list Node) (x : t) : t :=
  if cluster_eqb (buckets nodes) (_cluster_node_resources x) then x else set_cluster (buckets nodes) x.

(** ** Operations *)
Definition init (nodes : list Node) : t :=
  _update_cluster_node_resources nodes
    {| _ongoing_reqs := []; _subcluster_selectors := []; _cluster_node_resources := []; sent := [] |}.

(** [nodes] is what [get_cluster_nodes] returns or raises. *)
Definition _tick (clock : nat → float) (nodes : result (list Node)) (x : t) : result unit * t :=
  match _merge_and_send_requests (clock O) x with
  | (Raise e, x) => (Raise e, x)
  | (Ok _, x) =>
      match nodes with
      | Raise e => (Raise e, x)
      | Ok nodes => (Ok tt, _reallocate_resources (clock 1%nat) (_update_cluster_node_resources nodes x))
      end
  end.

(** The selectors given are one for each bundle, and name no other subcluster. *)
Definition check_selectors (resources : list ResourceDict) (label_selectors : option (list selector))
    (subcluster_selector : option selector) : result (list selector) :=
  l ← match label_selectors with
      | None => Ok (map (λ _, ∅) resources)
      | Some l => if bool_decide (length l = length resources) then Ok l else Raise ValueError
      end;
  let pinned := default ∅ subcluster_selector in
  if bool_decide (pinned ≠ ∅) &&
     existsb (λ s : selector, match s !! SUBCLUSTER_LABEL_KEY with
       | Some c => negb (bool_decide (Some c = pinned !! SUBCLUSTER_LABEL_KEY)) | None => false end) l
  then Raise ValueError
  else Ok l.

Definition check_unchanged (x : t) (id : string) (remaining : bool) (p : ResourceRequestPriority)
    (subcluster_selector : option selector) (old : OngoingRequest.t) : result unit :=
  if negb (eqb remaining (request_remaining old)) then Raise ValueError
  else if negb (priority_value p =? priority old) then Raise ValueError
  else match dget (_subcluster_selectors x) id with
       | Some s => if bool_decide (s = subcluster_selector) then Ok tt else Raise ValueError
       | None => Ok tt
       end.

Definition request_resources (clock : nat → float) (id : string) (resources : list ResourceDict)
    (expire_after_s : float) (remaining : bool) (p : ResourceRequestPriority)
    (label_selectors : option (list selector)) (subcluster_selector : option selector) (x : t) : result unit * t :=
  match check_selectors resources label_selectors subcluster_selector with
  | Raise e => (Raise e, x)
  | Ok selectors =>
      let expires := f_add (clock O) expire_after_s in
      let updated : result (bool * OngoingRequest.t) :=
        match dget (_ongoing_reqs x) id with
        | Some old =>
            _ ← check_unchanged x id remaining p subcluster_selector old;
            Ok (negb (bundles_eqb resources (requested_resources old)) ||
                negb (bool_decide (selectors = requested_label_selectors old)),
                renew resources selectors expires old)
        | None =>
            Ok (true, {| first_request_time := clock O; requested_resources := resources;
                         requested_label_selectors := selectors; request_remaining := remaining;
                         priority := priority_value p; expiration_time := expires; allocated_resources := [] |})
        end in
      match updated with
      | Raise e => (Raise e, x)
      | Ok (changed, req) =>
          let x := set_selectors (dset (_subcluster_selectors x) id subcluster_selector)
                     (set_reqs (dset (_ongoing_reqs x) id req) x) in
          if changed then
            match _merge_and_send_requests (clock 1%nat) x with
            | (Raise e, x) => (Raise e, x)
            | (Ok _, x) => (Ok tt, _reallocate_resources (clock 2%nat) x)
            end
          else (Ok tt, x)
      end
  end.

Definition cancel_request (clock : nat → float) (id : string) (x : t) : result unit * t :=
  if negb (dmem (_ongoing_reqs x) id) then (Ok tt, x)
  else
    let x := set_selectors (ddel (_subcluster_selectors x) id) (set_reqs (ddel (_ongoing_reqs x) id) x) in
    match _merge_and_send_requests (clock O) x with
    | (Raise e, x) => (Raise e, x)
    | (Ok _, x) => (Ok tt, _reallocate_resources (clock 1%nat) x)
    end.

Definition get_allocated_resources (id : string) (x : t) : list ResourceDict :=
  match dget (_ongoing_reqs x) id with Some r => allocated_resources r | None => [] end.
End coordinator.
End AutoscalingCoordinator.
