(* ===== verification/CoordinatorFacts.v ===== *)
(** * The autoscaling coordinator: allocations

    What the loops of [_reallocate_resources] give each request, and on which
    nodes. *)
From S2P Require Import Prelude PyDict PyFloat Coordinator.
Import OngoingRequest AutoscalingCoordinator.

(** ** Placing bundles *)

(** The bundle fits the node: no resource of it exceeds the node's. *)
Definition fits (node bundle : ResourceDict) : Prop :=
  ∀ k w, bundle !! k = Some w → f_ltb (default f_zero (node !! k)) w = false.

(** The node less the bundle. *)
Definition less (node bundle : ResourceDict) (k : string) : option float :=
  match node !! k, bundle !! k with
  | Some v, Some w => Some (f_sub v w)
  | v, _ => v
  end.

(** Bundles that fit a node in turn, each subtracted before the next, and what is left of it. *)
Inductive pack : ResourceDict → list ResourceDict → ResourceDict → Prop :=
  | pack_nil node : pack node [] node
  | pack_cons node bundle node' bundles rest :
      fits node bundle → (∀ k, node' !! k = less node bundle k) → pack node' bundles rest →
      pack node (bundle :: bundles) rest.

Lemma subtract_spec node b n : _maybe_subtract_resources node b = Some n →
  fits node b ∧ ∀ k, n !! k = less node b k.
Proof.
  unfold _maybe_subtract_resources. destruct (existsb _ _) eqn:E; [done|]. intros [= <-]. split.
  - intros k w Hk. apply elem_of_map_to_list, list_elem_of_In in Hk.
    destruct (f_ltb _ w) eqn:Hw; [|done]. rewrite <-E. symmetry. apply existsb_exists. by exists (k, w).
  - intros k. rewrite map_lookup_imap. unfold less. by destruct (node !! k), (b !! k).
Qed.

Lemma pack_snoc node bs b rest n : pack node bs rest → _maybe_subtract_resources rest b = Some n → pack node (bs ++ [b]) n.
Proof.
  intros H Hb. apply subtract_spec in Hb as [Hf Hn].
  induction H; cbn; econstructor; try done; [constructor|by apply IHpack].
Qed.

Abbreviation packed := (Forall3 pack).

Lemma packed_start nodes : packed nodes (map (λ _, []) nodes) nodes.
Proof. induction nodes; constructor; [constructor|done]. Qed.

Lemma concat_nil_map {A B} (l : list A) : concat (map (λ _, @nil B) l) = [].
Proof. by induction l. Qed.

(** A bundle placed goes to the first node it fits. *)
Lemma place_spec b nodes0 packs nodes nodes' : packed nodes0 packs nodes → place b nodes = Some nodes' →
  ∃ packs', packed nodes0 packs' nodes' ∧ concat packs' ≡ₚ concat packs ++ [b].
Proof.
  intros H. revert nodes'. induction H as [|n p r nodes0 packs nodes Hr H IH]; intros nodes'; [done|]. simpl.
  destruct (_maybe_subtract_resources r b) as [r'|] eqn:Hb.
  - intros [= <-]. exists ((p ++ [b]) :: packs). split; [constructor; [by eapply pack_snoc|done]|].
    simpl. rewrite <-!app_assoc. apply Permutation_app_head, Permutation_app_comm.
  - intros (l & Hl & ->)%fmap_Some.
    destruct (IH _ Hl) as (packs' & Hp & Hc). exists (p :: packs'). split; [by constructor|].
    simpl. by rewrite Hc, app_assoc.
Qed.

(** A bundle that is not placed fits no node. *)
Lemma place_none b nodes : place b nodes = None ↔ ∀ n, n ∈ nodes → _maybe_subtract_resources n b = None.
Proof.
  induction nodes as [|n nodes IH]; simpl; [split; [by intros _ n ?%elem_of_nil|done]|].
  destruct (_maybe_subtract_resources n b) as [n'|] eqn:Hb.
  - split; [done|]. intros H. rewrite (H n) in Hb; [done|left].
  - rewrite fmap_None, IH. split; intros H; [by intros m [->|Hm]%elem_of_cons; [|apply H]|intros m Hm; apply H; by right].
Qed.

Lemma place_all_spec bundles nodes0 packs nodes : packed nodes0 packs nodes →
  sublist (place_all bundles nodes).1 bundles ∧
  ∃ packs', packed nodes0 packs' (place_all bundles nodes).2 ∧
    concat packs' ≡ₚ concat packs ++ (place_all bundles nodes).1.
Proof.
  revert packs nodes. induction bundles as [|b bundles IH]; intros packs nodes H; simpl.
  { split; [done|]. exists packs. split; [done|]. by rewrite app_nil_r. }
  destruct (place b nodes) as [nodes'|] eqn:Hb.
  - destruct (place_spec _ _ _ _ _ H Hb) as (packs1 & H1 & Hc1). destruct (IH _ _ H1) as [Hs (packs2 & H2 & Hc2)].
    split; [by constructor|]. exists packs2. split; [done|]. rewrite Hc2, Hc1. simpl. by rewrite <-app_assoc.
  - destruct (IH _ _ H) as [Hs Hp]. split; [by constructor|exact Hp].
Qed.

(** ** The loop over the live requests *)

Abbreviation item := (string * OngoingRequest.t)%type.

(** The bundles granted to each request in turn, and the nodes left. *)
Fixpoint grants (x : t) (cl : cluster) (items : list item) : list (list ResourceDict) * cluster :=
  match items with
  | [] => ([], cl)
  | it :: items =>
      let sub := _subcluster_of x it.1 in
      let r := place_all (requested_resources it.2) (default [] (dget cl sub)) in
      let cl := match dget cl sub with Some _ => dset cl sub r.2 | None => cl end in
      let rest := grants x cl items in
      ((match dget cl sub with Some _ => r.1 | None => [] end) :: rest.1, rest.2)
  end.

Lemma place_all_nil bundles : place_all bundles [] = ([], []).
Proof. by induction bundles. Qed.

Lemma grants_length x cl items : length (grants x cl items).1 = length items.
Proof. revert cl. induction items as [|it items IH]; intros cl; simpl; [done|]. by rewrite IH. Qed.

(** The requests with their grants set. *)
Definition granted (reqs : dict string OngoingRequest.t) (items : list item) (l : list (list ResourceDict)) :
    dict string OngoingRequest.t :=
  foldl (λ d p, dset d p.1.1 (set_allocated p.2 p.1.2)) reqs (zip items l).

Lemma allocate_grants x items reqs cl : foldl (allocate_one x) (reqs, cl) items =
  (granted reqs items (grants x cl items).1, (grants x cl items).2).
Proof.
  revert reqs cl. induction items as [|it items IH]; intros reqs cl; [done|]. cbn [foldl grants].
  unfold allocate_one at 2. cbn [fst snd]. destruct (dget cl (_subcluster_of x it.1)) as [nodes|] eqn:Hn.
  - rewrite IH. cbn [default from_option id fst snd]. rewrite dget_dset_eq. done.
  - rewrite IH. cbn [default from_option id fst snd]. rewrite Hn. done.
Qed.

Lemma granted_get reqs items l : NoDup items.*1 → length l = length items →
  (∀ k it g, items !! k = Some it → l !! k = Some g → dget (granted reqs items l) it.1 = Some (set_allocated g it.2)) ∧
  ∀ id, id ∉ items.*1 → dget (granted reqs items l) id = dget reqs id.
Proof.
  unfold granted. revert reqs l. induction items as [|it items IH]; intros reqs [|g l] Hnd Hl; try done.
  cbn [fmap list_fmap zip zip_with foldl fst snd] in *. apply NoDup_cons in Hnd as [Hn Hnd]. injection Hl as Hl.
  destruct (IH (dset reqs it.1 (set_allocated g it.2)) l Hnd Hl) as [H1 H2]. split.
  - intros [|k] it' g'; cbn; [|by apply H1]. intros [= <-] [= <-]. rewrite H2 by done. apply dget_dset_eq.
  - intros id Hid. rewrite not_elem_of_cons in Hid. rewrite H2 by tauto. apply dget_dset_ne. naive_solver.
Qed.

(** The nodes of a bucket. *)
Definition nodes_of (cl : cluster) (sub : option string) : list ResourceDict := default [] (dget cl sub).

(** The bundles granted from a bucket. *)
Definition granted_in (x : t) (sub : option string) (items : list item) (l : list (list ResourceDict)) : list ResourceDict :=
  concat (map snd (filter (λ p : item * list ResourceDict, _subcluster_of x p.1.1 = sub) (zip items l))).

(** No bundle is granted twice, and none that does not fit: those of a bucket
    are packed on its nodes. *)
Lemma grants_packed x cl0 cl items done_ sub packs0 :
  packed (nodes_of cl0 sub) packs0 (nodes_of cl sub) → concat packs0 ≡ₚ done_ →
  let r := grants x cl items in
  Forall2 (λ it g, sublist g (requested_resources it.2)) items r.1 ∧
  ∃ packs, packed (nodes_of cl0 sub) packs (nodes_of r.2 sub) ∧ concat packs ≡ₚ done_ ++ granted_in x sub items r.1.
Proof.
  revert cl done_ packs0. induction items as [|it items IH]; intros cl done_ packs0 Hp Hc; cbn [grants].
  { split; [constructor|]. exists packs0. split; [done|]. by rewrite app_nil_r. }
  set (s := _subcluster_of x it.1). cbn [fst snd]. unfold granted_in. cbn [zip zip_with]. rewrite filter_cons. cbn [fst].
  destruct (dget cl s) as [nodes|] eqn:Hn; cbn [default from_option id].
  - rewrite dget_dset_eq. set (r := place_all (requested_resources it.2) nodes).
    destruct (decide (_subcluster_of x it.1 = sub)) as [<-|E]; fold s in IH, Hp |- *.
    + unfold nodes_of in Hp at 2. rewrite Hn in Hp. cbn in Hp.
      destruct (place_all_spec (requested_resources it.2) _ _ _ Hp) as [Hs (packs & Hp' & Hc')]. fold r in Hs, Hp', Hc'.
      destruct (IH (dset cl s r.2) (done_ ++ r.1) packs) as [H1 (packs' & H2 & H3)].
      * unfold nodes_of at 2. rewrite dget_dset_eq. exact Hp'.
      * by rewrite Hc', Hc.
      * split; [by constructor|]. exists packs'. split; [done|]. rewrite H3. cbn [map concat snd]. by rewrite <-app_assoc.
    + destruct (IH (dset cl s r.2) done_ packs0) as [H1 (packs' & H2 & H3)]; [|done|].
      * unfold nodes_of at 2. rewrite dget_dset_ne by done. exact Hp.
      * split; [|by exists packs']. constructor; [|done].
        by destruct (place_all_spec (requested_resources it.2) _ _ _ (packed_start nodes)).
  - rewrite Hn. destruct (IH cl done_ packs0 Hp Hc) as [H1 (packs' & H2 & H3)].
    split; [constructor; [apply sublist_nil_l|done]|]. exists packs'. split; [done|]. rewrite H3.
    by destruct (decide _).
Qed.

Lemma grants_app x cl items items' : grants x cl (items ++ items') =
  ((grants x cl items).1 ++ (grants x (grants x cl items).2 items').1, (grants x (grants x cl items).2 items').2).
Proof.
  revert cl. induction items as [|it items IH]; intros cl; [cbn; by destruct (grants x cl items')|]. cbn [app grants]. by rewrite IH.
Qed.

Lemma grants_keys x cl items : (grants x cl items).2.*1 = cl.*1.
Proof.
  revert cl. induction items as [|it items IH]; intros cl; [done|]. cbn [grants fst snd]. rewrite IH.
  destruct (dget cl _) eqn:E; [|done]. apply dset_keys_mem. apply dget_elem in E. by apply (list_elem_of_fmap_2 fst) in E.
Qed.

(** ** Sharing what is left *)
Lemma set_allocated_same r : set_allocated (allocated_resources r) r = r.
Proof. by destruct r. Qed.

(** A request with more bundles. *)
Definition with_more (l : list ResourceDict) (r : OngoingRequest.t) : OngoingRequest.t :=
  set_allocated (allocated_resources r ++ l) r.

Lemma with_more_nil r : with_more [] r = r.
Proof. unfold with_more. rewrite app_nil_r. apply set_allocated_same. Qed.

Lemma append_all l reqs ids : NoDup ids → ∀ id,
  dget (foldl (append_allocated l) reqs ids) id =
  (if decide (id ∈ ids) then with_more l else Datatypes.id) <$> dget reqs id.
Proof.
  intros Hnd id. revert reqs. induction ids as [|j ids IH]; intros reqs; cbn [foldl].
  { rewrite decide_False by apply not_elem_of_nil. by destruct (dget reqs id). }
  apply NoDup_cons in Hnd as [Hj Hnd]. rewrite IH by done. unfold append_allocated.
  destruct (decide (id = j)) as [->|Hne].
  - rewrite decide_False by done. rewrite decide_True by left. destruct (dget reqs j) as [r|] eqn:E; [|by rewrite E].
    by rewrite dget_dset_eq.
  - assert (dget (match dget reqs j with Some r => dset reqs j (set_allocated (allocated_resources r ++ l) r)
      | None => reqs end) id = dget reqs id) as -> by (destruct (dget reqs j); [by apply dget_dset_ne|done]).
    destruct (decide (id ∈ ids)).
    + by rewrite decide_True by by right.
    + rewrite decide_False; [done|]. rewrite not_elem_of_cons. tauto.
Qed.

(** The requesters that share a bucket. *)
Definition rivals (x : t) (remaining : list string) (sub : option string) : list string :=
  filter (λ id, _subcluster_of x id = sub) remaining.

Lemma share_one_get x remaining reqs b id : NoDup remaining →
  dget (share_one x remaining reqs b) id =
  (if decide (id ∈ rivals x remaining b.1) then with_more (shares (length (rivals x remaining b.1)) b.2) else Datatypes.id)
    <$> dget reqs id.
Proof.
  intros Hnd. unfold share_one. fold (rivals x remaining b.1).
  assert (NoDup (rivals x remaining b.1)) as Hr by by apply NoDup_filter.
  destruct (rivals x remaining b.1) as [|i l] eqn:E; [|by apply append_all].
  rewrite decide_False by apply not_elem_of_nil. by destruct (dget reqs id).
Qed.

Lemma share_all x remaining reqs (cl : cluster) id : NoDup remaining → dwf cl →
  dget (foldl (share_one x remaining) reqs cl) id =
  (if decide (id ∈ remaining)
   then with_more (shares (length (rivals x remaining (_subcluster_of x id))) (nodes_of cl (_subcluster_of x id)))
   else Datatypes.id) <$> dget reqs id.
Proof.
  intros Hnd. revert reqs. induction cl as [|[sub nodes] cl IH]; intros reqs Hw; cbn [foldl].
  { cbn. destruct (decide _), (dget reqs id) as [r|]; [|done..]. cbn. by rewrite with_more_nil. }
  unfold dwf in Hw. cbn in Hw. apply NoDup_cons in Hw as [Hn Hw]. rewrite IH, share_one_get by done. cbn [fst snd].
  assert (id ∈ rivals x remaining sub ↔ _subcluster_of x id = sub ∧ id ∈ remaining) as Hiff by (unfold rivals; by rewrite list_elem_of_filter).
  unfold nodes_of at 2. cbn [dget]. destruct (decide (id ∈ remaining)) as [Hin|Hin].
  - destruct (decide (_subcluster_of x id = sub)) as [E|E].
    + rewrite (decide_True (P:=id ∈ rivals x remaining sub)) by (apply (proj2 Hiff); by split). cbn [default from_option].
      assert (dget cl (_subcluster_of x id) = None) as Hnone by (apply dget_None; by rewrite E).
      unfold nodes_of. rewrite Hnone. destruct (dget reqs id) as [r|]; [|done]. cbn.
      rewrite with_more_nil. by rewrite E.
    + rewrite decide_False by tauto. unfold nodes_of. by destruct (dget reqs id).
  - rewrite decide_False by tauto. by destruct (dget reqs id).
Qed.
