(* ===== verification/CoordinatorProps.v ===== *)
(** * The autoscaling coordinator: properties

    Allocations are safe, fair and independent of less urgent requests; what
    every reachable state keeps; what a request changes; and a request that
    expires between two readings of the clock. *)
From S2P Require Import Prelude PyDict PyFloat Coordinator CoordinatorFacts.
Import OngoingRequest AutoscalingCoordinator.

(** ** The live requests *)
Lemma live_perm now x : live_items now x ≡ₚ filter (λ p : item, f_leb now (expiration_time p.2)) (_ongoing_reqs x).
Proof. apply sort_by_perm. Qed.

Lemma filter_dwf {A} (Q : string * A → Prop) `{!∀ p, Decision (Q p)} (d : dict string A) : dwf d → dwf (filter Q d).
Proof.
  unfold dwf. induction d as [|p d IH]; intros Hw; [done|]. cbn in Hw. apply NoDup_cons in Hw as [Hn Hw].
  rewrite filter_cons. destruct (decide (Q p)); [|by apply IH]. cbn. constructor; [|by apply IH].
  intros (p' & Hp & [_ Hin]%list_elem_of_filter)%list_elem_of_fmap. apply Hn, list_elem_of_fmap. by exists p'.
Qed.

Lemma live_NoDup now x : dwf (_ongoing_reqs x) → NoDup (live_items now x).*1.
Proof. intros Hw. rewrite live_perm. by apply filter_dwf. Qed.

Lemma live_elem now x it : it ∈ live_items now x ↔ it ∈ _ongoing_reqs x ∧ f_leb now (expiration_time it.2) = true.
Proof. rewrite live_perm, list_elem_of_filter, Is_true_true. tauto. Qed.

(** More urgent requests come first. *)
Lemma live_sorted now x : Forall (λ p : item, f_is_nan (first_request_time p.2) = false) (_ongoing_reqs x) →
  StronglySorted (λ a b : item, lt b.2 a.2 = false) (live_items now x).
Proof.
  intros Hn. apply (sort_by_sorted (λ p : item, f_is_nan (first_request_time p.2) = false) (λ a b : item, lt a.2 b.2)).
  - intros [i a] [j b] Ha Hb. unfold lt. cbn in *. rewrite (Z.eqb_sym (priority b)). destruct (Z.eqb_spec (priority a) (priority b)); cbn.
    + intros H%f_ltb_rank; [|done..]. destruct (f_ltb (first_request_time b) _) eqn:E; [|done].
      apply f_ltb_rank in E; [|done..]. unfold lt3 in *. lia.
    + rewrite Z.ltb_lt, Z.ltb_ge. lia.
  - intros [i a] [j b] [k c] Ha Hb Hc. unfold lt. cbn in *.
    destruct (Z.eqb_spec (priority b) (priority a)), (Z.eqb_spec (priority c) (priority b)), (Z.eqb_spec (priority c) (priority a));
      cbn; intros H1 H2; rewrite ?Z.ltb_ge in *; try lia.
    destruct (f_ltb (first_request_time c) (first_request_time a)) eqn:E; [|done]. exfalso.
    apply f_ltb_rank in E; [|done..]. rewrite <-not_true_iff_false, f_ltb_rank in H1, H2 by done. unfold lt3 in *. lia.
  - apply Forall_forall. intros it [_ Hit]%list_elem_of_filter. rewrite Forall_forall in Hn. by apply Hn.
Qed.

(** The order of urgency: a higher priority, or an earlier first request of the same. *)
Definition no_later (a b : OngoingRequest.t) : Prop :=
  priority b < priority a ∨
  priority b = priority a ∧ f_ltb (first_request_time b) (first_request_time a) = false.

Lemma lt_no_later a b : lt b a = false → no_later a b.
Proof. unfold lt, no_later. destruct (Z.eqb_spec (priority b) (priority a)); cbn; [by right|]. rewrite Z.ltb_ge. left. lia. Qed.

(** The live requests that also get a share of what is left. *)
Definition sharers (now : float) (x : t) : list string :=
  (filter (λ p : item, request_remaining p.2 = true) (live_items now x)).*1.

Lemma sharers_NoDup now x : dwf (_ongoing_reqs x) → NoDup (sharers now x).
Proof. intros Hw. by apply filter_dwf, live_NoDup. Qed.

Lemma sharers_elem now x it : dwf (_ongoing_reqs x) → it ∈ live_items now x →
  it.1 ∈ sharers now x ↔ request_remaining it.2 = true.
Proof.
  intros Hw Hin. pose proof (live_NoDup now x Hw) as Hnd. unfold sharers. rewrite list_elem_of_fmap. split.
  - intros (q & Hq & [Hr Hin']%list_elem_of_filter). assert (q = it) as <-; [|done].
    destruct q as [i q], it as [j r]; cbn in *. subst j. f_equal.
    assert (dget (live_items now x) i = Some q) as H1 by by apply dget_wf_elem.
    assert (dget (live_items now x) i = Some r) as H2 by by apply dget_wf_elem. congruence.
  - intros Hr. exists it. split; [done|]. by apply list_elem_of_filter.
Qed.

(** ** Reallocation *)

(** The requests after a reallocation: grants, then shares. *)
Lemma reallocate_get now x : dwf (_ongoing_reqs x) → dwf (_cluster_node_resources x) →
  let live := live_items now x in
  let gs := grants x (_cluster_node_resources x) live in
  (∀ k it g, live !! k = Some it → gs.1 !! k = Some g →
     dget (_ongoing_reqs (_reallocate_resources now x)) it.1 = Some (set_allocated
       (g ++ if request_remaining it.2
             then shares (length (rivals x (sharers now x) (_subcluster_of x it.1))) (nodes_of gs.2 (_subcluster_of x it.1))
             else []) it.2)) ∧
  ∀ id, id ∉ live.*1 → dget (_ongoing_reqs (_reallocate_resources now x)) id = dget (_ongoing_reqs x) id.
Proof.
  intros Hw Hc live gs. pose proof (live_NoDup now x Hw) as Hnd.
  unfold _reallocate_resources. cbn [set_reqs _ongoing_reqs]. rewrite allocate_grants. fold live gs. cbn [fst snd]. fold (sharers now x).
  assert (dwf gs.2) as Hc' by (unfold dwf, gs; by rewrite grants_keys).
  destruct (granted_get (_ongoing_reqs x) live gs.1 Hnd) as [H1 H2]; [apply grants_length|]. split.
  - intros k it g Hit Hg. rewrite share_all, (H1 k it g Hit Hg) by (try done; by apply sharers_NoDup).
    assert (it ∈ live) as Hin by by eapply list_elem_of_lookup_2. pose proof (sharers_elem now x it Hw Hin) as Hs. cbn [fmap option_fmap option_map].
    destruct (request_remaining it.2) eqn:Hr.
    + by rewrite decide_True by by apply Hs.
    + assert (it.1 ∉ sharers now x) as Hno by (intros Hi; by apply Hs in Hi). rewrite decide_False by done. cbn. by rewrite app_nil_r.
  - intros id Hid. rewrite share_all, H2 by (try done; by apply sharers_NoDup). rewrite decide_False; [by destruct (dget _ _)|].
    unfold sharers. intros (q & -> & [_ Hin]%list_elem_of_filter)%list_elem_of_fmap. apply Hid. by apply (list_elem_of_fmap_2 fst).
Qed.

(** C7: A reallocation is safe and complete.  Every live request gets a part of
    the bundles it asked for, in order, and a request for the remaining
    resources also its share; others keep what they have.  The bundles granted
    in a subcluster are packed on its nodes: each lies on one node, where
    subtracting the node's bundles in turn each fits; the shares are of what is
    left of the nodes after that, divided by the number of the subcluster's
    requests for the remaining resources. *)
Theorem reallocate_spec now x : dwf (_ongoing_reqs x) → dwf (_cluster_node_resources x) →
  ∃ (granted : list (list ResourceDict)) (left : option string → list ResourceDict),
    let live := live_items now x in
    Forall2 (λ it g, sublist g (requested_resources it.2)) live granted ∧
    (∀ k it g, live !! k = Some it → granted !! k = Some g →
       get_allocated_resources it.1 (_reallocate_resources now x) =
         g ++ if request_remaining it.2
              then shares (length (rivals x (sharers now x) (_subcluster_of x it.1))) (left (_subcluster_of x it.1))
              else []) ∧
    (∀ id, id ∉ live.*1 → get_allocated_resources id (_reallocate_resources now x) = get_allocated_resources id x) ∧
    ∀ sub, ∃ on_nodes, packed (nodes_of (_cluster_node_resources x) sub) on_nodes (left sub) ∧
      concat on_nodes ≡ₚ granted_in x sub live granted.
Proof.
  intros Hw Hc. destruct (reallocate_get now x Hw Hc) as [H1 H2].
  set (gs := grants x (_cluster_node_resources x) (live_items now x)) in *.
  exists gs.1, (nodes_of gs.2). intros live.
  assert (∀ sub, Forall2 (λ it g, sublist g (requested_resources it.2)) live gs.1 ∧
    ∃ packs, packed (nodes_of (_cluster_node_resources x) sub) packs (nodes_of gs.2 sub) ∧
      concat packs ≡ₚ granted_in x sub live gs.1) as Hp.
  { intros sub. apply (grants_packed x _ _ _ [] sub (map (λ _, []) (nodes_of (_cluster_node_resources x) sub))).
    - apply packed_start.
    - by rewrite concat_nil_map. }
  split; [apply (Hp None)|]. split; [|split; [|intros sub; apply Hp]].
  - intros k it g Hit Hg. unfold get_allocated_resources. by rewrite (H1 k it g Hit Hg).
  - intros id Hid. unfold get_allocated_resources. by rewrite H2.
Qed.

(** C25: Urgency is respected: a request that asks for no remaining resources is
    allocated the same whatever requests come after it in the order of
    priority, then time of the first request; and the requests are served in
    that order. *)
Theorem urgent_first now x y before it after after' :
  dwf (_ongoing_reqs x) → dwf (_ongoing_reqs y) → dwf (_cluster_node_resources x) →
  _cluster_node_resources y = _cluster_node_resources x →
  live_items now x = before ++ it :: after → live_items now y = before ++ it :: after' →
  (∀ id, id ∈ (before ++ [it]).*1 → _subcluster_of y id = _subcluster_of x id) →
  request_remaining it.2 = false →
  Forall (λ p : item, f_is_nan (first_request_time p.2) = false) (_ongoing_reqs x) →
  get_allocated_resources it.1 (_reallocate_resources now x) = get_allocated_resources it.1 (_reallocate_resources now y) ∧
  Forall (λ p : item, no_later p.2 it.2) before ∧ Forall (λ p : item, no_later it.2 p.2) after.
Proof.
  intros Hwx Hwy Hc Hcl Hx Hy Hsub Hr Hn.
  assert (∀ cl l, (∀ id, id ∈ l.*1 → _subcluster_of y id = _subcluster_of x id) → grants y cl l = grants x cl l) as Hgr.
  { intros cl l. revert cl. induction l as [|a l IH]; intros cl H; [done|]. cbn [grants]. rewrite (H a.1) by left.
    rewrite IH; [done|]. intros id Hid. apply H. by right. }
  assert (∀ z tail, live_items now z = before ++ it :: tail → dwf (_ongoing_reqs z) →
    _cluster_node_resources z = _cluster_node_resources x → ∃ g,
      (grants z (_cluster_node_resources x) (before ++ [it])).1 !! length before = Some g ∧
      get_allocated_resources it.1 (_reallocate_resources now z) = g) as Hget.
  { intros z tail Hz Hw Hclz. destruct (reallocate_get now z Hw) as [H1 _]; [by rewrite Hclz|].
    pose proof (grants_length z (_cluster_node_resources x) (before ++ [it])) as Hlen. rewrite length_app in Hlen. cbn in Hlen.
    destruct (lookup_lt_is_Some_2 (grants z (_cluster_node_resources x) (before ++ [it])).1 (length before)) as [g Hg]; [lia|].
    exists g. split; [done|]. unfold get_allocated_resources.
    rewrite (H1 (length before) it g); [by rewrite Hr, app_nil_r|by rewrite Hz, list_lookup_middle|].
    rewrite Hclz, Hz. replace (before ++ it :: tail) with ((before ++ [it]) ++ tail) by by rewrite <-app_assoc.
    rewrite grants_app. cbn [fst]. by apply lookup_app_l_Some. }
  destruct (Hget x after Hx Hwx eq_refl) as (g & Hg & ->). destruct (Hget y after' Hy Hwy Hcl) as (g' & Hg' & ->).
  split; [rewrite Hgr in Hg' by done; congruence|].
  pose proof (live_sorted now x Hn) as Hs. rewrite Hx in Hs. apply StronglySorted_app in Hs as (H1 & _ & H2).
  apply StronglySorted_inv in H2 as [_ H2].
  split; apply Forall_forall; intros p Hp; apply lt_no_later; [apply H1; [done|left]|by rewrite Forall_forall in H2; apply H2].
Qed.

(** ** What every reachable state keeps *)

(** The same requests, but for what is allocated. *)
Definition same_requests : dict string OngoingRequest.t → dict string OngoingRequest.t → Prop :=
  Forall2 (λ p q, p.1 = q.1 ∧ ∃ l, q.2 = set_allocated l p.2).

Lemma same_requests_refl a : same_requests a a.
Proof.
  induction a as [|[k r] a IH]; constructor; [|done]. split; [done|]. exists (allocated_resources r). by rewrite set_allocated_same.
Qed.

Lemma same_requests_keys a b : same_requests a b → b.*1 = a.*1.
Proof. intros H. induction H as [|p q a b [Hk _] _ IH]; [done|]. cbn. by rewrite Hk, IH. Qed.

Lemma same_requests_set a b k r l : dwf a → (k, r) ∈ a → same_requests a b → same_requests a (dset b k (set_allocated l r)).
Proof.
  intros Hw Hin H. induction H as [|[i s] [j q] a b [Hk (l' & Hq)] H IH]; [by apply elem_of_nil in Hin|].
  cbn in Hk, Hq. subst j q. unfold dwf in Hw. cbn in Hw. apply NoDup_cons in Hw as [Hn Hw]. cbn [dset].
  apply elem_of_cons in Hin as [[= <- <-]|Hin].
  - rewrite decide_True by done. constructor; [split; [done|by exists l]|done].
  - rewrite decide_False by (intros ->; apply Hn; by apply (list_elem_of_fmap_2 fst) in Hin).
    constructor; [split; [done|by exists l']|by apply IH].
Qed.

Lemma same_requests_get a b k r : same_requests a b → (k, r) ∈ b → ∃ s l, (k, s) ∈ a ∧ r = set_allocated l s.
Proof.
  intros H. induction H as [|[i s] [j q] a b [Hk (l & Hq)] H IH]; [by intros ?%elem_of_nil|].
  cbn in Hk, Hq. subst j q. intros [[= -> ->]|Hin]%elem_of_cons; [exists s, l; split; [left|done]|].
  destruct (IH Hin) as (s' & l' & Hs & ->). exists s', l'. split; [by right|done].
Qed.

Lemma same_requests_append a b l id : dwf a → same_requests a b → same_requests a (append_allocated l b id).
Proof.
  intros Hw H. unfold append_allocated. destruct (dget b id) as [r|] eqn:E; [|done].
  apply dget_elem in E. destruct (same_requests_get _ _ _ _ H E) as (s & l' & Hs & ->).
  by apply (same_requests_set a b id s).
Qed.

Lemma same_requests_fold {B} (f : dict string OngoingRequest.t → B → dict string OngoingRequest.t) a b l :
  (∀ b y, same_requests a b → y ∈ l → same_requests a (f b y)) → same_requests a b → same_requests a (foldl f b l).
Proof.
  revert b. induction l as [|y l IH]; intros b Hf Hb; [done|]. cbn. apply IH; [|by apply Hf; [|left]].
  intros b' z Hb' Hz. apply Hf; [done|by right].
Qed.

Lemma reallocate_same now x : dwf (_ongoing_reqs x) →
  same_requests (_ongoing_reqs x) (_ongoing_reqs (_reallocate_resources now x)).
Proof.
  intros Hw. unfold _reallocate_resources. cbn [set_reqs _ongoing_reqs]. rewrite allocate_grants. cbn [fst snd].
  apply same_requests_fold.
  - intros b p Hb _. unfold share_one. destruct (filter _ _); [done|]. apply same_requests_fold; [|done].
    intros b' id Hb' _. by apply same_requests_append.
  - unfold granted. apply same_requests_fold; [|apply same_requests_refl]. intros b [it g] Hb Hin.
    apply same_requests_set; [done| |done]. apply elem_of_zip_l, live_elem in Hin as [Hin _]. by destruct it.
Qed.

(** A bundle's selector names no other subcluster than its requester's. *)
Definition pinned_to (p s : selector) : Prop :=
  p ≠ ∅ → ∀ c, s !! SUBCLUSTER_LABEL_KEY = Some c → p !! SUBCLUSTER_LABEL_KEY = Some c.

Record well_formed (x : t) : Prop := {
  wf_reqs : dwf (_ongoing_reqs x);
  wf_selectors : dwf (_subcluster_selectors x);
  wf_keys id : id ∈ (_subcluster_selectors x).*1 ↔ id ∈ (_ongoing_reqs x).*1;
  wf_cluster : dwf (_cluster_node_resources x);
  wf_parallel id r : (id, r) ∈ _ongoing_reqs x → length (requested_label_selectors r) = length (requested_resources r);
  wf_pinned id r s : (id, r) ∈ _ongoing_reqs x → s ∈ requested_label_selectors r → pinned_to (subcluster_selector_of x id) s;
  wf_sent l s : (l, Some s) ∈ sent x → length s = length l
}.

Lemma delete_all_get {A} (d : dict string A) l id : dwf d →
  dwf (foldl ddel d l) ∧ dget (foldl ddel d l) id = if decide (id ∈ l) then None else dget d id.
Proof.
  revert d. induction l as [|k l IH]; intros d Hw; cbn [foldl]; [split; [done|by rewrite decide_False by apply not_elem_of_nil]|].
  destruct (IH (ddel d k)) as [H1 H2]; [by apply ddel_wf|]. split; [done|]. rewrite H2. destruct (decide (id ∈ l)).
  - by rewrite decide_True by by right.
  - destruct (decide (id = k)) as [->|Hne].
    + rewrite decide_True by left. by apply dget_ddel_eq.
    + rewrite decide_False by (rewrite not_elem_of_cons; tauto). by apply dget_ddel_ne.
Qed.

Lemma key_get {A} (d : dict string A) id : id ∈ d.*1 ↔ ∃ v, dget d id = Some v.
Proof.
  pose proof (dget_None d id) as H. destruct (dget d id) as [v|].
  - split; [by exists v|]. intros _. destruct (decide (id ∈ d.*1)); [done|]. by apply H in n.
  - split; [|by intros [v ?]]. intros Hin. by apply H in Hin.
Qed.

Lemma purge_well_formed now x : well_formed x → well_formed (_purge_expired_requests now x).
Proof.
  intros [H1 H2 H3 H4 H5 H6 H7]. unfold _purge_expired_requests.
  set (live := filter _ (_ongoing_reqs x)). set (expired := filter _ (_ongoing_reqs x).*1).
  assert (∀ id, dget (foldl ddel (_subcluster_selectors x) expired) id =
    if decide (id ∈ live.*1) then dget (_subcluster_selectors x) id else None) as Hget.
  { intros id. rewrite (proj2 (delete_all_get _ expired id H2)). unfold expired.
    destruct (decide (id ∈ filter _ _)) as [[Hn _]%list_elem_of_filter|Hn]; [by rewrite decide_False|].
    destruct (decide (id ∈ live.*1)) as [|Hl]; [done|]. rewrite list_elem_of_filter in Hn.
    apply dget_None. rewrite H3. intros Hin. by apply Hn. }
  assert (∀ p, p ∈ live → p ∈ _ongoing_reqs x) as Hsub by by intros p [_ ?]%list_elem_of_filter.
  split; cbn.
  - by apply filter_dwf.
  - by apply (delete_all_get (_subcluster_selectors x) expired "").
  - intros id. rewrite key_get, Hget. destruct (decide (id ∈ live.*1)) as [Hl|Hl]; [|split; [by intros [v ?]|done]].
    split; [done|]. intros _. apply key_get, H3. apply list_elem_of_fmap in Hl as (p & -> & Hp). apply list_elem_of_fmap. eauto.
  - done.
  - intros id r Hin. by apply (H5 id), Hsub.
  - intros id r s Hin Hs. unfold subcluster_selector_of. cbn. rewrite Hget, decide_True by by apply (list_elem_of_fmap_2 fst) in Hin.
    by apply (H6 id r s); [apply Hsub|].
  - done.
Qed.

Lemma merged_lengths x : well_formed x → length (merged_selectors x) = length (merged_req x).
Proof.
  intros Hw. unfold merged_selectors, merged_req. pose proof (wf_parallel x Hw) as Hp. revert Hp.
  induction (_ongoing_reqs x) as [|[id r] l IH]; intros Hp; [done|]. cbn [map concat fst snd].
  rewrite !length_app, length_map, (Hp id r) by left. rewrite IH; [done|]. intros k s Hin. apply (Hp k). by right.
Qed.

Lemma merge_well_formed send now x : well_formed x → well_formed (_merge_and_send_requests send now x).2.
Proof.
  intros Hw. apply (purge_well_formed now) in Hw. unfold _merge_and_send_requests. cbn [snd].
  set (y := _purge_expired_requests now x) in *. pose proof (merged_lengths y Hw) as Hl.
  destruct Hw as [H1 H2 H3 H4 H5 H6 H7]. split; try done. cbn [add_sent sent].
  intros l s [Hin|Hin%list_elem_of_singleton]%elem_of_app; [by apply H7|].
  destruct (existsb _ _); [|done]. by injection Hin as -> ->.
Qed.

Lemma reallocate_well_formed now x : well_formed x → well_formed (_reallocate_resources now x).
Proof.
  intros [H1 H2 H3 H4 H5 H6 H7]. pose proof (reallocate_same now x H1) as Hs.
  pose proof (same_requests_keys _ _ Hs) as Hk. split; try done.
  - unfold dwf. by rewrite Hk.
  - intros id. rewrite Hk. apply H3.
  - intros id r Hin. destruct (same_requests_get _ _ _ _ Hs Hin) as (s & l & Hin' & ->). by apply (H5 id s).
  - intros id r s Hin Hs'. destruct (same_requests_get _ _ _ _ Hs Hin) as (q & l & Hin' & ->). by apply (H6 id q s).
Qed.

(** Any operation, with any clock, cluster and reply of the autoscaler. *)
Inductive step (x : t) : t → Prop :=
  | step_request send clock id resources expire_after_s remaining p labels sub :
      step x (request_resources send clock id resources expire_after_s remaining p labels sub x).2
  | step_cancel send clock id : step x (cancel_request send clock id x).2
  | step_tick send clock nodes : step x (_tick send clock nodes x).2.

(** The selectors that pass the checks. *)
Lemma checked resources labels sub l : check_selectors resources labels sub = Ok l →
  length l = length resources ∧ ∀ s, s ∈ l → pinned_to (default ∅ sub) s.
Proof.
  unfold check_selectors. intros H. inv_ok. case_bool_decide as Hp; cbn [andb] in H.
  - destruct (existsb _ r) eqn:E; [done|]. inv_ok. split.
    + destruct labels as [l'|]; [case_bool_decide; by inv_ok|]. inv_ok. by rewrite length_map.
    + intros s Hs _ c Hc. destruct (decide (default ∅ sub !! SUBCLUSTER_LABEL_KEY = Some c)) as [|Hd]; [done|].
      rewrite (proj2 (existsb_exists _ _)) in E; [done|]. exists s. split; [by apply list_elem_of_In|].
      rewrite Hc. apply negb_true_iff, bool_decide_eq_false. congruence.
  - inv_ok. split; [|by intros s _ Hne].
    destruct labels as [l'|]; [case_bool_decide; by inv_ok|]. inv_ok. by rewrite length_map.
Qed.

Lemma register_well_formed x id req sub : well_formed x →
  length (requested_label_selectors req) = length (requested_resources req) →
  (∀ s, s ∈ requested_label_selectors req → pinned_to (default ∅ sub) s) →
  well_formed (set_selectors (dset (_subcluster_selectors x) id sub) (set_reqs (dset (_ongoing_reqs x) id req) x)).
Proof.
  intros [H1 H2 H3 H4 H5 H6 H7] Hl Hp. split; cbn; try done.
  - by apply dset_wf.
  - by apply dset_wf.
  - intros j. rewrite !dset_keys_elem. by rewrite H3.
  - intros j r [[-> ->]|Hin]%dset_elem; [done|by apply (H5 j)].
  - intros j r s Hin Hs. unfold subcluster_selector_of. cbn. rewrite dget_dset. apply dget_wf_elem in Hin; [|by apply dset_wf].
    rewrite dget_dset in Hin. destruct (decide (j = id)); [injection Hin as <-; by apply Hp|].
    by apply (H6 j r); [apply dget_elem|].
Qed.

Lemma buckets_dwf nodes : dwf (buckets nodes).
Proof.
  unfold buckets. assert (∀ d : cluster, dwf d → dwf (foldl (λ d n, dset d (subcluster_of_node n)
    (default [] (dget d (subcluster_of_node n)) ++ [Resources n])) d (sort_by id_lt (filter (λ n, _is_node_eligible n = true) nodes)))) as Hb;
    [|apply Hb, NoDup_nil_2].
  induction (sort_by _ _) as [|n l IH]; intros d Hd; [done|]. cbn [foldl]. by apply IH, dset_wf.
Qed.

(** Without one request. *)
Definition cancelled id x : t := set_selectors (ddel (_subcluster_selectors x) id) (set_reqs (ddel (_ongoing_reqs x) id) x).

Lemma cancelled_well_formed id x : well_formed x → well_formed (cancelled id x).
Proof.
  intros [H1 H2 H3 H4 H5 H6 H7]. split; cbn; try done; try by apply ddel_wf.
  - intros j. rewrite !key_get. destruct (decide (id = j)) as [->|Hne].
    + rewrite !dget_ddel_eq by done. split; by intros [v ?].
    + rewrite !dget_ddel_ne by done. rewrite <-!key_get. apply H3.
  - intros j r Hin. apply (H5 j). apply dget_wf_elem; [done|]. apply dget_wf_elem in Hin; [|by apply ddel_wf].
    destruct (decide (id = j)) as [->|Hne]; [by rewrite dget_ddel_eq in Hin|by rewrite dget_ddel_ne in Hin].
  - intros j r s Hin Hs. apply dget_wf_elem in Hin; [|by apply ddel_wf].
    destruct (decide (id = j)) as [->|Hne]; [by rewrite dget_ddel_eq in Hin|]. rewrite dget_ddel_ne in Hin by done.
    unfold subcluster_selector_of. cbn. rewrite dget_ddel_ne by done. by apply (H6 j r); [apply dget_elem|].
Qed.

Lemma step_well_formed x y : well_formed x → step x y → well_formed y.
Proof.
  intros Hw [send clock id resources expire remaining p labels sub|send clock id|send clock nodes].
  - unfold request_resources. destruct (check_selectors _ _ _) as [l|] eqn:Hc; [|done]. apply checked in Hc as [Hl Hp].
    set (u := match dget _ id with Some _ => _ | None => _ end).
    assert (∀ c req, u = Ok (c, req) → requested_label_selectors req = l ∧ requested_resources req = resources) as Hu.
    { intros c req. unfold u. destruct (dget _ id); [|by intros [= _ <-]].
      destruct (check_unchanged _ _ _ _ _ _); [|done]. cbn. by intros [= _ <-]. }
    destruct u as [[c req]|]; [|done]. destruct (Hu c req eq_refl) as [E1 E2].
    assert (well_formed (set_selectors (dset (_subcluster_selectors x) id sub) (set_reqs (dset (_ongoing_reqs x) id req) x))) as Hr.
    { apply register_well_formed; [done|by rewrite E1, E2|by rewrite E1]. }
    destruct c; [|done]. apply (merge_well_formed send (clock 1%nat)) in Hr.
    destruct (_merge_and_send_requests _ _ _) as [[]]; [|done]. by apply reallocate_well_formed.
  - unfold cancel_request. destruct (negb _) eqn:E; [done|].
    pose proof (cancelled_well_formed id x Hw) as Hr. unfold cancelled in Hr.
    apply (merge_well_formed send (clock O)) in Hr.
    destruct (_merge_and_send_requests _ _ _) as [[]]; [|done]. by apply reallocate_well_formed.
  - unfold _tick. apply (merge_well_formed send (clock O)) in Hw.
    destruct (_merge_and_send_requests _ _ _) as [[] z]; [|done]. destruct nodes as [nodes|]; [|done].
    apply reallocate_well_formed. unfold _update_cluster_node_resources. destruct (cluster_eqb _ _); [done|].
    destruct Hw as [H1 H2 H3 H4 H5 H6 H7]. split; try done. apply buckets_dwf.
Qed.

Lemma init_well_formed nodes : well_formed (init nodes).
Proof.
  unfold init, _update_cluster_node_resources. destruct (cluster_eqb _ _); (split; cbn; try done; try apply NoDup_nil_2;
    try (by intros ? ? ?%elem_of_nil); try (by intros ? ? ? ?%elem_of_nil)).
  apply buckets_dwf.
Qed.

Lemma reachable_well_formed nodes x : rtc step (init nodes) x → well_formed x.
Proof.
  assert (∀ y, rtc step y x → well_formed y → well_formed x) as H; [|intros Hr; apply (H _ Hr), init_well_formed].
  intros y H. induction H as [|y z x Hs _ IH]; [done|]. intros Hy. apply IH. by eapply step_well_formed.
Qed.

(** What is left after purging: the requests that expire later, with their
    selectors. *)
Definition unexpired (now : float) (reqs : dict string OngoingRequest.t) : dict string OngoingRequest.t :=
  filter (λ p : string * OngoingRequest.t, f_ltb now (expiration_time p.2)) reqs.

Definition left_of (now : float) (reqs : dict string OngoingRequest.t) (x y : t) : Prop :=
  same_requests (unexpired now reqs) (_ongoing_reqs y) ∧
  ∀ id, id ∈ (_ongoing_reqs y).*1 → dget (_subcluster_selectors y) id = dget (_subcluster_selectors x) id.

Lemma purge_left now x : dwf (_subcluster_selectors x) → left_of now (_ongoing_reqs x) x (_purge_expired_requests now x).
Proof.
  intros Hw. split; [apply same_requests_refl|]. intros id Hid. unfold _purge_expired_requests in *. cbn in *.
  rewrite (proj2 (delete_all_get _ _ id Hw)), decide_False; [done|]. rewrite list_elem_of_filter. tauto.
Qed.

Lemma reallocate_left now later reqs x y : dwf (_ongoing_reqs y) → left_of now reqs x y → left_of now reqs x (_reallocate_resources later y).
Proof.
  intros Hw [H1 H2]. pose proof (reallocate_same later y Hw) as Hs. split.
  - clear -H1 Hs. revert H1. generalize (unexpired now reqs) as a. revert Hs.
    generalize (_ongoing_reqs (_reallocate_resources later y)) as c. generalize (_ongoing_reqs y) as b. intros b c Hs a H1. revert a H1.
    induction Hs as [|p q b c [Hk [l Hq]] _ IH]; intros a H1; [done|]. inversion H1 as [|r ? a' ? [Hk' [l' Hq']] Ha]; subst.
    constructor; [|by apply IH]. split; [congruence|]. exists l. by rewrite Hq, Hq'.
  - intros id. rewrite (same_requests_keys _ _ Hs). apply H2.
Qed.

Lemma tick_left send clock nodes x : well_formed x → left_of (clock O) (_ongoing_reqs x) x (_tick send clock nodes x).2.
Proof.
  intros Hw. pose proof (purge_left (clock O) x (wf_selectors x Hw)) as Hp. pose proof (merge_well_formed send (clock O) x Hw) as Hm.
  unfold _tick, _merge_and_send_requests in *. cbn [snd] in Hm. destruct (send _ _); [|exact Hp]. destruct nodes as [nodes|]; [|exact Hp].
  apply reallocate_left; unfold _update_cluster_node_resources; destruct (cluster_eqb _ _); try exact Hp; apply Hm.
Qed.

Lemma cancel_left send clock id x : well_formed x → id ∈ (_ongoing_reqs x).*1 →
  left_of (clock O) (ddel (_ongoing_reqs x) id) x (cancel_request send clock id x).2.
Proof.
  intros Hw Hid. assert (well_formed (cancelled id x)) as Hc by by apply cancelled_well_formed.
  pose proof (purge_left (clock O) (cancelled id x) (wf_selectors _ Hc)) as Hp. pose proof (merge_well_formed send (clock O) _ Hc) as Hm.
  assert (∀ y, left_of (clock O) (_ongoing_reqs (cancelled id x)) (cancelled id x) y → left_of (clock O) (ddel (_ongoing_reqs x) id) x y) as Hl.
  { intros y [H1 H2]. split; [done|]. intros j Hj. rewrite (H2 j Hj). cbn. apply dget_ddel_ne. intros <-.
    rewrite (same_requests_keys _ _ H1) in Hj. unfold unexpired in Hj. apply list_elem_of_fmap in Hj as ([k r] & -> & [_ Hin]%list_elem_of_filter).
    apply (list_elem_of_fmap_2 fst) in Hin. pose proof (dget_ddel_eq (_ongoing_reqs x) k (wf_reqs x Hw)) as Hn. by apply dget_None in Hn. }
  unfold cancel_request. rewrite (proj2 (dmem_true _ _) Hid). cbn [negb]. fold (cancelled id x).
  unfold _merge_and_send_requests in *. cbn [snd] in Hm. destruct (send _ _); apply Hl; [|exact Hp].
  apply reallocate_left; [apply Hm|exact Hp].
Qed.

(** C8: In every reachable state, after any requests, cancellations and ticks,
    whatever the autoscaler replies and wherever they raise: a requester has a
    selector exactly when it has a request; a request has a label selector for
    each bundle, and when its requester's subcluster selector is not empty none
    of them names another subcluster (without one any may be named); every
    request sent to the autoscaler has as many selectors as bundles when it has
    any.  From there a tick removes exactly the requests that have expired, and
    a cancellation those and the one cancelled; the others stay as they are,
    but for what is allocated to them, and so do their selectors. *)
Theorem coordinator_reachable nodes x : rtc step (init nodes) x →
  dwf (_ongoing_reqs x) ∧ dwf (_cluster_node_resources x) ∧
  (∀ id, id ∈ (_subcluster_selectors x).*1 ↔ id ∈ (_ongoing_reqs x).*1) ∧
  (∀ id r, (id, r) ∈ _ongoing_reqs x → length (requested_label_selectors r) = length (requested_resources r) ∧
     ∀ s c, s ∈ requested_label_selectors r → subcluster_selector_of x id ≠ ∅ → s !! SUBCLUSTER_LABEL_KEY = Some c →
       _subcluster_of x id = Some c) ∧
  (∀ l s, (l, Some s) ∈ sent x → length s = length l) ∧
  (∀ send clock nodes', left_of (clock O) (_ongoing_reqs x) x (_tick send clock nodes' x).2) ∧
  (∀ send clock id, if dmem (_ongoing_reqs x) id
     then left_of (clock O) (ddel (_ongoing_reqs x) id) x (cancel_request send clock id x).2
     else cancel_request send clock id x = (Ok tt, x)).
Proof.
  intros Hw%reachable_well_formed. pose proof Hw as [H1 H2 H3 H4 H5 H6 H7].
  split; [done|]. split; [done|]. split; [done|]. split; [|split; [done|split]].
  - intros id r Hin. split; [by apply (H5 id)|].
    intros s c Hs Hne Hc. unfold _subcluster_of. by rewrite (H6 id r s Hin Hs Hne c Hc).
  - intros send clock nodes'. by apply tick_left.
  - intros send clock id. destruct (dmem _ id) eqn:E; [apply cancel_left; [done|by apply dmem_true]|]. unfold cancel_request. by rewrite E.
Qed.

(** ** Requests *)
Lemma merge_sent send now x : ∃ s, sent (_merge_and_send_requests send now x).2 =
  sent x ++ [(merged_req (_purge_expired_requests now x), s)].
Proof. by eexists. Qed.

Lemma concat_sublist {A} (l : list (list A)) b : b ∈ l → sublist b (concat l).
Proof.
  induction l as [|a l IH]; [by intros ?%elem_of_nil|]. intros [->|Hb]%elem_of_cons; cbn; [by apply sublist_inserts_r|].
  by apply sublist_inserts_l, IH.
Qed.

Lemma merged_has id r x : (id, r) ∈ _ongoing_reqs x → sublist (requested_resources r) (merged_req x).
Proof.
  intros Hr. apply concat_sublist. change (requested_resources r) with (requested_resources (id, r).2).
  by apply (list_elem_of_fmap_2 (λ p : item, requested_resources p.2)).
Qed.

Lemma f_ltb_irrefl a : f_ltb a a = false.
Proof.
  destruct (f_ltb a a) eqn:E; [|done]. assert (f_is_nan a = false) as Hn by by destruct a.
  apply f_ltb_rank in E; [|done..]. unfold lt3 in E. lia.
Qed.

Lemma check_raises resources labels sub e : check_selectors resources labels sub = Raise e → e = ValueError.
Proof.
  unfold check_selectors. destruct labels as [l|]; [destruct (bool_decide (length l = length resources))|]; cbn;
    try destruct (_ && _); congruence.
Qed.

(** C18: A request does one of three things.  It raises and changes nothing: a
    selector that does not fit, or another flag, priority or subcluster than
    the ongoing request's.  Or it renews the ongoing request of the same
    bundles and selectors: nothing is sent, no allocation changes, and the
    request keeps its bundles and its place in the order.  Or it sends the autoscaler a request
    that, unless it expired at once, has its bundles among them. *)
Theorem request_effects send clock id resources expire_after_s remaining p labels sub x :
  let res := request_resources send clock id resources expire_after_s remaining p labels sub x in
  (res = (Raise ValueError, x)) ∨
  (∃ old new, dget (_ongoing_reqs x) id = Some old ∧ res.1 = Ok tt ∧ sent res.2 = sent x ∧
     dget (_ongoing_reqs res.2) id = Some new ∧ allocated_resources new = allocated_resources old ∧
     bundles_eqb resources (requested_resources old) = true ∧ requested_label_selectors new = requested_label_selectors old ∧
     lt old new = false ∧ lt new old = false ∧ expiration_time new = f_add (clock O) expire_after_s ∧
     ∀ j, j ≠ id → dget (_ongoing_reqs res.2) j = dget (_ongoing_reqs x) j) ∨
  (∃ l s, sent res.2 = sent x ++ [(l, s)] ∧
     (f_ltb (clock 1%nat) (f_add (clock O) expire_after_s) = true → sublist resources l)).
Proof.
  intros res. unfold res, request_resources. destruct (check_selectors resources labels sub) as [l|e] eqn:Hc.
  2:{ left. by rewrite (check_raises _ _ _ _ Hc). }
  set (u := match dget _ id with Some _ => _ | None => _ end).
  assert (u = Raise ValueError ∨ ∃ c req, u = Ok (c, req) ∧ requested_resources req = resources ∧
    expiration_time req = f_add (clock O) expire_after_s ∧
    (c = false → ∃ old, dget (_ongoing_reqs x) id = Some old ∧ bundles_eqb resources (requested_resources old) = true ∧
       l = requested_label_selectors old ∧ req = renew resources l (f_add (clock O) expire_after_s) old)) as Hu.
  { unfold u. destruct (dget _ id) as [old|]; [|right; by eexists _, _].
    destruct (check_unchanged x id remaining p sub old) as [[]|e] eqn:E; [|left].
    - right; eexists _, _; split_and!; try done. intros [H1 H2]%orb_false_iff. exists old. split_and!; try done.
      + by apply negb_false_iff in H1.
      + by apply negb_false_iff, bool_decide_eq_true in H2.
    -
    unfold check_unchanged in E. destruct (negb _); [by injection E as <-|]. destruct (negb _); [by injection E as <-|].
    destruct (dget _ id) as [s|]; [|done]. case_bool_decide; [done|by injection E as <-]. }
  destruct Hu as [->|(c & req & -> & Hres & Hexp & Hren)]; [by left|]. right. set (y := set_selectors _ _).
  assert (dget (_ongoing_reqs y) id = Some req) as Hy by (cbn; apply dget_dset_eq). destruct c.
  - right. destruct (merge_sent send (clock 1%nat) y) as [s Hs]. exists (merged_req (_purge_expired_requests (clock 1%nat) y)), s.
    split.
    + change (sent x) with (sent y). rewrite <-Hs. by destruct (_merge_and_send_requests send (clock 1%nat) y) as [[[]|e] z].
    + intros Hlive. rewrite <-Hres. apply (merged_has id). cbn. apply list_elem_of_filter.
      split; [cbn; by rewrite Hexp, Hlive|]. by apply dget_elem in Hy.
  - destruct (Hren eq_refl) as (old & Hold & Heq & Hl & ->). left. exists old, (renew resources l (f_add (clock O) expire_after_s) old).
    cbn. split_and!; try done; unfold lt; cbn; rewrite ?Z.eqb_refl; cbn; try apply f_ltb_irrefl.
    intros j Hj. by apply dget_dset_ne.
Qed.

(** ** At concrete inputs

    A cluster of one node of four CPUs, which training and a data pipeline ask
    for. *)
Module CoordRun.

Definition cpus (n : Z) : ResourceDict := {["CPU" := f_of_int n]}.
Definition node (id : string) (n : Z) : Node :=
  {| Alive := true; Resources := cpus n; Labels := None; NodeID := Some id |}.
Definition accept (_ : list ResourceDict) (_ : option (list selector)) : result unit := Ok tt.

(** All readings of the clock in an operation. *)
Definition at_time (n : Z) : nat → float := λ _, f_of_int n.

Definition start : t := init [node "n1" 4].
(** Training asks for three workers with high priority, for ten seconds. *)
Definition training : t :=
  (request_resources accept (at_time 0) "train" [cpus 1; cpus 1; cpus 1] (f_of_int 10) false HIGH None None start).2.
(** A pipeline asked earlier or later, for the rest as well. *)
Definition both : t :=
  (request_resources accept (at_time 1) "data" [cpus 2; cpus 1] (f_of_int 100) true MEDIUM None None training).2.

(** Training has its three CPUs; the pipeline the one that fits. *)
Example both_allocated :
  (get_allocated_resources "train" both, get_allocated_resources "data" both) = ([cpus 1; cpus 1; cpus 1], [cpus 1]).
Proof. vm_compute. reflexivity. Qed.

(** A request that expires between the purge and the reallocation of a tick
    keeps its allocation, and the others are allocated the same resources. *)
Definition late_tick : t :=
  (_tick accept (λ k, f_of_int (if (k =? 0)%nat then 9 else 11)) (Ok [node "n1" 4]) both).2.

Theorem expired_keeps_allocation :
  get_allocated_resources "train" late_tick = [cpus 1; cpus 1; cpus 1] ∧
  get_allocated_resources "data" late_tick = [cpus 2; cpus 1; cpus 1] ∧
  _cluster_node_resources late_tick = [(None, [cpus 4])].
Proof. split; [|split]; vm_compute; reflexivity. Qed.

(** Without a subcluster selector a bundle may be pinned to any subcluster: the
    autoscaler is asked for a node there, and the bundle is allocated on a node
    of the default one. *)
Definition pinned_only : selector := {[SUBCLUSTER_LABEL_KEY := "b"]}.
Lemma pin_accepted :
  let r := request_resources accept (at_time 0) "data" [cpus 1] (f_of_int 100) false MEDIUM (Some [pinned_only]) None start in
  r.1 = Ok tt ∧ sent r.2 = [([cpus 1], Some [pinned_only])] ∧
  dget (_cluster_node_resources r.2) DEFAULT_SUBCLUSTER = Some [cpus 4] ∧ dget (_cluster_node_resources r.2) (Some "b") = None ∧
  get_allocated_resources "data" r.2 = [cpus 1].
Proof. intros r. split; [vm_compute; reflexivity|]. split_and!; vm_compute; reflexivity. Qed.

Lemma both_reachable : rtc step start both.
Proof.
  eapply rtc_l; [apply (step_request start accept (at_time 0))|].
  eapply rtc_l; [|apply rtc_refl]. apply (step_request _ accept (at_time 1)).
Qed.

Lemma coordinator_reachable_witness : rtc step start both ∧
  ∀ id, id ∈ (_subcluster_selectors both).*1 ↔ id ∈ (_ongoing_reqs both).*1.
Proof.
  split; [apply both_reachable|]. by destruct (coordinator_reachable [node "n1" 4] both both_reachable) as (_ & _ & H & _).
Defined.

Lemma both_dwf : dwf (_ongoing_reqs both) ∧ dwf (_cluster_node_resources both).
Proof. by destruct (coordinator_reachable [node "n1" 4] both both_reachable) as (H1 & H2 & _). Qed.

Lemma reallocate_spec_witness : ∃ (granted : list (list ResourceDict)) on_nodes rest,
  length granted = 2%nat ∧ packed [cpus 4] on_nodes rest ∧
  concat on_nodes ≡ₚ granted_in both None (live_items (f_of_int 5) both) granted.
Proof.
  destruct both_dwf as [H1 H2].
  destruct (reallocate_spec (f_of_int 5) both H1 H2) as (granted & left & Hsub & _ & _ & Hp).
  destruct (Hp None) as (on_nodes & Hpack & Hperm). exists granted, on_nodes, (left None).
  split; [|split; [exact Hpack|exact Hperm]]. apply Forall2_length in Hsub. rewrite <-Hsub. vm_compute. reflexivity.
Defined.

Lemma urgent_first_witness :
  get_allocated_resources "train" (_reallocate_resources (f_of_int 5) both) =
  get_allocated_resources "train" (_reallocate_resources (f_of_int 5) training).
Proof.
  destruct both_dwf as [H1 H2].
  destruct (live_items (f_of_int 5) training) as [|it [|it2 l]] eqn:Ht; [by vm_compute in Ht| |by vm_compute in Ht].
  destruct (live_items (f_of_int 5) both) as [|it' after] eqn:Hb; [by vm_compute in Hb|].
  assert (it' = it ∧ it.1 = "train" ∧ request_remaining it.2 = false) as (-> & Hid & Hr).
  { clear -Ht Hb. vm_compute in Ht, Hb. injection Ht as <-. injection Hb as <- _. done. }
  rewrite <-Hid. apply (urgent_first (f_of_int 5) both training [] it after []).
  - exact H1.
  - apply (bool_decide_unpack _). vm_compute. reflexivity.
  - exact H2.
  - vm_compute. reflexivity.
  - exact Hb.
  - exact Ht.
  - intros id. cbn. intros ->%list_elem_of_singleton. rewrite Hid. vm_compute. reflexivity.
  - exact Hr.
  - repeat constructor.
Defined.
End CoordRun.
