(* ===== verification/CoordinatorClient.v ===== *)
(** * The autoscaling coordinator's client

    [DefaultAutoscalingCoordinator] of
    [ray/data/_internal/cluster_autoscaler/default_autoscaling_coordinator.py],
    the proxy that never blocks: a system of one proxy and the actor, whose
    messages the actor handles in the order they were sent, and what a read of
    the allocation returns over any run of it. *)
From S2P Require Import Prelude PyDict PyFloat Coordinator CoordinatorProps.

(** ** The proxy *)
Module DefaultAutoscalingCoordinator.

(** A remote call of the actor. *)
Inductive message : Type :=
  | RequestResources (resources : list ResourceDict) (expire_after_s : float) (request_remaining : bool)
      (priority : ResourceRequestPriority) (label_selectors : option (list selector))
      (subcluster_selector : option selector)
  | CancelRequest
  | GetAllocatedResources.

#[export] Instance message_eq_cancel m : Decision (m = CancelRequest).
Proof. destruct m; (by left) || (by right). Defined.
#[export] Instance message_eq_get m : Decision (m = GetAllocatedResources).
Proof. destruct m; (by left) || (by right). Defined.

(** A reference is the number of the message it is the reply of. *)
Record t : Type := {
  _requester_id : string;
  _subcluster_selector : option selector;
  _cached_allocated_resources : list ResourceDict;
  _pending_allocated_resources : option nat
}.

Definition create (id : string) (s : option selector) : t := {|
  _requester_id := id; _subcluster_selector := s;
  _cached_allocated_resources := []; _pending_allocated_resources := None |}.

Definition set_reading (l : list ResourceDict) (r : option nat) (p : t) : t := {|
  _requester_id := _requester_id p; _subcluster_selector := _subcluster_selector p;
  _cached_allocated_resources := l; _pending_allocated_resources := r |}.

Definition request_resources (resources : list ResourceDict) (expire_after_s : float) (request_remaining : bool)
    (priority : ResourceRequestPriority) (label_selectors : option (list selector)) (p : t) : message :=
  RequestResources resources expire_after_s request_remaining priority label_selectors (_subcluster_selector p).

Definition cancel_request (p : t) : t * message := (set_reading [] None p, CancelRequest).

(** [reply r] is [None] when the reply [r] is not ready, and [Some None] when
    getting it raises a [RayError]; [fresh] is the reference of a new call. *)
Definition get_allocated_resources (fresh : nat) (reply : nat → option (option (list ResourceDict))) (p : t) :
    list ResourceDict * t * list message :=
  let p :=
    match _pending_allocated_resources p with
    | None => p
    | Some ref =>
        match reply ref with
        | None => p
        | Some None => set_reading (_cached_allocated_resources p) None p
        | Some (Some l) => set_reading l None p
        end
    end in
  match _pending_allocated_resources p with
  | None => (_cached_allocated_resources p, set_reading (_cached_allocated_resources p) (Some fresh) p, [GetAllocatedResources])
  | Some _ => (_cached_allocated_resources p, p, [])
  end.
End DefaultAutoscalingCoordinator.
Import DefaultAutoscalingCoordinator.

(** ** The proxy and the actor *)

(** What the actor does with a message of the requester [id]; its errors do not reach the proxy. *)
Definition handle send (clock : nat → float) (id : string) (m : message) (x : AutoscalingCoordinator.t) : AutoscalingCoordinator.t :=
  match m with
  | RequestResources resources expire_after_s remaining p labels sub =>
      (AutoscalingCoordinator.request_resources send clock id resources expire_after_s remaining p labels sub x).2
  | CancelRequest => (AutoscalingCoordinator.cancel_request send clock id x).2
  | GetAllocatedResources => x
  end.

(** [outcomes] has for each message handled so far the state the actor handled
    it in, or [None] when the call failed. *)
Record system : Type := {
  client : t;
  messages : list message;
  outcomes : list (option AutoscalingCoordinator.t);
  actor : AutoscalingCoordinator.t
}.

Definition reply_of (s : system) (ref : nat) : option (option (list ResourceDict)) :=
  option_map (option_map (AutoscalingCoordinator.get_allocated_resources (_requester_id (client s)))) (outcomes s !! ref).

(** A read in [s], when some of the replies there are have arrived. *)
Definition read (s : system) (arrived : nat → bool) : list ResourceDict * t * list message :=
  get_allocated_resources (length (messages s)) (λ r, if arrived r then reply_of s r else None) (client s).

Definition start (id : string) (sel : option selector) (x : AutoscalingCoordinator.t) : system :=
  {| client := create id sel; messages := []; outcomes := []; actor := x |}.

Inductive sys_step : system → system → Prop :=
  | sys_request s resources expire_after_s remaining p labels :
      sys_step s {| client := client s;
        messages := messages s ++ [request_resources resources expire_after_s remaining p labels (client s)];
        outcomes := outcomes s; actor := actor s |}
  | sys_cancel s :
      sys_step s {| client := (cancel_request (client s)).1; messages := messages s ++ [(cancel_request (client s)).2];
        outcomes := outcomes s; actor := actor s |}
  | sys_read s arrived :
      sys_step s {| client := (read s arrived).1.2; messages := messages s ++ (read s arrived).2;
        outcomes := outcomes s; actor := actor s |}
  | sys_handle s m send clock :
      messages s !! length (outcomes s) = Some m →
      sys_step s {| client := client s; messages := messages s; outcomes := outcomes s ++ [Some (actor s)];
        actor := handle send clock (_requester_id (client s)) m (actor s) |}
  | sys_fail s :
      (length (outcomes s) < length (messages s))%nat →
      sys_step s {| client := client s; messages := messages s; outcomes := outcomes s ++ [None]; actor := actor s |}
  | sys_other s x : step (actor s) x →
      sys_step s {| client := client s; messages := messages s; outcomes := outcomes s; actor := x |}.

(** ** What a read returns *)

(** No cancellation was sent after the message [r]. *)
Definition current (s : system) (r : nat) : Prop := ∀ j, (r < j)%nat → messages s !! j ≠ Some CancelRequest.

(** [l] is what the actor, in a state it reached from [x], had allocated to the
    requester when it handled the message [r], a read sent after every
    cancellation. *)
Definition read_at (x : AutoscalingCoordinator.t) (s : system) (r : nat) (l : list ResourceDict) : Prop :=
  messages s !! r = Some GetAllocatedResources ∧ current s r ∧
  ∃ a, outcomes s !! r = Some (Some a) ∧ rtc step x a ∧
    l = AutoscalingCoordinator.get_allocated_resources (_requester_id (client s)) a.

Record consistent (x : AutoscalingCoordinator.t) (s : system) : Prop := {
  c_actor : rtc step x (actor s);
  c_handled r a : outcomes s !! r = Some (Some a) → rtc step x a;
  c_length : (length (outcomes s) ≤ length (messages s))%nat;
  c_pending r : _pending_allocated_resources (client s) = Some r → messages s !! r = Some GetAllocatedResources ∧ current s r;
  c_unanswered r : messages s !! r = Some GetAllocatedResources → current s r → (length (outcomes s) ≤ r)%nat →
    _pending_allocated_resources (client s) = Some r;
  c_cached : _cached_allocated_resources (client s) = [] ∨ ∃ r, read_at x s r (_cached_allocated_resources (client s))
}.

Lemma handle_step send clock id m a : rtc step a (handle send clock id m a).
Proof.
  destruct m; cbn; [|eapply rtc_once, step_cancel|apply rtc_refl]. apply rtc_once, step_request.
Qed.

Lemma snoc_old {A} (l : list A) r y z : l !! r = Some z → (l ++ [y]) !! r = Some z.
Proof. apply lookup_app_l_Some. Qed.

Lemma snoc_inv {A} (l : list A) r y z : (l ++ [y]) !! r = Some z → l !! r = Some z ∨ r = length l ∧ z = y.
Proof. rewrite lookup_snoc_Some. intros [[_ H]|[-> ->]]; [by left|by right]. Qed.

(** What the system keeps when the actor handles a message, or fails to. *)
Lemma outcome_consistent x s o a :
  consistent x s → (length (outcomes s) < length (messages s))%nat → (o = None ∨ o = Some (actor s)) → rtc step (actor s) a →
  consistent x {| client := client s; messages := messages s; outcomes := outcomes s ++ [o]; actor := a |}.
Proof.
  intros [H1 H2 H3 H4 H5 H6] Hlt Ho Ha. split; cbn.
  - by etrans.
  - intros r b [Hr|[_ <-]]%snoc_inv; [by eapply H2|]. destruct Ho as [Ho|Ho]; congruence.
  - rewrite length_app. cbn. lia.
  - exact H4.
  - intros r Hr Hc Hl. rewrite length_app in Hl. apply H5; [done..|lia].
  - destruct H6 as [H6|(r & Hr & Hc & b & Hb & Hs)]; [by left|right]. exists r. split_and!; [done..|]. exists b. split; [by apply snoc_old|done].
Qed.

(** What it keeps when the proxy sends a message other than a cancellation or a read. *)
Lemma sent_consistent x s m : consistent x s → m ≠ CancelRequest → m ≠ GetAllocatedResources →
  consistent x {| client := client s; messages := messages s ++ [m]; outcomes := outcomes s; actor := actor s |}.
Proof.
  intros [H1 H2 H3 H4 H5 H6] Hc Hg.
  assert (∀ r, current s r → current {| client := client s; messages := messages s ++ [m]; outcomes := outcomes s; actor := actor s |} r) as Hcur.
  { intros r Hr j Hj [Hm|[_ Hm]]%snoc_inv; [by apply (Hr j)|congruence]. }
  split; cbn; try done.
  - rewrite length_app. lia.
  - intros r Hr. destruct (H4 r Hr). split; [by apply snoc_old|by apply Hcur].
  - intros r [Hr|[_ Hm]]%snoc_inv Hcu Hl; [|congruence]. apply H5; [done| |done].
    intros j Hj Hm. apply (Hcu j Hj). by apply snoc_old.
  - destruct H6 as [H6|(r & Hr & Hcu & Hb)]; [by left|right]. exists r. split_and!; [by apply snoc_old|by apply Hcur|done].
Qed.

Lemma read_cases s arrived :
  read s arrived = (_cached_allocated_resources (client s), client s, []) ∨
  ∃ l, read s arrived = (l, set_reading l (Some (length (messages s))) (client s), [GetAllocatedResources]) ∧
    (l = _cached_allocated_resources (client s) ∨ ∃ r, _pending_allocated_resources (client s) = Some r ∧ reply_of s r = Some (Some l)) ∧
    ∀ r, _pending_allocated_resources (client s) = Some r → (r < length (outcomes s))%nat.
Proof.
  unfold read, get_allocated_resources. destruct (_pending_allocated_resources (client s)) as [r|] eqn:Hp; cbn -[reply_of].
  - destruct (arrived r); [|left; by rewrite Hp]. destruct (reply_of s r) as [o|] eqn:Ho; [right|left; by rewrite Hp].
    assert (r < length (outcomes s))%nat as Hlt.
    { unfold reply_of in Ho. destruct (outcomes s !! r) eqn:E; [by eapply lookup_lt_Some|done]. }
    exists (default (_cached_allocated_resources (client s)) o). split; [by destruct o|]. split; [|by intros ? [= <-]].
    destruct o; [right|by left]. by exists r.
  - rewrite Hp. right. exists (_cached_allocated_resources (client s)). split; [by destruct (client s)|]. split; [by left|done].
Qed.

(** A read returns nothing, or what the actor had allocated. *)
Lemma read_reads x s arrived : consistent x s → (read s arrived).1.1 = [] ∨ ∃ r, read_at x s r (read s arrived).1.1.
Proof.
  intros [H1 H2 H3 H4 H5 H6]. destruct (read_cases s arrived) as [->|(l & -> & [->|(r & Hr & Hl)] & _)]; cbn; try done.
  right. exists r. destruct (H4 r Hr). split_and!; try done. unfold reply_of in Hl.
  destruct (outcomes s !! r) as [[a|]|] eqn:Ho; cbn in Hl; try done. injection Hl as <-. exists a. split_and!; [done|by eapply H2|done].
Qed.

Lemma read_consistent x s arrived : consistent x s →
  consistent x {| client := (read s arrived).1.2; messages := messages s ++ (read s arrived).2; outcomes := outcomes s; actor := actor s |}.
Proof.
  intros Hc. pose proof (read_reads x s arrived Hc) as Hread. destruct Hc as [H1 H2 H3 H4 H5 H6].
  destruct (read_cases s arrived) as [E|(l & E & _ & Hans)]; rewrite E in Hread |- *; cbn in *.
  { rewrite app_nil_r. by split. }
  assert (∀ r j, (messages s ++ [GetAllocatedResources]) !! j = Some CancelRequest → current s r → (r < j)%nat → False) as Hcur.
  { intros r j [Hj|[_ Hj]]%snoc_inv Hr Hlt; [by apply (Hr j)|done]. }
  split; cbn; try done.
  - rewrite length_app. lia.
  - intros r [= <-]. split; [by apply list_lookup_middle|]. intros j Hj Hm%lookup_lt_Some. cbn in Hm. rewrite length_app in Hm. cbn in Hm. lia.
  - intros r [Hr|[-> _]]%snoc_inv Hcu Hl; [|done]. exfalso.
    assert (_pending_allocated_resources (client s) = Some r) as Hp; [|specialize (Hans r Hp); lia].
    apply H5; [done| |done]. intros j Hj Hm. apply (Hcu j Hj). by apply snoc_old.
  - destruct Hread as [Hr|(r & Hr & Hcu & Hb)]; [by left|right]. exists r. split_and!; [by apply snoc_old| |done].
    intros j Hj Hm. by eapply (Hcur r j).
Qed.

Lemma cancel_consistent x s : consistent x s →
  consistent x {| client := (cancel_request (client s)).1; messages := messages s ++ [(cancel_request (client s)).2];
    outcomes := outcomes s; actor := actor s |}.
Proof.
  intros [H1 H2 H3 H4 H5 H6]. split; cbn; try done.
  - rewrite length_app. lia.
  - intros r [Hr|[_ Hm]]%snoc_inv Hcu Hl; [|done]. exfalso. apply (Hcu (length (messages s))); [by eapply lookup_lt_Some|].
    by apply list_lookup_middle.
  - by left.
Qed.

Lemma sys_step_consistent x s s' : consistent x s → sys_step s s' → consistent x s'.
Proof.
  intros Hc Hs. destruct Hs as [s ? ? ? ? ?|s|s arrived|s m send clock Hm|s Hlt|s y Hy].
  - by apply sent_consistent.
  - by apply cancel_consistent.
  - by apply read_consistent.
  - apply outcome_consistent; [done|by eapply lookup_lt_Some|by right|apply handle_step].
  - apply outcome_consistent; [done..|by left|apply rtc_refl].
  - destruct Hc as [H1 H2 H3 H4 H5 H6]. split; cbn; try done. etrans; [done|by apply rtc_once].
Qed.

Lemma start_consistent id sel x : consistent x (start id sel x).
Proof. split; cbn; try done; by left. Qed.

Lemma sys_consistent id sel x s : rtc sys_step (start id sel x) s → consistent x s.
Proof.
  assert (∀ s0, consistent x s0 → rtc sys_step s0 s → consistent x s) as H; [|apply H, start_consistent].
  intros s0 H0 H. induction H as [|s0 s1 s2 Hs _ IH]; [done|]. apply IH. by eapply sys_step_consistent.
Qed.

(** C16: Whatever the requester sends, whatever other requesters do and whichever
    calls fail, a read never blocks and never raises: it returns nothing, or
    what the actor, in a state it reached, had allocated to the requester when
    it handled a read sent after every cancellation.  At most one read since the
    last cancellation is unanswered, and once the reply of the pending read has
    arrived, it is what the next read returns. *)
Theorem client_reads id sel x s arrived :
  rtc sys_step (start id sel x) s →
  ((read s arrived).1.1 = [] ∨ ∃ r, read_at x s r (read s arrived).1.1) ∧
  (∀ r r', messages s !! r = Some GetAllocatedResources → messages s !! r' = Some GetAllocatedResources →
     current s r → current s r' → (length (outcomes s) ≤ r)%nat → (length (outcomes s) ≤ r')%nat → r = r') ∧
  (∀ r a, _pending_allocated_resources (client s) = Some r → outcomes s !! r = Some (Some a) → arrived r = true →
     (read s arrived).1.1 = AutoscalingCoordinator.get_allocated_resources (_requester_id (client s)) a ∧
     (read s arrived).2 = [GetAllocatedResources]).
Proof.
  intros Hr. pose proof (sys_consistent _ _ _ _ Hr) as Hc. split; [by apply read_reads|]. split.
  - intros r r' H1 H2 H3 H4 H5 H6. assert (Some r = Some r') as [= ->]; [|done].
    transitivity (_pending_allocated_resources (client s)); [symmetry|]; by eapply c_unanswered.
  - intros r a Hp Ha Harr. unfold read, get_allocated_resources. rewrite Hp, Harr. unfold reply_of. by rewrite Ha.
Qed.

(** ** At concrete inputs *)
Module ClientRun.
Import AutoscalingCoordinator (init).
Import CoordRun (cpus, node, accept, at_time).

Definition all : nat → bool := λ _, true.
Definition ask (n : Z) (s : system) : system := {| client := client s;
  messages := messages s ++ [request_resources [cpus n] (f_of_int 100) false HIGH None (client s)];
  outcomes := outcomes s; actor := actor s |}.
Definition look (s : system) : system := {| client := (read s all).1.2; messages := messages s ++ (read s all).2;
  outcomes := outcomes s; actor := actor s |}.
Definition serve (s : system) : system :=
  match messages s !! length (outcomes s) with
  | Some m => {| client := client s; messages := messages s; outcomes := outcomes s ++ [Some (actor s)];
      actor := handle accept (at_time 0) (_requester_id (client s)) m (actor s) |}
  | None => s
  end.

Lemma serve_steps s : rtc sys_step s (serve s).
Proof. unfold serve. destruct (messages s !! _) eqn:E; [|apply rtc_refl]. apply rtc_once. by constructor. Qed.

(** One processor is asked for and allocated, then three. *)
Definition one : system := serve (serve (look (ask 1 (start "train" None (init [node "n1" 4]))))).
Definition three : system := serve (ask 3 one).

Lemma ask_steps n s : rtc sys_step s (ask n s).
Proof. apply rtc_once. by apply sys_request. Qed.
Lemma look_steps s : rtc sys_step s (look s).
Proof. apply rtc_once. by apply sys_read. Qed.

Lemma three_reachable : rtc sys_step (start "train" None (init [node "n1" 4])) three.
Proof.
  unfold three, one. etrans; [|apply serve_steps]. etrans; [|apply ask_steps].
  do 2 (etrans; [|apply serve_steps]). etrans; [|apply look_steps]. apply ask_steps.
Qed.

Lemma client_reads_witness : (read three all).1.1 = [cpus 1] ∧
  ∃ r, read_at (init [node "n1" 4]) three r (read three all).1.1.
Proof.
  split; [vm_compute; reflexivity|]. destruct (client_reads _ _ _ _ all three_reachable) as ([H|H] & _); [|exact H].
  exfalso. revert H. vm_compute. discriminate.
Defined.

(** A read after the actor has handled a larger request returns the smaller
    allocation of before: the reply of the read that was pending. *)
Theorem stale_read :
  (read three all).1.1 = [cpus 1] ∧ AutoscalingCoordinator.get_allocated_resources "train" (actor three) = [cpus 3] ∧
  (read (look three) all).1.1 = [cpus 1] ∧ (read (serve (look three)) all).1.1 = [cpus 3].
Proof. split; [|split; [|split]]; vm_compute; reflexivity. Qed.
End ClientRun.
