(* ===== verification/Tpu.v ===== *)
(** * TPU topologies and slices

    [ray/_private/accelerators/tpu.py] and [ray/util/tpu.py]: the number of
    chips, hosts and workers of a topology, and the slices of the cluster that
    are intact or ready.  Strings are of ASCII characters. *)
From Stdlib Require Import Ascii.
From stdpp Require Import pretty.
From S2P Require Import Prelude PyDict PyFloat PyStr Coordinator.

(** ** String methods *)
Definition lower_char (c : ascii) : ascii :=
  let n := N_of_ascii c in if ((65 <=? n) && (n <=? 90))%N then ascii_of_N (n + 32) else c.

Fixpoint py_lower (s : string) : string :=
  match s with "" => "" | String c s => String (lower_char c) (py_lower s) end.

Definition upper_char (c : ascii) : ascii :=
  let n := N_of_ascii c in if ((97 <=? n) && (n <=? 122))%N then ascii_of_N (n - 32) else c.

Fixpoint py_upper (s : string) : string :=
  match s with "" => "" | String c s => String (upper_char c) (py_upper s) end.

Fixpoint lstrip (s : string) : string :=
  match s with String c r => if is_ws c then lstrip r else s | "" => "" end.

Definition py_strip (s : string) : string := String.rev (lstrip (String.rev (lstrip s))).

(** [s.split(sep)] for one character. *)
Fixpoint split_on (sep : ascii) (s : string) : list string :=
  match s with
  | "" => [""]
  | String c r =>
      if decide (c = sep) then "" :: split_on sep r
      else match split_on sep r with
           | w :: l => String c w :: l
           | [] => [String c ""]
           end
  end.

(** [s.replace(old, new)] for a nonempty [old]; [skip] characters of a match are left. *)
Fixpoint replace_go (old new : string) (skip : nat) (s : string) : string :=
  match s with
  | "" => ""
  | String c r =>
      match skip with
      | S k => replace_go old new k r
      | O => if String.prefix old s then new +:+ replace_go old new (pred (String.length old)) r
             else String c (replace_go old new O r)
      end
  end.
Definition py_replace (old new s : string) : string := replace_go old new O s.

(** [int(s)]: digits that single underscores may separate. *)
Fixpoint int_go (acc : Z) (after_digit : bool) (s : string) : result Z :=
  match s with
  | "" => if after_digit then Ok acc else Raise ValueError
  | String c r =>
      let n := Z.of_N (N_of_ascii c) in
      if (48 <=? n) && (n <=? 57) then int_go (10 * acc + (n - 48)) true r
      else if bool_decide (c = "_"%char) && after_digit then int_go acc false r
      else Raise ValueError
  end.

Definition py_int (s : string) : result Z :=
  match py_strip s with
  | String "-" r => Z.opp <$> int_go 0 false r
  | String "+" r => int_go 0 false r
  | r => int_go 0 false r
  end.

Definition startswith_any (s : string) (l : list string) : bool := existsb (λ p, String.prefix p s) l.

(** ** Topologies *)
Definition DEFAULT_TPU_NUM_CHIPS_PER_HOST : Z := 4.
Definition DEFAULT_TPU_NUM_CORES_PER_CHIP : Z := 2.
Definition TPU_8_CHIPS_PER_HOST_TYPES : list string := ["v5litepod"; "v6e"].
Definition TPU_SINGLE_HOST_TOPOLOGIES : list string := ["1x1"; "2x2"; "2x4"].
Definition SINGLE_CORE_TPU_TYPES : list string := ["v5litepod"; "v6e"].
Definition VALID_TPU_TYPES : list string := ["v2"; "v3"; "v4"; "v5p"; "v5litepod"; "v6e"; "v7x"].

Definition _accelerator_type_check (accelerator_type : string) : result unit :=
  if startswith_any accelerator_type VALID_TPU_TYPES then Ok tt else Raise ValueError.

Definition get_tpu_cores_per_chip (accelerator_type : string) : result Z :=
  _ ← _accelerator_type_check accelerator_type;
  Ok (if startswith_any accelerator_type SINGLE_CORE_TPU_TYPES then 1 else DEFAULT_TPU_NUM_CORES_PER_CHIP).

Definition get_num_chips_from_topology (topology : string) : result Z :=
  result_fold (λ total dim, n ← py_int dim; Ok (total * n)) 1 (split_on "x" (py_lower (py_strip topology))).

Definition get_total_chips_from_accelerator_type (accelerator_type : string) : result Z :=
  _ ← _accelerator_type_check accelerator_type;
  match split_on "-" accelerator_type with
  | _ :: size :: _ =>
      num_cores ← py_int size;
      cores_per_chip ← get_tpu_cores_per_chip accelerator_type;
      Ok (num_cores / cores_per_chip)
  | _ => Raise ValueError
  end.

Definition get_num_tpu_visible_chips_per_host (accelerator_type : string) : result Z :=
  _ ← _accelerator_type_check accelerator_type;
  if startswith_any accelerator_type TPU_8_CHIPS_PER_HOST_TYPES then
    total_chips ← get_total_chips_from_accelerator_type accelerator_type;
    Ok (if total_chips <=? 8 then total_chips else DEFAULT_TPU_NUM_CHIPS_PER_HOST)
  else Ok DEFAULT_TPU_NUM_CHIPS_PER_HOST.

Definition infer_tpu_pod_type_from_topology (topology accelerator_type : string) : result (option string) :=
  if bool_decide (topology = "") || bool_decide (accelerator_type = "") then Ok None
  else
    let generation := py_replace "tpu-" "" (py_lower accelerator_type) in
    match (num_chips ← get_num_chips_from_topology topology;
           cores ← get_tpu_cores_per_chip generation; Ok (num_chips * cores)) with
    | Ok num_cores => Ok (Some (generation +:+ "-" +:+ pretty num_cores))
    | Raise _ => Raise ValueError
    end.

Definition get_chips_per_host (topology accelerator_version : string) : result Z :=
  total_chips ← get_num_chips_from_topology topology;
  Ok (if bool_decide (py_lower (py_strip accelerator_version) ∈ TPU_8_CHIPS_PER_HOST_TYPES) &&
         bool_decide (py_lower (py_strip topology) ∈ TPU_SINGLE_HOST_TOPOLOGIES)
      then total_chips else DEFAULT_TPU_NUM_CHIPS_PER_HOST).

Definition get_tpu_version_from_type (accelerator_type : string) : result string :=
  let accel_type_lower := py_lower accelerator_type in
  let version :=
    if String.prefix "tpu-" accel_type_lower then py_replace "tpu-" "" accel_type_lower
    else if String.prefix "tpu" accel_type_lower then py_replace "tpu" "v" accel_type_lower
    else accel_type_lower in
  if bool_decide (version ∈ VALID_TPU_TYPES) then Ok version else Raise ValueError.

(** The type of a node's accelerator, from its pod type. *)
Definition tpu_pod_type_to_ray_accelerator_type (tpu_pod_type : string) : string :=
  "TPU-" +:+ py_upper (hd "" (split_on "-" tpu_pod_type)).

(** *** Valid topologies *)
Definition _get_larger_3d_topologies (max_x max_y max_z : Z) : list string :=
  let range (n : Z) := map (λ k, DEFAULT_TPU_NUM_CHIPS_PER_HOST * k) (seqZ 1 (n / DEFAULT_TPU_NUM_CHIPS_PER_HOST)) in
  x ← range max_x; y ← range max_y; z ← range max_z;
  [pretty (x : Z) +:+ "x" +:+ pretty (y : Z) +:+ "x" +:+ pretty (z : Z)].

Definition VALID_TPU_TOPOLOGY : dict string (list string) := [
  ("v2", ["4x4"; "4x8"; "8x8"; "8x16"; "16x16"]);
  ("v3", ["4x4"; "4x8"; "8x8"; "8x16"; "16x16"; "16x32"; "32x32"]);
  ("v4", ["2x2x1"; "2x2x2"; "2x2x4"; "2x4x4"] ++ _get_larger_3d_topologies 12 12 16);
  ("v5p", ["2x2x1"; "2x2x2"; "2x2x4"; "2x4x4"] ++ _get_larger_3d_topologies 16 16 24);
  ("v5litepod", ["1x1"; "2x2"; "2x4"; "2x8"; "4x4"; "4x8"; "8x8"; "8x16"; "16x16"]);
  ("v6e", ["1x1"; "2x2"; "2x4"; "2x8"; "4x4"; "4x8"; "8x8"; "8x16"; "16x16"]);
  ("v7x", ["2x2x1"; "2x2x2"; "2x2x4"; "2x4x4"; "4x4x4"; "4x4x8"; "4x8x8"; "8x8x8"; "8x8x16"; "8x16x16"])].

Definition is_valid_tpu_accelerator_topology (tpu_accelerator_version tpu_topology : string) : bool :=
  let v := hd "" (split_on "-" (py_lower (py_strip tpu_accelerator_version))) in
  let v := if String.prefix "tpu" v then "v" +:+ String.substring 3 (String.length v - 3) v else v in
  match dget VALID_TPU_TOPOLOGY v with
  | Some l => bool_decide (py_lower (py_strip tpu_topology) ∈ l)
  | None => false
  end.

(** ** Workers *)
Abbreviation resources := (dict string float).

Definition get_tpu_worker_resources (topology accelerator_type : string) (resources_per_unit : option resources)
    (num_slices : Z) (chips_per_vm : option Z) : result (Z * resources) :=
  accelerator_version ← get_tpu_version_from_type accelerator_type;
  resolved_chips_per_vm ← match chips_per_vm with
    | Some n => Ok n | None => get_chips_per_host topology accelerator_version end;
  if resolved_chips_per_vm <=? 0 then Raise ValueError else
  total_chips_per_slice ← get_num_chips_from_topology topology;
  let total_chips_available := total_chips_per_slice * num_slices in
  let final_resources := default [] resources_per_unit in
  let final_resources := if dmem final_resources "CPU" then final_resources else dset final_resources "CPU" f_one in
  let final_resources := if dmem final_resources "TPU" then final_resources
                         else dset final_resources "TPU" (f_of_int resolved_chips_per_vm) in
  let tpus_per_unit := default f_zero (dget final_resources "TPU") in
  if f_leb tpus_per_unit f_zero then Raise ValueError
  else if negb (f_eqb (f_fmod (f_of_int total_chips_available) tpus_per_unit) f_zero) then Raise ValueError
  else if negb (f_eqb (f_fmod (f_of_int total_chips_per_slice) tpus_per_unit) f_zero) then Raise ValueError
  else
    num_workers ← f_int (f_floordiv (f_of_int total_chips_available) tpus_per_unit);
    Ok (num_workers, final_resources).

(** What [except Exception] makes of an error. *)
Definition or_else {A} (a : A) (r : result A) : A := match r with Ok a => a | Raise _ => a end.

Definition get_tpu_num_slices_for_workers (topology accelerator_type : string) (num_workers : Z)
    (resources_per_worker : option resources) : Z :=
  if bool_decide (topology = "") || bool_decide (accelerator_type = "") then 1
  else or_else 1 (
    r ← get_tpu_worker_resources topology accelerator_type resources_per_worker 1 None;
    if r.1 =? 0 then Ok 1
    else n ← f_ceil (f_div (f_of_int num_workers) (f_of_int r.1)); Ok (Z.max 1 n)).

(** ** Slices of the cluster *)
Definition RAY_NODE_TPU_SLICE_NAME_KEY : string := "ray.io/tpu-slice-name".
Definition RAY_NODE_TPU_WORKER_ID_KEY : string := "ray.io/tpu-worker-id".
Definition RAY_NODE_TPU_POD_TYPE_KEY : string := "ray.io/tpu-pod-type".

Definition label (n : Node) (key : string) : option string := default ∅ (Labels n) !! key.

Definition get_tpu_slice_name_from_node (n : Node) : option string := label n RAY_NODE_TPU_SLICE_NAME_KEY.

(** The nodes of each slice of the pod type. *)
Definition add_slice_node (pod_type : string) (d : dict string (list Node)) (n : Node) : dict string (list Node) :=
  if Alive n && bool_decide (label n RAY_NODE_TPU_POD_TYPE_KEY = Some pod_type) then
    match get_tpu_slice_name_from_node n with
    | None | Some "" => d
    | Some name => dset d name (default [] (dget d name) ++ [n])
    end
  else d.

Definition slice_to_nodes (pod_type : string) (nodes : list Node) : dict string (list Node) :=
  foldl (add_slice_node pod_type) [] nodes.

Definition tpus (n : Node) : float := default f_zero (Resources n !! "TPU").
Definition has_head (nodes : list Node) : bool :=
  existsb (λ n, bool_decide (label n RAY_NODE_TPU_WORKER_ID_KEY = Some "0")) nodes.
Definition intact (total_chips_expected : Z) (nodes : list Node) : bool :=
  f_eqb (f_sum (map tpus nodes)) (f_of_int total_chips_expected) && has_head nodes.

(** A topology that does not parse, or names no chips, has no slices. *)
Definition expected_slice (topology accelerator_type : string) : option (string * Z) :=
  or_else None (
    pod_type ← infer_tpu_pod_type_from_topology topology accelerator_type;
    match pod_type with
    | None => Ok None
    | Some p => total ← get_num_chips_from_topology topology; Ok (if total <=? 0 then None else Some (p, total))
    end).

(** [nodes] is what [ray.nodes()] returns or raises. *)
Definition get_num_tpu_slices (is_initialized : bool) (nodes : result (list Node)) (topology accelerator_type : string) :
    result Z :=
  if negb is_initialized then Ok 0
  else match expected_slice topology accelerator_type with
  | None => Ok 0
  | Some (pod_type, total) =>
      l ← nodes;
      Ok (Z.of_nat (length (filter (λ s : string * list Node, intact total s.2 = true) (slice_to_nodes pod_type l))))
  end.

(** All its TPUs are available, or its state is not known yet. *)
Definition is_idle (avail : dict string ResourceDict) (n : Node) : bool :=
  negb (f_ltb (match NodeID n ≫= dget avail with
               | Some r => default (tpus n) (r !! "TPU") | None => tpus n end) (tpus n)).

Definition get_num_ready_tpu_slices (is_initialized : bool) (avail : result (dict string ResourceDict))
    (nodes : result (list Node)) (topology accelerator_type : string) : result Z :=
  if negb is_initialized then Ok 0
  else match expected_slice topology accelerator_type with
  | None => Ok 0
  | Some (pod_type, total) =>
      a ← avail;
      l ← nodes;
      Ok (Z.of_nat (length (filter (λ s : string * list Node, intact total s.2 && forallb (is_idle a) s.2 = true)
        (slice_to_nodes pod_type l))))
  end.

(** ** Digits *)
Definition is_digit (c : ascii) : bool := ((48 <=? N_of_ascii c) && (N_of_ascii c <=? 57))%N.
Fixpoint all_digits (s : string) : bool :=
  match s with "" => true | String c r => is_digit c && all_digits r end.

Lemma digit_pretty x : (x < 10)%N → is_digit (pretty_N_char x) = true.
Proof.
  intros. assert (x = 0 ∨ x = 1 ∨ x = 2 ∨ x = 3 ∨ x = 4 ∨ x = 5 ∨ x = 6 ∨ x = 7 ∨ x = 8 ∨ x = 9)%N as H' by lia.
  by repeat destruct H' as [->|H']; [..|subst].
Qed.

Lemma pretty_go_digits x s : all_digits s = true → all_digits (pretty_N_go x s) = true.
Proof.
  revert s. induction (N.lt_wf_0 x) as [x _ IH]; intros s Hs.
  destruct (decide (x = 0)%N) as [->|Hx]; [by rewrite pretty_N_go_0|].
  rewrite pretty_N_go_step by lia. apply IH; [apply N.div_lt; lia|]. simpl. by rewrite digit_pretty by (apply N.mod_lt; lia).
Qed.

Lemma pretty_digits (x : N) : all_digits (pretty x) = true.
Proof. unfold pretty, pretty_N. case_decide; [done|]. by apply pretty_go_digits. Qed.

Lemma pretty_nonempty (x : N) : pretty x ≠ "".
Proof. by destruct (pretty_N_head x) as (c & s & -> & _). Qed.

Lemma int_go_digits a b s : all_digits s = true → b = true ∨ s ≠ "" → int_go (Z.of_N a) b s = Ok (Z.of_N (undec a s)).
Proof.
  revert a b. induction s as [|c s IH]; intros a b Hd Hb; [by destruct Hb as [->|]|].
  cbn in Hd |- *. apply andb_true_iff in Hd as [Hc Hs]. unfold is_digit in Hc. apply andb_true_iff in Hc as [H1%N.leb_le H2%N.leb_le].
  rewrite (proj2 (Z.leb_le 48 _)), (proj2 (Z.leb_le _ 57)) by lia. cbn.
  replace (10 * Z.of_N a + (Z.of_N (N_of_ascii c) - 48)) with (Z.of_N (10 * a + (N_of_ascii c - 48))) by lia.
  apply IH; [done|by left].
Qed.

Lemma digit_not_ws c : is_digit c = true → is_ws c = false.
Proof.
  unfold is_digit, is_ws. intros [H1%N.leb_le H2%N.leb_le]%andb_true_iff. apply not_true_iff_false.
  rewrite !orb_true_iff, !andb_true_iff, !N.leb_le, !N.eqb_eq. lia.
Qed.

Lemma lstrip_digits s : all_digits s = true → lstrip s = s.
Proof. destruct s as [|c s]; [done|]. cbn. intros [Hc _]%andb_true_iff. by rewrite digit_not_ws. Qed.

Lemma rev_digits s t : all_digits (String.rev_app s t) = all_digits s && all_digits t.
Proof.
  revert t. induction s as [|c s IH]; intros t; [done|]. cbn. rewrite IH. cbn. by destruct (is_digit c), (all_digits s), (all_digits t).
Qed.

Lemma rev_app_app s t u : String.rev_app (String.rev_app s t) u = String.rev_app t (s +:+ u).
Proof. revert t. induction s as [|c s IH]; intros t; [done|]. cbn. by rewrite IH. Qed.

Lemma strip_digits s : all_digits s = true → py_strip s = s.
Proof.
  intros H. unfold py_strip. rewrite (lstrip_digits s H). unfold String.rev at 2.
  rewrite lstrip_digits by by rewrite rev_digits, H. unfold String.rev. rewrite rev_app_app. cbn. apply sapp_nil_r.
Qed.

(** [int(str(n))] *)
Lemma int_pretty (n : N) : py_int (pretty n) = Ok (Z.of_N n).
Proof.
  unfold py_int. rewrite strip_digits by apply pretty_digits.
  assert (int_go 0 false (pretty n) = Ok (Z.of_N n)) as H.
  { rewrite (int_go_digits 0) by (by apply pretty_digits || (right; apply pretty_nonempty)). by rewrite undec_pretty. }
  pose proof (pretty_digits n) as Hd. pose proof (pretty_nonempty n) as Hn. revert Hd H. destruct (pretty n) as [|c s]; [done|].
  cbn [all_digits]. intros [Hc _]%andb_true_iff H. revert H Hc. by destruct c as [[] [] [] [] [] [] [] []].
Qed.

Lemma split_digits sep s : is_digit sep = false → all_digits s = true → split_on sep s = [s].
Proof.
  intros Hsep. induction s as [|c s IH]; [done|]. cbn. intros [Hc Hs]%andb_true_iff.
  rewrite decide_False by congruence. by rewrite IH.
Qed.

Lemma pretty_Z (n : Z) : 0 ≤ n → pretty n = pretty (Z.to_N n).
Proof. by destruct n. Qed.

Lemma split_on_word sep w r : split_on sep w = [w] → split_on sep (w +:+ String sep r) = w :: split_on sep r.
Proof.
  induction w as [|c w IH].
  - intros _. change ("" +:+ String sep r) with (String sep r). cbn. by rewrite decide_True.
  - change (String c w +:+ String sep r) with (String c (w +:+ String sep r)). cbn. destruct (decide (c = sep)); [done|].
    destruct (split_on sep w) as [|x l] eqn:E; [|intros [= -> ->]; by rewrite IH].
    intros [= <-]. done.
Qed.

(** The pod type of a generation and its number of cores is read back. *)
Lemma pod_type_read v (cores : N) : v ∈ VALID_TPU_TYPES →
  split_on "-" (v +:+ "-" +:+ pretty cores) = [v; pretty cores] ∧
  (∀ l, l = VALID_TPU_TYPES ∨ l = SINGLE_CORE_TPU_TYPES → startswith_any (v +:+ "-" +:+ pretty cores) l = startswith_any v l) ∧
  startswith_any v VALID_TPU_TYPES = true.
Proof.
  intros Hv. split.
  - change ("-" +:+ pretty cores) with (String "-" (pretty cores)). rewrite split_on_word.
    + by rewrite (split_digits "-" (pretty cores) eq_refl (pretty_digits cores)).
    + unfold VALID_TPU_TYPES in Hv. by repeat (apply elem_of_cons in Hv as [->|Hv]); [..|by apply elem_of_nil in Hv].
  - unfold VALID_TPU_TYPES in Hv. repeat (apply elem_of_cons in Hv as [->|Hv]); [..|by apply elem_of_nil in Hv];
      (split; [intros l [->| ->]; done|done]).
Qed.

(** The pod type inferred from a topology and an accelerator type is read
    back: as the number of chips of the topology, and as the accelerator's
    generation, which is that of the accelerator type. *)
Theorem pod_type_roundtrip topology accelerator_type v n :
  py_replace "tpu-" "" (py_lower accelerator_type) = v → v ∈ VALID_TPU_TYPES → topology ≠ "" →
  get_num_chips_from_topology topology = Ok n → 0 ≤ n →
  ∃ p, infer_tpu_pod_type_from_topology topology accelerator_type = Ok (Some p) ∧
    get_total_chips_from_accelerator_type p = Ok n ∧
    get_tpu_version_from_type (tpu_pod_type_to_ray_accelerator_type p) = Ok v.
Proof.
  intros Hv Hin Ht Hn H0. destruct (pod_type_read v 0 Hin) as (_ & _ & Hs).
  set (c := if startswith_any v SINGLE_CORE_TPU_TYPES then 1 else DEFAULT_TPU_NUM_CORES_PER_CHIP).
  assert (0 < c) as Hc by (unfold c; by case_match).
  assert (0 ≤ n * c) as Hnc by (apply Z.mul_nonneg_nonneg; [done|by apply Z.lt_le_incl]).
  exists (v +:+ "-" +:+ pretty (n * c)). split.
  { unfold infer_tpu_pod_type_from_topology, get_tpu_cores_per_chip, _accelerator_type_check.
    rewrite bool_decide_eq_false_2 by done. rewrite bool_decide_eq_false_2 by (intros ->; subst v; revert Hin; by apply (bool_decide_unpack (_ ∉ VALID_TPU_TYPES))).
    rewrite Hv, Hn. cbv [mbind result_bind]. by rewrite Hs. }
  rewrite pretty_Z by done. destruct (pod_type_read v (Z.to_N (n * c)) Hin) as (Hsp & Hst & _). split.
  - unfold get_total_chips_from_accelerator_type, get_tpu_cores_per_chip, _accelerator_type_check.
    rewrite (Hst VALID_TPU_TYPES), (Hst SINGLE_CORE_TPU_TYPES), Hs, Hsp by (by left) || by right.
    cbv [mbind result_bind]. rewrite int_pretty, Z2N.id by done. fold c. by rewrite Z.div_mul by lia.
  - unfold tpu_pod_type_to_ray_accelerator_type. rewrite Hsp. cbn [hd]. clear -Hin.
    unfold VALID_TPU_TYPES in Hin. by repeat (apply elem_of_cons in Hin as [->|Hin]); [..|by apply elem_of_nil in Hin].
Qed.

(** ** Slices *)

(** The alive nodes of a slice of the pod type. *)
Definition in_slice (pod_type name : string) (n : Node) : bool :=
  Alive n && bool_decide (label n RAY_NODE_TPU_POD_TYPE_KEY = Some pod_type) &&
  bool_decide (label n RAY_NODE_TPU_SLICE_NAME_KEY = Some name).

Definition slice_nodes (pod_type : string) (nodes : list Node) (name : string) : list Node :=
  filter (λ n, in_slice pod_type name n = true) nodes.

Lemma slice_step pod_type d n : dwf d → dwf (add_slice_node pod_type d n) ∧
  ∀ name, name ≠ "" → default [] (dget (add_slice_node pod_type d n) name) =
    default [] (dget d name) ++ (if in_slice pod_type name n then [n] else []).
Proof.
  intros Hw. unfold add_slice_node, in_slice, get_tpu_slice_name_from_node.
  destruct (Alive n && bool_decide _); cbn [andb]; [|split; [done|intros; by rewrite app_nil_r]].
  destruct (label n RAY_NODE_TPU_SLICE_NAME_KEY) as [w|]; [|split; [done|intros; by rewrite app_nil_r]].
  assert ((w = "" ∧ ∀ (x y : dict string (list Node)), match w with "" => x | _ => y end = x) ∨
    (w ≠ "" ∧ ∀ (x y : dict string (list Node)), match w with "" => x | _ => y end = y)) as [[-> Hx]|[Hne Hx]] by (destruct w; [by left|by right]).
  { split; [done|]. intros name Hn. rewrite bool_decide_eq_false_2 by congruence. by rewrite app_nil_r. }
  rewrite Hx. split; [by apply dset_wf|]. intros name Hn. destruct (decide (w = name)) as [->|Hd].
  - rewrite dget_dset_eq, bool_decide_eq_true_2; done.
  - rewrite dget_dset_ne, bool_decide_eq_false_2 by congruence. by rewrite app_nil_r.
Qed.

Lemma slice_to_nodes_spec pod_type nodes : dwf (slice_to_nodes pod_type nodes) ∧
  (∀ name, name ≠ "" → default [] (dget (slice_to_nodes pod_type nodes) name) = slice_nodes pod_type nodes name) ∧
  "" ∉ (slice_to_nodes pod_type nodes).*1.
Proof.
  unfold slice_to_nodes, slice_nodes. induction nodes as [|n nodes IH] using rev_ind; [split_and!; [constructor|done|apply not_elem_of_nil]|].
  destruct IH as (Hw & Hg & Hno). rewrite foldl_app. cbn [foldl]. destruct (slice_step pod_type _ n Hw) as [H1 H2]. split_and!; [done| |].
  - intros name Hn. rewrite H2, Hg, filter_app by done. f_equal. rewrite filter_cons. by destruct (in_slice pod_type name n).
  - unfold add_slice_node. destruct (_ && _); [|done]. destruct (get_tpu_slice_name_from_node n) as [[|c w]|]; [done| |done].
    rewrite dset_keys_elem. by intros [?|?].
Qed.

(** The slices that pass a test nodes of none fail. *)
Lemma slices_counted_by (Q : list Node → bool) pod_type nodes : Q [] = false →
  let names := (filter (λ s : string * list Node, Q s.2 = true) (slice_to_nodes pod_type nodes)).*1 in
  NoDup names ∧ ∀ name, name ∈ names ↔ name ≠ "" ∧ Q (slice_nodes pod_type nodes name) = true.
Proof.
  intros HQ names. destruct (slice_to_nodes_spec pod_type nodes) as (Hw & Hg & Hno). split.
  { unfold names. eapply sublist_NoDup; [exact Hw|]. apply fmap_sublist, sublist_filter. }
  intros name. unfold names. rewrite list_elem_of_fmap. split.
  - intros ([w l] & -> & [Hq Hin]%list_elem_of_filter). cbn in *.
    assert (w ≠ "") as Hne by (intros ->; apply Hno; by apply (list_elem_of_fmap_2 fst) in Hin).
    split; [done|]. apply (dget_wf_elem _ _ _ Hw) in Hin. rewrite <-Hg by done. by rewrite Hin.
  - intros [Hne Hq]. rewrite <-Hg in Hq by done. destruct (dget _ name) as [l|] eqn:E; cbn in Hq; [|congruence].
    exists (name, l). split; [done|]. apply list_elem_of_filter. split; [done|]. by apply dget_wf_elem.
Qed.

(** C28: The slices counted are exactly those whose alive nodes of the pod type
    have the chips of the topology among them and the first worker; those
    counted as ready are the counted ones all of whose nodes are idle. *)
Theorem slices_spec avail nodes topology accelerator_type pod_type total :
  expected_slice topology accelerator_type = Some (pod_type, total) →
  ∃ names ready : list string,
    get_num_tpu_slices true (Ok nodes) topology accelerator_type = Ok (Z.of_nat (length names)) ∧
    get_num_ready_tpu_slices true (Ok avail) (Ok nodes) topology accelerator_type = Ok (Z.of_nat (length ready)) ∧
    NoDup names ∧ NoDup ready ∧
    (∀ name, name ∈ names ↔ name ≠ "" ∧
       f_eqb (f_sum (map tpus (slice_nodes pod_type nodes name))) (f_of_int total) = true ∧
       ∃ n, n ∈ slice_nodes pod_type nodes name ∧ label n RAY_NODE_TPU_WORKER_ID_KEY = Some "0") ∧
    (∀ name, name ∈ ready ↔ name ∈ names ∧ ∀ n, n ∈ slice_nodes pod_type nodes name → is_idle avail n = true).
Proof.
  intros He.
  assert (∀ l, intact total l = true ↔ f_eqb (f_sum (map tpus l)) (f_of_int total) = true ∧
    ∃ n, n ∈ l ∧ label n RAY_NODE_TPU_WORKER_ID_KEY = Some "0") as Hint.
  { intros l. unfold intact, has_head. rewrite andb_true_iff, existsb_exists. setoid_rewrite bool_decide_eq_true.
    setoid_rewrite <-list_elem_of_In. done. }
  destruct (slices_counted_by (intact total) pod_type nodes) as [Hn1 Hn2]; [by unfold intact; rewrite andb_false_r|].
  destruct (slices_counted_by (λ l, intact total l && forallb (is_idle avail) l) pod_type nodes) as [Hr1 Hr2];
    [by unfold intact; rewrite andb_false_r|].
  eexists _, _. split_and!; [| |exact Hn1|exact Hr1| |].
  - unfold get_num_tpu_slices. rewrite He. cbn. by rewrite length_fmap.
  - unfold get_num_ready_tpu_slices. rewrite He. cbn. by rewrite length_fmap.
  - intros name. by rewrite Hn2, Hint.
  - intros name. rewrite Hr2, Hn2, andb_true_iff, forallb_forall. setoid_rewrite <-list_elem_of_In. tauto.
Qed.

(** The workers of a topology by default: one for each host. *)
Definition fills_hosts (v t : string) : bool :=
  match get_num_chips_from_topology t, get_chips_per_host t v, get_tpu_worker_resources t ("TPU-" +:+ py_upper v) None 1 None with
  | Ok chips, Ok per_host, Ok (workers, r) =>
      (0 <? per_host) && (workers * per_host =? chips) && bool_decide (r = [("CPU", f_one); ("TPU", f_of_int per_host)])
  | _, _, _ => false
  end.

Lemma all_fill_hosts : forallb (λ p : string * list string, forallb (fills_hosts p.1) p.2) VALID_TPU_TOPOLOGY = true.
Proof. vm_compute. reflexivity. Qed.

(** Every valid topology of every generation is used up by its default
    workers, one for each host with all its chips: the chips of the topology
    are the workers times the chips per host. *)
Theorem valid_topologies_fill_hosts v topologies topology :
  (v, topologies) ∈ VALID_TPU_TOPOLOGY → topology ∈ topologies →
  ∃ chips per_host workers, get_num_chips_from_topology topology = Ok chips ∧ get_chips_per_host topology v = Ok per_host ∧
    get_tpu_worker_resources topology ("TPU-" +:+ py_upper v) None 1 None = Ok (workers, [("CPU", f_one); ("TPU", f_of_int per_host)]) ∧
    0 < per_host ∧ workers * per_host = chips.
Proof.
  intros Hv Ht. pose proof all_fill_hosts as H. rewrite forallb_forall in H. specialize (H (v, topologies)). cbn [fst snd] in H.
  rewrite forallb_forall in H. specialize (H ltac:(by apply list_elem_of_In) topology ltac:(by apply list_elem_of_In)).
  unfold fills_hosts in H. destruct (get_num_chips_from_topology topology) as [chips|]; [|done].
  destruct (get_chips_per_host topology v) as [per_host|]; [|done].
  destruct (get_tpu_worker_resources _ _ _ _ _) as [[workers r]|]; [|done].
  apply andb_true_iff in H as [[H1 H2]%andb_true_iff ->%bool_decide_eq_true]. exists chips, per_host, workers. split_and!; try done; lia.
Qed.

(** ** At concrete inputs *)
Module TpuRun.
Definition host (id slice worker : string) (chips : Z) : Node := {|
  Alive := true; Resources := {["TPU" := f_of_int chips]};
  Labels := Some (<[RAY_NODE_TPU_SLICE_NAME_KEY := slice]> (<[RAY_NODE_TPU_WORKER_ID_KEY := worker]>
    {[RAY_NODE_TPU_POD_TYPE_KEY := "v6e-16"]}));
  NodeID := Some id |}.

(** A whole slice of four hosts, of which one is in use, and half of one. *)
Definition hosts : list Node :=
  [host "a" "s1" "0" 4; host "b" "s1" "1" 4; host "c" "s2" "0" 4; host "d" "s1" "2" 4; host "e" "s2" "1" 4; host "f" "s1" "3" 4].

Lemma slices_spec_witness : expected_slice "4x4" "TPU-V6E" = Some ("v6e-16", 16) ∧
  get_num_tpu_slices true (Ok hosts) "4x4" "TPU-V6E" = Ok 1 ∧
  ∃ names : list string, length names = 1%nat ∧ ∀ name, name ∈ names → name ≠ "".
Proof.
  assert (expected_slice "4x4" "TPU-V6E" = Some ("v6e-16", 16)) as H by reflexivity.
  assert (get_num_tpu_slices true (Ok hosts) "4x4" "TPU-V6E" = Ok 1) as H1 by (vm_compute; reflexivity).
  split; [exact H|]. split; [exact H1|].
  destruct (slices_spec [] hosts "4x4" "TPU-V6E" "v6e-16" 16 H) as (names & ready & Hn & _ & _ & _ & Hspec & _).
  exists names. split; [rewrite H1 in Hn; injection Hn; lia|]. intros name Hin. by apply Hspec in Hin as [? _].
Defined.

Lemma valid_topologies_fill_hosts_witness :
  ∃ chips per_host workers, get_num_chips_from_topology "4x8" = Ok chips ∧ get_chips_per_host "4x8" "v6e" = Ok per_host ∧
    workers * per_host = chips.
Proof.
  destruct (valid_topologies_fill_hosts "v6e" ["1x1"; "2x2"; "2x4"; "2x8"; "4x4"; "4x8"; "8x8"; "8x16"; "16x16"] "4x8")
    as (c & p & w & H1 & H2 & _ & _ & H3).
  - do 5 apply list_elem_of_further. apply list_elem_of_here.
  - do 5 apply list_elem_of_further. apply list_elem_of_here.
  - exists c, p, w. done.
Defined.

Lemma pod_type_roundtrip_witness : ∃ p, infer_tpu_pod_type_from_topology "4x4" "TPU-V6E" = Ok (Some p) ∧
  get_total_chips_from_accelerator_type p = Ok 16.
Proof.
  destruct (pod_type_roundtrip "4x4" "TPU-V6E" "v6e" 16) as (p & H1 & H2 & _).
  - reflexivity.
  - do 5 apply list_elem_of_further. apply list_elem_of_here.
  - done.
  - reflexivity.
  - lia.
  - by exists p.
Defined.
End TpuRun.
