(* ===== verification/Elastic.v ===== *)
(** * Elastic training

    [ScalingConfig] of [ray/train/v2/api/config.py] and [ray/air/config.py],
    and [scaling_policy/scaling_policy.py], [fixed.py] and [elastic.py] of
    [ray/train/v2/_internal/execution]: the policy that sizes a training's
    worker group by what the autoscaling coordinator has allocated to it. *)
From S2P Require Import Prelude PyDict PyFloat FailurePolicy Coordinator CoordinatorFacts CoordinatorProps CoordinatorClient Tpu.

(** ** Scaling configuration *)
Definition RESOURCE_CONSTRAINT_PREFIX : string := "accelerator_type:".

Inductive Workers : Type :=
  | Fixed (n : Z)
  | Between (min_workers max_workers : Z).

Inductive LabelSelector : Type :=
  | NoSelector
  | OneSelector (s : selector)
  | SelectorList (l : list selector).

Module ScalingConfig.
Record t : Type := {
  num_workers : Workers;
  trainer_resources : option resources;
  use_gpu : bool;
  use_tpu : bool;
  resources_per_worker : option resources;
  accelerator_type : option string;
  topology : option string;
  label_selector : LabelSelector;
  elastic_resize_monitor_interval_s : float
}.

Definition min_workers (c : t) : Z := match num_workers c with Fixed n => n | Between lo _ => lo end.
Definition max_workers (c : t) : Z := match num_workers c with Fixed n => n | Between _ hi => hi end.
Definition elasticity_enabled (c : t) : bool := match num_workers c with Fixed _ => false | Between _ _ => true end.

(** [dict.setdefault] *)
Definition setdefault (d : resources) (k : string) (v : float) : resources := if dmem d k then d else dset d k v.

(** A string that is neither missing nor empty. *)
Definition given (s : option string) : option string := match s with Some "" => None | _ => s end.

Definition v1_resources_per_worker_not_none (c : t) : resources :=
  let r := match resources_per_worker c with
           | None => if use_gpu c then [("GPU", f_one)] else [("CPU", f_one)]
           | Some r => filter (λ kv : string * float, negb (f_eqb kv.2 f_zero) = true) r
           end in
  let r := if use_gpu c then setdefault r "GPU" f_one else r in
  match given (accelerator_type c) with
  | Some a => setdefault r (RESOURCE_CONSTRAINT_PREFIX +:+ a) (f_div f_one (f_of_int 1000))
  | None => r
  end.

Definition _resources_per_worker_not_none (c : t) : resources :=
  match resources_per_worker c with
  | None => if use_tpu c then [("TPU", f_one)] else v1_resources_per_worker_not_none c
  | Some _ => v1_resources_per_worker_not_none c
  end.

Definition num_tpus_per_worker (c : t) : float := default f_zero (dget (_resources_per_worker_not_none c) "TPU").
Definition num_gpus_per_worker (c : t) : float := default f_zero (dget (_resources_per_worker_not_none c) "GPU").

Definition _label_selector_per_worker (c : t) (n : Z) : option (list selector) :=
  match label_selector c with
  | NoSelector => None
  | OneSelector s => Some (replicate (Z.to_nat n) s)
  | SelectorList l => Some (take (Z.to_nat n) l)
  end.

(** For an elastic configuration an upper bound. *)
Definition total_resources (c : t) : resources :=
  foldl (λ (d : resources) (kv : string * float),
      dset d kv.1 (f_add (default f_zero (dget d kv.1)) (f_mul kv.2 (f_of_int (max_workers c)))))
    [] (_resources_per_worker_not_none c).

Definition set_resources (r : resources) (c : t) : t := {|
  num_workers := num_workers c; trainer_resources := trainer_resources c; use_gpu := use_gpu c; use_tpu := use_tpu c;
  resources_per_worker := Some r; accelerator_type := accelerator_type c; topology := topology c;
  label_selector := label_selector c; elastic_resize_monitor_interval_s := elastic_resize_monitor_interval_s c |}.

(** [if self.label_selector] *)
Definition has_selector (c : t) : bool :=
  match label_selector c with
  | NoSelector => false | OneSelector s => bool_decide (s ≠ ∅) | SelectorList l => bool_decide (l ≠ []) end.

Definition _validate_tpu_config (c : t) : result t :=
  if use_gpu c && use_tpu c then Raise ValueError
  else if negb (use_tpu c) then if f_ltb f_zero (num_tpus_per_worker c) then Raise ValueError else Ok c
  else if f_eqb (num_tpus_per_worker c) f_zero then Raise ValueError
  else if (1 <? max_workers c) &&
          (bool_decide (given (topology c) = None) || bool_decide (given (accelerator_type c) = None) || has_selector c)
  then Raise ValueError
  else match given (topology c), given (accelerator_type c) with
  | Some topo, Some accel =>
      match get_tpu_worker_resources topo accel (resources_per_worker c) 1 None with
      | Raise _ => Raise ValueError
      | Ok (workers_per_slice, tpu_resources) =>
          if (0 <? workers_per_slice) && negb (max_workers c mod workers_per_slice =? 0) then Raise ValueError
          else if (0 <? workers_per_slice) && negb (min_workers c mod workers_per_slice =? 0) then Raise ValueError
          else Ok (match resources_per_worker c with None => set_resources tpu_resources c | Some _ => c end)
      end
  | _, _ => Ok c
  end.

Definition v1_post_init (c : t) : result t :=
  match resources_per_worker c with
  | None | Some [] => Ok c
  | Some _ =>
      if negb (use_gpu c) && f_ltb f_zero (num_gpus_per_worker c) then Raise ValueError
      else if use_gpu c && f_eqb (num_gpus_per_worker c) f_zero then Raise ValueError
      else Ok c
  end.

Definition __post_init__ (c : t) : result t :=
  if bool_decide (trainer_resources c ≠ None) then Raise DeprecationWarning
  else if f_ltb (elastic_resize_monitor_interval_s c) f_zero then Raise ValueError
  else if min_workers c <? 0 then Raise ValueError
  else if max_workers c <? min_workers c then Raise ValueError
  else
    c ← _validate_tpu_config c;
    if (match label_selector c with
        | SelectorList l => negb (Z.of_nat (length l) =? max_workers c) | _ => false end)
    then Raise ValueError
    else v1_post_init c.
End ScalingConfig.
Import ScalingConfig.

(** ** Requests to the coordinator *)
Definition AUTOSCALING_REQUESTS_EXPIRE_TIME_S : Z := 180.
Definition AUTOSCALING_REQUESTS_INTERVAL_S : Z := 20.

(** What a policy's call finds: readings of the clock, whether a request or a
    cancellation is acknowledged in time, the allocation or [None] when getting
    it fails, and the cluster's nodes. *)
Record Env : Type := {
  t_request : float;      (* before a request *)
  t_requested : float;    (* after it *)
  t_considered : float;   (* when a resize is considered *)
  t_query : float;        (* before asking for the allocation *)
  t_queried : float;      (* after it *)
  t_warning : float;      (* when there are too few workers *)
  acknowledged : bool;
  allocated : option (list ResourceDict);
  is_initialized : bool;
  nodes : result (list Node)
}.

Module ScalingPolicy.
Record t : Type := {
  _requester_id : string;
  _latest_autoscaling_request_time : float;
  _latest_monitor_time : float;
  _latest_insufficient_workers_warning_time : float;
  _latest_allocated_resources_query_time : float;
  _latest_allocated_resources : option (list ResourceDict)
}.

Definition create (id : string) : t := {|
  _requester_id := id; _latest_autoscaling_request_time := f_neg_inf; _latest_monitor_time := f_neg_inf;
  _latest_insufficient_workers_warning_time := f_neg_inf; _latest_allocated_resources_query_time := f_neg_inf;
  _latest_allocated_resources := None |}.

Definition set_id (id : string) (p : t) : t := {|
  _requester_id := id; _latest_autoscaling_request_time := _latest_autoscaling_request_time p;
  _latest_monitor_time := _latest_monitor_time p;
  _latest_insufficient_workers_warning_time := _latest_insufficient_workers_warning_time p;
  _latest_allocated_resources_query_time := _latest_allocated_resources_query_time p;
  _latest_allocated_resources := _latest_allocated_resources p |}.
Definition set_request_time (time : float) (p : t) : t := {|
  _requester_id := _requester_id p; _latest_autoscaling_request_time := time;
  _latest_monitor_time := _latest_monitor_time p;
  _latest_insufficient_workers_warning_time := _latest_insufficient_workers_warning_time p;
  _latest_allocated_resources_query_time := _latest_allocated_resources_query_time p;
  _latest_allocated_resources := _latest_allocated_resources p |}.
Definition set_monitor_time (time : float) (p : t) : t := {|
  _requester_id := _requester_id p; _latest_autoscaling_request_time := _latest_autoscaling_request_time p;
  _latest_monitor_time := time;
  _latest_insufficient_workers_warning_time := _latest_insufficient_workers_warning_time p;
  _latest_allocated_resources_query_time := _latest_allocated_resources_query_time p;
  _latest_allocated_resources := _latest_allocated_resources p |}.
Definition set_warning_time (time : float) (p : t) : t := {|
  _requester_id := _requester_id p; _latest_autoscaling_request_time := _latest_autoscaling_request_time p;
  _latest_monitor_time := _latest_monitor_time p;
  _latest_insufficient_workers_warning_time := time;
  _latest_allocated_resources_query_time := _latest_allocated_resources_query_time p;
  _latest_allocated_resources := _latest_allocated_resources p |}.
Definition set_allocation (time : float) (l : option (list ResourceDict)) (p : t) : t := {|
  _requester_id := _requester_id p; _latest_autoscaling_request_time := _latest_autoscaling_request_time p;
  _latest_monitor_time := _latest_monitor_time p;
  _latest_insufficient_workers_warning_time := _latest_insufficient_workers_warning_time p;
  _latest_allocated_resources_query_time := time;
  _latest_allocated_resources := l |}.

(** A call of the coordinator's actor: when it starts and ends, and whether the
    answer arrives in time. *)
Record call : Type := {
  started : float;
  finished : float;
  answered : bool;
  requester : string;
  message : DefaultAutoscalingCoordinator.message
}.

(** An operation returns or raises, updates the policy and makes calls. *)
Definition M (A : Type) : Type := t → result A * t * list call.

#[global] Instance M_ret : MRet M := λ A a p, (Ok a, p, []).
#[global] Instance M_bind : MBind M := λ A B f m p,
  match m p with
  | (Ok a, p, l) => let r := f a p in (r.1, l ++ r.2)
  | (Raise e, p, l) => (Raise e, p, l)
  end.
Definition get : M t := λ p, (Ok p, p, []).
Definition update (f : t → t) : M unit := λ p, (Ok tt, f p, []).
Definition lift {A} (r : result A) : M A := λ p, (r, p, []).
Definition send_call (start finish : float) (ok : bool) (m : DefaultAutoscalingCoordinator.message) : M unit :=
  λ p, (Ok tt, p, [{| started := start; finished := finish; answered := ok; requester := _requester_id p; message := m |}]).

Section policy.
Variable scaling_config : ScalingConfig.t.
Variable env : Env.
(** [_get_num_workers_for_resource_request] *)
Variable num_workers_for_resource_request : Z.

(** The bundle of one worker, as the coordinator receives it. *)
Definition worker_bundle : ResourceDict := list_to_map (_resources_per_worker_not_none scaling_config).

Definition request_message : DefaultAutoscalingCoordinator.message :=
  DefaultAutoscalingCoordinator.RequestResources (replicate (Z.to_nat num_workers_for_resource_request) worker_bundle)
    (f_of_int AUTOSCALING_REQUESTS_EXPIRE_TIME_S) false HIGH
    (_label_selector_per_worker scaling_config num_workers_for_resource_request) None.

Definition _send_resource_request : M unit :=
  send_call (t_request env) (t_requested env) (acknowledged env) request_message;;
  if acknowledged env then update (set_request_time (t_requested env)) else mret tt.

Definition _maybe_send_resource_request : M unit :=
  p ← get;
  if f_ltb (f_sub (t_request env) (_latest_autoscaling_request_time p)) (f_of_int AUTOSCALING_REQUESTS_INTERVAL_S)
  then mret tt else _send_resource_request.

Definition _cancel_resource_request : M unit :=
  send_call (t_request env) (t_requested env) (acknowledged env) DefaultAutoscalingCoordinator.CancelRequest.

Definition after_controller_start (run_id : string) : M unit :=
  update (set_id ("train-" +:+ run_id));; _send_resource_request.
Definition before_controller_shutdown : M unit := _cancel_resource_request.
Definition before_controller_abort : M unit := _cancel_resource_request.
End policy.
End ScalingPolicy.
Import ScalingPolicy.

Module RequestingFixedPolicy.
Definition _get_num_workers_for_resource_request (c : ScalingConfig.t) : Z := min_workers c.

Definition make_decision_for_non_running_worker_group (c : ScalingConfig.t) (env : Env) : M ScalingDecision :=
  _maybe_send_resource_request c env (_get_num_workers_for_resource_request c);;
  mret (ResizeDecision (min_workers c) (_resources_per_worker_not_none c)).

Definition make_decision_for_running_worker_group (c : ScalingConfig.t) (env : Env) : M ScalingDecision :=
  _maybe_send_resource_request c env (_get_num_workers_for_resource_request c);; mret NoopDecision.
End RequestingFixedPolicy.

(** ** The elastic policy *)
Module ElasticScalingPolicy.
Definition GET_ALLOCATED_RESOURCES_INTERVAL_S : Z := 1.
Definition INSUFFICIENT_WORKERS_WARNING_INTERVAL_S : Z := 30.

(** [min] of a list: the first of the least. *)
Definition py_min (l : list float) : result float :=
  match l with
  | [] => Raise ValueError
  | x :: l => Ok (foldl (λ a b, if f_ltb b a then b else a) x l)
  end.

Section policy.
Variable scaling_config : ScalingConfig.t.
Variable env : Env.

Definition _get_num_workers_for_resource_request : Z := max_workers scaling_config.

Definition _get_strict_tpu_worker_count (topo accel : string) (total_num_workers : Z) : Z :=
  or_else 0 (
    r ← get_tpu_worker_resources topo accel (Some (_resources_per_worker_not_none scaling_config)) 1 None;
    let workers_per_slice := r.1 in
    if workers_per_slice =? 0 then Ok 0
    else
      let n := total_num_workers / workers_per_slice in
      let n := if 0 <? n then
                 match get_num_tpu_slices (is_initialized env) (nodes env) topo accel with
                 | Ok num_intact_slices => Z.min n num_intact_slices
                 | Raise _ => n
                 end
               else n in
      Ok (n * workers_per_slice)).

(** The workers a bundle is enough for. *)
Definition workers_in (single : resources) (r : ResourceDict) : result float :=
  py_min (map (λ kv : string * float, f_floordiv (default f_zero (r !! kv.1)) kv.2)
    (filter (λ kv : string * float, f_ltb f_zero kv.2 = true) single)).

Definition _count_possible_workers (allocated_resources : list ResourceDict) : result Z :=
  let single := _resources_per_worker_not_none scaling_config in
  if f_eqb (f_sum single.*2) f_zero then Ok (max_workers scaling_config)
  else
    total ← result_fold (λ total r, n ← workers_in single r; Ok (f_add total n)) f_zero allocated_resources;
    total ← f_int total;
    let total := Z.min total (max_workers scaling_config) in
    Ok (match use_tpu scaling_config, given (topology scaling_config), given (accelerator_type scaling_config) with
        | true, Some topo, Some accel => _get_strict_tpu_worker_count topo accel total
        | _, _, _ => total
        end).

Definition _get_resize_decision (num_workers : Z) : ScalingDecision :=
  ResizeDecision num_workers (_resources_per_worker_not_none scaling_config).

Definition _get_allocated_resources : M (option (list ResourceDict)) :=
  p ← get;
  if f_ltb (f_sub (t_query env) (_latest_allocated_resources_query_time p)) (f_of_int GET_ALLOCATED_RESOURCES_INTERVAL_S)
  then mret (_latest_allocated_resources p)
  else
    send_call (t_query env) (t_queried env) (bool_decide (allocated env ≠ None)) DefaultAutoscalingCoordinator.GetAllocatedResources;;
    update (set_allocation (t_queried env) (allocated env));;
    mret (allocated env).

Definition make_decision_for_non_running_worker_group : M ScalingDecision :=
  _maybe_send_resource_request scaling_config env _get_num_workers_for_resource_request;;
  allocated_resources ← _get_allocated_resources;
  match allocated_resources with
  | None => mret NoopDecision
  | Some l =>
      num_workers ← lift (_count_possible_workers l);
      if num_workers <? min_workers scaling_config then
        p ← get;
        (if f_leb (f_of_int INSUFFICIENT_WORKERS_WARNING_INTERVAL_S)
                  (f_sub (t_warning env) (_latest_insufficient_workers_warning_time p))
         then update (set_warning_time (t_warning env)) else mret tt);;
        mret NoopDecision
      else mret (_get_resize_decision num_workers)
  end.

(** [start_time] and [num_workers] of the worker group's state. *)
Definition make_decision_for_running_worker_group (start_time : float) (group_size : Z) : M ScalingDecision :=
  _maybe_send_resource_request scaling_config env _get_num_workers_for_resource_request;;
  p ← get;
  let latest_consideration_time :=
    if f_ltb start_time (_latest_monitor_time p) then _latest_monitor_time p else start_time in
  if f_ltb (f_sub (t_considered env) latest_consideration_time) (elastic_resize_monitor_interval_s scaling_config)
  then mret NoopDecision
  else
    update (set_monitor_time (t_considered env));;
    allocated_resources ← _get_allocated_resources;
    match allocated_resources with
    | None => mret NoopDecision
    | Some l =>
        num_workers ← lift (_count_possible_workers l);
        if num_workers =? group_size then mret NoopDecision
        else if num_workers <? min_workers scaling_config then mret NoopDecision
        else mret (_get_resize_decision num_workers)
    end.
End policy.
End ElasticScalingPolicy.
Import ElasticScalingPolicy.

#[local] Arguments f_ltb : simpl never.
#[local] Arguments f_leb : simpl never.
#[local] Arguments f_sub : simpl never.
#[local] Arguments f_of_int : simpl never.

(** Unfolds the monad's operations. *)
Ltac run := cbv [mbind M_bind mret M_ret get update lift send_call]; cbn [fst snd app].

(** ** Counting workers *)

(** What a worker requires: each kind once, at least one of them, none of it without end. *)
Definition counts (single : resources) : Prop :=
  dwf single ∧ f_eqb (f_sum single.*2) f_zero = false ∧
  (∃ kv, kv ∈ single ∧ f_ltb f_zero kv.2 = true) ∧
  ∀ kv, kv ∈ single → kv.2 ≠ S754_infinity false.




(** ** Decisions *)

(** The operations of the base class change the time of the last request only. *)
Lemma maybe_send c env n p : ∃ time l, _maybe_send_resource_request c env n p = (Ok tt, set_request_time time p, l).
Proof.
  unfold _maybe_send_resource_request, _send_resource_request. run. destruct (f_ltb _ _); cbn.
  - exists (_latest_autoscaling_request_time p). eexists. by destruct p.
  - destruct (acknowledged env); cbn; [by eexists _, _|]. exists (_latest_autoscaling_request_time p). eexists. by destruct p.
Qed.

(** What the controller gets from a policy. *)
Definition as_outcome {A} (r : result A) : outcome A := match r with Ok a => Ret a | Raise e => Exc (PyError e) end.

(** The requests of the fixed policy do not change what it decides. *)
Lemma fixed_decisions c env p :
  as_outcome (RequestingFixedPolicy.make_decision_for_non_running_worker_group c env p).1.1 =
    FixedScalingPolicy.make_decision_for_non_running_worker_group (min_workers c) (_resources_per_worker_not_none c) ∧
  as_outcome (RequestingFixedPolicy.make_decision_for_running_worker_group c env p).1.1 =
    FixedScalingPolicy.make_decision_for_running_worker_group.
Proof.
  unfold RequestingFixedPolicy.make_decision_for_non_running_worker_group, RequestingFixedPolicy.make_decision_for_running_worker_group.
  run. by destruct (maybe_send c env (RequestingFixedPolicy._get_num_workers_for_resource_request c) p) as (time & l & ->).
Qed.

(** What the policy goes by: the cached allocation, or a new one. *)
Definition known (env : Env) (p : t) : option (list ResourceDict) :=
  if f_ltb (f_sub (t_query env) (_latest_allocated_resources_query_time p)) (f_of_int GET_ALLOCATED_RESOURCES_INTERVAL_S)
  then _latest_allocated_resources p else allocated env.

Lemma non_running_result c env p : (make_decision_for_non_running_worker_group c env p).1.1 =
  match known env p with
  | None => Ok NoopDecision
  | Some l =>
      n ← _count_possible_workers c env l;
      Ok (if n <? min_workers c then NoopDecision else _get_resize_decision c n)
  end.
Proof.
  unfold make_decision_for_non_running_worker_group, known, _get_allocated_resources. run.
  destruct (maybe_send c env (_get_num_workers_for_resource_request c) p) as (time & l & ->). cbn.
  destruct (f_ltb _ (f_of_int GET_ALLOCATED_RESOURCES_INTERVAL_S)); cbn.
  all: match goal with |- context[match ?o with Some _ => _ | None => _ end] => destruct o as [r|] end; [|done]; cbn.
  all: destruct (_count_possible_workers c env r) as [n|e]; [|done]; cbn; destruct (n <? min_workers c); [|done]; cbn; by destruct (f_leb _ _).
Qed.

(** Whether a resize is considered. *)
Definition due (c : ScalingConfig.t) (env : Env) (start_time : float) (p : t) : bool :=
  negb (f_ltb (f_sub (t_considered env)
    (if f_ltb start_time (_latest_monitor_time p) then _latest_monitor_time p else start_time))
    (elastic_resize_monitor_interval_s c)).

Lemma running_result c env start_time size p : (make_decision_for_running_worker_group c env start_time size p).1.1 =
  if due c env start_time p then
    match known env p with
    | None => Ok NoopDecision
    | Some l =>
        n ← _count_possible_workers c env l;
        Ok (if n =? size then NoopDecision else if n <? min_workers c then NoopDecision else _get_resize_decision c n)
    end
  else Ok NoopDecision.
Proof.
  unfold make_decision_for_running_worker_group, due, known, _get_allocated_resources. run.
  destruct (maybe_send c env (_get_num_workers_for_resource_request c) p) as (time & l & ->). cbn.
  destruct (f_ltb _ (elastic_resize_monitor_interval_s c)); cbn; [done|].
  destruct (f_ltb _ (f_of_int GET_ALLOCATED_RESOURCES_INTERVAL_S)); cbn.
  all: match goal with |- context[match ?o with Some _ => _ | None => _ end] => destruct o as [r|] end; [|done]; cbn.
  all: destruct (_count_possible_workers c env r) as [n|e]; [|done]; cbn; destruct (n =? size); [done|]; by destruct (n <? min_workers c).
Qed.

(** The slices a multi-host TPU training is made of. *)
Definition strict_tpu (c : ScalingConfig.t) : option (string * string) :=
  match use_tpu c, given (topology c), given (accelerator_type c) with
  | true, Some topo, Some accel => Some (topo, accel)
  | _, _, _ => None
  end.

(** The workers of a slice, when they are known. *)
Definition slice_workers (c : ScalingConfig.t) (topo accel : string) : option Z :=
  match get_tpu_worker_resources topo accel (Some (_resources_per_worker_not_none c)) 1 None with
  | Ok r => Some r.1 | Raise _ => None end.

(** The workers an allocation has the resources for, as a number. *)
Definition workers_total (c : ScalingConfig.t) (l : list ResourceDict) : result float :=
  result_fold (λ total r, n ← workers_in (_resources_per_worker_not_none c) r; Ok (f_add total n)) f_zero l.

(** A size of a TPU training is that of whole slices: of no more than are
    intact, when the cluster tells how many are.  When it raises the policy
    fails open: the slices may be broken. *)
Definition whole_slices (c : ScalingConfig.t) (env : Env) (n : Z) : Prop :=
  ∀ topo accel, strict_tpu c = Some (topo, accel) →
    match slice_workers c topo accel with
    | None | Some 0 => n = 0
    | Some w => ∃ slices, n = slices * w ∧
        match get_num_tpu_slices (is_initialized env) (nodes env) topo accel with
        | Ok intact => slices ≤ intact
        | Raise _ => True
        end
    end.

(** A size is at most the configured one, and no more than the allocation has
    resources for; workers that need nothing are as many as configured. *)
Definition allowed (c : ScalingConfig.t) (env : Env) (l : list ResourceDict) (n : Z) : Prop :=
  n ≤ max_workers c ∧
  if f_eqb (f_sum (_resources_per_worker_not_none c).*2) f_zero then n = max_workers c
  else whole_slices c env n ∧ ∃ total, (x ← workers_total c l; f_int x) = Ok total ∧ n ≤ Z.max 0 total.

(** Why a count may fail: no resource of a worker is positive, so that the
    minimum over them is one of nothing, or the total is no integer. *)
Definition uncountable (c : ScalingConfig.t) (l : list ResourceDict) (e : exn) : Prop :=
  (e = ValueError ∧ l ≠ [] ∧ ∀ kv, kv ∈ _resources_per_worker_not_none c → f_ltb f_zero kv.2 = false) ∨
  (e = ValueError ∧ workers_total c l = Ok S754_nan) ∨
  (e = OverflowError ∧ ∃ s, workers_total c l = Ok (S754_infinity s)).

Lemma num_slices_nonneg b l topo accel k : get_num_tpu_slices b l topo accel = Ok k → 0 ≤ k.
Proof.
  unfold get_num_tpu_slices. destruct (negb b); [intros [= <-]; lia|]. destruct (expected_slice topo accel) as [[p n]|]; [|intros [= <-]; lia].
  destruct l as [l|e]; [|done]. intros [= <-]. lia.
Qed.

Lemma strict_count c env topo accel total : 0 ≤ max_workers c → total ≤ max_workers c →
  (∀ w, slice_workers c topo accel = Some w → 0 ≤ w) →
  let n := _get_strict_tpu_worker_count c env topo accel total in
  n ≤ max_workers c ∧
  match slice_workers c topo accel with
  | None | Some 0 => n = 0
  | Some w => ∃ slices, n = slices * w ∧
      match get_num_tpu_slices (is_initialized env) (nodes env) topo accel with Ok k => slices ≤ k | Raise _ => True end
  end ∧ n ≤ Z.max 0 total.
Proof.
  intros Hmax Ht Hw n. unfold n, _get_strict_tpu_worker_count. revert Hw. unfold slice_workers.
  destruct (get_tpu_worker_resources _ _ _ _ _) as [[w r]|e]; cbn; [|intros _; split_and!; [done..|lia]]. intros Hw. specialize (Hw w eq_refl).
  destruct (Z.eqb_spec w 0) as [->|Hne]; cbn; [split_and!; [done..|lia]|].
  set (slices := if 0 <? total / w then _ else _).
  assert (slices ≤ total / w ∧ match get_num_tpu_slices (is_initialized env) (nodes env) topo accel with Ok k => slices ≤ k | Raise _ => True end) as [H1 H2].
  { unfold slices. destruct (get_num_tpu_slices _ _ _ _) as [k|] eqn:Hk; destruct (Z.ltb_spec 0 (total / w)); split; try done; try lia.
    apply num_slices_nonneg in Hk. lia. }
  pose proof (Z.mul_div_le total w ltac:(lia)). split; [nia|]. split; [|nia]. destruct w; [done|by exists slices|lia].
Qed.

Lemma count_allowed c env l n : 0 ≤ max_workers c →
  (∀ topo accel w, strict_tpu c = Some (topo, accel) → slice_workers c topo accel = Some w → 0 ≤ w) →
  _count_possible_workers c env l = Ok n → allowed c env l n.
Proof.
  intros Hmax Hw. unfold _count_possible_workers, allowed. fold (workers_total c l). destruct (f_eqb _ f_zero); [intros [= <-]; by split|].
  intros H. inv_ok. rewrite Hr. cbn [mbind result_bind]. rewrite Hr0.
  set (m := Z.min _ _) in *. assert (m ≤ max_workers c ∧ m ≤ r0) as [Hm1 Hm2] by lia. revert Hw. unfold strict_tpu, whole_slices, strict_tpu.
  destruct (use_tpu c); [|intros _; inv_ok; split_and!; [done|by intros|exists r0; split; [done|lia]]].
  destruct (given (topology c)) as [topo|]; [|intros _; inv_ok; split_and!; [done|by intros|exists r0; split; [done|lia]]].
  destruct (given (accelerator_type c)) as [accel|]; [|intros _; inv_ok; split_and!; [done|by intros|exists r0; split; [done|lia]]].
  intros Hw. destruct (strict_count c env topo accel m Hmax Hm1 ltac:(intros w; by apply Hw)) as (H1 & H2 & H3).
  split_and!; [done|by intros ? ? [= <- <-]|]. exists r0. split; [done|lia].
Qed.

Lemma workers_total_raises c l e : workers_total c l = Raise e →
  e = ValueError ∧ l ≠ [] ∧ ∀ kv, kv ∈ _resources_per_worker_not_none c → f_ltb f_zero kv.2 = false.
Proof.
  unfold workers_total. generalize f_zero at 1. destruct l as [|r l]; [done|].
  assert (∀ r, workers_in (_resources_per_worker_not_none c) r = Raise e →
    e = ValueError ∧ ∀ kv, kv ∈ _resources_per_worker_not_none c → f_ltb f_zero kv.2 = false) as Hin.
  { intros r0. unfold workers_in, py_min. destruct (filter _ _) as [|k q] eqn:E; cbn; [|done]. intros [= <-]. split; [done|].
    intros kv Hkv. destruct (f_ltb f_zero kv.2) eqn:El; [|done].
    assert (kv ∈ filter (λ kv : string * float, f_ltb f_zero kv.2 = true) (_resources_per_worker_not_none c)) as Hf by by apply list_elem_of_filter.
    rewrite E in Hf. by apply not_elem_of_nil in Hf. }
  generalize (r :: l) (@nil_cons _ r l). intros k _. intros x H.
  assert (k ≠ [] ∧ ∃ r, workers_in (_resources_per_worker_not_none c) r = Raise e) as [Hk [r' Hr]]; [|by destruct (Hin r' Hr)].
  revert x H. induction k as [|r0 k IH]; intros x H; cbn in H; [done|]. split; [done|].
  destruct (workers_in _ r0) as [n|e'] eqn:E; cbn in H; [by destruct (IH _ H)|]. injection H as ->. by exists r0.
Qed.

Lemma count_raises c env l e : _count_possible_workers c env l = Raise e → uncountable c l e.
Proof.
  unfold _count_possible_workers, uncountable. fold (workers_total c l). destruct (f_eqb _ _); [done|].
  destruct (workers_total c l) as [x|e'] eqn:E; cbn; [|intros [= <-]; left; by apply workers_total_raises].
  destruct (f_int x) as [n|e'] eqn:Ei; cbn; [done|]. intros [= <-]. right.
  destruct x; cbn in Ei; try done; injection Ei as <-; [right; split; [done|by eexists]|by left].
Qed.

(** What an accepted configuration satisfies. *)
Lemma accepted c0 c : __post_init__ c0 = Ok c →
  0 ≤ min_workers c ∧ min_workers c ≤ max_workers c ∧ use_gpu c && use_tpu c = false ∧
  (∀ l, label_selector c = SelectorList l → Z.of_nat (length l) = max_workers c).
Proof.
  unfold __post_init__. destruct (bool_decide _); [done|]. destruct (f_ltb _ _); [done|].
  destruct (Z.ltb_spec (min_workers c0) 0); [done|]. destruct (Z.ltb_spec (max_workers c0) (min_workers c0)); [done|].
  intros Hc. inv_ok.
  assert (num_workers r = num_workers c0 ∧ use_gpu r = use_gpu c0 ∧ use_tpu r = use_tpu c0 ∧ use_gpu c0 && use_tpu c0 = false) as (H1 & H2 & H3 & H4).
  { unfold _validate_tpu_config in Hr. destruct (use_gpu c0 && use_tpu c0); [done|].
    destruct (negb (use_tpu c0)); [destruct (f_ltb _ _); [done|]; by inv_ok|].
    destruct (f_eqb _ _); [done|]. destruct (_ && _); [done|].
    destruct (given (topology c0)) as [topo|]; [|by inv_ok]. destruct (given (accelerator_type c0)) as [accel|]; [|by inv_ok].
    destruct (get_tpu_worker_resources _ _ _ _ _) as [[w res]|]; [|done]. destruct (_ && _); [done|]. destruct (_ && _); [done|].
    inv_ok. by destruct (resources_per_worker c0). }
  assert (c = r ∧ ∀ l, label_selector r = SelectorList l → Z.of_nat (length l) = max_workers r) as [-> Hl].
  { destruct (label_selector r) as [|s|l] eqn:El; cbn in Hc.
    3: destruct (Z.eqb_spec (Z.of_nat (length l)) (max_workers r)); cbn in Hc; [|done].
    all: (split; [|by intros ? [= <-]]); unfold v1_post_init in Hc;
      destruct (resources_per_worker r) as [[|kv k]|]; try (by inv_ok); destruct (_ && _); [done|]; destruct (_ && _); [done|]; by inv_ok. }
  assert (min_workers r = min_workers c0 ∧ max_workers r = max_workers c0) as [E1 E2] by (unfold min_workers, max_workers; by rewrite H1).
  rewrite H2, H3. split_and!; [lia..|done|done].
Qed.

(** C24: Under an accepted configuration every resize the policy decides is to
    its configured resources, for at least the minimum and at most the maximum
    of workers and for no more than the allocation, which is known, has
    resources for.  Of a TPU training it is for whole slices, of those intact
    when the query of the cluster answers; when [get_num_tpu_slices] raises the
    policy fails open, and the slices are only bounded by the allocation.  A
    running group is resized only to another size and when the monitoring
    interval has passed.  The only errors are those of counting the workers of
    a known allocation: ValueError when no resource of a worker is positive, or
    the total is not a number, and OverflowError when it is infinite.  The
    condition [0 ≤ w] excludes topologies with a negative dimension, whose
    slices would have fewer than no workers. *)
Theorem elastic_decisions c0 c env p :
  __post_init__ c0 = Ok c →
  (∀ topo accel w, strict_tpu c = Some (topo, accel) → slice_workers c topo accel = Some w → 0 ≤ w) →
  let good (r : result ScalingDecision) (moves : Z → Prop) :=
    match r with
    | Ok NoopDecision => True
    | Ok (ResizeDecision n r) => r = _resources_per_worker_not_none c ∧ min_workers c ≤ n ∧
        (∃ l, known env p = Some l ∧ allowed c env l n) ∧ moves n
    | Ok PlainDecision => False
    | Raise e => ∃ l, known env p = Some l ∧ uncountable c l e
    end in
  good (make_decision_for_non_running_worker_group c env p).1.1 (λ _, True) ∧
  ∀ start_time size, good (make_decision_for_running_worker_group c env start_time size p).1.1
    (λ n, n ≠ size ∧ due c env start_time p = true).
Proof.
  intros (H0 & H1 & _)%accepted Hw good.
  assert (∀ l n, _count_possible_workers c env l = Ok n → allowed c env l n) as Hok by (intros l n; apply count_allowed; [lia|done]).
  unfold good. split.
  - rewrite non_running_result. destruct (known env p) as [l|]; [|done].
    destruct (_count_possible_workers c env l) as [n|e] eqn:E; cbn; [|exists l; split; [done|by eapply count_raises]].
    destruct (Z.ltb_spec n (min_workers c)); cbn; [done|]. split_and!; [done|done|exists l; split; [done|by apply Hok]|done].
  - intros start_time size. rewrite running_result. destruct (due c env start_time p); [|done]. destruct (known env p) as [l|]; [|done].
    destruct (_count_possible_workers c env l) as [n|e] eqn:E; cbn; [|exists l; split; [done|by eapply count_raises]].
    destruct (Z.eqb_spec n size); [done|]. destruct (Z.ltb_spec n (min_workers c)); cbn; [done|].
    split_and!; [done|done|exists l; split; [done|by apply Hok]|done|done].
Qed.

(** ** The pace of the calls *)

(** The decisions of a training, each with what it finds. *)
Inductive decision : Type :=
  | NonRunning (env : Env)
  | Running (env : Env) (start_time : float) (size : Z).

Definition decide_one (c : ScalingConfig.t) (d : decision) : M ScalingDecision :=
  match d with
  | NonRunning env => make_decision_for_non_running_worker_group c env
  | Running env start_time size => make_decision_for_running_worker_group c env start_time size
  end.

(** The policy and the calls after some decisions; one that raises ends that
    decision only. *)
Fixpoint decide_all (c : ScalingConfig.t) (l : list decision) (p : t) : t * list call :=
  match l with
  | [] => (p, [])
  | d :: l => let r := decide_one c d p in let s := decide_all c l r.1.2 in (s.1, r.2 ++ s.2)
  end.

Definition is_query (x : call) : bool :=
  match message x with DefaultAutoscalingCoordinator.GetAllocatedResources => true | _ => false end.
Definition is_request (x : call) : bool :=
  match message x with DefaultAutoscalingCoordinator.RequestResources _ _ _ _ _ _ => true | _ => false end.

(** Each call of a kind starts an interval after the end of the last one that counts. *)
Fixpoint paced (kind counts : call → bool) (interval : Z) (last : float) (l : list call) : Prop :=
  match l with
  | [] => True
  | x :: l =>
      (kind x = true → f_ltb (f_sub (started x) last) (f_of_int interval) = false) ∧
      paced kind counts interval (if counts x then finished x else last) l
  end.

Definition last_end (counts : call → bool) (last : float) (l : list call) : float :=
  foldl (λ last x, if counts x then finished x else last) last l.

Lemma paced_app kind counts interval last l k :
  paced kind counts interval last (l ++ k) ↔
  paced kind counts interval last l ∧ paced kind counts interval (last_end counts last l) k.
Proof. revert last. induction l as [|x l IH]; intros last; cbn; [tauto|]. rewrite IH. tauto. Qed.

Definition renewed (x : call) : bool := is_request x && answered x.

(** An operation asks for the allocation and renews the request in time, and
    records when. *)
Definition keeps_pace {A} (m : M A) : Prop := ∀ p,
  paced is_query is_query GET_ALLOCATED_RESOURCES_INTERVAL_S (_latest_allocated_resources_query_time p) (m p).2 ∧
  last_end is_query (_latest_allocated_resources_query_time p) (m p).2 = _latest_allocated_resources_query_time (m p).1.2 ∧
  paced is_request renewed AUTOSCALING_REQUESTS_INTERVAL_S (_latest_autoscaling_request_time p) (m p).2 ∧
  last_end renewed (_latest_autoscaling_request_time p) (m p).2 = _latest_autoscaling_request_time (m p).1.2.

Lemma pace_bind {A B} (m : M A) (f : A → M B) : keeps_pace m → (∀ a, keeps_pace (f a)) → keeps_pace (m ≫= f).
Proof.
  intros Hm Hf p. run. specialize (Hm p). destruct (m p) as [[[a|e] q] l]; cbn in *; [|done].
  specialize (Hf a q). unfold last_end in *. rewrite !paced_app, !foldl_app. unfold last_end. destruct Hm as (H1 & -> & H2 & ->). by destruct Hf as (? & ? & ? & ?).
Qed.

Lemma pace_ret {A} (a : A) : keeps_pace (mret a).
Proof. by intros p. Qed.
Lemma pace_lift {A} (r : result A) : keeps_pace (lift r).
Proof. by intros p. Qed.
Lemma pace_get : keeps_pace get.
Proof. by intros p. Qed.
Lemma pace_monitor time : keeps_pace (update (set_monitor_time time)).
Proof. by intros p. Qed.
Lemma pace_warning time : keeps_pace (update (set_warning_time time)).
Proof. by intros p. Qed.

Lemma pace_send c env n : keeps_pace (_maybe_send_resource_request c env n).
Proof.
  intros p. unfold _maybe_send_resource_request, _send_resource_request. run.
  destruct (f_ltb _ _) eqn:E; cbn; [done|]. unfold renewed. destruct (acknowledged env); cbn; by rewrite E.
Qed.

Lemma pace_query env : keeps_pace (_get_allocated_resources env).
Proof.
  intros p. unfold _get_allocated_resources. run. destruct (f_ltb _ _) eqn:E; cbn; [done|]. by rewrite E.
Qed.

Create HintDb pace.
#[local] Hint Resolve pace_bind pace_ret pace_lift pace_get pace_monitor pace_warning pace_send pace_query : pace.

Lemma decision_paced c d : keeps_pace (decide_one c d).
Proof.
  destruct d as [env|env start_time size]; cbn [decide_one];
    unfold make_decision_for_non_running_worker_group, make_decision_for_running_worker_group.
  all: repeat first [apply pace_bind; [eauto with pace|intros ?]|case_match|solve [eauto with pace]].
Qed.

Lemma decide_all_paced c l : ∀ p,
  paced is_query is_query GET_ALLOCATED_RESOURCES_INTERVAL_S (_latest_allocated_resources_query_time p) (decide_all c l p).2 ∧
  paced is_request renewed AUTOSCALING_REQUESTS_INTERVAL_S (_latest_autoscaling_request_time p) (decide_all c l p).2.
Proof.
  induction l as [|d l IH]; intros p; cbn; [done|]. destruct (decision_paced c d p) as (H1 & H2 & H3 & H4).
  rewrite !paced_app, H2, H4. by destruct (IH (decide_one c d p).1.2).
Qed.

(** Two calls of a paced log, with none that counts between them. *)
Lemma paced_pair kind counts interval last l1 a l2 b l3 :
  paced kind counts interval last (l1 ++ a :: l2 ++ b :: l3) → counts a = true → kind b = true →
  Forall (λ x, counts x = false) l2 → f_ltb (f_sub (started b) (finished a)) (f_of_int interval) = false.
Proof.
  rewrite paced_app. cbn. intros (_ & _ & H) Ha Hb Hl. rewrite Ha, paced_app in H. destruct H as [_ [H _]].
  assert (last_end counts (finished a) l2 = finished a) as E; [|rewrite E in H; by apply H].
  clear -Hl. induction Hl as [|x l Hx _ IH]; [done|]. cbn. by rewrite Hx.
Qed.

(** C26: However often the controller asks for decisions, the policy asks the
    coordinator for its allocation only a second after the last answer or
    error, and sends a request only twenty seconds after the last one that was
    acknowledged. *)
Theorem calls_paced c l p l1 a l2 b l3 :
  (decide_all c l p).2 = l1 ++ a :: l2 ++ b :: l3 →
  (is_query a = true → is_query b = true → Forall (λ x, is_query x = false) l2 →
     f_ltb (f_sub (started b) (finished a)) (f_of_int GET_ALLOCATED_RESOURCES_INTERVAL_S) = false) ∧
  (is_request a = true → answered a = true → is_request b = true → Forall (λ x, is_request x && answered x = false) l2 →
     f_ltb (f_sub (started b) (finished a)) (f_of_int AUTOSCALING_REQUESTS_INTERVAL_S) = false).
Proof.
  intros Hl. destruct (decide_all_paced c l p) as [H1 H2]. rewrite Hl in H1, H2. split.
  - intros Ha Hb Hno. by eapply paced_pair.
  - intros Ha Ha' Hb Hno. eapply (paced_pair is_request renewed); [exact H2|unfold renewed; by rewrite Ha, Ha'|done|done].
Qed.

(** ** The policy and the coordinator *)





Section registered.
Variable send : list ResourceDict → option (list selector) → result unit.
Variable clock : nat → float.
Variable c : ScalingConfig.t.
Variable nodes0 : list Node.
Variable x : AutoscalingCoordinator.t.
Variable id : string.
Hypothesis reachable : rtc step (AutoscalingCoordinator.init nodes0) x.
Hypothesis fresh : dget (AutoscalingCoordinator._ongoing_reqs x) id = None.
Hypothesis sends : ∀ l s, send l s = Ok tt.
Hypothesis positive : 0 ≤ max_workers c.
Hypothesis parallel : ∀ l, label_selector c = SelectorList l → Z.of_nat (length l) = max_workers c.



End registered.


(** ** At concrete inputs *)
Module ElasticRun.
Import CoordRun (cpus, node, accept, at_time).

(** Between some workers and three, of one CPU each. *)
Definition config (min_workers : Z) : ScalingConfig.t := {|
  num_workers := Between min_workers 3; trainer_resources := None; use_gpu := false; use_tpu := false;
  resources_per_worker := None; accelerator_type := None; topology := None; label_selector := OneSelector ∅;
  elastic_resize_monitor_interval_s := f_of_int 60 |}.

(** All goes well at a time. *)
Definition at_ (n : Z) (l : list ResourceDict) : Env := {|
  t_request := f_of_int n; t_requested := f_of_int n; t_considered := f_of_int n; t_query := f_of_int n;
  t_queried := f_of_int n; t_warning := f_of_int n; acknowledged := true; allocated := Some l;
  is_initialized := true; nodes := Ok [] |}.

Lemma config_accepted : __post_init__ (config 1) = Ok (config 1).
Proof. reflexivity. Qed.


Lemma known_first l id : known (at_ 0 l) (create id) = Some l.
Proof. reflexivity. Qed.

Lemma elastic_decisions_witness :
  (make_decision_for_non_running_worker_group (config 1) (at_ 0 [cpus 2]) (create "train-a")).1.1 =
    Ok (ResizeDecision 2 [("CPU", f_one)]) ∧
  allowed (config 1) (at_ 0 [cpus 2]) [cpus 2] 2.
Proof.
  assert ((make_decision_for_non_running_worker_group (config 1) (at_ 0 [cpus 2]) (create "train-a")).1.1 =
    Ok (ResizeDecision 2 [("CPU", f_one)])) as H by (vm_compute; reflexivity).
  split; [exact H|].
  destruct (elastic_decisions (config 1) (config 1) (at_ 0 [cpus 2]) (create "train-a") config_accepted) as [Hd _]; [discriminate|].
  rewrite H in Hd. destruct Hd as (_ & _ & (l & Hl & Ha) & _). rewrite known_first in Hl. injection Hl as <-. exact Ha.
Defined.

Lemma calls_paced_witness : ∃ a b l1,
  (decide_all (config 1) [NonRunning (at_ 0 []); NonRunning (at_ 2 [cpus 1])] (create "train-a")).2 = l1 ++ a :: [] ++ b :: [] ∧
  f_ltb (f_sub (started b) (finished a)) (f_of_int 1) = false.
Proof.
  eexists _, _, [_]. assert (∀ (A B C : Prop), A → (A → B) → A ∧ B) as Hand by tauto. apply Hand; [exact True|vm_compute; reflexivity|].
  intros H. refine (proj1 (calls_paced _ _ _ _ _ _ _ _ H) _ _ _); [reflexivity|reflexivity|constructor].
Defined.


(** A worker of no positive resource is accepted, and its workers cannot be
    counted once an allocation is known. *)
Definition negative : ScalingConfig.t := {|
  num_workers := Between 1 3; trainer_resources := None; use_gpu := false; use_tpu := false;
  resources_per_worker := Some [("CPU", f_of_int (-1))]; accelerator_type := None; topology := None;
  label_selector := OneSelector ∅; elastic_resize_monitor_interval_s := f_of_int 60 |}.
Lemma negative_uncounted : __post_init__ negative = Ok negative ∧
  (make_decision_for_non_running_worker_group negative (at_ 0 [cpus 2]) (create "train-a")).1.1 = Raise ValueError.
Proof. split; vm_compute; reflexivity. Qed.

(** Training on slices of four hosts, and the bundles of one slice: where the
    cluster has no intact slice nothing starts; where it does not answer the
    training starts. *)
Definition on_slices : ScalingConfig.t := {|
  num_workers := Between 4 8; trainer_resources := None; use_gpu := false; use_tpu := true;
  resources_per_worker := Some [("CPU", f_one); ("TPU", f_of_int 4)]; accelerator_type := Some "TPU-V6E"; topology := Some "4x4";
  label_selector := OneSelector ∅; elastic_resize_monitor_interval_s := f_of_int 60 |}.
Definition hosts (k : nat) (answer : result (list Node)) : Env :=
  let env := at_ 0 (replicate k (list_to_map (_resources_per_worker_not_none on_slices))) in {|
  t_request := t_request env; t_requested := t_requested env; t_considered := t_considered env; t_query := t_query env;
  t_queried := t_queried env; t_warning := t_warning env; acknowledged := true; allocated := allocated env;
  is_initialized := true; nodes := answer |}.
Lemma slices_fail_open : __post_init__ on_slices = Ok on_slices ∧
  (make_decision_for_non_running_worker_group on_slices (hosts 4 (Ok [])) (create "train-a")).1.1 = Ok NoopDecision ∧
  (make_decision_for_non_running_worker_group on_slices (hosts 4 (Raise RayError)) (create "train-a")).1.1 =
    Ok (ResizeDecision 4 (_resources_per_worker_not_none on_slices)).
Proof. split_and!; vm_compute; reflexivity. Qed.

(** With a minimum of no workers, the policy does not wait for the first
    allocation: it starts a group of none. *)
Theorem starts_no_workers :
  __post_init__ (config 0) = Ok (config 0) ∧
  (make_decision_for_non_running_worker_group (config 0) (at_ 0 []) (create "train-a")).1.1 =
    Ok (ResizeDecision 0 [("CPU", f_one)]).
Proof. split; vm_compute; reflexivity. Qed.
End ElasticRun.
