(* ===== verification/ServeAutoscaling.v ===== *)
(** * Ray Serve: autoscaling decisions

    [ray/serve/autoscaling_policy.py], the autoscaling configuration of
    [serve/config.py], [serve/_private/gang_scheduling_autoscaling_policy.py]
    and the states of deployments, of applications and of the controller in
    [serve/_private/autoscaling_state.py]: how many replicas a deployment is
    to have, from the requests its replicas and handles report.  Requests are
    summed as the reports aggregate them; the aggregation at the controller is
    not modelled.  A policy of the user is a function of its context. *)
From S2P Require Import Prelude PyDict PyFloat.

(** A number of replicas a policy wants: Python's [int] or [float]. *)
Inductive number : Type :=
  | Int (n : Z)
  | Float (x : float).

(** [math.ceil] *)
Definition ceil (n : number) : result Z := match n with Int n => Ok n | Float x => f_ceil x end.

(** ** Identifiers *)
Record DeploymentID : Type := { name : string; app_name : string }.
Record ReplicaID : Type := { unique_id : string; deployment_id : DeploymentID }.

#[export] Instance DeploymentID_eq_dec : EqDecision DeploymentID.
Proof. solve_decision. Defined.
#[export] Instance ReplicaID_eq_dec : EqDecision ReplicaID.
Proof. solve_decision. Defined.

Definition REPLICA_ID_FULL_ID_STR_PREFIX : string := "SERVE_REPLICA::".

Definition to_full_id_str (r : ReplicaID) : string :=
  let s := name (deployment_id r) +:+ "#" +:+ unique_id r in
  REPLICA_ID_FULL_ID_STR_PREFIX +:+
    (if bool_decide (app_name (deployment_id r) = "") then s else app_name (deployment_id r) +:+ "#" +:+ s).

(** ** Configuration *)
Module AutoscalingConfig.
Record t : Type := {
  min_replicas : Z;
  initial_replicas : option Z;
  max_replicas : Z;
  target_ongoing_requests : option float;
  metrics_interval_s : float;
  smoothing_factor : float;
  upscale_smoothing_factor : option float;
  downscale_smoothing_factor : option float;
  upscaling_factor : option float;
  downscaling_factor : option float;
  downscale_delay_s : float;
  downscale_to_zero_delay_s : option float;
  upscale_delay_s : float
}.

(** [a or b] *)
Definition truthy (x : option float) : option float :=
  match x with Some x => if f_eqb x f_zero then None else Some x | None => None end.

Definition get_upscaling_factor (c : t) : float :=
  match truthy (upscaling_factor c) with
  | Some x => x | None => default (smoothing_factor c) (truthy (upscale_smoothing_factor c)) end.
Definition get_downscaling_factor (c : t) : float :=
  match truthy (downscaling_factor c) with
  | Some x => x | None => default (smoothing_factor c) (truthy (downscale_smoothing_factor c)) end.

Definition replicas_settings_valid (c : t) : result t :=
  if max_replicas c <? min_replicas c then Raise ValueError
  else match initial_replicas c with
       | Some n => if n <? min_replicas c then Raise ValueError
                   else if max_replicas c <? n then Raise ValueError else Ok c
       | None => Ok c
       end.
End AutoscalingConfig.
Import AutoscalingConfig.

Section serve.
(** The values a policy of the user keeps in its state. *)
Context {U : Type}.

(** A policy's state: the two keys of the framework, and the user's own. *)
Record policy_state : Type := {
  decision_counters : option Z;
  decision_timestamp : option (option float);
  custom : dict string U
}.
Definition no_state : policy_state := {| decision_counters := None; decision_timestamp := None; custom := [] |}.

(** What a policy is told; [total_num_requests] is read lazily, but does not
    change during a decision. *)
Record AutoscalingContext : Type := {
  current_num_replicas : Z;
  target_num_replicas : Z;
  running_replicas : list ReplicaID;
  total_num_requests : float;
  total_queued_requests : float;
  capacity_adjusted_min_replicas : Z;
  capacity_adjusted_max_replicas : Z;
  state : policy_state;
  last_scale_up_time : option float;
  last_scale_down_time : option float;
  current_time : float;
  config : AutoscalingConfig.t;
  total_pending_async_requests : Z
}.

(** ** Scaling factors and delays *)
Definition _DELAY_ELAPSED_EPS_S : float := f_div f_one (f_of_int 1000000).

Definition _apply_scaling_factors (desired_num_replicas : number) (current : Z) (c : AutoscalingConfig.t) : result Z :=
  if current =? 0 then ceil desired_num_replicas
  else
    let replicas_delta := match desired_num_replicas with
      | Int n => Int (n - current) | Float x => Float (f_sub x (f_of_int current)) end in
    let up := match replicas_delta with Int n => 0 <? n | Float x => f_gt_int x 0 end in
    let scaling_factor := if up then get_upscaling_factor c else get_downscaling_factor c in
    let delta := match replicas_delta with Int n => f_of_int n | Float x => x end in
    scaled_num_replicas ← f_ceil (f_add (f_of_int current) (f_mul scaling_factor delta));
    wanted ← f_ceil (match desired_num_replicas with Int n => f_of_int n | Float x => x end);
    Ok (if (wanted <? current) && (scaled_num_replicas =? current) then scaled_num_replicas - 1 else scaled_num_replicas).

(** The wait since [since] has reached the delay. *)
Definition elapsed (now since delay_s : float) : bool :=
  f_leb delay_s (f_add (f_sub now since) _DELAY_ELAPSED_EPS_S).

Definition set_decision (counter : Z) (timestamp : option float) (s : policy_state) : policy_state :=
  {| decision_counters := Some counter; decision_timestamp := Some timestamp; custom := custom s |}.

Definition _apply_delay_logic (desired target : Z) (c : AutoscalingConfig.t) (s : policy_state) (now : float) :
    Z * policy_state :=
  let counter := default 0 (decision_counters s) in
  let timestamp := default None (decision_timestamp s) in
  if target <? desired then
    let p := if counter <? 0 then (0, None) else (counter, timestamp) in
    let counter := p.1 + 1 in
    let since := default now p.2 in
    if elapsed now since (upscale_delay_s c) then (desired, set_decision 0 None s)
    else (target, set_decision counter (Some since) s)
  else if desired <? target then
    let p := if 0 <? counter then (0, None) else (counter, timestamp) in
    let counter := p.1 - 1 in
    let delay_s := if target =? 1 then default (downscale_delay_s c) (downscale_to_zero_delay_s c)
                   else downscale_delay_s c in
    let desired := if target =? 1 then desired else Z.max 1 desired in
    let since := default now p.2 in
    if elapsed now since delay_s then (desired, set_decision 0 None s)
    else (target, set_decision counter (Some since) s)
  else (target, set_decision 0 None s).

Definition _apply_default_params (desired : number) (ctx : AutoscalingContext) (s : policy_state) (now : float) :
    result (Z * policy_state) :=
  desired ← _apply_scaling_factors desired (current_num_replicas ctx) (config ctx);
  Ok (if (current_num_replicas ctx =? 0) && (0 <? desired) then (desired, s)
      else _apply_delay_logic (Z.max 0 desired) (target_num_replicas ctx) (config ctx) s now).

Definition _extract_internal_policy_state (s : policy_state) : policy_state := {|
  decision_counters := Some (default 0 (decision_counters s));
  decision_timestamp := Some (default None (decision_timestamp s));
  custom := [] |}.

(** [a.update(b)] *)
Definition state_update (a b : policy_state) : policy_state := {|
  decision_counters := match decision_counters b with Some n => Some n | None => decision_counters a end;
  decision_timestamp := match decision_timestamp b with Some x => Some x | None => decision_timestamp a end;
  custom := dupdate (custom a) (custom b) |}.

Definition _apply_default_params_and_merge_state (s user_policy_state : policy_state) (desired : number)
    (ctx : AutoscalingContext) (now : float) : result (Z * policy_state) :=
  r ← _apply_default_params desired ctx (_extract_internal_policy_state s) now;
  Ok (r.1, state_update user_policy_state r.2).

Definition _merge_user_state_with_internal_state (s user_policy_state : policy_state) : policy_state :=
  state_update user_policy_state (_extract_internal_policy_state s).

Definition _get_cold_start_scale_up_replicas (ctx : AutoscalingContext) : result (option Z) :=
  if (current_num_replicas ctx =? 0) && f_ltb f_zero (total_num_requests ctx) then
    n ← f_ceil (get_upscaling_factor (config ctx)); Ok (Some (Z.max n (target_num_replicas ctx)))
  else Ok None.

(** ** Policies *)
Definition user_policy : Type := AutoscalingContext → result (number * policy_state).
Definition policy : Type := AutoscalingContext → float → result (Z * policy_state).

Definition _apply_autoscaling_config (policy_func : user_policy) : policy := λ ctx now,
  cold_start_replicas ← _get_cold_start_scale_up_replicas ctx;
  match cold_start_replicas with
  | Some n => Ok (n, state ctx)
  | None =>
      r ← policy_func ctx;
      _apply_default_params_and_merge_state (state ctx) r.2 r.1 ctx now
  end.

Definition _core_replica_queue_length_policy : user_policy := λ ctx,
  if current_num_replicas ctx =? 0 then Ok (Int (target_num_replicas ctx), no_state)
  else
    target_ongoing_requests ← or_raise TypeError (target_ongoing_requests (config ctx));
    let n := f_of_int (current_num_replicas ctx) in
    let target_num_requests := f_mul target_ongoing_requests n in
    if f_eqb target_num_requests f_zero then Raise ZeroDivisionError
    else Ok (Float (f_mul n (f_div (total_num_requests ctx) target_num_requests)), no_state).

Definition replica_queue_length_autoscaling_policy : user_policy := λ ctx,
  cold_start_replicas ← _get_cold_start_scale_up_replicas ctx;
  match cold_start_replicas with
  | Some n => Ok (Int n, state ctx)
  | None => _core_replica_queue_length_policy ctx
  end.

(** [GangSchedulingAutoscalingPolicy.__call__] *)
Definition gang_policy (gang_size : Z) (base : policy) : policy := λ ctx now,
  r ← base ctx now;
  if (1 <? gang_size) && (0 <? r.1) then
    gangs ← f_ceil (f_div (f_of_int r.1) (f_of_int gang_size)); Ok (gangs * gang_size, r.2)
  else Ok r.

(** *** Policies of an application *)
Definition app_user_policy : Type :=
  dict DeploymentID AutoscalingContext → result (dict DeploymentID number * option (dict DeploymentID policy_state)).

(** The decision for one deployment, added to the decisions and the states;
    [now id] is the reading of the clock for the delays of [id]. *)
Definition decide_deployment (desired : dict DeploymentID number) (updated : dict DeploymentID policy_state)
    (now : DeploymentID → float) (acc : dict DeploymentID Z * dict DeploymentID policy_state)
    (p : DeploymentID * AutoscalingContext) : result (dict DeploymentID Z * dict DeploymentID policy_state) :=
  let ctx := p.2 in
  let user := default no_state (dget updated p.1) in
  let kept := _merge_user_state_with_internal_state (state ctx) user in
  match dget desired p.1 with
  | None => Ok (acc.1, dset acc.2 p.1 kept)
  | Some wanted =>
      cold_start_replicas ← _get_cold_start_scale_up_replicas ctx;
      match cold_start_replicas with
      | Some n => Ok (dset acc.1 p.1 n, dset acc.2 p.1 kept)
      | None =>
          r ← _apply_default_params_and_merge_state (state ctx) user wanted ctx (now p.1);
          Ok (dset acc.1 p.1 r.1, dset acc.2 p.1 r.2)
      end
  end.

Definition _apply_app_level_autoscaling_config (policy_func : app_user_policy)
    (contexts : dict DeploymentID AutoscalingContext) (now : DeploymentID → float) :
    result (dict DeploymentID Z * dict DeploymentID policy_state) :=
  r ← policy_func contexts;
  result_fold (decide_deployment r.1 (default [] r.2) now) ([], []) contexts.

(** ** Reports *)
Definition RUNNING_REQUESTS_KEY : string := "running_requests".

Inductive DeploymentHandleSource : Type := UNKNOWN | PROXY | REPLICA.

Record ReplicaMetricReport : Type := {
  replica_id : ReplicaID;
  replica_aggregated_metrics : dict string float;
  replica_timestamp : float
}.
Record HandleMetricReport : Type := {
  handle_deployment_id : DeploymentID;
  handle_id : string;
  actor_id : option string;
  handle_source : DeploymentHandleSource;
  aggregated_queued_requests : float;
  handle_aggregated_metrics : dict string (dict string float);
  handle_timestamp : float
}.

Definition is_serve_component_source (h : HandleMetricReport) : bool :=
  match handle_source h with PROXY | REPLICA => true | UNKNOWN => false end.

(** ** One deployment *)
Inductive TargetCapacityDirection : Type := UP | DOWN.

(** What is registered of a deployment. *)
Record DeploymentInfo : Type := {
  autoscaling_config : option AutoscalingConfig.t;
  policy_function : user_policy;
  gang_size : option Z;
  target_capacity : option float;
  target_capacity_direction : option TargetCapacityDirection
}.

Record DeploymentAutoscalingState : Type := {
  _handle_requests : dict string HandleMetricReport;
  _replica_metrics : dict ReplicaID ReplicaMetricReport;
  _total_pending_async_requests : Z;
  _deployment_info : option (DeploymentInfo * AutoscalingConfig.t);
  _policy_state : option policy_state;
  _running_replicas : list ReplicaID;
  _last_scale_up_time : option float;
  _last_scale_down_time : option float
}.

Definition init : DeploymentAutoscalingState := {|
  _handle_requests := []; _replica_metrics := []; _total_pending_async_requests := 0; _deployment_info := None;
  _policy_state := None; _running_replicas := []; _last_scale_up_time := None; _last_scale_down_time := None |}.

Implicit Types (x : DeploymentAutoscalingState).

Definition set_handles (l : dict string HandleMetricReport) x : DeploymentAutoscalingState := {|
  _handle_requests := l; _replica_metrics := _replica_metrics x;
  _total_pending_async_requests := _total_pending_async_requests x; _deployment_info := _deployment_info x;
  _policy_state := _policy_state x; _running_replicas := _running_replicas x;
  _last_scale_up_time := _last_scale_up_time x; _last_scale_down_time := _last_scale_down_time x |}.
Definition set_metrics (l : dict ReplicaID ReplicaMetricReport) x : DeploymentAutoscalingState := {|
  _handle_requests := _handle_requests x; _replica_metrics := l;
  _total_pending_async_requests := _total_pending_async_requests x; _deployment_info := _deployment_info x;
  _policy_state := _policy_state x; _running_replicas := _running_replicas x;
  _last_scale_up_time := _last_scale_up_time x; _last_scale_down_time := _last_scale_down_time x |}.
Definition set_registered (info : DeploymentInfo) (c : AutoscalingConfig.t) x : DeploymentAutoscalingState := {|
  _handle_requests := _handle_requests x; _replica_metrics := _replica_metrics x;
  _total_pending_async_requests := _total_pending_async_requests x; _deployment_info := Some (info, c);
  _policy_state := Some no_state; _running_replicas := _running_replicas x;
  _last_scale_up_time := _last_scale_up_time x; _last_scale_down_time := _last_scale_down_time x |}.
Definition set_policy_state (s : policy_state) x : DeploymentAutoscalingState := {|
  _handle_requests := _handle_requests x; _replica_metrics := _replica_metrics x;
  _total_pending_async_requests := _total_pending_async_requests x; _deployment_info := _deployment_info x;
  _policy_state := Some s; _running_replicas := _running_replicas x;
  _last_scale_up_time := _last_scale_up_time x; _last_scale_down_time := _last_scale_down_time x |}.

Definition update_running_replica_ids (l : list ReplicaID) x : DeploymentAutoscalingState := {|
  _handle_requests := _handle_requests x; _replica_metrics := _replica_metrics x;
  _total_pending_async_requests := _total_pending_async_requests x; _deployment_info := _deployment_info x;
  _policy_state := _policy_state x; _running_replicas := l;
  _last_scale_up_time := _last_scale_up_time x; _last_scale_down_time := _last_scale_down_time x |}.
Definition record_scale_up (now : float) x : DeploymentAutoscalingState := {|
  _handle_requests := _handle_requests x; _replica_metrics := _replica_metrics x;
  _total_pending_async_requests := _total_pending_async_requests x; _deployment_info := _deployment_info x;
  _policy_state := _policy_state x; _running_replicas := _running_replicas x;
  _last_scale_up_time := Some now; _last_scale_down_time := _last_scale_down_time x |}.
Definition record_scale_down (now : float) x : DeploymentAutoscalingState := {|
  _handle_requests := _handle_requests x; _replica_metrics := _replica_metrics x;
  _total_pending_async_requests := _total_pending_async_requests x; _deployment_info := _deployment_info x;
  _policy_state := _policy_state x; _running_replicas := _running_replicas x;
  _last_scale_up_time := _last_scale_up_time x; _last_scale_down_time := Some now |}.
Definition record_async_inference_task_queue_metrics (queue_length : Z) x : DeploymentAutoscalingState := {|
  _handle_requests := _handle_requests x; _replica_metrics := _replica_metrics x;
  _total_pending_async_requests := queue_length; _deployment_info := _deployment_info x;
  _policy_state := _policy_state x; _running_replicas := _running_replicas x;
  _last_scale_up_time := _last_scale_up_time x; _last_scale_down_time := _last_scale_down_time x |}.

Definition on_replica_stopped (id : ReplicaID) x : DeploymentAutoscalingState := set_metrics (ddel (_replica_metrics x) id) x.

(** Reports may arrive late: an older one than that kept is dropped. *)
Definition record_request_metrics_for_replica (r : ReplicaMetricReport) x : DeploymentAutoscalingState :=
  if match dget (_replica_metrics x) (replica_id r) with
     | None => true | Some old => f_ltb (replica_timestamp old) (replica_timestamp r) end
  then set_metrics (dset (_replica_metrics x) (replica_id r) r) x else x.
Definition record_request_metrics_for_handle (r : HandleMetricReport) x : DeploymentAutoscalingState :=
  if match dget (_handle_requests x) (handle_id r) with
     | None => true | Some old => f_ltb (handle_timestamp old) (handle_timestamp r) end
  then set_handles (dset (_handle_requests x) (handle_id r) r) x else x.

(** [max(2 * metrics_interval_s, RAY_SERVE_MIN_HANDLE_METRICS_TIMEOUT_S)] *)
Definition handle_timeout (c : AutoscalingConfig.t) (min_timeout : float) : float :=
  let twice := f_mul (f_of_int 2) (metrics_interval_s c) in
  if f_ltb twice min_timeout then min_timeout else twice.

Definition stale (c : AutoscalingConfig.t) (min_timeout : float) (alive : list string) (now : float) (h : HandleMetricReport) : bool :=
  (is_serve_component_source h && match actor_id h with Some a => bool_decide (a ∉ alive) | None => false end) ||
  f_leb (handle_timeout c min_timeout) (f_sub now (handle_timestamp h)).

(** [now id] is the reading of the clock for the handle [id]. *)
Definition drop_stale_handle_metrics (min_timeout : float) (alive : list string) (now : string → float) x :
    result DeploymentAutoscalingState :=
  p ← or_raise AttributeError (_deployment_info x);
  Ok (set_handles (filter (λ h : string * HandleMetricReport, stale p.2 min_timeout alive (now h.1) h.2 = false) (_handle_requests x)) x).

(** *** Requests *)

(** [_cached_running_replica_strs] *)
Definition is_running x (id : string) : bool := bool_decide (id ∈ map to_full_id_str (_running_replicas x)).

(** The requests replicas report as running, of those that run. *)
Definition replica_running_requests x : float :=
  foldl f_add f_zero (omap (λ r : ReplicaID * ReplicaMetricReport,
    if is_running x (to_full_id_str (replica_id r.2)) then Some (default f_zero (dget (replica_aggregated_metrics r.2) RUNNING_REQUESTS_KEY)) else None) (_replica_metrics x)).

(** What a handle adds to the total. *)
Definition add_handle x (on_replicas : bool) (total : float) (h : string * HandleMetricReport) : float :=
  let total := f_add total (aggregated_queued_requests h.2) in
  if on_replicas then total
  else foldl f_add total (omap (λ r : string * float,
      if is_running x r.1 then Some r.2 else None)
    (default [] (dget (handle_aggregated_metrics h.2) RUNNING_REQUESTS_KEY))).

Definition _calculate_total_requests_simple_mode x : float :=
  let total_requests := replica_running_requests x in
  foldl (add_handle x (f_ltb f_zero total_requests)) total_requests (_handle_requests x).

Definition _get_queued_requests x : float :=
  f_sum (map (λ h : string * HandleMetricReport, aggregated_queued_requests h.2) (_handle_requests x)).

(** *** Bounds *)

(** [Decimal(n * target_capacity) / Decimal(100.0)], rounded half up.  The
    division's 28 digits decide a half as the exact quotient of a float does. *)
Definition percent_half_up (x : float) : result Z :=
  match x with
  | S754_zero _ => Ok 0
  | S754_infinity _ => Raise OverflowError
  | S754_nan => Raise ValueError
  | S754_finite s m e =>
      let n := if 0 <=? e then (2 * (Z.pos m * 2 ^ e) + 100) / 200
               else (2 * Z.pos m + 100 * 2 ^ (- e)) / (200 * 2 ^ (- e)) in
      Ok (if s then - n else n)
  end.

Definition get_capacity_adjusted_num_replicas (num_replicas : Z) (target_capacity : option float) : result Z :=
  match target_capacity with
  | None => Ok num_replicas
  | Some t =>
      if f_eqb t (f_of_int 100) then Ok num_replicas
      else if f_eqb t f_zero || (num_replicas =? 0) then Ok 0
      else n ← percent_half_up (f_mul (f_of_int num_replicas) t); Ok (Z.max 1 n)
  end.

Definition get_num_replicas_lower_bound (info : DeploymentInfo) (c : AutoscalingConfig.t) : result Z :=
  match initial_replicas c, target_capacity_direction info with
  | Some n, Some UP => get_capacity_adjusted_num_replicas n (target_capacity info)
  | _, _ => get_capacity_adjusted_num_replicas (min_replicas c) (target_capacity info)
  end.
Definition get_num_replicas_upper_bound (info : DeploymentInfo) (c : AutoscalingConfig.t) : result Z :=
  get_capacity_adjusted_num_replicas (max_replicas c) (target_capacity info).

Definition bounded (info : DeploymentInfo) (c : AutoscalingConfig.t) (num_replicas : Z) : result Z :=
  lower ← get_num_replicas_lower_bound info c;
  upper ← get_num_replicas_upper_bound info c;
  Ok (Z.max lower (Z.min upper num_replicas)).

Definition apply_bounds (num_replicas : Z) x : result Z :=
  p ← or_raise AttributeError (_deployment_info x); bounded p.1 p.2 num_replicas.

Definition is_within_bounds (n : Z) x : result bool := m ← apply_bounds n x; Ok (m =? n).

(** *** Registration and decisions *)

(** [changed] is what [config_changed] says of the information registered before. *)
Definition register (info : DeploymentInfo) (changed : bool) (curr_target_num_replicas : Z) x :
    result Z * DeploymentAutoscalingState :=
  match autoscaling_config info with
  | None => (Raise ValueError, x)
  | Some c =>
      let target := match initial_replicas c with
        | Some n => if bool_decide (_deployment_info x = None) || changed then n else curr_target_num_replicas
        | None => curr_target_num_replicas
        end in
      let x := set_registered info c x in
      (apply_bounds target x, x)
  end.

Definition policy_of (info : DeploymentInfo) : policy :=
  let p := _apply_autoscaling_config (policy_function info) in
  match gang_size info with Some n => if 1 <? n then gang_policy n p else p | None => p end.

Definition get_autoscaling_context (info : DeploymentInfo) (c : AutoscalingConfig.t) (target : Z) (total queued now : float)
    (s : policy_state) x : result AutoscalingContext :=
  lower ← get_num_replicas_lower_bound info c;
  upper ← get_num_replicas_upper_bound info c;
  Ok {| current_num_replicas := Z.of_nat (length (_running_replicas x)); target_num_replicas := target;
        running_replicas := _running_replicas x; total_num_requests := total; total_queued_requests := queued;
        capacity_adjusted_min_replicas := lower; capacity_adjusted_max_replicas := upper; state := s;
        last_scale_up_time := _last_scale_up_time x; last_scale_down_time := _last_scale_down_time x;
        current_time := now; config := c; total_pending_async_requests := _total_pending_async_requests x |}.

(** The requests as the handles and replicas have aggregated them; the clock is
    read for the context and by the delays. *)
Definition get_decision_num_replicas (curr_target_num_replicas : Z) (skip_bound_check : bool) (clock : nat → float) x :
    result Z * DeploymentAutoscalingState :=
  match _deployment_info x with
  | None => (Raise ValueError, x)
  | Some (info, c) =>
      match (ctx ← get_autoscaling_context info c curr_target_num_replicas (_calculate_total_requests_simple_mode x)
               (_get_queued_requests x) (clock O) (default no_state (_policy_state x)) x;
             policy_of info ctx (clock 1%nat)) with
      | Raise e => (Raise e, x)
      | Ok (n, s) =>
          let x := set_policy_state s x in
          ((if skip_bound_check then Ok n else apply_bounds n x), x)
      end
  end.

(** ** One application *)
Record ApplicationAutoscalingState : Type := {
  _deployment_autoscaling_states : dict DeploymentID DeploymentAutoscalingState;
  _policy : option app_user_policy;
  _app_policy_state : option (dict DeploymentID policy_state)
}.
Definition app_init : ApplicationAutoscalingState :=
  {| _deployment_autoscaling_states := []; _policy := None; _app_policy_state := None |}.
Implicit Types (a : ApplicationAutoscalingState).

Definition set_deployments (l : dict DeploymentID DeploymentAutoscalingState) a : ApplicationAutoscalingState :=
  {| _deployment_autoscaling_states := l; _policy := _policy a; _app_policy_state := _app_policy_state a |}.

(** [f] on a deployment of the application. *)
Definition on_deployment (id : DeploymentID) (f : DeploymentAutoscalingState → DeploymentAutoscalingState) a :
    ApplicationAutoscalingState :=
  match dget (_deployment_autoscaling_states a) id with
  | Some x => set_deployments (dset (_deployment_autoscaling_states a) id (f x)) a
  | None => a
  end.

Definition app_register (p : app_user_policy) a : ApplicationAutoscalingState :=
  {| _deployment_autoscaling_states := _deployment_autoscaling_states a; _policy := Some p; _app_policy_state := Some [] |}.
Definition has_policy a : bool := match _policy a with Some _ => true | None => false end.

(** A deployment stays known when it has no configuration. *)
Definition app_register_deployment (id : DeploymentID) (info : DeploymentInfo) (changed : bool) (target : Z) a :
    result Z * ApplicationAutoscalingState :=
  let x := default init (dget (_deployment_autoscaling_states a) id) in
  let r := register info changed target x in
  (r.1, set_deployments (dset (_deployment_autoscaling_states a) id r.2) a).
Definition app_deregister_deployment (id : DeploymentID) a : ApplicationAutoscalingState :=
  set_deployments (ddel (_deployment_autoscaling_states a) id) a.
Definition app_should_autoscale_deployment (id : DeploymentID) a : bool := dmem (_deployment_autoscaling_states a) id.

(** The contexts, with the application's own state of each deployment. *)
Fixpoint autoscaling_contexts (targets : dict DeploymentID Z) (states : dict DeploymentID policy_state)
    (clock : DeploymentID → float) (l : dict DeploymentID DeploymentAutoscalingState) :
    result (dict DeploymentID AutoscalingContext) :=
  match l with
  | [] => Ok []
  | (id, x) :: l =>
      target ← or_raise KeyError (dget targets id);
      p ← or_raise AttributeError (_deployment_info x);
      ctx ← get_autoscaling_context p.1 p.2 target (_calculate_total_requests_simple_mode x) (_get_queued_requests x)
        (clock id) (default no_state (dget states id)) x;
      rest ← autoscaling_contexts targets states clock l;
      Ok ((id, ctx) :: rest)
  end.

Definition _validate_policy_state (states : dict DeploymentID policy_state) a : bool :=
  forallb (λ p : DeploymentID * policy_state, dmem (_deployment_autoscaling_states a) p.1) states.

Definition decisions_valid (targets decisions : dict DeploymentID Z) a : bool :=
  forallb (λ p : DeploymentID * Z, dmem (_deployment_autoscaling_states a) p.1 && dmem targets p.1) decisions.

Fixpoint bound_decisions (skip_bound_check : bool) a (decisions : dict DeploymentID Z) : result (dict DeploymentID Z) :=
  match decisions with
  | [] => Ok []
  | (id, n) :: l =>
      x ← or_raise KeyError (dget (_deployment_autoscaling_states a) id);
      n ← if skip_bound_check then Ok n else apply_bounds n x;
      rest ← bound_decisions skip_bound_check a l;
      Ok ((id, n) :: rest)
  end.

(** The decisions of the deployments' own policies, one after the other. *)
Fixpoint decide_each (targets : dict DeploymentID Z) (skip_bound_check : bool) (clock : DeploymentID → nat → float)
    (l : dict DeploymentID DeploymentAutoscalingState) :
    result (dict DeploymentID Z) * dict DeploymentID DeploymentAutoscalingState :=
  match l with
  | [] => (Ok [], [])
  | (id, x) :: l =>
      match dget targets id with
      | None => (Raise KeyError, (id, x) :: l)
      | Some target =>
          let r := get_decision_num_replicas target skip_bound_check (clock id) x in
          match r.1 with
          | Raise e => (Raise e, (id, r.2) :: l)
          | Ok n =>
              let rest := decide_each targets skip_bound_check clock l in
              (decisions ← rest.1; Ok ((id, n) :: decisions), (id, r.2) :: rest.2)
          end
      end
  end.

Definition app_get_decision_num_replicas (targets : dict DeploymentID Z) (skip_bound_check : bool)
    (clock : DeploymentID → nat → float) a : result (dict DeploymentID Z) * ApplicationAutoscalingState :=
  match _policy a with
  | Some f =>
      match (contexts ← autoscaling_contexts targets (default [] (_app_policy_state a)) (λ id, clock id O)
               (_deployment_autoscaling_states a);
             _apply_app_level_autoscaling_config f contexts (λ id, clock id 1%nat)) with
      | Raise e => (Raise e, a)
      | Ok (decisions, states) =>
          if _validate_policy_state states a then
            let a := {| _deployment_autoscaling_states := _deployment_autoscaling_states a; _policy := _policy a;
                        _app_policy_state := Some states |} in
            ((if decisions_valid targets decisions a then bound_decisions skip_bound_check a decisions
              else Raise AssertionError), a)
          else (Raise AssertionError, a)
      end
  | None =>
      let r := decide_each targets skip_bound_check clock (_deployment_autoscaling_states a) in
      (r.1, set_deployments r.2 a)
  end.

(** The deployment must be known. *)
Definition app_update_running_replica_ids (id : DeploymentID) (l : list ReplicaID) a :
    result unit * ApplicationAutoscalingState :=
  if dmem (_deployment_autoscaling_states a) id then (Ok tt, on_deployment id (update_running_replica_ids l) a)
  else (Raise KeyError, a).
Definition app_is_within_bounds (id : DeploymentID) (n : Z) a : result bool :=
  x ← or_raise KeyError (dget (_deployment_autoscaling_states a) id); is_within_bounds n x.

(** Of the deployments, in their order; one that has no configuration raises. *)
Fixpoint drop_stale_each (min_timeout : float) (alive : list string) (now : DeploymentID → string → float)
    (l : dict DeploymentID DeploymentAutoscalingState) : result unit * dict DeploymentID DeploymentAutoscalingState :=
  match l with
  | [] => (Ok tt, [])
  | (id, x) :: l =>
      match drop_stale_handle_metrics min_timeout alive (now id) x with
      | Raise e => (Raise e, (id, x) :: l)
      | Ok x => let r := drop_stale_each min_timeout alive now l in (r.1, (id, x) :: r.2)
      end
  end.
Definition app_drop_stale_handle_metrics (min_timeout : float) (alive : list string)
    (now : DeploymentID → string → float) a : result unit * ApplicationAutoscalingState :=
  let r := drop_stale_each min_timeout alive now (_deployment_autoscaling_states a) in (r.1, set_deployments r.2 a).

(** ** The controller's state *)
Definition manager : Type := dict string ApplicationAutoscalingState.
Implicit Types (m : manager).

(** [f] on the application, if it is known. *)
Definition on_app (app : string) (f : ApplicationAutoscalingState → ApplicationAutoscalingState) m : manager :=
  match dget m app with Some a => dset m app (f a) | None => m end.
Definition on_app_deployment (id : DeploymentID) (f : DeploymentAutoscalingState → DeploymentAutoscalingState) m : manager :=
  on_app (app_name id) (on_deployment id f) m.

Definition register_deployment (id : DeploymentID) (info : DeploymentInfo) (changed : bool) (target : Z) m :
    result Z * manager :=
  match autoscaling_config info with
  | None => (Raise AssertionError, m)
  | Some _ =>
      let r := app_register_deployment id info changed target (default app_init (dget m (app_name id))) in
      (r.1, dset m (app_name id) r.2)
  end.
Definition deregister_deployment (id : DeploymentID) m : manager := on_app (app_name id) (app_deregister_deployment id) m.
Definition register_application (app : string) (p : app_user_policy) m : manager :=
  dset m app (app_register p (default app_init (dget m app))).
Definition deregister_application (app : string) m : manager := ddel m app.
Definition _application_has_policy (app : string) m : bool :=
  match dget m app with Some a => has_policy a | None => false end.
Definition should_autoscale_application (app : string) m : bool := dmem m app.
Definition should_autoscale_deployment (id : DeploymentID) m : bool :=
  match dget m (app_name id) with Some a => app_should_autoscale_deployment id a | None => false end.

Definition manager_get_decision_num_replicas (app : string) (targets : dict DeploymentID Z)
    (clock : DeploymentID → nat → float) m : result (dict DeploymentID Z) * manager :=
  match dget m app with
  | None => (Raise KeyError, m)
  | Some a => let r := app_get_decision_num_replicas targets false clock a in (r.1, dset m app r.2)
  end.

Definition manager_update_running_replica_ids (id : DeploymentID) (l : list ReplicaID) m : result unit * manager :=
  match dget m (app_name id) with
  | None => (Ok tt, m)
  | Some a => let r := app_update_running_replica_ids id l a in (r.1, dset m (app_name id) r.2)
  end.
Definition manager_record_scale_up (now : float) (id : DeploymentID) m : manager := on_app_deployment id (record_scale_up now) m.
Definition manager_record_scale_down (now : float) (id : DeploymentID) m : manager :=
  on_app_deployment id (record_scale_down now) m.
Definition manager_on_replica_stopped (r : ReplicaID) m : manager :=
  on_app_deployment (deployment_id r) (on_replica_stopped r) m.
Definition manager_is_within_bounds (id : DeploymentID) (n : Z) m : result bool :=
  a ← or_raise KeyError (dget m (app_name id)); app_is_within_bounds id n a.
Definition manager_record_request_metrics_for_replica (r : ReplicaMetricReport) m : manager :=
  on_app_deployment (deployment_id (replica_id r)) (record_request_metrics_for_replica r) m.
Definition manager_record_request_metrics_for_handle (r : HandleMetricReport) m : manager :=
  on_app_deployment (handle_deployment_id r) (record_request_metrics_for_handle r) m.
Definition manager_record_async_inference_task_queue_metrics (id : DeploymentID) (queue_length : Z) m : manager :=
  on_app_deployment id (record_async_inference_task_queue_metrics queue_length) m.
Definition manager_get_total_num_requests_for_deployment (id : DeploymentID) m : result float :=
  match dget m (app_name id) with
  | None => Ok f_zero
  | Some a => x ← or_raise KeyError (dget (_deployment_autoscaling_states a) id); Ok (_calculate_total_requests_simple_mode x)
  end.
Fixpoint manager_drop_stale_handle_metrics (min_timeout : float) (alive : list string)
    (now : DeploymentID → string → float) m : result unit * manager :=
  match m with
  | [] => (Ok tt, [])
  | (app, a) :: m =>
      let r := app_drop_stale_handle_metrics min_timeout alive now a in
      match r.1 with
      | Raise e => (Raise e, (app, r.2) :: m)
      | Ok _ => let rest := manager_drop_stale_handle_metrics min_timeout alive now m in (rest.1, (app, r.2) :: rest.2)
      end
  end.
End serve.
Arguments DeploymentInfo : clear implicits.
Arguments DeploymentAutoscalingState : clear implicits.
Arguments AutoscalingContext : clear implicits.
Arguments policy_state : clear implicits.
Arguments ApplicationAutoscalingState : clear implicits.
Arguments manager : clear implicits.

(** ** Delays *)

(** One decision: when, and the number wanted and in force. *)
Record tick : Type := { at_time : float; desired : Z; target : Z }.

(** The direction wanted, the number to go to, and the delay to wait. *)
Definition dir (t : tick) : Z := Z.sgn (desired t - target t).
Definition goal (t : tick) : Z :=
  if (desired t <? target t) && negb (target t =? 1) then Z.max 1 (desired t) else desired t.
Definition delay_of (c : AutoscalingConfig.t) (t : tick) : float :=
  if target t <? desired t then upscale_delay_s c
  else if target t =? 1 then default (downscale_delay_s c) (downscale_to_zero_delay_s c) else downscale_delay_s c.

Section delays.
Context {U : Type}.
Variable c : AutoscalingConfig.t.
Implicit Types (s : policy_state U) (t u : tick).

Definition apply s t : Z * policy_state U := _apply_delay_logic (desired t) (target t) c s (at_time t).

(** The state after some decisions, and the next one. *)
Definition after (l : list tick) : policy_state U := foldl (λ s t, (apply s t).2) no_state l.
Definition chosen (l : list tick) t : Z := (apply (after l) t).1.

(** [l2] is the run of decisions in the direction [d] at the end: none took
    effect, and the one before was in another direction or took effect. *)
Definition streak (d : Z) (l1 l2 : list tick) : Prop :=
  Forall (λ u, dir u = d) l2 ∧
  (∀ a u b, l2 = a ++ u :: b → chosen (l1 ++ a) u = target u) ∧
  (l1 = [] ∨ ∃ l0 u, l1 = l0 ++ [u] ∧ (dir u ≠ d ∨ chosen l0 u ≠ target u)).

Lemma streak_nil d l : streak d l [] ↔ l = [] ∨ ∃ l0 u, l = l0 ++ [u] ∧ (dir u ≠ d ∨ chosen l0 u ≠ target u).
Proof. unfold streak. split; [by intros (_ & _ & H)|]. intros H. split; [constructor|]. split; [|done]. by intros [|? ?]. Qed.

Lemma streak_shorter d l1 a l2 : streak d l1 (a ++ l2) → streak d (l1 ++ a) l2 → a = [].
Proof.
  intros (H1 & H2 & _) (_ & _ & H3). destruct a as [|u a _] using rev_ind; [done|]. exfalso.
  destruct H3 as [H3|(l0 & v & H3 & H4)]; [by destruct l1, a|]. rewrite app_assoc in H3. apply app_inj_tail in H3 as [<- <-].
  apply Forall_app in H1 as [[_ [H1 _]%Forall_cons]%Forall_app _]. destruct H4 as [H4|H4]; [done|]. apply H4, (H2 a u l2).
  by rewrite <-app_assoc.
Qed.

Lemma streak_unique d l1 l2 m1 m2 : l1 ++ l2 = m1 ++ m2 → streak d l1 l2 → streak d m1 m2 → l1 = m1 ∧ l2 = m2.
Proof.
  intros H H1 H2. apply app_eq_inv in H as [(a & -> & ->)|(a & -> & ->)].
  - apply streak_shorter in H1 as ->; [|done]. by rewrite app_nil_r.
  - apply streak_shorter in H2 as ->; [|done]. by rewrite app_nil_r.
Qed.

(** A streak grows by a decision that does not take effect. *)
Lemma streak_snoc d l1 l2 t : streak d l1 l2 → dir t = d → chosen (l1 ++ l2) t = target t → streak d l1 (l2 ++ [t]).
Proof.
  intros (H1 & H2 & H3) Hd Ht. split; [apply Forall_app; split; [done|by constructor]|]. split; [|done]. intros a u b H.
  destruct b as [|v b _] using rev_ind.
  - apply app_inj_tail in H as [-> ->]. done.
  - rewrite app_comm_cons, app_assoc in H. apply app_inj_tail in H as [-> _]. by eapply H2.
Qed.

Definition counter_of s : Z := default 0 (decision_counters s).
Definition since_of s : option float := default None (decision_timestamp s).

(** The time from which a decision in the direction of [t] is waited for. *)
Definition waiting s t : float := if Z.sgn (counter_of s) =? dir t then default (at_time t) (since_of s) else at_time t.

Lemma apply_neutral s t : dir t = 0 → apply s t = (target t, set_decision 0 None s).
Proof.
  unfold dir, apply, _apply_delay_logic. intros H. assert (desired t = target t) as -> by lia. by rewrite Z.ltb_irrefl.
Qed.

Lemma apply_directed s t : dir t ≠ 0 → (counter_of s = 0 → since_of s = None) →
  ∃ k, Z.sgn k = dir t ∧ apply s t =
    if elapsed (at_time t) (waiting s t) (delay_of c t) then (goal t, set_decision 0 None s)
    else (target t, set_decision k (Some (waiting s t)) s).
Proof.
  intros Hd H0. unfold apply, _apply_delay_logic, goal, delay_of, waiting. fold (counter_of s) (since_of s). revert Hd. unfold dir.
  destruct (Z.ltb_spec (target t) (desired t)) as [Hup|Hup]; intros Hd.
  - rewrite (proj2 (Z.ltb_ge (desired t) (target t))) by lia. cbn [andb]. rewrite (Z.sgn_pos (desired t - target t)) by lia.
    destruct (Z.ltb_spec (counter_of s) 0) as [Hc|Hc]; cbn [fst snd].
    + exists 1. rewrite (Z.sgn_neg (counter_of s)) by lia. done.
    + exists (counter_of s + 1). rewrite Z.sgn_pos by lia. split; [done|]. destruct (Z.eqb_spec (Z.sgn (counter_of s)) 1); [done|].
      rewrite H0 by lia. done.
  - rewrite (proj2 (Z.ltb_lt (desired t) (target t))) by lia. rewrite (Z.sgn_neg (desired t - target t)) by lia.
    assert (∀ x : bool, (if x then desired t else Z.max 1 (desired t)) = if true && negb x then Z.max 1 (desired t) else desired t) as -> by by intros [].
    destruct (Z.ltb_spec 0 (counter_of s)) as [Hc|Hc]; cbn [fst snd].
    + exists (-1). rewrite (Z.sgn_pos (counter_of s)) by lia. done.
    + exists (counter_of s - 1). rewrite Z.sgn_neg by lia. split; [done|]. destruct (Z.eqb_spec (Z.sgn (counter_of s)) (-1)); [done|].
      rewrite H0 by lia. done.
Qed.

(** What the state knows of the decisions so far. *)
Definition knows (l : list tick) s : Prop :=
  (counter_of s = 0 ∧ since_of s = None ∧ ∀ d, d ≠ 0 → streak d l []) ∨
  (counter_of s ≠ 0 ∧ ∃ l1 u l2, l = l1 ++ u :: l2 ∧ streak (Z.sgn (counter_of s)) l1 (u :: l2) ∧ since_of s = Some (at_time u)).

Lemma goal_moves t : 0 ≤ desired t → dir t ≠ 0 → goal t ≠ target t.
Proof. unfold dir, goal. intros H0 Hd. destruct (Z.ltb_spec (desired t) (target t)), (Z.eqb_spec (target t) 1); cbn; lia. Qed.

(** The streak a decision in a direction continues, and its first time. *)
Lemma knows_streak l s d : knows l s → d ≠ 0 →
  ∃ l1 l2, l = l1 ++ l2 ∧ streak d l1 l2 ∧
    if Z.sgn (counter_of s) =? d then since_of s = at_time <$> head l2 else l2 = [].
Proof.
  intros [(H0 & Hs & H)|(Hn & l1 & u & l2 & -> & Hk & Hs)] Hd.
  - exists l, []. split; [by rewrite app_nil_r|]. split; [by apply H|]. rewrite H0. destruct (Z.eqb_spec (Z.sgn 0) d); [cbn in *; lia|done].
  - destruct (Z.eqb_spec (Z.sgn (counter_of s)) d) as [<-|Hne].
    + exists l1, (u :: l2). done.
    + exists (l1 ++ u :: l2), []. split; [by rewrite app_nil_r|]. split; [|done]. apply streak_nil. right.
      destruct Hk as (Hf & _ & _). destruct (exists_last (l := u :: l2)) as (l0 & v & Hv); [done|]. rewrite Hv in Hf |- *.
      exists (l1 ++ l0), v. split; [by rewrite app_assoc|]. left. apply Forall_app in Hf as [_ Hf]. rewrite Forall_singleton in Hf.
      by rewrite Hf.
Qed.

Lemma after_snoc l t : after (l ++ [t]) = (apply (after l) t).2.
Proof. unfold after. by rewrite foldl_app. Qed.

Lemma streak_ended l t d : d ≠ 0 → dir t ≠ d ∨ chosen l t ≠ target t → streak d (l ++ [t]) [].
Proof. intros Hd H. apply streak_nil. right. by exists l, t. Qed.

Lemma waiting_streak l l1 l2 s t : dir t ≠ 0 →
  (if Z.sgn (counter_of s) =? dir t then since_of s = at_time <$> head l2 else l2 = []) → l = l1 ++ l2 →
  waiting s t = at_time (default t (head l2)).
Proof. intros Hd H ->. unfold waiting. destruct (_ =? _); [rewrite H; by destruct l2|by subst]. Qed.

Lemma knows_after l : Forall (λ t, 0 ≤ desired t) l → knows l (after l).
Proof.
  induction l as [|t l IH] using rev_ind; intros Hl.
  { left. split; [done|]. split; [done|]. intros d Hd. apply streak_nil. by left. }
  apply Forall_app in Hl as [Hl Ht]. rewrite Forall_singleton in Ht. specialize (IH Hl). rewrite after_snoc.
  destruct (decide (dir t = 0)) as [Hd|Hd].
  { rewrite apply_neutral by done. left. split; [done|]. split; [done|]. intros d Hne. apply streak_ended; [done|]. left. congruence. }
  destruct (apply_directed (after l) t Hd) as (k & Hk & Ha); [by destruct IH as [(_ & H & _)|[? _]]|].
  destruct (elapsed _ _ _) eqn:He; rewrite Ha; cbn [snd].
  - left. split; [done|]. split; [done|]. intros d Hne. apply streak_ended; [done|]. right. unfold chosen. rewrite Ha. cbn.
    by apply goal_moves.
  - right. unfold counter_of. cbn [decision_counters set_decision default from_option id]. split; [lia|].
    destruct (knows_streak l (after l) (dir t) IH Hd) as (l1 & l2 & El & Hs & Hf).
    assert (streak (dir t) l1 (l2 ++ [t])) as Hs'.
    { apply streak_snoc; [done|done|]. rewrite <-El. unfold chosen. by rewrite Ha. }
    rewrite Hk. pose proof (waiting_streak l l1 l2 (after l) t Hd Hf El) as Hw. unfold since_of.
    cbn [decision_timestamp set_decision default from_option id]. rewrite Hw.
    destruct l2 as [|u l2]; cbn in *; [exists l1, t, []|exists l1, u, (l2 ++ [t])]; (split; [|done]); rewrite El.
    + by rewrite app_nil_r.
    + by rewrite <-app_assoc.
Qed.

(** C11: Scaling waits for its delay, and no longer.  After any decisions, a
    number in the other direction than the one in force is decided exactly when
    that direction has been wanted without a break since a decision from which
    the delay has passed, and none of the decisions since took effect; the
    number is then the one wanted, and not zero unless it goes from one. *)
Theorem delayed_decisions l t : Forall (λ u, 0 ≤ desired u) (l ++ [t]) →
  (chosen l t = target t ∨ chosen l t = goal t) ∧
  (chosen l t = 0 → target t ≤ 1) ∧
  (chosen l t ≠ target t ↔ dir t ≠ 0 ∧ ∃ l1 l2, l = l1 ++ l2 ∧ streak (dir t) l1 l2 ∧
     elapsed (at_time t) (at_time (default t (head l2))) (delay_of c t) = true).
Proof.
  intros [Hl Ht]%Forall_app. rewrite Forall_singleton in Ht. pose proof (knows_after l Hl) as Hk.
  destruct (decide (dir t = 0)) as [Hd|Hd].
  { unfold chosen. rewrite apply_neutral by done. cbn. split; [by left|]. split; [lia|]. split; [done|]. by intros [? _]. }
  destruct (apply_directed (after l) t Hd) as (k & _ & Ha); [by destruct Hk as [(_ & H & _)|[? _]]|].
  destruct (knows_streak l (after l) (dir t) Hk Hd) as (l1 & l2 & El & Hs & Hf).
  rewrite (waiting_streak l l1 l2 (after l) t Hd Hf El) in Ha.
  assert (chosen l t = if elapsed (at_time t) (at_time (default t (head l2))) (delay_of c t) then goal t else target t) as Hch
    by (unfold chosen; rewrite Ha; by destruct (elapsed _ _ _)).
  rewrite Hch. split; [destruct (elapsed _ _ _); tauto|]. split.
  - clear -Ht Hd. destruct (elapsed _ _ _); [|lia]. unfold goal, dir in *.
    destruct (Z.ltb_spec (desired t) (target t)), (Z.eqb_spec (target t) 1); cbn [andb negb]; lia.
  - split.
    + destruct (elapsed _ _ _) eqn:E; [|done]. intros _. split; [done|]. by exists l1, l2.
    + intros (_ & m1 & m2 & Em & Hm & He). destruct (streak_unique (dir t) l1 l2 m1 m2) as [<- <-]; [congruence|done|done|].
      rewrite He. by apply goal_moves.
Qed.
End delays.

(** ** Policies of an application *)
Section application.
Context {U : Type}.
Implicit Types (ctx : AutoscalingContext U) (x : DeploymentAutoscalingState U) (a : ApplicationAutoscalingState U).

(** The decision of a base policy that wants a number, before the policy of a
    deployment in gangs aligns it. *)
Definition alone (wanted : number) (user : policy_state U) ctx (now : float) : result (Z * policy_state U) :=
  _apply_autoscaling_config (λ _, Ok (wanted, user)) ctx now.

(** A deployment with a policy of its own that wants a number, and the number
    that this policy decides where the base policy decides [n]. *)
Definition wanting (w : number) (user : policy_state U) (info : DeploymentInfo U) : DeploymentInfo U := {|
  autoscaling_config := autoscaling_config info; policy_function := λ _, Ok (w, user); gang_size := gang_size info;
  target_capacity := target_capacity info; target_capacity_direction := target_capacity_direction info |}.
Definition in_gangs (info : DeploymentInfo U) (n : Z) : Prop := ∃ g, gang_size info = Some g ∧ 1 < g ∧ 0 < n.
Definition own_decision (info : DeploymentInfo U) (n : Z) (r : result Z) : Prop :=
  (¬ in_gangs info n → r = Ok n) ∧
  (∀ g, gang_size info = Some g → in_gangs info n → r = (gangs ← f_ceil (f_div (f_of_int n) (f_of_int g)); Ok (gangs * g))).

Lemma own_policy w user (info : DeploymentInfo U) ctx now n s : alone w user ctx now = Ok (n, s) →
  ∃ r, own_decision info n r ∧ policy_of (wanting w user info) ctx now = (m ← r; Ok (m, s)).
Proof.
  intros H. unfold alone in H. unfold policy_of, own_decision, in_gangs. cbn [wanting gang_size policy_function].
  destruct (gang_size info) as [g|].
  - destruct (Z.ltb_spec 1 g) as [Hg|Hg]; [|exists (Ok n); split; [|by rewrite H]; split; [done|]; intros ? [= <-] (g' & [= <-] & ? & _); lia].
    unfold gang_policy. rewrite H, (proj2 (Z.ltb_lt 1 g) Hg). cbn [mbind result_bind fst snd andb]. destruct (Z.ltb_spec 0 n) as [Hp|Hp].
    + eexists. split; [split|]; [intros Hn; contradict Hn; by exists g|intros g' [= <-] _; reflexivity|by destruct (f_ceil _)].
    + exists (Ok n). split; [|done]. split; [done|]. intros ? _ (_ & _ & _ & ?). lia.
  - exists (Ok n). split; [split; [done|]|by rewrite H]. intros ? [=].
Qed.

(** The same waiting, and the user's own values. *)
Definition keeps_waiting (s s' : policy_state U) : Prop :=
  _extract_internal_policy_state s = _extract_internal_policy_state s'.

(** While replicas run, a decision is one of the delays on the number wanted,
    scaled and not negative, and the next one goes on from the state it leaves. *)
Lemma alone_waits wanted user ctx now n s : current_num_replicas ctx ≠ 0 → alone wanted user ctx now = Ok (n, s) →
  ∃ d, _apply_scaling_factors wanted (current_num_replicas ctx) (config ctx) = Ok d ∧
    let t := {| at_time := now; desired := Z.max 0 d; target := target_num_replicas ctx |} in
    let r := apply (config ctx) (_extract_internal_policy_state (state ctx)) t in
    n = r.1 ∧ keeps_waiting s r.2.
Proof.
  intros Hn. unfold alone, _apply_autoscaling_config, _get_cold_start_scale_up_replicas. apply Z.eqb_neq in Hn. rewrite Hn. cbn [andb mbind result_bind fst snd].
  unfold _apply_default_params_and_merge_state, _apply_default_params. rewrite Hn. cbn [andb]. intros H. inv_ok. exists r0. split; [done|].
  cbn zeta. unfold apply. cbn [desired target at_time]. injection H as <- <-. split; [done|].
  unfold _apply_delay_logic. cbn [decision_counters decision_timestamp _extract_internal_policy_state].
  repeat (case_match; try done).
Qed.

Section decisions.
Variable desired : dict DeploymentID number.
Variable updated : dict DeploymentID (policy_state U).
Variable now : DeploymentID → float.

Definition user_state (id : DeploymentID) : policy_state U := default no_state (dget updated id).

(** What is decided for one deployment. *)
Definition decides (id : DeploymentID) ctx (o : option Z) (s : policy_state U) : Prop :=
  match dget desired id with
  | None => o = None ∧ s = _merge_user_state_with_internal_state (state ctx) (user_state id)
  | Some w => ∃ n s', o = Some n ∧ alone w (user_state id) ctx (now id) = Ok (n, s') ∧ keeps_waiting s s'
  end.

Lemma keeps_waiting_merge (s u : policy_state U) : keeps_waiting (_merge_user_state_with_internal_state s u) s.
Proof. done. Qed.

Lemma decide_ok acc id ctx acc' : decide_deployment desired updated now acc (id, ctx) = Ok acc' →
  ∃ o s, decides id ctx o s ∧ acc' = (match o with Some n => dset acc.1 id n | None => acc.1 end, dset acc.2 id s).
Proof.
  unfold decide_deployment, decides, alone, _apply_autoscaling_config. cbn [fst snd]. fold (user_state id).
  destruct (dget desired id) as [w|].
  - intros H. inv_ok. rewrite Hr. cbn. destruct r as [n|].
    + inv_ok. eexists (Some n), _. split; [|done]. by exists n, (state ctx).
    + inv_ok. rewrite Hr0. destruct r as [n s]. eexists (Some n), s. split; [|done]. by exists n, s.
  - intros H. inv_ok. eexists None, _. by split.
Qed.

Lemma decide_raises acc id ctx e : decide_deployment desired updated now acc (id, ctx) = Raise e →
  ∃ w, dget desired id = Some w ∧ alone w (user_state id) ctx (now id) = Raise e.
Proof.
  unfold decide_deployment, alone, _apply_autoscaling_config. cbn [fst snd]. fold (user_state id).
  destruct (dget desired id) as [w|]; [|done]. intros H. exists w. split; [done|]. revert H.
  destruct (_get_cold_start_scale_up_replicas ctx) as [[n|]|e']; cbn; [done| |by intros [= ->]].
  destruct (_apply_default_params_and_merge_state _ _ _ _ _); cbn; [done|by intros [= ->]].
Qed.

Lemma decide_all_ok cs acc acc' : dwf cs → result_fold (decide_deployment desired updated now) acc cs = Ok acc' →
  ∀ id, match dget cs id with
    | Some ctx => ∃ o s, decides id ctx o s ∧ dget acc'.1 id = (match o with Some n => Some n | None => dget acc.1 id end) ∧
        dget acc'.2 id = Some s
    | None => dget acc'.1 id = dget acc.1 id ∧ dget acc'.2 id = dget acc.2 id
    end.
Proof.
  revert acc. induction cs as [|[k c] cs IH]; intros acc Hw H id; cbn in H; inv_ok; [done|].
  apply NoDup_cons in Hw as [Hk Hw]. apply decide_ok in Hr as (o & s & Hd & ->). specialize (IH _ Hw H id). cbn [dget].
  destruct (decide (id = k)) as [->|Hne].
  - rewrite (proj2 (dget_None cs k)) in IH by done. destruct IH as [-> ->]. exists o, s. split; [done|].
    cbn [fst snd]. rewrite dget_dset_eq. split; [|done]. destruct o; [apply dget_dset_eq|done].
  - cbn [fst snd] in IH. rewrite dget_dset_ne in IH by done.
    assert (dget (match o with Some n => dset acc.1 k n | None => acc.1 end) id = dget acc.1 id) as E
      by (destruct o; [by rewrite dget_dset_ne|done]). by rewrite E in IH.
Qed.

Lemma decide_all_raises cs acc e : dwf cs → result_fold (decide_deployment desired updated now) acc cs = Raise e →
  ∃ id ctx w, dget cs id = Some ctx ∧ dget desired id = Some w ∧ alone w (user_state id) ctx (now id) = Raise e.
Proof.
  revert acc. induction cs as [|[k c] cs IH]; intros acc Hw H; cbn in H; [done|]. apply NoDup_cons in Hw as [Hk Hw].
  destruct (decide_deployment _ _ _ _ _) as [acc'|e'] eqn:E; cbn in H.
  - destruct (IH _ Hw H) as (id & ctx & w & Hi & Hd & Ha). exists id, ctx, w. split; [|done]. cbn.
    rewrite decide_False; [done|]. intros ->. apply Hk, list_elem_of_fmap. exists (k, ctx). split; [done|by apply dget_elem].
  - injection H as ->. apply decide_raises in E as (w & Hd & Ha). exists k, c, w. cbn. by rewrite decide_True.
Qed.

Lemma decide_all_wf cs acc acc' : dwf acc.1 → dwf acc.2 → result_fold (decide_deployment desired updated now) acc cs = Ok acc' →
  dwf acc'.1 ∧ dwf acc'.2.
Proof.
  intros H1 H2 H. eapply (result_fold_inv (λ acc, dwf acc.1 ∧ dwf acc.2)); [|by split|exact H].
  intros r [id ctx] r' _ [Hr1 Hr2] Hd. apply decide_ok in Hd as (o & s & _ & ->). cbn. split; [|by apply dset_wf].
  destruct o; [by apply dset_wf|done].
Qed.
End decisions.

Lemma contexts_keys targets states clock l cs : autoscaling_contexts (U:=U) targets states clock l = Ok cs →
  cs.*1 = l.*1 ∧ ∀ id, id ∈ l.*1 → dmem targets id = true.
Proof.
  revert cs. induction l as [|[id x] l IH]; intros cs H; cbn in H; inv_ok; [by split; [|by intros ? ?%not_elem_of_nil]|].
  destruct (IH _ Hr2) as [E Ht]. cbn. split; [by f_equal|]. intros j [->|Hj]%elem_of_cons; [|by apply Ht].
  unfold dmem. by rewrite Hr.
Qed.

Lemma bound_decisions_ok skip a l out : bound_decisions skip a l = Ok out → ∀ id,
  match dget l id with
  | Some n => ∃ x n', dget (_deployment_autoscaling_states a) id = Some x ∧ dget out id = Some n' ∧
      (if skip then Ok n else apply_bounds n x) = Ok n'
  | None => dget out id = None
  end.
Proof.
  revert out. induction l as [|[k n] l IH]; intros out H id; cbn in H; inv_ok; [done|]. cbn.
  destruct (decide (id = k)) as [->|]; [|by apply IH]. by exists r, r0.
Qed.

Lemma bound_decisions_raises a l e : dwf l → (∀ id, id ∈ l.*1 → dmem (_deployment_autoscaling_states a) id = true) →
  bound_decisions false a l = Raise e →
  ∃ id n x, dget l id = Some n ∧ dget (_deployment_autoscaling_states a) id = Some x ∧ apply_bounds n x = Raise e.
Proof.
  induction l as [|[k n] l IH]; intros Hw Hl H; cbn in H; [done|]. apply NoDup_cons in Hw as [Hk Hw].
  pose proof (Hl k ltac:(by left)) as Hm. unfold dmem in Hm. destruct (dget (_deployment_autoscaling_states a) k) as [x|] eqn:Ex; [|done].
  cbn in H. destruct (apply_bounds n x) as [n'|e'] eqn:Eb; cbn in H.
  - destruct (bound_decisions false a l) as [rest|e'] eqn:E; cbn in H; [done|]. injection H as ->.
    destruct IH as (id & m & y & Hi & Hy & Hb); [done|intros j Hj; apply Hl; by right|done|].
    exists id, m, y. cbn. rewrite decide_False; [done|]. intros ->. apply Hk, list_elem_of_fmap. exists (k, m). split; [done|by apply dget_elem].
  - injection H as ->. exists k, n, x. cbn. by rewrite decide_True.
Qed.

(** The checks of what the wrapped policy returns never fail. *)
Lemma wrapped_policy_valid f a cs now decisions states targets :
  dwf cs → cs.*1 = (_deployment_autoscaling_states a).*1 → (∀ id, id ∈ (_deployment_autoscaling_states a).*1 → dmem targets id = true) →
  _apply_app_level_autoscaling_config f cs now = Ok (decisions, states) →
  dwf decisions ∧ (∀ id, id ∈ decisions.*1 → id ∈ cs.*1) ∧ _validate_policy_state states a = true ∧ decisions_valid targets decisions a = true.
Proof.
  intros Hw Hk Ht H. unfold _apply_app_level_autoscaling_config in H. inv_ok. destruct r as [desired updated]. cbn [fst snd] in H.
  assert (dwf decisions ∧ dwf states) as [W1 W2] by (refine (decide_all_wf _ _ _ cs ([], []) (decisions, states) _ _ H); constructor).
  pose proof (decide_all_ok _ _ _ _ _ _ Hw H) as Hd. cbn [fst snd] in *.
  assert (∀ id, (id ∈ decisions.*1 → id ∈ cs.*1) ∧ (id ∈ states.*1 → id ∈ cs.*1)) as Hin.
  { intros id. specialize (Hd id). destruct (dget cs id) as [c|] eqn:E.
    - assert (id ∈ cs.*1) by (apply list_elem_of_fmap; exists (id, c); split; [done|by apply dget_elem]). done.
    - destruct Hd as [Hd1 Hd2]. cbn in Hd1, Hd2. apply dget_None in Hd1, Hd2. done. }
  split; [done|]. split; [apply Hin|]. split; apply forallb_forall; intros [id v] Hv%list_elem_of_In.
  - apply dmem_true. rewrite <-Hk. apply (proj2 (Hin id)), list_elem_of_fmap. by exists (id, v).
  - assert (id ∈ (_deployment_autoscaling_states a).*1) as Hj by (rewrite <-Hk; apply (proj1 (Hin id)), list_elem_of_fmap; by exists (id, v)).
    cbn [fst]. rewrite (Ht id Hj), andb_true_r. by apply dmem_true.
Qed.

(** The state a decision leaves. *)
Definition with_policy_state (states : dict DeploymentID (policy_state U)) a : ApplicationAutoscalingState U :=
  {| _deployment_autoscaling_states := _deployment_autoscaling_states a; _policy := _policy a; _app_policy_state := Some states |}.

Lemma app_decisions f targets clock a cs : dwf (_deployment_autoscaling_states a) → _policy a = Some f →
  autoscaling_contexts targets (default [] (_app_policy_state a)) (λ id, clock id O) (_deployment_autoscaling_states a) = Ok cs →
  app_get_decision_num_replicas targets false clock a =
    match _apply_app_level_autoscaling_config f cs (λ id, clock id 1%nat) with
    | Raise e => (Raise e, a)
    | Ok p => (bound_decisions false (with_policy_state p.2 a) p.1, with_policy_state p.2 a)
    end.
Proof.
  intros Hw Hf Hc. destruct (contexts_keys _ _ _ _ _ Hc) as [Hk Ht]. unfold app_get_decision_num_replicas. rewrite Hf, Hc.
  cbn [mbind result_bind]. destruct (_apply_app_level_autoscaling_config f cs _) as [[decisions states]|e] eqn:E; [|done].
  assert (dwf cs) as Hwc by (unfold dwf; by rewrite Hk).
  destruct (wrapped_policy_valid _ _ _ _ _ _ _ Hwc Hk Ht E) as (_ & _ & -> & Hv). rewrite <-Hf.
  change {| _deployment_autoscaling_states := _; _policy := _; _app_policy_state := Some states |} with (with_policy_state states a).
  change (decisions_valid targets decisions (with_policy_state states a)) with (decisions_valid targets decisions a). by rewrite Hv.
Qed.

Lemma context_known targets states clock l cs id ctx : autoscaling_contexts (U:=U) targets states clock l = Ok cs →
  dget cs id = Some ctx → ∃ x info c, dget l id = Some x ∧ _deployment_info x = Some (info, c).
Proof.
  revert cs. induction l as [|[k x] l IH]; intros cs H; cbn in H; inv_ok; [done|]. cbn.
  destruct (decide (id = k)) as [->|]; [|by apply IH]. intros _. destruct r0 as [info c]. by exists x, info, c.
Qed.

(** C17: An application decides for each of its deployments as the deployment's
    own base policy would, but does not align the number to whole gangs.  The
    application's decisions are those of its deployments for which its policy
    wants a number, each the number that a base policy wanting it decides
    ([alone]), within the deployment's bounds and with the same waiting kept;
    the others keep theirs.  A policy of the deployment's own that wants the
    same number ([policy_of]) decides it too, bounds aside, unless the
    deployment runs in gangs of more than one replica and the number is
    positive: then it rounds the number up to whole gangs, with the same state.
    The application raises only what one of the base decisions or bounds
    raises, and changes nothing but its policy's state. *)
Theorem app_decides_as_deployments f targets clock a contexts desired updated :
  dwf (_deployment_autoscaling_states a) → _policy a = Some f →
  autoscaling_contexts targets (default [] (_app_policy_state a)) (λ id, clock id O) (_deployment_autoscaling_states a) = Ok contexts →
  f contexts = Ok (desired, updated) →
  let user := user_state (default [] updated) in
  let r := app_get_decision_num_replicas targets false clock a in
  match r.1 with
  | Ok decisions => ∃ states,
      r.2 = with_policy_state states a ∧
      ∀ id, match dget contexts id, dget desired id with
        | Some ctx, Some w => ∃ x info c n n' s s' own, dget (_deployment_autoscaling_states a) id = Some x ∧
            alone w (user id) ctx (clock id 1%nat) = Ok (n, s) ∧ apply_bounds n x = Ok n' ∧ dget decisions id = Some n' ∧
            dget states id = Some s' ∧ keeps_waiting s' s ∧
            _deployment_info x = Some (info, c) ∧ own_decision info n own ∧
            policy_of (wanting w (user id) info) ctx (clock id 1%nat) = (m ← own; Ok (m, s))
        | Some ctx, None => dget decisions id = None ∧
            ∃ s', dget states id = Some s' ∧ keeps_waiting s' (state ctx) ∧ custom s' = custom (user id)
        | None, _ => dget decisions id = None
        end
  | Raise e => ∃ id ctx x w, dget contexts id = Some ctx ∧ dget desired id = Some w ∧
      dget (_deployment_autoscaling_states a) id = Some x ∧
      (n ← alone w (user id) ctx (clock id 1%nat); apply_bounds n.1 x) = Raise e
  end.
Proof.
  intros Hw Hf Hc Hp user r. assert (dwf contexts) as Hwc by (unfold dwf; by rewrite (proj1 (contexts_keys _ _ _ _ _ Hc))).
  assert (∀ id ctx, dget contexts id = Some ctx → ∃ x info c, dget (_deployment_autoscaling_states a) id = Some x ∧ _deployment_info x = Some (info, c)) as Hx
    by (intros id ctx; exact (context_known _ _ _ _ _ id ctx Hc)).
  subst r user. rewrite (app_decisions f _ _ _ contexts) by done. unfold _apply_app_level_autoscaling_config. rewrite Hp. cbn [mbind result_bind fst snd].
  destruct (result_fold _ _ contexts) as [[decisions states]|e] eqn:E; cbn [fst snd].
  - assert (dwf decisions ∧ dwf states) as [W _] by (refine (decide_all_wf _ _ _ contexts ([], []) (decisions, states) _ _ E); constructor).
    pose proof (decide_all_ok _ _ _ _ _ _ Hwc E) as Hd. cbn [fst snd dget] in Hd.
    destruct (bound_decisions _ _ _) as [out|e] eqn:Eb.
    + exists states. split; [done|]. intros id. apply bound_decisions_ok with (id := id) in Eb. specialize (Hd id).
      destruct (dget contexts id) as [ctx|] eqn:Ei; [|destruct Hd as [Hd _]; by rewrite Hd in Eb].
      destruct Hd as (o & s & Ho & Hd & Hs). unfold decides in Ho. destruct (dget desired id) as [w|].
      * destruct Ho as (n & s' & -> & Ha & Hkeep). rewrite Hd in Eb. destruct Eb as (x & n' & Ex & Eo & Eb). 
        destruct (Hx id ctx Ei) as (x' & info & c & Ex' & Ec). cbn in Ex. assert (x' = x) as -> by congruence.
        destruct (own_policy _ _ info _ _ _ _ Ha) as (own & Hown & Hpol). exists x, info, c, n, n', s', s, own. by split_and!.
      * destruct Ho as [-> ->]. rewrite Hd in Eb. split; [done|]. eexists. split; [done|]. done.
    + apply bound_decisions_raises in Eb as (id & n & x & Hn & Ex & Eb); [|done|].
      * specialize (Hd id). destruct (dget contexts id) as [ctx|] eqn:Ei; [|destruct Hd as [Hd _]; congruence].
        destruct Hd as (o & s & Ho & Hd & Hs). unfold decides in Ho. destruct (dget desired id) as [w|] eqn:Ew.
        -- destruct Ho as (k & s' & -> & Ha & _). assert (k = n) as -> by congruence. exists id, ctx, x, w. rewrite Ha. done.
        -- destruct Ho as [-> _]. congruence.
      * intros id Hi. specialize (Hd id). destruct (dget contexts id) as [ctx|] eqn:Ei; [|exfalso; destruct Hd as [Hd _]; by apply dget_None in Hd].
        destruct (Hx id ctx Ei) as (x & _ & _ & Ex & _). unfold dmem. cbn. by rewrite Ex.
  - apply decide_all_raises in E as (id & ctx & w & Hi & Hw' & Ha); [|done]. destruct (Hx id ctx Hi) as (x & _ & _ & Ex & _).
    exists id, ctx, x, w. rewrite Ha. done.
Qed.
End application.

(** ** Decisions of the controller *)
Section controller.
Context {U : Type}.
Implicit Types (x : DeploymentAutoscalingState U) (a : ApplicationAutoscalingState U) (m : manager U).

(** A number of replicas the deployment may have. *)
Definition allowed x (n : Z) : Prop := ∃ info c lower upper, _deployment_info x = Some (info, c) ∧
  get_num_replicas_lower_bound info c = Ok lower ∧ get_num_replicas_upper_bound info c = Ok upper ∧
  lower ≤ n ∧ (n ≤ upper ∨ n = lower) ∧
  (target_capacity info = None → replicas_settings_valid c = Ok c → min_replicas c ≤ n ≤ max_replicas c).

(** The deployment after a decision: as it was, but for its policy's state. *)
Definition decided x x' : Prop := x' = x ∨ ∃ s, x' = set_policy_state s x.

Lemma bounds_allowed x n k : apply_bounds n x = Ok k → allowed x k.
Proof.
  unfold apply_bounds, bounded. intros H. inv_ok. destruct r as [info c]. cbn [fst snd] in *. exists info, c, r0, r1.
  split; [done|]. split; [done|]. split; [done|]. split; [lia|]. split; [lia|]. intros Ht Hv.
  unfold get_num_replicas_lower_bound, get_num_replicas_upper_bound, get_capacity_adjusted_num_replicas in *. rewrite Ht in *.
  unfold replicas_settings_valid in Hv. destruct (Z.ltb_spec (max_replicas c) (min_replicas c)); [done|].
  destruct (initial_replicas c) as [i|].
  - destruct (Z.ltb_spec i (min_replicas c)); [done|]. destruct (Z.ltb_spec (max_replicas c) i); [done|].
    destruct (target_capacity_direction info) as [[]|]; simplify_eq; lia.
  - destruct (target_capacity_direction info) as [[]|]; simplify_eq; lia.
Qed.

Lemma decision_allowed target clock x n x' : get_decision_num_replicas target false clock x = (Ok n, x') →
  allowed x n ∧ decided x x'.
Proof.
  unfold get_decision_num_replicas. destruct (_deployment_info x) as [[info c]|] eqn:Ei; [|done]. destruct (_ ≫= _) as [[k s]|]; [|done].
  intros [= H <-]. split; [|right; by exists s]. by apply (bounds_allowed (set_policy_state s x)) in H.
Qed.

Lemma decide_each_ok targets clock l decisions l' : decide_each targets false clock l = (Ok decisions, l') →
  (∀ id n, dget decisions id = Some n → ∃ x, dget l id = Some x ∧ allowed x n) ∧
  l'.*1 = l.*1 ∧ ∀ id x', dget l' id = Some x' → ∃ x, dget l id = Some x ∧ decided x x'.
Proof.
  revert decisions l'. induction l as [|[k x] l IH]; intros decisions l' H; cbn in H; [injection H as <- <-; by split; [|split]|].
  destruct (dget targets k) as [target|]; [|done]. destruct (get_decision_num_replicas _ _ _ _) as [[n|] x'] eqn:E; [|done]. cbn [fst snd] in H.
  destruct (decide_each _ _ _ l) as [[rest|] l2]; [|done]. cbn in H. injection H as <- <-.
  destruct (IH _ _ eq_refl) as (I1 & I2 & I3). destruct (decision_allowed _ _ _ _ _ E) as [Ha Hd]. split; [|split].
  - intros id k'. cbn. destruct (decide (id = k)) as [->|]; [|apply I1]. intros [= <-]. by exists x.
  - cbn. by f_equal.
  - intros id y. cbn. destruct (decide (id = k)) as [->|]; [|apply I3]. intros [= <-]. by exists x.
Qed.

Lemma app_decisions_allowed targets clock a decisions a' : app_get_decision_num_replicas targets false clock a = (Ok decisions, a') →
  (∀ id n, dget decisions id = Some n → ∃ x, dget (_deployment_autoscaling_states a) id = Some x ∧ allowed x n) ∧
  (_deployment_autoscaling_states a').*1 = (_deployment_autoscaling_states a).*1 ∧
  (∀ id x', dget (_deployment_autoscaling_states a') id = Some x' → ∃ x, dget (_deployment_autoscaling_states a) id = Some x ∧ decided x x') ∧
  _policy a' = _policy a.
Proof.
  unfold app_get_decision_num_replicas. destruct (_policy a) as [f|] eqn:Ep.
  - destruct (_ ≫= _) as [[ds ss]|]; [|done]. destruct (_validate_policy_state ss a); [|done]. destruct (decisions_valid _ _ _); [|done].
    intros [= H <-]. cbn [_deployment_autoscaling_states _policy]. split; [|split; [done|]; split; [|done]].
    + intros id n Hn. apply bound_decisions_ok with (id := id) in H. cbn [_deployment_autoscaling_states] in H.
      destruct (dget ds id) as [k|]; [|congruence]. destruct H as (x & n' & Hx & Ho & Hb). exists x. split; [done|].
      assert (n' = n) as -> by congruence. by apply bounds_allowed in Hb.
    + intros id x' Hx. exists x'. split; [done|by left].
  - destruct (decide_each _ _ _ _) as [r l'] eqn:E. cbn. intros [= -> <-]. destruct (decide_each_ok _ _ _ _ _ E) as (I1 & I2 & I3). done.
Qed.

(** C27: Decisions stay within the bounds and touch nothing else.  Every number
    decided for a deployment is one its bounds allow (between the smallest and
    the largest number of replicas of an accepted configuration without a
    target capacity), and the deployments stay those they were, with their
    reports, their replicas and their registered information; only policies'
    states change, and no other application's. *)
Theorem decisions_bounded app targets clock m decisions m' :
  manager_get_decision_num_replicas app targets clock m = (Ok decisions, m') →
  ∃ a a', dget m app = Some a ∧ dget m' app = Some a' ∧
  (∀ id n, dget decisions id = Some n → ∃ x, dget (_deployment_autoscaling_states a) id = Some x ∧ allowed x n) ∧
  (_deployment_autoscaling_states a').*1 = (_deployment_autoscaling_states a).*1 ∧
  (∀ id x', dget (_deployment_autoscaling_states a') id = Some x' → ∃ x, dget (_deployment_autoscaling_states a) id = Some x ∧ decided x x') ∧
  _policy a' = _policy a ∧
  ∀ other, other ≠ app → dget m' other = dget m other.
Proof.
  unfold manager_get_decision_num_replicas. destruct (dget m app) as [a|] eqn:Ea; [|done].
  destruct (app_get_decision_num_replicas targets false clock a) as [r a'] eqn:E. cbn. intros [= -> <-].
  destruct (app_decisions_allowed _ _ _ _ _ E) as (I1 & I2 & I3 & I4). exists a, a'. split; [done|]. rewrite dget_dset_eq. split; [done|].
  split; [done|]. split; [done|]. split; [done|]. split; [done|]. intros other Ho. by rewrite dget_dset_ne.
Qed.
End controller.

(** ** Runs *)
Module ServeRun.
Definition secs (n : Z) : float := f_of_int n.
Definition settings (low high : Z) (up down : Z) : AutoscalingConfig.t := {|
  min_replicas := low; initial_replicas := None; max_replicas := high; target_ongoing_requests := Some (f_of_int 2);
  metrics_interval_s := secs 10; smoothing_factor := f_one; upscale_smoothing_factor := None; downscale_smoothing_factor := None;
  upscaling_factor := None; downscaling_factor := None; downscale_delay_s := secs down; downscale_to_zero_delay_s := None;
  upscale_delay_s := secs up |}.
Definition deployed (c : AutoscalingConfig.t) (p : user_policy) (gang capacity : option Z) : DeploymentInfo unit := {|
  autoscaling_config := Some c; policy_function := p; gang_size := gang; target_capacity := f_of_int <$> capacity; target_capacity_direction := None |}.

Definition front : DeploymentID := {| name := "front"; app_name := "shop" |}.
Definition model : DeploymentID := {| name := "model"; app_name := "shop" |}.
Definition replica (d : DeploymentID) (n : string) : ReplicaID := {| unique_id := n; deployment_id := d |}.
Definition load (r : ReplicaID) (n : Z) : ReplicaMetricReport :=
  {| replica_id := r; replica_aggregated_metrics := [(RUNNING_REQUESTS_KEY, f_of_int n)]; replica_timestamp := secs 1 |}.

(** Two deployments, each with one busy replica. *)
Definition registered (c : AutoscalingConfig.t) (gang capacity : option Z) : manager unit :=
  let info := deployed c replica_queue_length_autoscaling_policy gang capacity in
  let m := (register_deployment front info false 1 []).2 in
  let m := (register_deployment model info false 1 m).2 in
  let m := (manager_update_running_replica_ids front [replica front "a"] m).2 in
  let m := (manager_update_running_replica_ids model [replica model "b"] m).2 in
  let m := manager_record_request_metrics_for_replica (load (replica front "a") 8) m in
  manager_record_request_metrics_for_replica (load (replica model "b") 3) m.

Definition targets : dict DeploymentID Z := [(front, 1); (model, 1)].
Definition clock (n : Z) : DeploymentID → nat → float := λ _ _, secs n.

(** The loads want four replicas and two; a limit of three cuts the first. *)
Definition at_once : manager unit := registered (settings 1 3 0 0) None None.
Lemma decisions_run : (manager_get_decision_num_replicas "shop" targets (clock 100) at_once).1 = Ok [(front, 3); (model, 2)].
Proof. vm_compute. reflexivity. Qed.

Lemma decisions_bounded_witness : ∃ a, dget at_once "shop" = Some a ∧
  ∃ x, dget (_deployment_autoscaling_states a) front = Some x ∧ allowed x 3.
Proof.
  destruct (manager_get_decision_num_replicas "shop" targets (clock 100) at_once) as [r m'] eqn:E.
  assert (r = Ok [(front, 3); (model, 2)]) as -> by (rewrite <-decisions_run, E; reflexivity).
  destruct (decisions_bounded "shop" targets (clock 100) at_once _ _ E) as (a & a' & Ha & _ & Hd & _).
  exists a. split; [exact Ha|]. destruct (Hd front 3 eq_refl) as (x & Hx & Hn).
  exists x. split; [exact Hx|exact Hn].
Defined.

(** A wish for five replicas takes effect after thirty seconds. *)
Definition wish (n : Z) : tick := {| at_time := secs n; desired := 5; target := 2 |}.
Lemma delayed_decisions_witness :
  chosen (U:=unit) (settings 1 9 30 600) [wish 0; wish 10; wish 20] (wish 30) = 5 ∧
  (chosen (U:=unit) (settings 1 9 30 600) [wish 0; wish 10] (wish 20) ≠ 2 ↔
    dir (wish 20) ≠ 0 ∧ ∃ l1 l2, [wish 0; wish 10] = l1 ++ l2 ∧
      streak (U:=unit) (settings 1 9 30 600) (dir (wish 20)) l1 l2 ∧
      elapsed (secs 20) (at_time (default (wish 20) (head l2))) (delay_of (settings 1 9 30 600) (wish 20)) = true).
Proof.
  split; [vm_compute; reflexivity|].
  apply (delayed_decisions (U:=unit) (settings 1 9 30 600) [wish 0; wish 10] (wish 20)).
  repeat constructor; cbn; lia.
Defined.

(** A policy of the application that wants six replicas of [front]. *)
Definition wants_six : app_user_policy (U:=unit) := λ _, Ok ([(front, Int 6)], None).
Definition with_app_policy : ApplicationAutoscalingState unit :=
  default app_init (dget (register_application "shop" wants_six at_once) "shop").
Lemma app_decides_as_deployments_witness : ∃ contexts states x n s,
  (app_get_decision_num_replicas targets false (clock 100) with_app_policy).1 = Ok [(front, 3)] ∧
  dget (_deployment_autoscaling_states with_app_policy) front = Some x ∧
  (∃ ctx, dget contexts front = Some ctx ∧ alone (U:=unit) (Int 6) no_state ctx (secs 100) = Ok (n, s)) ∧ apply_bounds n x = Ok 3 ∧
  (app_get_decision_num_replicas targets false (clock 100) with_app_policy).2 = with_policy_state states with_app_policy.
Proof.
  destruct (autoscaling_contexts targets (default [] (_app_policy_state with_app_policy)) (λ id, clock 100 id O)
    (_deployment_autoscaling_states with_app_policy)) as [contexts|e] eqn:E; [|vm_compute in E; discriminate E].
  pose proof (app_decides_as_deployments wants_six targets (clock 100) with_app_policy contexts [(front, Int 6)] None) as H.
  assert (dwf (_deployment_autoscaling_states with_app_policy)) as Hw by (apply (bool_decide_unpack _); vm_compute; exact I).
  specialize (H Hw eq_refl E eq_refl). cbn zeta in H.
  destruct (app_get_decision_num_replicas targets false (clock 100) with_app_policy) as [r a'] eqn:Er. cbn [fst snd] in *.
  assert (r = Ok [(front, 3)]) as -> by (apply (f_equal fst) in Er; vm_compute in Er; exact (eq_sym Er)).
  destruct H as (states & -> & H). specialize (H front).
  destruct (dget contexts front) as [ctx|] eqn:Ec; [|discriminate H].
  destruct H as (x & info & c & n & n' & s & s' & own & Hx & Ha & Hb & Hd & _). injection Hd as <-.
  exists contexts, states, x, n, s. split; [reflexivity|]. split; [exact Hx|].
  split; [exists ctx; split; [exact Ec|exact Ha]|]. split; [exact Hb|reflexivity].
Defined.

(** Gangs of four, from four to eight replicas, at three quarters of the
    capacity: the load of [front] wants four replicas, the upper bound is six
    and the lower one three.  With twice the load the policy asks for two whole
    gangs, which the bounds cut to six replicas. *)
Lemma gang_cut :
  let m := registered (settings 4 8 0 0) (Some 4) (Some 75) in
  let busier := {| replica_id := replica front "a"; replica_aggregated_metrics := [(RUNNING_REQUESTS_KEY, f_of_int 16)];
                   replica_timestamp := secs 2 |} in
  (manager_get_decision_num_replicas "shop" targets (clock 100) m).1 = Ok [(front, 4); (model, 4)] ∧
  (manager_get_decision_num_replicas "shop" targets (clock 100) (manager_record_request_metrics_for_replica busier m)).1 =
    Ok [(front, 6); (model, 4)] ∧ 6 `mod` 4 ≠ 0.
Proof. split; [vm_compute; reflexivity|]. split; [vm_compute; reflexivity|]. discriminate. Qed.

(** Two deployments in gangs of four, from four to eight replicas, and a policy
    that wants five replicas of [front].  The policy of the application gets
    five, one whole gang and a part of another; as the deployment's own it gets
    the two gangs of the documentation's example. *)
Definition in_fours : manager unit := registered (settings 4 8 0 0) (Some 4) None.
Definition wants_five : app_user_policy (U:=unit) := λ _, Ok ([(front, Int 5)], None).
Definition own_five : DeploymentAutoscalingState unit :=
  (update_running_replica_ids [replica front "a"]
    (register (deployed (settings 4 8 0 0) (λ _, Ok (Int 5, no_state)) (Some 4) None) false 4 init).2).
Lemma application_parts_gangs :
  (app_get_decision_num_replicas targets false (clock 100)
    (default app_init (dget (register_application "shop" wants_five in_fours) "shop"))).1 = Ok [(front, 5)] ∧
  (get_decision_num_replicas 4 false (clock 100 front) own_five).1 = Ok 8.
Proof. split; vm_compute; reflexivity. Qed.

(** Three replicas starting, none running, and a policy that wants one: fewer,
    and at once, where the delay is six hundred seconds. *)
Definition starting : AutoscalingContext unit := {|
  current_num_replicas := 0; target_num_replicas := 3; running_replicas := []; total_num_requests := f_zero;
  total_queued_requests := f_zero; capacity_adjusted_min_replicas := 1; capacity_adjusted_max_replicas := 9; state := no_state;
  last_scale_up_time := None; last_scale_down_time := None; current_time := secs 100; config := settings 1 9 30 600;
  total_pending_async_requests := 0 |}.
Lemma downscale_at_once : _apply_default_params (Int 1) starting no_state (secs 100) = Ok (1, no_state).
Proof. vm_compute. reflexivity. Qed.
End ServeRun.
